(* ===== verification/_CoqProject ===== *)
-Q . S2P
Prelude.v
Bytes.v
Effects.v
LruStore.v
ShardedStore.v
TransportState.v
TlsFlow.v
HttpVersions.v
MqttModel.v
MqttCodec.v
Http2Session.v
Http2Pool.v
TlsConfig.v
Http3Session.v
DownstreamSessions.v
Http1Text.v
Http1Io.v
Http1RequestBody.v
HttpHeaders.v
Http1SenderPool.v
Http1ResponseBody.v
Http1FastPath.v
Http1Upstream.v
HostRuntime.v
WebSocketState.v
BodyStream.v
UpstreamBody.v
Http1ResponseWriter.v
Http1Relay.v
DownstreamResponse.v
HttpExchange.v
UpstreamRequest.v
UpstreamSend.v
UpstreamStart.v
Sockets.v
MqttUpstream.v
MqttSession.v
MqttCalls.v
UdpSockets.v
UdpCalls.v
TcpStreams.v
TcpCalls.v
TlsSessions.v
TlsCalls.v
WebSocketSessions.v
WebSocketCalls.v
ProxyStreams.v
ProxyCalls.v
VmRunner.v
Http1Serving.v
Http1Pipeline.v
