(* ===== verification/Prelude.v ===== *)
(** * A verification development for pd-edge

    pd-edge is an edge runtime: it accepts HTTP/1, HTTP/2, HTTP/3, WebSocket,
    MQTT, TCP, UDP and TLS traffic, runs a program of the pd vm for each request
    or connection, and lets the program talk to upstreams through host calls.
    This library models the parts of its Rust code that decide what happens to
    bytes, connections, sessions and pending operations, as executable
    definitions, and proves what makes those parts correct.

    ** Conventions

    A method that changes [self] is a function from the state to a result and
    the new state, in the order of the source's statements; a record update is
    written [s <| field := v |>].  [Result] is [result] below, the errors of the
    vm crate are [VmError], and code that indexes slices runs in [outcome],
    where a panic is a value.  Integers are [Z] with the source's wrap-around,
    saturation or checks written out; bytes are [list Z].  What is not under
    [src/] (tokio, the [http] crate, httparse, hashing, rustls, the vm) is a
    parameter: section variables, or a type class with the documented laws the
    code relies on ([HttpHeaders.HttpCrate], [HttpHeaders.HeaderMap] and
    [HeaderMapMut], [Http1FastPath.HttpParser], [Http1Upstream.ResponseParser],
    [Http1Upstream.Sink], [Http1ResponseWriter.StatusCrate],
    [HttpExchange.AuthorityCrate] and [RequestCrate], [TlsConfig.TlsCrate],
    [UpstreamStart.Senders], [Sockets.Network], [UdpSockets.UdpNetwork]), with an
    instance that the concrete theorems use; [TcpStreams.HttpSide] and
    [TlsSessions.TlsHttpSide] are the interfaces of the stream and session calls
    to the HTTP ones ([ProxyStreams.ProxyHttpSide] that of proxying), and
    [TlsSessions.TlsServer] is the other end of a handshake; [WebSocketSessions.WebSocketCrate] is that of tokio-tungstenite.
    A future is modelled up to its awaits: what a peer sends is a list of reads,
    and concurrent callers interleave through a step relation.

    ** Files

    - [Prelude], [Bytes], [Effects]: results, record updates, list and map
      lemmas; bytes, strings, UTF-8, trimming, splitting; the state-and-error
      monad of the host calls.
    - [LruStore], [ShardedStore]: [src/cache.rs].  [BoundedLruStore] refines an
      abstract recency list; the sharded store is linearizable under concurrent
      [get_or_insert_with_cloned] and never exceeds its capacity.
    - [TransportState]: [src/abi_impl/transport/state.rs]: reserved handles, the
      TCP and UDP socket states, reads through a replayed prefix.
    - [TlsFlow]: the TLS part of the same file: handshake phases,
      configuration, session cache keys.
    - [HttpVersions]: [src/abi_impl/http/version.rs] and the origin and mode
      choices of [src/abi_impl/http/state.rs], [http2/model.rs], [http3/model.rs].
    - [MqttModel], [MqttCodec]: [src/abi_impl/mqtt/]: connection state; the
      packet codec, which never panics, is incremental and round trips.
    - [Http2Session], [Http2Pool]: [src/abi_impl/http2/upstream.rs]: streams and
      sessions; single-flight opening under any interleaving.
    - [Http3Session]: [src/abi_impl/http3/upstream.rs]: sessions and their pool.
    - [DownstreamSessions]: [http2/downstream.rs] and [http3/downstream.rs], the
      tables of downstream sessions, over [LruStore].
    - [Http1Text], [Http1Io]: lines, chunk prefixes and sizes, buffered reads of
      a connection; shared by both directions of HTTP/1.
    - [Http1RequestBody]: the request body lease of
      [src/runtime/http_plane/http1_fast_path.rs].
    - [HttpHeaders]: [LazyHttpHeaders] of [http/state/request_context.rs].
    - [Http1FastPath]: the classifier of [http/fast_path.rs] and the head reader
      of [http1_fast_path.rs], composed with the body lease.
    - [Http1SenderPool], [Http1ResponseBody], [Http1Upstream]:
      [src/abi_impl/http/outbound_http1.rs]: the pool of idle connections, the
      response body with its lease, the request head and body as written, the
      response head, forwarding with its one retry.
    - [BodyStream]: [http/state/body_io.rs]: buffered bodies, read in chunks,
      lines or whole; the inbound request body.  [UpstreamBody]:
      [http/state/upstream_body.rs]: the response body of an upstream, over the
      HTTP/1 lease or the frames of an HTTP/2 or HTTP/3 stream.
    - [Http1ResponseWriter], [Http1Relay]: the response writers of
      [http1_fast_path.rs]: any response; one relayed from an upstream, made by
      the program, or looked at by it.
    - [DownstreamResponse]: [http/state/downstream_response.rs] and the calls of
      [http/response.rs]: the response a program builds or streams while the
      server sends it, and how it is resolved.
    - [HttpExchange]: the outbound exchanges of [http/state.rs] and the calls of
      [http/exchange.rs] that build their requests.  [UpstreamRequest]:
      [http/state/upstream.rs] up to the serialized request: the request as it
      is snapshot, its headers and its body.
    - [TlsConfig]: the rustls configurations made of a TLS flow in
      [transport/tls.rs], [http2/upstream.rs] and [quic/mod.rs].
    - [UpstreamSend]: sending a request on a shared session, in
      [http2/upstream.rs] and [http3/upstream.rs], over [Http2Session] and
      [Http3Session].  [UpstreamStart]: the rest of starting an exchange in
      [http/state/upstream.rs]: which protocols are tried, what each is handed,
      what is noted and what is stored.
    - [Sockets]: streams and the tables of dynamic handles, with the network as
      a parameter.  [MqttUpstream]: [src/abi_impl/mqtt/upstream.rs], the host
      calls on MQTT connections, over [MqttModel], [MqttCodec] and [Sockets];
      [MqttSession] has the logic they are proved in, [MqttCalls] the properties
      of sequences of calls.
    - [UdpSockets], [UdpCalls]: [src/abi_impl/transport/udp.rs], the host calls
      on UDP sockets, and sequences of them.  [TcpStreams], [TcpCalls]:
      [src/abi_impl/transport/tcp.rs], the same for TCP streams: the downstream,
      the sockets of a program, and handles that stand for HTTP bodies.
      [TlsSessions], [TlsCalls]: [src/abi_impl/transport/tls.rs], the host calls
      on TLS sessions, over [TlsFlow], [TlsConfig], [LruStore] and [TcpStreams].
    - [HostRuntime]: [src/abi_impl/mod.rs]: pending host operations, rate limiter.
    - [WebSocketState]: [src/abi_impl/websocket/state.rs], frames and phases.
      [WebSocketSessions], [WebSocketCalls]: [src/abi_impl/websocket/connection.rs],
      the host calls on websocket connections, over [WebSocketState] and
      [HttpExchange].
    - [ProxyStreams], [ProxyCalls]: [src/abi_impl/proxy.rs] and the tunnels of
      [http/state.rs]: byte streams over bodies, sockets, sessions and
      websockets, pipes and relays, over [TcpStreams] and [TlsSessions].  The two
      directions of a relay are tasks whose polls a schedule interleaves.
    - [Http1Serving], [Http1Pipeline]: the loop of [http1_fast_path.rs] that
      serves a connection, over [Http1FastPath], [Http1RequestBody] and
      [Http1ResponseWriter], and what leads to it in [http_plane/proxy_path.rs];
      the program and its host are the interface [Http1Serving.RequestRunner].

    ** What the theorems show

    - HTTP/1 stays in step.  [fast_path_in_step], [request_body_exact]: a
      downstream connection is read head by head and body by body, however the
      network splits it, and exactly the next request is left.
      [requests_answered_in_order]: so requests sent one after the other are
      answered one by one, each by its program, each answer delimited by its
      head; [connection_ends]: and serving ends, whatever the peer sends.
      [exchange_in_step], [response_body_reuse]: whatever an upstream sends, the
      exchange ends, and its connection is pooled only after exactly one
      well-formed response.  [request_body_sent], [inherited_head_framing]: what
      is sent is framed as announced, so that such a reader reads it back.
      [forward_sends_once]: a request is sent again only if its body can be.
      [sender_pool_refines]: the pool is one bounded stack per key.
    - Bodies and responses.  [body_reads_refine], [passthrough_whole],
      [snapshot_relayed]: however a program reads a body, each read is a part of
      the one body, and what is passed on is all of it.  [response_framed],
      [native_relayed]: the bytes of a written response
      are what its head says.  [stream_delivered], [streamed_response_sent],
      [committed_head_fixed], [call_refused]: what a program streams is what the
      client reads, under a head that no longer changes, and every refused call
      leaves the response alone.  [body_end_releases_stream] ties the end of a
      body to the HTTP/2 session that carried it.
    - Requests to the upstream.  [exchanges_well_formed], [exchanges_isolated]:
      whatever calls a program makes, every request has a consistent target and
      a request line that is one line, and calls on one exchange leave the
      others alone.  [inheritance_transparent], [client_body_forwarded]: what is
      sent for a request that was not changed is what the client sent, and its
      body is whole whatever part of it was read before.
      [start_response_stored], [every_attempt_sends_whole_body]: starting an
      exchange ends with the response it then holds, whatever other tasks do,
      tries each protocol once at most, and gives each the whole body;
      [http3_request_sent], [http2_request_sent]: a shared session is handed the
      request with that body, once.  [client_configs_sound],
      [pooled_config_same]: the three transports verify a server alike, and
      connections are shared only between flows that do.
    - MQTT.  [mqtt_calls_end]: every call ends or waits for a silent peer, and
      none panics.  [mqtt_messages_in_order]: every message of the broker is
      handed over once, in order, and acknowledged.  [mqtt_requests_answered]: a
      publish or subscription that succeeds was answered with its identifier.
      [mqtt_silent_broker_found_out]: keep-alive finds out a dead broker.
    - TCP and UDP.  [tcp_call_moves_pipe], [tcp_stream_in_order]: a stream is a
      pipe of bytes, and every call moves it as its answer says, whatever was
      peeked before.  [udp_datagrams_whole]: the datagrams on the wire and those
      handed over are whole, in order, and once.
    - TLS.  [tls_sessions_as_configured], [clients_served_as_configured]: in any
      sequence of calls an established session was made of the settings it shows,
      verified as they ask, and a client is served with the settings made last,
      whatever was kept of earlier ones.
    - Websockets.  [websocket_messages_in_order]: in any sequence of calls each
      stream belongs to one connection, its messages are handed over in order and
      once, and what is sent is what successful calls sent.
      [upstream_websocket_opened]: how an attempt to connect can end, and what the
      request of the handshake says.
    - Proxying.  [pipe_copies]: a pipe copies its source to the end, in order, or
      fails because a read or write failed.  [forward_relays]: a relay does so in
      both directions however they interleave.  [silent_side_hears_nothing]: but
      it passes nothing to a side that is silent.  [connect_tunnel_handed_over],
      [refused_tunnel_loses_stream]: what becomes of the stream of a tunnel.
    - State machines: invariants over all reachable states for the HTTP/2 and
      HTTP/3 sessions, the downstream tables, TLS flows, MQTT connections and
      websockets, and that sessions never reopen and drain after GOAWAY.
    - Containers and codecs: refinement of the LRU stores, linearizability of
      the sharded one, round trips and panic freedom of the MQTT codec.
    - The host runtime: operations are delivered exactly once; the rate limiter
      bounds every interval.
    - Theorems whose comments describe what goes wrong ([http2_pool_lost_wakeup],
      [payload_too_large_forgotten], [interim_response_pooled] and the like) prove
      behaviours of the code that its other parts do not expect.

    ** Bounds and fuel

    The loops of the body readers ([pull_loop], [collect]) take fuel computed
    from the connection: twice the bytes it may still give plus the reads left.
    [Http1RequestBody.pull_step_spec] and [Http1ResponseBody.pull_step_sound]
    show that every iteration decreases that measure, and the theorems above
    conclude that a result is returned.  A buffered body's reads take two more
    than the size of its source, streaming the rest of a request body two more
    than its length ([stream_fuel]), and passing a body on the size of the
    stream that is left plus four: its prefix, its trailers and its end.  Reading
    an MQTT packet takes twice what its stream has left to give plus two (a ping
    and the end), waiting for one as many rounds as bytes are left; an exact read of a stream takes as many
    as the bytes it wants.  Loops over a peer's reads, a packet or a
    queue recurse on that list.  Serving a connection takes one request more
    than that measure of it ([Http1Pipeline.read_smaller]); a pipe takes one
    round more than its source has bytes and errors left to give
    ([ProxyCalls.to_come]), and a relay runs for as long as its schedule.  The op
    id loop makes the source's 65535 attempts.

    ** Not modelled

    Sockets and TLS handshakes, the h2, h3, quinn, tungstenite and webrtc
    drivers, metrics and logging, the vm and the registration of host functions,
    command lines, the admin API and the control plane client.  Locks are
    modelled by the atomicity of their critical sections; poisoning is not.

    What is left of the program's own logic is the derived fields of a
    request, the virtual I/O handles of [raw_handles.rs] and [io.rs], and the
    program runner of [runtime/vm_runner.rs]. *)

From Stdlib Require Export ZArith Lia.
From stdpp Require Export base tactics option numbers strings pretty gmap relations sorting list_numbers list.

#[global] Open Scope Z_scope.

(** * Results and errors *)

(** [Result<T, E>] of the Rust code. *)
Inductive result (E A : Type) : Type :=
| Ok (a : A)
| Err (e : E).
Arguments Ok {E A} a.
Arguments Err {E A} e.

#[export] Instance result_ret E : MRet (result E) := fun A a => Ok a.
#[export] Instance result_bind E : MBind (result E) := fun A B f r =>
  match r with Ok a => f a | Err e => Err e end.
#[export] Instance result_fmap E : FMap (result E) := fun A B f r =>
  match r with Ok a => Ok (f a) | Err e => Err e end.

Definition is_Ok {E A} (r : result E A) : bool := match r with Ok _ => true | Err _ => false end.

(** [Option::ok_or_else] *)
Definition ok_or {E A} (e : E) (o : option A) : result E A :=
  match o with Some a => Ok a | None => Err e end.

(** The constructors of [vm::VmError] that the modelled code builds. *)
Inductive VmError : Type :=
| HostError (message : string)
| TypeMismatch (expected : string).

Abbreviation vm_result := (result VmError).

#[export] Instance VmError_eq_dec : EqDecision VmError.
Proof. solve_decision. Defined.
#[export] Instance result_eq_dec E A `{EqDecision E, EqDecision A} : EqDecision (result E A).
Proof. solve_decision. Defined.

(** * Record update

    [s <| f := v |>] is [s] with field [f] replaced.  A record type declares
    how it is rebuilt from its own projections ([Eta]); the setter of a field is
    computed from that term. *)

Class Eta (R : Type) := eta : R -> R.
Class Setter {R T : Type} (proj : R -> T) := set_field : T -> R -> R.
Arguments set_field {R T} proj {_} _ _ : assert.

Ltac build_setter :=
  match goal with
  | |- @Setter ?R ?T ?p =>
      let v := fresh "v" in
      let x := fresh "x" in
      intros v x;
      let i := constr:(_ : Eta R) in
      let b := eval red in (i x) in
      let b := eval hnf in b in
      let b := eval pattern (p x) in b in
      match b with
      | ?f _ => let r := eval cbv beta in (f v) in exact r
      end
  end.

#[export] Hint Extern 0 (Setter _) => build_setter : typeclass_instances.

Declare Scope record_scope.
Delimit Scope record_scope with rec.
#[global] Open Scope record_scope.
Notation "s <| f := v |>" := (set_field f v s)
  (at level 14, left associativity, format "s  <| f  :=  v |>") : record_scope.

(** * Lists *)

Lemma elem_of_drop {A} n (l : list A) x : x ∈ drop n l -> x ∈ l.
Proof. intros Hx. rewrite <-(take_drop n l), elem_of_app. by right. Qed.

Lemma elem_of_take {A} n (l : list A) x : x ∈ take n l -> x ∈ l.
Proof. intros Hx. rewrite <-(take_drop n l), elem_of_app. by left. Qed.

Lemma filter_id {A} (P : A -> Prop) `{!forall x, Decision (P x)} (l : list A) :
  (forall x, x ∈ l -> P x) -> filter P l = l.
Proof.
  induction l as [|x l IH]; intros HP; [done|].
  rewrite filter_cons_True by (apply HP; constructor). f_equal. apply IH.
  intros y Hy. apply HP. by constructor.
Qed.

Lemma map_size_alter {K A} `{Countable K} (f : A -> A) (k : K) (m : gmap K A) :
  size (alter f k m) = size m.
Proof. by rewrite <-!size_dom, dom_alter_L. Qed.

Lemma alter_idemp {K A} `{Countable K} (f : A -> A) (k : K) (m : gmap K A) :
  (forall x, f (f x) = f x) -> alter f k (alter f k m) = alter f k m.
Proof.
  intros Hf. apply map_eq. intros j. destruct (decide (k = j)) as [->|].
  - rewrite !lookup_alter_eq. destruct (m !! j); cbn; by rewrite ?Hf.
  - by rewrite !lookup_alter_ne.
Qed.

(** * Panics

    Code that indexes slices is modelled in [outcome]: a run ends with a value,
    a [VmError], or a panic. *)

Inductive fault : Type :=
| Fail (e : VmError)
| Panic.

Abbreviation outcome := (result fault).

Definition fail {A} (message : string) : outcome A := Err (Fail (HostError message)).
Definition or_panic {A} (o : option A) : outcome A := ok_or Panic o.

(** The run does not panic. *)
Definition no_panic {A} (r : outcome A) : Prop := r ≠ Err Panic.

Lemma no_panic_bind {A B} (r : outcome A) (f : A -> outcome B) :
  no_panic r -> (forall a, r = Ok a -> no_panic (f a)) -> no_panic (r ≫= f).
Proof. unfold no_panic. destruct r; cbn; [by auto|congruence]. Qed.

Lemma no_panic_Ok {A} (a : A) : no_panic (Ok a).
Proof. done. Qed.
Lemma no_panic_fail {A} (message : string) : no_panic (@fail A message).
Proof. done. Qed.

Create HintDb no_panic.
#[export] Hint Resolve no_panic_Ok no_panic_fail : no_panic.

Lemma bind_Ok {E A B} (r : result E A) (f : A -> result E B) b :
  r ≫= f = Ok b <-> exists a, r = Ok a /\ f a = Ok b.
Proof.
  destruct r as [a|e]; cbn; [split; [eauto|by intros (? & [= <-] & ?)]|].
  split; [done|by intros (? & ? & _)].
Qed.

(** * Finite checks on small ranges *)

Lemma seqZ_check (P : Z -> bool) lo n :
  forallb P (seqZ lo n) = true -> forall b, lo <= b < lo + n -> P b = true.
Proof.
  rewrite forallb_forall. intros HP b Hb. apply HP, list_elem_of_In, elem_of_seqZ. lia.
Qed.
