(* ===== verification/Bytes.v ===== *)
(** Bytes, strings and the pieces of Rust's standard library the components
    share: big-endian integers, [str::from_utf8] and its error display,
    [String::from_utf8_lossy], ASCII case folding, [str::trim] and [str::split].
    A [u8] is a [Z] in the range 0 to 255, a [Vec<u8>] a [list Z], and a Rust
    string is a Rocq [string] of its UTF-8 bytes. *)

From S2P Require Import Prelude.

(** * Machine integers *)

Definition in_u8 (b : Z) : Prop := 0 <= b < 256.
Definition in_u16 (n : Z) : Prop := 0 <= n < 65536.
Definition is_u8s (l : list Z) : Prop := Forall in_u8 l.
Definition U16_MAX : Z := 65535.
Definition U64_MAX : Z := 18446744073709551615.

(** [u64::saturating_add] *)
Definition saturating_add_u64 (n k : Z) : Z := Z.min (n + k) U64_MAX.

(** The length of a vector as a [usize]. *)
Definition len {A} (l : list A) : Z := Z.of_nat (length l).

(** [u16::to_be_bytes] and [u16::from_be_bytes] *)
Definition u16_to_be_bytes (n : Z) : list Z := [Z.land (Z.shiftr n 8) 255; Z.land n 255].
Definition u16_from_be_bytes (hi lo : Z) : Z := Z.lor (Z.shiftl hi 8) lo.

(** [&bytes[a..b]], which panics ([None]) when the range is not inside. *)
Definition slice {A} (l : list A) (a b : Z) : option (list A) :=
  if (0 <=? a) && (a <=? b) && (b <=? len l)
  then Some (take (Z.to_nat (b - a)) (drop (Z.to_nat a) l)) else None.

(** [bytes[i]] *)
Definition index {A} (l : list A) (i : Z) : option A :=
  if (0 <=? i) && (i <? len l) then l !! Z.to_nat i else None.

(** * Strings and bytes *)

Definition byte_of_ascii (a : Ascii.ascii) : Z := Z.of_N (Ascii.N_of_ascii a).
Definition ascii_of_byte (b : Z) : Ascii.ascii := Ascii.ascii_of_N (Z.to_N b).

Fixpoint bytes_of_string (s : string) : list Z :=
  match s with
  | EmptyString => []
  | String a s => byte_of_ascii a :: bytes_of_string s
  end.

Fixpoint string_of_bytes (l : list Z) : string :=
  match l with
  | [] => EmptyString
  | b :: l => String (ascii_of_byte b) (string_of_bytes l)
  end.

(** [str::len]: the number of bytes. *)
Definition str_len (s : string) : Z := len (bytes_of_string s).

Definition is_empty (s : string) : bool := bool_decide (s = "").

(** A string that is empty counts as absent. *)
Definition non_empty (s : string) : option string := if is_empty s then None else Some s.

(** [{}] of an unsigned or signed integer. *)
Definition dec (n : Z) : string := pretty n.

(** * UTF-8 *)

(** [core::str::Utf8Error] *)
Record Utf8Error := MkUtf8Error { valid_up_to : Z; error_len : option Z }.

Definition utf8_char_width (b : Z) : Z :=
  if (0 <=? b) && (b <? 128) then 1
  else if (194 <=? b) && (b <=? 223) then 2
  else if (224 <=? b) && (b <=? 239) then 3
  else if (240 <=? b) && (b <=? 244) then 4
  else 0.

Definition is_cont (b : Z) : bool := (128 <=? b) && (b <=? 191).

(** The admissible second byte of a three and a four byte sequence. *)
Definition second3 (first b : Z) : bool :=
  ((first =? 224) && (160 <=? b) && (b <=? 191))
  || ((225 <=? first) && (first <=? 236) && is_cont b)
  || ((first =? 237) && (128 <=? b) && (b <=? 159))
  || ((238 <=? first) && (first <=? 239) && is_cont b).
Definition second4 (first b : Z) : bool :=
  ((first =? 240) && (144 <=? b) && (b <=? 191))
  || ((241 <=? first) && (first <=? 243) && is_cont b)
  || ((first =? 244) && (128 <=? b) && (b <=? 143)).

(** [core::str::validations::run_utf8_validation], from offset [i]. *)
Fixpoint utf8_validate (i : Z) (l : list Z) : option Utf8Error :=
  match l with
  | [] => None
  | first :: l1 =>
      let err n := Some (MkUtf8Error i n) in
      let w := utf8_char_width first in
      if w =? 1 then utf8_validate (i + 1) l1
      else if w =? 2 then
        match l1 with
        | [] => err None
        | b2 :: l2 => if is_cont b2 then utf8_validate (i + 2) l2 else err (Some 1)
        end
      else if w =? 3 then
        match l1 with
        | [] => err None
        | b2 :: l2 =>
            if negb (second3 first b2) then err (Some 1)
            else match l2 with
                 | [] => err None
                 | b3 :: l3 => if is_cont b3 then utf8_validate (i + 3) l3 else err (Some 2)
                 end
        end
      else if w =? 4 then
        match l1 with
        | [] => err None
        | b2 :: l2 =>
            if negb (second4 first b2) then err (Some 1)
            else match l2 with
                 | [] => err None
                 | b3 :: l3 =>
                     if negb (is_cont b3) then err (Some 2)
                     else match l3 with
                          | [] => err None
                          | b4 :: l4 =>
                              if is_cont b4 then utf8_validate (i + 4) l4 else err (Some 3)
                          end
                 end
        end
      else err (Some 1)
  end.

(** [std::str::from_utf8] *)
Definition from_utf8 (l : list Z) : result Utf8Error string :=
  match utf8_validate 0 l with
  | None => Ok (string_of_bytes l)
  | Some e => Err e
  end.

Definition utf8_ok (s : string) : Prop := utf8_validate 0 (bytes_of_string s) = None.

(** [impl Display for Utf8Error] *)
Definition utf8_error_display (e : Utf8Error) : string :=
  match e.(error_len) with
  | Some n => "invalid utf-8 sequence of " +:+ dec n +:+ " bytes from index " +:+ dec e.(valid_up_to)
  | None => "incomplete utf-8 byte sequence from index " +:+ dec e.(valid_up_to)
  end.

(** [String::from_utf8_lossy]: every maximal invalid chunk becomes U+FFFD. *)
Fixpoint lossy_loop (fuel : nat) (l : list Z) : list Z :=
  match fuel with
  | O => []
  | S fuel =>
      match utf8_validate 0 l with
      | None => l
      | Some e =>
          take (Z.to_nat e.(valid_up_to)) l ++ [239; 191; 189] ++
          match e.(error_len) with
          | None => []
          | Some n => lossy_loop fuel (drop (Z.to_nat (e.(valid_up_to) + n)) l)
          end
      end
  end.
Definition from_utf8_lossy (l : list Z) : string :=
  string_of_bytes (lossy_loop (S (length l)) l).

(** * ASCII case, trimming, splitting *)

Definition lower (b : Z) : Z := if (65 <=? b) && (b <=? 90) then b + 32 else b.

Fixpoint to_ascii_lowercase (s : string) : string :=
  match s with
  | EmptyString => EmptyString
  | String a s => String (ascii_of_byte (lower (byte_of_ascii a))) (to_ascii_lowercase s)
  end.

Definition eq_ignore_ascii_case (a b : string) : bool :=
  bool_decide (to_ascii_lowercase a = to_ascii_lowercase b).

(** One [char::is_whitespace] character at the front of UTF-8 bytes. *)
Definition strip_ws_front (l : list Z) : option (list Z) :=
  match l with
  | 226 :: 128 :: b :: l =>
      if ((128 <=? b) && (b <=? 138)) || (b =? 168) || (b =? 169) || (b =? 175)
      then Some l else None
  | 226 :: 129 :: 159 :: l => Some l
  | 225 :: 154 :: 128 :: l => Some l
  | 227 :: 128 :: 128 :: l => Some l
  | 194 :: 133 :: l => Some l
  | 194 :: 160 :: l => Some l
  | b :: l => if ((9 <=? b) && (b <=? 13)) || (b =? 32) then Some l else None
  | [] => None
  end.

(** The same at the end, on the reversed bytes. *)
Definition strip_ws_back (l : list Z) : option (list Z) :=
  match l with
  | b :: 128 :: 226 :: l =>
      if ((128 <=? b) && (b <=? 138)) || (b =? 168) || (b =? 169) || (b =? 175)
      then Some l else None
  | 159 :: 129 :: 226 :: l => Some l
  | 128 :: 154 :: 225 :: l => Some l
  | 128 :: 128 :: 227 :: l => Some l
  | 133 :: 194 :: l => Some l
  | 160 :: 194 :: l => Some l
  | b :: l => if ((9 <=? b) && (b <=? 13)) || (b =? 32) then Some l else None
  | [] => None
  end.

Fixpoint strip_while (strip : list Z -> option (list Z)) (fuel : nat) (l : list Z) : list Z :=
  match fuel with
  | O => l
  | S fuel => match strip l with Some l => strip_while strip fuel l | None => l end
  end.

(** [str::trim] *)
Definition trim (s : string) : string :=
  let l := bytes_of_string s in
  let l := strip_while strip_ws_front (length l) l in
  string_of_bytes (reverse (strip_while strip_ws_back (length l) (reverse l))).

(** [str::split] on one ASCII byte *)
Fixpoint split_bytes (sep : Z) (cur l : list Z) : list (list Z) :=
  match l with
  | [] => [reverse cur]
  | b :: l => if b =? sep then reverse cur :: split_bytes sep [] l else split_bytes sep (b :: cur) l
  end.
Definition split_on (sep : Z) (s : string) : list string :=
  string_of_bytes <$> split_bytes sep [] (bytes_of_string s).

Example trim_ex : trim "  MQTTS	 " = "MQTTS".
Proof. reflexivity. Qed.
Example split_ex : split_on 44 "chat, superchat" = ["chat"; " superchat"].
Proof. reflexivity. Qed.
Example lossy_ex : from_utf8_lossy [97; 255; 98] = string_of_bytes [97; 239; 191; 189; 98].
Proof. reflexivity. Qed.

(** * Lemmas *)

Create Rewrite HintDb bytes.

Lemma len_nonneg {A} (l : list A) : 0 <= len l.
Proof. unfold len. lia. Qed.
Lemma len_nil {A} : len (@nil A) = 0.
Proof. done. Qed.
Lemma len_cons {A} (x : A) l : len (x :: l) = 1 + len l.
Proof. unfold len. cbn [length]. lia. Qed.
Lemma len_app {A} (l k : list A) : len (l ++ k) = len l + len k.
Proof. unfold len. rewrite length_app. lia. Qed.
#[export] Hint Rewrite @len_nil @len_cons @len_app : bytes.

(** Normalises the lengths of the goal and of every hypothesis, then [lia]. *)
Ltac len_lia :=
  repeat match goal with
         | l : list ?A |- _ =>
             lazymatch goal with
             | _ : 0 <= len l |- _ => fail
             | _ => pose proof (len_nonneg l)
             end
         end;
  autorewrite with bytes in *; lia.

Lemma index_cons_0 {A} (x : A) l : index (x :: l) 0 = Some x.
Proof.
  unfold index. assert ((0 <? len (x :: l)) = true) as -> by (apply Z.ltb_lt; len_lia). done.
Qed.

Lemma index_app_r {A} (l k : list A) i : 0 <= i -> index (l ++ k) (len l + i) = index k i.
Proof.
  intros Hi. unfold index. autorewrite with bytes. pose proof (len_nonneg l).
  rewrite (proj2 (Z.leb_le _ _)) by lia. rewrite (proj2 (Z.leb_le 0 i)) by lia. cbn.
  destruct (Z.ltb_spec (len l + i) (len l + len k)), (Z.ltb_spec i (len k)); try lia; [|done].
  rewrite lookup_app_r by (unfold len; lia). f_equal. unfold len. lia.
Qed.

Lemma index_Some_lt {A} (l : list A) i x : index l i = Some x -> 0 <= i < len l.
Proof.
  unfold index. destruct (Z.leb_spec 0 i), (Z.ltb_spec i (len l)); cbn; intros; try done; lia.
Qed.

Lemma index_total {A} (l : list A) i : 0 <= i < len l -> exists x, index l i = Some x.
Proof.
  intros Hi. unfold index. rewrite (proj2 (Z.leb_le _ _)) by lia.
  rewrite (proj2 (Z.ltb_lt _ _)) by lia. cbn.
  destruct (lookup_lt_is_Some_2 l (Z.to_nat i)) as [x Hx]; [unfold len in Hi; lia|eauto].
Qed.

Lemma index_app_l {A} (l k : list A) i x : index l i = Some x -> index (l ++ k) i = Some x.
Proof.
  intros Hx. pose proof (index_Some_lt _ _ _ Hx) as Hi. revert Hx. unfold index.
  autorewrite with bytes. pose proof (len_nonneg k).
  rewrite !(proj2 (Z.leb_le _ _)) by lia. rewrite !(proj2 (Z.ltb_lt _ _)) by lia. cbn.
  intros Hx. by apply lookup_app_l_Some.
Qed.

Lemma slice_total {A} (l : list A) a b : 0 <= a <= b -> b <= len l -> exists s, slice l a b = Some s.
Proof.
  intros ??. unfold slice. rewrite !(proj2 (Z.leb_le _ _)) by lia. eauto.
Qed.

Lemma slice_Some {A} (l : list A) a b s :
  slice l a b = Some s -> 0 <= a <= b /\ b <= len l /\ len s = b - a.
Proof.
  unfold slice. destruct (Z.leb_spec 0 a), (Z.leb_spec a b), (Z.leb_spec b (len l)); cbn;
    intros; simplify_eq. split_and!; [lia..|].
  unfold len in *. rewrite length_take, length_drop. lia.
Qed.

Lemma slice_app {A} (l m k : list A) : slice (l ++ m ++ k) (len l) (len l + len m) = Some m.
Proof.
  unfold slice. rewrite !(proj2 (Z.leb_le _ _)) by len_lia. cbn. f_equal. unfold len.
  rewrite Nat2Z.id, drop_app_length. replace (_ - _) with (Z.of_nat (length m)) by lia.
  rewrite Nat2Z.id. apply take_app_length.
Qed.

Lemma slice_all {A} (l : list A) a : 0 <= a <= len l -> slice l a (len l) = Some (drop (Z.to_nat a) l).
Proof.
  intros Ha. unfold slice. rewrite !(proj2 (Z.leb_le _ _)) by lia. cbn. f_equal.
  apply take_ge. rewrite length_drop. unfold len in *. lia.
Qed.

Lemma slice_app_end {A} (l k : list A) : slice (l ++ k) (len l) (len (l ++ k)) = Some k.
Proof.
  rewrite slice_all by len_lia. unfold len. by rewrite Nat2Z.id, drop_app_length.
Qed.

Lemma slice_app_l {A} (l k : list A) a b s : slice l a b = Some s -> slice (l ++ k) a b = Some s.
Proof.
  intros Hs. destruct (slice_Some _ _ _ _ Hs) as (? & ? & _). revert Hs. unfold slice.
  rewrite !(proj2 (Z.leb_le _ _)) by len_lia. cbn. intros; simplify_eq. f_equal.
  unfold len in *. rewrite drop_app_le by lia. rewrite take_app_le; [done|].
  rewrite length_drop. lia.
Qed.

Lemma slice_full {A} (l : list A) : slice l 0 (len l) = Some l.
Proof. rewrite slice_all; [done|]. len_lia. Qed.

(** ** Strings *)

Lemma byte_of_ascii_u8 a : in_u8 (byte_of_ascii a).
Proof.
  unfold in_u8, byte_of_ascii. pose proof (Ascii.N_ascii_bounded a). lia.
Qed.

Lemma ascii_of_byte_of_ascii a : ascii_of_byte (byte_of_ascii a) = a.
Proof. unfold ascii_of_byte, byte_of_ascii. by rewrite N2Z.id, Ascii.ascii_N_embedding. Qed.

Lemma byte_of_ascii_of_byte b : in_u8 b -> byte_of_ascii (ascii_of_byte b) = b.
Proof.
  unfold in_u8, byte_of_ascii, ascii_of_byte. intros Hb. rewrite Ascii.N_ascii_embedding; lia.
Qed.

Lemma bytes_of_string_u8 s : is_u8s (bytes_of_string s).
Proof. induction s; constructor; [apply byte_of_ascii_u8|done]. Qed.

Lemma string_of_bytes_of_string s : string_of_bytes (bytes_of_string s) = s.
Proof. induction s as [|a s IH]; cbn; [done|]. by rewrite ascii_of_byte_of_ascii, IH. Qed.

Lemma bytes_of_string_of_bytes l : is_u8s l -> bytes_of_string (string_of_bytes l) = l.
Proof. induction 1 as [|b l Hb _ IH]; cbn; [done|]. by rewrite byte_of_ascii_of_byte, IH. Qed.

#[export] Instance bytes_of_string_inj : Inj (=) (=) bytes_of_string.
Proof.
  intros s t Heq. by rewrite <-(string_of_bytes_of_string s), Heq, string_of_bytes_of_string.
Qed.

Lemma from_utf8_string s : utf8_ok s -> from_utf8 (bytes_of_string s) = Ok s.
Proof. unfold utf8_ok, from_utf8. intros ->. by rewrite string_of_bytes_of_string. Qed.

#[export] Instance append_assoc : Assoc (=) String.append.
Proof. intros s t u. induction s as [|a s IH]; [done|]. exact (f_equal (String a) IH). Qed.

Lemma bytes_of_string_app s t : bytes_of_string (s +:+ t) = bytes_of_string s ++ bytes_of_string t.
Proof. induction s as [|a s IH]; [done|].
  change (bytes_of_string (String a s +:+ t)) with (byte_of_ascii a :: bytes_of_string (s +:+ t)).
  by rewrite IH.
Qed.

(** ** Big-endian 16 bit integers *)

Lemma u16_from_to_be_bytes n : in_u16 n ->
  u16_from_be_bytes (Z.land (Z.shiftr n 8) 255) (Z.land n 255) = n.
Proof.
  unfold in_u16, u16_from_be_bytes. intros Hn. change 255 with (Z.ones 8).
  apply Z.bits_inj'. intros i Hi. rewrite Z.lor_spec, Z.shiftl_spec, !Z.land_spec by lia.
  destruct (Z.lt_ge_cases i 8) as [Hlt|Hge].
  - rewrite !(Z.testbit_neg_r _ (i - 8)), Z.ones_spec_low by lia. cbn. apply andb_true_r.
  - rewrite Z.shiftr_spec by lia. replace (i - 8 + 8) with i by lia.
    rewrite (Z.ones_spec_high 8 i) by lia. rewrite andb_false_r, orb_false_r.
    destruct (Z.lt_ge_cases i 16).
    + rewrite Z.ones_spec_low by lia. apply andb_true_r.
    + rewrite Z.ones_spec_high, andb_false_r by lia. symmetry.
      apply Z.bits_above_log2; [lia|].
      pose proof (Z.log2_le_mono n 65535 ltac:(lia)) as Hlog. change (Z.log2 65535) with 15 in Hlog. lia.
Qed.

Lemma u16_to_be_bytes_u8 n : is_u8s (u16_to_be_bytes n).
Proof.
  assert (forall m, in_u8 (Z.land m 255)) as Hm.
  { intros m. change 255 with (Z.ones 8). rewrite Z.land_ones by lia.
    apply Z.mod_pos_bound. lia. }
  repeat constructor; apply Hm.
Qed.

Lemma u16_to_be_bytes_len n : len (u16_to_be_bytes n) = 2.
Proof. done. Qed.
#[export] Hint Rewrite u16_to_be_bytes_len : bytes.
