(* ===== verification/Effects.v ===== *)
(** A monad of computations that change a state and may fail; a failure keeps
    the changes made before it, as an early return of the code does. *)

From S2P Require Import Prelude.

Definition eff (E S A : Type) : Type := S -> result E A * S.

#[export] Instance eff_ret E S : MRet (eff E S) := fun A a s => (Ok a, s).
#[export] Instance eff_bind E S : MBind (eff E S) := fun A B f m s =>
  match m s with (Ok a, s) => f a s | (Err e, s) => (Err e, s) end.
#[export] Instance eff_fmap E S : FMap (eff E S) := fun A B f m s =>
  match m s with (Ok a, s) => (Ok (f a), s) | (Err e, s) => (Err e, s) end.

Definition throw {E S A} (e : E) : eff E S A := fun s => (Err e, s).
Definition get_state {E S} : eff E S S := fun s => (Ok s, s).
Definition modify {E S} (f : S -> S) : eff E S unit := fun s => (Ok tt, f s).
Definition throw_if {E S} (b : bool) (e : E) : eff E S unit := if b then throw e else mret tt.
(** A [Result] of pure code. *)
Definition lift {E S A} (r : result E A) : eff E S A := fun s => (r, s).
(** A computation on a part of the state. *)
Definition zoom {E S T A} (view : S -> T) (set : T -> S -> S) (m : eff E T A) : eff E S A := fun s =>
  let '(r, t) := m (view s) in (r, set t s).

Section laws.
Context {E S : Type}.

Lemma eff_bind_Ok {A B} (f : A -> eff E S B) (m : eff E S A) s b s' :
  (m ≫= f) s = (Ok b, s') <-> exists a s1, m s = (Ok a, s1) /\ f a s1 = (Ok b, s').
Proof.
  unfold mbind, eff_bind. destruct (m s) as [[a|e] s1]; split; [by eauto|by intros (? & ? & [= <- <-] & ?)|done|].
  by intros (? & ? & ? & _).
Qed.

Lemma eff_bind_Err {A B} (f : A -> eff E S B) (m : eff E S A) s e s' :
  (m ≫= f) s = (Err e, s') <-> m s = (Err e, s') \/ exists a s1, m s = (Ok a, s1) /\ f a s1 = (Err e, s').
Proof.
  unfold mbind, eff_bind. destruct (m s) as [[a|e1] s1]; split.
  - intros Hf. right. by exists a, s1.
  - by intros [|(? & ? & [= <- <-] & ?)].
  - intros [= -> ->]; by left.
  - by intros [[= -> ->]|(? & ? & ? & _)].
Qed.

(** What a computation keeps, whatever it returns. *)
Definition keeps (P : S -> Prop) {A} (m : eff E S A) : Prop := forall s, P s -> P (m s).2.

Lemma keeps_ret P {A} (a : A) : keeps P (mret a).
Proof. intros s Hs. exact Hs. Qed.
Lemma keeps_bind P {A B} (f : A -> eff E S B) (m : eff E S A) : keeps P m -> (forall a, keeps P (f a)) -> keeps P (m ≫= f).
Proof.
  intros Hm Hf s Hs. unfold mbind, eff_bind. specialize (Hm s Hs). destruct (m s) as [[a|e] s1]; [|done]. by apply Hf.
Qed.
Lemma keeps_throw P {A} e : keeps P (throw (A:=A) e).
Proof. intros s Hs. exact Hs. Qed.
Lemma keeps_throw_if P b e : keeps P (throw_if b e).
Proof. destruct b; intros s Hs; exact Hs. Qed.
Lemma keeps_get P : keeps P get_state.
Proof. intros s Hs. exact Hs. Qed.
Lemma keeps_lift P {A} (r : result E A) : keeps P (lift r).
Proof. intros s Hs. exact Hs. Qed.
Lemma keeps_modify P f : (forall s, P s -> P (f s)) -> keeps P (modify f).
Proof. by intros Hf s Hs; apply Hf. Qed.

(** *** Hoare triples with a postcondition for either way out *)

(** From a state in which [P] holds, [m] returns with [Q] or fails with [R]. *)
Definition triple (P : S -> Prop) {A} (m : eff E S A) (Q : A -> S -> Prop) (R : E -> S -> Prop) : Prop :=
  forall s, P s -> match m s with (Ok a, s') => Q a s' | (Err e, s') => R e s' end.

Lemma triple_ret (P : S -> Prop) {A} (a : A) (Q : A -> S -> Prop) R : (forall s, P s -> Q a s) -> triple P (mret a) Q R.
Proof. intros HQ s Hs. by apply HQ. Qed.
Lemma triple_bind (P : S -> Prop) {A B} (m : eff E S A) (f : A -> eff E S B) M Q R :
  triple P m M R -> (forall a, triple (M a) (f a) Q R) -> triple P (m ≫= f) Q R.
Proof.
  intros Hm Hf s Hs. unfold mbind, eff_bind. specialize (Hm s Hs). destruct (m s) as [[a|e] s1]; [|done]. by apply Hf.
Qed.
Lemma triple_fmap (P : S -> Prop) {A B} (m : eff E S A) (f : A -> B) (Q : B -> S -> Prop) R :
  triple P m (fun a => Q (f a)) R -> triple P (f <$> m) Q R.
Proof. intros Hm s Hs. unfold fmap, eff_fmap. specialize (Hm s Hs). by destruct (m s) as [[a|e] s1]. Qed.
Lemma triple_weaken (P P' : S -> Prop) {A} (m : eff E S A) (Q Q' : A -> S -> Prop) (R R' : E -> S -> Prop) :
  triple P' m Q' R' -> (forall s, P s -> P' s) -> (forall a s, Q' a s -> Q a s) -> (forall e s, R' e s -> R e s) -> triple P m Q R.
Proof. intros Hm HP HQ HR s Hs. specialize (Hm s (HP s Hs)). destruct (m s) as [[a|e] s1]; eauto. Qed.
Lemma triple_throw (P : S -> Prop) {A} e (Q : A -> S -> Prop) (R : E -> S -> Prop) : (forall s, P s -> R e s) -> triple P (throw e) Q R.
Proof. intros HR s Hs. by apply HR. Qed.
Lemma triple_get (P : S -> Prop) (R : E -> S -> Prop) : triple P get_state (fun s0 s => P s /\ s0 = s) R.
Proof. by intros s Hs. Qed.
Lemma triple_modify (P : S -> Prop) f (Q : unit -> S -> Prop) (R : E -> S -> Prop) : (forall s, P s -> Q tt (f s)) -> triple P (modify f) Q R.
Proof. intros HQ s Hs. by apply HQ. Qed.
Lemma triple_fact (P : S -> Prop) (F : Prop) {A} (m : eff E S A) Q R : (F -> triple P m Q R) -> triple (fun s => P s /\ F) m Q R.
Proof. intros Hm s [Hs HF]. by apply Hm. Qed.
Lemma triple_ex {Y} (P : Y -> S -> Prop) {A} (m : eff E S A) Q R : (forall y, triple (P y) m Q R) -> triple (fun s => exists y, P y s) m Q R.
Proof. intros Hm s [y Hs]. by apply (Hm y). Qed.
Lemma triple_or (P P' : S -> Prop) {A} (m : eff E S A) Q R : triple P m Q R -> triple P' m Q R -> triple (fun s => P s \/ P' s) m Q R.
Proof. intros Hm Hm' s [Hs|Hs]; [by apply Hm|by apply Hm']. Qed.
Lemma triple_and (P : S -> Prop) {A} (m : eff E S A) (Q Q' : A -> S -> Prop) (R R' : E -> S -> Prop) :
  triple P m Q R -> triple P m Q' R' -> triple P m (fun a s => Q a s /\ Q' a s) (fun e s => R e s /\ R' e s).
Proof. intros H1 H2 s Hs. specialize (H1 s Hs). specialize (H2 s Hs). by destruct (m s) as [[]?]. Qed.
End laws.

Create HintDb keeps.
#[export] Hint Resolve keeps_ret keeps_bind keeps_throw keeps_throw_if keeps_get keeps_lift keeps_modify : keeps.
