(* ===== verification/LruStore.v ===== *)
(** Model of [BoundedLruStore] of [src/cache.rs]: the hash map is a [gmap], the
    [VecDeque] of keys is a list whose head is the front.  The abstract store is
    the list of bindings from the least to the most recently used. *)

From S2P Require Import Prelude.

Module Lru.
Section defs.
Context {K V : Type} `{Countable K}.

Record BoundedLruStore := MkStore {
  capacity : nat;
  values : gmap K V;
  lru_order : list K;
}.

#[export] Instance eta_store : Eta BoundedLruStore := fun s =>
  MkStore s.(capacity) s.(values) s.(lru_order).

Definition new (cap : nat) : BoundedLruStore := MkStore cap ∅ [].

Definition contains_key (s : BoundedLruStore) (key : K) : bool :=
  bool_decide (is_Some (s.(values) !! key)).

(** The loop of [remove_from_lru]: pop the front of [queue], push it to the
    back of [retained] unless it is the key. *)
Fixpoint retain_loop (key : K) (queue retained : list K) : list K :=
  match queue with
  | [] => retained
  | candidate :: rest =>
      if decide (candidate = key)
      then retain_loop key rest retained
      else retain_loop key rest (retained ++ [candidate])
  end.

Definition remove_from_lru (key : K) (s : BoundedLruStore) : BoundedLruStore :=
  s <| lru_order := retain_loop key s.(lru_order) [] |>.

(** The [while] loop of [evict_to_capacity]; it breaks on an empty queue, so it
    recurses on the queue. *)
Fixpoint evict_loop (cap : nat) (vals : gmap K V) (queue : list K)
    : gmap K V * list K :=
  if decide (cap < size vals)%nat
  then match queue with
       | [] => (vals, [])
       | oldest :: rest => evict_loop cap (delete oldest vals) rest
       end
  else (vals, queue).

Definition evict_to_capacity (s : BoundedLruStore) : BoundedLruStore :=
  let '(vals, queue) := evict_loop s.(capacity) s.(values) s.(lru_order) in
  s <| values := vals |> <| lru_order := queue |>.

Definition touch_key (key : K) (s : BoundedLruStore) : BoundedLruStore :=
  if decide (last s.(lru_order) = Some key) then s
  else let s := remove_from_lru key s in
       s <| lru_order := s.(lru_order) ++ [key] |>.

Definition get (key : K) (s : BoundedLruStore) : option V * BoundedLruStore :=
  if negb (contains_key s key) then (None, s)
  else let s := touch_key key s in (s.(values) !! key, s).

Definition peek (key : K) (s : BoundedLruStore) : option V := s.(values) !! key.

(** [get_mut] hands out a mutable reference; what the caller does with it is
    the function [f]. *)
Definition get_mut (key : K) (f : V -> V) (s : BoundedLruStore)
    : option V * BoundedLruStore :=
  if negb (contains_key s key) then (None, s)
  else let s := touch_key key s in
       (s.(values) !! key, s <| values := alter f key s.(values) |>).

Definition insert (key : K) (value : V) (s : BoundedLruStore)
    : option V * BoundedLruStore :=
  let s := remove_from_lru key s in
  if decide (s.(capacity) = 0%nat)
  then (s.(values) !! key, s <| values := delete key s.(values) |>)
  else
    let previous := s.(values) !! key in
    let s := s <| values := <[key := value]> s.(values) |> in
    let s := s <| lru_order := s.(lru_order) ++ [key] |> in
    (previous, evict_to_capacity s).

Definition remove (key : K) (s : BoundedLruStore) : option V * BoundedLruStore :=
  let s := remove_from_lru key s in
  (s.(values) !! key, s <| values := delete key s.(values) |>).

(** [retain] collects the keys to drop in the map's iteration order, then
    removes them one by one. *)
Definition retain (keep : K -> V -> bool) (s : BoundedLruStore) : BoundedLruStore :=
  let to_remove :=
    omap (fun kv => if negb (keep kv.1 kv.2) then Some kv.1 else None)
         (map_to_list s.(values)) in
  fold_left (fun s key => (remove key s).2) to_remove s.

(** The body of [ShardedRwLruStore::clear] on one shard. *)
Definition clear (s : BoundedLruStore) : BoundedLruStore :=
  s <| values := ∅ |> <| lru_order := [] |>.

(** ** Invariant and abstract specification *)

Record wf (s : BoundedLruStore) : Prop := {
  wf_nodup : NoDup s.(lru_order);
  wf_dom : forall k, k ∈ s.(lru_order) <-> is_Some (s.(values) !! k);
  wf_cap : (size s.(values) <= s.(capacity))%nat;
}.

(** The abstract store: bindings from the least to the most recently used. *)
Definition abs_list (vals : gmap K V) (queue : list K) : list (K * V) :=
  omap (fun k => v ← vals !! k; Some (k, v)) queue.
Definition abs (s : BoundedLruStore) : list (K * V) := abs_list s.(values) s.(lru_order).

Definition spec_without (key : K) (l : list (K * V)) : list (K * V) :=
  filter (fun kv => kv.1 ≠ key) l.
Definition spec_lookup (key : K) (l : list (K * V)) : option V :=
  snd <$> head (filter (fun kv => kv.1 = key) l).
(** Drop the oldest bindings until at most [cap] are left. *)
Definition spec_trim (cap : nat) (l : list (K * V)) : list (K * V) :=
  drop (length l - cap) l.
Definition spec_insert (cap : nat) (key : K) (v : V) (l : list (K * V)) : list (K * V) :=
  spec_trim cap (spec_without key l ++ [(key, v)]).
Definition spec_touch (key : K) (l : list (K * V)) : list (K * V) :=
  match spec_lookup key l with
  | Some v => spec_without key l ++ [(key, v)]
  | None => l
  end.

(** The queue lists the keys of the map, each once. *)
Definition queue_ok (vals : gmap K V) (queue : list K) : Prop :=
  NoDup queue /\ forall k, k ∈ queue <-> is_Some (vals !! k).

(** Everything the code does to a store. *)
Inductive lru_step : BoundedLruStore -> BoundedLruStore -> Prop :=
| step_insert k v s : lru_step s (insert k v s).2
| step_get k s : lru_step s (get k s).2
| step_get_mut k f s : lru_step s (get_mut k f s).2
| step_remove k s : lru_step s (remove k s).2
| step_retain keep s : lru_step s (retain keep s)
| step_clear s : lru_step s (clear s).

(** ** Lemmas *)

Arguments abs_list : simpl never.
Arguments spec_without : simpl never.

Lemma retain_loop_filter key queue retained :
  retain_loop key queue retained = retained ++ filter (fun k => k ≠ key) queue.
Proof.
  revert retained; induction queue as [|c q IH]; intros r; [by rewrite app_nil_r|].
  rewrite filter_cons. cbn [retain_loop].
  repeat case_decide; rewrite IH; try tauto. by rewrite <-app_assoc.
Qed.

Lemma remove_from_lru_order key s :
  lru_order (remove_from_lru key s) = filter (fun k => k ≠ key) (lru_order s).
Proof. unfold remove_from_lru. cbn. by rewrite retain_loop_filter. Qed.

Lemma queue_ok_size vals queue : queue_ok vals queue -> size vals = length queue.
Proof.
  intros [Hnd Hdom]. rewrite <-size_dom.
  replace (dom vals) with (list_to_set (C:=gset K) queue).
  - by apply size_list_to_set.
  - apply set_eq. intros k. rewrite elem_of_list_to_set, elem_of_dom. apply Hdom.
Qed.

Lemma queue_ok_without key vals queue :
  queue_ok vals queue -> queue_ok (delete key vals) (filter (fun k => k ≠ key) queue).
Proof.
  intros [Hnd Hdom]. split; [by apply NoDup_filter|].
  intros k. rewrite list_elem_of_filter, lookup_delete. case_decide; subst.
  - split; [intros []; done | intros []; done].
  - rewrite Hdom. intuition congruence.
Qed.

Lemma queue_ok_push key v vals queue :
  queue_ok vals queue ->
  queue_ok (<[key := v]> vals) (filter (fun k => k ≠ key) queue ++ [key]).
Proof.
  intros [Hnd Hdom]. split.
  - apply NoDup_app. split; [by apply NoDup_filter|]. split; [|apply NoDup_singleton].
    intros k. rewrite list_elem_of_filter, list_elem_of_singleton. tauto.
  - intros k. rewrite elem_of_app, list_elem_of_filter, list_elem_of_singleton, lookup_insert, Hdom.
    case_decide; subst; [intuition eauto|]. intuition congruence.
Qed.

Lemma queue_ok_pop vals k queue :
  queue_ok vals (k :: queue) -> queue_ok (delete k vals) queue.
Proof.
  intros [Hnd Hdom]. apply NoDup_cons in Hnd as [Hk Hnd]. split; [done|].
  intros j. rewrite lookup_delete. case_decide; subst.
  - split; [done|by intros []].
  - rewrite <-Hdom, elem_of_cons. intuition congruence.
Qed.

Lemma abs_list_ext vals vals' queue :
  (forall k, k ∈ queue -> vals !! k = vals' !! k) ->
  abs_list vals queue = abs_list vals' queue.
Proof.
  unfold abs_list. induction queue as [|k q IH]; intros Heq; [done|]. cbn.
  rewrite Heq, IH; [done| |by constructor]. intros j Hj. apply Heq. by constructor.
Qed.

Lemma abs_list_without key vals queue :
  abs_list vals (filter (fun k => k ≠ key) queue) = spec_without key (abs_list vals queue).
Proof.
  unfold abs_list, spec_without. induction queue as [|k q IH]; [done|].
  rewrite filter_cons. cbn [omap list_omap].
  case_decide as Hk; cbn [omap list_omap]; destruct (vals !! k) eqn:E; cbn [mbind option_bind];
    rewrite ?filter_cons; cbn [fst]; try rewrite decide_True by done;
    try rewrite decide_False by tauto; by rewrite ?IH.
Qed.

Lemma abs_list_length vals queue :
  (forall k, k ∈ queue -> is_Some (vals !! k)) -> length (abs_list vals queue) = length queue.
Proof.
  unfold abs_list. induction queue as [|k q IH]; intros Hdom; [done|]. cbn.
  destruct (Hdom k) as [v Hv]; [constructor|]. rewrite Hv. cbn. rewrite IH; [done|].
  intros j Hj. apply Hdom. by constructor.
Qed.

Lemma abs_list_keys vals queue :
  (forall k, k ∈ queue -> is_Some (vals !! k)) -> (abs_list vals queue).*1 = queue.
Proof.
  unfold abs_list. induction queue as [|k q IH]; intros Hdom; [done|]. cbn.
  destruct (Hdom k) as [v Hv]; [constructor|]. rewrite Hv. cbn. rewrite IH; [done|].
  intros j Hj. apply Hdom. by constructor.
Qed.

Lemma evict_loop_spec cap vals queue vals' queue' :
  queue_ok vals queue -> evict_loop cap vals queue = (vals', queue') ->
  queue_ok vals' queue' /\ (size vals' <= cap)%nat /\
  queue' = drop (length queue - cap) queue /\
  (forall k, k ∈ queue' -> vals' !! k = vals !! k).
Proof.
  revert vals; induction queue as [|k q IH]; intros vals Hok; cbn;
    pose proof (queue_ok_size _ _ Hok) as Hsz; case_decide as Hc; intros ?; simplify_eq/=.
  - lia.
  - split_and!; [done|lia|done|done].
  - pose proof (queue_ok_pop _ _ _ Hok) as Hok'.
    destruct (IH _ Hok') as (? & ? & -> & Heq); [done|]. split_and!; [done|done| |].
    + replace (S (length q) - cap)%nat with (S (length q - cap)) by lia. done.
    + intros j Hj. rewrite Heq by done. apply lookup_delete_ne. intros ->.
      destruct Hok as [Hnd _]. apply NoDup_cons in Hnd as [Hnk _]. apply Hnk.
      by eapply elem_of_drop.
  - rewrite Hsz in *. split_and!; [done|lia| |done].
    by replace (S (length q) - cap)%nat with 0%nat by lia.
Qed.

Lemma wf_queue_ok s : wf s -> queue_ok (values s) (lru_order s).
Proof. intros Hwf. split; apply Hwf. Qed.

Lemma queue_ok_wf s :
  queue_ok (values s) (lru_order s) -> (size (values s) <= capacity s)%nat -> wf s.
Proof. intros [] ?. by split. Qed.

Lemma abs_length s : wf s -> length (abs s) = size (values s).
Proof.
  intros Hwf. unfold abs. rewrite abs_list_length by apply Hwf.
  symmetry. by apply queue_ok_size, wf_queue_ok.
Qed.

Lemma abs_nodup s : wf s -> NoDup (abs s).*1.
Proof. intros Hwf. unfold abs. rewrite abs_list_keys; apply Hwf. Qed.

Lemma spec_lookup_abs key vals queue :
  (forall k, k ∈ queue <-> is_Some (vals !! k)) ->
  spec_lookup key (abs_list vals queue) = vals !! key.
Proof.
  intros Hdom. destruct (vals !! key) as [v|] eqn:Hv.
  - assert (key ∈ queue) as Hin by (apply Hdom; eauto). clear Hdom.
    unfold spec_lookup, abs_list. induction queue as [|k q IH]; [by apply elem_of_nil in Hin|].
    cbn [omap list_omap]. destruct (decide (k = key)) as [->|Hne].
    + rewrite Hv. cbn [mbind option_bind]. by rewrite filter_cons, decide_True.
    + destruct (vals !! k); cbn [mbind option_bind]; rewrite ?filter_cons, ?decide_False by done;
        apply IH; by apply elem_of_cons in Hin as [->|].
  - assert (key ∉ queue) as Hin by (rewrite Hdom, Hv; by intros []). clear Hdom.
    unfold spec_lookup, abs_list. induction queue as [|k q IH]; [done|].
    apply not_elem_of_cons in Hin as [Hne Hin]. cbn [omap list_omap].
    destruct (vals !! k); cbn [mbind option_bind]; rewrite ?filter_cons, ?decide_False by done;
      by apply IH.
Qed.

Lemma abs_list_push key v vals queue :
  abs_list (<[key := v]> vals) (filter (fun k => k ≠ key) queue ++ [key])
  = spec_without key (abs_list vals queue) ++ [(key, v)].
Proof.
  unfold abs_list at 1. rewrite omap_app. cbn. rewrite lookup_insert_eq. cbn. f_equal.
  fold (abs_list (<[key := v]> vals) (filter (fun k => k ≠ key) queue)).
  rewrite <-abs_list_without. apply abs_list_ext. intros k [??]%list_elem_of_filter.
  by apply lookup_insert_ne.
Qed.

Lemma abs_list_delete key vals queue :
  abs_list (delete key vals) (filter (fun k => k ≠ key) queue)
  = spec_without key (abs_list vals queue).
Proof.
  rewrite <-abs_list_without. apply abs_list_ext. intros k [??]%list_elem_of_filter.
  by apply lookup_delete_ne.
Qed.

Lemma abs_list_drop n vals queue :
  (forall k, k ∈ queue -> is_Some (vals !! k)) ->
  abs_list vals (drop n queue) = drop n (abs_list vals queue).
Proof.
  revert n; induction queue as [|k q IH]; intros [|n] Hdom; try done.
  destruct (Hdom k) as [v Hv]; [constructor|].
  assert (abs_list vals (k :: q) = (k, v) :: abs_list vals q) as ->
    by (unfold abs_list; cbn; by rewrite Hv).
  apply IH. intros j Hj. apply Hdom. by constructor.
Qed.

(** [evict_to_capacity] drops the oldest bindings. *)
Lemma evict_refines s :
  queue_ok (values s) (lru_order s) ->
  abs (evict_to_capacity s) = spec_trim (capacity s) (abs s) /\
  wf (evict_to_capacity s) /\ capacity (evict_to_capacity s) = capacity s.
Proof.
  intros Hok. unfold evict_to_capacity.
  destruct (evict_loop _ _ _) as [vals queue] eqn:E.
  destruct (evict_loop_spec _ _ _ _ _ Hok E) as (Hok' & Hcap & -> & Heq).
  destruct Hok as [Hnd Hdom]. split_and!; [|by apply queue_ok_wf|done].
  unfold abs, spec_trim. cbn. rewrite abs_list_length by apply Hdom.
  rewrite (abs_list_ext vals (values s)) by done. apply abs_list_drop. apply Hdom.
Qed.

Lemma wf_cap_0_empty s :
  wf s -> capacity s = 0%nat -> values s = ∅ /\ lru_order s = [].
Proof.
  intros [_ Hdom Hc] H0. assert (values s = ∅) as Hv by (apply map_size_empty_inv; lia).
  split; [done|]. apply elem_of_nil_inv. intros k. rewrite Hdom, Hv, lookup_empty. by intros [].
Qed.

Lemma lru_insert_correct key v s :
  wf s ->
  abs (insert key v s).2 = spec_insert (capacity s) key v (abs s) /\
  (insert key v s).1 = spec_lookup key (abs s) /\
  wf (insert key v s).2 /\ capacity (insert key v s).2 = capacity s.
Proof.
  intros Hwf. pose proof (wf_queue_ok _ Hwf) as Hok. unfold insert.
  assert (spec_lookup key (abs s) = values s !! key) as -> by (apply spec_lookup_abs, Hok).
  cbn [capacity remove_from_lru set_field]. destruct (decide (capacity s = 0%nat)) as [H0|H0]; cbn.
  - destruct (wf_cap_0_empty _ Hwf H0) as [Hv Hl]. unfold abs, spec_insert, spec_trim. cbn.
    rewrite Hl, Hv, H0, delete_empty. cbn. split_and!; [done|done| |done].
    split; cbn; rewrite ?Hl; cbn; [constructor|intros k|rewrite map_size_empty; lia].
    rewrite lookup_empty. split; [by intros ?%elem_of_nil|by intros []].
  - match goal with |- context [evict_to_capacity ?s0] => set (s1 := s0) end.
    destruct (evict_refines s1) as (Ha & Hw & Hc).
    { subst s1. cbn. rewrite retain_loop_filter. by apply queue_ok_push. }
    split_and!; [|done|done|done]. rewrite Ha. subst s1. unfold abs. cbn.
    rewrite retain_loop_filter. cbn. by rewrite abs_list_push.
Qed.

Lemma lru_remove_correct key s :
  wf s ->
  abs (remove key s).2 = spec_without key (abs s) /\
  (remove key s).1 = spec_lookup key (abs s) /\
  wf (remove key s).2 /\ capacity (remove key s).2 = capacity s.
Proof.
  intros Hwf. pose proof (wf_queue_ok _ Hwf) as Hok. unfold remove. cbn.
  split_and!; [| |apply queue_ok_wf; cbn|done].
  - unfold abs. cbn. rewrite retain_loop_filter. apply abs_list_delete.
  - symmetry. apply spec_lookup_abs, Hok.
  - rewrite retain_loop_filter. by apply queue_ok_without.
  - etrans; [|apply (wf_cap _ Hwf)]. rewrite map_size_delete. destruct (values s !! key); cbn; lia.
Qed.

Lemma lru_touch_correct key v s :
  wf s -> values s !! key = Some v ->
  abs (touch_key key s) = spec_touch key (abs s) /\
  wf (touch_key key s) /\ values (touch_key key s) = values s /\
  capacity (touch_key key s) = capacity s.
Proof.
  intros Hwf Hv. pose proof (wf_queue_ok _ Hwf) as Hok. unfold touch_key, spec_touch.
  assert (spec_lookup key (abs s) = Some v) as -> by (by rewrite <-Hv; apply spec_lookup_abs, Hok).
  pose proof (queue_ok_push key v _ _ Hok) as Hpush. rewrite insert_id in Hpush by done.
  pose proof (abs_list_push key v (values s) (lru_order s)) as Habs.
  rewrite insert_id in Habs by done.
  case_decide as Hlast.
  - split_and!; [|done|done|done]. unfold abs. rewrite <-Habs.
    apply last_Some in Hlast as [q Hq]. rewrite Hq in Hok |- *. f_equal.
    destruct Hok as [Hnd _]. apply NoDup_app in Hnd as (_ & Hdis & _).
    rewrite filter_app, filter_cons_False by tauto. cbn. f_equal.
    symmetry. rewrite app_nil_r. apply filter_id. intros k Hk ->.
    by apply (Hdis key Hk), list_elem_of_singleton.
  - unfold remove_from_lru. cbn. rewrite retain_loop_filter. cbn.
    split_and!; [done|by apply queue_ok_wf; [|apply Hwf]|done|done].
Qed.

Lemma lru_get_correct key s :
  wf s ->
  (get key s).1 = spec_lookup key (abs s) /\ abs (get key s).2 = spec_touch key (abs s) /\
  wf (get key s).2 /\ capacity (get key s).2 = capacity s.
Proof.
  intros Hwf. pose proof (wf_queue_ok _ Hwf) as Hok. unfold get, contains_key.
  pose proof (spec_lookup_abs key _ _ (wf_dom _ Hwf)) as Hlk. fold (abs s) in Hlk.
  destruct (values s !! key) as [v|] eqn:Hv; cbn.
  - destruct (lru_touch_correct key v s Hwf Hv) as (? & ? & -> & ?). rewrite Hv. by rewrite Hlk.
  - unfold spec_touch. by rewrite Hlk.
Qed.

Lemma lru_get_mut_correct key f s :
  wf s ->
  (get_mut key f s).1 = spec_lookup key (abs s) /\
  (forall k, values (get_mut key f s).2 !! k
             = if decide (k = key) then f <$> values s !! key else values s !! k) /\
  wf (get_mut key f s).2 /\ capacity (get_mut key f s).2 = capacity s.
Proof.
  intros Hwf. unfold get_mut, contains_key.
  pose proof (spec_lookup_abs key _ _ (wf_dom _ Hwf)) as Hlk. fold (abs s) in Hlk.
  destruct (values s !! key) as [v|] eqn:Hv; cbn.
  - destruct (lru_touch_correct key v s Hwf Hv) as (? & Hw & Heq & ?). rewrite Heq, Hv, Hlk.
    split_and!; [done| |split; cbn|done].
    + intros k. rewrite lookup_alter. repeat case_decide; simplify_eq; by rewrite ?Hv.
    + apply Hw.
    + intros k. rewrite (wf_dom _ Hw), Heq, lookup_alter.
      case_decide; [subst; by rewrite fmap_is_Some|done].
    + rewrite map_size_alter, <-Heq. apply Hw.
  - rewrite Hlk. split_and!; [done| |done|done]. intros k. case_decide; by subst.
Qed.

Lemma elem_of_abs k v s :
  wf s -> (k, v) ∈ abs s <-> values s !! k = Some v.
Proof.
  intros Hwf. unfold abs, abs_list. rewrite list_elem_of_omap. split.
  - intros (k' & _ & Hk). destruct (values s !! k') eqn:E; by simplify_eq/=.
  - intros Hv. exists k. rewrite Hv. split; [|done]. apply (wf_dom _ Hwf). eauto.
Qed.

Lemma lru_fold_remove_correct keys s :
  wf s ->
  let s' := fold_left (fun s key => (remove key s).2) keys s in
  abs s' = filter (fun kv => kv.1 ∉ keys) (abs s) /\ wf s' /\ capacity s' = capacity s.
Proof.
  revert s. induction keys as [|k ks IH]; intros s Hwf; cbn [fold_left].
  - split_and!; [|done|done]. symmetry. apply filter_id. intros kv _. apply not_elem_of_nil.
  - destruct (lru_remove_correct k s Hwf) as (Ha & _ & Hw & Hc).
    destruct (IH _ Hw) as (Ha' & Hw' & Hc'). split_and!; [|done|congruence].
    rewrite Ha', Ha. unfold spec_without. rewrite list_filter_filter.
    apply list_filter_iff. intros kv. rewrite not_elem_of_cons. tauto.
Qed.

Lemma lru_retain_correct keep s :
  wf s ->
  abs (retain keep s) = filter (fun kv => keep kv.1 kv.2 = true) (abs s) /\
  wf (retain keep s) /\ capacity (retain keep s) = capacity s.
Proof.
  intros Hwf. unfold retain. match goal with |- context [fold_left _ ?l _] => set (ks := l) end.
  destruct (lru_fold_remove_correct ks s Hwf) as (-> & ? & ?). split_and!; [|done|done].
  assert (forall kv, kv ∈ abs s -> kv.1 ∉ ks <-> keep kv.1 kv.2 = true) as Heq.
  { intros [k v] Hkv. apply elem_of_abs in Hkv; [|done]. subst ks. cbn.
    rewrite list_elem_of_omap. clear Hwf. split.
    - intros Hn. destruct (keep k v) eqn:E; [done|]. exfalso. apply Hn. exists (k, v).
      rewrite elem_of_map_to_list. cbn. by rewrite E.
    - intros Hk ([k' v'] & Hin%elem_of_map_to_list & Hf). cbn in Hf.
      destruct (keep k' v') eqn:E; cbn in Hf; simplify_eq. congruence. }
  clear -Heq. induction (abs s) as [|kv l IH]; [done|]. rewrite !filter_cons, IH.
  - specialize (Heq kv ltac:(constructor)). repeat case_decide; tauto.
  - intros kv' Hin. apply Heq. by constructor.
Qed.

Lemma lru_new_wf cap : wf (new cap).
Proof.
  apply queue_ok_wf; [split; [constructor|]|cbn; rewrite map_size_empty; lia].
  intros k. cbn. rewrite lookup_empty. split; [by intros ?%elem_of_nil|by intros []].
Qed.

Lemma lru_clear_correct s : wf (clear s) /\ abs (clear s) = [] /\ capacity (clear s) = capacity s.
Proof. split_and!; [apply (lru_new_wf (capacity s))|done|done]. Qed.

Lemma lru_step_wf s s' : wf s -> lru_step s s' -> wf s' /\ capacity s' = capacity s.
Proof.
  intros Hwf Hs. revert Hwf. destruct Hs as [k v s0|k s0|k f s0|k s0|keep s0|s0]; intros Hwf.
  - by destruct (lru_insert_correct k v s0 Hwf) as (_ & _ & ?).
  - by destruct (lru_get_correct k s0 Hwf) as (_ & _ & ?).
  - by destruct (lru_get_mut_correct k f s0 Hwf) as (_ & _ & ?).
  - by destruct (lru_remove_correct k s0 Hwf) as (_ & _ & ?).
  - by destruct (lru_retain_correct keep s0 Hwf) as (_ & ?).
  - by destruct (lru_clear_correct s0) as (? & _ & ?).
Qed.

Lemma lru_rtc_wf s s' : wf s -> rtc lru_step s s' -> wf s' /\ capacity s' = capacity s.
Proof.
  intros Hwf. induction 1 as [|s s1 s2 H1 _ IH]; [done|].
  destruct (lru_step_wf _ _ Hwf H1) as [Hw Hc]. rewrite <-Hc. by apply IH.
Qed.

Lemma spec_trim_le cap (l : list (K * V)) : (length (spec_trim cap l) <= cap)%nat.
Proof. unfold spec_trim. rewrite length_drop. lia. Qed.

Lemma lru_insert_lookup key v k s :
  wf s -> (0 < capacity s)%nat ->
  peek key (insert key v s).2 = Some v /\
  (k ≠ key -> forall v', peek k (insert key v s).2 = Some v' -> peek k s = Some v').
Proof.
  intros Hwf Hcap. destruct (lru_insert_correct key v s Hwf) as (Ha & _ & Hw & _). unfold peek.
  split.
  - rewrite <-elem_of_abs, Ha by done. unfold spec_insert, spec_trim.
    rewrite length_app. cbn [length]. rewrite drop_app_le by (cbn; lia).
    apply elem_of_app. right. apply list_elem_of_singleton. done.
  - intros Hne v'. rewrite <-!(elem_of_abs _ _ _) by done. rewrite Ha. intros Hin%elem_of_drop.
    apply elem_of_app in Hin as [Hin%list_elem_of_filter|Hin%list_elem_of_singleton]; [tauto|].
    by simplify_eq.
Qed.

(** ** Properties of the stored values

    What holds of every stored value, for the clients that keep state in a
    store. *)

Definition all_values (P : V -> Prop) (s : BoundedLruStore) : Prop :=
  forall k v, values s !! k = Some v -> P v.

Lemma all_values_new P cap : all_values P (new cap).
Proof. intros k v. cbn. by rewrite lookup_empty. Qed.

Lemma touch_key_values key s : values (touch_key key s) = values s.
Proof. unfold touch_key. by case_decide. Qed.

Lemma evict_loop_subseteq cap vals queue : (evict_loop cap vals queue).1 ⊆ vals.
Proof.
  revert vals. induction queue as [|k q IH]; intros vals; cbn; case_decide; cbn; try done.
  etrans; [apply IH|apply delete_subseteq].
Qed.

Lemma all_values_insert P key v s : P v -> all_values P s -> all_values P (insert key v s).2.
Proof.
  intros Hv Hs k w. unfold insert. cbn. case_decide; cbn.
  - rewrite lookup_delete_Some. intros [_ Hk]. by eapply Hs.
  - unfold evict_to_capacity. cbn.
    pose proof (evict_loop_subseteq (capacity s) (<[key:=v]> (values s))
      (retain_loop key (lru_order s) [] ++ [key])) as Hsub.
    destruct (evict_loop _ _ _) as [vals q]. cbn in *.
    intros Hk. apply (lookup_weaken _ _ _ _ Hk), lookup_insert_Some in Hsub.
    destruct Hsub as [[_ <-]|[_ Hk']]; [done|by eapply Hs].
Qed.

Lemma get_mut_values key f s : values (get_mut key f s).2 = alter f key (values s).
Proof.
  unfold get_mut, contains_key. case_bool_decide as Hk; cbn; [by rewrite touch_key_values|].
  apply eq_None_not_Some in Hk. apply map_eq. intros k. rewrite lookup_alter.
  case_decide; [|done]. subst. by rewrite Hk.
Qed.

Lemma get_mut_result key f s : (get_mut key f s).1 = values s !! key.
Proof.
  unfold get_mut, contains_key. case_bool_decide as Hk; cbn; [by rewrite touch_key_values|].
  apply eq_None_not_Some in Hk. by rewrite Hk.
Qed.

Lemma all_values_get_mut P key f s :
  (forall v, P v -> P (f v)) -> all_values P s -> all_values P (get_mut key f s).2.
Proof.
  intros Hf Hs k v. rewrite get_mut_values, lookup_alter_Some.
  intros [(_ & w & Hw & ->)|[_ Hk]]; [apply Hf|]; by eapply Hs.
Qed.

Lemma all_values_remove P key s : all_values P s -> all_values P (remove key s).2.
Proof. intros Hs k v. cbn. rewrite lookup_delete_Some. intros [_ Hk]. by eapply Hs. Qed.

Lemma retain_subseteq keep s : values (retain keep s) ⊆ values s.
Proof.
  unfold retain. generalize (omap (fun kv : K * V => if negb (keep kv.1 kv.2) then Some kv.1 else None)
    (map_to_list (values s))). intros ks. revert s.
  induction ks as [|k ks IH]; intros s; cbn [fold_left]; [done|].
  etrans; [apply IH|apply delete_subseteq].
Qed.

Lemma all_values_retain P keep s : all_values P s -> all_values P (retain keep s).
Proof. intros Hs k v Hk. eapply Hs, lookup_weaken, retain_subseteq. exact Hk. Qed.

Lemma all_values_impl (P Q : V -> Prop) s :
  (forall v, P v -> Q v) -> all_values P s -> all_values Q s.
Proof. intros HPQ Hs k v Hk. by eapply HPQ, Hs. Qed.

(** ** Properties *)

(** Every store reached from [new(cap)] by any sequence of the operations
    of the code keeps its invariant: the queue lists each key of the map exactly
    once, and the map never holds more than [cap] entries. *)
Theorem lru_reachable_invariant cap s :
  rtc lru_step (new cap) s ->
  NoDup (lru_order s) /\ (forall k, k ∈ lru_order s <-> is_Some (peek k s)) /\
  (size (values s) <= cap)%nat /\ capacity s = cap.
Proof.
  intros Hr. destruct (lru_rtc_wf _ _ (lru_new_wf cap) Hr) as [[] Hc].
  cbn in Hc. split_and!; [done|done|lia|done].
Qed.

(** [insert] refines the recency list: it moves or adds the binding at the
    most recent end, drops the oldest bindings beyond the capacity, and returns
    the previous value of the key. *)
Theorem lru_insert_refines key v s :
  wf s ->
  abs (insert key v s).2 = spec_insert (capacity s) key v (abs s) /\
  (insert key v s).1 = spec_lookup key (abs s).
Proof. intros Hwf. by destruct (lru_insert_correct key v s Hwf) as (? & ? & _). Qed.

(** The other operations refine the recency list: [get] looks the key up
    and makes it the most recent one, [remove] deletes its binding and returns it,
    [retain] keeps exactly the bindings the predicate accepts, in order. *)
Theorem lru_access_refines key keep s :
  wf s ->
  (get key s).1 = spec_lookup key (abs s) /\
  abs (get key s).2 = spec_touch key (abs s) /\
  (remove key s).1 = spec_lookup key (abs s) /\
  abs (remove key s).2 = spec_without key (abs s) /\
  abs (retain keep s) = filter (fun kv => keep kv.1 kv.2 = true) (abs s).
Proof.
  intros Hwf. destruct (lru_get_correct key s Hwf) as (? & ? & _).
  destruct (lru_remove_correct key s Hwf) as (? & ? & _).
  by destruct (lru_retain_correct keep s Hwf) as (? & _).
Qed.

(** Inserting a new key into a full store evicts exactly the least recently
    used key: its binding is gone, the new one is present and every other binding
    is kept. *)
Theorem lru_insert_evicts_oldest key v oldest rest s :
  wf s -> size (values s) = capacity s -> peek key s = None ->
  lru_order s = oldest :: rest ->
  peek oldest (insert key v s).2 = None /\
  peek key (insert key v s).2 = Some v /\
  forall k, k ≠ oldest -> k ≠ key -> peek k (insert key v s).2 = peek k s.
Proof.
  intros Hwf Hfull Hnew Hord. pose proof (wf_queue_ok _ Hwf) as Hok.
  pose proof (queue_ok_size _ _ Hok) as Hsize. rewrite Hord in Hsize. cbn in Hsize.
  assert (filter (fun k => k ≠ key) (oldest :: rest) = oldest :: rest) as Hid.
  { apply filter_id. intros k Hk ->. rewrite <-Hord, (wf_dom _ Hwf) in Hk.
    unfold peek in Hnew. rewrite Hnew in Hk. by destruct Hk. }
  assert (key ≠ oldest) as Hne.
  { intros ->. assert (oldest ∈ lru_order s) as Hin by (rewrite Hord; constructor).
    rewrite (wf_dom _ Hwf) in Hin. unfold peek in Hnew. rewrite Hnew in Hin. by destruct Hin. }
  assert (values (insert key v s).2 = delete oldest (<[key := v]> (values s))) as Hvals.
  { unfold insert. rewrite decide_False by (cbn; lia). cbn. unfold evict_to_capacity. cbn.
    rewrite retain_loop_filter, Hord, Hid. cbn. rewrite map_size_insert_None by done.
    rewrite decide_True by lia.
    assert (forall m q, size m = capacity s -> evict_loop (capacity s) m q = (m, q)) as Hstop.
    { intros m [|? q] Hm; cbn; by rewrite decide_False by lia. }
    rewrite Hstop; [done|]. rewrite map_size_delete, lookup_insert_ne by done.
    assert (is_Some (values s !! oldest)) as [v0 ->]
      by (apply (wf_dom _ Hwf); rewrite Hord; constructor).
    rewrite map_size_insert_None by done. cbn. done. }
  unfold peek. rewrite Hvals. split_and!.
  - apply lookup_delete_eq.
  - by rewrite lookup_delete_ne, lookup_insert_eq.
  - intros k ??. by rewrite lookup_delete_ne, lookup_insert_ne.
Qed.

(** An insert adds nothing but its binding. *)
Lemma evict_loop_lookup cap vals queue k v : (evict_loop cap vals queue).1 !! k = Some v -> vals !! k = Some v.
Proof.
  revert vals; induction queue as [|c q IH]; intros vals; cbn; destruct (decide _); cbn; try done.
  intros Hk%IH. by apply lookup_delete_Some in Hk as [_ Hk].
Qed.
Lemma lru_insert_peek key v s k w : peek k (insert key v s).2 = Some w -> (k = key /\ w = v) \/ peek k s = Some w.
Proof.
  unfold peek, insert. destruct (decide _); cbn.
  - intros Hk%lookup_delete_Some. right. apply Hk.
  - unfold evict_to_capacity. cbn. destruct (evict_loop _ _ _) as [vals q] eqn:He. cbn. intros Hk.
    replace vals with (evict_loop (capacity s) (<[key:=v]> (values s)) (retain_loop key (lru_order s) [] ++ [key])).1 in Hk by (by rewrite He).
    apply evict_loop_lookup, lookup_insert_Some in Hk as [[-> ->]|[_ Hk]]; [by left|by right].
Qed.

End defs.
Arguments BoundedLruStore K V {_ _}.
End Lru.

#[export] Hint Resolve Lru.lru_new_wf : core.

Module LruWitness.
Import Lru.

Definition two : BoundedLruStore string nat := (insert "b" 2%nat (insert "a" 1%nat (new 2)).2).2.

Lemma two_wf : wf two.
Proof. apply lru_insert_correct, lru_insert_correct, lru_new_wf. Defined.

Lemma lru_reachable_invariant_witness :
  rtc lru_step (new 2) two /\ capacity two = 2%nat /\ (size (values two) <= 2)%nat.
Proof.
  assert (rtc lru_step (new 2) two) as Hr.
  { eapply rtc_l; [apply (step_insert "a" 1%nat)|]. apply rtc_once, step_insert. }
  destruct (lru_reachable_invariant 2 two Hr) as (_ & _ & Hs & Hc). done.
Defined.

Lemma lru_insert_refines_witness :
  abs (insert "c" 3%nat two).2 = [("b", 2%nat); ("c", 3%nat)] /\ (insert "c" 3%nat two).1 = None.
Proof. destruct (lru_insert_refines "c" 3%nat two two_wf) as [-> ->]. by vm_compute. Defined.

Lemma lru_access_refines_witness :
  (get "a" two).1 = Some 1%nat /\ abs (get "a" two).2 = [("b", 2%nat); ("a", 1%nat)].
Proof.
  destruct (lru_access_refines "a" (fun _ _ => true) two two_wf) as (-> & -> & _). by vm_compute.
Defined.

Lemma lru_insert_evicts_oldest_witness :
  peek "a" (insert "c" 3%nat two).2 = None /\ peek "b" (insert "c" 3%nat two).2 = Some 2%nat.
Proof.
  destruct (lru_insert_evicts_oldest "c" 3%nat "a" ["b"] two two_wf) as (Ha & _ & Hb);
    [by vm_compute..|].
  split; [exact Ha|]. rewrite Hb by done. by vm_compute.
Defined.

End LruWitness.
