(* ===== verification/ShardedStore.v ===== *)
(** Model of [ShardedRwLruStore] of [src/cache.rs]: a list of stores, one per
    lock; every method body that runs under one lock guard is one atomic
    function of its shard.  The hash of a key is a parameter.  The second part
    interleaves concurrent calls of [get_or_insert_with_cloned]. *)

From S2P Require Import Prelude LruStore.

Module Sharded.
Section defs.
Context {K V : Type} `{Countable K}.
(** [DefaultHasher::finish] of the key, a [u64]. *)
Context (hash : K -> N).

Record ShardedRwLruStore := MkSharded { shards : list (Lru.BoundedLruStore K V) }.

Definition DEFAULT_SHARD_COUNT : nat := 32.

Definition recommended_shard_count (capacity : nat) : nat :=
  Nat.min (Nat.max capacity 1) DEFAULT_SHARD_COUNT.

Definition shard_index_for (key : K) (shard_count : nat) : nat :=
  N.to_nat (hash key mod N.of_nat (Nat.max shard_count 1)).

Definition new (capacity : nat) : ShardedRwLruStore :=
  let shard_count := recommended_shard_count capacity in
  let base_capacity := (capacity / shard_count)%nat in
  let extra_capacity := (capacity mod shard_count)%nat in
  MkSharded (map (fun index =>
    Lru.new (base_capacity + if decide (index < extra_capacity)%nat then 1 else 0))
    (seq 0 shard_count)).

(** Indexing a slice panics out of range: [None]. *)
Definition shard (s : ShardedRwLruStore) (key : K) : option (Lru.BoundedLruStore K V) :=
  s.(shards) !! shard_index_for key (length s.(shards)).

Definition peek_cloned (s : ShardedRwLruStore) (key : K) : option (option V) :=
  guard ← shard s key; Some (Lru.peek key guard).

(** A method body under the write lock of the key's shard. *)
Definition with_shard {A} (s : ShardedRwLruStore) (key : K)
    (body : Lru.BoundedLruStore K V -> A * Lru.BoundedLruStore K V)
    : option (A * ShardedRwLruStore) :=
  guard ← shard s key;
  let '(a, guard) := body guard in
  Some (a, MkSharded (<[shard_index_for key (length s.(shards)) := guard]> s.(shards))).

Definition insert (s : ShardedRwLruStore) (key : K) (value : V)
    : option (option V * ShardedRwLruStore) :=
  with_shard s key (Lru.insert key value).

Definition clear (s : ShardedRwLruStore) : ShardedRwLruStore :=
  MkSharded (map Lru.clear s.(shards)).

(** [get_or_insert_with_cloned]: a peek under the read lock, then, on a miss,
    [goi_locked] under the write lock. *)
Definition goi_locked (key : K) (create : V) (guard : Lru.BoundedLruStore K V)
    : V * Lru.BoundedLruStore K V :=
  match Lru.peek key guard with
  | Some existing => (existing, guard)
  | None => (create, (Lru.insert key create guard).2)
  end.

Definition get_or_insert_with_cloned (s : ShardedRwLruStore) (key : K) (create : V)
    : option (V * ShardedRwLruStore) :=
  guard ← shard s key;
  match Lru.peek key guard with
  | Some existing => Some (existing, s)
  | None => with_shard s key (goi_locked key create)
  end.

Definition capacity (s : ShardedRwLruStore) : nat :=
  sum_list (map Lru.capacity s.(shards)).

(** ** Invariant *)

Record wf (s : ShardedRwLruStore) : Prop := {
  wf_nonempty : s.(shards) ≠ [];
  wf_shards : Forall Lru.wf s.(shards);
  (** every key lives in the shard its hash selects *)
  wf_home : forall i guard k,
    s.(shards) !! i = Some guard -> is_Some (Lru.values guard !! k) ->
    shard_index_for k (length s.(shards)) = i;
}.

Definition entries (s : ShardedRwLruStore) : nat :=
  sum_list (map (fun g => size (Lru.values g)) s.(shards)).

(** ** Concurrent [get_or_insert_with_cloned]

    Several threads run the method; between the read section and the write
    section of one of them the others, inserts and clears may run. *)

Inductive goi_pc :=
| GoiStart
| GoiMissed
| GoiDone (v : V).

Record goi_thread := MkThread {
  thread_key : K;
  thread_create : V;
  thread_pc : goi_pc;
}.

Abbreviation config := (ShardedRwLruStore * list goi_thread)%type.

Definition pc_after_read (found : option V) : goi_pc :=
  match found with Some existing => GoiDone existing | None => GoiMissed end.

(** The steps of other methods of the store. *)
Inductive env_step : ShardedRwLruStore -> ShardedRwLruStore -> Prop :=
| env_insert s k v old s' : insert s k v = Some (old, s') -> env_step s s'
| env_clear s : env_step s (clear s).

Inductive thread_step : config -> config -> Prop :=
| goi_read s ts i k c found :
    ts !! i = Some (MkThread k c GoiStart) ->
    peek_cloned s k = Some found ->
    thread_step (s, ts) (s, <[i := MkThread k c (pc_after_read found)]> ts)
| goi_write s ts i k c v s' :
    ts !! i = Some (MkThread k c GoiMissed) ->
    with_shard s k (goi_locked k c) = Some (v, s') ->
    thread_step (s, ts) (s', <[i := MkThread k c (GoiDone v)]> ts).

Inductive goi_step : config -> config -> Prop :=
| goi_thread_step c c' : thread_step c c' -> goi_step c c'
| goi_env_step s s' ts : env_step s s' -> goi_step (s, ts) (s', ts).

(** The specification: the whole method is one indivisible step. *)
Inductive atomic_step : config -> config -> Prop :=
| atomic_goi s ts i k c v s' :
    ts !! i = Some (MkThread k c GoiStart) ->
    get_or_insert_with_cloned s k c = Some (v, s') ->
    atomic_step (s, ts) (s', <[i := MkThread k c (GoiDone v)]> ts)
| atomic_env s s' ts : env_step s s' -> atomic_step (s, ts) (s', ts).

(** A thread between its two sections has not happened yet. *)
Definition abs_thread (t : goi_thread) : goi_thread :=
  match thread_pc t with
  | GoiMissed => MkThread (thread_key t) (thread_create t) GoiStart
  | _ => t
  end.
Definition abs_config (c : config) : config := (c.1, abs_thread <$> c.2).

(** What the threads of one key agree on. *)
Definition agree (k : K) (c : config) : Prop :=
  Forall (fun t => thread_key t = k) c.2 /\
  exists g, shard c.1 k = Some g /\ Lru.wf g /\ (0 < Lru.capacity g)%nat /\
  ((Lru.peek k g = None /\ Forall (fun t => forall v, thread_pc t ≠ GoiDone v) c.2) \/
   exists v, Lru.peek k g = Some v /\
             Forall (fun t => forall v', thread_pc t = GoiDone v' -> v' = v) c.2).

(** What callers do with a shared store. *)
Inductive sharded_step : ShardedRwLruStore -> ShardedRwLruStore -> Prop :=
| step_env s s' : env_step s s' -> sharded_step s s'
| step_goi s k c v s' : get_or_insert_with_cloned s k c = Some (v, s') -> sharded_step s s'.

(** ** Lemmas *)

Lemma shard_index_lt (key : K) n : (0 < n)%nat -> (shard_index_for key n < n)%nat.
Proof.
  intros Hn. unfold shard_index_for. rewrite Nat.max_l by lia.
  pose proof (N.mod_lt (hash key) (N.of_nat n) ltac:(lia)). lia.
Qed.

Lemma shard_total s key : wf s -> exists guard, shard s key = Some guard /\ Lru.wf guard.
Proof.
  intros Hwf. destruct (lookup_lt_is_Some_2 (shards s) (shard_index_for key (length (shards s)))) as [g Hg].
  { apply shard_index_lt. pose proof (wf_nonempty _ Hwf). destruct (shards s); cbn; [done|lia]. }
  exists g. split; [done|]. by eapply Forall_lookup_1; [apply Hwf|].
Qed.

(** An operation on one shard that keeps it well formed and adds no key but its
    own keeps the whole store well formed. *)
Lemma with_shard_wf {A} s key (body : Lru.BoundedLruStore K V -> A * Lru.BoundedLruStore K V) :
  wf s ->
  (forall g, Lru.wf g -> Lru.wf (body g).2 /\
     forall k, is_Some (Lru.values (body g).2 !! k) -> k = key \/ is_Some (Lru.values g !! k)) ->
  exists a s', with_shard s key body = Some (a, s') /\ wf s'.
Proof.
  intros Hwf Hbody. destruct (shard_total s key Hwf) as (g & Hg & Hwg).
  unfold with_shard. rewrite Hg. cbn. destruct (Hbody g Hwg) as [Hw Hk].
  destruct (body g) as [a g'] eqn:E. cbn in *. do 2 eexists. split; [done|].
  unfold shard in Hg. split; cbn.
  - pose proof (wf_nonempty _ Hwf). destruct (shards s); cbn; [done|]. by destruct (shard_index_for _ _).
  - apply Forall_insert; [apply Hwf|done].
  - intros i g0 k. rewrite length_insert. intros Hi Hk0.
    apply list_lookup_insert_Some in Hi as [(<- & <- & _)|[_ Hi]].
    + apply Hk in Hk0 as [->|Hk0]; [done|]. by eapply wf_home.
    + by eapply wf_home.
Qed.

Lemma insert_body_ok key v (g : Lru.BoundedLruStore K V) :
  Lru.wf g -> Lru.wf (Lru.insert key v g).2 /\
  forall k, is_Some (Lru.values (Lru.insert key v g).2 !! k) -> k = key \/ is_Some (Lru.values g !! k).
Proof.
  intros Hwf. destruct (Lru.lru_insert_correct key v g Hwf) as (Ha & _ & Hw & _). split; [done|].
  intros k [v' Hv']. destruct (decide (k = key)) as [->|Hne]; [by left|right].
  destruct (decide (Lru.capacity g = 0%nat)) as [H0|H0].
  - assert ((k, v') ∈ Lru.abs (Lru.insert key v g).2) as Hin by by apply Lru.elem_of_abs.
    rewrite Ha in Hin. unfold Lru.spec_insert, Lru.spec_trim in Hin. rewrite H0, drop_ge in Hin by lia.
    by apply elem_of_nil in Hin.
  - exists v'. destruct (Lru.lru_insert_lookup key v k g Hwf) as [_ Hl]; [lia|]. by apply Hl.
Qed.

Lemma goi_body_ok key v (g : Lru.BoundedLruStore K V) :
  Lru.wf g -> Lru.wf (goi_locked key v g).2 /\
  forall k, is_Some (Lru.values (goi_locked key v g).2 !! k) -> k = key \/ is_Some (Lru.values g !! k).
Proof.
  intros Hwf. unfold goi_locked. destruct (Lru.peek key g); cbn; [by auto|]. by apply insert_body_ok.
Qed.

Lemma sharded_clear_wf s : wf s -> wf (clear s).
Proof.
  intros Hwf. split; cbn.
  - pose proof (wf_nonempty _ Hwf). by destruct (shards s).
  - apply Forall_forall. intros g Hg. apply list_elem_of_fmap in Hg as (g0 & -> & Hg).
    apply Lru.lru_clear_correct.
  - intros i g k Hi [v Hv]. rewrite list_lookup_fmap in Hi.
    destruct (shards s !! i); cbn in Hi; by simplify_eq/=.
Qed.

Lemma sharded_new_wf cap : wf (new cap).
Proof.
  split; cbn.
  - unfold recommended_shard_count, DEFAULT_SHARD_COUNT.
    destruct (Nat.min _ _) eqn:E; [lia|done].
  - apply Forall_forall. intros g Hg. apply list_elem_of_fmap in Hg as (i & -> & _). apply Lru.lru_new_wf.
  - intros i g k Hi [v Hv]. rewrite list_lookup_fmap in Hi.
    destruct (seq _ _ !! i); cbn in Hi; by simplify_eq/=.
Qed.

Lemma sum_shard_capacities (base extra n : nat) :
  (extra <= n)%nat ->
  sum_list (map (fun i => base + if decide (i < extra)%nat then 1 else 0)%nat (seq 0 n))
  = (n * base + extra)%nat.
Proof.
  intros Hle.
  assert (forall m, (sum_list (map (fun i => base + if decide (i < extra)%nat then 1 else 0)%nat (seq 0 m))
            = m * base + Nat.min m extra)%nat) as Hm.
  { induction m as [|m IH]; [done|]. rewrite seq_S, map_app, sum_list_with_app, IH.
    cbn [map sum_list_with]. unfold id. case_decide; lia. }
  rewrite Hm. lia.
Qed.

(** The shards together have exactly the requested capacity. *)
Lemma sharded_new_capacity cap : capacity (new cap) = cap.
Proof.
  unfold capacity, new. cbn. rewrite map_map. cbn.
  set (n := recommended_shard_count cap).
  assert (0 < n)%nat by (unfold n, recommended_shard_count, DEFAULT_SHARD_COUNT; lia).
  rewrite sum_shard_capacities.
  - symmetry. apply Nat.div_mod_eq.
  - apply Nat.lt_le_incl, Nat.mod_upper_bound. lia.
Qed.

Lemma entries_le_capacity s : wf s -> (entries s <= capacity s)%nat.
Proof.
  intros [_ Hw _]. unfold entries, capacity.
  induction Hw as [|g gs Hg _ IH]; cbn; [lia|]. pose proof (Lru.wf_cap _ Hg). lia.
Qed.

Lemma goi_locked_atomic s k c :
  with_shard s k (goi_locked k c) = get_or_insert_with_cloned s k c.
Proof.
  unfold get_or_insert_with_cloned. destruct (shard s k) as [g|] eqn:Hg; cbn.
  - destruct (Lru.peek k g) as [v|] eqn:Hp; [|done].
    unfold with_shard, goi_locked. rewrite Hg. cbn. rewrite Hp.
    unfold shard in Hg. rewrite list_insert_id by done. by destruct s.
  - unfold with_shard. by rewrite Hg.
Qed.

Lemma thread_step_sim c c' :
  thread_step c c' -> abs_config c' = abs_config c \/ atomic_step (abs_config c) (abs_config c').
Proof.
  intros [s ts i k c0 found Hi Hp|s ts i k c0 v s' Hi Hws]; unfold abs_config; cbn;
    assert ((abs_thread <$> ts) !! i = Some (MkThread k c0 GoiStart)) as Hi'
      by (by rewrite list_lookup_fmap, Hi); rewrite list_fmap_insert.
  - destruct found as [v|]; cbn; [right|left; by rewrite list_insert_id].
    econstructor; [done|]. unfold get_or_insert_with_cloned, peek_cloned in *.
    destruct (shard s k); cbn in *; [|done]. simplify_eq. by rewrite Hp.
  - right. econstructor; [done|]. by rewrite <-goi_locked_atomic.
Qed.

Lemma goi_step_sim c c' :
  goi_step c c' -> abs_config c' = abs_config c \/ atomic_step (abs_config c) (abs_config c').
Proof. intros [? ? ?%thread_step_sim|]; [done|]. right. by constructor. Qed.

Lemma goi_rtc_sim c c' : rtc goi_step c c' -> rtc atomic_step (abs_config c) (abs_config c').
Proof.
  induction 1 as [c|c c1 c2 Hstep _ IH]; [done|].
  destruct (goi_step_sim _ _ Hstep) as [Heq|Hs]; [by rewrite <-Heq|by eapply rtc_l].
Qed.

Lemma with_shard_shard {A} s k (body : Lru.BoundedLruStore K V -> A * Lru.BoundedLruStore K V) g a s' :
  shard s k = Some g -> with_shard s k body = Some (a, s') ->
  a = (body g).1 /\ shard s' k = Some (body g).2.
Proof.
  intros Hg. unfold with_shard. rewrite Hg. cbn. destruct (body g) as [x g'].
  intros ?; simplify_eq/=. split; [done|]. unfold shard in *. cbn. rewrite length_insert.
  apply list_lookup_insert_eq. by eapply lookup_lt_Some.
Qed.

Lemma agree_step k c c' :
  agree k c -> thread_step c c' -> agree k c'.
Proof.
  intros (Hkeys & g & Hg & Hw & Hcap & Hv) Hstep. revert Hkeys Hg Hv.
  destruct Hstep as [s ts i k' c found Hi Hp|s ts i k' c v s' Hi Hws];
    cbn; intros Hkeys Hg Hv.
  - pose proof (Forall_lookup_1 _ _ _ _ Hkeys Hi) as Hk; cbn in Hk; subst k'.
    unfold peek_cloned in Hp. rewrite Hg in Hp. cbn in Hp. simplify_eq.
    split; cbn; [by apply Forall_insert|]. exists g. split_and!; [done..|].
    destruct Hv as [[Hn Hts]|(v & Hs & Hts)]; [left|right; exists v]; rewrite ?Hn, ?Hs;
      (split; [done|]); apply Forall_insert; cbn; naive_solver.
  - pose proof (Forall_lookup_1 _ _ _ _ Hkeys Hi) as Hk; cbn in Hk; subst k'.
    destruct (with_shard_shard _ _ _ _ _ _ Hg Hws) as [-> Hg']. unfold goi_locked in *.
    split; cbn; [by apply Forall_insert|].
    destruct Hv as [[Hn Hts]|(v0 & Hs & Hts)].
    + rewrite Hn in *. cbn in *. destruct (Lru.lru_insert_correct k c g Hw) as (_ & _ & ? & Hc).
      eexists. split_and!; [done|done|by rewrite Hc|]. right. exists c.
      destruct (Lru.lru_insert_lookup k c k g Hw Hcap) as [Hl _]. split; [done|]. apply Forall_insert; [|naive_solver].
      eapply Forall_impl; [exact Hts|]. intros t Ht v' Hd. by destruct (Ht v').
    + rewrite Hs in *. cbn in *. exists g. split_and!; [done..|]. right. exists v0.
      split; [done|]. apply Forall_insert; naive_solver.
Qed.

Lemma with_shard_capacity {A} s k (body : Lru.BoundedLruStore K V -> A * Lru.BoundedLruStore K V) a s' :
  (forall g, Lru.wf g -> Lru.capacity (body g).2 = Lru.capacity g) ->
  wf s -> with_shard s k body = Some (a, s') -> capacity s' = capacity s.
Proof.
  intros Hbody Hwf. destruct (shard_total s k Hwf) as (g & Hg & Hwg). unfold with_shard.
  rewrite Hg. cbn. specialize (Hbody g Hwg). destruct (body g) as [x g']. cbn in *.
  intros ?; simplify_eq/=. unfold capacity. cbn. f_equal.
  rewrite list_fmap_insert, Hbody. apply list_insert_id.
  unfold shard in Hg. by rewrite list_lookup_fmap, Hg.
Qed.

Lemma goi_locked_capacity k c (g : Lru.BoundedLruStore K V) :
  Lru.wf g -> Lru.capacity (goi_locked k c g).2 = Lru.capacity g.
Proof.
  intros Hwf. unfold goi_locked. destruct (Lru.peek k g); [done|]. by apply Lru.lru_insert_correct.
Qed.

Lemma env_step_wf s s' : env_step s s' -> wf s -> wf s' /\ capacity s' = capacity s.
Proof.
  destruct 1 as [s k v old s' Hi|s]; intros Hwf.
  - split.
    + destruct (with_shard_wf s k (Lru.insert k v) Hwf) as (a & s0 & Hs0 & ?).
      { intros g Hg. by apply insert_body_ok. }
      unfold insert in Hi. by simplify_eq.
    + eapply with_shard_capacity; [|done|done]. intros g Hg. by apply Lru.lru_insert_correct.
  - split; [by apply sharded_clear_wf|]. unfold capacity, clear. cbn. by rewrite map_map.
Qed.

Lemma sharded_step_wf s s' : sharded_step s s' -> wf s -> wf s' /\ capacity s' = capacity s.
Proof.
  destruct 1 as [s s' He|s k c v s' Hg]; intros Hwf; [by eapply env_step_wf|].
  rewrite <-goi_locked_atomic in Hg. split.
  - destruct (with_shard_wf s k (goi_locked k c) Hwf) as (a & s0 & Hs0 & ?).
    { intros g Hw. by apply goi_body_ok. }
    by simplify_eq.
  - eapply with_shard_capacity; [apply goi_locked_capacity|done|done].
Qed.

Lemma sharded_rtc_wf s s' : rtc sharded_step s s' -> wf s -> wf s' /\ capacity s' = capacity s.
Proof.
  induction 1 as [|s s1 s2 H1 _ IH]; intros Hwf; [done|].
  destruct (sharded_step_wf _ _ H1 Hwf) as [Hw Hc]. rewrite <-Hc. by apply IH.
Qed.

(** ** Properties *)

(** A sharded store created with a capacity and used through its methods
    never panics on a shard index, keeps every key in the shard its hash selects,
    and never holds more entries than the requested total capacity, although each
    shard is bounded on its own. *)
Theorem sharded_reachable_bounded cap s :
  rtc sharded_step (new cap) s ->
  capacity s = cap /\ (entries s <= cap)%nat /\
  (forall k, is_Some (shard s k)) /\
  (forall i g k, shards s !! i = Some g -> is_Some (Lru.peek k g) ->
     shard_index_for k (length (shards s)) = i).
Proof.
  intros Hr. destruct (sharded_rtc_wf _ _ Hr (sharded_new_wf cap)) as [Hw Hc].
  rewrite sharded_new_capacity in Hc. split_and!; [done| | |].
  - rewrite <-Hc. by apply entries_le_capacity.
  - intros k. destruct (shard_total s k Hw) as (g & -> & _). eauto.
  - apply (wf_home _ Hw).
Qed.

(** C35. The double-checked [get_or_insert_with_cloned] is linearizable: whatever
    the other threads do between its read section and its write section, every
    execution of the two-section code is an execution in which the method is one
    atomic step, a thread stopped between its sections counting as not started. *)
Theorem goi_linearizable s ts s' ts' :
  Forall (fun t => thread_pc t ≠ GoiMissed) ts ->
  rtc goi_step (s, ts) (s', ts') -> rtc atomic_step (s, ts) (s', abs_thread <$> ts').
Proof.
  intros Hts Hr%goi_rtc_sim. unfold abs_config in Hr. cbn in Hr.
  assert (abs_thread <$> ts = ts) as Heq; [|by rewrite Heq in Hr].
  clear Hr. induction Hts as [|t l Ht _ IH]; [done|]. cbn. f_equal; [|apply IH].
  by destruct t as [? ? []].
Qed.

(** Any number of threads calling [get_or_insert_with_cloned] for the same
    key, interleaved in any way, all return one and the same value, the one the
    store then holds, provided the key's shard can hold an entry. *)
Theorem goi_threads_agree k s ts c' i j ti tj vi vj g :
  wf s -> shard s k = Some g -> (0 < Lru.capacity g)%nat ->
  Forall (fun t => thread_key t = k /\ thread_pc t = GoiStart) ts ->
  rtc thread_step (s, ts) c' ->
  c'.2 !! i = Some ti -> thread_pc ti = GoiDone vi ->
  c'.2 !! j = Some tj -> thread_pc tj = GoiDone vj ->
  vi = vj /\ peek_cloned c'.1 k = Some (Some vi).
Proof.
  intros Hwf Hg Hcap Hts Hr Hi Hvi Hj Hvj.
  assert (agree k (s, ts)) as Hag.
  { split; cbn; [eapply Forall_impl; [exact Hts|naive_solver]|].
    exists g. split_and!; [done| |done|].
    - destruct (shard_total s k Hwf) as (g' & Hg' & ?). by simplify_eq.
    - destruct (Lru.peek k g) as [v|]; [right; exists v; split; [done|]|left; split; [done|]];
        (eapply Forall_impl; [exact Hts|]); intros t [_ Ht]; rewrite Ht; naive_solver. }
  assert (agree k c') as (_ & g' & Hg' & _ & _ & Hv).
  { clear -Hag Hr. induction Hr; [done|]. eauto using agree_step. }
  unfold peek_cloned. rewrite Hg'. cbn.
  destruct Hv as [[_ Hn]|(v & -> & Hd)].
  - pose proof (Forall_lookup_1 _ _ _ _ Hn Hi) as Hf. by destruct (Hf vi).
  - pose proof (Forall_lookup_1 _ _ _ _ Hd Hi vi Hvi).
    pose proof (Forall_lookup_1 _ _ _ _ Hd Hj vj Hvj). by subst.
Qed.

Lemma insert_peek s key v previous s' k w :
  insert s key v = Some (previous, s') -> peek_cloned s' k = Some (Some w) ->
  (k = key /\ w = v) \/ peek_cloned s k = Some (Some w).
Proof.
  unfold insert, with_shard, peek_cloned, shard.
  destruct (shards s !! shard_index_for key (length (shards s))) as [g|] eqn:Hg; cbn; [|done].
  destruct (Lru.insert key v g) as [x g'] eqn:Hi. intros [= <- <-]. cbn. rewrite length_insert.
  destruct (decide (shard_index_for k (length (shards s)) = shard_index_for key (length (shards s)))) as [He|He].
  - rewrite He, list_lookup_insert_eq, Hg by (by eapply lookup_lt_Some). cbn. intros [= Hw].
    change g' with (x, g').2 in Hw. rewrite <-Hi in Hw. apply Lru.lru_insert_peek in Hw as [?|Hw]; [by left|right; by rewrite Hw].
  - rewrite list_lookup_insert_ne by done. by right.
Qed.

End defs.
Arguments ShardedRwLruStore K V {_ _}.
End Sharded.

Module ShardedWitness.
Import Sharded.

(** A concrete hash: the length of the key. *)
Definition len_hash (k : string) : N := N.of_nat (String.length k).

Definition s0 : ShardedRwLruStore string nat := new 4.
Definition s1 : ShardedRwLruStore string nat :=
  default s0 (snd <$> insert len_hash s0 "a" 1%nat).

Lemma sharded_reachable_bounded_witness :
  rtc (sharded_step len_hash) s0 s1 /\ entries s1 = 1%nat /\ (entries s1 <= 4)%nat.
Proof.
  assert (rtc (sharded_step len_hash) s0 s1) as Hr.
  { apply rtc_once, step_env, (env_insert len_hash s0 "a" 1%nat None). by vm_compute. }
  destruct (sharded_reachable_bounded len_hash 4 s1 Hr) as (_ & Hle & _).
  split_and!; [done|by vm_compute|done].
Defined.

(** Two threads that both miss before either writes. *)
Definition start : list (goi_thread (K:=string) (V:=nat)) :=
  [MkThread "a" 10%nat GoiStart; MkThread "a" 20%nat GoiStart].
Definition finished : list (goi_thread (K:=string) (V:=nat)) :=
  [MkThread "a" 10%nat (GoiDone 20%nat); MkThread "a" 20%nat (GoiDone 20%nat)].
Definition s2 : ShardedRwLruStore string nat :=
  default s0 (snd <$> insert len_hash s0 "a" 20%nat).

Lemma racing_run : rtc (thread_step len_hash) (s0, start) (s2, finished).
Proof.
  eapply rtc_l; [apply (goi_read len_hash s0 start 0 "a" 10%nat None); by vm_compute|].
  eapply rtc_l; [apply (goi_read len_hash s0 _ 1 "a" 20%nat None); by vm_compute|].
  eapply rtc_l; [apply (goi_write len_hash s0 _ 1 "a" 20%nat 20%nat s2); by vm_compute|].
  eapply rtc_l; [apply (goi_write len_hash s2 _ 0 "a" 10%nat 20%nat s2); by vm_compute|].
  apply rtc_refl.
Defined.

Lemma goi_linearizable_witness :
  rtc (atomic_step len_hash) (s0, start) (s2, abs_thread <$> finished).
Proof.
  apply goi_linearizable.
  - unfold start. by repeat constructor.
  - eapply rtc_subrel; [|exact racing_run]. intros. by apply goi_thread_step.
Defined.

Lemma goi_threads_agree_witness : peek_cloned len_hash s2 "a" = Some (Some 20%nat).
Proof.
  destruct (goi_threads_agree len_hash "a" s0 start (s2, finished) 0 1
    (MkThread "a" 10%nat (GoiDone 20%nat)) (MkThread "a" 20%nat (GoiDone 20%nat))
    20%nat 20%nat (Lru.new 1)) as [_ H]; [apply sharded_new_wf|by vm_compute|cbn; lia| | |done..|exact H].
  - unfold start. repeat constructor.
  - exact racing_run.
Defined.

End ShardedWitness.
