(* ===== verification/TransportState.v ===== *)
(** Model of the TCP and UDP part of [src/abi_impl/transport/state.rs]: handle
    decoding, the flow and socket state machines, and [ReplayPrefixedIo], the
    reader that replays already consumed bytes before the inner stream. *)

From S2P Require Import Prelude Bytes.

(** * Handles *)
Module Handles.

Definition TCP_STREAM_DOWNSTREAM : Z := 0.
Definition TCP_STREAM_DEFAULT_UPSTREAM : Z := 1.
Definition FIRST_DYNAMIC_TCP_STREAM_HANDLE : Z := Z.shiftl 1 40.
Definition UDP_SOCKET_DOWNSTREAM : Z := 0.
Definition UDP_SOCKET_DEFAULT_UPSTREAM : Z := 1.

Inductive TcpStreamRef := TcpDownstream | TcpDefaultUpstream.
Definition tcp_handle (r : TcpStreamRef) : Z :=
  match r with
  | TcpDownstream => TCP_STREAM_DOWNSTREAM
  | TcpDefaultUpstream => TCP_STREAM_DEFAULT_UPSTREAM
  end.
Definition decode_tcp_stream_handle (handle : Z) : option TcpStreamRef :=
  if handle =? TCP_STREAM_DOWNSTREAM then Some TcpDownstream
  else if handle =? TCP_STREAM_DEFAULT_UPSTREAM then Some TcpDefaultUpstream
  else None.

Inductive UdpSocketRef := UdpDownstream | UdpDefaultUpstream.
Definition udp_handle (r : UdpSocketRef) : Z :=
  match r with
  | UdpDownstream => UDP_SOCKET_DOWNSTREAM
  | UdpDefaultUpstream => UDP_SOCKET_DEFAULT_UPSTREAM
  end.
Definition decode_udp_socket_handle (handle : Z) : option UdpSocketRef :=
  if handle =? UDP_SOCKET_DOWNSTREAM then Some UdpDownstream
  else if handle =? UDP_SOCKET_DEFAULT_UPSTREAM then Some UdpDefaultUpstream
  else None.

Inductive TlsSessionRef := TlsDownstream | TlsDefaultUpstream.
Definition tls_handle (r : TlsSessionRef) : Z :=
  match r with
  | TlsDownstream => TCP_STREAM_DOWNSTREAM
  | TlsDefaultUpstream => TCP_STREAM_DEFAULT_UPSTREAM
  end.
Definition decode_tls_session_handle (handle : Z) : option TlsSessionRef :=
  if handle =? TCP_STREAM_DOWNSTREAM then Some TlsDownstream
  else if handle =? TCP_STREAM_DEFAULT_UPSTREAM then Some TlsDefaultUpstream
  else None.

End Handles.

(** * The TCP flow of a plane *)
Module TcpFlow.

Inductive TcpFlowPhase := Inactive | Configured | Connected | Closed | Failed.
#[export] Instance TcpFlowPhase_eq_dec : EqDecision TcpFlowPhase.
Proof. solve_decision. Defined.

Definition as_str (p : TcpFlowPhase) : string :=
  match p with
  | Inactive => "inactive" | Configured => "configured" | Connected => "connected"
  | Closed => "closed" | Failed => "failed"
  end.

Record TcpFlowState := MkFlow {
  phase : TcpFlowPhase;
  rx_observed : bool;
  tx_observed : bool;
  failure_message : option string;
}.
#[export] Instance eta_flow : Eta TcpFlowState := fun s =>
  MkFlow s.(phase) s.(rx_observed) s.(tx_observed) s.(failure_message).

Definition default_flow : TcpFlowState := MkFlow Inactive false false None.
Definition downstream_ready : TcpFlowState := MkFlow Connected false false None.

Definition configure (s : TcpFlowState) : TcpFlowState :=
  s <| phase := Configured |> <| failure_message := None |>.
Definition note_read (s : TcpFlowState) : TcpFlowState := s <| rx_observed := true |>.
Definition note_write (s : TcpFlowState) : TcpFlowState := s <| tx_observed := true |>.
Definition observed_io (s : TcpFlowState) : bool := s.(rx_observed) || s.(tx_observed).
Definition mark_connected (s : TcpFlowState) : TcpFlowState :=
  s <| phase := Connected |> <| failure_message := None |>.
Definition mark_closed (s : TcpFlowState) : TcpFlowState :=
  if decide (s.(phase) ≠ Failed) then s <| phase := Closed |> else s.
Definition mark_failed (message : string) (s : TcpFlowState) : TcpFlowState :=
  s <| phase := Failed |> <| failure_message := Some message |>.
Definition phase_label (s : TcpFlowState) : string := as_str s.(phase).

Record TcpTransportDag := MkDag { downstream : TcpFlowState; default_upstream : TcpFlowState }.
Definition for_http_request : TcpTransportDag := MkDag downstream_ready default_flow.

(** The mutations, and a run of them. *)
Inductive flow_op :=
| OpConfigure | OpRead | OpWrite | OpConnected | OpClosed | OpFailed (message : string).
Definition apply_op (s : TcpFlowState) (op : flow_op) : TcpFlowState :=
  match op with
  | OpConfigure => configure s
  | OpRead => note_read s
  | OpWrite => note_write s
  | OpConnected => mark_connected s
  | OpClosed => mark_closed s
  | OpFailed m => mark_failed m s
  end.
Definition run_ops (ops : list flow_op) (s : TcpFlowState) : TcpFlowState := fold_left apply_op ops s.

(** The message of the last failure since the last (re)configuration or connect. *)
Definition pending_failure (ops : list flow_op) : option string :=
  fold_left (fun acc op =>
    match op with
    | OpConfigure | OpConnected => None
    | OpFailed m => Some m
    | _ => acc
    end) ops None.

End TcpFlow.

(** * Socket addresses *)
Module SocketAddress.

Record SocketTargetState := MkTarget { authority : string; target_host_ : string; target_port : Z }.

Record SocketAddressState := MkAddress {
  present : bool;
  bind_address : option string;
  target_ : option SocketTargetState;
  local_address_ : option string;
  peer_address_ : option string;
  failure_message : option string;
}.
#[export] Instance eta_address : Eta SocketAddressState := fun s =>
  MkAddress s.(present) s.(bind_address) s.(target_) s.(local_address_) s.(peer_address_)
    s.(failure_message).

Definition default_address : SocketAddressState := MkAddress false None None None None None.

Definition optional_value (value : string) : option string :=
  if is_empty value then None else Some value.

Definition set_bind_address (address : string) (s : SocketAddressState) : SocketAddressState :=
  s <| present := true |> <| bind_address := optional_value address |>
    <| local_address_ := None |> <| failure_message := None |>.

Definition set_target (auth h : string) (p : Z) (s : SocketAddressState) : SocketAddressState :=
  s <| present := true |> <| target_ := Some (MkTarget auth h p) |>
    <| peer_address_ := None |> <| failure_message := None |>.

Definition mark_connected (local peer : string) (s : SocketAddressState) : SocketAddressState :=
  s <| present := true |> <| local_address_ := Some local |> <| peer_address_ := Some peer |>
    <| failure_message := None |>.

Definition mark_present (s : SocketAddressState) : SocketAddressState := s <| present := true |>.
Definition clear_failure (s : SocketAddressState) : SocketAddressState := s <| failure_message := None |>.
Definition mark_failed (message : string) (s : SocketAddressState) : SocketAddressState :=
  s <| present := true |> <| failure_message := Some message |>.

Definition target (s : SocketAddressState) : option string := authority <$> s.(target_).
Definition target_host (s : SocketAddressState) : option string := target_host_ <$> s.(target_).
Definition local_address (s : SocketAddressState) : string := default "" s.(local_address_).
Definition peer_address (s : SocketAddressState) : string :=
  match s.(peer_address_) with
  | Some a => a
  | None => default "" (target s)
  end.

End SocketAddress.

(** * TCP sockets *)
Module TcpSocket.
Import SocketAddress (SocketAddressState).

Inductive TcpSocketPhase :=
| Inactive | Bound | Configured | Connected | UpgradedTls | AttachedMqtt | AttachedHttp
| AttachedProxy | Closed | Failed.
#[export] Instance TcpSocketPhase_eq_dec : EqDecision TcpSocketPhase.
Proof. solve_decision. Defined.

Definition as_str (p : TcpSocketPhase) : string :=
  match p with
  | Inactive => "inactive" | Bound => "bound" | Configured => "configured"
  | Connected => "connected" | UpgradedTls => "upgraded-tls"
  | AttachedMqtt => "attached-mqtt" | AttachedHttp => "attached-http"
  | AttachedProxy => "attached-proxy" | Closed => "closed" | Failed => "failed"
  end.

Record TcpSocketState := MkSocket {
  core : SocketAddressState;
  phase : TcpSocketPhase;
  read_eof : bool;
}.
#[export] Instance eta_socket : Eta TcpSocketState := fun s =>
  MkSocket s.(core) s.(phase) s.(read_eof).

Definition default_socket : TcpSocketState := MkSocket SocketAddress.default_address Inactive false.

Definition set_bind_address (address : string) (s : TcpSocketState) : TcpSocketState :=
  let s := s <| core := SocketAddress.set_bind_address address s.(core) |> <| read_eof := false |> in
  if decide (s.(phase) = Inactive) then s <| phase := Bound |> else s.

Definition set_target (auth h : string) (p : Z) (s : TcpSocketState) : TcpSocketState :=
  s <| core := SocketAddress.set_target auth h p s.(core) |> <| read_eof := false |>
    <| phase := Configured |>.

Definition mark_connected (local peer : string) (s : TcpSocketState) : TcpSocketState :=
  s <| core := SocketAddress.mark_connected local peer s.(core) |> <| phase := Connected |>
    <| read_eof := false |>.

Definition mark_upgraded_tls (s : TcpSocketState) : TcpSocketState :=
  s <| core := SocketAddress.clear_failure (SocketAddress.mark_present s.(core)) |>
    <| phase := UpgradedTls |> <| read_eof := false |>.
Definition mark_mqtt_attached (s : TcpSocketState) : TcpSocketState :=
  s <| core := SocketAddress.clear_failure (SocketAddress.mark_present s.(core)) |>
    <| phase := AttachedMqtt |> <| read_eof := false |>.
Definition mark_http_attached (s : TcpSocketState) : TcpSocketState :=
  s <| core := SocketAddress.clear_failure (SocketAddress.mark_present s.(core)) |>
    <| phase := AttachedHttp |> <| read_eof := false |>.
Definition mark_proxy_attached (s : TcpSocketState) : TcpSocketState :=
  s <| core := SocketAddress.clear_failure (SocketAddress.mark_present s.(core)) |>
    <| phase := AttachedProxy |> <| read_eof := false |>.

Definition mark_read_eof (s : TcpSocketState) : TcpSocketState := s <| read_eof := true |>.
Definition clear_read_eof (s : TcpSocketState) : TcpSocketState := s <| read_eof := false |>.
Definition mark_closed (s : TcpSocketState) : TcpSocketState := s <| phase := Closed |>.
Definition mark_failed (message : string) (s : TcpSocketState) : TcpSocketState :=
  s <| core := SocketAddress.mark_failed message s.(core) |> <| phase := Failed |>.

Definition is_present (s : TcpSocketState) : bool := SocketAddress.present s.(core).
Definition bind_address (s : TcpSocketState) : option string := SocketAddress.bind_address s.(core).
Definition target (s : TcpSocketState) : option string := SocketAddress.target s.(core).
Definition target_host (s : TcpSocketState) : option string := SocketAddress.target_host s.(core).
Definition local_address (s : TcpSocketState) : string := SocketAddress.local_address s.(core).
Definition peer_address (s : TcpSocketState) : string := SocketAddress.peer_address s.(core).

Inductive socket_step : TcpSocketState -> TcpSocketState -> Prop :=
| step_bind a s : socket_step s (set_bind_address a s)
| step_target a h p s : socket_step s (set_target a h p s)
| step_connected l p s : socket_step s (mark_connected l p s)
| step_tls s : socket_step s (mark_upgraded_tls s)
| step_mqtt s : socket_step s (mark_mqtt_attached s)
| step_http s : socket_step s (mark_http_attached s)
| step_proxy s : socket_step s (mark_proxy_attached s)
| step_eof s : socket_step s (mark_read_eof s)
| step_clear_eof s : socket_step s (clear_read_eof s)
| step_closed s : socket_step s (mark_closed s)
| step_failed m s : socket_step s (mark_failed m s).

Record socket_inv (s : TcpSocketState) : Prop := {
  inv_present : phase s ≠ Inactive -> phase s ≠ Closed -> is_present s = true;
  inv_inactive : phase s = Inactive -> core s = SocketAddress.default_address;
  inv_live : phase s ≠ Failed -> phase s ≠ Closed -> SocketAddress.failure_message (core s) = None;
  inv_target : phase s = Configured -> is_Some (target s);
  inv_bind : SocketAddress.bind_address (core s) ≠ Some "";
}.

End TcpSocket.

(** * UDP sockets *)
Module UdpSocket.
Import SocketAddress (SocketAddressState).

Inductive UdpSocketPhase := Inactive | Bound | Configured | Connected | Closed | Failed.
#[export] Instance UdpSocketPhase_eq_dec : EqDecision UdpSocketPhase.
Proof. solve_decision. Defined.

Definition as_str (p : UdpSocketPhase) : string :=
  match p with
  | Inactive => "inactive" | Bound => "bound" | Configured => "configured"
  | Connected => "connected" | Closed => "closed" | Failed => "failed"
  end.

Record UdpSocketState := MkSocket { core : SocketAddressState; phase : UdpSocketPhase }.
#[export] Instance eta_socket : Eta UdpSocketState := fun s => MkSocket s.(core) s.(phase).

Definition default_socket : UdpSocketState := MkSocket SocketAddress.default_address Inactive.

Definition set_bind_address (address : string) (s : UdpSocketState) : UdpSocketState :=
  let s := s <| core := SocketAddress.set_bind_address address s.(core) |> in
  if decide (s.(phase) = Inactive) then s <| phase := Bound |> else s.
Definition set_target (auth h : string) (p : Z) (s : UdpSocketState) : UdpSocketState :=
  s <| core := SocketAddress.set_target auth h p s.(core) |> <| phase := Configured |>.
Definition mark_connected (local peer : string) (s : UdpSocketState) : UdpSocketState :=
  s <| core := SocketAddress.mark_connected local peer s.(core) |> <| phase := Connected |>.
Definition mark_closed (s : UdpSocketState) : UdpSocketState := s <| phase := Closed |>.
Definition mark_failed (message : string) (s : UdpSocketState) : UdpSocketState :=
  s <| core := SocketAddress.mark_failed message s.(core) |> <| phase := Failed |>.
Definition is_present (s : UdpSocketState) : bool := SocketAddress.present s.(core).
Definition bind_address (s : UdpSocketState) : option string := SocketAddress.bind_address s.(core).
Definition target (s : UdpSocketState) : option string := SocketAddress.target s.(core).
Definition local_address (s : UdpSocketState) : string := SocketAddress.local_address s.(core).
Definition peer_address (s : UdpSocketState) : string := SocketAddress.peer_address s.(core).

End UdpSocket.

(** * [ReplayPrefixedIo] *)
Module Replay.
Section defs.
(** The inner stream: one [poll_read] with [n] free bytes in the buffer gives
    [None] for pending, or the bytes put into the buffer. *)
Context {S : Type} (inner_poll_read : nat -> S -> option (list Z) * S).

Record ReplayPrefixedIo := MkReplay { prefix : list Z; prefix_offset : nat; inner : S }.
#[export] Instance eta_replay : Eta ReplayPrefixedIo := fun s =>
  MkReplay s.(prefix) s.(prefix_offset) s.(inner).

Definition new (p : list Z) (i : S) : ReplayPrefixedIo := MkReplay p 0 i.

Definition into_parts (s : ReplayPrefixedIo) : list Z * S :=
  (if decide (length s.(prefix) <= s.(prefix_offset))%nat then [] else drop s.(prefix_offset) s.(prefix),
   s.(inner)).

Definition poll_read (buf_remaining : nat) (s : ReplayPrefixedIo) : option (list Z) * ReplayPrefixedIo :=
  if decide (s.(prefix_offset) < length s.(prefix) /\ 0 < buf_remaining)%nat
  then
    let remaining := (length s.(prefix) - s.(prefix_offset))%nat in
    let to_copy := Nat.min remaining buf_remaining in
    let start := s.(prefix_offset) in
    let end_ := (start + to_copy)%nat in
    let copied := take (end_ - start) (drop start s.(prefix)) in
    let s := s <| prefix_offset := end_ |> in
    let s := if decide (length s.(prefix) <= s.(prefix_offset))%nat
             then s <| prefix := [] |> <| prefix_offset := 0%nat |> else s in
    (Some copied, s)
  else
    let '(r, i) := inner_poll_read buf_remaining s.(inner) in
    (r, s <| inner := i |>).

(** Successive reads with the given buffer sizes; pending polls give nothing. *)
Fixpoint run_reads (sizes : list nat) (s : ReplayPrefixedIo) : list Z * ReplayPrefixedIo :=
  match sizes with
  | [] => ([], s)
  | n :: sizes =>
      let '(r, s) := poll_read n s in
      let '(out, s) := run_reads sizes s in
      (default [] r ++ out, s)
  end.

Fixpoint run_inner (sizes : list nat) (i : S) : list Z * S :=
  match sizes with
  | [] => ([], i)
  | n :: sizes =>
      let '(r, i) := inner_poll_read n i in
      let '(out, i) := run_inner sizes i in
      (default [] r ++ out, i)
  end.

End defs.
Arguments ReplayPrefixedIo S : clear implicits.
End Replay.

(** * Lemmas and properties *)
Module TransportProperties.

Section flow.
Import TcpFlow.

Definition flow_ok (failure : option string) (io : bool) (s : TcpFlowState) : Prop :=
  failure_message s = failure /\ (phase s = Failed <-> is_Some failure) /\ observed_io s = io.

Definition op_failure (acc : option string) (op : flow_op) : option string :=
  match op with OpConfigure | OpConnected => None | OpFailed m => Some m | _ => acc end.
Definition op_io (op : flow_op) : bool := match op with OpRead | OpWrite => true | _ => false end.

Lemma flow_ok_op failure io s op :
  flow_ok failure io s -> flow_ok (op_failure failure op) (io || op_io op) (apply_op s op).
Proof.
  intros (Hf & Hp & Hio). destruct s as [p rx tx f]. unfold flow_ok, observed_io in *. cbn in *.
  subst f io. destruct op; cbn; rewrite ?orb_true_r, ?orb_false_r; cbn.
  1, 4: split_and!; [done|split; [done|by intros []]|done].
  1, 2: split_and!; [done|done|by rewrite ?orb_true_r].
  - unfold mark_closed. cbn. case_decide as Hd; [|by destruct p].
    cbn. split_and!; [done| |done]. split; [done|]. by rewrite <-Hp.
  - split_and!; [done|split; eauto|done].
Qed.

Lemma flow_ok_run ops failure io s :
  flow_ok failure io s ->
  flow_ok (fold_left op_failure ops failure) (io || existsb op_io ops) (run_ops ops s).
Proof.
  revert failure io s; induction ops as [|op ops IH]; intros f io s Hs; cbn.
  - by rewrite orb_false_r.
  - rewrite orb_assoc. apply IH. by apply flow_ok_op.
Qed.

(** Along any sequence of operations on a fresh downstream flow, the stored
    failure is the last one since the last configure or connect, the phase is
    failed exactly while there is one (closing and I/O never hide a failure), and
    I/O counts as observed exactly when a read or a write was noted. *)
Theorem flow_failure_sticky ops :
  let s := run_ops ops downstream_ready in
  failure_message s = pending_failure ops /\
  (phase s = Failed <-> is_Some (pending_failure ops)) /\
  observed_io s = existsb op_io ops.
Proof.
  apply (flow_ok_run ops None false). split_and!; [done|split; [done|by intros []]|done].
Qed.

End flow.

Section handles.
Import Handles.

(** The reserved handles decode to the stream, socket or session they were
    made from, nothing else decodes to them, and they never collide with the
    dynamic handles allocated from 2^40 upwards. *)
Theorem handle_roundtrip h t u l :
  (decode_tcp_stream_handle h = Some t <-> h = tcp_handle t) /\
  (decode_udp_socket_handle h = Some u <-> h = udp_handle u) /\
  (decode_tls_session_handle h = Some l <-> h = tls_handle l) /\
  tcp_handle t < FIRST_DYNAMIC_TCP_STREAM_HANDLE /\ tls_handle l < FIRST_DYNAMIC_TCP_STREAM_HANDLE.
Proof.
  unfold decode_tcp_stream_handle, decode_udp_socket_handle, decode_tls_session_handle,
    TCP_STREAM_DOWNSTREAM, TCP_STREAM_DEFAULT_UPSTREAM, UDP_SOCKET_DOWNSTREAM, UDP_SOCKET_DEFAULT_UPSTREAM.
  split_and!; [| | |by destruct t|by destruct l].
  - destruct (Z.eqb_spec h 0), (Z.eqb_spec h 1), t; split; intros; simplify_eq/=; done.
  - destruct (Z.eqb_spec h 0), (Z.eqb_spec h 1), u; split; intros; simplify_eq/=; done.
  - destruct (Z.eqb_spec h 0), (Z.eqb_spec h 1), l; split; intros; simplify_eq/=; done.
Qed.

End handles.

Section socket.
Import TcpSocket.

Lemma optional_value_not_empty v : SocketAddress.optional_value v ≠ Some "".
Proof. unfold SocketAddress.optional_value, is_empty. case_bool_decide; congruence. Qed.

Lemma socket_step_inv s s' : socket_step s s' -> socket_inv s -> socket_inv s'.
Proof.
  intros Hs Hinv. revert Hinv. destruct Hs as [a s| | | | | | | | | |]; intros [].
  { unfold set_bind_address. pose proof (optional_value_not_empty a). cbn.
    case_decide as Hd; split; cbn; done. }
  all: split; cbn; done || eauto.
Qed.

Lemma socket_inv_default : socket_inv default_socket.
Proof. by split. Qed.

(** Every reachable TCP socket state is consistent: any phase other than
    inactive and closed belongs to a present socket, an inactive socket is
    untouched, only a failed or closed one carries a failure message, a configured
    one has a target, and a bind address is never the empty string. *)
Theorem socket_reachable_invariant s : rtc socket_step default_socket s -> socket_inv s.
Proof.
  intros Hr. pose proof socket_inv_default as Hinv.
  induction Hr as [|s1 s2 s3 H1 _ IH]; [done|]. apply IH. by eapply socket_step_inv.
Qed.

Lemma socket_reachable_invariant_witness :
  target (mark_upgraded_tls (set_target "h:1" "h" 1 default_socket)) = Some "h:1" /\
  is_present (mark_upgraded_tls (set_target "h:1" "h" 1 default_socket)) = true.
Proof.
  split; [done|]. apply socket_reachable_invariant; [|done..].
  eapply rtc_l; [apply step_target|]. apply rtc_once, step_tls.
Defined.

End socket.

Section replay.
Import Replay.
Context {S : Type} (inner_poll_read : nat -> S -> option (list Z) * S).

Lemma into_parts_prefix (s : ReplayPrefixedIo S) : (into_parts s).1 = drop (prefix_offset s) (prefix s).
Proof. unfold into_parts. case_decide; cbn; [|done]. by rewrite drop_ge. Qed.

Lemma poll_read_prefix n (s : ReplayPrefixedIo S) :
  (0 < n)%nat -> (into_parts s).1 ≠ [] ->
  exists out, (poll_read inner_poll_read n s).1 = Some out /\ out ≠ [] /\
    (into_parts s).1 = out ++ (into_parts (poll_read inner_poll_read n s).2).1 /\
    inner (poll_read inner_poll_read n s).2 = inner s.
Proof.
  rewrite into_parts_prefix. intros Hn Hne.
  assert (prefix_offset s < length (prefix s))%nat as Hlt.
  { destruct (decide (length (prefix s) <= prefix_offset s)%nat); [by rewrite drop_ge in Hne|lia]. }
  unfold poll_read. rewrite decide_True by done. cbn -[into_parts].
  set (k := Nat.min _ n). replace (prefix_offset s + k - prefix_offset s)%nat with k by lia.
  assert (0 < k)%nat by lia.
  assert (0 < length (drop (prefix_offset s) (prefix s)))%nat by (rewrite length_drop; lia).
  eexists. split; [done|]. split.
  { destruct (drop (prefix_offset s) (prefix s)), k; cbn in *; (lia || done). }
  split; [|by case_decide].
  rewrite into_parts_prefix. rewrite <-(take_drop k (drop (prefix_offset s) (prefix s))) at 1. f_equal.
  rewrite drop_drop. case_decide; cbn; [by rewrite drop_ge|done].
Qed.

Lemma poll_read_inner n (s : ReplayPrefixedIo S) :
  (into_parts s).1 = [] ->
  poll_read inner_poll_read n s
  = ((inner_poll_read n (inner s)).1, s <| inner := (inner_poll_read n (inner s)).2 |>).
Proof.
  rewrite into_parts_prefix. intros He. unfold poll_read. rewrite decide_False.
  - by destruct (inner_poll_read n (inner s)).
  - intros [Hlt _]. assert (0 < length (drop (prefix_offset s) (prefix s)))%nat
      by (rewrite length_drop; lia). rewrite He in *. cbn in *. lia.
Qed.

Lemma run_reads_inner sizes (s : ReplayPrefixedIo S) :
  (into_parts s).1 = [] ->
  (run_reads inner_poll_read sizes s).1 = (run_inner inner_poll_read sizes (inner s)).1 /\
  into_parts (run_reads inner_poll_read sizes s).2 = ([], (run_inner inner_poll_read sizes (inner s)).2).
Proof.
  revert s; induction sizes as [|n sizes IH]; intros s He; cbn.
  - split; [done|]. rewrite <-He. by destruct s.
  - rewrite (poll_read_inner n s He). destruct (inner_poll_read n (inner s)) as [r i]. cbn.
    destruct (IH (s <| inner := i |>)) as [Ho Hs]; [done|]. cbn in Ho, Hs. revert Ho Hs.
    destruct (run_reads inner_poll_read sizes _) as [o st], (run_inner inner_poll_read sizes i) as [o' i'].
    cbn. by intros -> ->.
Qed.

(** Reading through a [ReplayPrefixedIo] with any non-empty buffers gives
    the replayed prefix first and in order, each byte once, without touching the
    inner stream; only when it is used up do the remaining reads go, unchanged, to
    the inner stream.  At any point [into_parts] returns what was not yet read. *)
Theorem replay_reads sizes (s : ReplayPrefixedIo S) :
  Forall (fun n => 0 < n)%nat sizes ->
  let '(out, s') := run_reads inner_poll_read sizes s in
  (inner s' = inner s /\ (into_parts s).1 = out ++ (into_parts s').1) \/
  exists later, (exists earlier, sizes = earlier ++ later) /\
    out = (into_parts s).1 ++ (run_inner inner_poll_read later (inner s)).1 /\
    into_parts s' = ([], (run_inner inner_poll_read later (inner s)).2).
Proof.
  intros Hs. revert s; induction Hs as [|n sizes Hn Hs IH]; intros s; [by left|].
  destruct (decide ((into_parts s).1 = [])) as [He|Hne].
  - pose proof (run_reads_inner (n :: sizes) s He) as [Ho Hs'].
    destruct (run_reads inner_poll_read (n :: sizes) s) as [out s'].
    right. exists (n :: sizes). split; [by exists []|]. cbn [fst snd] in Ho, Hs'. by rewrite He, Ho, Hs'.
  - destruct (poll_read_prefix n s Hn Hne) as (out1 & H1 & _ & Hsplit & Hin).
    cbn [run_reads].
    destruct (poll_read inner_poll_read n s) as [r s1]. cbn [fst snd] in H1, Hsplit, Hin. subst r.
    specialize (IH s1). destruct (run_reads inner_poll_read sizes s1) as [out s']. cbn [default id].
    destruct IH as [[Hi Hp]|(later & [earlier ->] & -> & Hp)]; [left|right; exists later].
    + split; [congruence|]. by rewrite Hsplit, Hp, app_assoc.
    + split; [by exists (n :: earlier)|]. rewrite Hin in Hp |- *.
      by rewrite Hsplit, <-app_assoc.
Qed.

End replay.

(** An inner stream that is a list of bytes. *)
Definition list_read (n : nat) (l : list Z) : option (list Z) * list Z := (Some (take n l), drop n l).

Lemma replay_reads_witness :
  exists later, (exists earlier, [2; 2; 2]%nat = earlier ++ later) /\
    [1; 2; 3; 4; 5] = [1; 2; 3] ++ (Replay.run_inner list_read later [4; 5; 6]).1.
Proof.
  pose proof (replay_reads list_read [2; 2; 2]%nat (Replay.new [1; 2; 3] [4; 5; 6])
    ltac:(repeat constructor)) as H.
  change (Replay.run_reads list_read [2; 2; 2]%nat (Replay.new [1; 2; 3] [4; 5; 6]))
    with ([1; 2; 3; 4; 5], Replay.MkReplay [] 0 [6]) in H.
  destruct H as [[Hbad _]|(later & He & Ho & _)]; [discriminate|].
  exists later. split; [exact He|exact Ho].
Defined.

End TransportProperties.
