(* ===== verification/TlsFlow.v ===== *)
(** Model of the TLS part of [src/abi_impl/transport/state.rs]: the handshake
    state machine of a flow, its configuration, and the keys sessions and
    downstream configurations are cached under.  Parsing an authority is the
    [http] crate's, hashing a PEM is [DefaultHasher]'s, and the built server
    configuration is rustls's: parameters. *)

From S2P Require Import Prelude Bytes.

Module TlsFlow.

Definition HTTP11_ALPN_PROTOCOL : string := "http/1.1".

Inductive TlsSessionPath := PathNone | Opaque | FullHandshake | SessionReuse.
#[export] Instance TlsSessionPath_eq_dec : EqDecision TlsSessionPath.
Proof. solve_decision. Defined.

Inductive TlsHandshakePhase :=
| PhNone | PhConfigured | ClientHelloReceived | ClientHelloPrepared | ClientHelloSent
| ServerHelloReceived | ServerCertificateReceived | ServerCertificateVerified
| VerificationSkipped | PlaintextReady | PhClosed | PhFailed | OpaqueEstablished.
#[export] Instance TlsHandshakePhase_eq_dec : EqDecision TlsHandshakePhase.
Proof. solve_decision. Defined.

Definition as_str (p : TlsHandshakePhase) : string :=
  match p with
  | PhNone => "none"
  | PhConfigured => "configured"
  | ClientHelloReceived => "client-hello-received"
  | ClientHelloPrepared => "client-hello-prepared"
  | ClientHelloSent => "client-hello-sent"
  | ServerHelloReceived => "server-hello-received"
  | ServerCertificateReceived => "server-certificate-received"
  | ServerCertificateVerified => "server-certificate-verified"
  | VerificationSkipped => "verification-skipped"
  | PlaintextReady => "plaintext-ready"
  | PhClosed => "closed"
  | PhFailed => "failed"
  | OpaqueEstablished => "opaque-established"
  end.

Inductive TlsConfigurationState :=
| CfgNone | NeedsConfiguration | ConfiguredExplicitly | ConfiguredRestored.
#[export] Instance TlsConfigurationState_eq_dec : EqDecision TlsConfigurationState.
Proof. solve_decision. Defined.

Inductive TlsProtocolVersion := Tls1_0 | Tls1_1 | Tls1_2 | Tls1_3.
#[export] Instance TlsProtocolVersion_eq_dec : EqDecision TlsProtocolVersion.
Proof. solve_decision. Defined.

Record TlsSessionCacheKey := MkCacheKey {
  key_origin : string;
  key_desired_alpn : list string;
  key_verify_peer : bool;
  key_verify_hostname : bool;
  key_sni_enabled : bool;
  key_trusted_certificate_fingerprint : option Z;
  key_client_certificate_fingerprint : option Z;
  key_client_private_key_fingerprint : option Z;
  key_min_version : option TlsProtocolVersion;
  key_max_version : option TlsProtocolVersion;
}.

Record CachedTlsSession := MkCachedSession {
  cached_negotiated_alpn : option string;
  cached_peer_name : option string;
  cached_server_name : option string;
  cached_peer_certificate_der : option (list Z);
}.

Record DownstreamTlsResumptionKey := MkResumptionKey {
  res_desired_alpn : list string;
  res_client_auth_enabled : bool;
  res_trusted_certificate_fingerprint : option Z;
  res_server_certificate_fingerprint : option Z;
  res_server_private_key_fingerprint : option Z;
  res_min_version : option TlsProtocolVersion;
  res_max_version : option TlsProtocolVersion;
}.

Record DownstreamTlsConfigurationKey := MkConfigurationKey {
  conf_server_name : option string;
  conf_offered_alpn : list (list Z);
}.

(** The keys of the caches. *)
#[export] Instance TlsProtocolVersion_countable : Countable TlsProtocolVersion.
Proof.
  refine (inj_countable' (fun v => match v with Tls1_0 => 0%nat | Tls1_1 => 1%nat | Tls1_2 => 2%nat | Tls1_3 => 3%nat end)
            (fun n => match n with 0%nat => Tls1_0 | 1%nat => Tls1_1 | 2%nat => Tls1_2 | _ => Tls1_3 end) _).
  by intros [].
Defined.
#[export] Instance TlsSessionCacheKey_eq_dec : EqDecision TlsSessionCacheKey.
Proof. solve_decision. Defined.
#[export] Instance TlsSessionCacheKey_countable : Countable TlsSessionCacheKey.
Proof.
  refine (inj_countable' (fun k => match k with MkCacheKey a b c d e f g h i j => (a, b, (c, d, e), (f, g, h), (i, j)) end)
            (fun x => match x with (a, b, (c, d, e), (f, g, h), (i, j)) => MkCacheKey a b c d e f g h i j end) _).
  by intros [].
Defined.
#[export] Instance DownstreamTlsResumptionKey_eq_dec : EqDecision DownstreamTlsResumptionKey.
Proof. solve_decision. Defined.
#[export] Instance DownstreamTlsResumptionKey_countable : Countable DownstreamTlsResumptionKey.
Proof.
  refine (inj_countable' (fun k => match k with MkResumptionKey a b c d e f g => (a, b, (c, d, e), (f, g)) end)
            (fun x => match x with (a, b, (c, d, e), (f, g)) => MkResumptionKey a b c d e f g end) _).
  by intros [].
Defined.
#[export] Instance DownstreamTlsConfigurationKey_eq_dec : EqDecision DownstreamTlsConfigurationKey.
Proof. solve_decision. Defined.
#[export] Instance DownstreamTlsConfigurationKey_countable : Countable DownstreamTlsConfigurationKey.
Proof.
  refine (inj_countable' (fun k => match k with MkConfigurationKey a b => (a, b) end)
            (fun x => match x with (a, b) => MkConfigurationKey a b end) _).
  by intros [].
Defined.

Record CachedDownstreamTlsConfiguration (ServerConfig : Type) := MkCachedConfiguration {
  cc_desired_alpn : list string;
  cc_verify_peer : bool;
  cc_trusted_certificate_pem : option string;
  cc_server_certificate_pem : option string;
  cc_server_private_key_pem : option string;
  cc_min_version : option TlsProtocolVersion;
  cc_max_version : option TlsProtocolVersion;
  cc_server_config : ServerConfig;
}.
Arguments MkCachedConfiguration {_}.
Arguments cc_desired_alpn {_}. Arguments cc_verify_peer {_}.
Arguments cc_trusted_certificate_pem {_}. Arguments cc_server_certificate_pem {_}.
Arguments cc_server_private_key_pem {_}. Arguments cc_min_version {_}.
Arguments cc_max_version {_}. Arguments cc_server_config {_}.

Record TlsFlowState := MkFlow {
  present : bool;
  handshake_complete : bool;
  plaintext_ready : bool;
  session_path : TlsSessionPath;
  phase : TlsHandshakePhase;
  configuration_state : TlsConfigurationState;
  peer_name : option string;
  server_name : option string;
  alpn : option string;
  desired_alpn : list string;
  verify_peer : bool;
  verify_hostname : bool;
  sni_enabled : bool;
  trusted_certificate_pem : option string;
  server_certificate_pem : option string;
  server_private_key_pem : option string;
  client_certificate_pem : option string;
  client_private_key_pem : option string;
  min_version : option TlsProtocolVersion;
  max_version : option TlsProtocolVersion;
  peer_certificate_der : option (list Z);
}.
#[export] Instance eta_flow : Eta TlsFlowState := fun s =>
  MkFlow s.(present) s.(handshake_complete) s.(plaintext_ready) s.(session_path) s.(phase)
    s.(configuration_state) s.(peer_name) s.(server_name) s.(alpn) s.(desired_alpn)
    s.(verify_peer) s.(verify_hostname) s.(sni_enabled) s.(trusted_certificate_pem)
    s.(server_certificate_pem) s.(server_private_key_pem) s.(client_certificate_pem)
    s.(client_private_key_pem) s.(min_version) s.(max_version) s.(peer_certificate_der).

Definition default_flow : TlsFlowState :=
  {| present := false; handshake_complete := false; plaintext_ready := false;
     session_path := PathNone; phase := PhNone; configuration_state := CfgNone;
     peer_name := None; server_name := None; alpn := None; desired_alpn := [];
     verify_peer := true; verify_hostname := true; sni_enabled := true;
     trusted_certificate_pem := None; server_certificate_pem := None;
     server_private_key_pem := None; client_certificate_pem := None;
     client_private_key_pem := None; min_version := None; max_version := None;
     peer_certificate_der := None |}.

Definition alpn_from_http_version_label (version : string) : option string :=
  if decide (version = "0.9") then Some "http/0.9"
  else if decide (version = "1.0") then Some "http/1.0"
  else if decide (version = "1.1") then Some HTTP11_ALPN_PROTOCOL
  else if decide (version = "2") then Some "h2"
  else if decide (version = "3") then Some "h3"
  else None.

(** [trim_matches(['[', ']'])] *)
Fixpoint trim_brackets_front (l : list Z) : list Z :=
  match l with
  | b :: r => if (b =? 91) || (b =? 93) then trim_brackets_front r else l
  | [] => []
  end.
Definition trim_brackets (s : string) : string :=
  string_of_bytes (reverse (trim_brackets_front (reverse (trim_brackets_front (bytes_of_string s))))).

Section defs.
(** [value.parse::<Authority>().ok()] and then [host()] *)
Context (authority_host : string -> option string).
(** [DefaultHasher] on a string *)
Context (hash_pem : string -> Z).
Context {ServerConfig : Type}.

Definition normalize_authority_host (value : string) : option string :=
  host ← authority_host value;
  let host := trim_brackets host in
  if is_empty host then None else Some host.

Definition for_downstream_request (scheme host http_version : string) : TlsFlowState :=
  if negb (eq_ignore_ascii_case scheme "https") then default_flow
  else default_flow <| present := true |> <| handshake_complete := true |>
    <| plaintext_ready := true |> <| session_path := Opaque |> <| phase := OpaqueEstablished |>
    <| configuration_state := ConfiguredRestored |>
    <| server_name := normalize_authority_host host |>
    <| alpn := alpn_from_http_version_label http_version |>.

Definition for_dynamic_socket : TlsFlowState :=
  default_flow <| present := true |> <| phase := PhConfigured |>
    <| configuration_state := ConfiguredExplicitly |>.

Definition observe_target_parts (tls_present : bool) (peer : option string) (s : TlsFlowState)
    : TlsFlowState :=
  let s := s <| present := tls_present |> <| handshake_complete := false |>
    <| plaintext_ready := false |> <| session_path := PathNone |>
    <| configuration_state := ConfiguredExplicitly |> <| peer_name := peer |> in
  let s := s <| server_name := if s.(present) && s.(sni_enabled) then s.(peer_name) else None |>
    <| alpn := None |> <| peer_certificate_der := None |> in
  s <| phase := if s.(present) then PhConfigured else PhNone |>.

Definition observe_target (scheme host : string) (s : TlsFlowState) : TlsFlowState :=
  let sch := to_ascii_lowercase scheme in
  observe_target_parts (bool_decide (sch = "https") || bool_decide (sch = "wss"))
    (normalize_authority_host host) s.

Definition observe_socket_target (host : string) (s : TlsFlowState) : TlsFlowState :=
  let peer := normalize_authority_host host in
  let s := s <| present := bool_decide (is_Some peer) |> <| handshake_complete := false |>
    <| plaintext_ready := false |> <| session_path := PathNone |>
    <| configuration_state := ConfiguredExplicitly |> <| peer_name := peer |> in
  let s := s <| server_name := if s.(present) && s.(sni_enabled) then s.(peer_name) else None |>
    <| alpn := None |> <| peer_certificate_der := None |> in
  s <| phase := if s.(present) then PhConfigured else PhNone |>.

Definition observe_downstream_client_hello (name : option string) (s : TlsFlowState) : TlsFlowState :=
  s <| present := true |> <| handshake_complete := false |> <| plaintext_ready := false |>
    <| session_path := PathNone |> <| configuration_state := NeedsConfiguration |>
    <| peer_name := None |> <| server_name := name |> <| alpn := None |>
    <| peer_certificate_der := None |> <| phase := ClientHelloReceived |>.

Definition set_desired_alpn (protocols : list string) (s : TlsFlowState) : TlsFlowState :=
  s <| desired_alpn := protocols |> <| configuration_state := ConfiguredExplicitly |>.
Definition set_verify_peer (verify : bool) (s : TlsFlowState) : TlsFlowState :=
  s <| verify_peer := verify |> <| configuration_state := ConfiguredExplicitly |>.
Definition set_verify_hostname (verify : bool) (s : TlsFlowState) : TlsFlowState :=
  s <| verify_hostname := verify |> <| configuration_state := ConfiguredExplicitly |>.
Definition set_sni_enabled (enabled : bool) (s : TlsFlowState) : TlsFlowState :=
  let s := s <| sni_enabled := enabled |> <| configuration_state := ConfiguredExplicitly |> in
  if enabled && s.(present) then s <| server_name := s.(peer_name) |>
  else if negb enabled then s <| server_name := None |>
  else s.
Definition set_trusted_certificate_pem (pem : string) (s : TlsFlowState) : TlsFlowState :=
  s <| trusted_certificate_pem := non_empty pem |> <| configuration_state := ConfiguredExplicitly |>.
Definition set_server_certificate_pem (pem : string) (s : TlsFlowState) : TlsFlowState :=
  s <| server_certificate_pem := non_empty pem |> <| configuration_state := ConfiguredExplicitly |>.
Definition set_server_private_key_pem (pem : string) (s : TlsFlowState) : TlsFlowState :=
  s <| server_private_key_pem := non_empty pem |> <| configuration_state := ConfiguredExplicitly |>.
Definition set_client_certificate_pem (pem : string) (s : TlsFlowState) : TlsFlowState :=
  s <| client_certificate_pem := non_empty pem |> <| configuration_state := ConfiguredExplicitly |>.
Definition set_client_private_key_pem (pem : string) (s : TlsFlowState) : TlsFlowState :=
  s <| client_private_key_pem := non_empty pem |> <| configuration_state := ConfiguredExplicitly |>.
Definition set_min_version (v : option TlsProtocolVersion) (s : TlsFlowState) : TlsFlowState :=
  s <| min_version := v |> <| configuration_state := ConfiguredExplicitly |>.
Definition set_max_version (v : option TlsProtocolVersion) (s : TlsFlowState) : TlsFlowState :=
  s <| max_version := v |> <| configuration_state := ConfiguredExplicitly |>.

Definition restore_downstream_configuration
    (cached : CachedDownstreamTlsConfiguration ServerConfig) (s : TlsFlowState) : TlsFlowState :=
  s <| desired_alpn := cc_desired_alpn cached |> <| verify_peer := cc_verify_peer cached |>
    <| trusted_certificate_pem := cc_trusted_certificate_pem cached |>
    <| server_certificate_pem := cc_server_certificate_pem cached |>
    <| server_private_key_pem := cc_server_private_key_pem cached |>
    <| min_version := cc_min_version cached |> <| max_version := cc_max_version cached |>
    <| configuration_state := ConfiguredRestored |>.

Definition note_handshake_prepared (s : TlsFlowState) : TlsFlowState :=
  if negb s.(present) then s
  else s <| phase := ClientHelloPrepared |> <| handshake_complete := false |>
    <| plaintext_ready := false |> <| peer_certificate_der := None |>.
Definition note_client_hello_sent (s : TlsFlowState) : TlsFlowState :=
  if negb s.(present) then s else s <| phase := ClientHelloSent |>.
Definition note_server_hello_received (s : TlsFlowState) : TlsFlowState :=
  if negb s.(present) then s else s <| phase := ServerHelloReceived |>.
Definition note_server_certificate_received (der : option (list Z)) (s : TlsFlowState) : TlsFlowState :=
  if negb s.(present) then s
  else s <| phase := ServerCertificateReceived |> <| peer_certificate_der := der |>.
Definition note_server_certificate_verified (s : TlsFlowState) : TlsFlowState :=
  if negb s.(present) then s else s <| phase := ServerCertificateVerified |>.
Definition note_handshake_resumed (s : TlsFlowState) : TlsFlowState :=
  if negb s.(present) then s else s <| session_path := SessionReuse |>.
Definition note_verification_skipped (s : TlsFlowState) : TlsFlowState :=
  if negb s.(present) then s else s <| phase := VerificationSkipped |>.

Definition mark_handshake_complete (negotiated_alpn : option string) (s : TlsFlowState) : TlsFlowState :=
  if negb s.(present) then s
  else
    let s := s <| handshake_complete := true |> <| plaintext_ready := true |>
      <| phase := PlaintextReady |> in
    let s := match s.(session_path) with
             | PathNone => s <| session_path := FullHandshake |>
             | _ => s
             end in
    s <| alpn := negotiated_alpn |>.

Definition mark_session_reused (cached : CachedTlsSession) (s : TlsFlowState) : TlsFlowState :=
  if negb s.(present) then s
  else
    let s := s <| handshake_complete := true |> <| plaintext_ready := true |>
      <| session_path := SessionReuse |> <| phase := PlaintextReady |>
      <| alpn := cached_negotiated_alpn cached |>
      <| peer_certificate_der := cached_peer_certificate_der cached |> in
    let s := match cached_peer_name cached with
             | Some p => s <| peer_name := Some p |>
             | None => s
             end in
    if s.(sni_enabled)
    then match cached_server_name cached with
         | Some n => s <| server_name := Some n |>
         | None => s <| server_name := s.(peer_name) |>
         end
    else s <| server_name := None |>.

Definition mark_closed (s : TlsFlowState) : TlsFlowState :=
  if negb s.(present) then s
  else if decide (s.(phase) = PhFailed) then s
  else s <| plaintext_ready := false |> <| phase := PhClosed |>.

Definition mark_failed (s : TlsFlowState) : TlsFlowState :=
  if negb s.(present) then s
  else s <| handshake_complete := false |> <| plaintext_ready := false |> <| phase := PhFailed |>.

Definition needs_configuration (s : TlsFlowState) : bool :=
  bool_decide (s.(configuration_state) = NeedsConfiguration).
Definition accepts_negotiated_alpn (negotiated : option string) (s : TlsFlowState) : bool :=
  match s.(desired_alpn) with
  | [] => true
  | _ => match negotiated with
         | None => false
         | Some n => existsb (fun configured => bool_decide (configured = n)) s.(desired_alpn)
         end
  end.
Definition requires_custom_client (s : TlsFlowState) : bool :=
  negb (bool_decide (s.(desired_alpn) = [])) || negb s.(verify_peer) || negb s.(verify_hostname)
  || negb s.(sni_enabled) || bool_decide (is_Some s.(trusted_certificate_pem))
  || bool_decide (is_Some s.(client_certificate_pem))
  || bool_decide (is_Some s.(client_private_key_pem))
  || bool_decide (is_Some s.(min_version)) || bool_decide (is_Some s.(max_version)).
Definition is_session_reused (s : TlsFlowState) : bool := bool_decide (s.(session_path) = SessionReuse).
Definition phase_label (s : TlsFlowState) : string := as_str s.(phase).

Record TlsTransportDag := MkDag { downstream : TlsFlowState; default_upstream : TlsFlowState }.
Definition for_http_request (scheme host http_version : string) : TlsTransportDag :=
  MkDag (for_downstream_request scheme host http_version) default_flow.

Definition fingerprint_optional_pem (value : option string) : option Z := hash_pem <$> value.

Definition tls_session_origin (scheme host : string) (port : Z) : option string :=
  host ← normalize_authority_host host;
  Some (to_ascii_lowercase scheme +:+ "://" +:+ to_ascii_lowercase host +:+ ":" +:+ dec port).

Definition tls_session_cache_key (scheme host : string) (port : Z) (flow : TlsFlowState)
    : option TlsSessionCacheKey :=
  if negb flow.(present) then None
  else
    origin ← tls_session_origin scheme host port;
    Some {| key_origin := origin; key_desired_alpn := flow.(desired_alpn);
            key_verify_peer := flow.(verify_peer); key_verify_hostname := flow.(verify_hostname);
            key_sni_enabled := flow.(sni_enabled);
            key_trusted_certificate_fingerprint := fingerprint_optional_pem flow.(trusted_certificate_pem);
            key_client_certificate_fingerprint := fingerprint_optional_pem flow.(client_certificate_pem);
            key_client_private_key_fingerprint := fingerprint_optional_pem flow.(client_private_key_pem);
            key_min_version := flow.(min_version); key_max_version := flow.(max_version) |}.

Definition downstream_tls_resumption_key (flow : TlsFlowState) : option DownstreamTlsResumptionKey :=
  if negb flow.(present) then None
  else
    let client_auth_enabled := flow.(verify_peer) && bool_decide (is_Some flow.(trusted_certificate_pem)) in
    Some {| res_desired_alpn := flow.(desired_alpn); res_client_auth_enabled := client_auth_enabled;
            res_trusted_certificate_fingerprint :=
              if client_auth_enabled then fingerprint_optional_pem flow.(trusted_certificate_pem) else None;
            res_server_certificate_fingerprint := fingerprint_optional_pem flow.(server_certificate_pem);
            res_server_private_key_fingerprint := fingerprint_optional_pem flow.(server_private_key_pem);
            res_min_version := flow.(min_version); res_max_version := flow.(max_version) |}.

Definition downstream_tls_configuration_key (name : option string) (offered : list (list Z))
    : DownstreamTlsConfigurationKey := MkConfigurationKey name offered.

(** ** Steps *)

(** What the handshake does to a flow. *)
Inductive handshake_step : TlsFlowState -> TlsFlowState -> Prop :=
| hs_prepared s : handshake_step s (note_handshake_prepared s)
| hs_hello_sent s : handshake_step s (note_client_hello_sent s)
| hs_server_hello s : handshake_step s (note_server_hello_received s)
| hs_cert_received d s : handshake_step s (note_server_certificate_received d s)
| hs_cert_verified s : handshake_step s (note_server_certificate_verified s)
| hs_resumed s : handshake_step s (note_handshake_resumed s)
| hs_skipped s : handshake_step s (note_verification_skipped s)
| hs_complete a s : handshake_step s (mark_handshake_complete a s)
| hs_reused c s : handshake_step s (mark_session_reused c s)
| hs_closed s : handshake_step s (mark_closed s)
| hs_failed s : handshake_step s (mark_failed s).

(** What configuration does to a flow. *)
Inductive config_step : TlsFlowState -> TlsFlowState -> Prop :=
| cfg_alpn p s : config_step s (set_desired_alpn p s)
| cfg_verify_peer b s : config_step s (set_verify_peer b s)
| cfg_verify_hostname b s : config_step s (set_verify_hostname b s)
| cfg_sni b s : config_step s (set_sni_enabled b s)
| cfg_trusted p s : config_step s (set_trusted_certificate_pem p s)
| cfg_server_cert p s : config_step s (set_server_certificate_pem p s)
| cfg_server_key p s : config_step s (set_server_private_key_pem p s)
| cfg_client_cert p s : config_step s (set_client_certificate_pem p s)
| cfg_client_key p s : config_step s (set_client_private_key_pem p s)
| cfg_min v s : config_step s (set_min_version v s)
| cfg_max v s : config_step s (set_max_version v s)
| cfg_restore c s : config_step s (restore_downstream_configuration c s).

Inductive observe_step : TlsFlowState -> TlsFlowState -> Prop :=
| obs_target sch h s : observe_step s (observe_target sch h s)
| obs_socket h s : observe_step s (observe_socket_target h s)
| obs_parts b p s : observe_step s (observe_target_parts b p s)
| obs_hello n s : observe_step s (observe_downstream_client_hello n s).

Definition tls_step (s s' : TlsFlowState) : Prop :=
  handshake_step s s' \/ config_step s s' \/ observe_step s s'.

Definition initial (s : TlsFlowState) : Prop :=
  s = default_flow \/ s = for_dynamic_socket \/ exists sch h v, s = for_downstream_request sch h v.

Record tls_inv (s : TlsFlowState) : Prop := {
  inv_absent : present s = false ->
    phase s = PhNone /\ handshake_complete s = false /\ server_name s = None /\ alpn s = None;
  inv_ready : plaintext_ready s = true -> handshake_complete s = true;
  inv_plaintext_phase : phase s = PlaintextReady \/ phase s = OpaqueEstablished -> plaintext_ready s = true;
  inv_closed : phase s = PhClosed -> plaintext_ready s = false;
  inv_failed : phase s = PhFailed -> handshake_complete s = false;
  inv_path : handshake_complete s = true -> session_path s ≠ PathNone;
}.

(** ** Invariant *)

#[local] Ltac inv_field Hpr :=
  cbn; rewrite ?Hpr; intros; destruct_or?; first [discriminate|by auto|congruence].

Lemma initial_inv s : initial s -> tls_inv s.
Proof.
  intros [->|[->|(sch & h & v & ->)]]; [by split; cbn; naive_solver..|].
  unfold for_downstream_request. destruct (eq_ignore_ascii_case sch "https"); cbn;
    split; cbn; naive_solver.
Qed.

Lemma handshake_step_inv s s' : handshake_step s s' -> tls_inv s -> tls_inv s'.
Proof.
  intros Hs Hinv. revert Hinv.
  destruct Hs; intros [Ha Hr Hp Hc Hf Hn];
    unfold note_handshake_prepared, note_client_hello_sent, note_server_hello_received,
      note_server_certificate_received, note_server_certificate_verified, note_handshake_resumed,
      note_verification_skipped, mark_handshake_complete, mark_session_reused, mark_closed, mark_failed;
    (destruct (present s) eqn:Hpr; cbn [negb]; [|by split; rewrite ?Hpr]);
    try case_decide; repeat case_match; cbn in *; split;
    inv_field Hpr.
Qed.

Lemma config_step_inv s s' : config_step s s' -> tls_inv s -> tls_inv s'.
Proof.
  intros Hs Hinv. revert Hinv.
  destruct Hs; intros [Ha Hr Hp Hc Hf Hn];
    try (by split; cbn).
  unfold set_sni_enabled. destruct b; cbn.
  - destruct (present s) eqn:Hpr; split; cbn; rewrite ?Hpr; (congruence || auto).
  - split; cbn; auto. intros Hpr. by destruct (Ha Hpr) as (? & ? & ? & ?).
Qed.

Lemma observe_step_inv s s' : observe_step s s' -> tls_inv s'.
Proof.
  intros Hs. destruct Hs; unfold observe_target, observe_target_parts, observe_socket_target,
    observe_downstream_client_hello; split; cbn; repeat case_match; naive_solver.
Qed.

Lemma tls_step_inv s s' : tls_step s s' -> tls_inv s -> tls_inv s'.
Proof.
  intros [H|[H|H]] Hinv;
    [by eapply handshake_step_inv|by eapply config_step_inv|by eapply observe_step_inv].
Qed.

(** Along any sequence of target observations, configuration changes and
    handshake notifications, a TLS flow stays consistent: an absent flow has
    no handshake, no server name and no ALPN; plaintext is only ready after a
    completed handshake, is ready in the plaintext phases and not in the
    closed one; a failed flow has no completed handshake; and a completed
    handshake has a session path. *)
Theorem tls_reachable_invariant s0 s :
  initial s0 -> rtc tls_step s0 s -> tls_inv s.
Proof.
  intros Hi Hs. apply initial_inv in Hi.
  induction Hs as [|x y z Hxy _ IH]; [done|]. eauto using tls_step_inv.
Qed.

(** ** Cache keys *)

(** The settings of a flow that its sessions depend on. *)
Definition tls_settings (s : TlsFlowState) :=
  (present s, desired_alpn s, (verify_peer s, verify_hostname s, sni_enabled s),
   (trusted_certificate_pem s, server_certificate_pem s, server_private_key_pem s),
   (client_certificate_pem s, client_private_key_pem s), (min_version s, max_version s),
   configuration_state s).

Lemma handshake_step_settings s s' : handshake_step s s' -> tls_settings s' = tls_settings s.
Proof.
  destruct 1;
    unfold note_handshake_prepared, note_client_hello_sent, note_server_hello_received,
      note_server_certificate_received, note_server_certificate_verified, note_handshake_resumed,
      note_verification_skipped, mark_handshake_complete, mark_session_reused, mark_closed, mark_failed;
    (destruct (present s) eqn:Hpr; [cbn [negb]|done]);
    try case_decide; repeat case_match; cbn in *; done.
Qed.

Lemma tls_session_cache_key_settings sch h p s s' :
  tls_settings s' = tls_settings s -> tls_session_cache_key sch h p s' = tls_session_cache_key sch h p s.
Proof. unfold tls_settings, tls_session_cache_key. intros [=].
  repeat match goal with H : _ = _ |- _ => rewrite H; clear H end. done.
Qed.

Lemma downstream_tls_resumption_key_settings s s' :
  tls_settings s' = tls_settings s -> downstream_tls_resumption_key s' = downstream_tls_resumption_key s.
Proof.
  unfold tls_settings, downstream_tls_resumption_key. intros [=].
  repeat match goal with H : _ = _ |- _ => rewrite H; clear H end. done.
Qed.

(** C39. The cache keys of a flow identify its settings and nothing else: no
    sequence of handshake notifications changes the upstream session key or
    the downstream resumption key, and two flows with the same upstream key
    agree on origin, ALPN offer, verification and SNI settings, protocol
    versions and the fingerprints of trust anchors and client credentials, so
    a cached session is not reused under other settings. *)
Theorem session_key_isolation sch1 h1 p1 sch2 h2 p2 s s' s2 k :
  rtc handshake_step s s' ->
  tls_session_cache_key sch1 h1 p1 s = Some k ->
  tls_session_cache_key sch1 h1 p1 s' = Some k
  /\ downstream_tls_resumption_key s' = downstream_tls_resumption_key s
  /\ (tls_session_cache_key sch2 h2 p2 s2 = Some k ->
      tls_session_origin sch1 h1 p1 = tls_session_origin sch2 h2 p2
      /\ present s2 = true
      /\ desired_alpn s2 = desired_alpn s /\ verify_peer s2 = verify_peer s
      /\ verify_hostname s2 = verify_hostname s /\ sni_enabled s2 = sni_enabled s
      /\ fingerprint_optional_pem (trusted_certificate_pem s2) = fingerprint_optional_pem (trusted_certificate_pem s)
      /\ fingerprint_optional_pem (client_certificate_pem s2) = fingerprint_optional_pem (client_certificate_pem s)
      /\ fingerprint_optional_pem (client_private_key_pem s2) = fingerprint_optional_pem (client_private_key_pem s)
      /\ min_version s2 = min_version s /\ max_version s2 = max_version s).
Proof.
  intros Hs Hk.
  assert (Hset : tls_settings s' = tls_settings s).
  { clear Hk. induction Hs as [|x y z Hxy _ IH]; [done|].
    by rewrite IH, (handshake_step_settings _ _ Hxy). }
  split_and!; [by rewrite (tls_session_cache_key_settings _ _ _ _ _ Hset)
              |by apply downstream_tls_resumption_key_settings|].
  intros Hk2. revert Hk Hk2. unfold tls_session_cache_key.
  destruct (present s), (present s2); cbn [negb]; try done.
  destruct (tls_session_origin sch1 h1 p1), (tls_session_origin sch2 h2 p2); cbn; try done.
  intros [= <-] [=]. split_and!; auto; congruence.
Qed.


End defs.

Definition demo_host (v : string) : option string := Some v.
Definition demo_flow : TlsFlowState := observe_target demo_host "HTTPS" "example.org" default_flow.

Lemma tls_reachable_invariant_witness :
  initial demo_host default_flow /\ tls_inv (mark_handshake_complete (Some "h2") (note_client_hello_sent demo_flow)).
Proof.
  split; [by left|].
  apply (tls_reachable_invariant demo_host str_len (ServerConfig := unit) default_flow); [by left|].
  eapply rtc_l; [right; right; apply obs_target|].
  eapply rtc_l; [left; apply hs_hello_sent|].
  eapply rtc_l; [left; apply hs_complete|]. apply rtc_refl.
Defined.

Lemma session_key_isolation_witness :
  exists k, tls_session_cache_key demo_host str_len "https" "example.org" 443 demo_flow = Some k /\
    tls_session_cache_key demo_host str_len "https" "example.org" 443 (mark_closed demo_flow) = Some k.
Proof.
  eexists. split; [by vm_compute|].
  refine (proj1 (session_key_isolation demo_host str_len "https" "example.org" 443 "https" "" 1
    demo_flow (mark_closed demo_flow) demo_flow _ _ _)); [|by vm_compute].
  eapply rtc_l; [apply hs_closed|apply rtc_refl].
Defined.

End TlsFlow.
