(* ===== verification/HttpVersions.v ===== *)
(** Model of [src/abi_impl/http/version.rs], the upstream scheme and target of
    [src/abi_impl/http/state.rs], and the choice of HTTP version of
    [src/abi_impl/http2/model.rs] and [src/abi_impl/http3/model.rs].  The
    [Authority] type is the [http] crate's: a parameter with its accessors. *)

From S2P Require Import Prelude Bytes TlsFlow.

Module HttpVersion.

Inductive HttpVersionPreference := Auto | Http1 | Http2 | Http3.
#[export] Instance HttpVersionPreference_eq_dec : EqDecision HttpVersionPreference.
Proof. solve_decision. Defined.

Definition parse (label : string) : option HttpVersionPreference :=
  let l := to_ascii_lowercase (trim label) in
  if bool_decide (l ∈ ["auto"; ""]) then Some Auto
  else if bool_decide (l ∈ ["1"; "1.1"; "http/1.1"]) then Some Http1
  else if bool_decide (l ∈ ["2"; "h2"; "http/2"]) then Some Http2
  else if bool_decide (l ∈ ["3"; "h3"; "http/3"]) then Some Http3
  else None.

Definition as_str (p : HttpVersionPreference) : string :=
  match p with Auto => "auto" | Http1 => "1.1" | Http2 => "2" | Http3 => "3" end.

Inductive HttpUpstreamScheme := Http | Https.
#[export] Instance HttpUpstreamScheme_eq_dec : EqDecision HttpUpstreamScheme.
Proof. solve_decision. Defined.

Definition scheme_as_str (s : HttpUpstreamScheme) : string :=
  match s with Http => "http" | Https => "https" end.

Definition scheme_parse (value : string) : vm_result HttpUpstreamScheme :=
  let v := to_ascii_lowercase (trim value) in
  if decide (v = "http") then Ok Http
  else if decide (v = "https") then Ok Https
  else Err (HostError ("invalid upstream scheme '" +:+ value +:+ "'; expected http or https")).

(** ** Upstream targets *)

Record ParsedHttpUpstreamTarget := MkTarget {
  scheme : HttpUpstreamScheme;
  host : string;
  host_arc : string;
  port : Z;
  host_header : string;
  authority : string;
  plain_http1_pool_key : string;
  target : string;
  inherits_request_path : bool;
}.

(** [str::contains] on one ASCII byte *)
Definition contains (c : Z) (s : string) : bool := bool_decide (c ∈ bytes_of_string s).

(** [strip_prefix('[').and_then(strip_suffix(']'))] *)
Definition strip_brackets (s : string) : option string :=
  match bytes_of_string s with
  | 91 :: l => match reverse l with
               | 93 :: r => Some (string_of_bytes (reverse r))
               | _ => None
               end
  | _ => None
  end.

Definition format_upstream_authority (host : string) (port : Z) : string :=
  let host := match strip_brackets host with Some h => h | None => host end in
  if contains 58 host then "[" +:+ host +:+ "]:" +:+ dec port
  else host +:+ ":" +:+ dec port.

Section target.
Context {Authority : Type} (parse_authority : string -> option Authority)
  (authority_str authority_host : Authority -> string) (port_u16 : Authority -> option Z).

Definition build_upstream_origin (sch : HttpUpstreamScheme) (host : string) (port : Z)
    : outcome ParsedHttpUpstreamTarget :=
  let invalid := "invalid upstream target host='" +:+ host +:+ "' port=" +:+ dec port in
  if port =? 0 then fail "upstream port must be between 1 and 65535"
  else
    let auth := format_upstream_authority host port in
    if contains 64 auth then fail invalid
    else
      match parse_authority auth with
      | None => fail invalid
      | Some parsed =>
          let target := scheme_as_str sch +:+ "://" +:+ auth in
          let parsed_host := TlsFlow.trim_brackets (authority_host parsed) in
          if is_empty parsed_host then fail invalid
          else
            p ← or_panic (port_u16 parsed);
            Ok {| scheme := sch; host := parsed_host; host_arc := parsed_host; port := p;
                  host_header := auth; authority := authority_str parsed;
                  plain_http1_pool_key := "http://" +:+ authority_str parsed;
                  target := target; inherits_request_path := true |}
      end.

(** An authority written with a port has that port. *)
Hypothesis parse_authority_port : forall h p a,
  0 < p <= U16_MAX -> parse_authority (h +:+ ":" +:+ dec p) = Some a -> port_u16 a = Some p.

Lemma format_upstream_authority_shape h p :
  exists h', format_upstream_authority h p = h' +:+ ":" +:+ dec p.
Proof.
  unfold format_upstream_authority. set (k := match strip_brackets h with Some _ => _ | None => _ end).
  destruct (contains 58 k); [exists ("[" +:+ k +:+ "]")|by exists k].
  by rewrite <-!(assoc_L String.append).
Qed.

(** An upstream origin for a 16-bit port either is built or fails with a
    host error: the port the parsed authority is expected to carry is there,
    and it is the requested one.  The target is the scheme, [://] and the
    authority with the port, and an authority with an [@] is never accepted. *)
Theorem build_upstream_origin_ok sch h p :
  0 <= p <= U16_MAX ->
  no_panic (build_upstream_origin sch h p) /\
  forall t, build_upstream_origin sch h p = Ok t ->
    0 < p /\ port t = p /\ scheme t = sch /\ is_empty (host t) = false
    /\ host_header t = format_upstream_authority h p
    /\ target t = scheme_as_str sch +:+ "://" +:+ host_header t
    /\ contains 64 (host_header t) = false.
Proof.
  intros Hp. destruct (format_upstream_authority_shape h p) as [h' Hh].
  unfold build_upstream_origin. destruct (Z.eqb_spec p 0); [by split|].
  destruct (contains 64 _) eqn:Hat; [by split|].
  destruct (parse_authority _) as [a|] eqn:Ha; [|by split].
  destruct (is_empty _) eqn:He; [by split|].
  rewrite (parse_authority_port h' p a); [|lia|by rewrite <-Hh].
  split; [done|]. intros t [= <-]. cbn. split_and!; by try lia.
Qed.

End target.

(** ** Choice of the HTTP version *)

Definition HTTP2_ALPN_PROTOCOL : string := "h2".
Definition HTTP3_ALPN_PROTOCOL : string := "h3".

Inductive Http2UpstreamMode := Disabled | AutomaticTls | PriorKnowledge.
#[export] Instance Http2UpstreamMode_eq_dec : EqDecision Http2UpstreamMode.
Proof. solve_decision. Defined.

Inductive Http3UpstreamMode := H3Disabled | Preferred | Required.
#[export] Instance Http3UpstreamMode_eq_dec : EqDecision Http3UpstreamMode.
Proof. solve_decision. Defined.

Definition offers (protocol : string) (desired_alpn : list string) : bool :=
  existsb (fun p => eq_ignore_ascii_case p protocol) desired_alpn.

(** [feature] is [cfg!(feature = "http2")]. *)
Definition select_http2_mode (feature : bool) (sch : HttpUpstreamScheme)
    (flow : TlsFlow.TlsFlowState) (preference : HttpVersionPreference) : Http2UpstreamMode :=
  if negb feature then Disabled
  else
    match preference with
    | Http1 | Http3 => Disabled
    | Http2 => if decide (sch = Https) then AutomaticTls else PriorKnowledge
    | Auto =>
        let desired_alpn := TlsFlow.desired_alpn flow in
        let explicitly_offers_http2 := offers HTTP2_ALPN_PROTOCOL desired_alpn in
        let explicitly_prefers_http11 := offers TlsFlow.HTTP11_ALPN_PROTOCOL desired_alpn in
        let explicitly_rejects_http2 :=
          negb (bool_decide (desired_alpn = [])) && explicitly_prefers_http11
          && negb explicitly_offers_http2 in
        if explicitly_rejects_http2 then Disabled
        else
          match sch with
          | Https => AutomaticTls
          | Http => if explicitly_offers_http2 then PriorKnowledge else Disabled
          end
    end.

(** [feature] is [cfg!(feature = "http3")]. *)
Definition select_http3_mode (feature : bool) (sch : HttpUpstreamScheme)
    (flow : TlsFlow.TlsFlowState) (preference : HttpVersionPreference) : Http3UpstreamMode :=
  if negb feature then H3Disabled
  else
    match preference with
    | Http1 | Http2 => H3Disabled
    | Http3 => if decide (sch = Https) then Required else H3Disabled
    | Auto => if bool_decide (sch = Https) && offers HTTP3_ALPN_PROTOCOL (TlsFlow.desired_alpn flow)
              then Preferred else H3Disabled
    end.

Definition session_origin (sch : HttpUpstreamScheme) (host : string) (port : Z) : option string :=
  if is_empty host || (port =? 0) then None
  else Some (scheme_as_str sch +:+ "://" +:+ to_ascii_lowercase host +:+ ":" +:+ dec port).

(** The HTTP version choice, with both features built: TLS is used for
    HTTP/2 exactly on https targets and prior knowledge exactly on http ones;
    HTTP/3 is only ever used on https; a required HTTP/3 leaves HTTP/2
    disabled; an HTTP/1 preference disables both; and under [Auto] an ALPN
    offer that names http/1.1 without h2 disables HTTP/2, and HTTP/3 is
    preferred exactly when https offers h3. *)
Theorem version_modes_consistent sch flow pref :
  let h2 := select_http2_mode true sch flow pref in
  let h3 := select_http3_mode true sch flow pref in
  let alpn := TlsFlow.desired_alpn flow in
  (h2 = AutomaticTls -> sch = Https) /\ (h2 = PriorKnowledge -> sch = Http)
  /\ (h3 ≠ H3Disabled -> sch = Https)
  /\ (h3 = Required <-> sch = Https /\ pref = Http3) /\ (h3 = Required -> h2 = Disabled)
  /\ (pref = Http2 -> h2 ≠ Disabled) /\ (pref = Http1 -> h2 = Disabled /\ h3 = H3Disabled)
  /\ (pref = Auto ->
      (h3 = Preferred <-> sch = Https /\ offers HTTP3_ALPN_PROTOCOL alpn = true)
      /\ (h2 = Disabled <->
          offers HTTP2_ALPN_PROTOCOL alpn = false
          /\ (sch = Http \/ offers TlsFlow.HTTP11_ALPN_PROTOCOL alpn = true))).
Proof.
  cbn zeta. unfold select_http2_mode, select_http3_mode. cbn [negb].
  set (alpn := TlsFlow.desired_alpn flow).
  assert (Hnil : bool_decide (alpn = []) = true -> offers TlsFlow.HTTP11_ALPN_PROTOCOL alpn = false).
  { intros ->%bool_decide_eq_true. done. }
  destruct pref, sch; cbn; try naive_solver;
    destruct (bool_decide (alpn = [])), (offers TlsFlow.HTTP11_ALPN_PROTOCOL alpn),
      (offers HTTP2_ALPN_PROTOCOL alpn), (offers HTTP3_ALPN_PROTOCOL alpn); cbn; naive_solver.
Qed.

(** Version preferences and upstream schemes print to labels that parse
    back to them, whatever the case of the label. *)
Theorem version_label_roundtrip p sch :
  parse (as_str p) = Some p /\ scheme_parse (scheme_as_str sch) = Ok sch.
Proof. destruct p, sch; by vm_compute. Qed.

(** A parser that knows one authority. *)
Definition demo_parse (s : string) : option Z := if decide (s = "e:1") then Some 1 else None.

Lemma demo_parse_port h p a :
  0 < p <= U16_MAX -> demo_parse (h +:+ ":" +:+ dec p) = Some a -> Some a = Some p.
Proof.
  intros _. unfold demo_parse. case_decide as Heq; [|done]. intros [= <-]. f_equal.
  destruct h as [|c [|d [|e h]]]; cbv [String.append] in Heq; try discriminate Heq.
  - injection Heq as _ Heq. apply (inj pretty). symmetry. exact Heq.
  - by destruct h.
Qed.

Lemma build_upstream_origin_ok_witness :
  no_panic (build_upstream_origin demo_parse (fun _ => "e:1") (fun _ => "e") Some Https "e" 1)
  /\ is_Ok (build_upstream_origin demo_parse (fun _ => "e:1") (fun _ => "e") Some Https "e" 1) = true.
Proof.
  split; [|by vm_compute].
  apply (build_upstream_origin_ok demo_parse (fun _ => "e:1") (fun _ => "e") Some demo_parse_port
           Https "e" 1). done.
Defined.

End HttpVersion.
