(* ===== verification/MqttModel.v ===== *)
(** Model of [src/abi_impl/mqtt/model.rs]: the MQTT connection state machine,
    its configuration, packet identifiers, keep-alive timing and the values
    events are handed to the VM as.  Instants and durations are nanosecond
    counts; [Instant::now()] and the fresh UUID are arguments. *)

From S2P Require Import Prelude Bytes.

Module MqttModel.

Definition DEFAULT_KEEP_ALIVE_SECS : Z := 60.

Inductive MqttScheme := Mqtt | Mqtts.

#[export] Instance MqttScheme_eq_dec : EqDecision MqttScheme.
Proof. solve_decision. Defined.

(** The build with the [tls] feature. *)
Definition parse (value : string) : vm_result MqttScheme :=
  let v := to_ascii_lowercase (trim value) in
  if decide (v = "mqtt") then Ok Mqtt
  else if decide (v = "mqtts") then Ok Mqtts
  else if decide (v = "ws" \/ v = "wss")
  then Err (HostError "mqtt over websocket is planned separately and is not available in this milestone")
  else Err (HostError ("invalid mqtt scheme '" +:+ value +:+ "'; expected mqtt or mqtts")).

Definition default_port (s : MqttScheme) : Z := match s with Mqtt => 1883 | Mqtts => 8883 end.
Definition uses_tls (s : MqttScheme) : bool := match s with Mqtt => false | Mqtts => true end.

Inductive MqttPhase :=
| Inactive | Configured | CarrierAttached | ConnectSent | Open | Closed | Failed.

#[export] Instance MqttPhase_eq_dec : EqDecision MqttPhase.
Proof. solve_decision. Defined.

Definition phase_as_str (p : MqttPhase) : string :=
  match p with
  | Inactive => "inactive"
  | Configured => "configured"
  | CarrierAttached => "carrier-attached"
  | ConnectSent => "connect-sent"
  | Open => "open"
  | Closed => "closed"
  | Failed => "failed"
  end.

Inductive MqttCarrierAttachment := Tcp (stream : Z) | Tls (session : Z).

Inductive MqttEvent :=
| EvPublish (topic : string) (payload : list Z) (qos : Z) (retain dup : bool)
| EvClosed (reason : string)
| EvFailed (reason : string).

(** The VM's value type and the base64 engine are other crates: parameters. *)
Section event_value.
Context {Value : Type} (VString : string -> Value) (VInt : Z -> Value) (VBool : bool -> Value)
  (VMap : list (Value * Value) -> Value) (base64_encode : list Z -> string).

Definition into_value (e : MqttEvent) : Value :=
  match e with
  | EvPublish topic payload qos retain dup =>
      VMap [(VString "kind", VString "publish");
            (VString "topic", VString topic);
            (VString "payload_text", VString (from_utf8_lossy payload));
            (VString "payload_base64", VString (base64_encode payload));
            (VString "qos", VInt qos);
            (VString "retain", VBool retain);
            (VString "dup", VBool dup)]
  | EvClosed reason =>
      VMap [(VString "kind", VString "closed"); (VString "reason", VString reason)]
  | EvFailed reason =>
      VMap [(VString "kind", VString "failed"); (VString "reason", VString reason)]
  end.
End event_value.

Record MqttConnectConfig := MkConnectConfig {
  cfg_scheme : MqttScheme;
  cfg_host : string;
  cfg_port : Z;
  cfg_client_id : string;
  cfg_username : option string;
  cfg_password : option string;
  cfg_keep_alive_secs : Z;
  cfg_clean_start : bool;
}.

Record MqttConnectionState := MkState {
  phase : MqttPhase;
  present : bool;
  scheme : MqttScheme;
  host : option string;
  port : option Z;
  client_id : string;
  username : option string;
  password : option string;
  keep_alive_secs : Z;
  clean_start : bool;
  next_packet_id_ : Z;
  carrier : option MqttCarrierAttachment;
  failure_message : option string;
  last_activity_at : option Z;
  ping_response_pending : bool;
  pending_read_buffer : list Z;
  pending_events : list MqttEvent;
}.

#[export] Instance eta_state : Eta MqttConnectionState := fun s =>
  MkState s.(phase) s.(present) s.(scheme) s.(host) s.(port) s.(client_id) s.(username)
    s.(password) s.(keep_alive_secs) s.(clean_start) s.(next_packet_id_) s.(carrier)
    s.(failure_message) s.(last_activity_at) s.(ping_response_pending)
    s.(pending_read_buffer) s.(pending_events).

Definition default_state : MqttConnectionState :=
  {| phase := Inactive; present := false; scheme := Mqtt; host := None; port := None;
     client_id := ""; username := None; password := None;
     keep_alive_secs := DEFAULT_KEEP_ALIVE_SECS; clean_start := true; next_packet_id_ := 1;
     carrier := None; failure_message := None; last_activity_at := None;
     ping_response_pending := false; pending_read_buffer := []; pending_events := [] |}.

Definition configure (s : MqttConnectionState) : MqttConnectionState :=
  let s := s <| present := true |> <| failure_message := None |> in
  match s.(phase) with
  | Inactive | Closed | Failed => s <| phase := Configured |>
  | _ => s
  end.

Definition set_scheme (v : MqttScheme) (s : MqttConnectionState) : MqttConnectionState :=
  let s := configure s <| scheme := v |> in
  match s.(port) with
  | None => s <| port := Some (default_port v) |>
  | Some _ => s
  end.

Definition set_target (h : string) (p : Z) (s : MqttConnectionState) : MqttConnectionState :=
  configure s <| host := Some h |> <| port := Some p |>.

Definition set_client_id (v : string) (s : MqttConnectionState) : MqttConnectionState :=
  configure s <| client_id := v |>.

Definition set_username (v : string) (s : MqttConnectionState) : MqttConnectionState :=
  configure s <| username := non_empty v |>.

Definition set_password (v : string) (s : MqttConnectionState) : MqttConnectionState :=
  configure s <| password := non_empty v |>.

Definition set_keep_alive_secs (v : Z) (s : MqttConnectionState) : MqttConnectionState :=
  configure s <| keep_alive_secs := v |>.

Definition set_clean_start (v : bool) (s : MqttConnectionState) : MqttConnectionState :=
  configure s <| clean_start := v |>.

Definition attach_carrier (c : MqttCarrierAttachment) (s : MqttConnectionState) : MqttConnectionState :=
  configure s <| carrier := Some c |> <| last_activity_at := None |>
    <| ping_response_pending := false |> <| pending_read_buffer := [] |>
    <| pending_events := [] |> <| phase := CarrierAttached |>.

Definition note_connect_sent (s : MqttConnectionState) : MqttConnectionState :=
  configure s <| phase := ConnectSent |>.

Definition mark_open (now : Z) (s : MqttConnectionState) : MqttConnectionState :=
  configure s <| failure_message := None |> <| last_activity_at := Some now |>
    <| ping_response_pending := false |> <| phase := Open |>.

Definition mark_closed (s : MqttConnectionState) : MqttConnectionState :=
  s <| ping_response_pending := false |> <| phase := Closed |>.

Definition mark_failed (message : string) (s : MqttConnectionState) : MqttConnectionState :=
  s <| present := true |> <| phase := Failed |> <| failure_message := Some message |>
    <| ping_response_pending := false |>.

Definition take_carrier (s : MqttConnectionState)
    : option MqttCarrierAttachment * MqttConnectionState :=
  (s.(carrier), s <| carrier := None |>).

Definition nanos_per_sec : Z := 1000000000.

(** [saturating_duration_since] and [saturating_sub] clamp at zero. *)
Definition next_keep_alive_wait (now : Z) (s : MqttConnectionState) : option Z :=
  if negb (bool_decide (s.(phase) = Open)) || (s.(keep_alive_secs) =? 0) then None
  else
    let interval := s.(keep_alive_secs) * nanos_per_sec in
    Some match s.(last_activity_at) with
         | Some last => Z.max 0 (interval - Z.max 0 (now - last))
         | None => interval
         end.

Definition ensure_client_id (uuid : string) (s : MqttConnectionState) : string * MqttConnectionState :=
  let s := if is_empty s.(client_id) then s <| client_id := "pd-edge-" +:+ uuid |> else s in
  (s.(client_id), s).

Definition next_packet_id (s : MqttConnectionState) : Z * MqttConnectionState :=
  let next := if s.(next_packet_id_) =? 0 then 1 else s.(next_packet_id_) in
  (next, s <| next_packet_id_ := if next =? U16_MAX then 1 else next + 1 |>).

Definition note_packet_activity (now : Z) (s : MqttConnectionState) : MqttConnectionState :=
  s <| last_activity_at := Some now |> <| ping_response_pending := false |>.

Definition note_ping_request_sent (now : Z) (s : MqttConnectionState) : MqttConnectionState :=
  s <| last_activity_at := Some now |> <| ping_response_pending := true |>.

Definition note_ping_response_received (now : Z) (s : MqttConnectionState) : MqttConnectionState :=
  s <| last_activity_at := Some now |> <| ping_response_pending := false |>.

(** The identifiers [n] successive calls of [next_packet_id] return. *)
Fixpoint packet_ids (n : nat) (s : MqttConnectionState) : list Z :=
  match n with
  | O => []
  | S n => let '(id, s) := next_packet_id s in id :: packet_ids n s
  end.

(** Every mutation of a connection state: the methods, and the protocol code's
    writes to the two public buffers. *)
Inductive mqtt_step : MqttConnectionState -> MqttConnectionState -> Prop :=
| step_configure s : mqtt_step s (configure s)
| step_set_scheme v s : mqtt_step s (set_scheme v s)
| step_set_target h p s : mqtt_step s (set_target h p s)
| step_set_client_id v s : mqtt_step s (set_client_id v s)
| step_set_username v s : mqtt_step s (set_username v s)
| step_set_password v s : mqtt_step s (set_password v s)
| step_set_keep_alive v s : in_u16 v -> mqtt_step s (set_keep_alive_secs v s)
| step_set_clean_start v s : mqtt_step s (set_clean_start v s)
| step_attach c s : mqtt_step s (attach_carrier c s)
| step_connect_sent s : mqtt_step s (note_connect_sent s)
| step_open now s : mqtt_step s (mark_open now s)
| step_closed s : mqtt_step s (mark_closed s)
| step_failed m s : mqtt_step s (mark_failed m s)
| step_take_carrier s : mqtt_step s (take_carrier s).2
| step_client_id uuid s : mqtt_step s (ensure_client_id uuid s).2
| step_packet_id s : mqtt_step s (next_packet_id s).2
| step_activity now s : mqtt_step s (note_packet_activity now s)
| step_ping_sent now s : mqtt_step s (note_ping_request_sent now s)
| step_ping_received now s : mqtt_step s (note_ping_response_received now s)
| step_buffers b evs s :
    mqtt_step s (s <| pending_read_buffer := b |> <| pending_events := evs |>).

Record mqtt_inv (s : MqttConnectionState) : Prop := {
  inv_failed : phase s = Failed -> is_Some (failure_message s) /\ present s = true;
  inv_live : phase s = CarrierAttached \/ phase s = ConnectSent \/ phase s = Open \/ phase s = Configured ->
    present s = true /\ failure_message s = None;
  inv_inactive : phase s = Inactive -> present s = false /\ failure_message s = None /\ host s = None;
  inv_packet_id : 1 <= next_packet_id_ s <= U16_MAX;
  inv_ping : ping_response_pending s = true -> is_Some (last_activity_at s);
  inv_target : is_Some (host s) -> is_Some (port s);
  inv_credentials : username s ≠ Some "" /\ password s ≠ Some "";
  inv_keep_alive : in_u16 (keep_alive_secs s);
}.

(** * Lemmas *)

Lemma non_empty_not_empty v : non_empty v ≠ Some "".
Proof. unfold non_empty, is_empty. case_bool_decide; congruence. Qed.

Lemma mqtt_inv_default : mqtt_inv default_state.
Proof.
  split; cbn; unfold U16_MAX, in_u16, DEFAULT_KEEP_ALIVE_SECS; try lia; try done.
  all: intros; intuition congruence.
Qed.

Lemma mqtt_inv_configure s : mqtt_inv s -> mqtt_inv (configure s) /\
  present (configure s) = true /\ failure_message (configure s) = None /\
  phase (configure s) ≠ Failed /\ phase (configure s) ≠ Inactive /\ phase (configure s) ≠ Closed.
Proof.
  intros []. unfold configure. cbn.
  destruct (phase s) eqn:E; cbn; (split; [|split_and!; congruence]); split; cbn; try done;
    intros; intuition congruence.
Qed.

Lemma next_packet_id_range s :
  0 <= next_packet_id_ s <= U16_MAX ->
  1 <= (next_packet_id s).1 <= U16_MAX /\ 1 <= next_packet_id_ (next_packet_id s).2 <= U16_MAX.
Proof.
  unfold next_packet_id, U16_MAX. cbn. intros Hr.
  destruct (Z.eqb_spec (next_packet_id_ s) 0); [cbn; lia|].
  destruct (Z.eqb_spec (next_packet_id_ s) 65535); lia.
Qed.

(** Splits an invariant goal into its fields and closes the propositional ones. *)
Ltac solve_mqtt_inv :=
  split; cbn; try assumption; try congruence; intros; try (split_and!; congruence); eauto;
  try solve [intuition (congruence || eauto)].

Lemma mqtt_step_inv s s' : mqtt_inv s -> mqtt_step s s' -> mqtt_inv s'.
Proof.
  intros Hinv Hs. revert Hinv.
  destruct Hs as [s|v s|h p s|v s|v s|v s|v s Hv|v s|c s|s|now s|s|m s|s|uuid s|s|now s|now s|now s|b evs s];
    intros Hinv; pose proof (mqtt_inv_configure _ Hinv) as (Hc & Hp & Hf & ? & ? & ?);
    unfold set_scheme, set_target, set_client_id, set_username, set_password, set_keep_alive_secs,
      set_clean_start, attach_carrier, note_connect_sent, mark_open; cbv zeta;
    try (generalize dependent (configure s); intros c0 Hc Hp Hf ???; destruct Hc).
  - split; done.
  - cbn [port set_field]. destruct (port c0) eqn:Hport; solve_mqtt_inv.
  - solve_mqtt_inv.
  - solve_mqtt_inv.
  - pose proof (non_empty_not_empty v). solve_mqtt_inv.
  - pose proof (non_empty_not_empty v). solve_mqtt_inv.
  - solve_mqtt_inv.
  - solve_mqtt_inv.
  - solve_mqtt_inv.
  - solve_mqtt_inv.
  - solve_mqtt_inv.
  - clear -Hinv. destruct Hinv. solve_mqtt_inv.
  - clear -Hinv. destruct Hinv. solve_mqtt_inv.
  - clear -Hinv. destruct Hinv. solve_mqtt_inv.
  - clear -Hinv. destruct Hinv. unfold ensure_client_id. destruct (is_empty _); solve_mqtt_inv.
  - pose proof (inv_packet_id _ Hinv) as Hid.
    pose proof (next_packet_id_range s ltac:(lia)) as [_ Hr]. clear -Hinv Hr.
    destruct Hinv. split; cbn; [done|done|done|exact Hr|done..].
  - clear -Hinv. destruct Hinv. solve_mqtt_inv.
  - clear -Hinv. destruct Hinv. solve_mqtt_inv.
  - clear -Hinv. destruct Hinv. solve_mqtt_inv.
  - clear -Hinv. destruct Hinv. solve_mqtt_inv.
Qed.

Lemma mqtt_rtc_inv s s' : mqtt_inv s -> rtc mqtt_step s s' -> mqtt_inv s'.
Proof. intros Hinv. induction 1; eauto using mqtt_step_inv. Qed.

Lemma packet_ids_from c s n :
  1 <= c <= U16_MAX -> next_packet_id_ s = c ->
  packet_ids n s = (fun i => 1 + (c - 1 + i) mod 65535) <$> seqZ 0 (Z.of_nat n).
Proof.
  revert c s; induction n as [|n IH]; intros c s Hc Hs; [done|].
  rewrite seqZ_cons by lia. cbn [packet_ids fmap list_fmap]. unfold next_packet_id. rewrite Hs.
  unfold U16_MAX in *. rewrite (proj2 (Z.eqb_neq c 0)) by lia. f_equal.
  { rewrite Z.mod_small by lia. lia. }
  set (c' := if c =? 65535 then 1 else c + 1).
  assert (1 <= c' <= 65535) by (subst c'; destruct (Z.eqb_spec c 65535); lia).
  rewrite (IH c') by (cbn; done || lia).
  replace (seqZ (Z.succ 0) (Z.pred (Z.of_nat (S n)))) with (Z.add 1 <$> seqZ 0 (Z.of_nat n))
    by (rewrite fmap_add_seqZ; f_equal; lia).
  rewrite <-list_fmap_compose.
  apply list_fmap_ext. intros i x _. cbn. f_equal. subst c'.
  destruct (Z.eqb_spec c 65535) as [->|]; [|f_equal; lia].
  replace (65535 - 1 + (1 + x)) with (x + 1 * 65535) by lia. rewrite Z.mod_add by lia. f_equal; lia.
Qed.

(** * Properties *)

(** In every state a connection reaches: a failed connection carries its
    message, a configured, attached, connecting or open one is present and carries
    none, the packet counter is a legal non-zero identifier, a ping is only
    pending after activity was recorded, a host comes with a port, and stored
    credentials are never empty strings. *)
Theorem mqtt_reachable_invariant s : rtc mqtt_step default_state s -> mqtt_inv s.
Proof. apply mqtt_rtc_inv, mqtt_inv_default. Qed.

(** Successive packet identifiers run through 1, 2, ..., 65535, 1, 2, ...:
    the [i]-th one is [1 + i mod 65535], so none is zero and any 65535 consecutive
    ones are distinct. *)
Theorem packet_ids_cycle n :
  packet_ids n default_state = (fun i => 1 + i mod 65535) <$> seqZ 0 (Z.of_nat n).
Proof. by rewrite (packet_ids_from 1) by done. Qed.

(** Keep-alive timing: only an open connection with a non-zero interval
    waits; the wait never exceeds the interval, is the full interval right after
    any activity, and shrinks with the time since then down to zero. *)
Theorem keep_alive_wait now t s :
  0 <= keep_alive_secs s -> t <= now ->
  match next_keep_alive_wait now s with
  | None => phase s ≠ Open \/ keep_alive_secs s = 0
  | Some w => phase s = Open /\ 0 <= w <= keep_alive_secs s * nanos_per_sec
  end /\
  (phase s = Open -> keep_alive_secs s ≠ 0 ->
   next_keep_alive_wait now (note_packet_activity t s)
   = Some (Z.max 0 (keep_alive_secs s * nanos_per_sec - (now - t)))).
Proof.
  intros Hk Ht. unfold next_keep_alive_wait, nanos_per_sec. split.
  - case_bool_decide as Hp; cbn; [|by left].
    destruct (Z.eqb_spec (keep_alive_secs s) 0); [by right|].
    destruct (last_activity_at s); split; (done || lia).
  - intros Hp Hz. cbn. rewrite bool_decide_true by done. cbn.
    rewrite (proj2 (Z.eqb_neq _ _)) by done. do 2 f_equal. lia.
Qed.

(** ** Witnesses *)

Definition opened : MqttConnectionState :=
  mark_open 5000000000 (note_connect_sent (attach_carrier (Tcp 0) (set_target "h" 1883 default_state))).

Lemma mqtt_reachable_invariant_witness :
  rtc mqtt_step default_state opened /\ present opened = true /\ failure_message opened = None.
Proof.
  assert (rtc mqtt_step default_state opened) as Hr.
  { eapply rtc_l; [apply step_set_target|]. eapply rtc_l; [apply step_attach|].
    eapply rtc_l; [apply step_connect_sent|]. apply rtc_once, step_open. }
  split; [exact Hr|]. apply (inv_live _ (mqtt_reachable_invariant opened Hr)). by right; right; left.
Defined.

Lemma keep_alive_wait_witness :
  next_keep_alive_wait 8000000000 (note_packet_activity 6000000000 opened) = Some 58000000000.
Proof.
  destruct (keep_alive_wait 8000000000 6000000000 opened) as [_ H]; [by vm_compute|lia|].
  rewrite H by by vm_compute. by vm_compute.
Defined.

End MqttModel.
