(* ===== verification/MqttCodec.v ===== *)
(** Model of [src/abi_impl/mqtt/codec.rs]: the MQTT 5 packet encoders and the
    incremental packet decoder.  The [&mut usize] offset of the decoding helpers
    is threaded as a value; slice indexing that would panic in Rust is the
    [Panic] outcome. *)

From S2P Require Import Prelude Bytes MqttModel.

Module MqttCodec.
Import MqttModel.

Inductive MqttIncomingPacket :=
| ConnAck (reason_code : Z)
| Publish (topic : string) (payload : list Z) (qos : Z) (retain dup : bool) (packet_id : option Z)
| PubAck (packet_id reason_code : Z)
| SubAck (packet_id : Z) (reason_codes : list Z)
| UnsubAck (packet_id : Z) (reason_codes : list Z)
| PingResp
| Disconnect (reason_code : Z).

(** The [loop] of [encode_variable_int]; four rounds are enough for every
    value the guard lets through ([varint_roundtrip]). *)
Fixpoint encode_variable_int_loop (fuel : nat) (value : Z) : list Z :=
  match fuel with
  | O => []
  | S fuel =>
      let byte := value mod 128 in
      let value := value / 128 in
      let byte := if 0 <? value then Z.lor byte 128 else byte in
      byte :: if value =? 0 then [] else encode_variable_int_loop fuel value
  end.

Definition encode_variable_int (value : Z) : outcome (list Z) :=
  if 268435455 <? value
  then fail ("mqtt remaining length " +:+ dec value +:+ " exceeds protocol maximum")
  else Ok (encode_variable_int_loop 4 value).

(** The [for] loop over [bytes.iter().enumerate().take(n)]; [None] when it ends
    without returning. *)
Fixpoint decode_variable_int_loop (n : nat) (i multiplier value : Z) (bytes : list Z)
    : option (Z * Z) :=
  match n, bytes with
  | S n, byte :: rest =>
      let value := value + Z.land byte 127 * multiplier in
      if Z.land byte 128 =? 0 then Some (value, i + 1)
      else decode_variable_int_loop n (i + 1) (multiplier * 128) value rest
  | _, _ => None
  end.

Definition decode_variable_int (bytes : list Z) : outcome (option (Z * Z)) :=
  match decode_variable_int_loop 4 0 1 0 bytes with
  | Some r => Ok (Some r)
  | None => if 4 <=? len bytes then fail "mqtt variable length integer exceeds 4 bytes" else Ok None
  end.

Definition encode_utf8 (value : string) : outcome (list Z) :=
  let bytes := bytes_of_string value in
  if U16_MAX <? len bytes
  then fail ("mqtt string exceeds 65535 bytes: " +:+ dec (len bytes))
  else Ok (u16_to_be_bytes (len bytes) ++ bytes).

Definition decode_u16 (bytes : list Z) (offset : Z) (field : string) : outcome (Z * Z) :=
  if len bytes <? offset + 2 then fail ("mqtt " +:+ field +:+ " is truncated")
  else
    hi ← or_panic (index bytes offset);
    lo ← or_panic (index bytes (offset + 1));
    Ok (u16_from_be_bytes hi lo, offset + 2).

Definition decode_utf8 (bytes : list Z) (offset : Z) (field : string) : outcome (string * Z) :=
  '(length, offset) ← decode_u16 bytes offset field;
  if len bytes <? offset + length then fail ("mqtt " +:+ field +:+ " is truncated")
  else
    chunk ← or_panic (slice bytes offset (offset + length));
    match from_utf8 chunk with
    | Ok value => Ok (value, offset + length)
    | Err err => fail ("mqtt " +:+ field +:+ " is not valid utf-8: " +:+ utf8_error_display err)
    end.

Definition decode_properties_length (bytes : list Z) (offset : Z) : outcome (Z * Z) :=
  tail ← or_panic (slice bytes offset (len bytes));
  decoded ← decode_variable_int tail;
  match decoded with
  | None => fail "mqtt properties length is truncated"
  | Some (length, encoded_len) =>
      let offset := offset + encoded_len in
      if len bytes <? offset + length then fail "mqtt properties are truncated"
      else Ok (length, offset)
  end.

Definition encode_fixed_packet (header : Z) (body : list Z) : outcome (list Z) :=
  l ← encode_variable_int (len body);
  Ok (header :: l ++ body).

Definition connect_flags (config : MqttConnectConfig) : Z :=
  let flags := 0 in
  let flags := if config.(cfg_clean_start) then Z.lor flags 2 else flags in
  let flags := if decide (is_Some config.(cfg_username)) then Z.lor flags 128 else flags in
  if decide (is_Some config.(cfg_password)) then Z.lor flags 64 else flags.

Definition encode_optional_utf8 (value : option string) : outcome (list Z) :=
  match value with Some v => encode_utf8 v | None => Ok [] end.

Definition encode_connect_packet (config : MqttConnectConfig) : outcome (list Z) :=
  name ← encode_utf8 "MQTT";
  client_id ← encode_utf8 config.(cfg_client_id);
  username ← encode_optional_utf8 config.(cfg_username);
  password ← encode_optional_utf8 config.(cfg_password);
  encode_fixed_packet 16
    (name ++ [5] ++ [connect_flags config] ++ u16_to_be_bytes config.(cfg_keep_alive_secs)
     ++ [0] ++ client_id ++ username ++ password).

Definition encode_publish_packet (topic : string) (payload : list Z) (qos : Z) (retain : bool)
    (packet_id : option Z) : outcome (list Z) :=
  topic ← encode_utf8 topic;
  let header := Z.lor 48 (Z.shiftl (Z.land qos 3) 1) in
  let header := if retain then Z.lor header 1 else header in
  encode_fixed_packet header
    (topic ++ match packet_id with Some packet_id => u16_to_be_bytes packet_id | None => [] end
     ++ [0] ++ payload).

Definition encode_subscribe_packet (filter : string) (qos packet_id : Z) : outcome (list Z) :=
  filter ← encode_utf8 filter;
  encode_fixed_packet 130 (u16_to_be_bytes packet_id ++ [0] ++ filter ++ [Z.land qos 3]).

Definition encode_unsubscribe_packet (filter : string) (packet_id : Z) : outcome (list Z) :=
  filter ← encode_utf8 filter;
  encode_fixed_packet 162 (u16_to_be_bytes packet_id ++ [0] ++ filter).

Definition encode_puback_packet (packet_id : Z) : outcome (list Z) :=
  encode_fixed_packet 64 (u16_to_be_bytes packet_id ++ [0] ++ [0]).

Definition encode_pingreq_packet : outcome (list Z) := encode_fixed_packet 192 [].

Definition encode_disconnect_packet (reason_code : Z) (reason_text : string) : outcome (list Z) :=
  if (reason_code =? 0) && is_empty reason_text then Ok [224; 0]
  else
    properties ← (if is_empty reason_text then Ok []
                  else text ← encode_utf8 reason_text; Ok (31 :: text));
    properties_len ← encode_variable_int (len properties);
    encode_fixed_packet 224 ([reason_code] ++ properties_len ++ properties).

(** ** [decode_packet], one function per arm of its [match] *)

Definition decode_connack (body : list Z) : outcome MqttIncomingPacket :=
  if len body <? 2 then fail "mqtt connack is truncated"
  else
    '(properties_len, offset) ← decode_properties_length body 2;
    if negb (offset + properties_len =? len body)
    then fail "mqtt connack properties are malformed"
    else reason_code ← or_panic (index body 1); Ok (ConnAck reason_code).

Definition decode_publish (flags : Z) (body : list Z) : outcome MqttIncomingPacket :=
  let retain := negb (Z.land flags 1 =? 0) in
  let qos := Z.land (Z.shiftr flags 1) 3 in
  let dup := negb (Z.land flags 8 =? 0) in
  if 1 <? qos then fail "mqtt qos 2 is not supported in this milestone"
  else
    '(topic, offset) ← decode_utf8 body 0 "publish topic";
    '(packet_id, offset) ←
      (if 0 <? qos
       then '(id, offset) ← decode_u16 body offset "publish packet id"; Ok (Some id, offset)
       else Ok (None, offset));
    '(properties_len, offset) ← decode_properties_length body offset;
    let offset := offset + properties_len in
    if len body <? offset then fail "mqtt publish properties are malformed"
    else
      payload ← or_panic (slice body offset (len body));
      Ok (Publish topic payload qos retain dup packet_id).

Definition decode_puback (body : list Z) : outcome MqttIncomingPacket :=
  '(packet_id, offset) ← decode_u16 body 0 "puback packet id";
  '(reason_code, offset) ←
    (if offset <? len body
     then reason ← or_panic (index body offset); Ok (reason, offset + 1)
     else Ok (0, offset));
  if offset <? len body
  then
    '(properties_len, offset) ← decode_properties_length body offset;
    if negb (offset + properties_len =? len body)
    then fail "mqtt puback properties are malformed"
    else Ok (PubAck packet_id reason_code)
  else Ok (PubAck packet_id reason_code).

(** The common shape of the suback and unsuback arms. *)
Definition decode_ack_list (name : string) (make : Z -> list Z -> MqttIncomingPacket)
    (body : list Z) : outcome MqttIncomingPacket :=
  '(packet_id, offset) ← decode_u16 body 0 (name +:+ " packet id");
  '(properties_len, offset) ← decode_properties_length body offset;
  let offset := offset + properties_len in
  if len body <? offset then fail ("mqtt " +:+ name +:+ " properties are malformed")
  else codes ← or_panic (slice body offset (len body)); Ok (make packet_id codes).

Definition decode_suback := decode_ack_list "suback" SubAck.
Definition decode_unsuback := decode_ack_list "unsuback" UnsubAck.

Definition decode_disconnect (body : list Z) : outcome MqttIncomingPacket :=
  Ok (Disconnect (default 0 (head body))).

Definition decode_body (packet_type flags : Z) (body : list Z) : outcome MqttIncomingPacket :=
  match packet_type with
  | 2 => decode_connack body
  | 3 => decode_publish flags body
  | 4 => decode_puback body
  | 9 => decode_suback body
  | 11 => decode_unsuback body
  | 13 => Ok PingResp
  | 14 => decode_disconnect body
  | _ => fail ("unsupported mqtt control packet type " +:+ dec packet_type)
  end.

Definition decode_packet (bytes : list Z) : outcome (option (MqttIncomingPacket * Z)) :=
  if len bytes <? 2 then Ok None
  else
    header ← or_panic (index bytes 0);
    let packet_type := Z.shiftr header 4 in
    let flags := Z.land header 15 in
    tail ← or_panic (slice bytes 1 (len bytes));
    decoded ← decode_variable_int tail;
    match decoded with
    | None => Ok None
    | Some (remaining_len, encoded_len) =>
        let total_len := 1 + encoded_len + remaining_len in
        if len bytes <? total_len then Ok None
        else
          body ← or_panic (slice bytes (1 + encoded_len) total_len);
          packet ← decode_body packet_type flags body;
          Ok (Some (packet, total_len))
    end.

(** * Lemmas *)

(** ** Variable byte integers *)

Lemma low7_bits b : 0 <= b < 128 ->
  Z.land b 127 = b /\ Z.land b 128 = 0 /\
  Z.land (Z.lor b 128) 127 = b /\ Z.land (Z.lor b 128) 128 = 128.
Proof.
  intros Hb.
  pose proof (seqZ_check (fun b => (Z.land b 127 =? b) && (Z.land b 128 =? 0)
    && (Z.land (Z.lor b 128) 127 =? b) && (Z.land (Z.lor b 128) 128 =? 128)) 0 128 eq_refl b Hb) as H.
  rewrite !andb_true_iff, !Z.eqb_eq in H. tauto.
Qed.

Lemma encode_loop_bytes fuel v : 0 <= v -> is_u8s (encode_variable_int_loop fuel v).
Proof.
  revert v; induction fuel as [|n IH]; intros v Hv; cbn; constructor.
  - pose proof (Z.mod_pos_bound v 128 ltac:(lia)) as Hm. unfold in_u8.
    destruct (0 <? v / 128); [|lia].
    pose proof (seqZ_check (fun b => (0 <=? Z.lor b 128) && (Z.lor b 128 <? 256)) 0 128 eq_refl _ Hm) as H.
    rewrite andb_true_iff, Z.leb_le, Z.ltb_lt in H. done.
  - destruct (v / 128 =? 0); [constructor|]. apply IH, Z.div_pos; lia.
Qed.

Lemma encode_loop_S n v :
  encode_variable_int_loop (S n) v =
  (if 0 <? v / 128 then Z.lor (v mod 128) 128 else v mod 128)
  :: if v / 128 =? 0 then [] else encode_variable_int_loop n (v / 128).
Proof. done. Qed.

Lemma decode_loop_S n i m acc b rest :
  decode_variable_int_loop (S n) i m acc (b :: rest) =
  if Z.land b 128 =? 0 then Some (acc + Z.land b 127 * m, i + 1)
  else decode_variable_int_loop n (i + 1) (m * 128) (acc + Z.land b 127 * m) rest.
Proof. done. Qed.

Lemma decode_encode_loop fuel i m acc v rest :
  0 <= v < 128 ^ Z.of_nat (S fuel) ->
  decode_variable_int_loop (S fuel) i m acc (encode_variable_int_loop (S fuel) v ++ rest)
  = Some (acc + v * m, i + len (encode_variable_int_loop (S fuel) v)).
Proof.
  revert i m acc v; induction fuel as [|n IH]; intros i m acc v Hv.
  all: pose proof (Z.mod_pos_bound v 128 ltac:(lia)) as Hm.
  all: destruct (low7_bits _ Hm) as (L1 & L2 & L3 & L4).
  all: pose proof (Z.div_mod v 128 ltac:(lia)) as Hdm.
  all: rewrite encode_loop_S.
  - assert (v / 128 = 0) as Hd by (apply Z.div_small; lia).
    rewrite Hd in *. rewrite Z.ltb_irrefl, Z.eqb_refl. cbn [app]. rewrite decode_loop_S, L1, L2, Z.eqb_refl.
    change (len [v mod 128]) with 1. do 2 f_equal; nia.
  - destruct (Z.eqb_spec (v / 128) 0) as [Hd|Hd].
    + rewrite Hd in *. rewrite Z.ltb_irrefl. cbn [app]. rewrite decode_loop_S, L1, L2, Z.eqb_refl.
      change (len [v mod 128]) with 1. do 2 f_equal; nia.
    + assert (0 < v / 128) by (pose proof (Z.div_pos v 128); lia).
      rewrite (proj2 (Z.ltb_lt 0 _)) by lia. cbn [app].
      rewrite decode_loop_S, L3, L4. change (128 =? 0) with false. cbn iota. rewrite IH.
      * rewrite len_cons. do 2 f_equal; [|lia]. rewrite Hdm at 3. lia.
      * split; [lia|]. apply Z.div_lt_upper_bound; [lia|].
        rewrite Nat2Z.inj_succ, Z.pow_succ_r in Hv by lia. lia.
Qed.

Lemma encode_loop_len fuel v : 1 <= len (encode_variable_int_loop (S fuel) v) <= Z.of_nat (S fuel).
Proof.
  revert v; induction fuel as [|n IH]; intros v; rewrite encode_loop_S;
    destruct (v / 128 =? 0); rewrite len_cons; try (change (len (@nil Z)) with 0; lia).
  - cbn [encode_variable_int_loop]. change (len (@nil Z)) with 0. lia.
  - specialize (IH (v / 128)). lia.
Qed.

Lemma encode_variable_int_Ok v l :
  0 <= v -> encode_variable_int v = Ok l -> l = encode_variable_int_loop 4 v /\ v <= 268435455.
Proof.
  unfold encode_variable_int. destruct (Z.ltb_spec 268435455 v); [done|]. intros; by simplify_eq.
Qed.

Lemma decode_encode_variable_int v l rest :
  0 <= v -> encode_variable_int v = Ok l ->
  decode_variable_int (l ++ rest) = Ok (Some (v, len l)).
Proof.
  intros Hv [-> Hle]%encode_variable_int_Ok; [|done]. unfold decode_variable_int.
  rewrite (decode_encode_loop 3) by (change (128 ^ Z.of_nat 4) with 268435456; lia).
  do 2 f_equal. f_equal; lia.
Qed.

Lemma decode_loop_bounds n i m acc bytes v k :
  0 <= m -> 0 <= acc -> decode_variable_int_loop n i m acc bytes = Some (v, k) ->
  0 <= v /\ i < k <= i + len bytes.
Proof.
  revert i m acc bytes; induction n as [|n IH]; intros i m acc bytes Hm Hacc; [done|].
  destruct bytes as [|b rest]; cbn; [done|]. pose proof (len_nonneg rest).
  assert (0 <= Z.land b 127) by (apply Z.land_nonneg; lia).
  destruct (_ =? 0).
  - intros; simplify_eq. rewrite len_cons. split; [nia|lia].
  - intros Hd. apply IH in Hd; [|nia|nia]. rewrite len_cons. lia.
Qed.

Lemma decode_loop_app_Some n i m acc bytes more r :
  decode_variable_int_loop n i m acc bytes = Some r ->
  decode_variable_int_loop n i m acc (bytes ++ more) = Some r.
Proof.
  revert i m acc bytes; induction n as [|n IH]; intros i m acc bytes; [done|].
  destruct bytes as [|b rest]; cbn; [done|]. destruct (_ =? 0); [done|]. apply IH.
Qed.

Lemma decode_loop_app_full n i m acc bytes more :
  (n <= length bytes)%nat ->
  decode_variable_int_loop n i m acc (bytes ++ more) = decode_variable_int_loop n i m acc bytes.
Proof.
  revert i m acc bytes; induction n as [|n IH]; intros i m acc bytes; [done|].
  destruct bytes as [|b rest]; cbn; [lia|]. intros Hn. destruct (_ =? 0); [done|]. apply IH. lia.
Qed.

Lemma decode_variable_int_bounds bytes v k :
  decode_variable_int bytes = Ok (Some (v, k)) -> 0 <= v /\ 0 < k <= len bytes.
Proof.
  unfold decode_variable_int.
  destruct (decode_variable_int_loop 4 0 1 0 bytes) as [[v' k']|] eqn:E.
  - intros; simplify_eq. apply decode_loop_bounds in E; lia.
  - by destruct (4 <=? len bytes).
Qed.

(** Once the decoder has decided, more input does not change its mind. *)
Lemma decode_variable_int_app bytes more :
  decode_variable_int bytes ≠ Ok None ->
  decode_variable_int (bytes ++ more) = decode_variable_int bytes.
Proof.
  unfold decode_variable_int.
  destruct (decode_variable_int_loop 4 0 1 0 bytes) as [r|] eqn:E.
  - by rewrite (decode_loop_app_Some _ _ _ _ _ _ _ E).
  - destruct (Z.leb_spec 4 (len bytes)) as [Hl|Hl]; [|done]. intros _.
    rewrite decode_loop_app_full by (unfold len in Hl; lia). rewrite E.
    rewrite (proj2 (Z.leb_le _ _)); [done|]. len_lia.
Qed.

Lemma decode_variable_int_no_panic bytes : no_panic (decode_variable_int bytes).
Proof.
  unfold decode_variable_int. destruct (decode_variable_int_loop _ _ _ _ _); [done|].
  by destruct (4 <=? len bytes).
Qed.

(** ** Fields of a body *)

Lemma decode_u16_encoded pre n post field :
  in_u16 n ->
  decode_u16 (pre ++ u16_to_be_bytes n ++ post) (len pre) field = Ok (n, len pre + 2).
Proof.
  intros Hn. unfold decode_u16. rewrite (proj2 (Z.ltb_ge _ _)) by len_lia.
  replace (len pre) with (len pre + 0) at 1 by lia.
  rewrite !index_app_r by lia. cbn [u16_to_be_bytes app].
  rewrite index_cons_0. unfold index at 1. rewrite !len_cons. pose proof (len_nonneg post).
  rewrite (proj2 (Z.ltb_lt _ _)) by lia. change (Z.to_nat 1) with 1%nat.
  cbn -[Z.land Z.shiftr u16_from_be_bytes].
  by rewrite u16_from_to_be_bytes.
Qed.

Lemma encode_utf8_Ok s e :
  encode_utf8 s = Ok e ->
  e = u16_to_be_bytes (str_len s) ++ bytes_of_string s /\ in_u16 (str_len s).
Proof.
  unfold encode_utf8, U16_MAX, str_len, in_u16. pose proof (len_nonneg (bytes_of_string s)).
  destruct (Z.ltb_spec 65535 (len (bytes_of_string s))); [done|]. intros; simplify_eq.
  split; [done|lia].
Qed.

Lemma encode_utf8_u8 s e : encode_utf8 s = Ok e -> is_u8s e.
Proof.
  intros [-> _]%encode_utf8_Ok. apply Forall_app. split; [apply u16_to_be_bytes_u8|].
  apply bytes_of_string_u8.
Qed.

Lemma decode_utf8_encoded pre s e post field :
  utf8_ok s -> encode_utf8 s = Ok e ->
  decode_utf8 (pre ++ e ++ post) (len pre) field = Ok (s, len pre + len e).
Proof.
  intros Hs [-> Hn]%encode_utf8_Ok. unfold decode_utf8.
  rewrite <-(app_assoc (u16_to_be_bytes _)), decode_u16_encoded by done.
  cbn [mbind result_bind]. unfold str_len.
  rewrite (proj2 (Z.ltb_ge _ _)) by len_lia.
  pose proof (slice_app (pre ++ u16_to_be_bytes (str_len s)) (bytes_of_string s) post) as Hsl.
  rewrite <-app_assoc, len_app, u16_to_be_bytes_len in Hsl. unfold str_len in Hsl. rewrite Hsl.
  cbn. rewrite from_utf8_string by done. do 2 f_equal. len_lia.
Qed.

Lemma decode_properties_zero pre post :
  decode_properties_length (pre ++ 0 :: post) (len pre) = Ok (0, len pre + 1).
Proof.
  unfold decode_properties_length. rewrite slice_app_end. cbn [or_panic ok_or mbind result_bind].
  change (decode_variable_int (0 :: post)) with (@Ok fault _ (Some (0, 1))).
  cbn [mbind result_bind]. by rewrite (proj2 (Z.ltb_ge _ _)) by len_lia.
Qed.

(** ** Frames *)

Lemma encode_fixed_packet_Ok header body p :
  encode_fixed_packet header body = Ok p ->
  exists l, encode_variable_int (len body) = Ok l /\ p = header :: l ++ body.
Proof. unfold encode_fixed_packet. intros (l & Hl & [= <-])%bind_Ok. eauto. Qed.

(** Decoding an encoded frame reaches the arm of its type with its body. *)
Lemma decode_encoded_frame header body p rest :
  encode_fixed_packet header body = Ok p ->
  decode_packet (p ++ rest) =
  (packet ← decode_body (Z.shiftr header 4) (Z.land header 15) body; Ok (Some (packet, len p))).
Proof.
  intros (l & Hl & ->)%encode_fixed_packet_Ok. pose proof (len_nonneg body) as Hb.
  destruct (encode_variable_int_Ok _ _ Hb Hl) as [Hll _].
  pose proof (encode_loop_len 3 (len body)) as Hlen. rewrite <-Hll in Hlen.
  unfold decode_packet. cbn [app]. rewrite <-app_assoc.
  rewrite (proj2 (Z.ltb_ge _ _)) by len_lia. rewrite index_cons_0. cbn [or_panic ok_or mbind result_bind].
  change (header :: l ++ body ++ rest) with ([header] ++ l ++ body ++ rest).
  change 1 with (len [header]) at 1. rewrite slice_app_end. cbn [or_panic ok_or mbind result_bind].
  rewrite (decode_encode_variable_int _ _ _ Hb Hl). cbn [mbind result_bind].
  rewrite (proj2 (Z.ltb_ge _ _)) by len_lia.
  pose proof (slice_app ([header] ++ l) body rest) as Hsl. rewrite <-app_assoc, len_app in Hsl.
  change (len [header]) with 1 in Hsl. rewrite Hsl. cbn [or_panic ok_or mbind result_bind].
  destruct (decode_body _ _ _); [|done]. cbn [mbind result_bind]. do 3 f_equal. len_lia.
Qed.

(** ** The decoder does not panic *)

Lemma decode_u16_ok bytes offset field n o :
  decode_u16 bytes offset field = Ok (n, o) -> o = offset + 2 /\ o <= len bytes.
Proof.
  unfold decode_u16. destruct (Z.ltb_spec (len bytes) (offset + 2)); [done|].
  intros (hi & _ & (lo & _ & [= _ <-])%bind_Ok)%bind_Ok. lia.
Qed.

Lemma decode_u16_no_panic bytes offset field :
  0 <= offset -> no_panic (decode_u16 bytes offset field).
Proof.
  intros Ho. unfold decode_u16. destruct (Z.ltb_spec (len bytes) (offset + 2)); [done|].
  destruct (index_total bytes offset) as [hi ->]; [lia|].
  by destruct (index_total bytes (offset + 1)) as [lo ->]; [lia|].
Qed.

Lemma u16_from_be_bytes_nonneg hi lo : 0 <= hi -> 0 <= lo -> 0 <= u16_from_be_bytes hi lo.
Proof. intros. apply Z.lor_nonneg. rewrite Z.shiftl_nonneg. done. Qed.

Lemma index_u8 l i b : is_u8s l -> index l i = Some b -> in_u8 b.
Proof.
  intros Hl Hi. pose proof (index_Some_lt _ _ _ Hi). unfold index in Hi.
  destruct (_ && _); [|done]. by eapply Forall_lookup_1.
Qed.

Lemma decode_u16_nonneg bytes offset field n o :
  is_u8s bytes -> decode_u16 bytes offset field = Ok (n, o) -> 0 <= n.
Proof.
  intros Hu. unfold decode_u16. destruct (len bytes <? offset + 2); [done|].
  intros (hi & Hhi & (lo & Hlo & [= <- _])%bind_Ok)%bind_Ok.
  destruct (index bytes offset) as [hi'|] eqn:E1; [|done].
  destruct (index bytes (offset + 1)) as [lo'|] eqn:E2; [|done]. cbn in *. simplify_eq.
  apply u16_from_be_bytes_nonneg; by eapply index_u8.
Qed.

Lemma decode_utf8_ok bytes offset field s o :
  is_u8s bytes -> decode_utf8 bytes offset field = Ok (s, o) -> offset + 2 <= o <= len bytes.
Proof.
  intros Hu. unfold decode_utf8. intros ([n o1] & Hn & Hr)%bind_Ok.
  pose proof (decode_u16_nonneg _ _ _ _ _ Hu Hn). apply decode_u16_ok in Hn as [-> _].
  revert Hr. destruct (Z.ltb_spec (len bytes) (offset + 2 + n)); [done|].
  intros (c & _ & Hc)%bind_Ok. destruct (from_utf8 c); simplify_eq. lia.
Qed.

Lemma decode_utf8_no_panic bytes offset field :
  is_u8s bytes -> 0 <= offset -> no_panic (decode_utf8 bytes offset field).
Proof.
  intros Hu Ho. apply no_panic_bind; [by apply decode_u16_no_panic|]. intros [n o] Hn.
  pose proof (decode_u16_nonneg _ _ _ _ _ Hu Hn). apply decode_u16_ok in Hn as [-> _].
  destruct (Z.ltb_spec (len bytes) (offset + 2 + n)); [done|].
  destruct (slice_total bytes (offset + 2) (offset + 2 + n)) as [c ->]; [lia..|].
  cbn. by destruct (from_utf8 c).
Qed.

Lemma decode_properties_ok bytes offset l o :
  decode_properties_length bytes offset = Ok (l, o) -> offset < o /\ 0 <= l /\ o + l <= len bytes.
Proof.
  unfold decode_properties_length. intros (tail & _ & ([[l' k]|] & Hd & Hr)%bind_Ok)%bind_Ok; [|done].
  apply decode_variable_int_bounds in Hd. revert Hr.
  destruct (Z.ltb_spec (len bytes) (offset + k + l')); [done|]. intros; simplify_eq. lia.
Qed.

Lemma decode_properties_no_panic bytes offset :
  0 <= offset <= len bytes -> no_panic (decode_properties_length bytes offset).
Proof.
  intros Ho. unfold decode_properties_length. rewrite slice_all by lia. cbn.
  apply no_panic_bind; [apply decode_variable_int_no_panic|]. intros [[l k]|] _; [|done].
  by destruct (len bytes <? offset + k + l).
Qed.

#[local] Hint Resolve decode_u16_no_panic decode_utf8_no_panic decode_properties_no_panic
  decode_variable_int_no_panic : no_panic.

Lemma decode_connack_no_panic body : no_panic (decode_connack body).
Proof.
  unfold decode_connack. destruct (Z.ltb_spec (len body) 2); [done|].
  apply no_panic_bind; [apply decode_properties_no_panic; lia|]. intros [l o] _.
  destruct (negb _); [done|]. by destruct (index_total body 1) as [r ->]; [lia|].
Qed.

Lemma decode_publish_no_panic flags body : is_u8s body -> no_panic (decode_publish flags body).
Proof.
  intros Hu. unfold decode_publish. destruct (1 <? _); [done|].
  apply no_panic_bind; [by apply decode_utf8_no_panic|]. intros [t o] Ht.
  apply decode_utf8_ok in Ht; [|done]. apply no_panic_bind.
  { destruct (0 <? _); [|done]. apply no_panic_bind; [apply decode_u16_no_panic; lia|]. by intros []. }
  intros [pid o2] Hp. assert (0 <= o2 <= len body) as Ho2.
  { destruct (0 <? _); [|by simplify_eq/=; lia].
    apply bind_Ok in Hp as ([id o3] & Hid & [= _ <-]). apply decode_u16_ok in Hid. lia. }
  apply no_panic_bind; [by apply decode_properties_no_panic|]. intros [l o3] Hl.
  apply decode_properties_ok in Hl. rewrite (proj2 (Z.ltb_ge _ _)) by lia.
  by destruct (slice_total body (o3 + l) (len body)) as [pl ->]; [lia..|].
Qed.

Lemma decode_puback_no_panic body : no_panic (decode_puback body).
Proof.
  unfold decode_puback. apply no_panic_bind; [by apply decode_u16_no_panic|]. intros [id o] Hid.
  apply decode_u16_ok in Hid as [-> Ho]. apply no_panic_bind.
  { destruct (Z.ltb_spec (0 + 2) (len body)); [|done].
    by destruct (index_total body (0 + 2)) as [r ->]; [lia|]. }
  intros [r o] Hr. assert (0 <= o) as Ho0.
  { destruct (0 + 2 <? len body); [apply bind_Ok in Hr as (? & _ & ?)|]; simplify_eq; lia. }
  destruct (Z.ltb_spec o (len body)); [|done].
  apply no_panic_bind; [apply decode_properties_no_panic; lia|]. intros [l o2] _. by destruct (negb _).
Qed.

Lemma decode_ack_list_no_panic name make body : no_panic (decode_ack_list name make body).
Proof.
  unfold decode_ack_list. apply no_panic_bind; [by apply decode_u16_no_panic|]. intros [id o] Hid.
  apply decode_u16_ok in Hid as [-> Ho].
  apply no_panic_bind; [apply decode_properties_no_panic; lia|]. intros [l o] Hl.
  apply decode_properties_ok in Hl. rewrite (proj2 (Z.ltb_ge _ _)) by lia.
  by destruct (slice_total body (o + l) (len body)) as [c ->]; [lia..|].
Qed.

Lemma decode_body_no_panic t flags body : is_u8s body -> no_panic (decode_body t flags body).
Proof.
  intros Hu. unfold decode_body, decode_suback, decode_unsuback, decode_disconnect.
  repeat match goal with
         | |- no_panic (match ?x with _ => _ end) => destruct x
         end; auto using no_panic_Ok, no_panic_fail, decode_connack_no_panic,
    decode_publish_no_panic, decode_puback_no_panic, decode_ack_list_no_panic.
Qed.

Lemma slice_u8 l a b s : is_u8s l -> slice l a b = Some s -> is_u8s s.
Proof.
  intros Hl. unfold slice. destruct (_ && _ && _); [|done]. intros; simplify_eq.
  by apply Forall_take, Forall_drop.
Qed.

(** ** The encoders do not panic *)

Lemma encode_variable_int_no_panic v : no_panic (encode_variable_int v).
Proof. unfold encode_variable_int. by destruct (_ <? _). Qed.
Lemma encode_utf8_no_panic s : no_panic (encode_utf8 s).
Proof. unfold encode_utf8. by destruct (_ <? _). Qed.
Lemma encode_optional_utf8_no_panic s : no_panic (encode_optional_utf8 s).
Proof. destruct s; [apply encode_utf8_no_panic|done]. Qed.
Lemma encode_fixed_packet_no_panic header body : no_panic (encode_fixed_packet header body).
Proof. apply no_panic_bind; [apply encode_variable_int_no_panic|done]. Qed.
#[export] Hint Resolve encode_variable_int_no_panic encode_utf8_no_panic encode_optional_utf8_no_panic
  encode_fixed_packet_no_panic : no_panic.
#[export] Hint Extern 5 (no_panic (_ ≫= _)) => apply no_panic_bind : no_panic.

Lemma encoders_no_panic config topic payload qos retain id filter reason text :
  no_panic (encode_connect_packet config) /\ no_panic (encode_publish_packet topic payload qos retain id) /\
  no_panic (encode_subscribe_packet filter qos reason) /\ no_panic (encode_unsubscribe_packet filter reason) /\
  no_panic (encode_puback_packet reason) /\ no_panic (encode_disconnect_packet reason text).
Proof.
  unfold encode_connect_packet, encode_publish_packet, encode_subscribe_packet, encode_unsubscribe_packet,
    encode_puback_packet, encode_disconnect_packet.
  split_and!; try (eauto 20 with no_panic). destruct (_ && _); [done|]. destruct (is_empty text); eauto 20 with no_panic.
Qed.

(** * Properties *)

(** Every length up to the protocol maximum is encoded in one to four bytes
    that decode, whatever follows them, to the length and the number of bytes
    used; every larger length is refused. *)
Theorem varint_roundtrip v rest :
  0 <= v ->
  if v <=? 268435455
  then exists l, encode_variable_int v = Ok l /\ is_u8s l /\ 1 <= len l <= 4 /\
         decode_variable_int (l ++ rest) = Ok (Some (v, len l))
  else encode_variable_int v
       = fail ("mqtt remaining length " +:+ dec v +:+ " exceeds protocol maximum").
Proof.
  intros Hv. destruct (Z.leb_spec v 268435455) as [Hle|Hgt].
  - assert (encode_variable_int v = Ok (encode_variable_int_loop 4 v)) as He.
    { unfold encode_variable_int. by rewrite (proj2 (Z.ltb_ge _ _)). }
    eexists. split_and!; [done|by apply encode_loop_bytes|apply encode_loop_len..|].
    by apply decode_encode_variable_int.
  - unfold encode_variable_int. by rewrite (proj2 (Z.ltb_lt _ _)).
Qed.

(** Decoding any bytes ends with a packet, a request for more input or a
    host error: no index or slice of [decode_packet] is ever out of bounds. *)
Theorem decode_packet_no_panic bytes : is_u8s bytes -> no_panic (decode_packet bytes).
Proof.
  intros Hu. unfold decode_packet. destruct (Z.ltb_spec (len bytes) 2); [done|].
  destruct (index_total bytes 0) as [h ->]; [lia|]. cbn [or_panic ok_or mbind result_bind].
  rewrite slice_all by lia. cbn [or_panic ok_or mbind result_bind].
  apply no_panic_bind; [apply decode_variable_int_no_panic|]. intros [[l k]|] Hd; [|done].
  apply decode_variable_int_bounds in Hd.
  destruct (Z.ltb_spec (len bytes) (1 + k + l)); [done|].
  destruct (slice_total bytes (1 + k) (1 + k + l)) as [b Hb]; [lia..|]. rewrite Hb.
  cbn [or_panic ok_or mbind result_bind].
  apply no_panic_bind; [by eapply decode_body_no_panic, slice_u8|]. done.
Qed.

(** The decoder is incremental: once it has decided on a packet (which is
    then inside the input) or on an error, input that arrives later does not
    change the decision, so a stream can be decoded from any split into reads. *)
Theorem decode_packet_incremental bytes more :
  match decode_packet bytes with
  | Ok None => True
  | Ok (Some (_, used)) => 2 <= used <= len bytes /\ decode_packet (bytes ++ more) = decode_packet bytes
  | Err _ => decode_packet (bytes ++ more) = decode_packet bytes
  end.
Proof.
  unfold decode_packet at 1 2 4. destruct (Z.ltb_spec (len bytes) 2) as [|Hl]; [done|].
  unfold decode_packet. rewrite (proj2 (Z.ltb_ge (len bytes) 2)) by lia.
  rewrite (proj2 (Z.ltb_ge (len (bytes ++ more)) _)) by len_lia.
  destruct (index_total bytes 0) as [h Hh]; [lia|].
  rewrite Hh, (index_app_l _ more _ _ Hh). cbn [or_panic ok_or mbind result_bind].
  rewrite !slice_all by len_lia. cbn [or_panic ok_or mbind result_bind].
  change (Z.to_nat 1) with 1%nat. rewrite drop_app_le by (unfold len in Hl; lia).
  destruct (decode_variable_int (drop 1 bytes)) as [[[l k]|]|e] eqn:Hd;
    cbn [mbind result_bind]; [|done|].
  - rewrite decode_variable_int_app, Hd by by rewrite Hd. cbn [mbind result_bind].
    apply decode_variable_int_bounds in Hd.
    destruct (Z.ltb_spec (len bytes) (1 + k + l)); [done|].
    rewrite (proj2 (Z.ltb_ge (len (bytes ++ more)) _)) by len_lia.
    destruct (slice_total bytes (1 + k) (1 + k + l)) as [b Hb]; [lia..|].
    rewrite Hb, (slice_app_l _ more _ _ _ Hb). cbn [or_panic ok_or mbind result_bind].
    destruct (decode_body _ _ b); cbn; [split; [lia|done]|done].
  - by rewrite decode_variable_int_app, Hd by by rewrite Hd.
Qed.

(** C37. A PUBLISH packet the encoder produces at QoS 0 or 1, with a packet
    identifier exactly at QoS 1, is decoded by the decoder to the same topic,
    payload, QoS, retain flag and identifier, consuming exactly its bytes. *)
Theorem publish_roundtrip topic payload qos retain packet_id p rest :
  utf8_ok topic -> qos = 0 \/ qos = 1 ->
  match packet_id with Some id => qos = 1 /\ in_u16 id | None => qos = 0 end ->
  encode_publish_packet topic payload qos retain packet_id = Ok p ->
  decode_packet (p ++ rest) = Ok (Some (Publish topic payload qos retain false packet_id, len p)).
Proof.
  intros Ht Hq Hid (e & He & Hp)%bind_Ok. cbn in Hp.
  rewrite (decode_encoded_frame _ _ _ _ Hp).
  set (header := if retain then _ else _).
  assert (Z.shiftr header 4 = 3 /\ negb (Z.land (Z.land header 15) 1 =? 0) = retain /\
    Z.land (Z.shiftr (Z.land header 15) 1) 3 = qos /\ negb (Z.land (Z.land header 15) 8 =? 0) = false)
    as (H1 & H2 & H3 & H4) by (by destruct Hq as [-> | ->], retain).
  rewrite H1. cbn [decode_body]. unfold decode_publish. rewrite H2, H3, H4.
  rewrite (proj2 (Z.ltb_ge 1 qos)) by lia.
  set (pid := match packet_id with Some _ => _ | None => _ end).
  pose proof (decode_utf8_encoded [] topic e (pid ++ [0] ++ payload) "publish topic" Ht He) as Hd.
  change (len (@nil Z)) with 0 in Hd. cbn [app] in Hd. rewrite Hd. cbn [mbind result_bind].
  assert ((if 0 <? qos
           then '(id, o) ← decode_u16 (e ++ pid ++ 0 :: payload) (0 + len e) "publish packet id"; Ok (Some id, o)
           else Ok (None, 0 + len e)) = @Ok fault _ (packet_id, len (e ++ pid))) as Hpid.
  { subst pid. destruct packet_id as [id|].
    - destruct Hid as [-> Hid]. cbn [Z.ltb]. change (0 <? 1) with true. cbn iota.
      replace (0 + len e) with (len e) by lia. rewrite decode_u16_encoded by done. cbn.
      do 3 f_equal. len_lia.
    - subst qos. change (0 <? 0) with false. cbn iota. do 2 f_equal. len_lia. }
  cbn [app]. rewrite Hpid. cbn [mbind result_bind].
  rewrite app_assoc, decode_properties_zero. cbn [mbind result_bind].
  rewrite (proj2 (Z.ltb_ge _ _)) by len_lia.
  replace (len (e ++ pid) + 1 + 0) with (len ((e ++ pid) ++ [0])) by len_lia.
  replace ((e ++ pid) ++ 0 :: payload) with (((e ++ pid) ++ [0]) ++ payload) by by rewrite <-!app_assoc.
  by rewrite slice_app_end.
Qed.

(** The acknowledgements and disconnects the encoder produces decode to the
    packet identifier and the reason code they were built from. *)
Theorem ack_roundtrip packet_id reason_code reason_text p q rest :
  in_u16 packet_id -> in_u8 reason_code ->
  encode_puback_packet packet_id = Ok p ->
  encode_disconnect_packet reason_code reason_text = Ok q ->
  decode_packet (p ++ rest) = Ok (Some (PubAck packet_id 0, len p)) /\
  decode_packet (q ++ rest) = Ok (Some (Disconnect reason_code, len q)).
Proof.
  intros Hid Hr Hp Hq. split.
  - unfold encode_puback_packet in Hp. rewrite (decode_encoded_frame _ _ _ _ Hp).
    change (Z.shiftr 64 4) with 4. cbn [decode_body]. unfold decode_puback.
    pose proof (decode_u16_encoded [] packet_id ([0] ++ [0]) "puback packet id" Hid) as Hd.
    change (len (@nil Z)) with 0 in Hd. cbn [app] in Hd |- *. rewrite Hd.
    cbn -[Z.land Z.shiftr u16_to_be_bytes]. done.
  - unfold encode_disconnect_packet in Hq.
    destruct ((reason_code =? 0) && is_empty reason_text) eqn:E.
    + apply andb_true_iff in E as [Hz _]. apply Z.eqb_eq in Hz as ->. simplify_eq.
      by rewrite (decode_encoded_frame 224 [] [224; 0] rest eq_refl).
    + apply bind_Ok in Hq as (props & _ & (pl & _ & Hq)%bind_Ok).
      by rewrite (decode_encoded_frame _ _ _ _ Hq).
Qed.

(** ** Witnesses *)

Lemma varint_roundtrip_witness :
  exists l, encode_variable_int 16384 = Ok l /\ l = [128; 128; 1] /\
    decode_variable_int (l ++ [7]) = Ok (Some (16384, 3)).
Proof.
  destruct (varint_roundtrip 16384 [7] ltac:(lia)) as (l & Hl & _ & _ & Hd).
  exists l. split; [exact Hl|]. vm_compute in Hl. injection Hl as <-. done.
Defined.

Lemma decode_packet_no_panic_witness : no_panic (decode_packet [50; 3; 0; 9; 65]).
Proof. apply decode_packet_no_panic. repeat (constructor; [unfold in_u8; lia|]). constructor. Defined.

Lemma publish_roundtrip_witness :
  exists p, encode_publish_packet "a/b" [1; 2; 3] 1 true (Some 513) = Ok p /\
    decode_packet (p ++ [9]) = Ok (Some (Publish "a/b" [1; 2; 3] 1 true false (Some 513), len p)).
Proof.
  eexists. split; [vm_compute; reflexivity|].
  apply publish_roundtrip; [by vm_compute|by right|by unfold in_u16; split; [|lia]|by vm_compute].
Defined.

Lemma ack_roundtrip_witness :
  decode_packet ([64; 4; 2; 1; 0; 0] ++ []) = Ok (Some (PubAck 513 0, 6)) /\
  decode_packet ([224; 7; 4; 5; 31; 0; 2; 104; 105] ++ []) = Ok (Some (Disconnect 4, 9)).
Proof.
  apply (ack_roundtrip 513 4 "hi" [64; 4; 2; 1; 0; 0] [224; 7; 4; 5; 31; 0; 2; 104; 105] []);
    [unfold in_u16; lia|unfold in_u8; lia|by vm_compute|by vm_compute].
Defined.

End MqttCodec.
