(* ===== verification/Http2Session.v ===== *)
(** Model of the HTTP/2 upstream session of [src/abi_impl/http2/model.rs] and
    [src/abi_impl/http2/upstream.rs]: the frontiers of a session and of its
    streams, stream reservation, GOAWAY, resets and connection loss.  Each
    method takes the session's lock once, so it is one step of the state. *)

From S2P Require Import Prelude Bytes TlsFlow HttpVersions.

Module Http2Session.

Record Http2StreamRef := MkStreamRef { session_id : Z; ref_stream_id : Z }.

Inductive Http2ControlEventSource := RemotePeer | LocalRuntime | Transport.

Definition source_as_str (s : Http2ControlEventSource) : string :=
  match s with RemotePeer => "remote" | LocalRuntime => "local" | Transport => "transport" end.

(** [Http2GoawayState] and [Http2ResetState] *)
Record Http2GoawayState := MkGoaway {
  goaway_reason : option string; goaway_source : Http2ControlEventSource }.
Record Http2ResetState := MkReset {
  reset_reason : option string; reset_source : Http2ControlEventSource }.

Inductive Http2SessionGoal := GoalAttached | GoalOpen | GoalDraining.
Inductive Http2StreamGoal :=
| SGoalAttached | SGoalRequestCommitted | SGoalResponseHeadReady | SGoalResponseBodyReady
| SGoalClosed | SGoalReset.

Inductive Http2SessionFrontier :=
| Candidate | Attachable | PrefaceExchanged | PeerSettingsReceived | Open | Draining
| SClosed | Failed.
#[export] Instance Http2SessionFrontier_eq_dec : EqDecision Http2SessionFrontier.
Proof. solve_decision. Defined.

Definition session_is_terminal (f : Http2SessionFrontier) : bool :=
  match f with SClosed | Failed => true | _ => false end.

(** [{:?}] *)
Definition session_frontier_debug (f : Http2SessionFrontier) : string :=
  match f with
  | Candidate => "Candidate" | Attachable => "Attachable"
  | PrefaceExchanged => "PrefaceExchanged" | PeerSettingsReceived => "PeerSettingsReceived"
  | Open => "Open" | Draining => "Draining" | SClosed => "Closed" | Failed => "Failed"
  end.

Inductive Http2StreamFrontier :=
| Reserved | AttachedToExchange | RequestHeadersSent | RequestBodyOpen | RequestCommitted
| ResponseHeadReady | ResponseBodyReady | HalfClosedLocal | HalfClosedRemote | Closed | Reset.
#[export] Instance Http2StreamFrontier_eq_dec : EqDecision Http2StreamFrontier.
Proof. solve_decision. Defined.

Definition is_terminal (f : Http2StreamFrontier) : bool :=
  match f with Closed | Reset => true | _ => false end.

Record Http2UpstreamStreamState := MkStream {
  stream_id : Z;
  exchange_handle : Z;
  frontier : Http2StreamFrontier;
  reset : option Http2ResetState;
}.
#[export] Instance eta_stream : Eta Http2UpstreamStreamState := fun s =>
  MkStream s.(stream_id) s.(exchange_handle) s.(frontier) s.(reset).

Record Http2UpstreamSessionDagState := MkDag {
  session_frontier : Http2SessionFrontier;
  goaway : option Http2GoawayState;
  streams : gmap Z Http2UpstreamStreamState;
  next_local_stream_id : Z;
}.
#[export] Instance eta_dag : Eta Http2UpstreamSessionDagState := fun d =>
  MkDag d.(session_frontier) d.(goaway) d.(streams) d.(next_local_stream_id).

Inductive Http2RequestError :=
| FallbackToHttp1 (negotiated_alpn : option string)
| TransportError (message : string).

Definition into_message (e : Http2RequestError) : string :=
  match e with
  | FallbackToHttp1 alpn =>
      "http2 request fell back to http/1.1 after negotiating "
      +:+ match alpn with Some a => a | None => "no ALPN" end
  | TransportError message => message
  end.

(** ** The session's operations *)

Definition advance_session_goal (goal : Http2SessionGoal) (d : Http2UpstreamSessionDagState)
    : Http2UpstreamSessionDagState :=
  match goal with
  | GoalAttached =>
      if decide (d.(session_frontier) = Candidate) then d <| session_frontier := Attachable |> else d
  | GoalOpen =>
      let d := if decide (d.(session_frontier) = Candidate)
               then d <| session_frontier := Attachable |> else d in
      let d := if decide (d.(session_frontier) = Attachable)
               then d <| session_frontier := PrefaceExchanged |> else d in
      let d := if decide (d.(session_frontier) = PrefaceExchanged)
               then d <| session_frontier := PeerSettingsReceived |> else d in
      if decide (d.(session_frontier) = PeerSettingsReceived)
      then d <| session_frontier := Open |> else d
  | GoalDraining =>
      if session_is_terminal d.(session_frontier) then d
      else d <| session_frontier := Draining |>
  end.

Definition can_accept_new_streams (d : Http2UpstreamSessionDagState) : bool :=
  bool_decide (d.(session_frontier) = Open) && negb (bool_decide (is_Some d.(goaway))).

Definition has_active_streams (d : Http2UpstreamSessionDagState) : bool :=
  existsb (fun kv => negb (is_terminal kv.2.(frontier))) (map_to_list d.(streams)).

Definition retain_active (m : gmap Z Http2UpstreamStreamState) : gmap Z Http2UpstreamStreamState :=
  filter (fun kv => is_terminal kv.2.(frontier) = false) m.

Definition prune_terminal_streams (d : Http2UpstreamSessionDagState) : Http2UpstreamSessionDagState :=
  let d := d <| streams := retain_active d.(streams) |> in
  if decide (d.(session_frontier) = Draining) then
    if has_active_streams d then d else d <| session_frontier := SClosed |>
  else d.

Definition advance_frontier (goal : Http2StreamGoal) (f : Http2StreamFrontier) : Http2StreamFrontier :=
  let attach f := if decide (f = Reserved) then AttachedToExchange else f in
  let send f := if decide (f = AttachedToExchange) then RequestHeadersSent else f in
  let head f := match f with
                | RequestHeadersSent | RequestCommitted | HalfClosedLocal => ResponseHeadReady
                | _ => f
                end in
  match goal with
  | SGoalAttached => attach f
  | SGoalRequestCommitted =>
      let f := send (attach f) in
      if decide (f = RequestHeadersSent) then RequestCommitted else f
  | SGoalResponseHeadReady => head (send (attach f))
  | SGoalResponseBodyReady =>
      let f := head (send (attach f)) in
      if decide (f = ResponseHeadReady) then ResponseBodyReady else f
  | SGoalClosed => Closed
  | SGoalReset => Reset
  end.

Definition advance_stream_goal (id : Z) (goal : Http2StreamGoal) (d : Http2UpstreamSessionDagState)
    : Http2UpstreamSessionDagState :=
  d <| streams := alter (fun s => s <| frontier := advance_frontier goal s.(frontier) |>) id d.(streams) |>.

Definition reserve_stream (sid handle : Z) (d : Http2UpstreamSessionDagState)
    : result Http2RequestError Http2StreamRef * Http2UpstreamSessionDagState :=
  if negb (can_accept_new_streams d) then
    (Err (TransportError
       match d.(goaway) with
       | Some g => "http2 session is draining after GOAWAY from " +:+ source_as_str g.(goaway_source)
                   +:+ " (" +:+ match g.(goaway_reason) with Some r => r | None => "no reason" end +:+ ")"
       | None => "http2 session is not open for new streams (frontier="
                 +:+ session_frontier_debug d.(session_frontier) +:+ ")"
       end), d)
  else
    let d := prune_terminal_streams d in
    let id := d.(next_local_stream_id) in
    let d := d <| next_local_stream_id := saturating_add_u64 id 2 |> in
    let d := d <| streams := <[id := MkStream id handle Reserved None]> d.(streams) |> in
    let d := advance_stream_goal id SGoalAttached d in
    (Ok (MkStreamRef sid id), d).

Definition mark_stream_request_committed (id : Z) (body_present : bool)
    (d : Http2UpstreamSessionDagState) : Http2UpstreamSessionDagState :=
  let d := advance_stream_goal id SGoalRequestCommitted d in
  d <| streams := alter (fun s =>
         let s := if body_present then s <| frontier := RequestBodyOpen |> else s in
         s <| frontier := HalfClosedLocal |>) id d.(streams) |>.

(** The lock-taking [Http2UpstreamSession] wrappers of the same names prune
    after a close or a reset. *)
Definition mark_stream_response_head_ready (id : Z) := advance_stream_goal id SGoalResponseHeadReady.
Definition mark_stream_response_body_ready (id : Z) := advance_stream_goal id SGoalResponseBodyReady.
Definition mark_stream_closed (id : Z) (d : Http2UpstreamSessionDagState) :=
  prune_terminal_streams (advance_stream_goal id SGoalClosed d).

Definition dag_mark_stream_reset (id : Z) (reason : option string) (source : Http2ControlEventSource)
    (d : Http2UpstreamSessionDagState) : Http2UpstreamSessionDagState :=
  let d := d <| streams := alter (fun s => s <| reset := Some (MkReset reason source) |>) id d.(streams) |> in
  advance_stream_goal id SGoalReset d.
Definition mark_stream_reset (id : Z) (reason : option string) (source : Http2ControlEventSource)
    (d : Http2UpstreamSessionDagState) : Http2UpstreamSessionDagState :=
  prune_terminal_streams (dag_mark_stream_reset id reason source d).

Definition mark_goaway (reason : option string) (source : Http2ControlEventSource)
    (d : Http2UpstreamSessionDagState) : Http2UpstreamSessionDagState :=
  let d := d <| goaway := Some (MkGoaway reason source) |> in
  let d := advance_session_goal GoalDraining d in
  if has_active_streams d then d else d <| session_frontier := SClosed |>.

Definition mark_connection_failed (reason : option string) (d : Http2UpstreamSessionDagState)
    : Http2UpstreamSessionDagState :=
  d <| session_frontier := Failed |>
    <| streams := (fun s => if is_terminal s.(frontier) then s
                            else s <| reset := Some (MkReset reason Transport) |>
                                   <| frontier := Reset |>) <$> d.(streams) |>.

Definition mark_connection_closed (d : Http2UpstreamSessionDagState) : Http2UpstreamSessionDagState :=
  if negb (has_active_streams d) then d <| session_frontier := SClosed |>
  else mark_connection_failed (Some "http2 connection closed while streams remained active") d.

(** The state [Http2UpstreamSession::new] builds. *)
Definition new : Http2UpstreamSessionDagState :=
  let d := MkDag Candidate None ∅ 1 in
  let d := advance_session_goal GoalAttached d in
  let d := d <| session_frontier := PrefaceExchanged |> in
  let d := d <| session_frontier := PeerSettingsReceived |> in
  advance_session_goal GoalOpen d.

Definition is_reusable (d : Http2UpstreamSessionDagState) : bool := can_accept_new_streams d.

(** ** Errors observed on the connection *)

Record Http2ObservedError := MkObserved {
  message : string;
  observed_reset : option Http2ResetState;
  observed_goaway : option Http2GoawayState;
}.

Definition apply_session_error (o : Http2ObservedError) (d : Http2UpstreamSessionDagState)
    : Http2UpstreamSessionDagState :=
  let d := match o.(observed_goaway) with
           | Some g => mark_goaway g.(goaway_reason) g.(goaway_source) d
           | None => d
           end in
  match o.(observed_reset), o.(observed_goaway) with
  | None, None => mark_connection_failed (Some o.(message)) d
  | _, _ => d
  end.

Definition apply_stream_error (id : Z) (o : Http2ObservedError) (d : Http2UpstreamSessionDagState)
    : Http2UpstreamSessionDagState :=
  let d := match o.(observed_reset) with
           | Some r => mark_stream_reset id r.(reset_reason) r.(reset_source) d
           | None => d
           end in
  let d := match o.(observed_goaway) with
           | Some g => mark_goaway g.(goaway_reason) g.(goaway_source) d
           | None => d
           end in
  match o.(observed_reset), o.(observed_goaway) with
  | None, None => mark_connection_failed (Some o.(message)) d
  | _, _ => d
  end.

(** [Http2ResponseBodyTracker::note_body_error], the same three cases. *)
Definition note_body_error (id : Z) (o : Http2ObservedError) (d : Http2UpstreamSessionDagState)
    : Http2UpstreamSessionDagState := apply_stream_error id o d.

(** The end of the connection task of [spawn_http2_connection]: [None] for a
    clean end, otherwise the classified error. *)
Definition connection_done (o : option Http2ObservedError) (d : Http2UpstreamSessionDagState)
    : Http2UpstreamSessionDagState :=
  match o with
  | None => mark_connection_closed d
  | Some o =>
      match o.(observed_goaway) with
      | Some g => mark_connection_closed (mark_goaway g.(goaway_reason) g.(goaway_source) d)
      | None => mark_connection_failed (Some o.(message)) d
      end
  end.

(** The calls other tasks make on a session, each under its lock. *)
Inductive session_step : Http2UpstreamSessionDagState -> Http2UpstreamSessionDagState -> Prop :=
| st_reserve sid h d : session_step d (reserve_stream sid h d).2
| st_committed id b d : session_step d (mark_stream_request_committed id b d)
| st_head id d : session_step d (mark_stream_response_head_ready id d)
| st_body id d : session_step d (mark_stream_response_body_ready id d)
| st_closed id d : session_step d (mark_stream_closed id d)
| st_reset id r s d : session_step d (mark_stream_reset id r s d)
| st_goaway r s d : session_step d (mark_goaway r s d)
| st_conn_closed d : session_step d (mark_connection_closed d)
| st_conn_failed r d : session_step d (mark_connection_failed r d).

(** ** Invariant *)

Definition active (d : Http2UpstreamSessionDagState) : Prop :=
  exists id s, streams d !! id = Some s /\ is_terminal (frontier s) = false.

Lemma has_active_spec d : has_active_streams d = true <-> active d.
Proof.
  unfold has_active_streams, active. rewrite existsb_exists. split.
  - intros ([id s] & Hin & Hs). exists id, s. split; [|by apply negb_true_iff].
    by apply elem_of_map_to_list, list_elem_of_In.
  - intros (id & s & Hs & Ht). exists (id, s). cbn. rewrite Ht. split; [|done].
    by apply list_elem_of_In, elem_of_map_to_list.
Qed.

Lemma has_active_false d : has_active_streams d = false <-> ~ active d.
Proof. rewrite <-has_active_spec. by destruct (has_active_streams d). Qed.

Record dag_inv (d : Http2UpstreamSessionDagState) : Prop := {
  inv_frontier : session_frontier d ∈ [Open; Draining; SClosed; Failed];
  inv_goaway : is_Some (goaway d) -> session_frontier d ≠ Open;
  inv_draining : session_frontier d = Draining -> is_Some (goaway d) /\ active d;
  inv_next : Z.odd (next_local_stream_id d) = true /\ 1 <= next_local_stream_id d <= U64_MAX;
  inv_stream : forall id s, streams d !! id = Some s ->
    stream_id s = id /\ Z.odd id = true /\ 1 <= id
    /\ (id < next_local_stream_id d \/ next_local_stream_id d = U64_MAX);
}.

(** A step that only touches the streams' frontiers and resets, and leaves
    some stream active where one was. *)
Definition same_ids (m m' : gmap Z Http2UpstreamStreamState) : Prop :=
  forall id s', m' !! id = Some s' -> exists s, m !! id = Some s /\ stream_id s' = stream_id s.

Lemma same_ids_inv d d' :
  dag_inv d -> same_ids (streams d) (streams d') ->
  next_local_stream_id d' = next_local_stream_id d ->
  session_frontier d' ∈ [Open; Draining; SClosed; Failed] ->
  (is_Some (goaway d') -> session_frontier d' ≠ Open) ->
  (session_frontier d' = Draining -> is_Some (goaway d') /\ active d') ->
  dag_inv d'.
Proof.
  intros [_ _ _ Hn Hs] Hids Hnext ???. split; rewrite ?Hnext; auto.
  intros id s' Hs'. destruct (Hids _ _ Hs') as (s & Hl & ->). by apply Hs.
Qed.

Lemma same_ids_alter f id m :
  (forall s, stream_id (f s) = stream_id s) -> same_ids m (alter f id m).
Proof.
  intros Hf j s'. rewrite lookup_alter_Some.
  intros [(-> & s & Hs & ->)|[_ Hs]]; [by exists s|by exists s'].
Qed.
Lemma same_ids_retain m : same_ids m (retain_active m).
Proof. intros j s' [Hs _]%map_lookup_filter_Some. by exists s'. Qed.
Lemma same_ids_fmap (f : Http2UpstreamStreamState -> Http2UpstreamStreamState) m :
  (forall s, stream_id (f s) = stream_id s) -> same_ids m (f <$> m).
Proof. intros Hf j s'. rewrite lookup_fmap_Some. intros (s & <- & Hs). by exists s. Qed.
Lemma same_ids_trans m1 m2 m3 : same_ids m1 m2 -> same_ids m2 m3 -> same_ids m1 m3.
Proof.
  intros H1 H2 j s Hs. destruct (H2 _ _ Hs) as (s2 & Hs2 & ->).
  destruct (H1 _ _ Hs2) as (s1 & Hs1 & ->). by exists s1.
Qed.
Lemma same_ids_refl m : same_ids m m.
Proof. intros j s Hs. by exists s. Qed.

Create HintDb ids.
#[local] Hint Resolve same_ids_alter same_ids_retain same_ids_fmap same_ids_refl : ids.

Lemma retain_active_lookup m id s :
  retain_active m !! id = Some s <-> m !! id = Some s /\ is_terminal (frontier s) = false.
Proof. unfold retain_active. by rewrite map_lookup_filter_Some. Qed.

Lemma prune_inv d d' :
  dag_inv d -> same_ids (streams d) (streams d') ->
  session_frontier d' = session_frontier d -> goaway d' = goaway d ->
  next_local_stream_id d' = next_local_stream_id d ->
  dag_inv (prune_terminal_streams d').
Proof.
  intros Hinv Hids Hf Hg Hn. pose proof Hinv as [Hfr Hgo Hdr _ _].
  unfold prune_terminal_streams. rewrite <-Hf, <-Hg in *.
  assert (Hids' : same_ids (streams d) (retain_active (streams d')))
    by eauto using same_ids_trans with ids.
  cbn [set_field session_frontier].
  case_decide as Hd; [case_match eqn:Ha|]; (eapply same_ids_inv; [exact Hinv| |..]; cbn; auto).
  - intros _. split; [by apply Hdr|by apply has_active_spec].
  - set_solver.
  - done.
  - by intros ?%Hd.
Qed.

Lemma advance_frontier_active goal f :
  goal ∉ [SGoalClosed; SGoalReset] -> is_terminal f = false -> is_terminal (advance_frontier goal f) = false.
Proof. destruct goal, f; cbn; set_solver. Qed.

(** Altering one stream while keeping an active one active. *)
Lemma alter_active f id d :
  (forall s, is_terminal (frontier s) = false -> is_terminal (frontier (f s)) = false) ->
  active d -> active (d <| streams := alter f id d.(streams) |>).
Proof.
  intros Hf (j & s & Hs & Ht). destruct (decide (id = j)) as [->|].
  - exists j, (f s). cbn. by rewrite lookup_alter_eq, Hs; auto.
  - exists j, s. cbn. by rewrite lookup_alter_ne.
Qed.

Lemma alter_inv f id d :
  (forall s, stream_id (f s) = stream_id s) ->
  (forall s, is_terminal (frontier s) = false -> is_terminal (frontier (f s)) = false) ->
  dag_inv d -> dag_inv (d <| streams := alter f id d.(streams) |>).
Proof.
  intros Hid Hf Hinv. pose proof Hinv as [Hfr Hgo Hdr _ _].
  eapply same_ids_inv; [exact Hinv|cbn; auto with ids..]. cbn. auto.
  intros [? ?]%Hdr. split; [done|]. by apply alter_active.
Qed.

Lemma advance_stream_inv goal id d :
  goal ∉ [SGoalClosed; SGoalReset] -> dag_inv d -> dag_inv (advance_stream_goal id goal d).
Proof. intros Hg. apply alter_inv; [done|]. intros s Hs. by apply advance_frontier_active. Qed.

Lemma mark_connection_failed_inv r d : dag_inv d -> dag_inv (mark_connection_failed r d).
Proof.
  intros Hinv. eapply same_ids_inv; [exact Hinv|..]; cbn; [|done|set_solver|done|done].
  apply same_ids_fmap. intros s. by case_match.
Qed.

Lemma close_inv d d' :
  dag_inv d -> streams d' = streams d -> next_local_stream_id d' = next_local_stream_id d ->
  session_frontier d' = SClosed -> dag_inv d'.
Proof.
  intros Hinv Hs Hn Hf. eapply same_ids_inv; [exact Hinv|..]; rewrite ?Hs, ?Hf; auto with ids.
  - set_solver.
  - done.
Qed.

Lemma mark_goaway_inv r s d : dag_inv d -> dag_inv (mark_goaway r s d).
Proof.
  intros Hinv. unfold mark_goaway, advance_session_goal. cbn zeta.
  cbn [set_field session_frontier].
  destruct (has_active_streams _) eqn:Ha; [|by eapply close_inv; [exact Hinv|..]; case_match].
  apply has_active_spec in Ha.
  pose proof Hinv as [Hfr _ _ _ _]. revert Ha.
  destruct (session_frontier d) eqn:Hf; cbn; intros Ha;
    (eapply same_ids_inv; [exact Hinv|cbn; rewrite ?Hf; auto with ids; try set_solver..]).
Qed.

Lemma mark_connection_closed_inv d : dag_inv d -> dag_inv (mark_connection_closed d).
Proof.
  intros Hinv. unfold mark_connection_closed.
  destruct (has_active_streams d); cbn [negb]; [by apply mark_connection_failed_inv|].
  by eapply close_inv.
Qed.

Lemma can_accept_spec d :
  can_accept_new_streams d = true <-> session_frontier d = Open /\ goaway d = None.
Proof.
  unfold can_accept_new_streams. rewrite andb_true_iff, bool_decide_eq_true, negb_true_iff,
    bool_decide_eq_false, <-eq_None_not_Some. reflexivity.
Qed.

Lemma prune_open d :
  session_frontier d = Open -> prune_terminal_streams d = d <| streams := retain_active d.(streams) |>.
Proof. intros Hf. unfold prune_terminal_streams. cbn. rewrite Hf. by rewrite decide_False. Qed.

Lemma reserve_inv sid h d : dag_inv d -> dag_inv (reserve_stream sid h d).2.
Proof.
  intros Hinv. unfold reserve_stream. destruct (can_accept_new_streams d) eqn:Hc; [|done].
  apply can_accept_spec in Hc as [Hf Hg]. cbn [negb snd].
  apply advance_stream_inv; [set_solver|].
  assert (Hp : dag_inv (prune_terminal_streams d)) by by eapply prune_inv; auto with ids.
  revert Hp. rewrite prune_open by done.
  intros [_ _ _ [Hodd Hn] Hs]; cbn in *.
  split; cbn; rewrite ?Hf, ?Hg; [set_solver|by intros [? [=]]|done|..].
  - unfold saturating_add_u64, U64_MAX in *. split; [|lia].
    destruct (Z.min_spec (next_local_stream_id d + 2) 18446744073709551615) as [[_ ->]|[_ ->]]; [|done].
    by rewrite Z.odd_add, Hodd.
  - intros id s. unfold saturating_add_u64, U64_MAX in *. rewrite lookup_insert_Some.
    intros [[<- <-]|[Hne Hl]]; cbn; [split_and!; auto; lia|].
    destruct (Hs id s Hl) as (? & ? & ? & ?). split_and!; auto; lia.
Qed.

Lemma session_step_inv d d' : session_step d d' -> dag_inv d -> dag_inv d'.
Proof.
  intros Hs Hinv. revert Hinv. destruct Hs; intros Hinv.
  - by apply reserve_inv.
  - unfold mark_stream_request_committed.
    apply (alter_inv (fun s => (if b then s <| frontier := RequestBodyOpen |> else s)
                                 <| frontier := HalfClosedLocal |>));
      [by destruct b|by destruct b|]. apply advance_stream_inv; [set_solver|done].
  - apply advance_stream_inv; [set_solver|done].
  - apply advance_stream_inv; [set_solver|done].
  - eapply prune_inv; [exact Hinv|by apply same_ids_alter|done..].
  - eapply prune_inv; [exact Hinv| |done..]. cbn.
    eapply same_ids_trans; by apply same_ids_alter.
  - by apply mark_goaway_inv.
  - by apply mark_connection_closed_inv.
  - by apply mark_connection_failed_inv.
Qed.

Lemma new_inv : dag_inv new.
Proof.
  assert (Hnew : new = MkDag Open None ∅ 1) by reflexivity. rewrite Hnew.
  split; cbn; [set_solver|by intros [? [=]]|done|done|by intros ?? ?%lookup_empty_Some].
Qed.

Lemma reachable_inv d : rtc session_step new d -> dag_inv d.
Proof.
  generalize new_inv. generalize new. intros d0 Hinv Hs.
  induction Hs; eauto using session_step_inv.
Qed.

(** Whatever tasks call on an HTTP/2 upstream session, it is open,
    draining, closed or failed; after a GOAWAY it is not open; a draining
    session has received a GOAWAY and still has an active stream (so it closes
    with the last one); the next stream identifier stays odd and in u64, and
    every recorded stream sits under its own odd identifier below it. *)
Theorem http2_session_reachable_invariant d : rtc session_step new d -> dag_inv d.
Proof. apply reachable_inv. Qed.

(** How far a session has advanced. *)
Definition session_rank (f : Http2SessionFrontier) : Z :=
  match f with
  | Candidate => 0 | Attachable => 1 | PrefaceExchanged => 2 | PeerSettingsReceived => 3
  | Open => 4 | Draining => 5 | SClosed | Failed => 6
  end.

Lemma prune_rank d :
  session_rank (session_frontier d) <= session_rank (session_frontier (prune_terminal_streams d)).
Proof. unfold prune_terminal_streams. cbn. case_decide as Hd; [case_match|]; cbn; rewrite ?Hd; cbn; lia. Qed.

Lemma session_rank_max f : session_rank f <= 6.
Proof. destruct f; cbn; lia. Qed.

Lemma mark_goaway_spec r s d :
  mark_goaway r s d =
  MkDag (if has_active_streams d
         then (if session_is_terminal (session_frontier d) then session_frontier d else Draining)
         else SClosed) (Some (MkGoaway r s)) (streams d) (next_local_stream_id d).
Proof.
  unfold mark_goaway, advance_session_goal. cbn.
  destruct d as [f g m n]; cbn. unfold has_active_streams.
  destruct f; cbn; by destruct (existsb _ _).
Qed.

Lemma session_step_rank d d' :
  session_step d d' -> session_rank (session_frontier d) <= session_rank (session_frontier d').
Proof.
  destruct 1; try (cbn; lia); try (etrans; [|apply prune_rank]; cbn; lia).
  - unfold reserve_stream. destruct (can_accept_new_streams d); cbn -[prune_terminal_streams]; [|lia].
    apply prune_rank.
  - rewrite mark_goaway_spec. cbn. case_match; [|apply session_rank_max].
    destruct (session_frontier d); cbn; lia.
  - unfold mark_connection_closed. case_match; cbn; apply session_rank_max.
  - cbn. apply session_rank_max.
Qed.

Lemma session_steps_rank d d' :
  rtc session_step d d' -> session_rank (session_frontier d) <= session_rank (session_frontier d').
Proof.
  induction 1 as [|x y z Hxy _ IH]; [lia|]. pose proof (session_step_rank _ _ Hxy). lia.
Qed.

(** A session never reopens: its frontier only advances, and after a
    GOAWAY, a connection loss or a close no later reservation ever succeeds
    and the session is never picked for reuse. *)
Theorem http2_session_never_reopens d d' :
  rtc session_step new d -> rtc session_step d d' ->
  session_rank (session_frontier d) <= session_rank (session_frontier d')
  /\ (session_frontier d ≠ Open \/ is_Some (goaway d) ->
      is_reusable d' = false
      /\ forall sid h, is_Ok (reserve_stream sid h d').1 = false /\ (reserve_stream sid h d').2 = d').
Proof.
  intros Hr Hs. pose proof (session_steps_rank _ _ Hs) as Hrank. split; [done|].
  intros Hno. assert (Hc : can_accept_new_streams d' = false).
  { apply not_true_iff_false. rewrite can_accept_spec. intros [Hf _].
    pose proof (reachable_inv _ Hr) as [Hfr Hgo _ _ _].
    assert (session_frontier d ≠ Open) as Hne by (destruct Hno; auto).
    rewrite Hf in Hrank. set_unfold in Hfr.
    destruct (session_frontier d); cbn in Hrank; (lia || naive_solver). }
  split; [done|]. intros sid h. unfold reserve_stream. by rewrite Hc.
Qed.

(** A reservation on an open session takes a fresh odd identifier (while
    identifiers last), attaches the new stream to the exchange, leaves every
    other live stream as it was and drops the finished ones; later
    reservations get larger identifiers. *)
Theorem http2_reserve_stream_spec sid h d :
  rtc session_step new d -> is_reusable d = true -> next_local_stream_id d < U64_MAX ->
  let id := next_local_stream_id d in
  let d' := (reserve_stream sid h d).2 in
  (reserve_stream sid h d).1 = Ok (MkStreamRef sid id)
  /\ streams d !! id = None /\ Z.odd id = true
  /\ streams d' = <[id := MkStream id h AttachedToExchange None]> (retain_active (streams d))
  /\ id < next_local_stream_id d' /\ session_frontier d' = Open.
Proof.
  intros Hr Hc Hn. cbn zeta. pose proof (reachable_inv _ Hr) as [_ _ _ [Hodd Hb] Hs].
  unfold is_reusable in Hc. unfold reserve_stream. rewrite Hc. cbn [negb].
  apply can_accept_spec in Hc as [Hf Hg].
  rewrite prune_open by done. cbn. rewrite Hf.
  split_and!; [done| |done| |unfold saturating_add_u64, U64_MAX in *; lia|done].
  - destruct (streams d !! _) as [s|] eqn:Hl; [|done]. destruct (Hs _ _ Hl) as (? & ? & ? & [?|?]); lia.
  - by rewrite alter_insert_eq.
Qed.

(** GOAWAY drains and no more: it leaves every stream as it is, the
    session is then closed exactly when no stream is active, and whatever
    happens later, it is closed or failed as soon as no stream is active. *)
Theorem http2_goaway_drains r s d :
  rtc session_step new d ->
  let d1 := mark_goaway r s d in
  streams d1 = streams d /\ goaway d1 = Some (MkGoaway r s)
  /\ (session_frontier d = Open ->
      session_frontier d1 = (if has_active_streams d then Draining else SClosed))
  /\ forall d2, rtc session_step d1 d2 -> has_active_streams d2 = false ->
       session_is_terminal (session_frontier d2) = true.
Proof.
  intros Hr. cbn zeta. split_and!;
    [by rewrite mark_goaway_spec..|by rewrite mark_goaway_spec; cbn; intros ->|].
  intros d2 Hs Ha. assert (Hd1 : rtc session_step new (mark_goaway r s d))
    by (eapply rtc_r; [exact Hr|constructor]).
  pose proof (reachable_inv _ (transitivity (R:=rtc session_step) Hd1 Hs)) as [Hfr _ Hdr _ _].
  pose proof (reachable_inv _ Hd1) as [Hfr1 Hgo1 _ _ _].
  assert (session_frontier (mark_goaway r s d) ≠ Open) as Hno by (apply Hgo1; by rewrite mark_goaway_spec).
  pose proof (session_steps_rank _ _ Hs) as Hrank. apply has_active_false in Ha.
  set_unfold in Hfr. set_unfold in Hfr1.
  destruct (session_frontier d2); try done; [..|naive_solver];
    destruct (session_frontier (mark_goaway r s d)); cbn in Hrank; (lia || naive_solver).
Qed.

(** How far a stream has advanced on the request's side of the code. *)
Definition stream_rank (f : Http2StreamFrontier) : Z :=
  match f with
  | Reserved => 0 | AttachedToExchange => 1 | RequestHeadersSent => 2 | RequestBodyOpen => 2
  | RequestCommitted => 3 | HalfClosedLocal => 3 | ResponseHeadReady => 4
  | ResponseBodyReady => 5 | HalfClosedRemote => 6 | Closed => 7 | Reset => 7
  end.

Definition goal_rank (g : Http2StreamGoal) : Z :=
  match g with
  | SGoalAttached => 1 | SGoalRequestCommitted => 3 | SGoalResponseHeadReady => 4
  | SGoalResponseBodyReady => 5 | SGoalClosed => 7 | SGoalReset => 7
  end.

(** Advancing a stream towards a goal never moves it back, reaches the
    goal from every earlier frontier the code leaves between its steps,
    changes nothing for other streams and is idempotent. *)
Theorem http2_stream_goal_reached id goal d s :
  streams d !! id = Some s ->
  frontier s ≠ RequestBodyOpen -> frontier s ≠ HalfClosedRemote ->
  exists s', streams (advance_stream_goal id goal d) !! id = Some s'
    /\ stream_rank (frontier s) <= stream_rank (frontier s')
    /\ goal_rank goal <= stream_rank (frontier s')
    /\ (forall j, j ≠ id -> streams (advance_stream_goal id goal d) !! j = streams d !! j)
    /\ advance_stream_goal id goal (advance_stream_goal id goal d) = advance_stream_goal id goal d.
Proof.
  intros Hs Hb Hr. eexists. cbn. rewrite lookup_alter_eq, Hs. split; [done|]. cbn.
  split_and!.
  - destruct s as [i h f x], goal, f; by vm_compute.
  - destruct s as [i h f x], goal, f; cbn in Hb, Hr; (congruence || by vm_compute).
  - intros j Hj. by rewrite lookup_alter_ne.
  - unfold advance_stream_goal. cbn. unfold set_field, eta_dag. cbn. f_equal.
    apply alter_idemp. intros [i h f r]. by destruct goal, f.
Qed.

(** A response that arrives while its connection is lost revives the
    reset stream: from a reachable session, after the connection failure reset
    stream 1, [mark_stream_request_committed] makes it half-closed and active
    again, with the reset still recorded and the session still failed. *)
Theorem http2_committed_revives_reset :
  let d := mark_connection_failed (Some "lost") (reserve_stream 7 1 new).2 in
  let d' := mark_stream_request_committed 1 false d in
  rtc session_step new d
  /\ frontier <$> streams d !! 1 = Some Reset /\ has_active_streams d = false
  /\ frontier <$> streams d' !! 1 = Some HalfClosedLocal /\ has_active_streams d' = true
  /\ (streams d' !! 1 ≫= reset) = Some (MkReset (Some "lost") Transport)
  /\ session_frontier d' = Failed.
Proof.
  cbn zeta. split; [|by vm_compute].
  eapply rtc_l; [apply (st_reserve 7 1)|]. eapply rtc_l; [apply st_conn_failed|]. apply rtc_refl.
Qed.

(** ** Witnesses *)

Definition opened : Http2UpstreamSessionDagState := (reserve_stream 7 1 new).2.
Lemma opened_reachable : rtc session_step new opened.
Proof. eapply rtc_l; [apply (st_reserve 7 1)|apply rtc_refl]. Qed.

Lemma http2_session_reachable_invariant_witness : dag_inv opened.
Proof. apply http2_session_reachable_invariant, opened_reachable. Defined.

Lemma http2_session_never_reopens_witness :
  is_reusable (mark_goaway None RemotePeer opened) = false.
Proof.
  refine (proj1 (proj2 (http2_session_never_reopens (mark_goaway None RemotePeer opened) _ _ _) _)).
  - eapply rtc_r; [apply opened_reachable|constructor].
  - apply rtc_refl.
  - left. by vm_compute.
Defined.

Lemma http2_reserve_stream_spec_witness : (reserve_stream 7 2 opened).1 = Ok (MkStreamRef 7 3).
Proof.
  exact (proj1 (http2_reserve_stream_spec 7 2 opened opened_reachable eq_refl eq_refl)).
Defined.

Lemma http2_goaway_drains_witness :
  session_frontier (mark_goaway None RemotePeer opened) = Draining.
Proof.
  exact (proj1 (proj2 (proj2 (http2_goaway_drains None RemotePeer opened opened_reachable))) eq_refl).
Defined.

Lemma http2_stream_goal_reached_witness :
  exists s', streams (advance_stream_goal 1 SGoalResponseBodyReady opened) !! 1 = Some s'
    /\ 5 <= stream_rank (frontier s').
Proof.
  destruct (http2_stream_goal_reached 1 SGoalResponseBodyReady opened
              (MkStream 1 1 AttachedToExchange None)) as (s' & Hs & _ & Hg & _); [by vm_compute|done..|].
  by exists s'.
Defined.

End Http2Session.
