(* ===== verification/Http2Pool.v ===== *)
(** Model of how [src/abi_impl/http2/upstream.rs] shares one session per key:
    the entry with its single-flight opening ([Http2SessionEntry],
    [acquire_or_open_session]) as a step relation over concurrent requests, and
    the pure decisions of a request: the session key, the TLS versions and ALPN
    offered, the fallback to HTTP/1.1.  Connecting is outside the program; a
    step is told whether it succeeded. *)

From S2P Require Import Prelude Bytes TlsFlow HttpVersions.

Module Http2Client.
Import TlsFlow HttpVersion.

Record Http2SessionKey := MkSessionKey {
  origin : string;
  mode : Http2UpstreamMode;
  tls_key : option TlsSessionCacheKey;
}.

Section key.
Context (authority_host : string -> option string) (hash_pem : string -> Z).

Definition session_key (sch : HttpUpstreamScheme) (host : string) (port : Z)
    (m : Http2UpstreamMode) (flow : TlsFlowState) : option Http2SessionKey :=
  o ← session_origin sch host port;
  Some {| origin := o; mode := m;
          tls_key := if present flow
                     then tls_session_cache_key authority_host hash_pem (scheme_as_str sch) host port flow
                     else None |}.
End key.

Definition format_upstream_authority (host : string) (port : Z) : string :=
  if contains 58 host && negb (bool_decide (head (bytes_of_string host) = Some 91))
  then "[" +:+ host +:+ "]:" +:+ dec port
  else host +:+ ":" +:+ dec port.

(** The path and query of [build_http2_request]. *)
Definition path_and_query (path query : string) : string :=
  let path := if is_empty path then "/" else path in
  if is_empty query then path else path +:+ "?" +:+ query.

Definition can_fallback_to_http11 (flow : TlsFlowState) : bool :=
  bool_decide (desired_alpn flow = []) || offers HTTP11_ALPN_PROTOCOL (desired_alpn flow).

Definition alpn_protocols_for_mode (flow : TlsFlowState) : list (list Z) :=
  match desired_alpn flow with
  | [] => [bytes_of_string HTTP2_ALPN_PROTOCOL; bytes_of_string HTTP11_ALPN_PROTOCOL]
  | l => bytes_of_string <$> l
  end.

(** The derived order of [TlsProtocolVersion]. *)
Definition version_rank (v : TlsProtocolVersion) : Z :=
  match v with Tls1_0 => 0 | Tls1_1 => 1 | Tls1_2 => 2 | Tls1_3 => 3 end.

Definition is_legacy (v : option TlsProtocolVersion) : bool :=
  match v with Some Tls1_0 | Some Tls1_1 => true | _ => false end.

Definition protocol_versions_for_http2 (flow : TlsFlowState) : result string (list TlsProtocolVersion) :=
  if is_legacy (min_version flow) || is_legacy (max_version flow)
  then Err "http2 over TLS requires TLS 1.2 or newer"
  else
    let min := match min_version flow with Some v => v | None => Tls1_2 end in
    let max := match max_version flow with Some v => v | None => Tls1_3 end in
    if version_rank max <? version_rank min
    then Err "http2 TLS min version cannot be greater than max version"
    else
      let offer v := if (version_rank min <=? version_rank v) && (version_rank v <=? version_rank max)
                     then [v] else [] in
      match offer Tls1_2 ++ offer Tls1_3 with
      | [] => Err "http2 TLS version constraints left no supported protocol versions"
      | versions => Ok versions
      end.

(** The TLS versions offered for HTTP/2 are exactly TLS 1.2 and 1.3 within
    the flow's bounds, in order, and never none; the offer fails exactly when
    a bound is older than TLS 1.2 or the bounds are crossed. *)
Theorem http2_protocol_versions flow :
  let within v :=
    (forall lo, min_version flow = Some lo -> version_rank lo <= version_rank v)
    /\ (forall hi, max_version flow = Some hi -> version_rank v <= version_rank hi) in
  match protocol_versions_for_http2 flow with
  | Ok vs => vs ≠ [] /\ vs `sublist_of` [Tls1_2; Tls1_3]
             /\ forall v, v ∈ vs <-> v ∈ [Tls1_2; Tls1_3] /\ within v
  | Err _ => is_legacy (min_version flow) = true \/ is_legacy (max_version flow) = true
             \/ (min_version flow = Some Tls1_3 /\ max_version flow = Some Tls1_2)
  end.
Proof.
  cbn zeta. unfold protocol_versions_for_http2.
  destruct (min_version flow) as [[]|], (max_version flow) as [[]|]; cbn; auto;
    (split_and!; [done|by repeat constructor|]);
    intros []; set_unfold; cbn;
    (split; [intros Hv; split; [naive_solver|]; split; intros ? [= <-]; cbn; (lia || naive_solver)
            |intros (? & Hlo & Hhi);
             try (specialize (Hlo _ eq_refl)); try (specialize (Hhi _ eq_refl)); cbn in *;
             (lia || naive_solver)]).
Qed.

End Http2Client.

(** * One entry, many requests *)
Module Http2Pool.

(** Where a request is in [acquire_or_open_session].  The sub-steps of
    [reusable_session] and [finish_open] are separate: each takes its own lock. *)
Inductive phase :=
| Looping
| Checking (session : nat)                  (* cloned [current], asks whether it is reusable *)
| Clearing (session : nat)                  (* found it not reusable, takes the write lock *)
| TryBegin                                  (* [try_begin_open] *)
| WaitOpen                                  (* calls [wait_for_open] *)
| Waiting                                   (* registered with [opened] *)
| Opening                                   (* awaits [open_session] *)
| Finishing (result : option nat)           (* wrote [current], about to clear [opening] *)
| Notifying (result : option nat)           (* about to notify the waiters *)
| Finished (result : option nat)            (* returned the session, or the open error *)
| Dropped.                                  (* its future was dropped at an await *)
#[export] Instance phase_eq_dec : EqDecision phase.
Proof. solve_decision. Defined.

(** [Http2SessionEntry] with the sessions that still accept streams, the
    counter of session identifiers and the requests. *)
Record pool := MkPool {
  current : option nat;
  opening : bool;
  reusable : gset nat;
  next_session_id : nat;
  requests : list phase;
}.
#[export] Instance eta_pool : Eta pool := fun p =>
  MkPool p.(current) p.(opening) p.(reusable) p.(next_session_id) p.(requests).

(** The write-locked part of [reusable_session]. *)
Definition clear_stale (session : nat) (p : pool) : pool :=
  if decide (p.(current) = Some session /\ session ∉ p.(reusable))
  then p <| current := None |> else p.

(** [try_begin_open]: the compare-exchange of [opening]. *)
Definition try_begin_open (p : pool) : bool * pool :=
  if p.(opening) then (false, p) else (true, p <| opening := true |>).

(** [notify_waiters] wakes the registered requests only. *)
Definition notify_waiters (p : pool) : pool :=
  p <| requests := (fun ph => match ph with Waiting => Looping | _ => ph end) <$> p.(requests) |>.

Definition goto (i : nat) (ph : phase) (p : pool) : pool :=
  p <| requests := <[i := ph]> p.(requests) |>.

(** One step of request [i] of [acquire_or_open_session]; [ok] tells whether
    opening succeeds.  [None]: the request is blocked or over. *)
Definition acquire_or_open_session (ok : bool) (i : nat) (p : pool) : option pool :=
  ph ← p.(requests) !! i;
  match ph with
  | Looping =>
      Some (goto i (match p.(current) with None => TryBegin | Some s => Checking s end) p)
  | Checking s =>
      Some (goto i (if decide (s ∈ p.(reusable)) then Finished (Some s) else Clearing s) p)
  | Clearing s => Some (goto i TryBegin (clear_stale s p))
  | TryBegin =>
      let '(begun, p) := try_begin_open p in
      Some (goto i (if begun then Opening else WaitOpen) p)
  | WaitOpen => Some (goto i Waiting p)
  | Waiting => None
  | Opening =>
      if ok then
        let s := S p.(next_session_id) in
        Some (goto i (Finishing (Some s))
               (p <| next_session_id := s |> <| reusable := {[ s ]} ∪ p.(reusable) |>
                  <| current := Some s |>))
      else Some (goto i (Finishing None)
                  (p <| next_session_id := S p.(next_session_id) |> <| current := None |>))
  | Finishing r => Some (goto i (Notifying r) (p <| opening := false |>))
  | Notifying r => Some (goto i (Finished r) (notify_waiters p))
  | Finished _ | Dropped => None
  end.

(** Requests arrive, run, and are dropped at an await; sessions stop
    accepting streams. *)
Inductive pool_step : pool -> pool -> Prop :=
| ps_arrive p : pool_step p (p <| requests := p.(requests) ++ [Looping] |>)
| ps_run ok i p p' : acquire_or_open_session ok i p = Some p' -> pool_step p p'
| ps_retire s p : pool_step p (p <| reusable := p.(reusable) ∖ {[ s ]} |>)
| ps_drop i ph p : p.(requests) !! i = Some ph -> ph = Opening \/ ph = Waiting ->
    pool_step p (goto i Dropped p).

Definition empty_pool : pool := MkPool None false ∅ 0 [].

(** ** At most one opening *)

Definition holding (ph : phase) : bool :=
  match ph with Opening | Finishing _ => true | _ => false end.

(** The session a request knows of. *)
Definition knows (ph : phase) : option nat :=
  match ph with
  | Checking s | Clearing s => Some s
  | Finishing r | Notifying r | Finished r => r
  | _ => None
  end.

Record pool_inv (p : pool) : Prop := {
  inv_holding : forall i ph, requests p !! i = Some ph -> holding ph = true -> opening p = true;
  inv_unique : forall i j ph ph', requests p !! i = Some ph -> requests p !! j = Some ph' ->
    holding ph = true -> holding ph' = true -> i = j;
  inv_current : forall s, current p = Some s -> (s <= next_session_id p)%nat;
  inv_reusable : forall s, s ∈ reusable p -> (s <= next_session_id p)%nat;
  inv_knows : forall i ph s, requests p !! i = Some ph -> knows ph = Some s ->
    (1 <= s <= next_session_id p)%nat;
  inv_current_pos : forall s, current p = Some s -> (1 <= s)%nat;
}.

(** A step of one request that is not the start of an opening. *)
Lemma goto_inv p q i ph ph' :
  pool_inv p -> requests p !! i = Some ph -> requests q = requests p ->
  opening q = opening p -> (holding ph' = true -> holding ph = true) ->
  (next_session_id p <= next_session_id q)%nat ->
  (forall s, current q = Some s -> (1 <= s <= next_session_id q)%nat) ->
  (forall s, s ∈ reusable q -> (s <= next_session_id q)%nat) ->
  (forall s, knows ph' = Some s -> (1 <= s <= next_session_id q)%nat) ->
  pool_inv (goto i ph' q).
Proof.
  intros [Hh Hu Hc Hr Hk Hp] Hi Hreq Hop Hhold Hn Hc' Hr' Hk'. unfold goto. rewrite Hreq.
  split; cbn; rewrite ?Hop.
  - intros j x [(-> & -> & _)|[_ Hj]]%list_lookup_insert_Some; eauto.
  - intros j k x y [(-> & -> & _)|[? Hj]]%list_lookup_insert_Some
      [(-> & -> & _)|[? Hl]]%list_lookup_insert_Some ??; eauto.
  - intros s Hs. by apply Hc'.
  - done.
  - intros j x s [(-> & -> & _)|[_ Hj]]%list_lookup_insert_Some Hx; [by apply Hk'|].
    destruct (Hk _ _ _ Hj Hx). lia.
  - intros s Hs. by apply Hc'.
Qed.

Lemma begin_inv p i :
  pool_inv p -> opening p = false -> is_Some (requests p !! i) ->
  pool_inv (goto i Opening (p <| opening := true |>)).
Proof.
  intros [Hh Hu Hc Hr Hk Hp] Hop [ph Hi].
  assert (Hno : forall j x, requests p !! j = Some x -> holding x = false).
  { intros j x Hj. apply not_true_iff_false. intros Hx. rewrite (Hh _ _ Hj Hx) in Hop. done. }
  split; cbn; auto.
  - intros j k x y [(-> & <- & _)|[? Hj]]%list_lookup_insert_Some
      [(-> & <- & _)|[? Hl]]%list_lookup_insert_Some Hx Hy; auto.
    + by rewrite (Hno _ _ Hl) in Hy.
    + by rewrite (Hno _ _ Hj) in Hx.
    + by rewrite (Hno _ _ Hj) in Hx.
  - intros j x s [(-> & <- & _)|[_ Hj]]%list_lookup_insert_Some Hx; [done|eauto].
Qed.

Lemma release_inv p i r :
  pool_inv p -> requests p !! i = Some (Finishing r) ->
  pool_inv (goto i (Notifying r) (p <| opening := false |>)).
Proof.
  intros [Hh Hu Hc Hr Hk Hp] Hi. split; cbn; auto.
  - intros j x [(-> & <- & _)|[Hne Hj]]%list_lookup_insert_Some Hx; [done|].
    destruct Hne. by eapply Hu.
  - intros j k x y [(-> & <- & _)|[? Hj]]%list_lookup_insert_Some
      [(-> & <- & _)|[? Hl]]%list_lookup_insert_Some Hx Hy; eauto.
  - intros j x s [(-> & <- & _)|[_ Hj]]%list_lookup_insert_Some Hx; [by eapply Hk|eauto].
Qed.

Lemma notify_inv p : pool_inv p -> pool_inv (notify_waiters p).
Proof.
  intros [Hh Hu Hc Hr Hk Hp]. split; cbn; auto.
  - intros i x [y [-> Hy]]%list_lookup_fmap_Some Hx. apply (Hh _ _ Hy). by destruct y.
  - intros i j x y [x' [-> Hx']]%list_lookup_fmap_Some [y' [-> Hy']]%list_lookup_fmap_Some ??.
    apply (Hu _ _ _ _ Hx' Hy'); [by destruct x'|by destruct y'].
  - intros i x s [y [-> Hy]]%list_lookup_fmap_Some Hx. apply (Hk _ _ _ Hy). by destruct y.
Qed.

Lemma acquire_inv ok i p p' :
  acquire_or_open_session ok i p = Some p' -> pool_inv p -> pool_inv p'.
Proof.
  intros Hrun Hinv. pose proof Hinv as [Hh Hu Hc Hr Hk Hp]. revert Hrun.
  unfold acquire_or_open_session. destruct (requests p !! i) as [ph|] eqn:Hi; [|done].
  cbn [mbind option_bind].
  assert (Hcur : forall s, current p = Some s -> (1 <= s <= next_session_id p)%nat) by eauto.
  destruct ph; try done.
  - intros [= <-]. eapply goto_inv; eauto; [by case_match|].
    case_match; [|done]. intros s [= <-]. auto.
  - intros [= <-]. pose proof (Hk _ _ session Hi eq_refl).
    eapply goto_inv; eauto; [by case_decide|]. case_decide; intros s [= <-]; done.
  - intros [= <-]. unfold clear_stale. case_decide; eapply goto_inv; eauto; done.
  - unfold try_begin_open. destruct (opening p) eqn:Hop; intros [= <-].
    + by eapply goto_inv.
    + by apply begin_inv.
  - intros [= <-]. by eapply goto_inv.
  - destruct ok; intros [= <-].
    + eapply (goto_inv p); eauto; cbn; try lia; try (intros s [= <-]; lia).
      intros s [->%elem_of_singleton|Hs]%elem_of_union; [lia|]. specialize (Hr _ Hs). lia.
    + eapply (goto_inv p); eauto; cbn; try lia; try done. intros s Hs. specialize (Hr _ Hs). lia.
  - intros [= <-]. by apply release_inv.
  - intros [= <-]. pose proof (notify_inv p Hinv) as Hn.
    assert (Hi' : requests (notify_waiters p) !! i = Some (Notifying result))
      by (cbn; by rewrite list_lookup_fmap, Hi).
    eapply goto_inv; try exact Hi'; eauto.
Qed.

Lemma pool_step_inv p p' : pool_step p p' -> pool_inv p -> pool_inv p'.
Proof.
  intros Hs Hinv. destruct Hs as [p|ok i p p' Hrun|s p|i ph p Hi Hph].
  - destruct Hinv as [Hh Hu Hc Hr Hk Hp]. split; cbn; auto.
    + intros i ph [?|[_ [_ <-]%list_lookup_singleton_Some]]%lookup_app_Some ?; [eauto|done].
    + intros i j x y [?|[_ [_ <-]%list_lookup_singleton_Some]]%lookup_app_Some
        [?|[_ [_ <-]%list_lookup_singleton_Some]]%lookup_app_Some ??; [eauto|done..].
    + intros i ph s [?|[_ [_ <-]%list_lookup_singleton_Some]]%lookup_app_Some ?; [eauto|done].
  - by eapply acquire_inv.
  - destruct Hinv as [Hh Hu Hc Hr Hk Hp]. split; cbn; auto. set_solver.
  - pose proof Hinv as [Hh Hu Hc Hr Hk Hp]. eapply goto_inv; eauto; done.
Qed.

Lemma pool_reachable_inv p : rtc pool_step empty_pool p -> pool_inv p.
Proof.
  assert (H0 : pool_inv empty_pool) by by split.
  revert H0. generalize empty_pool. intros q Hq Hs. induction Hs; eauto using pool_step_inv.
Qed.


(** ** A request that runs alone *)

(** [n] steps of request [i]. *)
Fixpoint run (n : nat) (ok : bool) (i : nat) (p : pool) : pool :=
  match n with
  | O => p
  | S n => match acquire_or_open_session ok i p with Some p' => run n ok i p' | None => p end
  end.

#[local] Ltac alone_lookup :=
  unfold goto; cbn; apply list_lookup_insert_eq; rewrite ?length_fmap, ?length_insert; lia.
#[local] Ltac alone_step :=
  unfold acquire_or_open_session at 1; cbn; rewrite list_lookup_insert_eq
    by (rewrite ?length_fmap, ?length_insert; lia); cbn.

Lemma acquire_alone_run ok i c r n l p' :
  l !! i = Some Looping -> run 7 ok i (MkPool c false r n l) = p' ->
  exists res, requests p' !! i = Some (Finished res) /\ opening p' = false /\
    match c with
    | Some s =>
        if decide (s ∈ r) then res = Some s /\ current p' = c
        else res = (if ok then Some (S n) else None) /\ current p' = res
    | None => res = (if ok then Some (S n) else None) /\ current p' = res
    end
    /\ (forall s, res = Some s -> s ∈ reusable p').
Proof.
  intros Hi. apply lookup_lt_Some in Hi as Hlt.
  unfold run, acquire_or_open_session at 1. cbn. rewrite Hi. cbn.
  destruct c as [s|]; cbn.
  - alone_step. case_decide as Hs; cbn.
    + alone_step. intros <-. eexists. split; [alone_lookup|]. split_and!; naive_solver.
    + alone_step. unfold clear_stale. rewrite decide_True by done. cbn.
      alone_step. alone_step. destruct ok; cbn; alone_step; alone_step;
        (intros <-; eexists; split; [alone_lookup|]; split_and!; try done; set_solver).
  - alone_step. alone_step. destruct ok; cbn; alone_step; alone_step; alone_step;
      (intros <-; eexists; split; [alone_lookup|]; split_and!; try done; set_solver).
Qed.

(** A request that runs without others interfering and finds no opening in
    progress ends within seven steps: with the entry's current session when it
    is reusable, otherwise with a session it opens and leaves as the current
    one, or with an error that leaves the entry empty and openable. *)
Theorem http2_pool_acquire_alone ok i p :
  requests p !! i = Some Looping -> opening p = false ->
  let p' := run 7 ok i p in
  exists r, requests p' !! i = Some (Finished r) /\ opening p' = false /\
    match current p with
    | Some s =>
        if decide (s ∈ reusable p) then r = Some s /\ current p' = current p
        else r = (if ok then Some (S (next_session_id p)) else None) /\ current p' = r
    | None => r = (if ok then Some (S (next_session_id p)) else None) /\ current p' = r
    end
    /\ (forall s, r = Some s -> s ∈ reusable p').
Proof.
  destruct p as [c o r n l]; cbn. intros Hi ->. by eapply acquire_alone_run.
Qed.

(** ** What the entry does not guarantee *)

(** Request [i] waits, and no request will notify it: nothing is opening, and
    every other request is over. *)
Definition stranded (i : nat) (p : pool) : Prop :=
  requests p !! i = Some Waiting
  /\ forall j ph, requests p !! j = Some ph -> j ≠ i -> ph = Dropped \/ exists r, ph = Finished r.

Lemma run_steps n ok i p : rtc pool_step p (run n ok i p).
Proof.
  revert p. induction n as [|n IH]; intros p; cbn; [done|].
  destruct (acquire_or_open_session ok i p) eqn:Hr; [|done].
  eapply rtc_l; [by eapply ps_run|apply IH].
Qed.

Definition two_requests : pool := empty_pool <| requests := [Looping; Looping] |>.
Lemma two_requests_reachable : rtc pool_step empty_pool two_requests.
Proof. eapply rtc_l; [apply ps_arrive|]. eapply rtc_l; [apply ps_arrive|]. apply rtc_refl. Qed.

(** A wakeup can be lost: request 1 fails [try_begin_open], request 0 then
    opens the session, clears the flag and notifies, and only then does
    request 1 register with [wait_for_open].  It waits although the entry has
    a reusable session and nothing is being opened. *)
Theorem http2_pool_lost_wakeup :
  let p := run 1 true 1 (run 7 true 0 (run 2 true 1 (run 2 true 0 two_requests))) in
  rtc pool_step empty_pool p /\ stranded 1 p /\ opening p = false
  /\ exists s, current p = Some s /\ s ∈ reusable p.
Proof.
  cbn zeta. split; [|split_and!].
  - etrans; [apply two_requests_reachable|]. do 3 (etrans; [apply run_steps|]). apply run_steps.
  - split; [by vm_compute|]. intros j ph. vm_compute.
    destruct j as [|[|j]]; intros [=]; subst; eauto; done.
  - by vm_compute.
  - exists 1%nat. split; [by vm_compute|]. apply (bool_decide_unpack _). by vm_compute.
Qed.

(** A dropped opening wedges the entry: when the request that holds
    [opening] is dropped at its await, the flag stays set, and every request
    that arrives later ends up waiting although nobody is opening. *)
Theorem http2_pool_dropped_opening_wedges :
  let p := goto 0 Dropped (run 2 true 0 two_requests) in
  rtc pool_step empty_pool p /\ opening p = true
  /\ requests p !! 0%nat = Some Dropped
  /\ stranded 1 (run 4 true 1 p).
Proof.
  cbn zeta. split; [|split_and!].
  - etrans; [apply two_requests_reachable|]. etrans; [apply (run_steps 2 true 0)|].
    eapply rtc_l; [|apply rtc_refl]. eapply (ps_drop 0 Opening); [by vm_compute|by left].
  - by vm_compute.
  - by vm_compute.
  - split; [by vm_compute|]. intros j ph. vm_compute.
    destruct j as [|[|j]]; intros [=]; subst; eauto; done.
Qed.


Lemma http2_pool_acquire_alone_witness :
  exists r, requests (run 7 true 0 two_requests) !! 0%nat = Some (Finished r) /\ r = Some 1%nat.
Proof.
  destruct (http2_pool_acquire_alone true 0 two_requests) as (r & Hr & _ & [-> _] & _); [done..|].
  by exists (Some 1%nat).
Defined.

End Http2Pool.
