(* ===== verification/TlsConfig.v ===== *)
(** Model of the TLS configurations that are built from a flow: for upstream
    sockets and HTTP/1 ([src/abi_impl/transport/tls.rs]), for HTTP/2
    ([src/abi_impl/http2/upstream.rs]), for QUIC ([src/abi_impl/quic/mod.rs]),
    and for the downstream server.  rustls and the PEM parser are given. *)

From S2P Require Import Prelude Bytes TlsFlow HttpVersions Http2Pool.

Module TlsConfig.
Import TlsFlow.
Import Http2Client(version_rank, is_legacy, protocol_versions_for_http2, alpn_protocols_for_mode).

(** [rustls_pemfile], with the text of its errors, and what rustls makes of
    the result. *)
Class TlsCrate := {
  Certificate : Type;
  PrivateKey : Type;
  pem_certs : string -> result string (list Certificate);
  pem_private_key : string -> result string (option PrivateKey);
  webpki_roots : list Certificate;                                        (** the public certificate authorities *)
  root_ok : Certificate -> result string unit;                            (** [RootCertStore::add] *)
  client_auth_ok : list Certificate -> PrivateKey -> result string unit;  (** [with_client_auth_cert] *)
  self_signed : list Certificate * PrivateKey;                            (** [default_self_signed_server_identity] *)
  server_cert_ok : list Certificate -> PrivateKey -> result string unit;  (** [with_single_cert] *)
}.

Section config.
Context `{TC : TlsCrate}.

(** The verifier of a server's certificate: chain and name against the roots,
    or [PermissiveServerCertVerifier], which accepts every certificate. *)
Inductive ServerVerifier := WebPki (roots : list Certificate) | Permissive.

Record ClientConfig := MkClientConfig {
  versions : list TlsProtocolVersion;
  verifier : ServerVerifier;
  client_auth : option (list Certificate * PrivateKey);
  enable_sni : bool;
  alpn_protocols : list (list Z);
}.

(** ** Credentials *)

Definition is_usable (c : Certificate) : bool := match root_ok c with Ok _ => true | Err _ => false end.

(** [http2::build_root_store] and [quic::build_root_store] skip certificates
    rustls cannot use; [what] is their prefix. *)
Definition build_root_store (what : string) (flow : TlsFlowState) : result string (list Certificate) :=
  match flow.(trusted_certificate_pem) with
  | None => Ok webpki_roots
  | Some pem =>
      match pem_certs pem with
      | Err e => Err ("failed to parse trusted certificates for " +:+ what +:+ ": " +:+ e)
      | Ok certificates =>
          let added := filter (fun c => is_usable c = true) certificates in
          if bool_decide (length added = 0%nat)
          then Err "trusted certificate bundle did not contain any usable certificates"
          else Ok (webpki_roots ++ added)
      end
  end.

(** [tls::build_root_store]: every certificate has to be usable. *)
Fixpoint add_roots (roots certificates : list Certificate) : result string (list Certificate) :=
  match certificates with
  | [] => Ok roots
  | c :: certificates =>
      match root_ok c with
      | Ok _ => add_roots (roots ++ [c]) certificates
      | Err e => Err ("failed to add trusted certificate to root store: " +:+ e)
      end
  end.
Definition strict_root_store (flow : TlsFlowState) : result string (list Certificate) :=
  match flow.(trusted_certificate_pem) with
  | None => Ok webpki_roots
  | Some bundle =>
      match pem_certs bundle with
      | Err e => Err ("failed to parse trusted certificate bundle: " +:+ e)
      | Ok certificates => add_roots webpki_roots certificates
      end
  end.

Definition load_client_cert_chain (parse : string) (pem : option string) : result string (list Certificate) :=
  match pem with
  | None => Err "client certificate is unavailable"
  | Some pem =>
      match pem_certs pem with
      | Err e => Err (parse +:+ e)
      | Ok [] => Err "client certificate chain is empty"
      | Ok certificates => Ok certificates
      end
  end.
Definition load_client_private_key (pem : option string) : result string PrivateKey :=
  match pem with
  | None => Err "client private key is unavailable"
  | Some pem =>
      match pem_private_key pem with
      | Err e => Err ("failed to parse client private key: " +:+ e)
      | Ok None => Err "client private key is unavailable"
      | Ok (Some k) => Ok k
      end
  end.

(** ** Configurations *)

(** The credentials of a flow after its roots: both, or none; [texts] are the
    builder's messages. *)
Definition client_credentials (parse configure both_needed : string) (flow : TlsFlowState)
    : result string (option (list Certificate * PrivateKey)) :=
  match flow.(client_certificate_pem), flow.(client_private_key_pem) with
  | Some _, Some _ =>
      chain ← load_client_cert_chain parse flow.(client_certificate_pem);
      key ← load_client_private_key flow.(client_private_key_pem);
      match client_auth_ok chain key with
      | Ok _ => Ok (Some (chain, key))
      | Err e => Err (configure +:+ e)
      end
  | None, None => Ok None
  | _, _ => Err both_needed
  end.

(** The branch of every builder on the two verification flags.  With both, the
    roots are loaded after the pairing of the credentials was checked. *)
Definition client_config (vs : list TlsProtocolVersion) (roots : result string (list Certificate))
    (credentials : result string (option (list Certificate * PrivateKey))) (both_needed : string) (sni : bool)
    (protocols : list (list Z)) (flow : TlsFlowState) : result string ClientConfig :=
  let paired := bool_decide (is_Some flow.(client_certificate_pem) <-> is_Some flow.(client_private_key_pem)) in
  if flow.(verify_peer) && flow.(verify_hostname) then
    if paired then roots ← roots; auth ← credentials; Ok (MkClientConfig vs (WebPki roots) auth sni protocols)
    else Err both_needed
  else _ ← roots; auth ← credentials; Ok (MkClientConfig vs Permissive auth sni protocols).

Definition supported_protocol_versions (flow : TlsFlowState) : result string (list TlsProtocolVersion) :=
  if is_legacy flow.(min_version) || is_legacy flow.(max_version)
  then Err "manual tls transport only supports TLS 1.2 or newer"
  else
    let min := default Tls1_2 flow.(min_version) in
    let max := default Tls1_3 flow.(max_version) in
    if version_rank max <? version_rank min then Err "tls min version cannot be greater than max version"
    else
      match (if (version_rank min <=? version_rank Tls1_2) && (version_rank Tls1_2 <=? version_rank max) then [Tls1_2] else [])
            ++ (if (version_rank min <=? version_rank Tls1_3) && (version_rank Tls1_3 <=? version_rank max) then [Tls1_3] else []) with
      | [] => Err "tls version constraints left no supported protocol versions"
      | versions => Ok versions
      end.

(** For sockets and HTTP/1. *)
Definition build_dynamic_client_config (flow : TlsFlowState) : result string ClientConfig :=
  let both := "client certificate and private key must both be configured" in
  versions ← supported_protocol_versions flow;
  client_config versions (strict_root_store flow)
    (client_credentials "failed to parse client certificate chain: " "failed to configure client certificate for tls session: " both flow)
    both flow.(sni_enabled)
    (match flow.(desired_alpn) with [] => [bytes_of_string HTTP11_ALPN_PROTOCOL] | l => bytes_of_string <$> l end) flow.

(** For HTTP/2: server names are always sent. *)
Definition build_tls_client_config (flow : TlsFlowState) : result string ClientConfig :=
  let both := "http2 client certificate and private key must both be set" in
  versions ← protocol_versions_for_http2 flow;
  client_config versions (build_root_store "http2 session" flow)
    (client_credentials "failed to parse client certificate: "
       (if flow.(verify_peer) && flow.(verify_hostname)
        then "failed to configure mTLS client auth for http2 session: "
        else "failed to configure permissive mTLS client auth for http2 session: ") both flow)
    both true (alpn_protocols_for_mode flow) flow.

Definition is_before_13 (v : option TlsProtocolVersion) : bool :=
  match v with Some v => version_rank v <? version_rank Tls1_3 | None => false end.
Definition protocol_versions_for_http3 (flow : TlsFlowState) : result string (list TlsProtocolVersion) :=
  if is_before_13 flow.(min_version) || is_before_13 flow.(max_version) then Err "http3 over QUIC requires TLS 1.3"
  else match flow.(min_version), flow.(max_version) with
       | Some min, Some max =>
           if version_rank max <? version_rank min then Err "http3 TLS min version cannot be greater than max version"
           else Ok [Tls1_3]
       | _, _ => Ok [Tls1_3]
       end.
Definition alpn_protocols_for_http3 (flow : TlsFlowState) : list (list Z) :=
  match flow.(desired_alpn) with [] => [bytes_of_string "h3"] | l => bytes_of_string <$> l end.
(** For HTTP/3. *)
Definition build_quic_client_config (flow : TlsFlowState) : result string ClientConfig :=
  let both := "client certificate and private key must both be configured" in
  versions ← protocol_versions_for_http3 flow;
  client_config versions (build_root_store "QUIC" flow)
    (client_credentials "failed to parse client certificate: "
       (if flow.(verify_peer) && flow.(verify_hostname)
        then "failed to configure QUIC client certificate: "
        else "failed to configure permissive QUIC client auth: ") both flow)
    both flow.(sni_enabled) (alpn_protocols_for_http3 flow) flow.

(** ** The downstream server *)

(** The certificates a client's certificate is verified against, if it is. *)
Record ServerConfig := MkServerConfig {
  server_versions : list TlsProtocolVersion;
  client_roots : option (list Certificate);
  identity : list Certificate * PrivateKey;
  server_alpn : list (list Z);
}.

(** [DownstreamTlsResumptionState]: the stored sessions and the ticketer of
    servers.  It is shared, and known by the key it was made for and by the call
    that made it. *)
Record DownstreamTlsResumptionState := MkResumption { made_for : DownstreamTlsResumptionKey; made_by : nat }.
(** A configuration with the resumption state it was given. *)
Definition PreparedConfig : Type := ServerConfig * option DownstreamTlsResumptionState.

Definition build_downstream_server_identity (flow : TlsFlowState) : result string (list Certificate * PrivateKey) :=
  match flow.(server_certificate_pem), flow.(server_private_key_pem) with
  | Some _, Some _ =>
      chain ← load_client_cert_chain "failed to parse client certificate chain: " flow.(server_certificate_pem);
      key ← load_client_private_key flow.(server_private_key_pem);
      Ok (chain, key)
  | None, None => Ok self_signed
  | _, _ => Err "downstream tls handshake requires both server certificate and private key when either is configured"
  end.

(** Without the resumption state, which is taken from a cache. *)
Definition build_downstream_server_config (flow : TlsFlowState) : result string ServerConfig :=
  versions ← supported_protocol_versions flow;
  roots ← (if flow.(verify_peer) && bool_decide (is_Some flow.(trusted_certificate_pem))
           then Some <$> strict_root_store flow else Ok None);
  identity ← build_downstream_server_identity flow;
  match server_cert_ok identity.1 identity.2 with
  | Err e => Err ("failed to configure downstream tls server certificate: " +:+ e)
  | Ok _ => Ok (MkServerConfig versions roots identity (bytes_of_string <$> flow.(desired_alpn)))
  end.

(** ** What a configuration says *)

Definition within (flow : TlsFlowState) (v : TlsProtocolVersion) : Prop :=
  version_rank Tls1_2 <= version_rank v
  /\ (forall lo, flow.(min_version) = Some lo -> version_rank lo <= version_rank v)
  /\ (forall hi, flow.(max_version) = Some hi -> version_rank v <= version_rank hi).

(** The trust anchors of a flow: the public ones and the usable ones of its bundle. *)
Definition anchors (flow : TlsFlowState) (roots : list Certificate) : Prop :=
  match flow.(trusted_certificate_pem) with
  | None => roots = webpki_roots
  | Some pem => exists l, pem_certs pem = Ok l /\ roots = webpki_roots ++ filter (fun c => is_usable c = true) l
  end.

Definition credentials_of (flow : TlsFlowState) (auth : option (list Certificate * PrivateKey)) : Prop :=
  match flow.(client_certificate_pem), flow.(client_private_key_pem), auth with
  | None, None, None => True
  | Some cert, Some key, Some (chain, k) =>
      pem_certs cert = Ok chain /\ chain ≠ [] /\ pem_private_key key = Ok (Some k) /\ is_Ok (client_auth_ok chain k) = true
  | _, _, _ => False
  end.

Record says (flow : TlsFlowState) (c : ClientConfig) : Prop := {
  says_versions : c.(versions) ≠ [] /\ Forall (within flow) c.(versions);
  says_verifier : if flow.(verify_peer) && flow.(verify_hostname)
                  then exists roots, c.(verifier) = WebPki roots /\ anchors flow roots
                  else c.(verifier) = Permissive;
  says_auth : credentials_of flow c.(client_auth);
  says_alpn : flow.(desired_alpn) ≠ [] -> c.(alpn_protocols) = bytes_of_string <$> flow.(desired_alpn);
}.

Lemma add_roots_spec l roots r : add_roots roots l = Ok r -> r = roots ++ filter (fun c => is_usable c = true) l.
Proof.
  revert roots. induction l as [|c l IH]; cbn [add_roots]; intros roots; [intros [= <-]; by rewrite app_nil_r|].
  destruct (root_ok c) as [u|e] eqn:Hc; [|done]. intros ->%IH. rewrite <-app_assoc, filter_cons_True; [done|].
  unfold is_usable. by rewrite Hc.
Qed.

Lemma root_store_anchors what flow roots : build_root_store what flow = Ok roots -> anchors flow roots.
Proof.
  unfold build_root_store, anchors. destruct (trusted_certificate_pem flow); [|by intros [= <-]].
  destruct (pem_certs _) as [l|]; [|done]. case_bool_decide; [done|]. intros [= <-]. by exists l.
Qed.
Lemma strict_store_anchors flow roots : strict_root_store flow = Ok roots -> anchors flow roots.
Proof.
  unfold strict_root_store, anchors. destruct (trusted_certificate_pem flow); [|by intros [= <-]].
  destruct (pem_certs _) as [l|]; [|done]. intros ->%add_roots_spec. by exists l.
Qed.

Lemma credentials_spec parse configure both flow auth :
  client_credentials parse configure both flow = Ok auth -> credentials_of flow auth.
Proof.
  unfold client_credentials, credentials_of, load_client_cert_chain, load_client_private_key.
  destruct (client_certificate_pem flow) as [cert|], (client_private_key_pem flow) as [key|]; try done; [|by intros [= <-]].
  destruct (pem_certs cert) as [[|c l]|]; [done| |done]. cbn [mbind result_bind].
  destruct (pem_private_key key) as [[k|]|]; [|done|done]. cbn.
  destruct (client_auth_ok (c :: l) k) eqn:Hok; [|done]. intros [= <-]. by rewrite Hok.
Qed.

Lemma config_says vs (roots : result string (list Certificate)) credentials both sni protocols flow c :
  vs ≠ [] /\ Forall (within flow) vs -> (forall r, roots = Ok r -> anchors flow r) ->
  (forall auth, credentials = Ok auth -> credentials_of flow auth) ->
  (desired_alpn flow ≠ [] -> protocols = bytes_of_string <$> desired_alpn flow) ->
  client_config vs roots credentials both sni protocols flow = Ok c -> says flow c.
Proof.
  intros Hv Hr Ha Hp. unfold client_config. destruct (verify_peer flow && verify_hostname flow) eqn:Hflags.
  - case_bool_decide; [|done]. destruct roots as [r|]; [|done]. destruct credentials as [auth|]; [|done].
    intros [= <-]. split; cbn; auto. rewrite Hflags. eauto.
  - destruct roots; [|done]. destruct credentials as [auth|]; [|done]. intros [= <-]. split; cbn; auto. by rewrite Hflags.
Qed.

Lemma supported_within flow vs : supported_protocol_versions flow = Ok vs -> vs ≠ [] /\ Forall (within flow) vs.
Proof.
  unfold supported_protocol_versions, within.
  destruct (min_version flow) as [[]|], (max_version flow) as [[]|]; cbn; try done; intros [= <-];
    (split; [done|]); repeat constructor; try (intros ? [= <-]); cbn; lia.
Qed.
Lemma http2_within flow vs : protocol_versions_for_http2 flow = Ok vs -> vs ≠ [] /\ Forall (within flow) vs.
Proof.
  unfold protocol_versions_for_http2, within.
  destruct (min_version flow) as [[]|], (max_version flow) as [[]|]; cbn; try done; intros [= <-];
    (split; [done|]); repeat constructor; try (intros ? [= <-]); cbn; lia.
Qed.
Lemma http3_within flow vs : protocol_versions_for_http3 flow = Ok vs -> vs ≠ [] /\ Forall (within flow) vs.
Proof.
  unfold protocol_versions_for_http3, within.
  destruct (min_version flow) as [[]|], (max_version flow) as [[]|]; cbn; try done; intros [= <-];
    (split; [done|]); repeat constructor; try (intros ? [= <-]); cbn; lia.
Qed.

(** ** The protocols agree *)

(** Results that differ in the text of the error only. *)
Definition same_but_text {A} (r r' : result string A) : Prop :=
  match r, r' with Ok a, Ok a' => a = a' | Err _, Err _ => True | _, _ => False end.

Lemma same_versions flow : same_but_text (supported_protocol_versions flow) (protocol_versions_for_http2 flow).
Proof.
  unfold supported_protocol_versions, protocol_versions_for_http2.
  by destruct (min_version flow) as [[]|], (max_version flow) as [[]|].
Qed.

Lemma add_roots_usable l roots :
  Forall (fun c => is_Ok (root_ok c) = true) l -> add_roots roots l = Ok (roots ++ l).
Proof.
  intros Hl. revert roots. induction Hl as [|c l Hc _ IH]; intros roots; cbn [add_roots]; [by rewrite app_nil_r|].
  destruct (root_ok c); [|done]. by rewrite IH, <-app_assoc.
Qed.

Lemma same_roots flow what :
  (forall pem l, trusted_certificate_pem flow = Some pem -> pem_certs pem = Ok l ->
     l ≠ [] /\ Forall (fun c => is_Ok (root_ok c) = true) l) ->
  same_but_text (strict_root_store flow) (build_root_store what flow).
Proof.
  intros Hb. unfold strict_root_store, build_root_store. destruct (trusted_certificate_pem flow) as [pem|]; [|done].
  destruct (pem_certs pem) as [l|] eqn:Hl; [|done]. destruct (Hb pem l eq_refl Hl) as [Hne Hok].
  rewrite add_roots_usable, filter_id by (done || (intros c Hc; rewrite Forall_forall in Hok;
    specialize (Hok c Hc); unfold is_usable; by destruct (root_ok c))).
  by destruct l.
Qed.

Lemma same_credentials p1 c1 b1 p2 c2 b2 flow : same_but_text (client_credentials p1 c1 b1 flow) (client_credentials p2 c2 b2 flow).
Proof.
  unfold client_credentials, load_client_cert_chain. destruct (client_certificate_pem flow) as [cert|], (client_private_key_pem flow) as [key|]; try done.
  destruct (pem_certs cert) as [[|c l]|]; try done. cbn -[load_client_private_key].
  destruct (load_client_private_key (Some key)); [|done]. cbn.
  by destruct (client_auth_ok _ _).
Qed.

Lemma client_config_agree vs r r' a a' b b' s s' p p' flow :
  same_but_text r r' -> same_but_text a a' ->
  match client_config vs r a b s p flow, client_config vs r' a' b' s' p' flow with
  | Ok c, Ok c' => (versions c, verifier c, client_auth c) = (versions c', verifier c', client_auth c')
  | Err _, Err _ => True
  | _, _ => False
  end.
Proof.
  unfold client_config. destruct r, r'; try done; destruct a, a'; try done; cbn; intros; subst;
    repeat case_match; simplify_eq; done.
Qed.

Definition builders : list (TlsFlowState -> result string ClientConfig) :=
  [build_dynamic_client_config; build_tls_client_config; build_quic_client_config].

Lemma client_configs_says flow : Forall (fun build => forall c, build flow = Ok c -> says flow c) builders.
Proof.
  unfold builders; repeat (apply Forall_cons_2; [|]); try apply Forall_nil_2; intros c;
    unfold build_dynamic_client_config, build_tls_client_config, build_quic_client_config.
  - destruct (supported_protocol_versions flow) as [vs|] eqn:Hv; [|done]. apply supported_within in Hv.
    apply config_says; eauto using strict_store_anchors, credentials_spec. by destruct (desired_alpn flow).
  - destruct (protocol_versions_for_http2 flow) as [vs|] eqn:Hv; [|done]. apply http2_within in Hv.
    apply config_says; eauto using root_store_anchors, credentials_spec. unfold alpn_protocols_for_mode. by destruct (desired_alpn flow).
  - destruct (protocol_versions_for_http3 flow) as [vs|] eqn:Hv; [|done]. apply http3_within in Hv.
    apply config_says; eauto using root_store_anchors, credentials_spec. unfold alpn_protocols_for_http3. by destruct (desired_alpn flow).
Qed.

(** Whatever protocol an upstream is spoken to in, a TLS configuration that
    is built says what the flow asks for: only versions within its bounds and
    never before TLS 1.2, at least one; the server verified against the public
    authorities and the flow's usable ones if both verification flags are set,
    and only then; the flow's client certificate with its key or none; the
    protocols it names.  Whether it is built does not depend on the protocol:
    for a bundle of usable certificates the configurations for HTTP/1 and for
    HTTP/2 are built for the same flows, and agree on versions, verification
    and credentials. *)
Theorem client_configs_sound flow :
  Forall (fun build => forall c, build flow = Ok c -> says flow c) builders
  /\ ((forall pem l, trusted_certificate_pem flow = Some pem -> pem_certs pem = Ok l ->
         l ≠ [] /\ Forall (fun c => is_Ok (root_ok c) = true) l) ->
      match build_dynamic_client_config flow, build_tls_client_config flow with
      | Ok c, Ok c' => (versions c, verifier c, client_auth c) = (versions c', verifier c', client_auth c')
      | Err _, Err _ => True
      | _, _ => False
      end).
Proof.
  split; [apply client_configs_says|].
  intros Hb. unfold build_dynamic_client_config, build_tls_client_config. pose proof (same_versions flow) as Hv.
  destruct (supported_protocol_versions flow) as [vs|], (protocol_versions_for_http2 flow) as [vs'|]; try done.
  cbn in Hv |- *. subst vs'. apply client_config_agree; [by apply same_roots|apply same_credentials].
Qed.

(** ** Shared connections *)

Definition pems (flow : TlsFlowState) : list string :=
  option_list flow.(trusted_certificate_pem) ++ option_list flow.(client_certificate_pem)
    ++ option_list flow.(client_private_key_pem).

Lemma same_fingerprint (hash_pem : string -> Z) (a b : option string) :
  (forall x y, a = Some x -> b = Some y -> hash_pem x = hash_pem y -> x = y) ->
  fingerprint_optional_pem hash_pem a = fingerprint_optional_pem hash_pem b -> a = b.
Proof.
  intros Hinj. unfold fingerprint_optional_pem. destruct a as [x|], b as [y|]; cbn; try done.
  intros [= Hxy]. by rewrite (Hinj x y).
Qed.

(** A TLS connection is only shared between flows that would have made it
    the same way.  Pools and session caches find a connection by the key of a
    flow: if the keys of two flows are equal, and no two different PEM texts of
    theirs have the same fingerprint, then whatever the protocol the
    configurations that are built for them are the same, or fail the same way:
    a connection that was opened without verification, or under other trust
    anchors or credentials, is not handed to a flow that asks for them. *)
Theorem pooled_config_same authority_host hash_pem sch1 h1 p1 sch2 h2 p2 f1 f2 k :
  tls_session_cache_key authority_host hash_pem sch1 h1 p1 f1 = Some k ->
  tls_session_cache_key authority_host hash_pem sch2 h2 p2 f2 = Some k ->
  (forall a b, a ∈ pems f1 -> b ∈ pems f2 -> hash_pem a = hash_pem b -> a = b) ->
  Forall (fun build => build f1 = build f2) builders.
Proof.
  intros H1 H2 Hinj. revert H1 H2. unfold tls_session_cache_key.
  destruct (present f1), (present f2); cbn [negb]; try done.
  destruct (tls_session_origin authority_host sch1 h1 p1), (tls_session_origin authority_host sch2 h2 p2); cbn; try done.
  intros [= <-] [= _ Halpn Hp Hh Hs Ht Hc Hk Hmin Hmax].
  apply eq_sym, same_fingerprint in Ht; [|intros x y Hx Hy; apply Hinj; unfold pems; rewrite ?Hx, ?Hy; set_solver].
  apply eq_sym, same_fingerprint in Hc; [|intros x y Hx Hy; apply Hinj; unfold pems; rewrite ?Hx, ?Hy; set_solver].
  apply eq_sym, same_fingerprint in Hk; [|intros x y Hx Hy; apply Hinj; unfold pems; rewrite ?Hx, ?Hy; set_solver].
  unfold builders; repeat (apply Forall_cons_2; [|]); try apply Forall_nil_2;
    unfold build_dynamic_client_config, build_tls_client_config, build_quic_client_config, client_config,
      supported_protocol_versions, protocol_versions_for_http2, protocol_versions_for_http3, client_credentials,
      strict_root_store, build_root_store, alpn_protocols_for_mode, alpn_protocols_for_http3;
    rewrite ?Ht, ?Hc, ?Hk, ?Halpn, ?Hp, ?Hh, ?Hs, ?Hmin, ?Hmax; reflexivity.
Qed.

(** ** What the flags do *)

(** Turning the verification of the host name off turns all verification off:
    whatever else a flow says, the server's certificate is not verified. *)
Theorem hostname_off_accepts_any flow c :
  verify_hostname flow = false -> Exists (fun build => build flow = Ok c) builders -> verifier c = Permissive.
Proof.
  intros Hh He. assert (Hsays : says flow c).
  { pose proof (client_configs_says flow) as Hb. apply Exists_exists in He as (build & Hin & Hc). rewrite Forall_forall in Hb.
    by apply (Hb build Hin). }
  destruct Hsays as [_ Hv _ _]. by rewrite Hh, andb_false_r in Hv.
Qed.

(** Over HTTP/2 the server name is sent although the flow asks that it is not. *)
Theorem http2_sends_server_name flow :
  sni_enabled flow = false ->
  (forall c, build_tls_client_config flow = Ok c -> enable_sni c = true)
  /\ forall c, build_dynamic_client_config flow = Ok c -> enable_sni c = false.
Proof.
  intros Hs. split; intros c; unfold build_tls_client_config, build_dynamic_client_config.
  - destruct (protocol_versions_for_http2 flow); [|done]. cbn. unfold client_config.
    repeat case_match; try done; destruct (build_root_store _ _); try done; destruct (client_credentials _ _ _ _); try done;
      by intros [= <-].
  - destruct (supported_protocol_versions flow); [|done]. cbn. unfold client_config.
    repeat case_match; try done; destruct (strict_root_store _); try done; destruct (client_credentials _ _ _ _); try done;
      by intros [= <-].
Qed.

(** A downstream server that asks for client certificates of its own
    authorities accepts those of every public one too. *)
Theorem public_client_roots flow pem c :
  verify_peer flow = true -> trusted_certificate_pem flow = Some pem -> build_downstream_server_config flow = Ok c ->
  exists roots, client_roots c = Some roots /\ forall r, r ∈ webpki_roots -> r ∈ roots.
Proof.
  intros Hv Ht. unfold build_downstream_server_config. destruct (supported_protocol_versions flow); [|done]. cbn.
  rewrite Hv, Ht, bool_decide_true by by eexists. cbn [andb]. destruct (strict_root_store flow) as [roots|] eqn:Hr; [|done]. cbn.
  destruct (build_downstream_server_identity flow) as [id|]; [|done]. cbn. destruct (server_cert_ok id.1 id.2); [|done].
  intros [= <-]. exists roots. split; [done|]. apply strict_store_anchors in Hr. unfold anchors in Hr. rewrite Ht in Hr.
  destruct Hr as (l & _ & ->). set_solver.
Qed.

End config.

(** ** Witnesses *)

(** A PEM is its one certificate or key, a text that is not empty. *)
#[export] Instance text_pems : TlsCrate := {
  Certificate := string; PrivateKey := string;
  pem_certs := fun s => Ok (if is_empty s then [] else [s]);
  pem_private_key := fun s => Ok (if is_empty s then None else Some s);
  webpki_roots := ["public"];
  root_ok := fun _ => Ok tt; client_auth_ok := fun _ _ => Ok tt;
  self_signed := (["self"], "key"); server_cert_ok := fun _ _ => Ok tt;
}.

Definition private_flow : TlsFlowState :=
  demo_flow <| trusted_certificate_pem := Some "mine" |> <| client_certificate_pem := Some "c" |> <| client_private_key_pem := Some "key" |>.

Lemma client_configs_sound_witness :
  build_dynamic_client_config private_flow
    = Ok (MkClientConfig [Tls1_2; Tls1_3] (WebPki ["public"; "mine"]) (Some (["c"], "key")) true [bytes_of_string "http/1.1"])
  /\ match build_dynamic_client_config private_flow, build_tls_client_config private_flow with
     | Ok c, Ok c' => (versions c, verifier c, client_auth c) = (versions c', verifier c', client_auth c')
     | Err _, Err _ => True
     | _, _ => False
     end.
Proof.
  split; [by vm_compute|]. apply (proj2 (client_configs_sound private_flow)).
  intros pem l [= <-] [= <-]. split; [done|]. by repeat constructor.
Defined.

Lemma pooled_config_same_witness :
  Forall (fun build => build private_flow = build (mark_handshake_complete (Some "h2") private_flow)) builders.
Proof.
  refine (pooled_config_same demo_host str_len "https" "example.org" 443 "https" "example.org" 443 private_flow
    (mark_handshake_complete (Some "h2") private_flow)
    {| key_origin := "https://example.org:443"; key_desired_alpn := []; key_verify_peer := true; key_verify_hostname := true;
       key_sni_enabled := true; key_trusted_certificate_fingerprint := Some 4; key_client_certificate_fingerprint := Some 1;
       key_client_private_key_fingerprint := Some 3; key_min_version := None; key_max_version := None |} _ _ _);
    [by vm_compute..|].
  intros a b Ha Hb. cbn in Ha, Hb. set_unfold. intros Hl. naive_solver (vm_compute in Hl; congruence).
Defined.

End TlsConfig.
