(* ===== verification/Http3Session.v ===== *)
(** Model of the HTTP/3 upstream session and of the session pool of
    [src/abi_impl/http3/model.rs] and [src/abi_impl/http3/upstream.rs].  A
    session method takes the session's lock once; the pool's two critical
    sections (before and after connecting) take the store's lock, and
    connecting in between is outside the program. *)

From S2P Require Import Prelude Bytes LruStore.

Module Http3Session.

Record Http3StreamRef := MkStreamRef { session_id : Z; ref_stream_id : Z }.
Inductive Http3ControlEventSource := LocalRuntime | Transport.

(** [Http3GoawayState] and [Http3ResetState] *)
Record Http3GoawayState := MkGoaway {
  goaway_reason : option string; goaway_source : Http3ControlEventSource }.
Record Http3ResetState := MkReset {
  reset_reason : option string; reset_source : Http3ControlEventSource }.

Inductive Http3SessionGoal := GoalAttached | GoalOpen | GoalDraining.

Inductive Http3SessionFrontier :=
| Candidate | Attached | ControlStreamsOpen | SettingsExchanged | Open | Draining | SClosed | Failed.
#[export] Instance Http3SessionFrontier_eq_dec : EqDecision Http3SessionFrontier.
Proof. solve_decision. Defined.

Definition session_is_terminal (f : Http3SessionFrontier) : bool :=
  match f with SClosed | Failed => true | _ => false end.

Inductive Http3StreamFrontier :=
| Reserved | AttachedToExchange | RequestCommitted | RequestBodyOpen
| ResponseHeadReady | ResponseBodyReady | Closed | Reset.
#[export] Instance Http3StreamFrontier_eq_dec : EqDecision Http3StreamFrontier.
Proof. solve_decision. Defined.

Definition is_terminal (f : Http3StreamFrontier) : bool :=
  match f with Closed | Reset => true | _ => false end.

Record Http3UpstreamStreamState := MkStream {
  stream_id : Z;
  exchange_handle : Z;
  frontier : Http3StreamFrontier;
  reset : option Http3ResetState;
}.
#[export] Instance eta_h3_stream : Eta Http3UpstreamStreamState := fun s =>
  MkStream s.(stream_id) s.(exchange_handle) s.(frontier) s.(reset).

Record Http3UpstreamSessionDagState := MkDag {
  session_frontier : Http3SessionFrontier;
  goaway : option Http3GoawayState;
  streams : gmap Z Http3UpstreamStreamState;
}.
#[export] Instance eta_h3_dag : Eta Http3UpstreamSessionDagState := fun d =>
  MkDag d.(session_frontier) d.(goaway) d.(streams).

Definition advance_session_goal (goal : Http3SessionGoal) (d : Http3UpstreamSessionDagState)
    : Http3UpstreamSessionDagState :=
  match goal with
  | GoalAttached =>
      if decide (d.(session_frontier) = Candidate) then d <| session_frontier := Attached |> else d
  | GoalOpen =>
      if session_is_terminal d.(session_frontier) then d else d <| session_frontier := Open |>
  | GoalDraining =>
      if session_is_terminal d.(session_frontier) then d else d <| session_frontier := Draining |>
  end.

(** The state [Http3UpstreamSession::new] builds. *)
Definition new : Http3UpstreamSessionDagState :=
  let d := advance_session_goal GoalAttached (MkDag Candidate None ∅) in
  let d := d <| session_frontier := ControlStreamsOpen |> in
  let d := d <| session_frontier := SettingsExchanged |> in
  advance_session_goal GoalOpen d.

Definition can_accept_new_streams (d : Http3UpstreamSessionDagState) : bool :=
  bool_decide (d.(session_frontier) = Open) && negb (bool_decide (is_Some d.(goaway))).
Definition is_reusable (d : Http3UpstreamSessionDagState) : bool := can_accept_new_streams d.

Definition has_active_streams (d : Http3UpstreamSessionDagState) : bool :=
  existsb (fun kv => negb (is_terminal kv.2.(frontier))) (map_to_list d.(streams)).

Definition should_retain (d : Http3UpstreamSessionDagState) : bool :=
  negb (session_is_terminal d.(session_frontier)) || has_active_streams d.

Definition active_stream_count (d : Http3UpstreamSessionDagState) : nat := size d.(streams).

Definition attach_stream (sid handle id : Z) (d : Http3UpstreamSessionDagState)
    : Http3StreamRef * Http3UpstreamSessionDagState :=
  (MkStreamRef sid id,
   d <| streams := <[id := MkStream id handle AttachedToExchange None]> d.(streams) |>).

Definition set_frontier (f : Http3StreamFrontier) (id : Z) (d : Http3UpstreamSessionDagState)
    : Http3UpstreamSessionDagState :=
  d <| streams := alter (fun s => s <| frontier := f |>) id d.(streams) |>.

Definition mark_stream_request_committed (id : Z) (body_present : bool)
  := set_frontier (if body_present then RequestBodyOpen else RequestCommitted) id.
Definition mark_stream_response_head_ready (id : Z) := set_frontier ResponseHeadReady id.
Definition mark_stream_response_body_ready (id : Z) := set_frontier ResponseBodyReady id.

Definition retain_active (m : gmap Z Http3UpstreamStreamState) : gmap Z Http3UpstreamStreamState :=
  filter (fun kv => is_terminal kv.2.(frontier) = false) m.

Definition mark_stream_closed (id : Z) (d : Http3UpstreamSessionDagState) : Http3UpstreamSessionDagState :=
  let d := set_frontier Closed id d in
  let d := d <| streams := retain_active d.(streams) |> in
  if bool_decide (d.(session_frontier) = Draining) && bool_decide (d.(streams) = ∅)
  then d <| session_frontier := SClosed |> else d.

Definition mark_stream_reset (id : Z) (reason : option string) (source : Http3ControlEventSource)
    (d : Http3UpstreamSessionDagState) : Http3UpstreamSessionDagState :=
  let d := d <| streams := alter (fun s => s <| reset := Some (MkReset reason source) |>
                                             <| frontier := Reset |>) id d.(streams) |> in
  d <| streams := retain_active d.(streams) |>.

Definition mark_goaway (reason : option string) (source : Http3ControlEventSource)
    (d : Http3UpstreamSessionDagState) : Http3UpstreamSessionDagState :=
  advance_session_goal GoalDraining (d <| goaway := Some (MkGoaway reason source) |>).

Definition mark_connection_closed (d : Http3UpstreamSessionDagState) : Http3UpstreamSessionDagState :=
  if bool_decide (d.(session_frontier) = Draining) && bool_decide (d.(streams) = ∅)
  then d <| session_frontier := SClosed |>
  else if bool_decide (d.(session_frontier) = Open) then d <| session_frontier := Draining |>
  else d.

Definition mark_connection_failed (reason : option string) (d : Http3UpstreamSessionDagState)
    : Http3UpstreamSessionDagState :=
  d <| session_frontier := Failed |>
    <| streams := (fun s => if is_terminal s.(frontier) then s
                            else s <| reset := Some (MkReset reason Transport) |>
                                   <| frontier := Reset |>) <$> d.(streams) |>.

Record Http3ObservedError := MkObserved {
  message : string;
  observed_reset : option Http3ResetState;
  observed_goaway : option Http3GoawayState;
}.

Definition apply_session_error (o : Http3ObservedError) (d : Http3UpstreamSessionDagState)
    : Http3UpstreamSessionDagState :=
  let d := match o.(observed_goaway) with
           | Some g => mark_goaway g.(goaway_reason) g.(goaway_source) d
           | None => d
           end in
  match o.(observed_reset), o.(observed_goaway) with
  | None, None => mark_connection_failed (Some o.(message)) d
  | _, _ => d
  end.

Definition apply_stream_error (id : Z) (o : Http3ObservedError) (d : Http3UpstreamSessionDagState)
    : Http3UpstreamSessionDagState :=
  let d := match o.(observed_reset) with
           | Some r => mark_stream_reset id r.(reset_reason) r.(reset_source) d
           | None => d
           end in
  let d := match o.(observed_goaway) with
           | Some g => mark_goaway g.(goaway_reason) g.(goaway_source) d
           | None => d
           end in
  match o.(observed_reset), o.(observed_goaway) with
  | None, None => mark_connection_failed (Some o.(message)) d
  | _, _ => d
  end.

(** The end of the connection driver: [None] for [H3_NO_ERROR]. *)
Definition driver_done (o : option Http3ObservedError) (d : Http3UpstreamSessionDagState)
    : Http3UpstreamSessionDagState :=
  match o with None => mark_connection_closed d | Some o => apply_session_error o d end.

Inductive session_step : Http3UpstreamSessionDagState -> Http3UpstreamSessionDagState -> Prop :=
| st_attach sid h id d : session_step d (attach_stream sid h id d).2
| st_committed id b d : session_step d (mark_stream_request_committed id b d)
| st_head id d : session_step d (mark_stream_response_head_ready id d)
| st_body id d : session_step d (mark_stream_response_body_ready id d)
| st_closed id d : session_step d (mark_stream_closed id d)
| st_reset id r s d : session_step d (mark_stream_reset id r s d)
| st_goaway r s d : session_step d (mark_goaway r s d)
| st_conn_closed d : session_step d (mark_connection_closed d)
| st_conn_failed r d : session_step d (mark_connection_failed r d).

(** ** Progress of a session *)

Definition session_rank (f : Http3SessionFrontier) : Z :=
  match f with
  | Candidate => 0 | Attached => 1 | ControlStreamsOpen => 2 | SettingsExchanged => 3
  | Open => 4 | Draining => 5 | SClosed | Failed => 6
  end.

Lemma http3_session_rank_max f : session_rank f <= 6.
Proof. destruct f; cbn; lia. Qed.

Lemma http3_session_step_rank d d' :
  session_step d d' -> session_rank (session_frontier d) <= session_rank (session_frontier d').
Proof.
  destruct 1; cbn -[session_rank]; try lia; try apply http3_session_rank_max.
  - unfold mark_stream_closed. cbn -[session_rank]. case_match; [|done]. apply http3_session_rank_max.
  - unfold mark_goaway, advance_session_goal. cbn -[session_rank].
    case_match eqn:Ht; cbn -[session_rank]; [lia|]. by destruct (session_frontier d).
  - unfold mark_connection_closed. case_match; [apply http3_session_rank_max|].
    destruct (decide (session_frontier d = Open)) as [Hf|Hf];
      [rewrite bool_decide_true by done; cbn; rewrite Hf; cbn; lia|by rewrite bool_decide_false].
Qed.

Lemma http3_session_steps_rank d d' :
  rtc session_step d d' -> session_rank (session_frontier d) <= session_rank (session_frontier d').
Proof.
  induction 1 as [|x y z Hxy _ IH]; [lia|]. pose proof (http3_session_step_rank _ _ Hxy). lia.
Qed.

Definition goaway_closed (d : Http3UpstreamSessionDagState) : Prop :=
  is_Some (goaway d) -> session_frontier d ≠ Open.
Definition keyed (d : Http3UpstreamSessionDagState) : Prop :=
  forall id s, streams d !! id = Some s -> stream_id s = id.

Lemma keyed_alter f id d :
  (forall s, stream_id (f s) = stream_id s) -> keyed d ->
  keyed (d <| streams := alter f id d.(streams) |>).
Proof.
  intros Hf Hd j s. cbn. rewrite lookup_alter_Some.
  intros [(<- & x & Hx & ->)|[_ Hs]]; [rewrite Hf|]; by apply Hd.
Qed.
Lemma keyed_alter_retain f id d fr g :
  (forall s, stream_id (f s) = stream_id s) -> keyed d ->
  keyed (MkDag fr g (retain_active (alter f id d.(streams)))).
Proof.
  intros Hf Hd j s [Hs _]%map_lookup_filter_Some. by apply (keyed_alter f id d Hf Hd).
Qed.

Lemma session_step_keyed d d' : session_step d d' -> keyed d -> keyed d'.
Proof.
  intros Hs. destruct Hs; intros Hd; try (by apply keyed_alter); try done.
  - intros j s. cbn. rewrite lookup_insert_Some. intros [[<- <-]|[_ Hs]]; [done|by apply Hd].
  - unfold mark_stream_closed.
    case_match; refine (keyed_alter_retain _ id d _ _ _ Hd); done.
  - refine (keyed_alter_retain _ id d _ _ _ Hd); done.
  - unfold mark_goaway, advance_session_goal. by case_match.
  - unfold mark_connection_closed. repeat case_match; done.
  - intros j s. cbn. rewrite lookup_fmap_Some. intros (x & <- & Hx).
    case_match; cbn; by apply Hd.
Qed.

Lemma session_step_goaway d d' : session_step d d' -> goaway_closed d -> goaway_closed d'.
Proof.
  intros Hs. destruct Hs; intros Hd; try done; unfold goaway_closed in *.
  - unfold mark_stream_closed. case_match; [done|]. exact Hd.
  - unfold mark_goaway, advance_session_goal. cbn.
    case_match eqn:Ht; cbn; intros _; [by destruct (session_frontier d)|done].
  - unfold mark_connection_closed. repeat case_match; cbn; first [exact Hd|by intros].
Qed.

Lemma http3_session_reuse d d' :
  rtc session_step new d -> rtc session_step d d' ->
  keyed d' /\ goaway_closed d'
  /\ session_rank (session_frontier d) <= session_rank (session_frontier d')
  /\ (is_reusable d = false -> is_reusable d' = false).
Proof.
  intros Hr Hs.
  assert (Hk : keyed d /\ goaway_closed d /\ session_rank Open <= session_rank (session_frontier d)).
  { split_and!; [| |apply (http3_session_steps_rank _ _ Hr)].
    - assert (H0 : keyed new) by (change new with (MkDag Open None ∅); intros j s; cbn; by rewrite lookup_empty).
      revert H0 Hr. generalize new. intros q Hq. induction 1; eauto using session_step_keyed.
    - assert (H0 : goaway_closed new) by (change new with (MkDag Open None ∅); by intros [? [=]]).
      revert H0 Hr. generalize new. intros q Hq. induction 1; eauto using session_step_goaway. }
  destruct Hk as (Hk & Hg & Hopen). pose proof (http3_session_steps_rank _ _ Hs) as Hrank.
  split_and!; [| |done|].
  - clear -Hk Hs. induction Hs; eauto using session_step_keyed.
  - clear -Hg Hs. induction Hs; eauto using session_step_goaway.
  - unfold is_reusable, can_accept_new_streams.
    rewrite !andb_false_iff, !negb_false_iff, !bool_decide_eq_false, !bool_decide_eq_true.
    intros Hno. left. intros Hf. rewrite Hf in Hrank.
    assert (Hne : session_frontier d ≠ Open) by (destruct Hno; auto).
    destruct (session_frontier d); cbn in *; (lia || done).
Qed.

(** An HTTP/3 upstream session never reopens: streams stay under their own
    identifiers, a session that received a GOAWAY is not open, its frontier
    only advances, and once it is not reusable it is never again picked. *)
Theorem http3_session_never_reopens d d' :
  rtc session_step new d -> rtc session_step d d' ->
  keyed d' /\ goaway_closed d'
  /\ session_rank (session_frontier d) <= session_rank (session_frontier d')
  /\ (is_reusable d = false -> is_reusable d' = false).
Proof. apply http3_session_reuse. Qed.

(** A drained session is only noticed when a stream closes: when the
    connection of an idle session ends with an error (which is recorded as a
    GOAWAY), and when the last stream of a draining session is reset, the
    session is left draining without streams, and the pool retains it. *)
Theorem http3_drained_session_retained message g d :
  session_frontier d = Open ->
  (streams d = ∅ ->
   let d' := driver_done (Some (MkObserved message None (Some g))) d in
   streams d' = ∅ /\ session_frontier d' = Draining /\ should_retain d' = true)
  /\ (forall id r s, dom (streams d) ⊆ {[ id ]} ->
   let d' := mark_stream_reset id r s (mark_goaway (goaway_reason g) (goaway_source g) d) in
   streams d' = ∅ /\ session_frontier d' = Draining /\ should_retain d' = true).
Proof.
  intros Hf. cbn zeta. unfold driver_done, apply_session_error, mark_stream_reset, mark_goaway,
    advance_session_goal, should_retain. cbn. rewrite Hf. cbn. split; [done|].
  intros id r s Hdom. split; [|done]. apply map_eq. intros j. rewrite lookup_empty.
  apply eq_None_not_Some. intros [x [Hx Ht]%map_lookup_filter_Some]. cbn in Hx.
  apply lookup_alter_Some in Hx as [(-> & y & _ & ->)|[Hne Hx]]; [done|].
  apply elem_of_dom_2 in Hx. set_solver.
Qed.

Definition demo_new : Http3UpstreamSessionDagState := (attach_stream 1 1 0 new).2.

Lemma http3_session_never_reopens_witness :
  is_reusable (mark_stream_closed 0 (mark_goaway None Transport demo_new)) = false.
Proof.
  refine (proj2 (proj2 (proj2 (http3_session_never_reopens (mark_goaway None Transport demo_new) _ _ _))) _);
    [|eapply rtc_l; [apply st_closed|apply rtc_refl]|by vm_compute].
  eapply rtc_l; [apply (st_attach 1 1 0)|]. eapply rtc_l; [apply st_goaway|apply rtc_refl].
Defined.

Lemma http3_drained_session_retained_witness :
  should_retain (driver_done (Some (MkObserved "timed out" None (Some (MkGoaway None Transport)))) new) = true.
Proof.
  exact (proj2 (proj2 (proj1 (http3_drained_session_retained "timed out" (MkGoaway None Transport) new
    eq_refl) eq_refl))).
Defined.

End Http3Session.

(** * The pool of sessions *)
Module Http3Pool.
Import Http3Session.

(** A shared session ([Arc<Http3UpstreamSession>]) is an index into the heap. *)
Record Http3UpstreamSession := MkSession { sess_id : Z; dag : Http3UpstreamSessionDagState }.
#[export] Instance eta_h3_session : Eta Http3UpstreamSession := fun s => MkSession s.(sess_id) s.(dag).

Abbreviation heap := (list Http3UpstreamSession).

(** A method of the session behind a handle. *)
Definition on {A} (d : A) (f : Http3UpstreamSessionDagState -> A) (h : heap) (i : nat) : A :=
  match h !! i with Some s => f s.(dag) | None => d end.

Definition reusable (h : heap) (i : nat) : bool := on false is_reusable h i.
Definition load (h : heap) (i : nat) : nat := on 0%nat active_stream_count h i.

(** [Http3SessionPoolEntry] *)
Abbreviation Entry := (list nat).

Definition retain_sessions (h : heap) (e : Entry) : Entry :=
  filter (fun i => on false should_retain h i = true) e.

Definition reusable_session_count (h : heap) (e : Entry) : nat :=
  length (filter (fun i => reusable h i = true) e).

(** [Iterator::min_by_key]: the first of the smallest. *)
Fixpoint min_by_load (l : list (nat * nat)) : option (nat * nat) :=
  match l with
  | [] => None
  | x :: l => match min_by_load l with
              | Some y => if (y.2 <? x.2)%nat then Some y else Some x
              | None => Some x
              end
  end.

Definition select_reusable_session (h : heap) (e : Entry) : option (nat * nat) :=
  min_by_load ((fun i => (i, load h i)) <$> filter (fun i => reusable h i = true) e).

Inductive Http3UpstreamMode := Preferred | NotPreferred.
Inductive Http3RequestError :=
| FallbackToHttp2 (negotiated_alpn : option string)
| TransportError (message : string).

Section pool.
Context {K : Type} `{Countable K}.
(** The two environment settings, positive by [filter(|value| *value > 0)]. *)
Context (max_reusable_sessions target_active_streams : nat).

Record Http3SessionStore := MkStore {
  sessions : Lru.BoundedLruStore K Entry;
  next_session_id : Z;
  live : heap;
}.
#[export] Instance eta_h3_store : Eta Http3SessionStore := fun s =>
  MkStore s.(sessions) s.(next_session_id) s.(live).

Definition new_store (capacity : nat) : Http3SessionStore := MkStore (Lru.new capacity) 0 [].

Definition retain_entries (s : Http3SessionStore) : Http3SessionStore :=
  s <| sessions := Lru.retain (fun _ e => existsb (fun i => on false should_retain s.(live) i) e)
                     s.(sessions) |>.

(** The test both critical sections make on an entry. *)
Definition pick (h : heap) (e : Entry) : option nat :=
  match select_reusable_session h e with
  | Some (i, active_streams) =>
      if (active_streams <? target_active_streams)%nat
         || (max_reusable_sessions <=? reusable_session_count h e)%nat
      then Some i else None
  | None => None
  end.

(** The critical section before connecting. *)
Definition find_session (key : K) (s : Http3SessionStore) : option nat * Http3SessionStore :=
  let s := retain_entries s in
  let '(e, st) := Lru.get_mut key (retain_sessions s.(live)) s.(sessions) in
  let s := s <| sessions := st |> in
  (e ≫= fun e => pick s.(live) (retain_sessions s.(live) e), s).

(** [into_session]: allocate the connected session. *)
Definition into_session (s : Http3SessionStore) : nat * Http3SessionStore :=
  let id := saturating_add_u64 s.(next_session_id) 1 in
  (length s.(live),
   s <| next_session_id := id |> <| live := s.(live) ++ [MkSession id new] |>).

(** The critical section after connecting succeeded. *)
Definition store_session (key : K) (s : Http3SessionStore) : nat * Http3SessionStore :=
  let s := retain_entries s in
  match Lru.peek key s.(sessions) with
  | Some _ =>
      let '(e, st) := Lru.get_mut key (retain_sessions s.(live)) s.(sessions) in
      let s := s <| sessions := st |> in
      match e ≫= fun e => pick s.(live) (retain_sessions s.(live) e) with
      | Some cached => (cached, s)
      | None =>
          let '(i, s) := into_session s in
          (i, s <| sessions := (Lru.get_mut key (fun e => e ++ [i]) s.(sessions)).2 |>)
      end
  | None =>
      let '(i, s) := into_session s in
      (i, s <| sessions := (Lru.insert key [i] s.(sessions)).2 |>)
  end.

(** [acquire_or_open_session] without interference; [connected] is the outcome
    of [connect_session]. *)
Definition acquire_or_open_session (connected : result Http3RequestError unit) (mode : Http3UpstreamMode)
    (key : K) (s : Http3SessionStore) : result Http3RequestError nat * Http3SessionStore :=
  match find_session key s with
  | (Some i, s) => (Ok i, s)
  | (None, s) =>
      match connected, mode with
      | Ok _, _ => let '(i, s) := store_session key s in (Ok i, s)
      | Err _, Preferred => (Err (FallbackToHttp2 None), s)
      | Err e, NotPreferred => (Err e, s)
      end
  end.

(** Concurrent requests run their critical sections in any order; sessions
    step on their own. *)
Inductive pool_step : Http3SessionStore -> Http3SessionStore -> Prop :=
| hp_find key s : pool_step s (find_session key s).2
| hp_store key s : pool_step s (store_session key s).2
| hp_session i x d s : s.(live) !! i = Some x -> session_step x.(dag) d ->
    pool_step s (s <| live := <[i := x <| dag := d |>]> s.(live) |>).

Definition heap_ok (h : heap) : Prop :=
  forall i x, h !! i = Some x -> rtc session_step new x.(dag).
Definition entry_ok (h : heap) (e : Entry) : Prop :=
  (reusable_session_count h e <= max_reusable_sessions)%nat
  /\ Forall (fun i => (i < length h)%nat) e.

Record store_inv (s : Http3SessionStore) : Prop := {
  inv_heap : heap_ok s.(live);
  inv_entries : Lru.all_values (entry_ok s.(live)) s.(sessions);
}.

(** ** Lemmas *)

Lemma count_mono h h' e e' :
  (forall i, i ∈ e' -> reusable h' i = true -> reusable h i = true) -> e' `sublist_of` e ->
  (reusable_session_count h' e' <= reusable_session_count h e)%nat.
Proof.
  intros Hr Hsub. unfold reusable_session_count. revert Hr. induction Hsub as [|x l1 l2 Hs IH|x l1 l2 Hs IH].
  - intros _. by cbn.
  - intros Hr. rewrite !filter_cons. assert (IH' := IH (fun i Hi => Hr i (list_elem_of_further _ _ _ Hi))).
    pose proof (Hr x (list_elem_of_here _ _)). repeat case_decide; cbn; try lia. by exfalso; auto.
  - intros Hr. rewrite (filter_cons _ x l2). case_decide; cbn; specialize (IH Hr); lia.
Qed.

Lemma retain_sessions_sublist h e : retain_sessions h e `sublist_of` e.
Proof. apply sublist_filter. Qed.

Lemma entry_ok_retain h e : entry_ok h e -> entry_ok h (retain_sessions h e).
Proof.
  intros [Hc Hf]. split.
  - etrans; [|exact Hc]. apply count_mono; [done|apply retain_sessions_sublist].
  - apply Forall_forall. intros i Hi. rewrite Forall_forall in Hf. apply Hf.
    eapply elem_of_sublist; [exact Hi|apply retain_sessions_sublist].
Qed.

Lemma min_by_load_spec l :
  match min_by_load l with
  | None => l = []
  | Some x => x ∈ l /\ forall y, y ∈ l -> (x.2 <= y.2)%nat
  end.
Proof.
  induction l as [|x l IH]; cbn [min_by_load]; [done|]. destruct (min_by_load l) as [y|].
  - destruct IH as [Hin Hmin]. destruct (Nat.ltb_spec y.2 x.2); cbn; split; try set_solver.
    + intros z [->|Hz]%elem_of_cons; [lia|auto].
    + intros z [->|Hz]%elem_of_cons; [lia|]. specialize (Hmin z Hz). lia.
  - subst. split; [set_solver|]. intros z ->%list_elem_of_singleton. done.
Qed.

Lemma select_spec h e :
  match select_reusable_session h e with
  | None => reusable_session_count h e = 0%nat
  | Some (i, n) => i ∈ e /\ reusable h i = true /\ n = load h i
      /\ forall j, j ∈ e -> reusable h j = true -> (load h i <= load h j)%nat
  end.
Proof.
  unfold select_reusable_session, reusable_session_count.
  pose proof (min_by_load_spec ((fun i => (i, load h i)) <$> filter (fun i => reusable h i = true) e)) as Hm.
  destruct (min_by_load _) as [[i n]|].
  - destruct Hm as [(j & [= -> ->] & [? ?]%list_elem_of_filter)%list_elem_of_fmap Hmin].
    split_and!; [done..|]. intros k Hk Hr. apply (Hmin (k, load h k)).
    apply list_elem_of_fmap. exists k. by rewrite list_elem_of_filter.
  - apply fmap_nil_inv in Hm. by rewrite Hm.
Qed.

Lemma pick_reusable h e i :
  pick h e = Some i ->
  i ∈ e /\ reusable h i = true
  /\ forall j, j ∈ e -> reusable h j = true -> (load h i <= load h j)%nat.
Proof.
  unfold pick. pose proof (select_spec h e) as Hs. destruct (select_reusable_session h e) as [[k n]|]; [|done].
  destruct Hs as (? & ? & -> & ?). case_match; [|done]. by intros [= <-].
Qed.

Lemma pick_none h e :
  (0 < max_reusable_sessions)%nat ->
  pick h e = None -> (reusable_session_count h e < max_reusable_sessions)%nat.
Proof.
  intros Hmax. unfold pick. pose proof (select_spec h e) as Hs.
  destruct (select_reusable_session h e) as [[k n]|]; [|lia].
  destruct (_ || _) eqn:Hb; [done|]. intros _. by apply orb_false_iff in Hb as [_ ?%Nat.leb_gt].
Qed.

Lemma retain_entries_inv s : store_inv s -> store_inv (retain_entries s).
Proof. intros [Hh He]. split; [done|]. by apply Lru.all_values_retain. Qed.

Lemma get_mut_retain_inv key s :
  store_inv s ->
  store_inv (s <| sessions := (Lru.get_mut key (retain_sessions s.(live)) s.(sessions)).2 |>).
Proof.
  intros [Hh He]. split; [done|]. apply Lru.all_values_get_mut; [|done]. intros e. apply entry_ok_retain.
Qed.

Lemma reusable_app h x i : (i < length h)%nat -> reusable (h ++ [x]) i = reusable h i.
Proof. intros Hi. unfold reusable, on. by rewrite lookup_app_l. Qed.

Lemma entry_ok_app h x e : entry_ok h e -> entry_ok (h ++ [x]) e.
Proof.
  intros [Hc Hf]. split.
  - etrans; [|exact Hc]. apply count_mono; [|done]. intros i Hi.
    rewrite reusable_app; [done|]. rewrite Forall_forall in Hf. by apply Hf.
  - eapply Forall_impl; [exact Hf|]. intros i Hi. rewrite length_app. cbn in *. lia.
Qed.

Lemma into_session_inv s :
  store_inv s -> store_inv (into_session s).2.
Proof.
  intros [Hh He]. split; cbn.
  - intros i x [Hx|[_ [_ <-]%list_lookup_singleton_Some]]%lookup_app_Some; [by eapply Hh|]. apply rtc_refl.
  - eapply Lru.all_values_impl; [|exact He]. intros e. apply entry_ok_app.
Qed.

Lemma entry_ok_push h x e :
  (reusable_session_count h e < max_reusable_sessions)%nat -> Forall (fun i => (i < length h)%nat) e ->
  entry_ok (h ++ [x]) (e ++ [length h]).
Proof.
  intros Hc Hf. assert (Hok : entry_ok (h ++ [x]) e) by (apply entry_ok_app; split; [lia|done]).
  split.
  - unfold reusable_session_count in *. rewrite filter_app, length_app.
    assert (length (filter (fun i => reusable (h ++ [x]) i = true) e)
            <= length (filter (fun i => reusable h i = true) e))%nat.
    { apply (count_mono h (h ++ [x]) e e); [|done]. intros i Hi. rewrite reusable_app; [done|].
      rewrite Forall_forall in Hf. by apply Hf. }
    assert (length (filter (fun i => reusable (h ++ [x]) i = true) [length h]) <= 1)%nat
      by (rewrite filter_cons; case_decide; cbn; lia). lia.
  - apply Forall_app. split; [apply Hok|]. constructor; [rewrite length_app; cbn; lia|done].
Qed.

Lemma find_session_inv key s : store_inv s -> store_inv (find_session key s).2.
Proof.
  intros Hinv%retain_entries_inv. unfold find_session.
  pose proof (get_mut_retain_inv key _ Hinv) as Hg.
  destruct (Lru.get_mut _ _ _) as [e st]. exact Hg.
Qed.

Lemma store_session_inv key s :
  (0 < max_reusable_sessions)%nat -> store_inv s -> store_inv (store_session key s).2.
Proof.
  intros Hmax Hinv%retain_entries_inv. unfold store_session.
  set (s0 := retain_entries s) in *. destruct (Lru.peek key (sessions s0)) as [e0|] eqn:Hpeek.
  - pose proof (get_mut_retain_inv key _ Hinv) as Hg.
    pose proof (Lru.get_mut_result key (retain_sessions (live s0)) (sessions s0)) as Hres.
    pose proof (Lru.get_mut_values key (retain_sessions (live s0)) (sessions s0)) as Hvals.
    unfold Lru.peek in Hpeek. rewrite Hpeek in Hres.
    destruct (Lru.get_mut key _ _) as [e st]. cbn [fst snd] in *. subst e.
    cbn [mbind option_bind]. destruct (pick _ _) as [c|] eqn:Hpick; [exact Hg|]. cbn.
    apply into_session_inv in Hg as Hg'. destruct Hg' as [Hh He]. split; [exact Hh|]. cbn in *.
    intros k v. rewrite Lru.get_mut_values, Hvals, lookup_alter_Some.
    intros [(<- & w & Hw & ->)|[Hne Hk]].
    + rewrite lookup_alter_eq, Hpeek in Hw. injection Hw as <-.
      apply pick_none in Hpick; [|done]. apply entry_ok_push; [done|].
      apply entry_ok_retain. destruct Hinv as [_ Hinv]. by eapply Hinv.
    + apply (He k). by rewrite Hvals.
  - cbn. apply into_session_inv in Hinv as [Hh He]. split; [exact Hh|]. cbn.
    apply Lru.all_values_insert; [|exact He].
    apply (entry_ok_push _ _ []); [cbn; lia|constructor].
Qed.

Lemma session_inv i x d s :
  live s !! i = Some x -> session_step x.(dag) d -> store_inv s ->
  store_inv (s <| live := <[i := x <| dag := d |>]> s.(live) |>).
Proof.
  intros Hi Hd [Hh He]. pose proof (Hh _ _ Hi) as Hr. split; cbn.
  - intros j y [(-> & <- & _)|[_ Hj]]%list_lookup_insert_Some; [|by eapply Hh].
    cbn. by eapply rtc_r.
  - eapply Lru.all_values_impl; [|exact He]. intros e [Hc Hf]. split.
    + etrans; [|exact Hc]. apply count_mono; [|done]. intros j _. unfold reusable, on.
      destruct (decide (i = j)) as [<-|]; [|by rewrite list_lookup_insert_ne].
      rewrite list_lookup_insert_eq, Hi by (by eapply lookup_lt_Some). cbn.
      intros Hre. destruct (is_reusable x.(dag)) eqn:Hx; [done|].
      by rewrite (proj2 (proj2 (proj2 (http3_session_reuse _ _ Hr (rtc_once _ _ Hd)))) Hx) in Hre.
    + by rewrite length_insert.
Qed.

Lemma http3_pool_step_inv s s' :
  (0 < max_reusable_sessions)%nat -> pool_step s s' -> store_inv s -> store_inv s'.
Proof.
  intros Hmax Hs. destruct Hs; intros Hinv;
    [by apply find_session_inv|by apply store_session_inv|by apply session_inv].
Qed.

Lemma new_store_inv capacity : store_inv (new_store capacity).
Proof. split; [by intros i x|apply Lru.all_values_new]. Qed.

Lemma http3_pool_reachable_inv capacity s :
  (0 < max_reusable_sessions)%nat -> rtc pool_step (new_store capacity) s -> store_inv s.
Proof.
  intros Hmax. generalize (new_store_inv capacity). generalize (new_store capacity).
  intros s0 H0. induction 1; eauto using http3_pool_step_inv.
Qed.

(** However requests connect and store sessions concurrently and sessions
    lose their connections, no pool entry ever holds more than the configured
    number of reusable sessions, and entries only refer to live sessions. *)
Theorem http3_pool_bounded capacity s key e :
  (0 < max_reusable_sessions)%nat -> rtc pool_step (new_store capacity) s ->
  Lru.peek key s.(sessions) = Some e ->
  (reusable_session_count s.(live) e <= max_reusable_sessions)%nat
  /\ Forall (fun i => (i < length s.(live))%nat) e.
Proof.
  intros Hmax Hr Hk. destruct (http3_pool_reachable_inv _ _ Hmax Hr) as [_ He]. by eapply He.
Qed.

Lemma find_session_spec key s :
  live (find_session key s).2 = live s /\
  match (find_session key s).1 with
  | Some i => reusable (live s) i = true
      /\ exists e, Lru.peek key s.(sessions) = Some e /\ i ∈ e
         /\ forall k, k ∈ e -> on false should_retain (live s) k = true ->
              reusable (live s) k = true -> (load (live s) i <= load (live s) k)%nat
  | None => True
  end.
Proof.
  unfold find_session.
  pose proof (Lru.get_mut_result key (retain_sessions (live (retain_entries s)))
                (sessions (retain_entries s))) as Hres.
  destruct (Lru.get_mut key _ _) as [e st]. cbn [fst snd] in *. split; [done|]. cbn [live retain_entries set_field].
  subst e. destruct (Lru.values _ !! key) as [e|] eqn:Hv; cbn [mbind option_bind]; [|done].
  destruct (pick _ _) as [i|] eqn:Hp; [|done].
  apply pick_reusable in Hp as (Hin & Hr & Hmin). split; [exact Hr|]. exists e.
  split; [exact (lookup_weaken _ _ _ _ Hv (Lru.retain_subseteq _ _))|].
  split; [exact (elem_of_sublist _ _ _ Hin (retain_sessions_sublist _ _))|].
  intros k Hk Hret Hrk. apply Hmin; [|done]. by apply list_elem_of_filter.
Qed.

Lemma into_session_reusable s : reusable (live (into_session s).2) (into_session s).1 = true.
Proof. cbn. unfold reusable, on. by rewrite lookup_app_r, Nat.sub_diag by done. Qed.

Lemma store_session_reusable key s : reusable (live (store_session key s).2) (store_session key s).1 = true.
Proof.
  unfold store_session. destruct (Lru.peek key _); [|exact (into_session_reusable (retain_entries s))].
  destruct (Lru.get_mut key _ _) as [e st].
  destruct (e ≫= _) as [i|] eqn:Hp; [|exact (into_session_reusable (retain_entries s))].
  destruct e as [e|]; [|done]. cbn [mbind option_bind] in Hp.
  by apply pick_reusable in Hp as (_ & Hr & _).
Qed.

(** What a request gets: a session found in the pool accepts streams and
    is a least loaded one of its entry; when none is found and the connection
    succeeds, the request gets an open session without streams, or one another
    request stored meanwhile; when it fails, the preferred mode falls back to
    lower versions and the required mode reports the error. *)
Theorem http3_pool_acquire (connected : result Http3RequestError unit) mode key s :
  let '(r, s') := acquire_or_open_session connected mode key s in
  match (find_session key s).1, r, connected with
  | Some i, Ok j, _ => j = i /\ reusable (live s) i = true
      /\ exists e, Lru.peek key s.(sessions) = Some e /\ i ∈ e
         /\ forall k, k ∈ e -> on false should_retain (live s) k = true ->
              reusable (live s) k = true -> (load (live s) i <= load (live s) k)%nat
  | None, Ok j, Ok _ => reusable (live s') j = true
  | None, Err e, Err c => e = match mode with Preferred => FallbackToHttp2 None | NotPreferred => c end
  | _, _, _ => False
  end.
Proof.
  unfold acquire_or_open_session. destruct (find_session_spec key s) as [Hl Hf].
  destruct (find_session key s) as [[i|] s1]; cbn [fst snd] in *; [done|].
  pose proof (store_session_reusable key s1) as Hst.
  destruct connected as [[]|c]; [destruct (store_session key s1); exact Hst|by destruct mode].
Qed.

End pool.

Definition demo_store : Http3SessionStore (K := string) := (store_session 1 4 "a" (new_store 4)).2.
Lemma http3_pool_bounded_witness :
  Lru.peek "a" demo_store.(sessions) = Some [0%nat]
  /\ (reusable_session_count demo_store.(live) [0%nat] <= 1)%nat.
Proof.
  split; [by vm_compute|].
  refine (proj1 (http3_pool_bounded 1 4 4 demo_store "a" [0%nat] _ _ _)); [lia| |by vm_compute].
  eapply rtc_l; [apply (hp_store 1 4 "a")|apply rtc_refl].
Defined.

End Http3Pool.
