(* ===== verification/DownstreamSessions.v ===== *)
(** Model of the downstream connection trackers of
    [src/abi_impl/http2/downstream.rs] and [src/abi_impl/http3/downstream.rs]:
    the table of observed sessions, bounded by an LRU store, and the streams of
    each.  A tracker method takes the table's lock once, except that the HTTP/2
    tracker first allocates its session under a lock of its own. *)

From S2P Require Import Prelude Bytes LruStore Http2Session Http3Session.

(** [+= 1] on a [u64] in a release build. *)
Definition incr_u64 (n : Z) : Z := (n + 1) mod 18446744073709551616.
(** [u64::saturating_sub] *)
Definition saturating_sub_u64 (n k : Z) : Z := Z.max 0 (n - k).

Module Http2Downstream.
Import Http2Session.

Record Http2DownstreamStreamState := MkDStream {
  d_stream_id : Z;
  path : string;
  d_frontier : Http2StreamFrontier;
  d_reset : option Http2ResetState;
}.
#[export] Instance eta_dstream : Eta Http2DownstreamStreamState := fun s =>
  MkDStream s.(d_stream_id) s.(path) s.(d_frontier) s.(d_reset).

Record Http2DownstreamSessionState := MkDSession {
  d_session_id : Z;
  s_frontier : Http2SessionFrontier;
  peer_address : string;
  total_streams : Z;
  active_streams : Z;
  last_path : option string;
  last_error : option string;
  d_goaway : option Http2GoawayState;
  d_streams : gmap Z Http2DownstreamStreamState;
  next_stream_id : Z;
}.
#[export] Instance eta_dsession : Eta Http2DownstreamSessionState := fun s =>
  MkDSession s.(d_session_id) s.(s_frontier) s.(peer_address) s.(total_streams) s.(active_streams)
    s.(last_path) s.(last_error) s.(d_goaway) s.(d_streams) s.(next_stream_id).

Record Http2DownstreamSessionStore := MkDStore {
  next_session_id : Z;
  sessions : Lru.BoundedLruStore Z Http2DownstreamSessionState;
}.
#[export] Instance eta_dstore : Eta Http2DownstreamSessionStore := fun s =>
  MkDStore s.(next_session_id) s.(sessions).

Record Http2DownstreamStreamAttachment := MkAttachment { att_session : Z; att_stream : Z }.

(** [DownstreamHttp2ConnectionTracker] without the shared table. *)
Record Tracker := MkTracker {
  tracker_peer : string;
  tracker_session : option Z;
  saw_http2 : bool;
}.
#[export] Instance eta_tracker : Eta Tracker := fun t =>
  MkTracker t.(tracker_peer) t.(tracker_session) t.(saw_http2).

Definition new_shared_http_downstream_sessions (capacity : nat) : Http2DownstreamSessionStore :=
  MkDStore 0 (Lru.new capacity).

Definition new (peer : string) : Tracker := MkTracker peer None false.

Definition session_id (t : Tracker) (st : Http2DownstreamSessionStore)
    : Z * Tracker * Http2DownstreamSessionStore :=
  match t.(tracker_session) with
  | Some id => (id, t, st)
  | None =>
      let next := saturating_add_u64 st.(next_session_id) 1 in
      let st := st <| next_session_id := next |> in
      let fresh := MkDSession next Candidate t.(tracker_peer) 0 0 None None None ∅ 1 in
      let st := st <| sessions := (Lru.insert next fresh st.(sessions)).2 |> in
      (next, t <| tracker_session := Some next |>, st)
  end.

(** What [observe_request] does to its session. *)
Definition open_stream (p : string) (s : Http2DownstreamSessionState) : Http2DownstreamSessionState :=
  let s := if decide (s.(s_frontier) = Candidate) then s <| s_frontier := Attachable |> else s in
  let s := s <| s_frontier := Open |> in
  let id := s.(next_stream_id) in
  let s := s <| next_stream_id := saturating_add_u64 id 2 |> in
  let s := s <| total_streams := incr_u64 s.(total_streams) |>
             <| active_streams := incr_u64 s.(active_streams) |> <| last_path := Some p |> in
  s <| d_streams := <[id := MkDStream id p RequestCommitted None]> s.(d_streams) |>.

Definition observe_request (is_http2 : bool) (p : string) (t : Tracker) (st : Http2DownstreamSessionStore)
    : option Http2DownstreamStreamAttachment * Tracker * Http2DownstreamSessionStore :=
  if negb is_http2 then (None, t, st)
  else
    let t := t <| saw_http2 := true |> in
    let '(sid, t, st) := session_id t st in
    let '(s, sess) := Lru.get_mut sid (open_stream p) st.(sessions) in
    (s ← s; Some (MkAttachment sid s.(next_stream_id)), t, st <| sessions := sess |>).

Definition note_response_head (att : option Http2DownstreamStreamAttachment)
    (st : Http2DownstreamSessionStore) : Http2DownstreamSessionStore :=
  match att with
  | None => st
  | Some a =>
      st <| sessions := (Lru.get_mut a.(att_session) (fun s =>
              s <| d_streams := alter (fun x => x <| d_frontier := ResponseHeadReady |>)
                                  a.(att_stream) s.(d_streams) |>) st.(sessions)).2 |>
  end.

Definition retain_active (m : gmap Z Http2DownstreamStreamState) : gmap Z Http2DownstreamStreamState :=
  filter (fun kv => is_terminal kv.2.(d_frontier) = false) m.

Definition finish_stream (error : option string) (x : Http2DownstreamStreamState)
    : Http2DownstreamStreamState :=
  match error with
  | Some m => x <| d_reset := Some (MkReset (Some m) Transport) |> <| d_frontier := Reset |>
  | None =>
      let x := if decide (x.(d_frontier) = ResponseHeadReady)
               then x <| d_frontier := ResponseBodyReady |> else x in
      x <| d_frontier := Closed |>
  end.

(** What [finish_request] does to its session. *)
Definition close_stream (id : Z) (error : option string) (s : Http2DownstreamSessionState)
    : Http2DownstreamSessionState :=
  let s := s <| active_streams := saturating_sub_u64 s.(active_streams) 1 |> in
  let s := s <| d_streams := alter (finish_stream error) id s.(d_streams) |> in
  let s := s <| d_streams := retain_active s.(d_streams) |> in
  if bool_decide (s.(s_frontier) = Draining) && (s.(active_streams) =? 0)
  then s <| s_frontier := SClosed |> else s.

Definition finish_request (att : option Http2DownstreamStreamAttachment) (error : option string)
    (st : Http2DownstreamSessionStore) : Http2DownstreamSessionStore :=
  match att with
  | None => st
  | Some a => st <| sessions := (Lru.get_mut a.(att_session) (close_stream a.(att_stream) error)
                                   st.(sessions)).2 |>
  end.

(** What [finish_connection] does to the tracker's session. *)
Definition close_session (error : option string) (s : Http2DownstreamSessionState)
    : Http2DownstreamSessionState :=
  let s := s <| active_streams := 0 |> <| last_error := error |> in
  match error with
  | Some m =>
      s <| s_frontier := Failed |>
        <| d_streams := (fun x => if is_terminal x.(d_frontier) then x
                                  else x <| d_reset := Some (MkReset (Some m) Transport) |>
                                         <| d_frontier := Reset |>) <$> s.(d_streams) |>
  | None =>
      let s := s <| d_goaway := Some (MkGoaway (Some "connection closed gracefully") LocalRuntime) |>
                 <| s_frontier := Draining |> in
      let s := s <| d_streams := retain_active s.(d_streams) |> in
      if bool_decide (s.(d_streams) = ∅) then s <| s_frontier := SClosed |> else s
  end.

Definition finish_connection (error : option string) (t : Tracker) (st : Http2DownstreamSessionStore)
    : Http2DownstreamSessionStore :=
  if negb t.(saw_http2) then st
  else match t.(tracker_session) with
       | None => st
       | Some sid => st <| sessions := (Lru.get_mut sid (close_session error) st.(sessions)).2 |>
       end.

(** The connections of a server share one table. *)
Inductive table_step : Http2DownstreamSessionStore -> Http2DownstreamSessionStore -> Prop :=
| ts_observe b p t st : table_step st (observe_request b p t st).2
| ts_head a st : table_step st (note_response_head a st)
| ts_finish a e st : table_step st (finish_request a e st)
| ts_connection e t st : table_step st (finish_connection e t st).

(** ** Invariant *)

Record session_ok (s : Http2DownstreamSessionState) : Prop := {
  ok_next : Z.odd (next_stream_id s) = true /\ 1 <= next_stream_id s <= U64_MAX;
  ok_streams : forall id x, d_streams s !! id = Some x ->
    d_stream_id x = id /\ Z.odd id = true
    /\ (id < next_stream_id s \/ next_stream_id s = U64_MAX);
  ok_counts : 0 <= active_streams s <= U64_MAX /\ 0 <= total_streams s <= U64_MAX;
}.

Definition table_ok (st : Http2DownstreamSessionStore) : Prop :=
  Lru.wf st.(sessions) /\ Lru.all_values session_ok st.(sessions).

(** A session whose streams come from those of an [ok] one. *)
Lemma session_ok_sub s s' :
  session_ok s -> next_stream_id s' = next_stream_id s -> 0 <= active_streams s' <= U64_MAX ->
  total_streams s' = total_streams s ->
  (forall id x', d_streams s' !! id = Some x' ->
     exists x, d_streams s !! id = Some x /\ d_stream_id x' = d_stream_id x) ->
  session_ok s'.
Proof.
  intros [Hn Hs [Ha Ht]] Hn' Ha' Ht' Hsub. split; rewrite ?Hn', ?Ht'; auto.
  intros id x' Hx'. destruct (Hsub _ _ Hx') as (x & Hx & ->). by apply Hs.
Qed.

Lemma incr_u64_bounds n : 0 <= incr_u64 n <= U64_MAX.
Proof. unfold incr_u64, U64_MAX. pose proof (Z.mod_pos_bound (n + 1) 18446744073709551616). lia. Qed.

Lemma open_stream_ok p s : session_ok s -> session_ok (open_stream p s).
Proof.
  intros [[Hodd Hn] Hs [Ha Ht]]. unfold open_stream.
  assert (Heq : next_stream_id (if decide (s_frontier s = Candidate) then s <| s_frontier := Attachable |> else s)
                = next_stream_id s) by by case_decide.
  assert (Hst : d_streams (if decide (s_frontier s = Candidate) then s <| s_frontier := Attachable |> else s)
                = d_streams s) by by case_decide.
  split; cbn; rewrite ?Heq, ?Hst.
  - unfold saturating_add_u64, U64_MAX in *. split; [|lia].
    destruct (Z.min_spec (next_stream_id s + 2) 18446744073709551615) as [[_ ->]|[_ ->]]; [|done].
    by rewrite Z.odd_add, Hodd.
  - intros id x. unfold saturating_add_u64, U64_MAX in *. rewrite lookup_insert_Some.
    intros [[<- <-]|[Hne Hl]]; cbn; [split_and!; auto; lia|].
    destruct (Hs id x Hl) as (? & ? & ?). split_and!; auto; lia.
  - split; apply incr_u64_bounds.
Qed.

Lemma alter_ids f id (m : gmap Z Http2DownstreamStreamState) :
  (forall x, d_stream_id (f x) = d_stream_id x) ->
  forall j x', alter f id m !! j = Some x' -> exists x, m !! j = Some x /\ d_stream_id x' = d_stream_id x.
Proof.
  intros Hf j x'. rewrite lookup_alter_Some.
  intros [(<- & x & Hx & ->)|[_ Hx]]; eauto.
Qed.

Lemma finish_stream_id error x : d_stream_id (finish_stream error x) = d_stream_id x.
Proof. unfold finish_stream. destruct error; [done|]. by case_decide. Qed.

Lemma close_stream_ok id error s : session_ok s -> session_ok (close_stream id error s).
Proof.
  intros Hok. pose proof Hok as [_ _ [Ha _]].
  assert (Hb : 0 <= saturating_sub_u64 (active_streams s) 1 <= U64_MAX)
    by (unfold saturating_sub_u64, U64_MAX in *; lia).
  unfold close_stream. case_match; (eapply session_ok_sub; [exact Hok|done|exact Hb|done|]); cbn;
    intros j x' [Hx' _]%map_lookup_filter_Some; revert Hx'; apply alter_ids, finish_stream_id.
Qed.

Lemma close_session_ok error s : session_ok s -> session_ok (close_session error s).
Proof.
  intros Hok. unfold close_session. destruct error as [m|]; [|case_match];
    (eapply session_ok_sub; [exact Hok|done|by unfold U64_MAX|done|]); cbn.
  - intros j x'. rewrite lookup_fmap_Some. intros (x & <- & Hx). exists x. by case_match.
  - intros j x' [Hx' _]%map_lookup_filter_Some. eauto.
  - intros j x' [Hx' _]%map_lookup_filter_Some. eauto.
Qed.

Lemma table_get_mut_ok f sid st :
  (forall s, session_ok s -> session_ok (f s)) -> table_ok st ->
  table_ok (st <| sessions := (Lru.get_mut sid f st.(sessions)).2 |>).
Proof.
  intros Hf [Hw Ha]. split; cbn; [by apply Lru.lru_get_mut_correct|by apply Lru.all_values_get_mut].
Qed.

Lemma fresh_session_ok sid peer : session_ok (MkDSession sid Candidate peer 0 0 None None None ∅ 1).
Proof. split; cbn; unfold U64_MAX; [done|by intros ??; rewrite lookup_empty|lia]. Qed.

Lemma session_id_ok t st : table_ok st -> table_ok (session_id t st).2.
Proof.
  intros [Hw Ha]. unfold session_id. destruct (tracker_session t); [done|]. split; cbn.
  - by apply Lru.lru_insert_correct.
  - apply Lru.all_values_insert; [apply fresh_session_ok|done].
Qed.

Lemma table_step_ok st st' : table_step st st' -> table_ok st -> table_ok st'.
Proof.
  destruct 1 as [b p t st|a st|a e st|e t st]; intros Hok.
  - unfold observe_request. destruct b; cbn [negb]; [|done].
    pose proof (session_id_ok (t <| saw_http2 := true |>) st Hok) as Hok'.
    destruct (session_id _ st) as [[sid t'] st']. cbn [snd] in Hok'.
    pose proof (table_get_mut_ok (open_stream p) sid st' (open_stream_ok p) Hok') as Hg.
    by destruct (Lru.get_mut sid (open_stream p) (sessions st')).
  - destruct a as [a|]; [|done]. apply table_get_mut_ok; [|done]. intros s Hs.
    eapply session_ok_sub; [exact Hs|done|apply Hs|done|]. by apply alter_ids.
  - destruct a as [a|]; [|done]. apply table_get_mut_ok; [|done]. apply close_stream_ok.
  - unfold finish_connection. destruct (saw_http2 t); cbn; [|done]. destruct (tracker_session t); [|done].
    apply table_get_mut_ok; [|done]. apply close_session_ok.
Qed.

(** Whatever the connections of a server observe, the table of HTTP/2
    sessions stays within its capacity with its LRU queue consistent, every
    session's next stream identifier stays odd and in u64, its streams sit
    under their own smaller odd identifiers, and its counters stay in u64. *)
Theorem http2_downstream_table_invariant capacity st :
  rtc table_step (new_shared_http_downstream_sessions capacity) st ->
  Lru.wf st.(sessions) /\ Lru.all_values session_ok st.(sessions).
Proof.
  assert (H0 : table_ok (new_shared_http_downstream_sessions capacity))
    by (split; [apply Lru.lru_new_wf|apply Lru.all_values_new]).
  revert H0. generalize (new_shared_http_downstream_sessions capacity).
  intros q Hq. induction 1; [done|]. eauto using table_step_ok.
Qed.

(** The life of a request: observing it, noting its response head and
    finishing it (with or without an error) attaches it under the session's
    next identifier, counts it, and afterwards leaves the session with the
    active count it had and exactly its other live streams. *)
Theorem http2_downstream_request_lifecycle p error t st sid s :
  t.(tracker_session) = Some sid -> Lru.peek sid st.(sessions) = Some s ->
  session_ok s -> active_streams s < U64_MAX -> total_streams s < U64_MAX ->
  next_stream_id s < U64_MAX ->
  let '(att, t', st1) := observe_request true p t st in
  let st2 := finish_request att error (note_response_head att st1) in
  att = Some (MkAttachment sid (next_stream_id s)) /\ t'.(saw_http2) = true
  /\ exists s', Lru.peek sid st2.(sessions) = Some s'
     /\ d_streams s' = retain_active (d_streams s)
     /\ active_streams s' = active_streams s /\ total_streams s' = total_streams s + 1
     /\ last_path s' = Some p /\ s_frontier s' = Open /\ next_stream_id s < next_stream_id s'.
Proof.
  intros Ht Hs Hok Ha Htot Hn. pose proof Hok as [[Hodd Hb] Hst [Hca Hct]].
  unfold observe_request, session_id, Lru.peek in *. cbn [negb set_field]. cbn. rewrite Ht.
  pose proof (Lru.get_mut_result sid (open_stream p) (sessions st)) as Hr. rewrite Hs in Hr.
  pose proof (Lru.get_mut_values sid (open_stream p) (sessions st)) as Hv.
  destruct (Lru.get_mut sid (open_stream p) (sessions st)) as [r sess]. cbn in Hr, Hv. subst r.
  cbn. split_and!; [done|done|].
  rewrite !Lru.get_mut_values, Hv, !lookup_alter_eq, Hs. cbn [fmap option_fmap option_map].
  eexists. split; [done|].
  set (s0 := if decide (s_frontier s = Candidate) then s <| s_frontier := Attachable |> else s).
  assert (Hs0 : d_streams s0 = d_streams s /\ active_streams s0 = active_streams s
    /\ total_streams s0 = total_streams s /\ next_stream_id s0 = next_stream_id s)
    by (unfold s0; by case_decide).
  destruct Hs0 as (E1 & E2 & E3 & E4).
  assert (Hfresh : d_streams s !! next_stream_id s = None).
  { destruct (d_streams s !! _) as [x|] eqn:Hx; [|done]. destruct (Hst _ _ Hx) as (_ & _ & [?|?]); lia. }
  unfold close_stream, open_stream. cbn. change (bool_decide (Open = Draining)) with false. cbn. fold s0. rewrite ?E1, ?E2, ?E3, ?E4.
  unfold incr_u64, saturating_sub_u64, saturating_add_u64, U64_MAX in *.
  split_and!; [|by rewrite Z.mod_small by lia; lia|by rewrite Z.mod_small by lia|done|done|lia].
  rewrite alter_insert_eq, alter_insert_eq. unfold retain_active.
  rewrite map_filter_insert_False by (by destruct error).
  by rewrite delete_id.
Qed.

(** ** A session that closes early *)

Definition demo_tracker : Tracker := MkTracker "peer" (Some 1) true.
Definition demo_session : Http2DownstreamSessionState :=
  MkDSession 1 Candidate "peer" 0 0 None None None ∅ 1.
Definition demo_table : Http2DownstreamSessionStore :=
  (session_id (new "peer") (new_shared_http_downstream_sessions 4)).2.

(** A connection that closes gracefully under two live streams resets the
    active count to zero but keeps both streams, so finishing the first of
    them closes the session while the second is still live. *)
Theorem http2_downstream_closes_early s id1 id2 x1 x2 :
  id1 ≠ id2 -> d_streams s !! id1 = Some x1 -> d_streams s !! id2 = Some x2 ->
  is_terminal (d_frontier x1) = false -> is_terminal (d_frontier x2) = false ->
  let s1 := close_session None s in
  let s2 := close_stream id1 None s1 in
  s_frontier s1 = Draining /\ d_streams s1 !! id1 = Some x1 /\ d_streams s1 !! id2 = Some x2
  /\ s_frontier s2 = SClosed /\ d_streams s2 !! id2 = Some x2.
Proof.
  intros Hne H1 H2 T1 T2. cbn zeta.
  assert (Hr : forall id x, d_streams s !! id = Some x -> is_terminal (d_frontier x) = false ->
    retain_active (d_streams s) !! id = Some x) by (intros id x Hx Hx'; by apply map_lookup_filter_Some).
  assert (Hs1 : close_session None s
    = s <| active_streams := 0 |> <| last_error := None |>
        <| d_goaway := Some (MkGoaway (Some "connection closed gracefully") LocalRuntime) |>
        <| s_frontier := Draining |> <| d_streams := retain_active (d_streams s) |>).
  { unfold close_session. rewrite bool_decide_false; [done|]. cbn. intros He.
    pose proof (Hr _ _ H1 T1) as Hx. by rewrite He, lookup_empty in Hx. }
  rewrite Hs1. cbn. split_and!; [done|by apply Hr|by apply Hr|done|].
  change (retain_active (alter (finish_stream None) id1 (retain_active (d_streams s))) !! id2 = Some x2).
  apply map_lookup_filter_Some. split; [|done]. rewrite lookup_alter_ne by done. by apply Hr.
Qed.

Lemma http2_downstream_table_invariant_witness :
  Lru.wf (observe_request true "/" (new "peer") (new_shared_http_downstream_sessions 1)).2.(sessions).
Proof.
  refine (proj1 (http2_downstream_table_invariant 1 _ _)).
  eapply rtc_l; [apply (ts_observe true "/" (new "peer"))|apply rtc_refl].
Defined.

Lemma http2_downstream_request_lifecycle_witness :
  (observe_request true "/x" demo_tracker demo_table).1.1 = Some (MkAttachment 1 1).
Proof.
  pose proof (http2_downstream_request_lifecycle "/x" None demo_tracker demo_table 1 demo_session
    eq_refl eq_refl (fresh_session_ok 1 "peer") eq_refl eq_refl eq_refl) as Hl.
  destruct (observe_request true "/x" demo_tracker demo_table) as [[att t'] st1].
  exact (proj1 Hl).
Defined.

Lemma http2_downstream_closes_early_witness :
  let s := open_stream "/b" (open_stream "/a" demo_session) in
  s_frontier (close_stream 1 None (close_session None s)) = SClosed.
Proof.
  exact (proj1 (proj2 (proj2 (proj2 (http2_downstream_closes_early
    (open_stream "/b" (open_stream "/a" demo_session)) 1 3
    (MkDStream 1 "/a" RequestCommitted None) (MkDStream 3 "/b" RequestCommitted None)
    ltac:(done) eq_refl eq_refl eq_refl eq_refl))))).
Defined.

End Http2Downstream.

Module Http3Downstream.
Import Http3Session.

Record Http3DownstreamStreamState := MkDStream {
  d_stream_id : Z;
  path : string;
  d_frontier : Http3StreamFrontier;
  d_reset : option Http3ResetState;
}.
#[export] Instance eta_h3_dstream : Eta Http3DownstreamStreamState := fun s =>
  MkDStream s.(d_stream_id) s.(path) s.(d_frontier) s.(d_reset).

Record Http3DownstreamSessionState := MkDSession {
  d_session_id : Z;
  s_frontier : Http3SessionFrontier;
  peer_address : string;
  total_streams : Z;
  active_streams : Z;
  last_path : option string;
  last_error : option string;
  d_goaway : option Http3GoawayState;
  d_streams : gmap Z Http3DownstreamStreamState;
}.
#[export] Instance eta_h3_dsession : Eta Http3DownstreamSessionState := fun s =>
  MkDSession s.(d_session_id) s.(s_frontier) s.(peer_address) s.(total_streams) s.(active_streams)
    s.(last_path) s.(last_error) s.(d_goaway) s.(d_streams).

Record Http3DownstreamSessionStore := MkDStore {
  next_session_id : Z;
  sessions : Lru.BoundedLruStore Z Http3DownstreamSessionState;
}.
#[export] Instance eta_h3_dstore : Eta Http3DownstreamSessionStore := fun s =>
  MkDStore s.(next_session_id) s.(sessions).

Record Http3DownstreamStreamAttachment := MkAttachment { att_session : Z; att_stream : Z }.

(** [DownstreamHttp3ConnectionTracker] without the shared table. *)
Record Tracker := MkTracker { tracker_session : Z; saw_http3 : bool }.
#[export] Instance eta_h3_tracker : Eta Tracker := fun t => MkTracker t.(tracker_session) t.(saw_http3).

Definition new_shared_http3_downstream_sessions (capacity : nat) : Http3DownstreamSessionStore :=
  MkDStore 0 (Lru.new capacity).

Definition new (peer : string) (st : Http3DownstreamSessionStore) : Tracker * Http3DownstreamSessionStore :=
  let next := saturating_add_u64 st.(next_session_id) 1 in
  let st := st <| next_session_id := next |> in
  (MkTracker next false,
   st <| sessions := (Lru.insert next (MkDSession next Candidate peer 0 0 None None None ∅)
                        st.(sessions)).2 |>).

Definition open_stream (p : string) (id : Z) (s : Http3DownstreamSessionState)
    : Http3DownstreamSessionState :=
  let s := if decide (s.(s_frontier) = Candidate) then s <| s_frontier := Attached |> else s in
  let s := s <| s_frontier := Open |> in
  let s := s <| total_streams := incr_u64 s.(total_streams) |>
             <| active_streams := incr_u64 s.(active_streams) |> <| last_path := Some p |> in
  s <| d_streams := <[id := MkDStream id p RequestCommitted None]> s.(d_streams) |>.

Definition observe_request (p : string) (id : Z) (t : Tracker) (st : Http3DownstreamSessionStore)
    : option Http3DownstreamStreamAttachment * Tracker * Http3DownstreamSessionStore :=
  let t := t <| saw_http3 := true |> in
  let '(s, sess) := Lru.get_mut t.(tracker_session) (open_stream p id) st.(sessions) in
  (s ← s; Some (MkAttachment t.(tracker_session) id), t, st <| sessions := sess |>).

Definition note_response_head (att : option Http3DownstreamStreamAttachment)
    (st : Http3DownstreamSessionStore) : Http3DownstreamSessionStore :=
  match att with
  | None => st
  | Some a =>
      st <| sessions := (Lru.get_mut a.(att_session) (fun s =>
              s <| d_streams := alter (fun x => x <| d_frontier := ResponseHeadReady |>)
                                  a.(att_stream) s.(d_streams) |>) st.(sessions)).2 |>
  end.

Definition retain_active (m : gmap Z Http3DownstreamStreamState) : gmap Z Http3DownstreamStreamState :=
  filter (fun kv => is_terminal kv.2.(d_frontier) = false) m.

Definition finish_stream (error : option string) (x : Http3DownstreamStreamState)
    : Http3DownstreamStreamState :=
  match error with
  | Some m => x <| d_reset := Some (MkReset (Some m) Transport) |> <| d_frontier := Reset |>
  | None =>
      let x := if decide (x.(d_frontier) = ResponseHeadReady)
               then x <| d_frontier := ResponseBodyReady |> else x in
      x <| d_frontier := Closed |>
  end.

Definition close_stream (id : Z) (error : option string) (s : Http3DownstreamSessionState)
    : Http3DownstreamSessionState :=
  let s := s <| active_streams := saturating_sub_u64 s.(active_streams) 1 |> in
  let s := s <| d_streams := alter (finish_stream error) id s.(d_streams) |> in
  let s := s <| d_streams := retain_active s.(d_streams) |> in
  if bool_decide (s.(s_frontier) = Draining) && (s.(active_streams) =? 0)
  then s <| s_frontier := SClosed |> else s.

Definition finish_request (att : option Http3DownstreamStreamAttachment) (error : option string)
    (st : Http3DownstreamSessionStore) : Http3DownstreamSessionStore :=
  match att with
  | None => st
  | Some a => st <| sessions := (Lru.get_mut a.(att_session) (close_stream a.(att_stream) error)
                                   st.(sessions)).2 |>
  end.

Definition close_session (error : option string) (s : Http3DownstreamSessionState)
    : Http3DownstreamSessionState :=
  let s := s <| active_streams := 0 |> <| last_error := error |> in
  match error with
  | Some m =>
      s <| s_frontier := Failed |>
        <| d_streams := (fun x => if is_terminal x.(d_frontier) then x
                                  else x <| d_reset := Some (MkReset (Some m) Transport) |>
                                         <| d_frontier := Reset |>) <$> s.(d_streams) |>
  | None =>
      let s := s <| d_goaway := Some (MkGoaway (Some "connection closed gracefully") LocalRuntime) |>
                 <| s_frontier := Draining |> in
      let s := s <| d_streams := retain_active s.(d_streams) |> in
      if bool_decide (s.(d_streams) = ∅) then s <| s_frontier := SClosed |> else s
  end.

(** Unlike HTTP/2, a connection that saw no request leaves the table. *)
Definition finish_connection (error : option string) (t : Tracker) (st : Http3DownstreamSessionStore)
    : Http3DownstreamSessionStore :=
  if negb t.(saw_http3)
  then st <| sessions := (Lru.remove t.(tracker_session) st.(sessions)).2 |>
  else st <| sessions := (Lru.get_mut t.(tracker_session) (close_session error) st.(sessions)).2 |>.

(** A request on a downstream HTTP/3 connection is attached under the
    stream identifier QUIC gave it; once finished the session's other live
    streams and its active count are as before; and ending the connection
    leaves a failed session with every stream reset, or a drained one that is
    closed exactly when no stream is live. *)
Theorem http3_downstream_lifecycle p id error t st s :
  Lru.peek t.(tracker_session) st.(sessions) = Some s -> d_streams s !! id = None ->
  0 <= active_streams s < U64_MAX ->
  let '(att, t', st1) := observe_request p id t st in
  let st2 := finish_request att error (note_response_head att st1) in
  att = Some (MkAttachment (tracker_session t) id)
  /\ (exists s2, Lru.peek t.(tracker_session) st2.(sessions) = Some s2
      /\ d_streams s2 = retain_active (d_streams s) /\ active_streams s2 = active_streams s)
  /\ exists s3, Lru.peek t.(tracker_session) (finish_connection error t' st2).(sessions) = Some s3
      /\ active_streams s3 = 0 /\ last_error s3 = error
      /\ match error with
         | Some _ => s_frontier s3 = Failed
             /\ forall j x, d_streams s3 !! j = Some x -> is_terminal (d_frontier x) = true
         | None => s_frontier s3 = if decide (retain_active (d_streams s) = ∅) then SClosed else Draining
         end.
Proof.
  intros Hs Hfresh Ha. unfold observe_request, Lru.peek in *. cbn [set_field]. cbn.
  pose proof (Lru.get_mut_result (tracker_session t) (open_stream p id) (sessions st)) as Hr.
  pose proof (Lru.get_mut_values (tracker_session t) (open_stream p id) (sessions st)) as Hv.
  rewrite Hs in Hr.
  destruct (Lru.get_mut (tracker_session t) (open_stream p id) (sessions st)) as [r sess].
  cbn in Hr, Hv. subst r. cbn. split; [done|].
  rewrite !Lru.get_mut_values, Hv, !lookup_alter_eq, Hs. cbn [fmap option_fmap option_map].
  set (s0 := if decide (s_frontier s = Candidate) then s <| s_frontier := Attached |> else s).
  assert (Hs0 : d_streams s0 = d_streams s /\ active_streams s0 = active_streams s)
    by (unfold s0; by case_decide).
  destruct Hs0 as (E1 & E2).
  match goal with |- context [close_stream id error ?x] => set (s1 := x) end.
  assert (Hc : d_streams (close_stream id error s1) = retain_active (d_streams s)
               /\ active_streams (close_stream id error s1) = active_streams s
               /\ s_frontier (close_stream id error s1) = Open).
  { unfold close_stream, s1, open_stream. cbn. change (bool_decide (Open = Draining)) with false. cbn.
    fold s0. rewrite E1, E2. unfold incr_u64, saturating_sub_u64, U64_MAX in *.
    rewrite Z.mod_small by lia. split_and!; [|lia|done].
    rewrite !alter_insert_eq. unfold retain_active.
    rewrite map_filter_insert_False by (by destruct error). by rewrite delete_id. }
  destruct Hc as (C1 & C2 & C3).
  split; [by eexists|]. eexists. split; [done|].
  destruct error as [m|].
  - cbn. split_and!; [done|done|done|]. intros j x. rewrite lookup_fmap_Some.
    intros (y & <- & _). by destruct (is_terminal (d_frontier y)) eqn:Hy.
  - assert (Hd : d_streams (close_stream id None s1) = retain_active (d_streams s)) by done.
    unfold close_session. cbn. rewrite Hd.
    assert (Hrr : retain_active (retain_active (d_streams s)) = retain_active (d_streams s)).
    { apply map_filter_id. intros j x Hx. cbn. by apply map_lookup_filter_Some in Hx as [_ ?]. }
    rewrite Hrr. case_decide as He.
    + by rewrite bool_decide_true by done.
    + by rewrite bool_decide_false by done.
Qed.

Definition demo_table : Http3DownstreamSessionStore :=
  (new "peer" (new_shared_http3_downstream_sessions 2)).2.

Lemma http3_downstream_lifecycle_witness :
  (observe_request "/" 4 (MkTracker 1 false) demo_table).1.1 = Some (MkAttachment 1 4).
Proof.
  pose proof (http3_downstream_lifecycle "/" 4 None (MkTracker 1 false) demo_table
    (MkDSession 1 Candidate "peer" 0 0 None None None ∅)) as Hl.
  specialize (Hl eq_refl eq_refl
                ltac:(unfold U64_MAX; cbn; lia)).
  destruct (observe_request "/" 4 (MkTracker 1 false) demo_table) as [[att t'] st1].
  exact (proj1 Hl).
Defined.

End Http3Downstream.
