(* ===== verification/Http1Text.v ===== *)
(** Model of the text primitives the HTTP/1 code shares: integers parsed by
    [from_str_radix], the chunk prefix [append_chunk_prefix] and the chunk size
    line of [src/runtime/http_plane/http1_fast_path.rs] and
    [src/abi_impl/http/outbound_http1.rs]. *)

From S2P Require Import Prelude Bytes.

Module Http1Text.

Definition U64_LIMIT : Z := 18446744073709551616.

Definition CRLF : list Z := [13; 10].

(** [buffer.windows(2).position(|window| window == b"\r\n")] *)
Fixpoint find_crlf (l : list Z) : option nat :=
  match l with
  | 13 :: 10 :: _ => Some 0%nat
  | _ :: l => S <$> find_crlf l
  | [] => None
  end.

(** ** Integers *)

(** [char::to_digit] on an ASCII byte. *)
Definition to_digit (radix b : Z) : option Z :=
  let d := if (48 <=? b) && (b <=? 57) then b - 48
           else if (97 <=? b) && (b <=? 122) then b - 87
           else if (65 <=? b) && (b <=? 90) then b - 55
           else radix in
  if d <? radix then Some d else None.

(** The digits of [u64::from_str_radix]; a digit is checked before the
    multiplication that overflowed is reported. *)
Fixpoint radix_loop (radix acc : Z) (l : list Z) : result string Z :=
  match l with
  | [] => Ok acc
  | b :: l =>
      match to_digit radix b with
      | None => Err "invalid digit found in string"
      | Some d =>
          let n := acc * radix + d in
          if n <? U64_LIMIT then radix_loop radix n l
          else Err "number too large to fit in target type"
      end
  end.

(** [u64::from_str_radix] and, on 64-bit targets, [usize::from_str_radix]. *)
Definition from_str_radix (radix : Z) (s : string) : result string Z :=
  match bytes_of_string s with
  | [] => Err "cannot parse integer from empty string"
  | [43] | [45] => Err "invalid digit found in string"
  | 43 :: l => radix_loop radix 0 l
  | l => radix_loop radix 0 l
  end.

(** [str::parse::<u64>] *)
Definition parse_u64 (s : string) : result string Z := from_str_radix 10 s.

(** ** Chunk prefixes *)

Definition hex_digit (d : Z) : Z := if d <=? 9 then 48 + d else 65 + (d - 10).

(** The loop of [append_chunk_prefix]: it fills the array of 16 digits from
    the end; running out of digits would be the underflow of [index]. *)
Fixpoint chunk_digits (digits : nat) (value : Z) (acc : list Z) : option (list Z) :=
  match digits with
  | O => None
  | S digits =>
      let acc := hex_digit (Z.land value 15) :: acc in
      let value := Z.shiftr value 4 in
      if value =? 0 then Some acc else chunk_digits digits value acc
  end.

Definition append_chunk_prefix (encoded : list Z) (n : Z) : option (list Z) :=
  digits ← chunk_digits 16 n [];
  Some (encoded ++ digits ++ CRLF).

(** What both readers do with a chunk size line: the text before the first
    [;], trimmed, as a hexadecimal number.  The three errors carry what the
    readers put in their messages. *)
Inductive size_error :=
| InvalidUtf8 (e : Utf8Error)
| MissingSize
| InvalidSize (value message : string).

Definition chunk_size (line : list Z) : result size_error Z :=
  match from_utf8 line with
  | Err e => Err (InvalidUtf8 e)
  | Ok s =>
      match head (split_on 59 s) with
      | None => Err MissingSize
      | Some v =>
          let v := trim v in
          if is_empty v then Err MissingSize
          else match from_str_radix 16 v with
               | Ok n => Ok n
               | Err e => Err (InvalidSize v e)
               end
      end
  end.

(** ** Lemmas *)

Definition is_hex (b : Z) : Prop := 48 <= b <= 57 \/ 65 <= b <= 70.

Lemma to_digit_hex d : 0 <= d < 16 -> to_digit 16 (hex_digit d) = Some d.
Proof.
  intros Hd. apply (bool_decide_eq_true_1 (to_digit 16 (hex_digit d) = Some d)). revert d Hd.
  by apply (seqZ_check (fun d => bool_decide (to_digit 16 (hex_digit d) = Some d)) 0 16).
Qed.

Lemma hex_digit_hex d : 0 <= d < 16 -> is_hex (hex_digit d).
Proof. unfold is_hex, hex_digit. intros Hd. case_match; lia. Qed.

Lemma land_15_bounds v : 0 <= Z.land v 15 < 16.
Proof. change 15 with (Z.ones 4). rewrite Z.land_ones by lia. apply Z.mod_pos_bound. lia. Qed.

Lemma shiftr_land v : Z.shiftr v 4 * 16 + Z.land v 15 = v.
Proof.
  change 15 with (Z.ones 4). rewrite Z.land_ones, Z.shiftr_div_pow2 by lia. change (2 ^ 4) with 16.
  pose proof (Z_div_mod_eq_full v 16). lia.
Qed.

Lemma chunk_digits_parse k v acc l :
  0 <= v < U64_LIMIT -> chunk_digits k v acc = Some l ->
  radix_loop 16 0 l = radix_loop 16 v acc.
Proof.
  revert v acc. induction k as [|k IH]; intros v acc Hv; cbn [chunk_digits]; [done|].
  pose proof (land_15_bounds v) as Hd. pose proof (shiftr_land v) as Hs.
  assert (Hdig : forall a, a * 16 + Z.land v 15 = v ->
    radix_loop 16 a (hex_digit (Z.land v 15) :: acc) = radix_loop 16 v acc).
  { intros a Ha. cbn [radix_loop]. rewrite to_digit_hex by done. rewrite Ha.
    by rewrite (proj2 (Z.ltb_lt v U64_LIMIT) (proj2 Hv)). }
  destruct (Z.eqb_spec (Z.shiftr v 4) 0) as [H0|H0].
  - intros [= <-]. rewrite H0 in Hs. by apply Hdig.
  - intros Hc. rewrite (IH (Z.shiftr v 4) (hex_digit (Z.land v 15) :: acc)); [by apply Hdig| |done].
    pose proof (proj2 (Z.shiftr_nonneg v 4) ltac:(lia)). lia.
Qed.

Lemma chunk_digits_some k v acc :
  0 <= v < 16 ^ Z.of_nat k -> (0 < k)%nat ->
  exists l, chunk_digits k v acc = Some (l ++ acc) /\ l ≠ [] /\ Forall is_hex l.
Proof.
  revert v acc. induction k as [|k IH]; intros v acc Hv Hk; [lia|]. cbn [chunk_digits].
  pose proof (land_15_bounds v) as Hd. pose proof (shiftr_land v) as Hs.
  pose proof (hex_digit_hex _ Hd) as Hh.
  destruct (Z.eqb_spec (Z.shiftr v 4) 0) as [H0|H0].
  - exists [hex_digit (Z.land v 15)]. split_and!; [done|done|by constructor].
  - rewrite Nat2Z.inj_succ, Z.pow_succ_r in Hv by lia.
    pose proof (proj2 (Z.shiftr_nonneg v 4) ltac:(lia)).
    destruct k as [|k]; [cbn in Hv; lia|].
    destruct (IH (Z.shiftr v 4) (hex_digit (Z.land v 15) :: acc)) as (l & -> & Hne & Hl); [lia..|].
    exists (l ++ [hex_digit (Z.land v 15)]). split_and!; [by rewrite <-app_assoc|by destruct l|].
    apply Forall_app. by split; [|constructor].
Qed.

Lemma hex_ascii b : is_hex b -> in_u8 b /\ utf8_char_width b = 1 /\ b ≠ 59 /\ b ≠ 13 /\ b ≠ 43 /\ b ≠ 45
  /\ strip_ws_front [b] = None.
Proof.
  unfold is_hex, in_u8. intros Hb. split; [lia|].
  assert (Hc : 48 <= b < 48 + 23) by lia.
  pose proof (seqZ_check (fun b => bool_decide (utf8_char_width b = 1) && bool_decide (strip_ws_front [b] = None))
    48 23 ltac:(by vm_compute) b Hc) as [H1 H2]%andb_true_iff.
  apply bool_decide_eq_true in H1, H2. split_and!; (done || lia).
Qed.

Lemma hex_utf8 i l : Forall is_hex l -> utf8_validate i l = None.
Proof.
  revert i. induction l as [|b l IH]; intros i; [done|]. intros [Hb Hl]%Forall_cons.
  destruct (hex_ascii b Hb) as (_ & Hw & _). cbn [utf8_validate]. rewrite Hw. cbn. by apply IH.
Qed.

Lemma hex_split cur l : Forall is_hex l -> split_bytes 59 cur l = [reverse cur ++ l].
Proof.
  revert cur. induction l as [|b l IH]; intros cur; cbn; [by rewrite app_nil_r|].
  intros [Hb Hl]%Forall_cons. destruct (hex_ascii b Hb) as (_ & _ & H59 & _).
  rewrite (proj2 (Z.eqb_neq _ _) H59), IH by done. by rewrite reverse_cons, <-app_assoc.
Qed.

Lemma radix_loop_nonneg radix acc l n :
  0 <= acc -> 0 <= radix -> radix_loop radix acc l = Ok n -> 0 <= n < U64_LIMIT \/ n = acc.
Proof.
  revert acc. induction l as [|b l IH]; intros acc Ha Hr; cbn; [intros [= <-]; by right|].
  destruct (to_digit radix b) as [d|] eqn:Hd; [|done].
  assert (0 <= d).
  { unfold to_digit in Hd. repeat case_match; simplify_eq; lia. }
  case_match eqn:Hlt; [|done]. intros Hl. apply Z.ltb_lt in Hlt.
  destruct (IH (acc * radix + d)) as [?| ->]; [nia|done|done|by left|left; nia].
Qed.

Lemma from_str_radix_bounds radix s n :
  0 <= radix -> from_str_radix radix s = Ok n -> 0 <= n < U64_LIMIT.
Proof.
  intros Hr. unfold from_str_radix.
  assert (Hl : forall l, radix_loop radix 0 l = Ok n -> 0 <= n < U64_LIMIT).
  { intros l Hl. destruct (radix_loop_nonneg radix 0 l n ltac:(lia) Hr Hl) as [?| ->]; [done|].
    by unfold U64_LIMIT. }
  repeat case_match; try done; apply Hl.
Qed.

Lemma chunk_size_bounds line n : chunk_size line = Ok n -> 0 <= n < U64_LIMIT.
Proof.
  unfold chunk_size. repeat case_match; try done. intros [= <-]. by eapply (from_str_radix_bounds 16).
Qed.

Ltac enum_hex b Hb :=
  let Hin := fresh "Hin" in
  assert (Hin : b ∈ seqZ 48 23) by (apply elem_of_seqZ; unfold is_hex in Hb; lia);
  vm_compute in Hin;
  repeat (apply elem_of_cons in Hin as [->|Hin]; [clear Hb|]); [..|by apply elem_of_nil in Hin].

Lemma hex_strip_front l : Forall is_hex l -> strip_ws_front l = None.
Proof.
  destruct l as [|b l]; [done|]. intros [Hb _]%Forall_cons. enum_hex b Hb; done.
Qed.

Lemma hex_strip_back l : Forall is_hex l -> strip_ws_back l = None.
Proof.
  destruct l as [|b l]; [done|]. intros [Hb Hl]%Forall_cons. destruct l as [|c l].
  - enum_hex b Hb; done.
  - apply Forall_cons in Hl as [Hc _]. enum_hex b Hb; enum_hex c Hc; done.
Qed.

Lemma hex_u8s l : Forall is_hex l -> is_u8s l.
Proof. intros Hl. eapply Forall_impl; [exact Hl|]. intros b Hb. by apply hex_ascii. Qed.

Lemma strip_while_none strip n l : strip l = None -> strip_while strip n l = l.
Proof. intros Hs. destruct n; cbn; by rewrite ?Hs. Qed.

Lemma hex_trim l : Forall is_hex l -> trim (string_of_bytes l) = string_of_bytes l.
Proof.
  intros Hl. unfold trim. rewrite bytes_of_string_of_bytes by by apply hex_u8s.
  rewrite (strip_while_none _ _ l) by by apply hex_strip_front.
  rewrite strip_while_none, reverse_involutive; [done|]. apply hex_strip_back.
  by apply Forall_reverse.
Qed.

Lemma hex_radix l : Forall is_hex l -> l ≠ [] -> from_str_radix 16 (string_of_bytes l) = radix_loop 16 0 l.
Proof.
  intros Hl Hne. unfold from_str_radix. rewrite bytes_of_string_of_bytes by by apply hex_u8s.
  destruct l as [|b l]; [done|]. apply Forall_cons in Hl as [Hb _]. enum_hex b Hb; by destruct l.
Qed.

Lemma chunk_size_hex l : Forall is_hex l -> l ≠ [] ->
  chunk_size l = match radix_loop 16 0 l with
                 | Ok n => Ok n
                 | Err e => Err (InvalidSize (string_of_bytes l) e)
                 end.
Proof.
  intros Hl Hne. unfold chunk_size, from_utf8. rewrite hex_utf8 by done.
  unfold split_on. rewrite bytes_of_string_of_bytes, hex_split by (done || by apply hex_u8s).
  cbn [fmap list_fmap head]. rewrite reverse_nil, app_nil_l, hex_trim by done.
  rewrite hex_radix by done. unfold is_empty. rewrite bool_decide_false; [done|].
  intros Hs. apply Hne. rewrite <-(bytes_of_string_of_bytes l) by by apply hex_u8s. by rewrite Hs.
Qed.

Lemma find_crlf_cons b l :
  find_crlf (b :: l) = if bool_decide (b = 13 /\ head l = Some 10) then Some 0%nat else S <$> find_crlf l.
Proof.
  destruct (decide (b = 13)) as [->|Hb].
  - destruct l as [|c l]; [by rewrite bool_decide_false by (by intros [_ ?])|].
    destruct (decide (c = 10)) as [->|Hc]; [by rewrite bool_decide_true|].
    rewrite bool_decide_false by (cbn; naive_solver).
    destruct c as [|p|p]; try done. do 3 (destruct p as [p|p|]; try done). by destruct p.
  - rewrite bool_decide_false by naive_solver.
    destruct b as [|p|p]; try done. do 3 (destruct p as [p|p|]; try done). by destruct p.
Qed.

Lemma find_crlf_some l i :
  find_crlf l = Some i -> take i l ++ CRLF ++ drop (i + 2) l = l.
Proof.
  revert i. induction l as [|b l IH]; intros i; [done|]. rewrite find_crlf_cons. case_bool_decide as Hb.
  - destruct Hb as [-> Hl]. destruct l as [|c l]; [done|]. injection Hl as ->. intros [= <-]. done.
  - destruct (find_crlf l) as [j|]; [|done]. intros [= <-]. cbn. f_equal. by apply IH.
Qed.

Lemma find_crlf_app i l k : find_crlf l = Some i -> find_crlf (l ++ k) = Some i.
Proof.
  revert i. induction l as [|b l IH]; intros i; [done|]. cbn [app]. rewrite !find_crlf_cons.
  destruct l as [|c l]; [by case_bool_decide as Hb; [destruct Hb|]|]. cbn [app head].
  case_bool_decide; [done|]. destruct (find_crlf (c :: l)) as [j|]; [|done].
  intros [= <-]. cbn [app] in IH. by rewrite (IH j eq_refl).
Qed.

(** A line: the first CRLF after it is the one that ends it. *)
Definition is_line (l : list Z) : Prop := find_crlf (l ++ CRLF) = Some (length l).

Lemma find_crlf_line l rest : is_line l -> find_crlf (l ++ CRLF ++ rest) = Some (length l).
Proof. intros Hl. rewrite app_assoc. by apply find_crlf_app. Qed.

Lemma no_cr_is_line l : 13 ∉ l -> is_line l.
Proof.
  unfold is_line. induction l as [|b l IH]; [done|]. intros Hn. cbn [app length].
  rewrite find_crlf_cons, bool_decide_false by set_solver. by rewrite IH by set_solver.
Qed.

Lemma find_crlf_is_line l i : find_crlf l = Some i -> is_line (take i l).
Proof.
  unfold is_line. revert i. induction l as [|b l IH]; intros i; [done|]. rewrite find_crlf_cons.
  case_bool_decide as Hb; [by intros [= <-]|].
  destruct (find_crlf l) as [j|] eqn:Hj; [|done]. intros [= <-]. specialize (IH j eq_refl).
  cbn [take app length]. rewrite find_crlf_cons, IH, bool_decide_false; [done|].
  intros [-> Hh]. apply Hb. split; [done|]. destruct j; [done|]. by destruct l.
Qed.

Lemma hex_no_cr l : Forall is_hex l -> 13 ∉ l.
Proof.
  intros Hl Hin. rewrite Forall_forall in Hl. specialize (Hl _ Hin). unfold is_hex in Hl. lia.
Qed.

(** The prefix of a chunk of [n] bytes, as the writers emit it, is a line that
    the readers take for [n]. *)
Lemma chunk_prefix_line n encoded :
  0 <= n < U64_LIMIT ->
  exists line, append_chunk_prefix encoded n = Some (encoded ++ line ++ CRLF)
    /\ is_line line /\ line ≠ [] /\ chunk_size line = Ok n.
Proof.
  intros Hn. destruct (chunk_digits_some 16 n []) as (l & Hl & Hne & Hhex); [|lia|].
  { change (16 ^ Z.of_nat 16) with U64_LIMIT. lia. }
  exists l. unfold append_chunk_prefix. rewrite Hl, app_nil_r. cbn [mbind option_bind].
  split_and!; [done|by apply no_cr_is_line, hex_no_cr|done|].
  rewrite chunk_size_hex, <-(app_nil_r l) by done. by rewrite (chunk_digits_parse 16 n [] (l ++ [])).
Qed.

(** Chunk prefixes round trip: for every 64-bit length the writer's digit
    array suffices (its index never underflows), and the line it emits is
    non-empty, holds no CR and is read back as that length by both chunked
    readers. *)
Theorem chunk_prefix_roundtrip n encoded :
  0 <= n < U64_LIMIT ->
  exists line, append_chunk_prefix encoded n = Some (encoded ++ line ++ CRLF)
    /\ line ≠ [] /\ chunk_size line = Ok n
    /\ forall rest, find_crlf (line ++ CRLF ++ rest) = Some (length line).
Proof.
  intros Hn. destruct (chunk_prefix_line n encoded Hn) as (l & ? & Hcr & ? & ?).
  exists l. split_and!; [done..|]. intros rest. by apply find_crlf_line.
Qed.

Lemma chunk_prefix_roundtrip_witness :
  exists line, append_chunk_prefix [] 255 = Some (line ++ CRLF) /\ chunk_size line = Ok 255.
Proof.
  destruct (chunk_prefix_roundtrip 255 []) as (l & Hl & _ & Hs & _); [unfold U64_LIMIT; lia|].
  by exists l.
Defined.

End Http1Text.
