(* ===== verification/Http1Io.v ===== *)
(** Model of a buffered HTTP/1 connection, as both
    [src/runtime/http_plane/http1_fast_path.rs] and
    [src/abi_impl/http/outbound_http1.rs] read one: a buffer of received bytes
    and a stream that appends to it.  What the peer sends is a list of reads;
    a read of no bytes, or the end of the list, is the end of the stream. *)

From S2P Require Import Prelude Bytes Http1Text.

Module Http1Io.
Import Http1Text.

Inductive read :=
| Data (bytes : list Z)
| IoError (message : string).

Record Connection := MkConn {
  buffered : list Z;
  incoming : list read;
}.
#[export] Instance eta_conn : Eta Connection := fun c => MkConn c.(buffered) c.(incoming).

(** [stream.read_buf(buffered)]: the number of bytes read. *)
Definition read_buf (c : Connection) : result string Z * Connection :=
  match c.(incoming) with
  | [] => (Ok 0, c)
  | Data l :: r => (Ok (len l), MkConn (c.(buffered) ++ l) r)
  | IoError e :: r => (Err e, c <| incoming := r |>)
  end.

(** The loops of [read_fast_http1_line] and [read_line]: they end with the
    peer's reads.  [Ok None] is the end of the stream. *)
Fixpoint read_line_loop (buf : list Z) (inc : list read) : result string (option (list Z)) * Connection :=
  match find_crlf buf with
  | Some line_end => (Ok (Some (take line_end buf)), MkConn (drop (line_end + 2) buf) inc)
  | None =>
      match inc with
      | [] | Data [] :: _ => (Ok None, MkConn buf (tail inc))
      | Data l :: inc => read_line_loop (buf ++ l) inc
      | IoError e :: inc => (Err e, MkConn buf inc)
      end
  end.
Definition read_line (c : Connection) : result string (option (list Z)) * Connection :=
  read_line_loop c.(buffered) c.(incoming).

(** The loops of [ensure_fast_http1_buffered_bytes] and [ensure_buffered_bytes]. *)
Fixpoint ensure_loop (count : nat) (buf : list Z) (inc : list read) : result string bool * Connection :=
  if (count <=? length buf)%nat then (Ok true, MkConn buf inc)
  else
    match inc with
    | [] | Data [] :: _ => (Ok false, MkConn buf (tail inc))
    | Data l :: inc => ensure_loop count (buf ++ l) inc
    | IoError e :: inc => (Err e, MkConn buf inc)
    end.
Definition ensure_buffered_bytes (count : nat) (c : Connection) : result string bool * Connection :=
  ensure_loop count c.(buffered) c.(incoming).

(** [buffered.split_to(n)] *)
Definition split_to (n : nat) (c : Connection) : list Z * Connection :=
  (take n c.(buffered), c <| buffered := drop n c.(buffered) |>).

#[global] Arguments split_to : simpl never.

(** ** What is left on a connection *)

(** A peer that only sends data. *)
Definition healthy (inc : list read) : Prop := Forall (fun r => exists b l, r = Data (b :: l)) inc.
Definition payload (r : read) : list Z := match r with Data l => l | IoError _ => [] end.
Definition total (c : Connection) : list Z := c.(buffered) ++ concat (payload <$> c.(incoming)).

(** The connection has the bytes [l] left, however they are split. *)
Definition holds (c : Connection) (l : list Z) : Prop := healthy c.(incoming) /\ total c = l.

Lemma drop_line (line rest : list Z) : drop (length line + 2) (line ++ CRLF ++ rest) = rest.
Proof. rewrite app_assoc. apply drop_app_length'. by rewrite length_app. Qed.

(** A line that is on its way is read, whatever the split. *)
Lemma read_line_holds c line rest :
  is_line line -> holds c (line ++ CRLF ++ rest) ->
  exists c', read_line c = (Ok (Some line), c') /\ holds c' rest.
Proof.
  intros Hcr. unfold read_line, holds, total. destruct c as [buf inc]. cbn [buffered incoming].
  revert buf. induction inc as [|r inc IH]; intros buf [Hh Htot]; cbn [read_line_loop].
  - cbn [concat fmap list_fmap payload buffered incoming] in Htot. rewrite app_nil_r in Htot. subst buf. rewrite find_crlf_line by done.
    eexists. split; [by rewrite take_app_length|]. split; [constructor|].
    cbn [concat fmap list_fmap buffered incoming]. by rewrite app_nil_r, drop_line.
  - apply Forall_cons in Hh as [(b & l & ->) Hh].
    destruct (find_crlf buf) as [i|] eqn:Hi.
    + eexists. pose proof (find_crlf_some _ _ Hi) as Hbuf.
      pose proof (find_crlf_app i buf (concat (payload <$> Data (b :: l) :: inc)) Hi) as Hi'.
      rewrite Htot, find_crlf_line in Hi' by done. injection Hi' as <-.
      assert (Hlen : (length line + 2 <= length buf)%nat).
      { apply (f_equal length) in Hbuf.
        rewrite !length_app, length_take, length_drop in Hbuf. cbn [length CRLF] in Hbuf. lia. }
      assert (Htake : take (length line) buf = line).
      { rewrite <-(take_app_le buf (concat (payload <$> Data (b :: l) :: inc))) by lia.
        rewrite Htot. by rewrite take_app_length. }
      split; [by rewrite Htake|]. split; [by constructor; [exists b, l|]|]. cbn [buffered incoming].
      assert (Hd : drop (length line + 2) (buf ++ concat (payload <$> Data (b :: l) :: inc)) = rest).
      { by rewrite Htot, drop_line. }
      by rewrite drop_app_le in Hd by lia.
    + apply IH. split; [done|]. rewrite <-app_assoc. done.
Qed.

Lemma ensure_holds n c l :
  (n <= length l)%nat -> holds c l ->
  exists c', ensure_buffered_bytes n c = (Ok true, c') /\ holds c' l /\ (n <= length (buffered c'))%nat.
Proof.
  intros Hn. unfold ensure_buffered_bytes, holds, total. destruct c as [buf inc]. cbn [buffered incoming].
  revert buf. induction inc as [|r inc IH]; intros buf [Hh Htot]; cbn [ensure_loop].
  - cbn [concat fmap list_fmap payload buffered incoming] in Htot. rewrite app_nil_r in Htot. subst. rewrite (proj2 (Nat.leb_le _ _)) by done.
    eexists. split; [done|]. cbn. by rewrite app_nil_r.
  - apply Forall_cons in Hh as [(b & k & ->) Hh]. destruct (Nat.leb_spec n (length buf)).
    + eexists. split; [done|]. cbn. split; [|done]. split; [|done]. constructor; [by exists b, k|done].
    + destruct (IH (buf ++ b :: k)) as (c' & Hc & Hhold & Hlen); [|by exists c'].
      split; [done|]. by rewrite <-app_assoc.
Qed.

Lemma read_buf_holds c l :
  holds c l -> buffered c = [] -> l ≠ [] ->
  exists n c', read_buf c = (Ok n, c') /\ 0 < n /\ holds c' l /\ buffered c' ≠ []
    /\ (length (incoming c') < length (incoming c))%nat.
Proof.
  intros [Hh Htot] Hbuf Hne. unfold read_buf. unfold total in Htot. rewrite Hbuf in Htot. cbn in Htot.
  destruct (incoming c) as [|r inc]; [by subst|].
  apply Forall_cons in Hh as [(b & k & ->) Hh]. rewrite Hbuf. cbn.
  eexists _, _. split; [done|]. split; [len_lia|]. split; [|split; [done|cbn; lia]].
  split; [done|]. exact Htot.
Qed.

Lemma split_to_holds n c l :
  holds c l -> (n <= length (buffered c))%nat ->
  (split_to n c).1 = take n l /\ holds (split_to n c).2 (drop n l).
Proof.
  intros [Hh Htot] Hn. unfold split_to, holds, total in *. cbn. rewrite <-Htot.
  split; [by rewrite take_app_le|]. split; [done|]. by rewrite drop_app_le.
Qed.

(** A chunked body with the data [data], as it stands on the wire: size lines
    with any extension the readers accept, and any trailers. *)
Inductive chunked_wire : list Z -> list Z -> Prop :=
| wire_end line trailers :
    is_line line -> chunk_size line = Ok 0 -> Forall (fun t => t ≠ [] /\ is_line t) trailers ->
    chunked_wire [] (line ++ CRLF ++ concat ((fun t => t ++ CRLF) <$> trailers) ++ CRLF)
| wire_chunk line d data wire :
    is_line line -> d ≠ [] -> chunk_size line = Ok (len d) -> chunked_wire data wire ->
    chunked_wire (d ++ data) (line ++ CRLF ++ d ++ CRLF ++ wire).

(** ** What a read consumes, whatever the peer sends *)

Lemma read_buf_total c n c' : read_buf c = (Ok n, c') -> total c' = total c /\ (n = 0 -> buffered c' = buffered c).
Proof.
  unfold read_buf, total. destruct (incoming c) as [|[l|e] inc] eqn:Hi; intros [= <- <-]; cbn; rewrite ?Hi.
  - done.
  - rewrite <-app_assoc. split; [done|]. destruct l; [by rewrite app_nil_r|len_lia].
Qed.

Lemma split_to_total n c : (split_to n c).1 ++ total (split_to n c).2 = total c.
Proof. unfold split_to, total. cbn. by rewrite app_assoc, take_drop. Qed.

Lemma read_line_total c line c' :
  read_line c = (Ok (Some line), c') -> is_line line /\ total c = line ++ CRLF ++ total c'.
Proof.
  unfold read_line, total. destruct c as [buf inc]. cbn [buffered incoming].
  revert buf. induction inc as [|r inc IH]; intros buf; cbn [read_line_loop];
    destruct (find_crlf buf) as [i|] eqn:Hi; try done.
  1, 2: intros [= <- <-]; split; [by apply find_crlf_is_line|]; cbn [buffered incoming];
    rewrite !app_assoc; f_equal; rewrite <-!app_assoc; by rewrite find_crlf_some.
  destruct r as [[|b l]|e]; [done| |done]. intros Hr. apply IH in Hr as [? Heq]. split; [done|].
  cbn [fmap list_fmap concat payload] in *. by rewrite <-app_assoc in Heq.
Qed.

Lemma ensure_total n c b c' : ensure_buffered_bytes n c = (Ok b, c') -> total c' = total c.
Proof.
  unfold ensure_buffered_bytes, total. destruct c as [buf inc]. cbn [buffered incoming].
  revert buf. induction inc as [|r inc IH]; intros buf; cbn [ensure_loop];
    destruct (n <=? length buf)%nat; try (by intros [= <- <-]).
  destruct r as [[|x l]|e]; [by intros [= <- <-]| |done]. intros Hr. apply IH in Hr.
  cbn [fmap list_fmap concat payload] in *. by rewrite Hr, <-app_assoc.
Qed.

(** ** How much a connection can still give

    A measure that every read, line and split decreases, whatever the peer
    does. *)

Definition conn_size (c : Connection) : nat := 2 * length (total c) + length c.(incoming).
#[global] Arguments conn_size : simpl never.

Lemma read_buf_size c r c' :
  read_buf c = (r, c') ->
  (conn_size c' <= conn_size c)%nat
  /\ (forall n, r = Ok n -> n ≠ 0 -> (conn_size c' < conn_size c)%nat).
Proof.
  unfold read_buf, conn_size, total. destruct (incoming c) as [|[l|e] inc] eqn:Hinc; intros [= <- <-]; cbn;
    rewrite ?Hinc; cbn; rewrite ?length_app; (split; [lia|]); intros n [= <-]; done || lia.
Qed.

Lemma conn_size_data buf l inc :
  conn_size (MkConn buf (Data l :: inc)) = S (conn_size (MkConn (buf ++ l) inc)).
Proof.
  unfold conn_size, total. cbn [buffered incoming fmap list_fmap concat payload length].
  rewrite <-app_assoc. lia.
Qed.

Lemma conn_size_tail buf inc : (conn_size (MkConn buf (tail inc)) <= conn_size (MkConn buf inc))%nat.
Proof.
  destruct inc as [|r inc]; [done|]. unfold conn_size, total. cbn [buffered incoming fmap list_fmap concat tail].
  rewrite !length_app. cbn [length]. lia.
Qed.

Lemma conn_size_drop i buf inc :
  find_crlf buf = Some i -> (conn_size (MkConn (drop (i + 2) buf) inc) + 4 <= conn_size (MkConn buf inc))%nat.
Proof.
  intros Hi. apply find_crlf_some, (f_equal length) in Hi.
  rewrite !length_app, length_take, length_drop in Hi. cbn [length CRLF] in Hi.
  unfold conn_size, total. cbn [buffered incoming]. rewrite !length_app, length_drop. lia.
Qed.

Lemma read_line_size c r c' :
  read_line c = (r, c') ->
  (conn_size c' <= conn_size c)%nat
  /\ forall line, r = Ok (Some line) -> (conn_size c' + 4 <= conn_size c)%nat.
Proof.
  unfold read_line. destruct c as [buf inc]; cbn [buffered incoming].
  revert buf. induction inc as [|x inc IH]; intros buf; cbn [read_line_loop];
    destruct (find_crlf buf) as [i|] eqn:Hi.
  - intros [= <- <-]. pose proof (conn_size_drop _ _ [] Hi). split; [lia|]. intros; lia.
  - intros [= <- <-]. split; [lia|]. done.
  - intros [= <- <-]. pose proof (conn_size_drop _ _ (x :: inc) Hi). split; [lia|]. intros; lia.
  - pose proof (conn_size_tail buf (x :: inc)) as Ht. cbn [tail] in *. destruct x as [[|b l]|e].
    + intros [= <- <-]. by split.
    + rewrite conn_size_data. intros Hr. apply IH in Hr as [H1 H2]. split; [lia|].
      intros line Hl. specialize (H2 line Hl). lia.
    + intros [= <- <-]. by split.
Qed.

Lemma ensure_size n c r c' :
  ensure_buffered_bytes n c = (r, c') ->
  (conn_size c' <= conn_size c)%nat /\ (r = Ok true -> (n <= length (buffered c'))%nat).
Proof.
  unfold ensure_buffered_bytes. destruct c as [buf inc]; cbn [buffered incoming].
  revert buf. induction inc as [|x inc IH]; intros buf; cbn [ensure_loop];
    destruct (Nat.leb_spec n (length buf)); try (by intros [= <- <-]).
  pose proof (conn_size_tail buf (x :: inc)) as Ht. cbn [tail] in *. destruct x as [[|b l]|e].
  - by intros [= <- <-].
  - rewrite conn_size_data. intros Hr. apply IH in Hr as [H1 H2]. split; [lia|done].
  - by intros [= <- <-].
Qed.

Lemma split_to_size n c :
  (n <= length (buffered c))%nat -> (conn_size (split_to n c).2 + 2 * n = conn_size c)%nat.
Proof.
  intros Hn. unfold split_to, conn_size, total. cbn. rewrite !length_app, length_drop. lia.
Qed.

End Http1Io.
