(* ===== verification/Http1RequestBody.v ===== *)
(** Model of the request body reader of
    [src/runtime/http_plane/http1_fast_path.rs]: a body of a fixed length or in
    chunks, pulled from the connection it shares with the next request, and
    the lease that drains it before the connection is used again. *)

From S2P Require Import Prelude Bytes Http1Text Http1Io.

Module Http1RequestBody.
Import Http1Text Http1Io.

(** [FastHttp1ReadError]; the stored form of an error has the same cases. *)
Inductive FastHttp1ReadError :=
| Io (message : string)
| BadRequest (message : string)
| PayloadTooLarge.
#[export] Instance FastHttp1ReadError_eq_dec : EqDecision FastHttp1ReadError.
Proof. solve_decision. Defined.

Inductive FastHttp1ChunkedState :=
| NeedSize
| ReadData (remaining : Z)
| ExpectChunkTerminator
| ReadTrailers.

Inductive FastHttp1StreamingBodyKind :=
| Fixed (remaining : Z)
| Chunked (state : FastHttp1ChunkedState).

Record FastHttp1RequestBodyState := MkBody {
  connection : option Connection;
  kind : FastHttp1StreamingBodyKind;
  remaining_budget : Z;
  terminal_error : option FastHttp1ReadError;
}.
#[export] Instance eta_body : Eta FastHttp1RequestBodyState := fun s =>
  MkBody s.(connection) s.(kind) s.(remaining_budget) s.(terminal_error).

Definition from_connection (c : Connection) (k : FastHttp1StreamingBodyKind) (budget : Z)
    : FastHttp1RequestBodyState := MkBody (Some c) k budget None.

(** The outcome of one iteration of the loop of [pull_next]. *)
Inductive progress :=
| Continue (s : FastHttp1RequestBodyState)
| Return (r : result FastHttp1ReadError (option (list Z))) (s : FastHttp1RequestBodyState).

Definition remember_error (e : FastHttp1ReadError) (s : FastHttp1RequestBodyState) : progress :=
  Return (Err e) (s <| terminal_error := Some e |>).

(** [connection_mut], followed by what the iteration does with it. *)
Definition with_connection (s : FastHttp1RequestBodyState) (f : Connection -> progress) : progress :=
  match s.(connection) with
  | None => Return (Err (Io "downstream http/1.1 request body connection is unavailable")) s
  | Some c => f c
  end.

(** The part the fixed and the chunk data arms share: read when the buffer is
    empty, otherwise hand out at most [remaining] bytes. *)
Definition pull_data (remaining : Z) (again : FastHttp1StreamingBodyKind)
    (after : Z -> FastHttp1StreamingBodyKind) (closed : string) (s : FastHttp1RequestBodyState) : progress :=
  with_connection s (fun c =>
    if bool_decide (c.(buffered) = []) then
      let '(r, c) := read_buf c in
      let s := s <| connection := Some c |> in
      match r with
      | Err e => Return (Err (Io e)) s
      | Ok n => if n =? 0 then remember_error (BadRequest closed) s
                else Continue (s <| kind := again |>)
      end
    else
      let n := Z.min (len c.(buffered)) remaining in
      let '(chunk, c) := split_to (Z.to_nat n) c in
      Return (Ok (Some chunk)) (s <| connection := Some c |> <| kind := after (remaining - n) |>)).

(** Reads a line; [Ok None] and errors end the iteration. *)
Definition pull_line (closed : string) (s : FastHttp1RequestBodyState)
    (f : list Z -> FastHttp1RequestBodyState -> progress) : progress :=
  with_connection s (fun c =>
    let '(r, c) := read_line c in
    let s := s <| connection := Some c |> in
    match r with
    | Err e => Return (Err (Io e)) s
    | Ok None => remember_error (BadRequest closed) s
    | Ok (Some line) => f line s
    end).

Definition size_error_message (e : size_error) : string :=
  match e with
  | InvalidUtf8 e => "invalid utf-8 in downstream http/1.1 chunk size: " +:+ utf8_error_display e
  | MissingSize => "missing downstream http/1.1 chunk size"
  | InvalidSize v e => "invalid downstream http/1.1 chunk size `" +:+ v +:+ "`: " +:+ e
  end.

(** One iteration of [pull_next]; it first takes the kind, leaving
    [Fixed { remaining: 0 }]. *)
Definition pull_step (s : FastHttp1RequestBodyState) : progress :=
  let k := s.(kind) in
  let s := s <| kind := Fixed 0 |> in
  match k with
  | Fixed remaining =>
      if remaining =? 0 then Return (Ok None) s
      else pull_data remaining (Fixed remaining) Fixed
             "downstream http/1.1 request body closed before content-length completed" s
  | Chunked NeedSize =>
      pull_line "chunked downstream http/1.1 request closed before chunk size" s (fun line s =>
        match chunk_size line with
        | Err e => remember_error (BadRequest (size_error_message e)) s
        | Ok size =>
            if size =? 0 then Continue (s <| kind := Chunked ReadTrailers |>)
            else if s.(remaining_budget) <? size then Return (Err PayloadTooLarge) s
            else Continue (s <| remaining_budget := s.(remaining_budget) - size |>
                             <| kind := Chunked (ReadData size) |>)
        end)
  | Chunked (ReadData remaining) =>
      if remaining =? 0 then Continue (s <| kind := Chunked ExpectChunkTerminator |>)
      else pull_data remaining (Chunked (ReadData remaining))
             (fun r => if r =? 0 then Chunked ExpectChunkTerminator else Chunked (ReadData r))
             "chunked downstream http/1.1 request closed before chunk data completed" s
  | Chunked ExpectChunkTerminator =>
      with_connection s (fun c =>
        let '(r, c) := ensure_buffered_bytes 2 c in
        let s := s <| connection := Some c |> in
        match r with
        | Err e => Return (Err (Io e)) s
        | Ok false =>
            remember_error (BadRequest "chunked downstream http/1.1 request closed before chunk terminator") s
        | Ok true =>
            let '(terminator, c) := split_to 2 c in
            let s := s <| connection := Some c |> in
            if bool_decide (terminator = CRLF) then Continue (s <| kind := Chunked NeedSize |>)
            else remember_error (BadRequest "invalid downstream http/1.1 chunk terminator") s
        end)
  | Chunked ReadTrailers =>
      pull_line "chunked downstream http/1.1 request closed before trailers completed" s (fun line s =>
        if bool_decide (line = []) then Return (Ok None) s
        else Continue (s <| kind := Chunked ReadTrailers |>))
  end.

(** [None]: out of fuel. *)
Fixpoint pull_loop (fuel : nat) (s : FastHttp1RequestBodyState)
    : option (result FastHttp1ReadError (option (list Z)) * FastHttp1RequestBodyState) :=
  match fuel with
  | O => None
  | S fuel =>
      match pull_step s with
      | Continue s => pull_loop fuel s
      | Return r s => Some (r, s)
      end
  end.

Definition body_size (s : FastHttp1RequestBodyState) : nat :=
  match s.(connection) with Some c => conn_size c | None => 0 end.

(** Enough for every connection, see [pull_next_terminates]. *)
Definition pull_fuel (s : FastHttp1RequestBodyState) : nat := body_size s + 2.

Definition pull_next (s : FastHttp1RequestBodyState)
    : option (result FastHttp1ReadError (option (list Z)) * FastHttp1RequestBodyState) :=
  match s.(terminal_error) with
  | Some e => Some (Err e, s)
  | None => pull_loop (pull_fuel s) s
  end.

(** A reader of the body until its end: all it was handed, and how it ended. *)
Fixpoint collect (fuel : nat) (s : FastHttp1RequestBodyState)
    : option (list Z * result FastHttp1ReadError unit * FastHttp1RequestBodyState) :=
  match fuel with
  | O => None
  | S fuel =>
      '(r, s) ← pull_next s;
      match r with
      | Err e => Some ([], Err e, s)
      | Ok None => Some ([], Ok tt, s)
      | Ok (Some chunk) =>
          '(data, r, s) ← collect fuel s;
          Some (chunk ++ data, r, s)
      end
  end.

Definition read_all (s : FastHttp1RequestBodyState) := collect (body_size s + 2) s.

Definition drain_remaining (s : FastHttp1RequestBodyState)
    : option (result FastHttp1ReadError unit * FastHttp1RequestBodyState) :=
  '(_, r, s) ← read_all s; Some (r, s).

(** [FastHttp1RequestBodyLease::finish]; the connection comes back with the
    error as well. *)
Definition finish (s : FastHttp1RequestBodyState)
    : option (result (FastHttp1ReadError * option Connection) Connection) :=
  '(r, s) ← drain_remaining s;
  Some match s.(connection), r with
       | None, _ => Err (Io "downstream http/1.1 request body connection is unavailable", None)
       | Some c, Ok _ => Ok c
       | Some c, Err e => Err (e, Some c)
       end.

(** A pull that is dropped while it waits for the peer leaves the body as the
    iteration had it: with the kind taken. *)
Definition drop_pending_pull (s : FastHttp1RequestBodyState) : FastHttp1RequestBodyState :=
  s <| kind := Fixed 0 |>.

(** ** Termination *)

Definition kind_weight (k : FastHttp1StreamingBodyKind) : nat :=
  match k with Chunked (ReadData _) => 1 | _ => 0 end.
Definition measure (s : FastHttp1RequestBodyState) : nat := body_size s + kind_weight s.(kind).

Definition kind_ok (k : FastHttp1StreamingBodyKind) : Prop :=
  match k with Fixed r | Chunked (ReadData r) => 0 <= r | _ => True end.

(** The most bytes a body may still hand out. *)
Definition allowance (s : FastHttp1RequestBodyState) : Z :=
  match s.(kind) with
  | Fixed r => r
  | Chunked (ReadData r) => r + s.(remaining_budget)
  | Chunked _ => s.(remaining_budget)
  end.

Definition body_ok (s : FastHttp1RequestBodyState) : Prop :=
  kind_ok s.(kind) /\ 0 <= s.(remaining_budget).

(** What one iteration guarantees, whatever the peer sends. *)
Definition step_spec (s : FastHttp1RequestBodyState) (p : progress) : Prop :=
  match p with
  | Continue s' => (measure s' < measure s)%nat /\ (body_size s' <= body_size s)%nat
      /\ body_ok s' /\ allowance s' <= allowance s
  | Return r s' =>
      (measure s' <= measure s)%nat /\ body_ok s' /\
      match r with
      | Ok (Some chunk) => chunk ≠ [] /\ (body_size s' + 2 * length chunk <= body_size s)%nat
          /\ len chunk + allowance s' <= allowance s
      | _ => True
      end
  end.

Lemma pull_data_spec s0 remaining again after closed :
  body_ok s0 -> 0 < remaining ->
  s0.(kind) = again ->
  (forall r, 0 <= r -> kind_ok (after r) /\ (kind_weight (after r) <= kind_weight again)%nat
     /\ forall s, s.(kind) = after r -> s.(remaining_budget) = s0.(remaining_budget) ->
          allowance s <= allowance s0 - (remaining - r)) ->
  step_spec s0 (pull_data remaining again after closed (s0 <| kind := Fixed 0 |>)).
Proof.
  intros [Hk Hb] Hrem <- Hafter. unfold pull_data, with_connection. cbn [connection set_field].
  destruct (connection s0) as [c|] eqn:Hc; cbn; rewrite ?Hc.
  2: { unfold measure, body_size. cbn. rewrite Hc. cbn. split_and!; (done || lia). }
  case_bool_decide as Hbuf.
  - destruct (read_buf c) as [r c'] eqn:Hr. destruct (read_buf_size _ _ _ Hr) as [Hle Hlt].
    destruct r as [n|e]; [destruct (Z.eqb_spec n 0)|].
    + unfold remember_error, step_spec, measure, body_size, body_ok. cbn. rewrite Hc.
      split_and!; (done || lia).
    + specialize (Hlt n eq_refl n0). unfold step_spec, measure, body_size, body_ok, allowance. cbn. rewrite Hc.
      split_and!; (done || lia).
    + unfold step_spec, measure, body_size, body_ok. cbn. rewrite Hc. split_and!; (done || lia).
  - assert (Hpos : 0 < len (buffered c)).
    { unfold len. destruct (buffered c); [done|]. cbn. lia. }
    set (n := Z.min (len (buffered c)) remaining).
    assert (Hn : 0 < n /\ n <= len (buffered c) /\ n <= remaining) by (unfold n; lia).
    clearbody n. assert (Hn' : (Z.to_nat n <= length (buffered c))%nat) by (unfold len in Hn; lia).
    pose proof (split_to_size _ c Hn') as Hs.
    assert (Hch : length (split_to (Z.to_nat n) c).1 = Z.to_nat n)
      by (unfold split_to; cbn; rewrite length_take; lia).
    destruct (split_to (Z.to_nat n) c) as [chunk c']. cbn [fst snd] in *.
    destruct (Hafter (remaining - n) ltac:(lia)) as (Ha1 & Ha2 & Ha3).
    unfold step_spec, measure, body_size, body_ok. cbn. rewrite Hc.
    split_and!; [lia|done|done|by intros ->; cbn in *; lia|lia|].
    match goal with |- _ + allowance ?x <= _ => specialize (Ha3 x eq_refl eq_refl) end.
    unfold len. lia.
Qed.

Lemma pull_line_spec s0 closed f :
  body_ok s0 ->
  (forall c c' line, s0.(connection) = Some c -> read_line c = (Ok (Some line), c') ->
     step_spec s0 (f line (s0 <| kind := Fixed 0 |> <| connection := Some c' |>))) ->
  step_spec s0 (pull_line closed (s0 <| kind := Fixed 0 |>) f).
Proof.
  intros [Hk Hb] Hf. unfold pull_line, with_connection. cbn [connection set_field].
  destruct (connection s0) as [c|] eqn:Hc; cbn; rewrite ?Hc.
  2: { unfold measure, body_size. cbn. rewrite Hc. cbn. split_and!; (done || lia). }
  destruct (read_line c) as [r c'] eqn:Hr. destruct (read_line_size _ _ _ Hr) as [Hle _].
  destruct r as [[line|]|e].
  - by eapply Hf.
  - unfold remember_error, step_spec, measure, body_size, body_ok. cbn. rewrite Hc. split_and!; (done || lia).
  - unfold step_spec, measure, body_size, body_ok. cbn. rewrite Hc. split_and!; (done || lia).
Qed.

#[local] Ltac return_case Hc :=
  unfold remember_error, step_spec, measure, body_size, body_ok, allowance; cbn; rewrite ?Hc; split_and!;
  first [done|lia].

Lemma pull_step_spec s : body_ok s -> step_spec s (pull_step s).
Proof.
  intros Hok. pose proof Hok as [Hk Hb]. unfold pull_step.
  destruct (kind s) as [r|[|r| |]] eqn:Hkind.
  - destruct (Z.eqb_spec r 0) as [->|Hr].
    { unfold step_spec, measure, body_size, body_ok. cbn. split_and!; (done || lia). }
    cbn in Hk. apply pull_data_spec; [done|lia|done|]. intros r' Hr'. split_and!; [done|done|].
    intros s' Hs' _. unfold allowance. rewrite Hs', Hkind. lia.
  - apply pull_line_spec; [done|]. intros c c' line Hc Hr. destruct (read_line_size _ _ _ Hr) as [_ Hs].
    specialize (Hs line eq_refl). destruct (chunk_size line) as [n|e] eqn:Hn; [|return_case Hc].
    pose proof (chunk_size_bounds _ _ Hn).
    destruct (Z.eqb_spec n 0); [|cbn; destruct (Z.ltb_spec (remaining_budget s) n)];
      unfold step_spec, measure, body_size, body_ok, allowance; cbn; rewrite ?Hc, ?Hkind; cbn;
      split_and!; (done || lia).
  - destruct (Z.eqb_spec r 0) as [->|Hr].
    { unfold step_spec, measure, body_size, body_ok, allowance. cbn. rewrite Hkind. cbn. split_and!; (done || lia). }
    cbn in Hk. apply pull_data_spec; [done|lia|done|]. intros r' Hr'. split_and!.
    + by case_match.
    + case_match; cbn; lia.
    + intros s' Hs' Hbud. unfold allowance. rewrite Hs', Hkind, Hbud. case_match; lia.
  - unfold with_connection. cbn. destruct (connection s) as [c|] eqn:Hc; cbn; rewrite ?Hc; [|return_case Hc].
    destruct (ensure_buffered_bytes 2 c) as [r c'] eqn:Hr. destruct (ensure_size _ _ _ _ Hr) as [Hle Hlen].
    destruct r as [[]|e]; [|return_case Hc..]. specialize (Hlen eq_refl).
    pose proof (split_to_size 2 c' Hlen) as Hs.
    destruct (split_to 2 c') as [term c2] eqn:Hsp. cbn [snd] in Hs.
    case_bool_decide; unfold remember_error, step_spec, measure, body_size, body_ok, allowance; cbn;
      rewrite ?Hc, ?Hkind; cbn; split_and!; (done || lia).
  - apply pull_line_spec; [done|]. intros c c' line Hc Hr. destruct (read_line_size _ _ _ Hr) as [_ Hs].
    specialize (Hs line eq_refl).
    case_bool_decide; unfold step_spec, measure, body_size, body_ok, allowance; cbn;
      rewrite ?Hc, ?Hkind; cbn; split_and!; (done || lia).
Qed.

Lemma pull_loop_spec fuel s :
  body_ok s -> (measure s < fuel)%nat ->
  exists r s', pull_loop fuel s = Some (r, s') /\ step_spec s (Return r s').
Proof.
  revert s. induction fuel as [|fuel IH]; intros s Hok Hf; [lia|]. cbn [pull_loop].
  pose proof (pull_step_spec s Hok) as Hs. destruct (pull_step s) as [s1|r s1]; [|by eauto].
  destruct Hs as (Hm & Hsz & Hok1 & Ha). destruct (IH s1 Hok1 ltac:(lia)) as (r & s2 & -> & Hm2 & Hok2 & Hr).
  exists r, s2. split; [done|]. cbn. split; [lia|]. split; [done|].
  destruct r as [[chunk|]|]; [|done..]. destruct Hr as (? & ? & ?). split_and!; [done|lia|lia].
Qed.

Lemma pull_next_spec s :
  body_ok s ->
  exists r s', pull_next s = Some (r, s') /\ body_ok s' /\
    match r with
    | Ok (Some chunk) => chunk ≠ [] /\ (body_size s' + 2 * length chunk <= body_size s)%nat
        /\ len chunk + allowance s' <= allowance s
    | _ => True
    end.
Proof.
  intros Hok. unfold pull_next. destruct (terminal_error s) as [e|]; [by eexists _, _|].
  destruct (pull_loop_spec (pull_fuel s) s Hok) as (r & s' & Hp & _ & Hok' & Hr); [|by exists r, s'].
  unfold pull_fuel, measure. destruct (kind s) as [?|[]]; cbn; lia.
Qed.

Lemma collect_spec fuel s :
  body_ok s -> (body_size s < fuel)%nat ->
  exists data r s', collect fuel s = Some (data, r, s') /\ len data <= Z.max 0 (allowance s).
Proof.
  revert s. induction fuel as [|fuel IH]; intros s Hok Hf; [lia|]. cbn [collect].
  destruct (pull_next_spec s Hok) as (r & s1 & -> & Hok1 & Hr). cbn [mbind option_bind].
  destruct r as [[chunk|]|e]; [|exists [], (Ok tt), s1; split; [done|len_lia]
    |exists [], (Err e), s1; split; [done|len_lia]].
  destruct Hr as (Hne & Hsz & Ha).
  assert (0 < length chunk)%nat by (destruct chunk; [done|cbn; lia]).
  destruct (IH s1 Hok1 ltac:(lia)) as (data & r & s2 & -> & Hd). cbn.
  exists (chunk ++ data), r, s2. split; [done|].
  assert (0 <= allowance s1).
  { destruct Hok1 as [Hk Hb]. unfold allowance. destruct (kind s1) as [|[]]; cbn in Hk; lia. }
  pose proof (len_nonneg chunk). rewrite len_app. lia.
Qed.

(** Reading a request body always ends and is bounded, whatever the peer
    sends: pulls and draining never run forever, every chunk handed out is
    non-empty, and a reader gets at most the declared length of a fixed body
    and at most the budget of a chunked one. *)
Theorem request_body_bounded c k budget :
  kind_ok k -> 0 <= budget ->
  exists data r s, read_all (from_connection c k budget) = Some (data, r, s)
    /\ len data <= match k with
                   | Fixed n => n
                   | Chunked (ReadData n) => n + budget
                   | Chunked _ => budget
                   end
    /\ is_Some (drain_remaining (from_connection c k budget))
    /\ is_Some (finish (from_connection c k budget)).
Proof.
  intros Hk Hb. destruct (collect_spec (body_size (from_connection c k budget) + 2)
    (from_connection c k budget)) as (data & r & s & Hc & Hl); [done|lia|].
  exists data, r, s. unfold finish, drain_remaining, read_all. rewrite Hc. cbn.
  split_and!; [done| |by eexists|by eexists].
  etrans; [exact Hl|]. unfold allowance. cbn. destruct k as [|[]]; cbn in Hk; lia.
Qed.

(** ** Reading what was sent *)

Lemma pull_loop_mono f f' s x : (f <= f')%nat -> pull_loop f s = Some x -> pull_loop f' s = Some x.
Proof.
  revert f' s. induction f as [|f IH]; intros [|f'] s Hle; cbn; try done; try lia.
  destruct (pull_step s); [apply IH; lia|done].
Qed.

Lemma pull_next_loop f s x :
  body_ok s -> terminal_error s = None -> pull_loop f s = Some x -> pull_next s = Some x.
Proof.
  intros Hok Ht Hl. destruct (pull_next_spec s Hok) as (r & s' & Hp & _). rewrite Hp.
  unfold pull_next in Hp. rewrite Ht in Hp.
  apply (pull_loop_mono _ (Nat.max f (pull_fuel s))) in Hl; [|lia].
  apply (pull_loop_mono _ (Nat.max f (pull_fuel s))) in Hp; [|lia]. congruence.
Qed.

Lemma collect_mono f f' s x : (f <= f')%nat -> collect f s = Some x -> collect f' s = Some x.
Proof.
  revert f' s x. induction f as [|f IH]; intros [|f'] s x Hle; cbn; try done; try lia.
  destruct (pull_next s) as [[[[chunk|]|e] s1]|]; cbn; try done.
  destruct (collect f s1) as [y|] eqn:Hy; cbn; [|done]. by rewrite (IH f' s1 y ltac:(lia) Hy).
Qed.

(** [s] reads [data] and ends in [s']. *)
Definition collects (s : FastHttp1RequestBodyState) x : Prop := exists f, collect f s = Some x.

Lemma collects_read_all s x : body_ok s -> collects s x -> read_all s = Some x.
Proof.
  intros Hok [f Hf]. destruct (collect_spec (body_size s + 2) s Hok ltac:(lia)) as (d & r & s' & Hc & _).
  unfold read_all. rewrite Hc.
  apply (collect_mono _ (Nat.max f (body_size s + 2))) in Hf; [|lia].
  apply (collect_mono _ (Nat.max f (body_size s + 2))) in Hc; [|lia]. congruence.
Qed.

Lemma collects_chunk s chunk s1 data r s2 :
  pull_next s = Some (Ok (Some chunk), s1) -> collects s1 (data, r, s2) -> collects s (chunk ++ data, r, s2).
Proof. intros Hp [f Hf]. exists (S f). cbn. rewrite Hp. cbn. by rewrite Hf. Qed.

Lemma collects_continue s s1 x :
  body_ok s -> terminal_error s = None -> terminal_error s1 = None ->
  pull_step s = Continue s1 -> collects s1 x -> collects s x.
Proof.
  intros Hok Ht Ht1 Hp [f Hf]. exists f. destruct f as [|f]; [done|]. revert Hf. cbn.
  destruct (pull_next s1) as [y|] eqn:Hy; [|done].
  assert (pull_next s = Some y) as ->; [|done].
  unfold pull_next in Hy. rewrite Ht1 in Hy.
  apply (pull_next_loop (S (pull_fuel s1))); [done..|]. cbn [pull_loop]. by rewrite Hp.
Qed.

Abbreviation at_conn c k b := (MkBody (Some c) k b None).

Lemma pull_data_holds c d rest k b again after closed :
  holds c (d ++ rest) -> d ≠ [] -> buffered c ≠ [] ->
  exists chunk d' c', d = chunk ++ d' /\ chunk ≠ [] /\ holds c' (d' ++ rest) /\
    pull_data (len d) again after closed (at_conn c k b)
    = Return (Ok (Some chunk)) (at_conn c' (after (len d')) b).
Proof.
  intros Hh Hd Hbuf. unfold pull_data, with_connection. cbn [connection].
  rewrite bool_decide_false by done.
  assert (0 < len (buffered c)) by (unfold len; destruct (buffered c); [done|cbn; lia]).
  assert (0 < len d) by (unfold len; destruct d; [done|cbn; lia]).
  set (n := Z.min (len (buffered c)) (len d)).
  assert (Hn : 0 < n <= len d /\ n <= len (buffered c)) by (unfold n; lia). clearbody n.
  assert (Hlt : (Z.to_nat n <= length (buffered c))%nat) by (unfold len in Hn; lia).
  destruct (split_to_holds _ _ _ Hh Hlt) as [H1 H2].
  destruct (split_to (Z.to_nat n) c) as [chunk c']. cbn [fst snd] in *. subst chunk.
  assert (Hld : (Z.to_nat n <= length d)%nat) by (unfold len in Hn; lia).
  rewrite take_app_le by done. rewrite drop_app_le in H2 by done.
  exists (take (Z.to_nat n) d), (drop (Z.to_nat n) d), c'. split_and!.
  - by rewrite take_drop.
  - intros Hnil. apply (f_equal length) in Hnil. rewrite length_take in Hnil. cbn in Hnil. lia.
  - done.
  - unfold set_field, eta_body. cbn. do 3 f_equal. unfold len. rewrite length_drop. f_equal. lia.
Qed.

(** One pull of the data of a body or a chunk. *)
Lemma pull_next_data c d rest k b after closed :
  (forall c, pull_step (at_conn c k b) = pull_data (len d) k after closed (at_conn c (Fixed 0) b)) ->
  kind_ok k -> 0 <= b -> holds c (d ++ rest) -> d ≠ [] ->
  exists chunk d' c', d = chunk ++ d' /\ chunk ≠ [] /\ holds c' (d' ++ rest) /\
    pull_next (at_conn c k b) = Some (Ok (Some chunk), at_conn c' (after (len d')) b).
Proof.
  intros Hstep Hk Hb Hh Hd. destruct (decide (buffered c = [])) as [Hbuf|Hbuf].
  - destruct (read_buf_holds c (d ++ rest)) as (n & c1 & Hr & Hn & Hh1 & Hb1 & _); [done|done|by destruct d|].
    destruct (pull_data_holds c1 d rest (Fixed 0) b k after closed Hh1 Hd Hb1)
      as (chunk & d' & c' & Hd' & Hne & Hh' & Hp).
    exists chunk, d', c'. split_and!; [done..|].
    apply (pull_next_loop 2); [done..|]. cbn [pull_loop]. rewrite Hstep.
    unfold pull_data, with_connection at 1. cbn [connection]. rewrite bool_decide_true, Hr by done. cbn.
    rewrite (proj2 (Z.eqb_neq n 0)) by lia. cbn [set_field eta_body]. unfold set_field, eta_body. cbn.
    by rewrite Hstep, Hp.
  - destruct (pull_data_holds c d rest (Fixed 0) b k after closed Hh Hd Hbuf)
      as (chunk & d' & c' & Hd' & Hne & Hh' & Hp).
    exists chunk, d', c'. split_and!; [done..|].
    apply (pull_next_loop 1); [done..|]. cbn [pull_loop]. by rewrite Hstep, Hp.
Qed.

Lemma pull_step_fixed n c b : n ≠ 0 ->
  pull_step (at_conn c (Fixed n) b) = pull_data n (Fixed n) Fixed
    "downstream http/1.1 request body closed before content-length completed" (at_conn c (Fixed 0) b).
Proof. intros Hn. unfold pull_step. cbn. by rewrite (proj2 (Z.eqb_neq n 0)). Qed.

Lemma pull_step_data n c b : n ≠ 0 ->
  pull_step (at_conn c (Chunked (ReadData n)) b) = pull_data n (Chunked (ReadData n))
    (fun r => if r =? 0 then Chunked ExpectChunkTerminator else Chunked (ReadData r))
    "chunked downstream http/1.1 request closed before chunk data completed" (at_conn c (Fixed 0) b).
Proof. intros Hn. unfold pull_step. cbn. by rewrite (proj2 (Z.eqb_neq n 0)). Qed.

Lemma len_pos {A} (l : list A) : l ≠ [] -> 0 < len l.
Proof. destruct l; [done|]. len_lia. Qed.

(** Reading data of a known length, then what follows it. *)
Lemma collects_data (kind_of after : Z -> FastHttp1StreamingBodyKind) closed rest b data r P c d :
  (forall n c, 0 < n -> kind_ok (kind_of n) /\ after n = kind_of n /\
     pull_step (at_conn c (kind_of n) b) = pull_data n (kind_of n) after closed (at_conn c (Fixed 0) b)) ->
  0 <= b -> d ≠ [] -> holds c (d ++ rest) ->
  (forall c', holds c' rest -> exists s', P s' /\ collects (at_conn c' (after 0) b) (data, r, s')) ->
  exists s', P s' /\ collects (at_conn c (kind_of (len d)) b) (d ++ data, r, s').
Proof.
  intros Hk Hb Hd Hh Hrest. revert c Hd Hh.
  enough (Hm : forall m d c, (length d <= m)%nat -> d ≠ [] -> holds c (d ++ rest) ->
    exists s', P s' /\ collects (at_conn c (kind_of (len d)) b) (d ++ data, r, s'))
    by (intros c; by apply (Hm (length d))).
  clear d. intros m. induction m as [|m IH]; intros d c Hm Hd Hh; [by destruct d; cbn in Hm; try lia|].
  pose proof (len_pos d Hd) as Hpos.
  destruct (pull_next_data c d rest (kind_of (len d)) b after closed) as (chunk & d' & c' & -> & Hne & Hh' & Hp);
    [intros c0; by apply Hk|by apply Hk|done|done|done|].
  assert (Hl : (length chunk <> 0)%nat) by by destruct chunk.
  rewrite length_app in Hm. destruct (decide (d' = [])) as [->|Hd'].
  - destruct (Hrest c' Hh') as (s' & HP & Hs'). exists s'. split; [done|].
    rewrite app_nil_r in *. by eapply collects_chunk.
  - destruct (IH d' c' ltac:(lia) Hd' Hh') as (s' & HP & Hs'). exists s'. split; [done|].
    rewrite <-app_assoc. eapply collects_chunk; [exact Hp|].
    destruct (Hk (len d') c' (len_pos d' Hd')) as (_ & -> & _). exact Hs'.
Qed.

(** The end of a body of fixed length, and of a chunked one. *)
Lemma collects_fixed_end c b : 0 <= b -> collects (at_conn c (Fixed 0) b) ([], Ok tt, at_conn c (Fixed 0) b).
Proof. intros Hb. exists 1%nat. cbn [collect]. by rewrite (pull_next_loop 1 _ (Ok None, at_conn c (Fixed 0) b)). Qed.

Lemma collects_trailers c rest b trailers :
  0 <= b -> Forall (fun t => t ≠ [] /\ is_line t) trailers ->
  holds c ((concat ((fun t => t ++ CRLF) <$> trailers) ++ CRLF) ++ rest) ->
  exists c', holds c' rest /\
    collects (at_conn c (Chunked ReadTrailers) b) ([], Ok tt, at_conn c' (Fixed 0) b).
Proof.
  intros Hb. revert c. induction trailers as [|t ts IH]; intros c Hts Hh.
  - destruct (read_line_holds c [] rest) as (c' & Hr & Hh'); [set_solver|done|].
    exists c'. split; [done|]. exists 1%nat. cbn [collect].
    rewrite (pull_next_loop 1 _ (Ok None, at_conn c' (Fixed 0) b)); [done..|].
    cbn [pull_loop]. unfold pull_step. cbn. by rewrite Hr.
  - apply Forall_cons in Hts as [[Ht Hcr] Hts].
    cbn [fmap list_fmap concat] in Hh. rewrite <-!app_assoc in Hh.
    destruct (read_line_holds c t _ Hcr Hh) as (c1 & Hr & Hh1).
    destruct (IH c1 Hts) as (c' & Hh' & Hc); [by rewrite <-!app_assoc|].
    exists c'. split; [done|].
    eapply (collects_continue _ (at_conn c1 (Chunked ReadTrailers) b)); [done..| |exact Hc].
    unfold pull_step. cbn. rewrite Hr. by rewrite bool_decide_false.
Qed.

Lemma collects_chunked data wire rest :
  chunked_wire data wire -> forall c b, len data <= b -> holds c (wire ++ rest) ->
  exists s', (exists c', connection s' = Some c' /\ holds c' rest) /\
    collects (at_conn c (Chunked NeedSize) b) (data, Ok tt, s').
Proof.
  induction 1 as [line trailers Hcr Hsz Hts|line d data wire Hcr Hd Hsz Hw IH]; intros c b Hb Hh.
  - rewrite <-!app_assoc in Hh. destruct (read_line_holds c line _ Hcr Hh) as (c1 & Hr & Hh1).
    rewrite len_nil in Hb.
    destruct (collects_trailers c1 rest b trailers) as (c' & Hh' & Hc); [done|done|by rewrite <-app_assoc|].
    eexists. split; [exists c'; split; [|exact Hh']|].
    2: { eapply (collects_continue _ (at_conn c1 (Chunked ReadTrailers) b)); [done..| |exact Hc].
         unfold pull_step. cbn. rewrite Hr. cbn. by rewrite Hsz. }
    done.
  - rewrite <-!app_assoc in Hh. destruct (read_line_holds c line _ Hcr Hh) as (c1 & Hr & Hh1).
    rewrite len_app in Hb. pose proof (len_pos d Hd) as Hpos. pose proof (len_nonneg data).
    destruct (collects_data (fun n => Chunked (ReadData n))
      (fun r => if r =? 0 then Chunked ExpectChunkTerminator else Chunked (ReadData r))
      "chunked downstream http/1.1 request closed before chunk data completed"
      (CRLF ++ wire ++ rest) (b - len d) data (Ok tt)
      (fun s' => exists c', connection s' = Some c' /\ holds c' rest) c1 d) as (s' & HP & Hc); [|lia|done|done| |].
    + intros n c0 Hn. split_and!; [cbn; lia|by rewrite (proj2 (Z.eqb_neq n 0)) by lia|].
      apply pull_step_data. lia.
    + intros c2 Hh2. destruct (ensure_holds 2 c2 (CRLF ++ wire ++ rest) ltac:(cbn; lia) Hh2) as (c3 & He & Hh3 & Hlen).
      destruct (split_to_holds 2 c3 _ Hh3 Hlen) as [Hs1 Hs2].
      destruct (split_to 2 c3) as [term c4] eqn:Hsp. cbn in Hs1, Hs2. subst term.
      destruct (IH c4 (b - len d) ltac:(lia) Hs2) as (s' & HP & Hc). exists s'. split; [done|].
      eapply (collects_continue _ (at_conn c4 (Chunked NeedSize) (b - len d)));
        [split; cbn; [done|lia]|done|done| |exact Hc].
      unfold pull_step. cbn. rewrite He. by rewrite Hsp.
    + exists s'. split; [done|].
      eapply (collects_continue _ (at_conn c1 (Chunked (ReadData (len d))) (b - len d))); [|done|done| |exact Hc].
      * split; cbn; [done|lia].
      * unfold pull_step. cbn. rewrite Hr. cbn. rewrite Hsz.
        rewrite (proj2 (Z.eqb_neq _ 0)) by lia. by rewrite (proj2 (Z.ltb_ge _ _)) by lia.
Qed.

Lemma request_body_in_step c rest :
  (forall body b, 0 <= b -> holds c (body ++ rest) ->
     exists s c', read_all (from_connection c (Fixed (len body)) b) = Some (body, Ok tt, s)
       /\ finish (from_connection c (Fixed (len body)) b) = Some (Ok c') /\ holds c' rest)
  /\ (forall data wire b, chunked_wire data wire -> len data <= b -> holds c (wire ++ rest) ->
     exists s c', read_all (from_connection c (Chunked NeedSize) b) = Some (data, Ok tt, s)
       /\ finish (from_connection c (Chunked NeedSize) b) = Some (Ok c') /\ holds c' rest).
Proof.
  assert (Hfin : forall k b data s' c', body_ok (from_connection c k b) ->
    collects (from_connection c k b) (data, Ok tt, s') -> connection s' = Some c' ->
    read_all (from_connection c k b) = Some (data, Ok tt, s')
    /\ finish (from_connection c k b) = Some (Ok c')).
  { intros k b data s' c' Hok Hc Hconn. apply collects_read_all in Hc; [|done].
    split; [done|]. unfold finish, drain_remaining. rewrite Hc. cbn. by rewrite Hconn. }
  split.
  - intros body b Hb Hh. destruct (decide (body = [])) as [->|Hne].
    { destruct (Hfin (Fixed 0) b [] (at_conn c (Fixed 0) b) c) as [H1 H2];
        [done|by apply collects_fixed_end|done|]. exists (at_conn c (Fixed 0) b), c. done. }
    destruct (collects_data Fixed Fixed "downstream http/1.1 request body closed before content-length completed"
      rest b [] (Ok tt) (fun s' => exists c', connection s' = Some c' /\ holds c' rest) c body)
      as (s' & (c' & Hconn & Hh') & Hc); [|done|done|done| |].
    + intros n c0 Hn. split_and!; [cbn; lia|done|]. apply pull_step_fixed. lia.
    + intros c2 Hh2. exists (at_conn c2 (Fixed 0) b). split; [by exists c2|]. by apply collects_fixed_end.
    + rewrite app_nil_r in Hc. exists s', c'.
      destruct (Hfin (Fixed (len body)) b body s' c') as [H1 H2];
        [split; cbn; [apply len_nonneg|done]|done|done|done].
  - intros data wire b Hw Hb Hh. pose proof (len_nonneg data).
    destruct (collects_chunked data wire rest Hw c b Hb Hh) as (s' & (c' & Hconn & Hh') & Hc).
    exists s', c'. destruct (Hfin (Chunked NeedSize) b data s' c') as [H1 H2]; [split; cbn; [done|lia]|done..|done].
Qed.

(** Whatever way the network splits it, a well-formed request body is read
    exactly: the reader of a body of fixed length [len body], or of a chunked
    body within the budget (with extensions and trailers), is handed its data
    and ends, and finishing the lease gives back a connection on which exactly
    the bytes after the body are left, so the next request starts in step. *)
Theorem request_body_exact c rest :
  (forall body b, 0 <= b -> holds c (body ++ rest) ->
     exists s c', read_all (from_connection c (Fixed (len body)) b) = Some (body, Ok tt, s)
       /\ finish (from_connection c (Fixed (len body)) b) = Some (Ok c') /\ holds c' rest)
  /\ (forall data wire b, chunked_wire data wire -> len data <= b -> holds c (wire ++ rest) ->
     exists s c', read_all (from_connection c (Chunked NeedSize) b) = Some (data, Ok tt, s)
       /\ finish (from_connection c (Chunked NeedSize) b) = Some (Ok c') /\ holds c' rest).
Proof. apply request_body_in_step. Qed.

(** ** Concrete bodies *)

(** [2\r\nhi\r\n0\r\n\r\n], then the next request, in three reads. *)
Definition hi_conn : Connection :=
  MkConn [50; 13] [Data [10; 104]; Data [105; 13; 10; 48; 13; 10; 13; 10; 71; 69]; Data [84]].

Lemma hi_wire : chunked_wire [104; 105] [50; 13; 10; 104; 105; 13; 10; 48; 13; 10; 13; 10].
Proof.
  apply (wire_chunk [50] [104; 105] [] [48; 13; 10; 13; 10]).
  - by apply (bool_decide_unpack _).
  - done.
  - by vm_compute.
  - apply (wire_end [48] []); [by apply (bool_decide_unpack _)|by vm_compute|constructor].
Defined.

Lemma request_body_bounded_witness :
  exists data r s, read_all (from_connection hi_conn (Chunked NeedSize) 16) = Some (data, r, s)
    /\ len data <= 16
    /\ is_Some (drain_remaining (from_connection hi_conn (Chunked NeedSize) 16))
    /\ is_Some (finish (from_connection hi_conn (Chunked NeedSize) 16)).
Proof. apply (request_body_bounded hi_conn (Chunked NeedSize) 16); [exact I|lia]. Defined.

Lemma request_body_exact_witness :
  exists s c', read_all (from_connection hi_conn (Chunked NeedSize) 2) = Some ([104; 105], Ok tt, s)
    /\ finish (from_connection hi_conn (Chunked NeedSize) 2) = Some (Ok c') /\ holds c' [71; 69; 84].
Proof.
  apply (proj2 (request_body_exact hi_conn [71; 69; 84]) [104; 105] _ 2 hi_wire); [len_lia|].
  split; [|reflexivity]. repeat constructor; by eexists _, _.
Defined.

(** ** Where the lease loses its place

    After [PayloadTooLarge] the taken kind is not put back and the error is
    not remembered. *)

(** A reader that meets a chunk over the budget gets [PayloadTooLarge], but
    the error is not remembered: the next pull reports the end of the body,
    and [finish] gives the connection back as drained, with the chunk still on
    it, to be parsed as the next request. *)
Theorem payload_too_large_forgotten c line n b s rest :
  is_line line -> chunk_size line = Ok n -> 0 <= b < n -> holds c (line ++ CRLF ++ rest) ->
  pull_next (from_connection c (Chunked NeedSize) b) = Some (Err PayloadTooLarge, s) ->
  pull_next s = Some (Ok None, s) /\ exists c', finish s = Some (Ok c') /\ holds c' rest.
Proof.
  intros Hcr Hn Hb Hh. destruct (read_line_holds c line rest Hcr Hh) as (c' & Hr & Hh').
  rewrite (pull_next_loop 1 _ (Err PayloadTooLarge, at_conn c' (Fixed 0) b)); [|split; cbn; [done|lia]|done|].
  2: { cbn [pull_loop]. unfold pull_step. cbn. rewrite Hr. cbn. rewrite Hn.
       rewrite (proj2 (Z.eqb_neq n 0)) by lia. by rewrite (proj2 (Z.ltb_lt b n)) by lia. }
  intros [= <-].
  assert (Hp : pull_next (at_conn c' (Fixed 0) b) = Some (Ok None, at_conn c' (Fixed 0) b)).
  { apply (pull_next_loop 1); [split; cbn; [done|lia]|done|done]. }
  split; [done|]. exists c'. split; [|done].
  unfold finish, drain_remaining.
  rewrite (collects_read_all _ ([], Ok tt, at_conn c' (Fixed 0) b)); [done|split; cbn; [done|lia]|].
  apply collects_fixed_end. lia.
Qed.

(** A pull that is dropped while it waits for the peer leaves the body
    looking complete: [finish] gives back the connection with the rest of the
    body on it. *)
Theorem dropped_pull_forgets_body c k b :
  0 <= b ->
  finish (drop_pending_pull (from_connection c k b)) = Some (Ok c).
Proof.
  intros Hb. unfold finish, drain_remaining.
  rewrite (collects_read_all _ ([], Ok tt, at_conn c (Fixed 0) b)); [done|split; cbn; [done|lia]|].
  by apply collects_fixed_end.
Qed.

Lemma payload_too_large_forgotten_witness :
  exists s, pull_next s = Some (Ok None, s) /\ exists c', finish s = Some (Ok c') /\ holds c' [71; 69; 84].
Proof.
  eexists.
  apply (payload_too_large_forgotten (MkConn [53; 13; 10; 71; 69; 84] []) [53] 5 2 _ [71; 69; 84]).
  - by apply (bool_decide_unpack _).
  - by vm_compute.
  - lia.
  - by repeat constructor.
  - vm_compute. reflexivity.
Defined.

End Http1RequestBody.
