(* ===== verification/HttpHeaders.v ===== *)
(** Model of the headers of a request ([LazyHttpHeaders] of
    [src/abi_impl/http/state/request_context.rs]): the raw bytes the parser
    found, turned into a [HeaderMap] when something needs one.  The [http]
    crate is an interface: what names and values it accepts ([HttpCrate]) and
    its multimap ([HeaderMap]), with the documented behaviour the code relies
    on as laws. *)

From S2P Require Import Prelude Bytes Http1Text.

Module HttpHeaders.
Import Http1Text.

(** ** The [http] crate *)

Class HttpCrate := {
  header_name : list Z -> result string string;            (** [HeaderName::from_bytes] *)
  header_value : list Z -> result string (list Z);         (** [HeaderValue::from_bytes] *)
  header_value_str : string -> option (list Z);            (** [HeaderValue::from_str], its error dropped *)
  to_str : list Z -> option string;                        (** [HeaderValue::to_str], its error dropped *)
}.

(** Names are normalised to lower case, values kept, visible ASCII is text, and
    neither has a carriage return. *)
Definition visible_ascii (b : Z) : Prop := b = 9 \/ 32 <= b < 127.

Class HttpCrateLaws `{HttpCrate} := {
  header_name_lower b n : header_name b = Ok n -> bytes_of_string n = lower <$> b;
  header_name_no_cr b n : header_name b = Ok n -> 13 ∉ b;
  header_value_same b v : header_value b = Ok v -> v = b;
  header_value_no_cr b v : header_value b = Ok v -> 13 ∉ b;
  header_value_visible b : Forall visible_ascii b -> header_value b = Ok b;
  header_value_str_same s v : header_value_str s = Some v -> v = bytes_of_string s;
  header_value_str_no_cr s v : header_value_str s = Some v -> 13 ∉ v;
  header_value_str_visible s : Forall visible_ascii (bytes_of_string s) -> header_value_str s = Some (bytes_of_string s);
  to_str_visible b : Forall visible_ascii b -> to_str b = Some (string_of_bytes b);
}.

Class HeaderMap (M : Type) := {
  hm_new : M;
  hm_append : string -> list Z -> M -> M;
  hm_get_all : M -> string -> list (list Z);
  hm_iter : M -> list (string * list Z);
}.

(** A multimap: the values of a name, in the order they were appended, also as
    the iterator yields them. *)
Class HeaderMapLaws M `{HeaderMap M} := {
  get_all_new k : hm_get_all hm_new k = [];
  get_all_append n v m k :
    hm_get_all (hm_append n v m) k = hm_get_all m k ++ (if bool_decide (n = k) then [v] else []);
  iter_get_all m k : snd <$> filter (fun e => e.1 = k) (hm_iter m) = hm_get_all m k;
}.

(** The multimap of the witnesses. *)
#[export] Instance list_header_map : HeaderMap (list (string * list Z)) := {
  hm_new := [];
  hm_append := fun n v m => m ++ [(n, v)];
  hm_get_all := fun m k => snd <$> filter (fun e => e.1 = k) m;
  hm_iter := fun m => m;
}.
#[export] Instance list_header_map_laws : HeaderMapLaws (list (string * list Z)).
Proof.
  split; [done| |done]. intros n v m k. cbn. rewrite filter_app, fmap_app. f_equal.
  destruct (decide (n = k)) as [->|Hn].
  - by rewrite bool_decide_true, filter_cons_True.
  - by rewrite bool_decide_false, filter_cons_False.
Qed.

(** [insert] replaces every value of a name, [remove] drops them. *)
Class HeaderMapMut (M : Type) := {
  hm_insert : string -> list Z -> M -> M;
  hm_remove : string -> M -> M;
}.
Class HeaderMapMutLaws M `{HeaderMapLaws M} `{HeaderMapMut M} := {
  get_all_insert n v m k : hm_get_all (hm_insert n v m) k = if bool_decide (n = k) then [v] else hm_get_all m k;
  get_all_remove n m k : hm_get_all (hm_remove n m) k = if bool_decide (n = k) then [] else hm_get_all m k;
}.

#[export] Instance list_header_map_mut : HeaderMapMut (list (string * list Z)) := {
  hm_insert := fun n v m => filter (fun e => e.1 ≠ n) m ++ [(n, v)];
  hm_remove := fun n m => filter (fun e => e.1 ≠ n) m;
}.
Lemma filter_filter_ne {A} (n k : string) (m : list (string * A)) :
  filter (fun e => e.1 = k) (filter (fun e => e.1 ≠ n) m) = if bool_decide (n = k) then [] else filter (fun e => e.1 = k) m.
Proof.
  rewrite list_filter_filter. case_bool_decide as Hnk.
  - induction m as [|e m IH]; [done|]. rewrite filter_cons_False; [done|]. intros [? ?]. congruence.
  - apply list_filter_iff. intros e. split; [by intros [? _]|]. intros <-. split; [done|]. congruence.
Qed.
#[export] Instance list_header_map_mut_laws : HeaderMapMutLaws (list (string * list Z)).
Proof.
  split; intros; cbn.
  - rewrite filter_app, fmap_app, filter_filter_ne, filter_cons. case_bool_decide as Hn; cbn.
    + by rewrite decide_True.
    + by rewrite decide_False, app_nil_r.
  - rewrite filter_filter_ne. by case_bool_decide.
Qed.

(** ** Header maps *)

Section map.
Context {M : Type} `{HeaderMap M} `{HttpCrate}.

(** The crate lowers the name it is asked for. *)
Definition get_all (m : M) (name : string) : list (list Z) := hm_get_all m (to_ascii_lowercase name).
Definition get (m : M) (name : string) : option (list Z) := head (get_all m name).
Definition contains_key (m : M) (name : string) : bool := negb (bool_decide (get_all m name = [])).

(** The tokens of comma separated values. *)
Definition tokens (values : list string) : list string := values ≫= fun v => trim <$> split_on 44 v.
Definition has_token (values : list string) (token : string) : bool :=
  existsb (fun t => eq_ignore_ascii_case t token) (tokens values).

Definition map_contains_token (m : M) (name token : string) : bool :=
  has_token (omap to_str (get_all m name)) token.
End map.

(** ** Lazily parsed headers *)

Record RawHttpHeader := MkRaw { name : list Z; value : list Z }.

Record LazyHttpHeaders (M : Type) := MkLazy {
  raw : option (list RawHttpHeader);
  parsed : option M;
}.
Arguments MkLazy {M}. Arguments raw {M}. Arguments parsed {M}.
#[export] Instance eta_lazy M : Eta (LazyHttpHeaders M) := fun l => MkLazy l.(raw) l.(parsed).

(** [<[u8]>::eq_ignore_ascii_case] *)
Definition bytes_eq_ignore_ascii_case (a b : list Z) : bool := bool_decide (lower <$> a = lower <$> b).
Definition named (k : string) (h : RawHttpHeader) : bool :=
  bytes_eq_ignore_ascii_case h.(name) (bytes_of_string k).
Definition utf8_value (h : RawHttpHeader) : option string :=
  match from_utf8 h.(value) with Ok s => Some s | Err _ => None end.

(** [Iterator::find_map] *)
Fixpoint find_map {A B} (f : A -> option B) (l : list A) : option B :=
  match l with
  | [] => None
  | x :: l => match f x with Some y => Some y | None => find_map f l end
  end.

Section lazy.
Context {M : Type} `{HM : HeaderMap M} `{HC : HttpCrate}.

Definition of_map (m : M) : LazyHttpHeaders M := MkLazy None (Some m).
Definition from_raw_header_bytes (l : list (list Z * list Z)) : LazyHttpHeaders M :=
  MkLazy (Some ((fun '(n, v) => MkRaw n v) <$> l)) None.

Definition append_raw (m : M) (h : RawHttpHeader) : M :=
  match header_name h.(name), header_value h.(value) with
  | Ok n, Ok v => hm_append n v m
  | _, _ => m
  end.

(** [headers]: parses once. *)
Definition headers (l : LazyHttpHeaders M) : M * LazyHttpHeaders M :=
  match l.(parsed) with
  | Some m => (m, l)
  | None => let m := foldl append_raw hm_new (default [] l.(raw)) in (m, l <| parsed := Some m |>)
  end.

Definition get_str (l : LazyHttpHeaders M) (k : string) : option string :=
  match l.(parsed) with
  | Some m => get m k ≫= to_str
  | None => l.(raw) ≫= find_map (fun h => if named k h then utf8_value h else None)
  end.

Definition contains_name (l : LazyHttpHeaders M) (k : string) : bool :=
  match l.(parsed) with
  | Some m => contains_key m k
  | None => match l.(raw) with Some r => existsb (named k) r | None => false end
  end.

Definition header_contains_token (l : LazyHttpHeaders M) (k token : string) : bool :=
  match l.(parsed) with
  | Some m => map_contains_token m k token
  | None =>
      match l.(raw) with
      | Some r => has_token (omap utf8_value (filter (fun h => named k h = true) r)) token
      | None => false
      end
  end.

Definition content_length (l : LazyHttpHeaders M) : option Z :=
  v ← get_str l "content-length"; match parse_u64 v with Ok n => Some n | Err _ => None end.

(** [for_each_header]: the calls it makes. *)
Definition for_each_header (l : LazyHttpHeaders M) : list (string * list Z) :=
  match l.(parsed) with
  | Some m => hm_iter m
  | None => omap (fun h => match from_utf8 h.(name) with Ok n => Some (n, h.(value)) | Err _ => None end)
              (default [] l.(raw))
  end.
End lazy.

(** ** Laziness is not observable on well-formed headers *)

Lemma bytes_of_string_inj s t : bytes_of_string s = bytes_of_string t -> s = t.
Proof. intros Hst. by rewrite <-(string_of_bytes_of_string s), Hst, string_of_bytes_of_string. Qed.

Lemma lower_u8 b : in_u8 b -> in_u8 (lower b).
Proof. unfold in_u8, lower. intros. case_match; lia. Qed.

Lemma bytes_of_string_lower s : bytes_of_string (to_ascii_lowercase s) = lower <$> bytes_of_string s.
Proof.
  induction s as [|a s IH]; cbn; [done|]. rewrite IH. f_equal.
  by rewrite byte_of_ascii_of_byte by apply lower_u8, byte_of_ascii_u8.
Qed.

Lemma visible_utf8 i l : Forall visible_ascii l -> utf8_validate i l = None.
Proof.
  intros Hl. revert i. induction Hl as [|b l Hb Hl IH]; intros i; [done|]. cbn [utf8_validate].
  assert (Hw : utf8_char_width b = 1).
  { unfold visible_ascii in Hb. unfold utf8_char_width.
    assert ((0 <=? b) && (b <? 128) = true) as -> by lia. done. }
  rewrite Hw. apply IH.
Qed.

Section laws.
Context {M : Type} `{HML : HeaderMapLaws M} `{HCL : HttpCrateLaws}.

(** The names and values are ones the crate takes, and the values are text. *)
Definition well_formed (l : list RawHttpHeader) : Prop :=
  Forall (fun h => is_Ok (header_name h.(name)) = true /\ is_Ok (header_value h.(value)) = true
    /\ Forall visible_ascii h.(value)) l.

Lemma get_all_parse l m k :
  well_formed l -> get_all (foldl append_raw m l) k = get_all m k ++ (value <$> filter (fun h => named k h = true) l).
Proof.
  intros Hl. revert m. induction Hl as [|h l (Hn & Hv & _) Hl IH]; intros m; cbn [foldl].
  { by rewrite app_nil_r. }
  rewrite IH. unfold append_raw.
  destruct (header_name (name h)) as [n|] eqn:Hn'; [|done].
  destruct (header_value (value h)) as [v|] eqn:Hv'; [|done].
  apply header_value_same in Hv' as ->. apply header_name_lower in Hn'.
  unfold get_all. rewrite get_all_append, <-app_assoc. f_equal. rewrite filter_cons. unfold named, bytes_eq_ignore_ascii_case.
  rewrite <-Hn', <-bytes_of_string_lower.
  destruct (decide (n = to_ascii_lowercase k)) as [->|Hne].
  - rewrite !bool_decide_true by done. by rewrite decide_True.
  - rewrite !bool_decide_false; [by rewrite decide_False|intros ?%bytes_of_string_inj; done|done].
Qed.

Lemma utf8_value_visible h : Forall visible_ascii (value h) -> utf8_value h = Some (string_of_bytes (value h)).
Proof. intros Hv. unfold utf8_value, from_utf8. by rewrite visible_utf8. Qed.

Lemma find_map_named l k :
  well_formed l ->
  find_map (fun h => if named k h then utf8_value h else None) l
  = string_of_bytes <$> head (value <$> filter (fun h => named k h = true) l).
Proof.
  induction 1 as [|h l (_ & _ & Hv) Hl IH]; [done|]. cbn [find_map]. rewrite filter_cons.
  destruct (named k h); [by rewrite decide_True, utf8_value_visible|]. by rewrite decide_False, IH.
Qed.

Lemma omap_values l k :
  well_formed l ->
  omap to_str (value <$> filter (fun h => named k h = true) l)
  = omap utf8_value (filter (fun h => named k h = true) l).
Proof.
  induction 1 as [|h l (_ & _ & Hv) Hl IH]; [done|]. rewrite !filter_cons.
  destruct (named k h); [|by rewrite !decide_False].
  rewrite !decide_True by done. cbn. by rewrite to_str_visible, utf8_value_visible, IH.
Qed.

(** Parsing is not observable: on headers whose names and values the
    [http] crate accepts and whose values are text, every query gives the same
    answer on the raw bytes as after the header map has been built, and the
    iteration yields the same values for every name. *)
Theorem lazy_headers_agree r k token :
  well_formed r ->
  let l := MkLazy (Some r) None in
  let l' := (headers (M:=M) l).2 in
  get_str l' k = get_str l k
  /\ contains_name l' k = contains_name l k
  /\ header_contains_token l' k token = header_contains_token l k token
  /\ content_length l' = content_length l
  /\ snd <$> filter (fun e => e.1 = to_ascii_lowercase k) (for_each_header l')
     = value <$> filter (fun h => named k h = true) r.
Proof.
  intros Hr l l'. assert (Hg : forall k, get_str l' k = get_str l k).
  { clear k. intros k. unfold get_str, l', l. cbn. rewrite find_map_named by done. unfold get.
    rewrite get_all_parse by done. unfold get_all at 1. rewrite get_all_new, app_nil_l.
    unfold well_formed in Hr. clear l l'. induction Hr as [|h r' (_ & _ & Hv) _ IH]; [done|].
    rewrite filter_cons. destruct (named k h); [|by rewrite decide_False].
    rewrite decide_True by done. cbn. by apply to_str_visible. }
  split_and!.
  - apply Hg.
  - unfold contains_name, l', l. cbn. unfold contains_key. rewrite get_all_parse by done.
    unfold get_all. rewrite get_all_new, app_nil_l. clear. induction r as [|h r IH]; [done|].
    rewrite filter_cons. cbn [existsb]. destruct (named k h); [by rewrite decide_True|].
    by rewrite decide_False, IH.
  - unfold header_contains_token, l', l. cbn. unfold map_contains_token. rewrite get_all_parse by done.
    unfold get_all. by rewrite get_all_new, app_nil_l, omap_values.
  - unfold content_length. by rewrite Hg.
  - unfold for_each_header, l', l. cbn. rewrite iter_get_all.
    change (get_all (foldl append_raw (hm_new (M:=M)) r) k = value <$> filter (fun h => named k h = true) r).
    rewrite get_all_parse by done. unfold get_all. by rewrite get_all_new.
Qed.

End laws.

(** ** Text of the code *)

(** A constant of the code is text that the crate reads back. *)
Lemma visible_check l : forallb (fun b => (b =? 9) || ((32 <=? b) && (b <? 127))) l = true -> Forall visible_ascii l.
Proof.
  rewrite forallb_forall, Forall_forall. intros Hl b Hb%list_elem_of_In. specialize (Hl _ Hb). unfold visible_ascii. lia.
Qed.
Ltac visible := by apply visible_check.

Definition digits_only (s : string) : Prop := Forall visible_ascii (bytes_of_string s).

Lemma pretty_N_go_digits x s : digits_only s -> digits_only (pretty_N_go x s).
Proof.
  revert s. induction (N.lt_wf_0 x) as [x _ IH]. intros s Hs. destruct (decide (0 < x)%N) as [Hx|Hx].
  - rewrite pretty_N_go_step by done. apply IH; [by apply N.div_lt|]. unfold digits_only in *. constructor; [|exact Hs].
    unfold pretty_N_char. destruct (_ `mod` _)%N as [|p]; [right; vm_compute; split; congruence|].
    do 4 (destruct p as [p|p|]; try (right; vm_compute; split; congruence)).
  - by replace x with 0%N by lia.
Qed.

Lemma dec_visible n : 0 <= n -> Forall visible_ascii (bytes_of_string (Bytes.dec n)).
Proof.
  intros Hn. unfold Bytes.dec, pretty, pretty_Z. destruct n as [|p|p]; [|cbn|lia].
  - unfold pretty, pretty_N. apply visible_check. by vm_compute.
  - apply pretty_N_go_digits. constructor.
Qed.

(** A crate for the witnesses: it takes every name and value without control
    characters. *)
Definition no_control (b : Z) : bool := (b =? 9) || (32 <=? b) && (b <? 256) && negb (b =? 127).
#[export] Instance any_crate : HttpCrate := {
  header_name b := if forallb no_control b
                   then Ok (to_ascii_lowercase (string_of_bytes b)) else Err "invalid HTTP header name";
  header_value b := if forallb no_control b then Ok b else Err "failed to parse header value";
  header_value_str s := if forallb no_control (bytes_of_string s) then Some (bytes_of_string s) else None;
  to_str b := if forallb (fun b => (b =? 9) || ((32 <=? b) && (b <? 127))) b
              then Some (string_of_bytes b) else None;
}.
Lemma no_control_Forall b : forallb no_control b = true <-> Forall (fun x => no_control x = true) b.
Proof. rewrite forallb_forall, Forall_forall. split; intros Hb x Hx; apply Hb; by apply list_elem_of_In. Qed.
Lemma no_control_no_cr b : forallb no_control b = true -> 13 ∉ b.
Proof. rewrite no_control_Forall, Forall_forall. intros Hb Hin. by specialize (Hb _ Hin). Qed.
Lemma visible_no_control b : Forall visible_ascii b -> forallb no_control b = true.
Proof. intros Hb. apply no_control_Forall. eapply Forall_impl; [exact Hb|]. unfold visible_ascii, no_control. lia. Qed.
#[export] Instance any_crate_laws : @HttpCrateLaws any_crate.
Proof.
  split; cbn.
  - intros b n. destruct (forallb _ b) eqn:Hb; [|done]. intros [= <-].
    rewrite bytes_of_string_lower, bytes_of_string_of_bytes; [done|].
    apply no_control_Forall in Hb. eapply Forall_impl; [exact Hb|]. unfold no_control, in_u8. lia.
  - intros b n. destruct (forallb _ b) eqn:Hb; [|done]. intros _. by apply no_control_no_cr.
  - intros b v. by destruct (forallb _ b); [intros [= ->]|].
  - intros b v. destruct (forallb _ b) eqn:Hb; [|done]. intros _. by apply no_control_no_cr.
  - intros b Hb. by rewrite visible_no_control.
  - intros s v. by destruct (forallb _ _); [intros [= ->]|].
  - intros s v. destruct (forallb _ _) eqn:Hb; [|done]. intros [= <-]. by apply no_control_no_cr.
  - intros s Hs. by rewrite visible_no_control.
  - intros b Hb. destruct (forallb _ b) eqn:Hf; [done|]. exfalso. revert Hf. apply not_false_iff_true.
    rewrite forallb_forall. intros x Hx%list_elem_of_In. rewrite Forall_forall in Hb.
    specialize (Hb _ Hx). unfold visible_ascii in Hb. lia.
Defined.

Lemma lazy_headers_agree_witness :
  let l := MkLazy (M:=list (string * list Z)) (Some [MkRaw [72; 111; 115; 116] [97]]) None in
  get_str (headers l).2 "host" = get_str l "host" /\ get_str l "host" = Some "a".
Proof.
  split; [|by vm_compute].
  refine (proj1 (lazy_headers_agree [MkRaw [72; 111; 115; 116] [97]] "host" "" _)).
  apply Forall_singleton. split; [done|]. split; [done|]. apply Forall_singleton. right. cbn. lia.
Defined.

(** A value that is UTF-8 but not visible ASCII is read from the raw bytes and
    is gone once something has had the headers parsed. *)
Theorem lazy_headers_diverge :
  exists r, let l := MkLazy (M:=list (string * list Z)) (Some r) None in
    get_str l "x-forwarded-for" = Some (string_of_bytes [195; 169]) /\ get_str (headers l).2 "x-forwarded-for" = None.
Proof.
  exists [MkRaw (bytes_of_string "X-Forwarded-For") [195; 169]]. split; by vm_compute.
Qed.

End HttpHeaders.
