(* ===== verification/Http1SenderPool.v ===== *)
(** Model of the pool of idle upstream connections of
    [src/abi_impl/http/outbound_http1.rs] ([PlainHttp1SenderPool]) and of the
    lease a response body holds one of its connections by
    ([PlainHttp1SenderLease]).  The pool keeps the connections of the first key
    it saw in a vector of its own and the others in a map; the specification is
    one stack of connections per key. *)

From S2P Require Import Prelude Bytes TlsFlow.

Module Http1SenderPool.
Import TlsFlow.

#[export] Instance TlsSessionCacheKey_eq_dec : EqDecision TlsSessionCacheKey.
Proof. solve_decision. Defined.
#[export] Instance TlsProtocolVersion_countable : Countable TlsProtocolVersion.
Proof.
  by apply (inj_countable' (fun v => match v with Tls1_0 => 0 | Tls1_1 => 1 | Tls1_2 => 2 | Tls1_3 => 3 end)
    (fun n => match n with 0 => Tls1_0 | 1 => Tls1_1 | 2 => Tls1_2 | _ => Tls1_3 end)); intros [].
Defined.
#[export] Instance TlsSessionCacheKey_countable : Countable TlsSessionCacheKey.
Proof.
  apply (inj_countable' (fun k => (key_origin k, key_desired_alpn k, key_verify_peer k, key_verify_hostname k,
      key_sni_enabled k, key_trusted_certificate_fingerprint k, key_client_certificate_fingerprint k,
      key_client_private_key_fingerprint k, key_min_version k, key_max_version k))
    (fun t => let '(a, b, c, d, e, f, g, h, i, j) := t in MkCacheKey a b c d e f g h i j)).
  by intros [].
Defined.

Inductive Http1PoolKey :=
| Plain (key : string)
| Tls (key : TlsSessionCacheKey).
#[export] Instance Http1PoolKey_eq_dec : EqDecision Http1PoolKey.
Proof. solve_decision. Defined.
#[export] Instance Http1PoolKey_countable : Countable Http1PoolKey.
Proof.
  by apply (inj_countable' (fun k => match k with Plain s => inl s | Tls k => inr k end)
    (fun t => match t with inl s => Plain s | inr k => Tls k end)); intros [].
Defined.

Section pool.
Context {Conn : Type}.

Record PlainHttp1SenderPool := MkPool {
  hot_key : option Http1PoolKey;
  hot_connections : list Conn;
  other_connections : gmap Http1PoolKey (list Conn);
}.
#[export] Instance eta_pool : Eta PlainHttp1SenderPool := fun p =>
  MkPool p.(hot_key) p.(hot_connections) p.(other_connections).

Definition new_pool : PlainHttp1SenderPool := MkPool None [] ∅.

(** [Vec::pop]: the vectors are kept with their last element first. *)
Definition pop (l : list Conn) : option (Conn * list Conn) :=
  match l with [] => None | c :: l => Some (c, l) end.

Definition pool_take (key : Http1PoolKey) (p : PlainHttp1SenderPool) : option Conn * PlainHttp1SenderPool :=
  if bool_decide (p.(hot_key) = Some key) then
    match pop p.(hot_connections) with
    | Some (c, l) => (Some c, p <| hot_connections := l |>)
    | None => (None, p)
    end
  else
    match p.(other_connections) !! key ≫= pop with
    | Some (c, l) => (Some c, p <| other_connections := <[key := l]> p.(other_connections) |>)
    | None => (None, p)
    end.

Definition pool_put (key : Http1PoolKey) (capacity : Z) (c : Conn) (p : PlainHttp1SenderPool)
    : bool * PlainHttp1SenderPool :=
  let capacity := Z.max capacity 1 in
  if bool_decide (p.(hot_key) = Some key) then
    if len p.(hot_connections) <? capacity
    then (true, p <| hot_connections := c :: p.(hot_connections) |>)
    else (false, p)
  else if bool_decide (p.(hot_key) = None) then
    (true, p <| hot_key := Some key |> <| hot_connections := c :: p.(hot_connections) |>)
  else
    let connections := default [] (p.(other_connections) !! key) in
    if len connections <? capacity
    then (true, p <| other_connections := <[key := c :: connections]> p.(other_connections) |>)
    else (false, p <| other_connections := <[key := connections]> p.(other_connections) |>).

(** ** The lease *)

Record PlainHttp1SenderLease := MkLease {
  pool_key : Http1PoolKey;
  capacity : Z;
  may_reuse : bool;
  dirty : bool;
  lease_connection : option Conn;
}.
#[export] Instance eta_lease : Eta PlainHttp1SenderLease := fun l =>
  MkLease l.(pool_key) l.(capacity) l.(may_reuse) l.(dirty) l.(lease_connection).

Definition new_lease (key : Http1PoolKey) (cap : Z) (reuse : bool) (c : Conn) : PlainHttp1SenderLease :=
  MkLease key cap reuse false (Some c).

Definition mark_dirty (l : PlainHttp1SenderLease) : PlainHttp1SenderLease :=
  l <| dirty := true |> <| may_reuse := false |>.

(** A connection the pool has no room for is dropped. *)
Definition release_plain_http1_connection (key : Http1PoolKey) (cap : Z) (c : Conn)
    (p : PlainHttp1SenderPool) : PlainHttp1SenderPool := (pool_put key cap c p).2.

Definition release (l : PlainHttp1SenderLease) (p : PlainHttp1SenderPool)
    : PlainHttp1SenderLease * PlainHttp1SenderPool :=
  let l' := l <| lease_connection := None |> in
  match l.(lease_connection) with
  | Some c =>
      if l.(may_reuse) && negb l.(dirty)
      then (l', release_plain_http1_connection l.(pool_key) l.(capacity) c p)
      else (l', p)
  | None => (l', p)
  end.

(** ** The specification: a stack of connections per key *)

Definition stack (p : PlainHttp1SenderPool) (key : Http1PoolKey) : list Conn :=
  if bool_decide (p.(hot_key) = Some key) then p.(hot_connections)
  else default [] (p.(other_connections) !! key).

(** Before the first key nothing is pooled, and the hot key is not in the map. *)
Definition pool_ok (p : PlainHttp1SenderPool) : Prop :=
  match p.(hot_key) with
  | None => p.(hot_connections) = [] /\ p.(other_connections) = ∅
  | Some key => p.(other_connections) !! key = None
  end.

Inductive pool_op :=
| Take (key : Http1PoolKey)
| Put (key : Http1PoolKey) (cap : Z) (c : Conn).

Definition pool_apply (p : PlainHttp1SenderPool) (o : pool_op) : PlainHttp1SenderPool :=
  match o with Take key => (pool_take key p).2 | Put key cap c => (pool_put key cap c p).2 end.

Definition spec_apply (s : Http1PoolKey -> list Conn) (o : pool_op) : Http1PoolKey -> list Conn :=
  match o with
  | Take key => fun k => if bool_decide (k = key) then tail (s k) else s k
  | Put key cap c => fun k =>
      if bool_decide (k = key) then (if len (s k) <? Z.max cap 1 then c :: s k else s k) else s k
  end.

Lemma new_pool_ok : pool_ok new_pool.
Proof. done. Qed.

Lemma stack_other p key l k :
  p.(hot_key) ≠ Some key ->
  stack (p <| other_connections := <[key := l]> p.(other_connections) |>) k
  = if bool_decide (k = key) then l else stack p k.
Proof.
  intros Hk. unfold stack. cbn. destruct (decide (k = key)) as [->|Hne].
  - rewrite bool_decide_false by done. rewrite bool_decide_true by done. by rewrite lookup_insert_eq.
  - rewrite (bool_decide_false (k = key)) by done. case_bool_decide; [done|]. by rewrite lookup_insert_ne.
Qed.

Lemma stack_hot p key l k :
  p.(hot_key) = Some key ->
  stack (p <| hot_connections := l |>) k = if bool_decide (k = key) then l else stack p k.
Proof.
  intros Hk. unfold stack. cbn. rewrite Hk. destruct (decide (k = key)) as [->|Hne].
  - by rewrite !bool_decide_true.
  - by rewrite !bool_decide_false by congruence.
Qed.

Lemma other_ok p key l :
  pool_ok p -> is_Some p.(hot_key) -> p.(hot_key) ≠ Some key ->
  pool_ok (p <| other_connections := <[key := l]> p.(other_connections) |>).
Proof.
  unfold pool_ok. cbn. intros Hok [k Hk] Hne. rewrite Hk in *. rewrite lookup_insert_ne; [done|congruence].
Qed.

Lemma take_spec key p :
  pool_ok p ->
  (pool_take key p).1 = head (stack p key) /\ pool_ok (pool_take key p).2
  /\ forall k, stack (pool_take key p).2 k = if bool_decide (k = key) then tail (stack p k) else stack p k.
Proof.
  intros Hok. unfold pool_take. destruct (decide (hot_key p = Some key)) as [Hk|Hk].
  - rewrite bool_decide_true by done. unfold stack at 1. rewrite bool_decide_true by done.
    assert (Hs : stack p key = hot_connections p) by (unfold stack; by rewrite bool_decide_true).
    destruct (hot_connections p) as [|c l] eqn:Hl; cbn; (split; [done|]).
    + split; [done|]. intros k. case_bool_decide as Hkk; [subst k; by rewrite Hs|done].
    + split; [unfold pool_ok in *; cbn; by rewrite Hk in *|]. intros k.
      rewrite (stack_hot p key l k Hk). case_bool_decide as Hkk; [subst k; by rewrite Hs|done].
  - rewrite bool_decide_false by done.
    assert (Hs : stack p key = default [] (other_connections p !! key))
      by (unfold stack; by rewrite bool_decide_false).
    rewrite Hs. destruct (other_connections p !! key) as [[|c l]|] eqn:Hl; cbn; (split; [done|]).
    + split; [done|]. intros k. case_bool_decide as Hkk; [subst k; by rewrite Hs|done].
    + split.
      * apply other_ok; [done| |done]. unfold pool_ok in Hok. destruct (hot_key p); [done|].
        destruct Hok as [_ Ho]. by rewrite Ho in Hl.
      * intros k. rewrite stack_other by done. case_bool_decide as Hkk; [subst k; by rewrite Hs|done].
    + split; [done|]. intros k. case_bool_decide as Hkk; [subst k; by rewrite Hs|done].
Qed.

Lemma put_spec key cap c p :
  pool_ok p ->
  (pool_put key cap c p).1 = (len (stack p key) <? Z.max cap 1) /\ pool_ok (pool_put key cap c p).2
  /\ forall k, stack (pool_put key cap c p).2 k
       = if bool_decide (k = key)
         then (if len (stack p k) <? Z.max cap 1 then c :: stack p k else stack p k) else stack p k.
Proof.
  intros Hok. unfold pool_put. destruct (decide (hot_key p = Some key)) as [Hk|Hk].
  - rewrite bool_decide_true by done.
    assert (Hs : stack p key = hot_connections p) by (unfold stack; by rewrite bool_decide_true).
    rewrite Hs. destruct (len (hot_connections p) <? Z.max cap 1) eqn:Hlt; cbn; (split; [done|]).
    + split; [unfold pool_ok in *; cbn; by rewrite Hk in *|]. intros k.
      rewrite (stack_hot p key _ k Hk). case_bool_decide as Hkk; [subst k; by rewrite Hs, Hlt|done].
    + split; [done|]. intros k. case_bool_decide as Hkk; [subst k; by rewrite Hs, Hlt|done].
  - rewrite (bool_decide_false (hot_key p = Some key)) by done. destruct (hot_key p) as [hot|] eqn:Hhot.
    + rewrite bool_decide_false by done.
      assert (Hs : stack p key = default [] (other_connections p !! key))
        by (unfold stack; by rewrite Hhot, bool_decide_false).
      rewrite Hs. destruct (len _ <? _) eqn:Hlt; cbn; (split; [done|]).
      all: split; [apply other_ok; [done|by rewrite Hhot|by rewrite Hhot]|].
      all: intros k; rewrite stack_other by (by rewrite Hhot).
      all: case_bool_decide as Hkk; [subst k; by rewrite Hs, Hlt|done].
    + rewrite bool_decide_true by done. cbn. unfold pool_ok in Hok. rewrite Hhot in Hok.
      destruct Hok as [Hnil Hemp].
      assert (Hs : forall k, stack p k = []) by (intros k; unfold stack; by rewrite Hhot, Hemp, lookup_empty).
      rewrite !Hs. unfold len. cbn. rewrite (proj2 (Z.ltb_lt 0 _)) by lia. split; [done|].
      split; [unfold pool_ok; cbn; by rewrite Hemp|]. intros k. rewrite !Hs. unfold stack. cbn.
      rewrite Hnil, Hemp, lookup_empty. rewrite (proj2 (Z.ltb_lt 0 _)) by lia.
      destruct (decide (k = key)) as [->|]; [by rewrite !bool_decide_true|].
      by rewrite !bool_decide_false by congruence.
Qed.

(** The pool implements one bounded stack of idle connections per key:
    after any sequence of calls, what each key has is what the same calls
    leave on its stack (a connection is handed out only for the key it was put
    under, the latest first), the pool takes a connection exactly when its key
    has room, and no key ever has more than the largest capacity asked for. *)
Theorem sender_pool_refines ops n key cap c :
  Forall (fun o => match o with Put _ cap _ => cap <= n | Take _ => True end) ops -> 1 <= n ->
  let p := foldl pool_apply new_pool ops in
  let s := foldl spec_apply (fun _ => []) ops in
  (forall k, stack p k = s k)
  /\ (pool_take key p).1 = head (s key)
  /\ (pool_put key cap c p).1 = (len (s key) <? Z.max cap 1)
  /\ len (s key) <= n.
Proof.
  intros Hcap Hn p s.
  assert (H : pool_ok p /\ (forall k, stack p k = s k) /\ forall k, len (s k) <= n).
  { unfold p, s. clear p s. induction ops as [|o ops IH] using rev_ind.
    { split; [done|]. split; [done|]. intros k. cbn. len_lia. }
    apply Forall_app in Hcap as [Hcap [Ho _]%Forall_cons].
    rewrite !foldl_snoc. destruct (IH Hcap) as (Hok & Hs & Hb). clear IH.
    set (p := foldl pool_apply _ ops) in *. set (s := foldl spec_apply _ ops) in *.
    destruct o as [k0|k0 c0 x]; cbn [pool_apply spec_apply] in *.
    - destruct (take_spec k0 p Hok) as (_ & Hok' & Hst). split; [done|]. split.
      + intros k. by rewrite Hst, Hs.
      + intros k. specialize (Hb k). case_bool_decide; [|done]. destruct (s k); cbn [tail]; len_lia.
    - destruct (put_spec k0 c0 x p Hok) as (_ & Hok' & Hst). split; [done|]. split.
      + intros k. by rewrite Hst, Hs.
      + intros k. specialize (Hb k). case_bool_decide; [|done].
        destruct (Z.ltb_spec (len (s k)) (Z.max c0 1)); len_lia. }
  destruct H as (Hok & Hs & Hb). split_and!; [done| | |done].
  - destruct (take_spec key p Hok) as [-> _]. by rewrite Hs.
  - destruct (put_spec key cap c p Hok) as [-> _]. by rewrite Hs.
Qed.

End pool.
Arguments PlainHttp1SenderPool : clear implicits.
Arguments PlainHttp1SenderLease : clear implicits.
Arguments pool_op : clear implicits.

Lemma sender_pool_refines_witness :
  (pool_take (Plain "a") (foldl pool_apply new_pool [Put (Plain "a") 2 7; Put (Plain "b") 2 8; Put (Plain "a") 2 9])).1
  = Some 9.
Proof.
  refine (proj1 (proj2 (sender_pool_refines [Put (Plain "a") 2 7; Put (Plain "b") 2 8; Put (Plain "a") 2 9] 2
    (Plain "a") 1 0 _ _))); [repeat constructor; lia|lia].
Defined.

End Http1SenderPool.
