(* ===== verification/Http1ResponseBody.v ===== *)
(** Model of the response body reader of
    [src/abi_impl/http/outbound_http1.rs] ([PlainHttp1ResponseBody::pull_next]):
    a body that is empty, of a fixed length, in chunks or up to the end of the
    stream, pulled from a leased upstream connection that goes back to the pool
    when the body is complete. *)

From S2P Require Import Prelude Bytes TlsFlow Http1Text Http1Io HttpHeaders Http1SenderPool.

Module Http1ResponseBody.
Import Http1Text Http1Io HttpHeaders Http1SenderPool.

Inductive ChunkedState :=
| NeedSize
| ReadData (remaining : Z)
| ExpectChunkTerminator
| ReadTrailers.

Inductive PlainHttp1BodyKind :=
| Done
| Fixed (remaining : Z)
| Chunked (state : ChunkedState)
| CloseDelimited.

Section body.
Context {M : Type}.

Record PlainHttp1ResponseBody := MkBody {
  lease : PlainHttp1SenderLease Connection;
  kind : PlainHttp1BodyKind;
  trailers : option M;
}.
#[export] Instance eta_response_body : Eta PlainHttp1ResponseBody := fun b =>
  MkBody b.(lease) b.(kind) b.(trailers).

(** The body with the pool its lease shares. *)
Record State := MkState { body : PlainHttp1ResponseBody; pool : PlainHttp1SenderPool Connection }.
#[export] Instance eta_state : Eta State := fun s => MkState s.(body) s.(pool).

Definition new (l : PlainHttp1SenderLease Connection) (k : PlainHttp1BodyKind) : PlainHttp1ResponseBody :=
  MkBody l k None.

Inductive progress : Type :=
| Continue (s : State)
| Return (r : vm_result (option (list Z))) (s : State).

Definition set_kind (k : PlainHttp1BodyKind) (s : State) : State := s <| body := s.(body) <| kind := k |> |>.
Definition set_connection (c : Connection) (s : State) : State :=
  s <| body := s.(body) <| lease := s.(body).(lease) <| lease_connection := Some c |> |> |>.
Definition body_release (s : State) : State :=
  let '(l, p) := release s.(body).(lease) s.(pool) in MkState (s.(body) <| lease := l |>) p.

Definition host_error (message : string) (s : State) : progress := Return (Err (HostError message)) s.
Definition dirty_error (message : string) (s : State) : progress :=
  host_error message (s <| body := s.(body) <| lease := mark_dirty s.(body).(lease) |> |>).
Definition read_failed (message : string) (s : State) : progress :=
  host_error ("failed to read outbound http/1.1 upstream response: " +:+ message) s.

(** [lease.connection_mut], followed by what the iteration does with it. *)
Definition with_connection (s : State) (f : Connection -> progress) : progress :=
  match s.(body).(lease).(lease_connection) with
  | None => host_error "plain http/1.1 upstream connection lease is unavailable" s
  | Some c => f c
  end.

(** [read_more], for a body of kind [k] whose buffer is empty. *)
Definition read_more (k : PlainHttp1BodyKind) (c : Connection) (closed : State -> progress) (s : State)
    : progress :=
  let '(r, c) := read_buf c in
  let s := set_connection c s in
  match r with
  | Err e => read_failed e s
  | Ok n => if 0 <? n then Continue (set_kind k s) else closed s
  end.

(** The fixed length arm and the chunk data arm. *)
Definition pull_data (remaining : Z) (k : PlainHttp1BodyKind) (closed : string)
    (after : Z -> State -> State) (s : State) : progress :=
  with_connection s (fun c =>
    if bool_decide (c.(buffered) = []) then read_more k c (dirty_error closed) s
    else
      let n := Z.min (len c.(buffered)) remaining in
      let '(chunk, c) := split_to (Z.to_nat n) c in
      Return (Ok (Some chunk)) (after (remaining - n) (set_connection c s))).

Definition pull_line (closed : string) (s : State) (f : list Z -> State -> progress) : progress :=
  with_connection s (fun c =>
    let '(r, c) := read_line c in
    let s := set_connection c s in
    match r with
    | Err e => read_failed e s
    | Ok None => dirty_error closed s
    | Ok (Some line) => f line s
    end).

Definition size_error_message (e : size_error) : string :=
  match e with
  | InvalidUtf8 e => "invalid utf-8 in plain http/1.1 chunk size line: " +:+ utf8_error_display e
  | MissingSize => "missing plain http/1.1 chunk size line"
  | InvalidSize v e => "invalid plain http/1.1 chunk size `" +:+ v +:+ "`: " +:+ e
  end.

(** [<[u8]>::trim_ascii_start] *)
Fixpoint trim_ascii_start (l : list Z) : list Z :=
  match l with
  | b :: k => if bool_decide (b ∈ [9; 10; 12; 13; 32]) then trim_ascii_start k else l
  | [] => []
  end.

(** The bytes before and after the first [:]. *)
Fixpoint split_colon (l : list Z) : option (list Z * list Z) :=
  match l with
  | [] => None
  | b :: l => if b =? 58 then Some ([], l) else '(name, value) ← split_colon l; Some (b :: name, value)
  end.

Section reader.
Context `{HM : HeaderMap M} `{HC : HttpCrate}.

(** [record_trailer_line]; an error dirties the lease. *)
Definition record_trailer_line (line : list Z) (s : State) (next : State -> progress) : progress :=
  match split_colon line with
  | None => dirty_error "invalid plain http/1.1 trailer line" s
  | Some (name, value) =>
      match header_name name with
      | Err e => dirty_error ("invalid plain http/1.1 trailer name: " +:+ e) s
      | Ok name =>
          match header_value (trim_ascii_start value) with
          | Err e => dirty_error ("invalid plain http/1.1 trailer value for `" +:+ name +:+ "`: " +:+ e) s
          | Ok value =>
              next (s <| body := s.(body)
                <| trailers := Some (hm_append name value (default hm_new s.(body).(trailers))) |> |>)
          end
      end
  end.

(** One iteration of [pull_next]; it first takes the kind, leaving [Done]. *)
Definition pull_step (s : State) : progress :=
  let k := s.(body).(kind) in
  let s := set_kind Done s in
  match k with
  | Done => Return (Ok None) s
  | Fixed remaining =>
      if remaining =? 0 then Return (Ok None) (body_release s)
      else pull_data remaining (Fixed remaining)
             "plain http/1.1 upstream connection closed before fixed-length body completed"
             (fun r s => if r =? 0 then set_kind Done (body_release s) else set_kind (Fixed r) s) s
  | CloseDelimited =>
      with_connection s (fun c =>
        if bool_decide (c.(buffered) = []) then
          read_more CloseDelimited c (fun s => Return (Ok None) (set_kind Done (body_release s))) s
        else
          Return (Ok (Some c.(buffered))) (set_kind CloseDelimited (set_connection (c <| buffered := [] |>) s)))
  | Chunked NeedSize =>
      pull_line "plain http/1.1 upstream connection closed while reading chunk size" s (fun line s =>
        match chunk_size line with
        | Err e => host_error (size_error_message e) s
        | Ok size =>
            Continue (set_kind (Chunked (if size =? 0 then ReadTrailers else ReadData size)) s)
        end)
  | Chunked (ReadData remaining) =>
      if remaining =? 0 then Continue (set_kind (Chunked ExpectChunkTerminator) s)
      else pull_data remaining (Chunked (ReadData remaining))
             "plain http/1.1 upstream connection closed before chunked body completed"
             (fun r s => set_kind (Chunked (if r =? 0 then ExpectChunkTerminator else ReadData r)) s) s
  | Chunked ExpectChunkTerminator =>
      with_connection s (fun c =>
        let '(r, c) := ensure_buffered_bytes 2 c in
        let s := set_connection c s in
        match r with
        | Err e => read_failed e s
        | Ok false => dirty_error "plain http/1.1 upstream connection closed before chunk terminator" s
        | Ok true =>
            let '(terminator, c) := split_to 2 c in
            let s := set_connection c s in
            if bool_decide (terminator = CRLF) then Continue (set_kind (Chunked NeedSize) s)
            else dirty_error "invalid plain http/1.1 chunk terminator" s
        end)
  | Chunked ReadTrailers =>
      pull_line "plain http/1.1 upstream connection closed while reading trailers" s (fun line s =>
        if bool_decide (line = []) then Return (Ok None) (set_kind Done (body_release s))
        else record_trailer_line line s (fun s => Continue (set_kind (Chunked ReadTrailers) s)))
  end.

(** [None]: out of fuel. *)
Fixpoint pull_loop (fuel : nat) (s : State) : option (vm_result (option (list Z)) * State) :=
  match fuel with
  | O => None
  | S fuel => match pull_step s with Continue s => pull_loop fuel s | Return r s => Some (r, s) end
  end.

Definition body_size (s : State) : nat :=
  match s.(body).(lease).(lease_connection) with Some c => conn_size c | None => 0 end.

(** Enough for every connection, see [pull_next_sound]. *)
Definition pull_next (s : State) : option (vm_result (option (list Z)) * State) :=
  pull_loop (body_size s + 2) s.

(** A consumer of the body until its end. *)
Fixpoint collect (fuel : nat) (s : State) : option (list Z * vm_result unit * State) :=
  match fuel with
  | O => None
  | S fuel =>
      '(r, s) ← pull_next s;
      match r with
      | Err e => Some ([], Err e, s)
      | Ok None => Some ([], Ok tt, s)
      | Ok (Some chunk) => '(data, r, s) ← collect fuel s; Some (chunk ++ data, r, s)
      end
  end.

Definition read_all (s : State) := collect (body_size s + 2) s.

(** ** What a complete body is *)

(** The bytes a body of kind [k] with the data [data] takes on the wire. *)
Inductive body_wire : PlainHttp1BodyKind -> list Z -> list Z -> Prop :=
| wire_fixed d : body_wire (Fixed (len d)) d d
| wire_chunked data wire : chunked_wire data wire -> body_wire (Chunked NeedSize) data wire
| wire_data d data wire : chunked_wire data wire ->
    body_wire (Chunked (ReadData (len d))) (d ++ data) (d ++ CRLF ++ wire)
| wire_terminator data wire : chunked_wire data wire ->
    body_wire (Chunked ExpectChunkTerminator) data (CRLF ++ wire)
| wire_trailers ts : Forall (fun t => t ≠ [] /\ is_line t) ts ->
    body_wire (Chunked ReadTrailers) [] (concat ((fun t => t ++ CRLF) <$> ts) ++ CRLF)
| wire_close data : body_wire CloseDelimited data data.

Definition open_kind (k : PlainHttp1BodyKind) : Prop :=
  match k with Done => False | Fixed r | Chunked (ReadData r) => 0 <= r | _ => True end.
Definition kind_weight (k : PlainHttp1BodyKind) : nat :=
  match k with Chunked (ReadData _) => 1 | _ => 0 end.

Section sound.
Context (key : Http1PoolKey) (cap : Z) (reuse is_dirty : bool) (p : PlainHttp1SenderPool Connection).

(** The body holds the connection [c]. *)
Abbreviation live c k t := (MkState (MkBody (MkLease key cap reuse is_dirty (Some c)) k t) p).

(** The body has let go of the connection, for the pool if the lease may
    reuse it. *)
Definition given_back (c : Connection) (s : State) : Prop :=
  exists t, s = MkState (MkBody (MkLease key cap reuse is_dirty None) Done t)
    (if reuse && negb is_dirty then (pool_put key cap c p).2 else p).

Definition moved (c : Connection) (k : PlainHttp1BodyKind) (consumed : list Z) (c' : Connection)
    (k' : PlainHttp1BodyKind) (chunk : list Z) : Prop :=
  total c = consumed ++ total c' /\ open_kind k' /\ (conn_size c' <= conn_size c)%nat /\
  forall data wire, body_wire k' data wire -> body_wire k (chunk ++ data) (consumed ++ wire).

Definition return_sound c k (r : vm_result (option (list Z))) (s' : State) : Prop :=
  match r with
  | Err _ => pool s' = p
  | Ok None => exists consumed c',
      total c = consumed ++ total c' /\ body_wire k [] consumed /\ given_back c' s'
  | Ok (Some chunk) => chunk ≠ [] /\ exists consumed c', 
      ((exists k' t', s' = live c' k' t' /\ moved c k consumed c' k' chunk
          /\ (conn_size c' + 2 * length chunk <= conn_size c)%nat)
       \/ total c = consumed ++ total c' /\ body_wire k chunk consumed /\ given_back c' s')
  end.

Definition step_sound c k (pr : progress) : Prop :=
  match pr with
  | Continue s' => exists c' k' t' consumed, s' = live c' k' t' /\ moved c k consumed c' k' []
      /\ (conn_size c' + kind_weight k' < conn_size c + kind_weight k)%nat
  | Return r s' => return_sound c k r s'
  end.

Lemma body_wire_fixed_app n chunk d wire :
  body_wire (Fixed (n - len chunk)) d wire -> body_wire (Fixed n) (chunk ++ d) (chunk ++ wire).
Proof.
  intros Hw. inversion Hw; subst. replace n with (len (chunk ++ wire)) by (len_lia). constructor.
Qed.

Lemma body_wire_data_app n chunk d wire :
  body_wire (Chunked (ReadData (n - len chunk))) d wire ->
  body_wire (Chunked (ReadData n)) (chunk ++ d) (chunk ++ wire).
Proof.
  intros Hw. inversion Hw as [| |d' data w Hc Hn| | |]; subst.
  replace n with (len (chunk ++ d')) by (len_lia). rewrite !(app_assoc chunk d'). by constructor.
Qed.

Lemma body_wire_data_end n chunk d wire :
  n = len chunk -> body_wire (Chunked ExpectChunkTerminator) d wire ->
  body_wire (Chunked (ReadData n)) (chunk ++ d) (chunk ++ wire).
Proof. intros -> Hw. inversion Hw; subst. by constructor. Qed.

(** The data arms. *)
Lemma pull_data_sound c k t n k0 closed after s :
  s = live c Done t -> open_kind k -> 0 < n -> k = k0 -> 
  (forall c' chunk, chunk ≠ [] -> len chunk <= n ->
     total c = chunk ++ total c' -> (conn_size c' + 2 * length chunk <= conn_size c)%nat ->
     return_sound c k (Ok (Some chunk)) (after (n - len chunk) (live c' Done t))) ->
  step_sound c k (pull_data n k0 closed after s).
Proof.
  intros -> Hk Hn <- Hafter. unfold pull_data, with_connection. cbn [body lease lease_connection].
  case_bool_decide as Hbuf.
  - unfold read_more. destruct (read_buf c) as [r c'] eqn:Hr. destruct (read_buf_size _ _ _ Hr) as [Hle Hlt].
    destruct r as [m|e]; [|done]. destruct (Z.ltb_spec 0 m); [|done].
    destruct (read_buf_total _ _ _ Hr) as [Ht _]. specialize (Hlt m eq_refl ltac:(lia)).
    exists c', k, t, []. split; [done|]. split; [|lia]. split_and!; [done|done|lia|]. done.
  - set (m := Z.min _ _).
    assert (0 < len (buffered c)) by (unfold len; destruct (buffered c); [done|cbn; lia]).
    assert (Hm : 0 < m /\ m <= len (buffered c) /\ m <= n) by (unfold m; lia). clearbody m.
    assert (Hm' : (Z.to_nat m <= length (buffered c))%nat) by (unfold len in Hm; lia).
    pose proof (split_to_size _ c Hm') as Hs. pose proof (split_to_total (Z.to_nat m) c) as Ht.
    assert (Hch : length (split_to (Z.to_nat m) c).1 = Z.to_nat m)
      by (unfold split_to; cbn; rewrite length_take; lia).
    destruct (split_to (Z.to_nat m) c) as [chunk c']. cbn [fst snd] in *.
    replace (n - m) with (n - len chunk) by (unfold len; lia).
    apply (Hafter c' chunk); [intros ->; cbn in Hch; lia|unfold len; lia|done|lia].
Qed.

Lemma pull_line_sound c k t closed f s :
  s = live c Done t ->
  (forall c' line, read_line c = (Ok (Some line), c') -> step_sound c k (f line (live c' Done t))) ->
  step_sound c k (pull_line closed s f).
Proof.
  intros -> Hf. unfold pull_line, with_connection. cbn [body lease lease_connection].
  destruct (read_line c) as [[[line|]|e] c'] eqn:Hr; [|done..]. by apply Hf.
Qed.

Lemma release_given_back c t k :
  given_back c (set_kind Done (body_release (live c k t))).
Proof. exists t. unfold body_release, release. cbn. by destruct (reuse && negb is_dirty). Qed.

Lemma release_given_back' c t : given_back c (body_release (live c Done t)).
Proof. exists t. unfold body_release, release. cbn. by destruct (reuse && negb is_dirty). Qed.

Lemma line_size c line c' : read_line c = (Ok (Some line), c') -> (conn_size c' + 4 <= conn_size c)%nat.
Proof. intros Hr. destruct (read_line_size _ _ _ Hr) as [_ Hs]. by apply (Hs line). Qed.

Lemma record_trailer_sound c k c' t line :
  read_line c = (Ok (Some line), c') -> k = Chunked ReadTrailers -> line ≠ [] ->
  step_sound c k (record_trailer_line line (live c' Done t)
    (fun s => Continue (set_kind (Chunked ReadTrailers) s))).
Proof.
  intros Hr -> Hne. unfold record_trailer_line. destruct (split_colon line) as [[name value]|]; [|done].
  destruct (header_name name) as [n|]; [|done]. destruct (header_value _) as [v|]; [|done].
  pose proof (line_size _ _ _ Hr). destruct (read_line_total _ _ _ Hr) as [Hl Ht].
  eexists c', _, _, (line ++ CRLF). split; [done|]. split; [|cbn; lia].
  split_and!; [by rewrite <-app_assoc|done|lia|]. intros data wire Hw.
  inversion Hw as [| | | |ts Hts|]; subst.
  replace ((line ++ CRLF) ++ concat ((fun t => t ++ CRLF) <$> ts) ++ CRLF)
    with (concat ((fun t => t ++ CRLF) <$> (line :: ts)) ++ CRLF) by (cbn; by rewrite <-!app_assoc).
  constructor. by constructor.
Qed.

Lemma pull_step_sound c k t : open_kind k -> step_sound c k (pull_step (live c k t)).
Proof.
  intros Hk. unfold pull_step. cbn [kind body].
  change (set_kind Done (live c k t)) with (live c Done t).
  destruct k as [|n|[|n| |]|]; [done| | | | | |].
  - destruct (Z.eqb_spec n 0) as [->|Hn].
    { exists [], c. split; [done|]. split; [apply (wire_fixed [])|]. apply release_given_back'. }
    cbn in Hk. eapply pull_data_sound; [done|done|lia|done|]. intros c' chunk Hne Hlen Ht Hsz.
    split; [done|]. exists chunk, c'. destruct (Z.eqb_spec (n - len chunk) 0).
    + right. split; [done|]. split; [|apply release_given_back].
      replace n with (len chunk) by lia. constructor.
    + left. exists (Fixed (n - len chunk)), t. split; [done|]. split; [|done].
      split_and!; [done|cbn; lia|lia|]. intros. by apply body_wire_fixed_app.
  - eapply pull_line_sound; [done|]. intros c' line Hr. pose proof (line_size _ _ _ Hr).
    destruct (read_line_total _ _ _ Hr) as [Hl Ht].
    destruct (chunk_size line) as [n|] eqn:Hn; [|done]. pose proof (chunk_size_bounds _ _ Hn).
    eexists c', _, t, (line ++ CRLF). split; [done|]. split; [|destruct (n =? 0); cbn; lia].
    split_and!; [by rewrite <-app_assoc|destruct (n =? 0); cbn; (done || lia)|lia|]. intros data wire Hw.
    destruct (Z.eqb_spec n 0) as [->|Hn0]; inversion Hw as [| |d dd w Hc Hd| |ts Hts|]; subst; constructor.
    + rewrite <-app_assoc. by apply wire_end.
    + rewrite <-app_assoc. apply (wire_chunk line d dd w); [done| |done|done]. intros ->. by rewrite len_nil in Hn0.
  - destruct (Z.eqb_spec n 0) as [->|Hn].
    { exists c, (Chunked ExpectChunkTerminator), t, []. split; [done|].
      split; [split_and!; [done|done|lia|]|cbn; lia]. intros. by apply body_wire_data_end. }
    cbn in Hk. eapply pull_data_sound; [done|done|lia|done|]. intros c' chunk Hne Hlen Ht Hsz.
    split; [done|]. exists chunk, c'. left. eexists _, t. split; [done|]. split; [|done].
    destruct (Z.eqb_spec (n - len chunk) 0); (split_and!; [done|cbn; lia|lia|]); intros.
    + apply body_wire_data_end; [lia|done].
    + by apply body_wire_data_app.
  - unfold with_connection. cbn [body lease lease_connection].
    destruct (ensure_buffered_bytes 2 c) as [r c'] eqn:Hr. destruct (ensure_size _ _ _ _ Hr) as [Hle Hlen].
    destruct r as [[]|]; [|done..]. specialize (Hlen eq_refl). pose proof (ensure_total _ _ _ _ Hr) as Ht.
    pose proof (split_to_size 2 c' Hlen). pose proof (split_to_total 2 c') as Hs.
    destruct (split_to 2 c') as [term c2]. cbn [fst snd] in *.
    case_bool_decide as Hterm; [subst term|done].
    exists c2, (Chunked NeedSize), t, CRLF. split; [done|]. split; [|cbn; lia].
    split_and!; [by rewrite <-Ht|done|lia|]. intros data wire Hw. inversion Hw; subst. by constructor.
  - eapply pull_line_sound; [done|]. intros c' line Hr. case_bool_decide as Hl; [|by apply record_trailer_sound].
    subst line. destruct (read_line_total _ _ _ Hr) as [_ Ht]. exists CRLF, c'. split; [done|].
    split; [by apply (wire_trailers [])|]. apply (release_given_back c' t Done).
  - unfold with_connection. cbn [body lease lease_connection]. case_bool_decide as Hbuf.
    + unfold read_more. destruct (read_buf c) as [r c'] eqn:Hr. destruct (read_buf_size _ _ _ Hr) as [Hle Hlt].
      destruct r as [m|e]; [|done]. destruct (read_buf_total _ _ _ Hr) as [Ht Hb]. destruct (Z.ltb_spec 0 m).
      * specialize (Hlt m eq_refl ltac:(lia)). exists c', CloseDelimited, t, []. split; [done|].
        split; [|cbn; lia]. split_and!; [done|done|lia|]. done.
      * exists [], c'. split; [done|]. split; [constructor|]. apply (release_given_back c' t Done).
    + split; [done|]. exists (buffered c), (c <| buffered := [] |>). left. exists CloseDelimited, t. split; [done|].
      pose proof (split_to_size (length (buffered c)) c ltac:(lia)) as Hsz. unfold split_to in Hsz.
      rewrite drop_all in Hsz. cbn [snd] in Hsz.
      split; [|lia]. split_and!; [by unfold total|done|lia|]. intros data wire Hw. inversion Hw; subst. constructor.
Qed.

Lemma pull_loop_sound fuel c k t :
  open_kind k -> (conn_size c + kind_weight k < fuel)%nat ->
  exists r s', pull_loop fuel (live c k t) = Some (r, s') /\ return_sound c k r s'.
Proof.
  revert c k t. induction fuel as [|fuel IH]; intros c k t Hk Hf; [lia|]. cbn [pull_loop].
  pose proof (pull_step_sound c k t Hk) as Hs.
  destruct (pull_step (live c k t)) as [s1|r s1]; [|by eauto].
  destruct Hs as (c1 & k1 & t1 & consumed & -> & (Ht & Hk1 & Hle & Hw) & Hm).
  destruct (IH c1 k1 t1 Hk1 ltac:(lia)) as (r & s' & -> & Hr). exists r, s'. split; [done|].
  destruct r as [[chunk|]|]; [|..|done]; cbn in *.
  - destruct Hr as (Hne & consumed' & c' & Hr). split; [done|]. exists (consumed ++ consumed'), c'.
    destruct Hr as [(k' & t' & -> & (Ht' & Hk' & Hle' & Hw') & Hsz)|(Ht' & Hw' & Hg)].
    + left. exists k', t'. split; [done|]. split; [|lia]. split_and!; [by rewrite <-app_assoc, <-Ht'|done|lia|].
      intros. rewrite <-app_assoc. by apply (Hw (chunk ++ data)), Hw'.
    + right. split_and!; [by rewrite <-app_assoc, <-Ht'|by apply Hw|done].
  - destruct Hr as (consumed' & c' & Ht' & Hw' & Hg). exists (consumed ++ consumed'), c'.
    split_and!; [by rewrite <-app_assoc, <-Ht'|by apply (Hw [])|done].
Qed.

Lemma collect_sound fuel c k t :
  open_kind k -> (conn_size c + 1 < fuel)%nat ->
  exists data r s', collect fuel (live c k t) = Some (data, r, s') /\
    match r with
    | Err _ => pool s' = p
    | Ok _ => exists consumed c', total c = consumed ++ total c' /\ body_wire k data consumed /\ given_back c' s'
    end.
Proof.
  revert c k t. induction fuel as [|fuel IH]; intros c k t Hk Hf; [lia|]. cbn [collect].
  destruct (pull_loop_sound (body_size (live c k t) + 2) c k t) as (r & s1 & Hp & Hr);
    [done|unfold body_size; cbn; destruct k as [| |[]|]; cbn; lia|].
  unfold pull_next. rewrite Hp. cbn [mbind option_bind].
  destruct r as [[chunk|]|e]; [|by exists [], (Ok tt), s1|by exists [], (Err e), s1].
  destruct Hr as (Hne & consumed & c' & Hr).
  assert (0 < length chunk)%nat by (destruct chunk; [done|cbn; lia]).
  destruct Hr as [(k' & t' & -> & (Ht & Hk' & Hle & Hw) & Hsz)|(Ht & Hw & t' & ->)].
  - destruct (IH c' k' t' Hk' ltac:(lia)) as (data & r & s2 & -> & Hr). cbn.
    exists (chunk ++ data), r, s2. split; [done|]. destruct r as [[]|]; [|done].
    destruct Hr as (consumed' & c2 & Ht' & Hw' & Hg). exists (consumed ++ consumed'), c2.
    split_and!; [by rewrite <-app_assoc, <-Ht'|by apply Hw|done].
  - destruct fuel as [|fuel]; [lia|]. cbn. rewrite app_nil_r.
    eexists chunk, (Ok tt), _. split; [done|]. exists consumed, c'. split_and!; [done..|]. by exists t'.
Qed.

Lemma response_body_sound c k t :
  open_kind k ->
  exists data r s', read_all (MkState (MkBody (MkLease key cap reuse is_dirty (Some c)) k t) p)
      = Some (data, r, s') /\
    match r with
    | Err _ => pool s' = p
    | Ok _ => exists consumed c', total c = consumed ++ total c' /\ body_wire k data consumed
        /\ lease_connection (lease (body s')) = None
        /\ pool s' = if reuse && negb is_dirty then (pool_put key cap c' p).2 else p
    end.
Proof.
  intros Hk. destruct (collect_sound (conn_size c + 2) c k t Hk ltac:(lia)) as (data & r & s' & Hc & Hr).
  exists data, r, s'. split; [exact Hc|]. destruct r; [|done].
  destruct Hr as (consumed & c' & Ht & Hw & t' & ->). by exists consumed, c'.
Qed.

(** An upstream connection goes back to the pool only after exactly its
    response: whatever the peer sends, reading a body to its end terminates;
    if it succeeds, the bytes consumed are exactly one well-formed body of the
    announced kind whose data is what was handed out, and the connection, with
    exactly the bytes after it, is offered to the pool under the lease's key if
    the lease may be reused; if it fails, the pool is untouched. *)
Theorem response_body_reuse c k t :
  open_kind k ->
  exists data r s', read_all (MkState (MkBody (MkLease key cap reuse is_dirty (Some c)) k t) p)
      = Some (data, r, s') /\
    match r with
    | Err _ => pool s' = p
    | Ok _ => exists consumed c', total c = consumed ++ total c' /\ body_wire k data consumed
        /\ lease_connection (lease (body s')) = None
        /\ pool s' = if reuse && negb is_dirty then (pool_put key cap c' p).2 else p
    end.
Proof. apply response_body_sound. Qed.

End sound.
End reader.

(** [take_trailers] *)
Definition take_trailers (b : PlainHttp1ResponseBody) : option M * PlainHttp1ResponseBody :=
  (b.(trailers), b <| trailers := None |>).
End body.
Arguments PlainHttp1ResponseBody : clear implicits.
Arguments State : clear implicits.

(** A chunked response with a trailer and the start of the next one, in one
    read. *)
Lemma response_body_reuse_witness :
  let c := MkConn [] [Data [50; 13; 10; 104; 105; 13; 10; 48; 13; 10; 120; 58; 49; 13; 10; 13; 10; 72]] in
  exists data r s', read_all (M:=list (string * list Z)) (HC:=any_crate)
      (MkState (new (new_lease (Plain "k") 4 true c) (Chunked NeedSize)) new_pool) = Some (data, r, s')
    /\ (data, r) = ([104; 105], Ok tt)
    /\ (take_trailers (body s')).1 = Some [("x", [49])]
    /\ pool s' = (pool_put (Plain "k") 4 (MkConn [72] []) new_pool).2
    /\ match r with
       | Err _ => False
       | Ok _ => exists consumed c', total c = consumed ++ total c' /\ body_wire (Chunked NeedSize) data consumed
       end.
Proof.
  intros c. destruct (response_body_reuse (M:=list (string * list Z)) (HC:=any_crate) (Plain "k") 4 true false
    new_pool c (Chunked NeedSize) None I) as (data & r & s' & Hr & Hs).
  exists data, r, s'. split; [exact Hr|]. vm_compute in Hr. injection Hr as <- <- <-.
  split; [done|]. split; [reflexivity|]. split; [reflexivity|].
  destruct Hs as (consumed & c' & ? & ? & _). by exists consumed, c'.
Defined.

End Http1ResponseBody.
