(* ===== verification/Http1FastPath.v ===== *)
(** Model of how a downstream HTTP/1 connection is read request by request:
    the classifier of [src/abi_impl/http/fast_path.rs] and the head reader
    [read_next_fast_http1_request] of
    [src/runtime/http_plane/http1_fast_path.rs].  The head parser is httparse's,
    methods and URIs are the [http] crate's, writing is the stream's:
    an interface. *)

From S2P Require Import Prelude Bytes Http1Text Http1Io Http1RequestBody HttpHeaders.

Module Http1FastPath.
Import Http1Text Http1Io HttpHeaders.

Definition MAX_DOWNSTREAM_HTTP1_FAST_BODY_BYTES : Z := 1024 * 1024.
Definition MAX_HTTP1_HEAD_BYTES : Z := 64 * 1024.

Inductive DownstreamHttp1FastBodyKind :=
| BodyEmpty
| BodyFixed (length : Z)
| BodyChunked.

Inductive Version := HTTP_10 | HTTP_11.
#[export] Instance Version_eq_dec : EqDecision Version.
Proof. solve_decision. Defined.

(** ** Classification *)

Section classify.
Context {M : Type} `{HM : HeaderMap M} `{HC : HttpCrate}.

Definition downstream_http1_fast_path_expects_continue_lazy (h : LazyHttpHeaders M) : bool :=
  match get_str h "expect" with
  | Some v => eq_ignore_ascii_case (trim v) "100-continue"
  | None => false
  end.

Definition classify_downstream_http1_fast_body_lazy (h : LazyHttpHeaders M)
    : option DownstreamHttp1FastBodyKind :=
  if contains_name h "content-length" && contains_name h "transfer-encoding" then None
  else if contains_name h "transfer-encoding" then
    if header_contains_token h "transfer-encoding" "chunked" then Some BodyChunked else None
  else
    match content_length h with
    | None => Some BodyEmpty
    | Some n => if n =? 0 then Some BodyEmpty else Some (BodyFixed n)
    end.

Definition downstream_http1_fast_path_eligible_lazy (method : string) (h : LazyHttpHeaders M) : bool :=
  if bool_decide (method = "CONNECT") then false
  else if contains_name h "expect" && negb (downstream_http1_fast_path_expects_continue_lazy h) then false
  else if contains_name h "upgrade" then false
  else if header_contains_token h "connection" "upgrade" then false
  else bool_decide (is_Some (classify_downstream_http1_fast_body_lazy h)).

Definition http1_connection_keep_alive_lazy (v : Version) (h : LazyHttpHeaders M) : bool :=
  let connection_close := header_contains_token h "connection" "close" in
  let connection_keep_alive := header_contains_token h "connection" "keep-alive" in
  match v with
  | HTTP_10 => connection_keep_alive && negb connection_close
  | HTTP_11 => negb connection_close
  end.

(** The classifier over a parsed header map, which the repository's tests
    check. *)
Definition parse_content_length (m : M) : option Z :=
  v ← get m "content-length"; s ← to_str v; match parse_u64 s with Ok n => Some n | Err _ => None end.

Definition header_tokens (m : M) (name : string) : list string :=
  filter (fun t => t ≠ "") (tokens (omap to_str (get_all m name))).

Definition request_transfer_encoding_is_chunked_only (m : M) : bool :=
  let toks := header_tokens m "transfer-encoding" in
  forallb (fun t => eq_ignore_ascii_case t "chunked") toks && negb (bool_decide (toks = [])).

Definition classify_downstream_http1_fast_body (m : M) : option DownstreamHttp1FastBodyKind :=
  if contains_key m "content-length" && contains_key m "transfer-encoding" then None
  else if contains_key m "transfer-encoding" then
    if request_transfer_encoding_is_chunked_only m then Some BodyChunked else None
  else
    match parse_content_length m with
    | None => Some BodyEmpty
    | Some n => if n =? 0 then Some BodyEmpty else Some (BodyFixed n)
    end.
End classify.

Section conformance.
Context {M : Type} `{HML : HeaderMapLaws M} `{HCL : HttpCrateLaws}.

Lemma has_token_nonempty values token :
  token ≠ "" -> has_token values token = existsb (fun t => eq_ignore_ascii_case t token) (filter (fun t => t ≠ "") (tokens values)).
Proof.
  intros Ht. unfold has_token. induction (tokens values) as [|t l IH]; [done|]. cbn [existsb].
  rewrite filter_cons. destruct (decide (t ≠ "")) as [Hne|Hne]; [cbn [existsb]; by rewrite IH|].
  apply dec_stable in Hne. rewrite IH. subst t.
  assert (eq_ignore_ascii_case "" token = false) as ->; [|done].
  unfold eq_ignore_ascii_case. rewrite bool_decide_false; [done|]. by destruct token.
Qed.

(** The production classifier of request bodies agrees with the tested one
    on every well-formed head, except that it takes a request whose transfer
    codings name another coding beside [chunked] (which the tested one refuses)
    for a chunked one. *)
Theorem classify_conforms r :
  well_formed r ->
  let l := MkLazy (M:=M) (Some r) None in
  let m := (headers l).1 in
  classify_downstream_http1_fast_body_lazy l = classify_downstream_http1_fast_body m
  \/ classify_downstream_http1_fast_body m = None
     /\ classify_downstream_http1_fast_body_lazy l = Some BodyChunked
     /\ exists t, t ∈ header_tokens m "transfer-encoding" /\ eq_ignore_ascii_case t "chunked" = false.
Proof.
  intros Hr l m.
  assert (Hc : forall k, contains_name l k = contains_key m k)
    by (intros k; destruct (lazy_headers_agree (M:=M) r k "" Hr) as (_ & Hq & _); by symmetry).
  assert (Ht : header_contains_token l "transfer-encoding" "chunked" = map_contains_token m "transfer-encoding" "chunked").
  { destruct (lazy_headers_agree (M:=M) r "transfer-encoding" "chunked" Hr) as (_ & _ & Hq & _). by symmetry. }
  assert (Hl : content_length l = parse_content_length m).
  { destruct (lazy_headers_agree (M:=M) r "" "" Hr) as (_ & _ & _ & Hq & _). etrans; [symmetry; exact Hq|].
    unfold content_length, parse_content_length, get_str. cbn. by rewrite option_bind_assoc. }
  unfold classify_downstream_http1_fast_body_lazy, classify_downstream_http1_fast_body.
  rewrite !Hc, Ht, Hl. destruct (contains_key m "content-length" && _); [by left|].
  destruct (contains_key m "transfer-encoding"); [|by left].
  unfold map_contains_token. rewrite has_token_nonempty by done. change (filter _ (tokens _)) with (header_tokens m "transfer-encoding").
  unfold request_transfer_encoding_is_chunked_only. set (toks := header_tokens m "transfer-encoding").
  destruct (forallb (fun t => eq_ignore_ascii_case t "chunked") toks) eqn:Hall; cbn.
  - left. destruct toks as [|t toks]; [done|]. cbn in *. by apply andb_true_iff in Hall as [-> _].
  - destruct (existsb _ toks); [|by left]. right. split; [done|]. split; [done|].
    assert (Hx : ~ forall t, t ∈ toks -> eq_ignore_ascii_case t "chunked" = true).
    { intros Hf. apply not_true_iff_false in Hall. apply Hall, forallb_forall. intros t Ht'%list_elem_of_In. by apply Hf. }
    clearbody toks. clear -Hx. induction toks as [|t toks IH]; [by destruct Hx; intros t []%elem_of_nil|].
    destruct (eq_ignore_ascii_case t "chunked") eqn:Heq; [|exists t; split; [by left|done]].
    destruct IH as (t' & Hin & Ht'); [|exists t'; split; [by right|done]].
    intros Hf. apply Hx. intros t' [->|Hin]%elem_of_cons; [done|]. by apply Hf.
Qed.
End conformance.

(** ** Reading a request *)

(** [httparse::Request] and [httparse::Status]. *)
Record HttparseRequest := MkParsed {
  parsed_method : option string;
  parsed_version : option Z;
  parsed_path : option string;
  parsed_headers : list (list Z * list Z);
}.
Inductive parse_status :=
| Complete (consumed : nat) (request : HttparseRequest)
| Partial
| ParseError.

Class HttpParser (U W : Type) := {
  parse_request : list Z -> parse_status;                     (** [httparse::Request::parse] *)
  method_from_bytes : string -> option string;                (** [Method::from_bytes] *)
  parse_uri : string -> option U;                             (** [str::parse::<Uri>] *)
  write_all : list Z -> W -> result string unit * W;          (** the stream's *)
}.
Class HttpParserLaws U W `{HttpParser U W} :=
  parse_consumed l n r : parse_request l = Complete n r -> (n <= length l)%nat.

Import Http1RequestBody.

Record FastHttp1Request (M U : Type) := MkRequest {
  method : string;
  uri : U;
  version : Version;
  request_headers : LazyHttpHeaders M;
  keep_alive : bool;
}.
Arguments MkRequest {M U}. Arguments request_headers {M U}.

Inductive FastHttp1Decision (M U : Type) :=
| EndOfStream
| FallbackToHyper
| Request (r : FastHttp1Request M U) (lease : option FastHttp1RequestBodyState).
Arguments EndOfStream {M U}. Arguments FallbackToHyper {M U}. Arguments Request {M U}.

Section read.
Context {M U W : Type} `{HM : HeaderMap M} `{HC : HttpCrate} `{HP : HttpParser U W}.

(** What a run ends with: its result, the connection unless the body took it,
    and the peer's side of the writes. *)
Abbreviation run := (result FastHttp1ReadError (FastHttp1Decision M U) * option Connection * W)%type.

Definition fallback (c : Connection) (w : W) : run := (Ok FallbackToHyper, Some c, w).

Definition continue_100 : list Z := bytes_of_string "HTTP/1.1 100 Continue" ++ CRLF ++ CRLF.

(** The request line, if the fast path takes it. *)
Definition request_line (p : HttparseRequest) : option (string * Version * U) :=
  m ← p.(parsed_method);
  m ← method_from_bytes m;
  v ← match p.(parsed_version) with Some 0 => Some HTTP_10 | Some 1 => Some HTTP_11 | _ => None end;
  u ← p.(parsed_path);
  u ← parse_uri u;
  Some (m, v, u).

(** The part after a complete head. *)
Definition accept (consumed : nat) (p : HttparseRequest) (c : Connection) (w : W) : run :=
  match request_line p with
  | None => fallback c w
  | Some (m, v, u) =>
      let h := from_raw_header_bytes (M:=M) p.(parsed_headers) in
      if negb (downstream_http1_fast_path_eligible_lazy m h) then fallback c w
      else
        let '(r, w) := if downstream_http1_fast_path_expects_continue_lazy h
                       then write_all continue_100 w else (Ok tt, w) in
        match r with
        | Err e => (Err (Io e), Some c, w)
        | Ok _ =>
            let q := MkRequest m u v h (http1_connection_keep_alive_lazy v h) in
            let c' := c <| buffered := drop consumed c.(buffered) |> in
            match classify_downstream_http1_fast_body_lazy h with
            | None => fallback c w
            | Some BodyEmpty => (Ok (Request q None), Some c', w)
            | Some (BodyFixed n) =>
                (Ok (Request q (Some (from_connection c' (Fixed n) MAX_DOWNSTREAM_HTTP1_FAST_BODY_BYTES))),
                 None, w)
            | Some BodyChunked =>
                (Ok (Request q (Some (from_connection c' (Chunked NeedSize)
                   MAX_DOWNSTREAM_HTTP1_FAST_BODY_BYTES))), None, w)
            end
        end
  end.

(** The loop ends with the peer's reads. *)
Fixpoint read_next_loop (buf : list Z) (inc : list read) (w : W) : run :=
  let c := MkConn buf inc in
  if MAX_HTTP1_HEAD_BYTES <? len buf then fallback c w
  else
    match parse_request buf with
    | Complete consumed p => accept consumed p c w
    | ParseError => fallback c w
    | Partial =>
        match inc with
        | [] | Data [] :: _ =>
            let c := MkConn buf (tail inc) in
            if bool_decide (buf = []) then (Ok EndOfStream, Some c, w) else fallback c w
        | Data l :: inc => read_next_loop (buf ++ l) inc w
        | IoError e :: inc => (Err (Io e), Some (MkConn buf inc), w)
        end
    end.

Definition read_next_fast_http1_request (c : Connection) (w : W) : run :=
  read_next_loop c.(buffered) c.(incoming) w.

(** The bytes a body of the announced kind takes on the wire. *)
Definition request_wire (k : FastHttp1StreamingBodyKind) (data wire : list Z) : Prop :=
  match k with
  | Fixed n => wire = data /\ len data = n
  | Chunked NeedSize => chunked_wire data wire /\ len data <= MAX_DOWNSTREAM_HTTP1_FAST_BODY_BYTES
  | _ => False
  end.

Context `{HPL : !HttpParserLaws U W}.

(** [h] is what the parser takes for a head at the front of [l]. *)
Definition head_of (l h : list Z) : Prop :=
  exists buf more n p, l = buf ++ more /\ parse_request buf = Complete n p /\ h = take n buf.

(** What a run leaves of the connection [c] it read from. *)
Definition run_spec (c : Connection) (r : run) : Prop :=
  match r with
  | (Ok (Request q None), kept, _) =>
      exists h c', head_of (total c) h /\ total c = h ++ total c' /\ kept = Some c' /\ healthy (incoming c')
  | (Ok (Request q (Some s)), kept, _) =>
      kept = None /\ exists h c' k, head_of (total c) h /\ total c = h ++ total c' /\ healthy (incoming c')
        /\ s = from_connection c' k MAX_DOWNSTREAM_HTTP1_FAST_BODY_BYTES
  | (Ok EndOfStream, kept, _) => total c = []
  | (Ok FallbackToHyper, kept, _) => exists c', kept = Some c' /\ total c' = total c
  | (Err _, kept, _) => exists c', kept = Some c' /\ total c' = total c
  end.

Lemma accept_spec consumed p c w :
  parse_request (buffered c) = Complete consumed p -> healthy (incoming c) -> run_spec c (accept consumed p c w).
Proof.
  intros Hp Hh. pose proof (parse_consumed _ _ _ Hp) as Hn. unfold accept, fallback.
  destruct (request_line p) as [[[m v] u]|]; [|cbn; by eauto].
  destruct (negb _); [cbn; by eauto|].
  match goal with |- context[let '(_, _) := ?x in _] => destruct x as [[[]|e] w'] end; [|cbn; by eauto].
  assert (Ht : total c = take consumed (buffered c) ++ total (c <| buffered := drop consumed (buffered c) |>)).
  { unfold total. cbn. by rewrite app_assoc, take_drop. }
  assert (Hhead : head_of (total c) (take consumed (buffered c))) by (by exists (buffered c), (concat (payload <$> incoming c)), consumed, p).
  destruct (classify_downstream_http1_fast_body_lazy _) as [[|n|]|]; cbn; [..|by eauto].
  - eexists _, _. split; [exact Hhead|]. by split; [exact Ht|].
  - split; [done|]. eexists _, _, _. split; [exact Hhead|]. by split; [exact Ht|].
  - split; [done|]. eexists _, _, _. split; [exact Hhead|]. by split; [exact Ht|].
Qed.

Lemma read_next_spec c w : healthy (incoming c) -> run_spec c (read_next_fast_http1_request c w).
Proof.
  unfold read_next_fast_http1_request. destruct c as [buf inc]. cbn [buffered incoming].
  revert buf. induction inc as [|r inc IH]; intros buf Hh; cbn [read_next_loop].
  - unfold fallback. destruct (_ <? _); [cbn; by eauto|].
    destruct (parse_request buf) as [n p| |] eqn:Hp; [|case_bool_decide; cbn; subst; by eauto|cbn; by eauto].
    by apply accept_spec.
  - unfold fallback. destruct (_ <? _); [cbn; by eauto|].
    destruct (parse_request buf) as [n p| |] eqn:Hp; [by apply accept_spec| |cbn; by eauto].
    apply Forall_cons in Hh as [(b & l & ->) Hh]. specialize (IH (buf ++ b :: l) Hh).
    assert (Ht : total (MkConn (buf ++ b :: l) inc) = total (MkConn buf (Data (b :: l) :: inc)))
      by (unfold total; cbn; by rewrite <-app_assoc).
    destruct (read_next_loop (buf ++ b :: l) inc w) as [[[[| |q [s|]]|e] kept] w'];
      unfold run_spec in *; by rewrite Ht in IH.
Qed.

(** A downstream connection stays in step: from a peer that only sends
    data, the head reader either falls back (or meets the end of the stream)
    without losing a byte, or takes a head off the front and leases the rest
    to the body; and when what follows the head is a well-formed body of the
    announced kind, the body reader is handed exactly its data and finishing
    the lease leaves exactly the bytes after the body for the next request. *)
Theorem fast_path_in_step c w :
  healthy (incoming c) ->
  match read_next_fast_http1_request c w with
  | (Ok (Request q None), kept, _) =>
      exists h c', head_of (total c) h /\ total c = h ++ total c' /\ kept = Some c'
  | (Ok (Request q (Some s)), kept, _) =>
      kept = None /\ exists h tail, head_of (total c) h /\ total c = h ++ tail /\
      forall data wire rest, tail = wire ++ rest -> request_wire s.(kind) data wire ->
        exists s' c', read_all s = Some (data, Ok tt, s') /\ finish s = Some (Ok c') /\ holds c' rest
  | (Ok EndOfStream, _, _) => total c = []
  | (Ok FallbackToHyper, kept, _) | (Err _, kept, _) => exists c', kept = Some c' /\ total c' = total c
  end.
Proof.
  intros Hh. pose proof (read_next_spec c w Hh) as Hs.
  destruct (read_next_fast_http1_request c w) as [[[[| |q [s|]]|e] kept] w']; cbn in Hs; try done.
  - destruct Hs as (-> & h & c' & k & Hhd & Ht & Hh' & ->). split; [done|]. exists h, (total c').
    split; [done|]. split; [done|].
    intros data wire rest Htail Hw. cbn [kind from_connection] in Hw.
    destruct (request_body_in_step c' rest) as [Hfix Hchunk].
    destruct k as [n|[]]; try done.
    + destruct Hw as [-> <-]. by apply Hfix; [|split].
    + destruct Hw as [Hw Hle]. by eapply Hchunk; [|exact Hle|split].
  - destruct Hs as (h & c' & Hhd & Ht & -> & _). by exists h, c'.
Qed.
End read.

(** ** Concrete requests *)

(** A parser for the witnesses: a head is one line, the value of its only
    header, a content length. *)
#[local] Instance line_parser : HttpParser unit (list (list Z)) := {
  parse_request l :=
    match find_crlf l with
    | Some i => Complete (i + 2) (MkParsed (Some "POST") (Some 1) (Some "/")
                  [(bytes_of_string "Content-Length", take i l)])
    | None => Partial
    end;
  method_from_bytes m := Some m;
  parse_uri _ := Some tt;
  write_all l w := (Ok tt, w ++ [l]);
}.
#[local] Instance line_parser_laws : HttpParserLaws unit (list (list Z)).
Proof.
  intros l n r. cbn. destruct (find_crlf l) as [i|] eqn:Hi; [|done]. intros [= <- _].
  apply find_crlf_some, (f_equal length) in Hi. rewrite !length_app, length_take, length_drop in Hi.
  cbn [length CRLF] in Hi. lia.
Defined.

(** [3\r\nabcG] in two reads. *)
Lemma fast_path_in_step_witness :
  let c := MkConn [51] [Data [13; 10; 97]; Data [98; 99; 71]] in
  exists s s' c', (read_next_fast_http1_request (M:=list (string * list Z)) (HC:=any_crate) c []).1.1
    = Ok (Request (MkRequest "POST" tt HTTP_11 (from_raw_header_bytes [(bytes_of_string "Content-Length", [51])]) true)
        (Some s))
    /\ read_all s = Some ([97; 98; 99], Ok tt, s') /\ finish s = Some (Ok c') /\ holds c' [71].
Proof.
  intros c.
  assert (Hh : healthy (incoming c)) by (repeat constructor; by eexists _, _).
  pose proof (fast_path_in_step (M:=list (string * list Z)) (HC:=any_crate) c [] Hh) as H.
  set (r := read_next_fast_http1_request c []) in *.
  assert (Hr : r = (Ok (Request (MkRequest "POST" tt HTTP_11
      (from_raw_header_bytes [(bytes_of_string "Content-Length", [51])]) true)
      (Some (from_connection (MkConn [97] [Data [98; 99; 71]]) (Fixed 3) MAX_DOWNSTREAM_HTTP1_FAST_BODY_BYTES))),
      None, [])) by (vm_compute; reflexivity).
  rewrite Hr in H |- *. destruct H as (_ & h & tl & Hhead & Ht & H).
  assert (Htl : tl = [97; 98; 99; 71]).
  { destruct Hhead as (buf & more & n & p & Hbuf & Hp & ->). cbn in Hp. unfold parse_request in Hp.
    destruct (find_crlf buf) as [i|] eqn:Hi; [|discriminate]. injection Hp as <- _.
    pose proof (find_crlf_some _ _ Hi) as Hl.
    apply (find_crlf_app _ _ more) in Hi. rewrite <-Hbuf in Hi. vm_compute in Hi. injection Hi as <-.
    destruct buf as [|x1 [|x2 [|x3 buf]]]; try (apply (f_equal length) in Hl; discriminate).
    cbn in Hbuf. injection Hbuf as <- <- <- Hbuf. cbn in Ht. by injection Ht as <-. }
  destruct (H [97; 98; 99] [97; 98; 99] [71]) as (s' & c' & H1 & H2 & H3); [exact Htl|split; reflexivity|].
  eexists _, s', c'. split; [reflexivity|]. done.
Defined.

Lemma classify_conforms_witness :
  let r := [MkRaw (bytes_of_string "Transfer-Encoding") (bytes_of_string "Chunked")] in
  let l := MkLazy (M:=list (string * list Z)) (Some r) None in
  classify_downstream_http1_fast_body_lazy (HC:=any_crate) l = Some BodyChunked
  /\ (classify_downstream_http1_fast_body_lazy (HC:=any_crate) l
      = classify_downstream_http1_fast_body (HC:=any_crate) (headers (HC:=any_crate) l).1
      \/ classify_downstream_http1_fast_body (HC:=any_crate) (headers (HC:=any_crate) l).1 = None).
Proof.
  intros r l. split; [by vm_compute|].
  destruct (classify_conforms (M:=list (string * list Z)) (HCL:=any_crate_laws) r) as [Hq|(Hq & _)].
  - apply Forall_singleton. split; [by vm_compute|]. split; [done|].
    cbn. repeat (apply Forall_cons; split; [right; split; by vm_compute|]). by apply Forall_nil.
  - by left.
  - by right.
Defined.

(** A request with two transfer codings is taken for a chunked one, and one
    whose content length is not a number for one without a body: the bytes
    after the head are then read as the next request. *)
Theorem codings_and_bad_length_accepted :
  let hdr name value := from_raw_header_bytes (M:=list (string * list Z)) [(bytes_of_string name, bytes_of_string value)] in
  classify_downstream_http1_fast_body_lazy (HC:=any_crate) (hdr "Transfer-Encoding" "gzip, chunked, br") = Some BodyChunked
  /\ classify_downstream_http1_fast_body (HC:=any_crate) (headers (HC:=any_crate) (hdr "Transfer-Encoding" "gzip, chunked, br")).1 = None
  /\ classify_downstream_http1_fast_body_lazy (HC:=any_crate) (hdr "Content-Length" "5, 5") = Some BodyEmpty.
Proof. cbn zeta. split_and!; by vm_compute. Qed.

End Http1FastPath.
