(* ===== verification/Http1Upstream.v ===== *)
(** Model of what [src/abi_impl/http/outbound_http1.rs] writes to an upstream
    and makes of its answer: the request head ([encode_request_headers],
    [serialize_request_head_parts_into]), the request body
    ([send_request_body]), the response head ([parse_response_head]) and the
    end of [forward_serialized_via_sender_pool], which leases the connection to
    the response body or gives it back to the pool. *)

From S2P Require Import Prelude Bytes TlsFlow Http1Text Http1Io HttpHeaders Http1SenderPool Http1ResponseBody.

Module Http1Upstream.
Import Http1Text Http1Io HttpHeaders Http1SenderPool Http1ResponseBody.

(** ** The request head *)

(** A header line: its name and its value. *)
Abbreviation entry := (list Z * list Z)%type.
Definition render (e : entry) : list Z := e.1 ++ [58; 32] ++ e.2 ++ CRLF.
Definition text (name value : string) : entry := (bytes_of_string name, bytes_of_string value).
Definition is_named (k : string) (e : entry) : bool := bytes_eq_ignore_ascii_case e.1 (bytes_of_string k).

Definition hop_by_hop_names : list string :=
  ["connection"; "keep-alive"; "proxy-authenticate"; "proxy-authorization"; "te"; "trailer";
   "transfer-encoding"; "upgrade"].
Definition is_hop_by_hop_header_name (name : list Z) : bool :=
  existsb (fun k => bytes_eq_ignore_ascii_case name (bytes_of_string k)) hop_by_hop_names.

Inductive OutboundHttp1RequestHeaders (M : Type) :=
| Parsed (headers : M)
| InheritedFiltered (headers : LazyHttpHeaders M) (host_header : option string)
| InheritedFilteredWithOverrides (headers : LazyHttpHeaders M) (host_header : option string) (overrides : M).
Arguments Parsed {M}. Arguments InheritedFiltered {M}. Arguments InheritedFilteredWithOverrides {M}.

Record head_flags := MkFlags {
  has_host : bool;
  has_content_length : bool;
  has_connection : bool;
  has_transfer_encoding : bool;
}.

Section head.
Context {M : Type} `{HM : HeaderMap M} `{HC : HttpCrate}.

Definition entries_of (l : list (string * list Z)) : list entry := (fun e => (bytes_of_string e.1, e.2)) <$> l.

(** Names handled apart, which are never copied from an inherited head. *)
Definition special (e : entry) : bool :=
  is_named "host" e || is_named "content-length" e || is_named "connection" e || is_named "transfer-encoding" e.
Definition inherited (l : list entry) : list entry :=
  filter (fun e => negb (special e) && negb (is_hop_by_hop_header_name e.1) = true) l.

Definition host_entry (host : option string) : list entry :=
  match host with Some h => [text "host" h] | None => [] end.

(** A [HeaderName] is compared as it is: it is in lower case. *)
Definition has_name (m : M) (k : string) : bool := existsb (fun e => bool_decide (e.1 = k)) (hm_iter m).

(** The header lines, and the flags [encode_request_headers] returns. *)
Definition encode_request_headers (h : OutboundHttp1RequestHeaders M) (authority : string)
    : list entry * head_flags :=
  let '(lines, flags) :=
    match h with
    | Parsed m =>
        (entries_of (hm_iter m),
         MkFlags (has_name m "host") (has_name m "content-length") (has_name m "connection")
           (has_name m "transfer-encoding"))
    | InheritedFiltered h host =>
        let l := entries_of (for_each_header h) in
        (inherited l ++ host_entry host,
         MkFlags (existsb (is_named "host") l || bool_decide (is_Some host)) false false false)
    | InheritedFilteredWithOverrides h host m =>
        let l := entries_of (for_each_header h) in
        let overridden := has_name m "host" in
        (filter (fun e => negb (contains_key m (string_of_bytes e.1)) = true) (inherited l)
           ++ entries_of (hm_iter m) ++ (if overridden then [] else host_entry host),
         MkFlags (overridden || existsb (is_named "host") l || bool_decide (is_Some host))
           (has_name m "content-length") (has_name m "connection") (has_name m "transfer-encoding"))
    end in
  (lines ++ (if flags.(has_host) then [] else [text "host" authority]), flags).

Definition framing (flags : head_flags) (body_content_length : option Z) : list entry * bool :=
  let use_chunked_body :=
    negb flags.(has_transfer_encoding) && negb flags.(has_content_length) && bool_decide (body_content_length = None) in
  let add_length := negb flags.(has_content_length) && negb flags.(has_transfer_encoding) in
  (match body_content_length with
   | Some n => if add_length then [text "content-length" (dec n)] else []
   | None => if use_chunked_body then [text "transfer-encoding" "chunked"] else []
   end, use_chunked_body).

(** The header lines of the head, and whether the body is sent in chunks. *)
Definition request_lines (h : OutboundHttp1RequestHeaders M) (authority : string)
    (body_content_length : option Z) : list entry * bool :=
  let '(lines, flags) := encode_request_headers h authority in
  let '(frame, use_chunked_body) := framing flags body_content_length in
  (lines ++ frame ++ (if flags.(has_connection) then [] else [text "connection" "keep-alive"]), use_chunked_body).

Definition serialize_request_head_parts_into (method request_path request_query : string)
    (h : OutboundHttp1RequestHeaders M) (authority : string) (body_content_length : option Z)
    : list Z * bool :=
  let path := if is_empty request_path then "/" else request_path in
  let query := if is_empty request_query then "" else "?" +:+ request_query in
  let '(lines, use_chunked_body) := request_lines h authority body_content_length in
  (bytes_of_string (method +:+ " " +:+ path +:+ query +:+ " HTTP/1.1") ++ CRLF
     ++ concat (render <$> lines) ++ CRLF, use_chunked_body).

(** ** What the head says *)

Definition is_framing (e : entry) : bool := is_named "content-length" e || is_named "transfer-encoding" e.

Lemma inherited_not l e k :
  e ∈ inherited l -> k ∈ ["host"; "content-length"; "connection"; "transfer-encoding"] \/ k ∈ hop_by_hop_names ->
  is_named k e = false.
Proof.
  unfold inherited. intros [Hp%andb_true_iff _]%list_elem_of_filter Hk.
  destruct Hp as [Hs Hh]. apply negb_true_iff in Hs, Hh. destruct Hk as [Hk|Hk].
  - unfold special in Hs. rewrite !orb_false_iff in Hs. destruct Hs as [[[? ?] ?] ?].
    repeat (apply elem_of_cons in Hk as [->|Hk]; [done|]). by apply elem_of_nil in Hk.
  - apply not_true_iff_false. intros Hn. apply not_true_iff_false in Hh. apply Hh.
    unfold is_hop_by_hop_header_name. apply existsb_exists. exists k. by rewrite <-list_elem_of_In.
Qed.

Lemma filter_none {A} (p : A -> bool) (l : list A) :
  (forall x, x ∈ l -> p x = false) -> filter (fun x => p x = true) l = [].
Proof.
  induction l as [|x l IH]; intros Hp; [done|].
  rewrite filter_cons_False by (rewrite (Hp x) by left; done). apply IH. intros y Hy. apply Hp. by right.
Qed.

(** The head forwarded for an inherited request frames its body
    unambiguously and drops what is hop-by-hop: whatever the downstream head
    held, the lines have exactly one framing header, the length of the body if
    it is known and the chunked coding otherwise, which is also how the body is
    then sent; exactly one [connection: keep-alive]; no inherited hop-by-hop
    header; and every other header except [host] is passed on, unchanged and in
    order. *)
Theorem inherited_head_framing h host authority length :
  let '(lines, use_chunked_body) := request_lines (InheritedFiltered h host) authority length in
  filter (fun e => is_framing e = true) lines
    = [match length with Some n => text "content-length" (dec n) | None => text "transfer-encoding" "chunked" end]
  /\ use_chunked_body = bool_decide (length = None)
  /\ filter (fun e => is_named "connection" e = true) lines = [text "connection" "keep-alive"]
  /\ (forall e k, e ∈ lines -> k ∈ hop_by_hop_names -> is_named k e = true ->
        e = text "connection" "keep-alive" \/ e = text "transfer-encoding" "chunked")
  /\ exists tl, lines = inherited (entries_of (for_each_header h)) ++ tl
       /\ Forall (fun e => is_named "host" e || is_framing e || is_named "connection" e = true) tl.
Proof.
  unfold request_lines, encode_request_headers, framing. cbn [has_content_length has_connection has_transfer_encoding has_host negb andb].
  set (l := entries_of (for_each_header h)).
  set (hosts := host_entry host ++ (if existsb (is_named "host") l || bool_decide (is_Some host) then [] else [text "host" authority])).
  set (frame := match length with
                | Some n => [text "content-length" (dec n)]
                | None => if bool_decide (length = None) then [text "transfer-encoding" "chunked"] else []
                end).
  rewrite <-!app_assoc, (app_assoc (host_entry host)). fold hosts.
  assert (Hhosts : Forall (fun e => exists v, e = text "host" v) hosts).
  { apply Forall_app. split; [destruct host; repeat constructor; by eexists|].
    case_match; repeat constructor; by eexists. }
  assert (Hframe : frame = [match length with Some n => text "content-length" (dec n) | None => text "transfer-encoding" "chunked" end])
    by (by destruct length).
  rewrite Hframe. rewrite Forall_forall in Hhosts.
  assert (Hin : forall k, k ∈ ["host"; "content-length"; "connection"; "transfer-encoding"] ->
    forall e, e ∈ inherited l -> is_named k e = false) by (intros k Hk e He; eapply inherited_not; eauto).
  split_and!.
  - rewrite !filter_app, (filter_none is_framing (inherited l)), (filter_none is_framing hosts).
    + by destruct length.
    + by intros e [v ->]%Hhosts.
    + intros e He. unfold is_framing. by rewrite !Hin by set_solver.
  - done.
  - rewrite !filter_app, (filter_none (is_named "connection") (inherited l)), (filter_none (is_named "connection") hosts).
    + by destruct length.
    + by intros e [v ->]%Hhosts.
    + intros e He. by rewrite Hin by set_solver.
  - intros e k He Hk Hn. rewrite !elem_of_app in He.
    destruct He as [He|[He|[He|He]]].
    + by rewrite (inherited_not l e k) in Hn by (done || by right).
    + apply Hhosts in He as [v ->]. exfalso. revert Hn. apply not_true_iff_false.
      repeat (apply elem_of_cons in Hk as [->|Hk]; [done|]). by apply elem_of_nil in Hk.
    + apply list_elem_of_singleton in He as ->. destruct length; [|by right].
      exfalso. revert Hn. apply not_true_iff_false.
      repeat (apply elem_of_cons in Hk as [->|Hk]; [done|]). by apply elem_of_nil in Hk.
    + apply list_elem_of_singleton in He as ->. by left.
  - eexists. split; [reflexivity|]. apply Forall_app. split.
    + apply Forall_forall. by intros e [v ->]%Hhosts.
    + by destruct length; repeat constructor.
Qed.
End head.

(** An inherited head with a [host] that is dropped, and none to put in its
    place, goes out without any. *)
Theorem inherited_host_lost :
  let h := from_raw_header_bytes (M:=list (string * list Z)) [(bytes_of_string "Host", bytes_of_string "a")] in
  (request_lines (InheritedFiltered h None) "b" (Some 0)).1
  = [text "content-length" "0"; text "connection" "keep-alive"].
Proof. by vm_compute. Qed.

(** ** The request body *)

(** The write half of a stream. *)
Class Sink (W : Type) := {
  write_all : list Z -> W -> result string unit * W;
  written : W -> list Z;
}.
(** A write that succeeds has written all its bytes, a failed one a prefix. *)
Class SinkLaws W `{Sink W} := {
  write_ok l w w' : write_all l w = (Ok tt, w') -> written w' = written w ++ l;
  write_err l e w w' : write_all l w = (Err e, w') -> exists n, written w' = written w ++ take n l;
}.

Inductive OutboundHttp1RequestBody :=
| Empty
| Bytes (body : list Z)
| Streaming (content_length : option Z) (stream : list (vm_result (list Z))).

Definition body_content_length (b : OutboundHttp1RequestBody) : option Z :=
  match b with
  | Empty => Some 0
  | Bytes body => Some (len body)
  | Streaming n _ => n
  end.
Definition is_retryable (b : OutboundHttp1RequestBody) : bool :=
  match b with Empty | Bytes _ => true | Streaming _ _ => false end.

Section send.
Context {W : Type} `{HS : Sink W}.

(** [write_all(..).await.map_err(..)?] *)
Definition write (what : string) (l : list Z) (w : W) (next : W -> outcome unit * W) : outcome unit * W :=
  let '(r, w) := write_all l w in
  match r with
  | Ok _ => next w
  | Err e => (fail (what +:+ e), w)
  end.

(** The chunk header; [None], an index out of the digit array, is a panic. *)
Definition write_chunk_header (n : Z) (w : W) (next : W -> outcome unit * W) : outcome unit * W :=
  match append_chunk_prefix [] n with
  | None => (Err Panic, w)
  | Some prefix => write "failed to write chunked plain http/1.1 request chunk header: " prefix w next
  end.

Definition send_chunk (use_chunked_body : bool) (chunk : list Z) (w : W) (next : W -> outcome unit * W)
    : outcome unit * W :=
  let data next w := write "failed to stream plain http/1.1 upstream request body: " chunk w next in
  if use_chunked_body then
    write_chunk_header (len chunk) w
      (data (fun w => write "failed to finalize chunked plain http/1.1 request chunk: " CRLF w next))
  else data next w.

Fixpoint send_stream (use_chunked_body : bool) (remaining : option Z) (stream : list (vm_result (list Z))) (w : W)
    : outcome unit * W :=
  match stream with
  | Err e :: _ => (Err (Fail e), w)
  | Ok chunk :: stream =>
      if bool_decide (chunk = []) then send_stream use_chunked_body remaining stream w
      else
        match remaining with
        | Some n =>
            if n <? len chunk
            then (fail "streamed outbound http/1.1 request body exceeded declared content-length", w)
            else send_chunk use_chunked_body chunk w (send_stream use_chunked_body (Some (n - len chunk)) stream)
        | None => send_chunk use_chunked_body chunk w (send_stream use_chunked_body None stream)
        end
  | [] =>
      if match remaining with Some n => negb (n =? 0) | None => false end
      then (fail "streamed outbound http/1.1 request body ended before declared content-length", w)
      else if use_chunked_body
      then write "failed to finalize chunked plain http/1.1 request body: " ([48] ++ CRLF ++ CRLF) w
             (fun w => (Ok tt, w))
      else (Ok tt, w)
  end.

Definition send_request_body (b : OutboundHttp1RequestBody) (use_chunked_body : bool) (w : W) : outcome unit * W :=
  match b with
  | Empty => (Ok tt, w)
  | Bytes body => write "failed to write plain http/1.1 upstream request body: " body w (fun w => (Ok tt, w))
  | Streaming n stream => send_stream use_chunked_body n stream w
  end.

(** What the stream yields before it fails. *)
Definition stream_data (stream : list (vm_result (list Z))) : list Z :=
  concat (omap (fun c => match c with Ok l => Some l | Err _ => None end) stream).

Context `{HSL : !SinkLaws W}.

Lemma write_Ok what l w next w' :
  write what l w next = (Ok tt, w') -> exists w1, written w1 = written w ++ l /\ next w1 = (Ok tt, w').
Proof.
  unfold write. destruct (write_all l w) as [[[]|e] w1] eqn:Hw; [|done].
  intros Hn. exists w1. by split; [apply write_ok|].
Qed.

Lemma last_chunk : chunked_wire [] ([48] ++ CRLF ++ CRLF).
Proof. apply (wire_end [48] []); [done|by vm_compute|constructor]. Qed.

Lemma send_stream_sound use_chunked_body n stream w w' :
  Forall (fun c => match c with Ok l => len l < U64_LIMIT | Err _ => True end) stream ->
  send_stream use_chunked_body n stream w = (Ok tt, w') ->
  match n with Some n => len (stream_data stream) = n | None => True end /\
  exists wire, written w' = written w ++ wire /\
    if use_chunked_body then chunked_wire (stream_data stream) wire else wire = stream_data stream.
Proof.
  intros Hlim. revert n w. induction Hlim as [|c stream Hc Hlim IH]; intros n w; cbn [send_stream].
  - destruct n as [n|]; [destruct (Z.eqb_spec n 0) as [->|]; [|done]|]; cbn.
    all: destruct use_chunked_body; [intros (w1 & Hw & [= <-])%write_Ok|intros [= <-]]; (split; [done|]).
    all: first [exists ([48] ++ CRLF ++ CRLF); split; [done|exact last_chunk]|exists []; by rewrite app_nil_r].
  - destruct c as [chunk|e]; [|done]. case_bool_decide as Hne; [subst chunk; apply IH|].
    assert (Hsend : forall m, send_chunk use_chunked_body chunk w (send_stream use_chunked_body m stream) = (Ok tt, w') ->
      match m with Some m => len (stream_data stream) = m | None => True end /\
      exists wire, written w' = written w ++ wire /\
        if use_chunked_body then chunked_wire (chunk ++ stream_data stream) wire
        else wire = chunk ++ stream_data stream).
    { intros m. unfold send_chunk. destruct use_chunked_body.
      - unfold write_chunk_header. pose proof (len_nonneg chunk).
        destruct (chunk_prefix_line (len chunk) [] ltac:(lia)) as (line & -> & Hl & _ & Hsz).
        intros (w1 & H1 & (w2 & H2 & (w3 & H3 & Hs)%write_Ok)%write_Ok)%write_Ok.
        destruct (IH _ _ Hs) as (Hm & wire & Hw & Hwire). split; [done|].
        exists (line ++ CRLF ++ chunk ++ CRLF ++ wire). split; [|by apply wire_chunk].
        rewrite Hw, H3, H2, H1, app_nil_l. by rewrite <-!app_assoc.
      - intros (w1 & H1 & Hs)%write_Ok. destruct (IH _ _ Hs) as (Hm & wire & Hw & ->). split; [done|].
        eexists. split; [|reflexivity]. by rewrite Hw, H1, <-app_assoc. }
    change (stream_data (Ok chunk :: stream)) with (chunk ++ stream_data stream).
    destruct n as [n|]; [destruct (Z.ltb_spec n (len chunk)); [done|]|]; intros (Hm & Hw)%Hsend; (split; [|done]).
    + len_lia.
    + done.
Qed.

Lemma send_body_sound b n use_chunked_body w w' :
  body_content_length b = n -> use_chunked_body = bool_decide (n = None) ->
  match b with
  | Streaming _ stream => Forall (fun c => match c with Ok l => len l < U64_LIMIT | Err _ => True end) stream
  | _ => True
  end ->
  send_request_body b use_chunked_body w = (Ok tt, w') ->
  let data := match b with Empty => [] | Bytes body => body | Streaming _ stream => stream_data stream end in
  exists wire, written w' = written w ++ wire /\
    match n with
    | Some n => wire = data /\ len data = n
    | None => chunked_wire data wire
    end.
Proof.
  intros <- -> Hlim. destruct b as [|body|[n|] stream]; cbn -[written].
  - intros [= <-]. exists []. by rewrite app_nil_r.
  - intros (w1 & Hw & [= <-])%write_Ok. by exists body.
  - intros (Hn & wire & Hw & ->)%send_stream_sound; [|done]. by eexists.
  - intros (_ & wire & Hw & Hwire)%send_stream_sound; [|done]. by exists wire.
Qed.

End send.

#[export] Instance bytes_sink : Sink (list Z) := { write_all l w := (Ok tt, w ++ l); written w := w }.
#[export] Instance bytes_sink_laws : SinkLaws (list Z).
Proof. split; [by intros l w w' [= <-]|done]. Defined.


(** ** The response head *)

Inductive Version := HTTP_10 | HTTP_11.

(** [httparse::Response] and [httparse::Status]. *)
Record HttparseResponse := MkResponse {
  code : option Z;
  minor : option Z;
  response_headers : list (list Z * list Z);
}.
Inductive response_status :=
| Complete (consumed : nat) (response : HttparseResponse)
| Partial
| ParseError (message : string).

(** [httparse::Response::parse] *)
Class ResponseParser := parse_response : list Z -> response_status.
Class ResponseParserLaws `{ResponseParser} :=
  response_consumed l n r : parse_response l = Complete n r -> (n <= length l)%nat.

Record ParsedResponseHead (M : Type) := MkHead {
  status : Z;
  headers : M;
  version : Version;
  content_length : option Z;
  keep_alive : bool;
  body_kind : option PlainHttp1BodyKind;
}.
Arguments MkHead {M}. Arguments status {M}. Arguments headers {M}. Arguments version {M}.
Arguments content_length {M}. Arguments keep_alive {M}. Arguments body_kind {M}.

Definition version_from_http11_minor (minor : option Z) : Version :=
  match minor with Some 0 => HTTP_10 | _ => HTTP_11 end.

Definition response_has_no_body (status : Z) (method : string) : bool :=
  bool_decide (method = "HEAD") || (100 <=? status) && (status <? 200) || (status =? 204) || (status =? 304).

Section response.
Context {M : Type} `{HM : HeaderMap M} `{HC : HttpCrate} `{HP : ResponseParser}.

Definition header_content_length (m : M) : option Z :=
  v ← get m "content-length"; s ← to_str v; match parse_u64 s with Ok n => Some n | Err _ => None end.

Definition response_keeps_alive (v : Version) (m : M) : bool :=
  let connection_close := map_contains_token m "connection" "close" in
  let connection_keep_alive := map_contains_token m "connection" "keep-alive" in
  match v with
  | HTTP_10 => connection_keep_alive && negb connection_close
  | HTTP_11 => negb connection_close
  end.

Definition transfer_is_chunked (m : M) : bool := map_contains_token m "transfer-encoding" "chunked".

Definition response_body_kind (status : Z) (method : string) (m : M) : option PlainHttp1BodyKind :=
  let content_length := header_content_length m in
  if response_has_no_body status method || bool_decide (content_length = Some 0) then None
  else if transfer_is_chunked m then Some (Chunked NeedSize)
  else match content_length with
       | Some n => Some (Fixed n)
       | None => Some CloseDelimited
       end.

Fixpoint append_headers (l : list (list Z * list Z)) (m : M) : vm_result M :=
  match l with
  | [] => Ok m
  | (name, value) :: l =>
      match header_name name with
      | Err e => Err (HostError ("invalid plain http/1.1 upstream header name `" +:+ string_of_bytes name +:+ "`: " +:+ e))
      | Ok n =>
          match header_value value with
          | Err e => Err (HostError ("invalid plain http/1.1 upstream header value for `" +:+ string_of_bytes name +:+ "`: " +:+ e))
          | Ok v => append_headers l (hm_append n v m)
          end
      end
  end.

Definition head_of_response (r : HttparseResponse) (method : string) : vm_result (ParsedResponseHead M) :=
  match r.(code) with
  | None => Err (HostError "plain http/1.1 upstream response missing status code")
  | Some status =>
      m ← append_headers r.(response_headers) hm_new;
      let v := version_from_http11_minor r.(minor) in
      Ok (MkHead status m v (header_content_length m) (response_keeps_alive v m) (response_body_kind status method m))
  end.

(** [parse_response_head]; the loop ends with the peer's reads. *)
Fixpoint parse_response_loop (method : string) (buf : list Z) (inc : list read)
    : vm_result (ParsedResponseHead M) * Connection :=
  match parse_response buf with
  | Complete consumed r =>
      match head_of_response r method with
      | Ok head => (Ok head, MkConn (drop consumed buf) inc)
      | Err e => (Err e, MkConn buf inc)
      end
  | ParseError e =>
      (Err (HostError ("failed to parse plain http/1.1 upstream response head: " +:+ e)), MkConn buf inc)
  | Partial =>
      match inc with
      | [] | Data [] :: _ =>
          (Err (HostError "plain http/1.1 upstream connection closed before response head completed"),
           MkConn buf (tail inc))
      | Data l :: inc => parse_response_loop method (buf ++ l) inc
      | IoError e :: inc =>
          (Err (HostError ("failed to read outbound http/1.1 upstream response: " +:+ e)), MkConn buf inc)
      end
  end.
Definition parse_response_head (method : string) (c : Connection) := parse_response_loop method c.(buffered) c.(incoming).

Inductive OutboundHttp1ForwardBody :=
| NoBody
| Raw (body : PlainHttp1ResponseBody M) (content_length : option Z).

(** The end of [forward_serialized_via_sender_pool]. *)
Definition forward_body (key : Http1PoolKey) (cap : Z) (head : ParsedResponseHead M) (c : Connection)
    (p : PlainHttp1SenderPool Connection) : OutboundHttp1ForwardBody * PlainHttp1SenderPool Connection :=
  match head.(body_kind) with
  | Some k =>
      let may_reuse := head.(keep_alive) && negb (match k with CloseDelimited => true | _ => false end) in
      (Raw (new (new_lease key cap may_reuse c) k) head.(content_length), p)
  | None =>
      (NoBody, if head.(keep_alive) then release_plain_http1_connection key cap c p else p)
  end.

(** The answer to a request, from its first byte to the pool: [None] is out of
    fuel. *)
Definition exchange (method : string) (key : Http1PoolKey) (cap : Z) (c : Connection)
    (p : PlainHttp1SenderPool Connection)
    : option (vm_result (ParsedResponseHead M * list Z) * PlainHttp1SenderPool Connection) :=
  let '(r, c) := parse_response_head method c in
  match r with
  | Err e => Some (Err e, p)
  | Ok head =>
      match forward_body key cap head c p with
      | (NoBody, p) => Some (Ok (head, []), p)
      | (Raw b _, p) =>
          '(data, r, s) ← read_all (MkState b p);
          Some (match r with Ok _ => Ok (head, data) | Err e => Err e end, pool s)
      end
  end.

(** The rule of RFC 9112, section 6.3, for a response to a request other than
    [CONNECT]. *)
Definition rfc_body_kind (status : Z) (method : string) (m : M) : option PlainHttp1BodyKind :=
  if response_has_no_body status method then None
  else if transfer_is_chunked m then Some (Chunked NeedSize)
  else match header_content_length m with
       | Some n => Some (Fixed n)
       | None => Some CloseDelimited
       end.

Context `{HPL : !ResponseParserLaws}.

Lemma parse_response_sound method c head c' :
  parse_response_head method c = (Ok head, c') ->
  exists h buf more r, total c = h ++ total c' /\ total c = buf ++ more
    /\ parse_response buf = Complete (length h) r /\ head_of_response r method = Ok head.
Proof.
  unfold parse_response_head, total. destruct c as [buf inc]. cbn [buffered incoming].
  revert buf. induction inc as [|x inc IH]; intros buf; cbn [parse_response_loop];
    destruct (parse_response buf) as [n r| |] eqn:Hp; try done.
  1, 2: destruct (head_of_response r method) as [hd|] eqn:Hhd; [|done]; intros [= <- <-];
    pose proof (response_consumed _ _ _ Hp); exists (take n buf), buf; cbn [buffered incoming];
    eexists _, r; rewrite app_assoc, take_drop, length_take, Nat.min_l by lia; done.
  destruct x as [[|b l]|e]; [done| |done]. intros Hr. apply IH in Hr. cbn [fmap list_fmap concat payload].
  by rewrite <-app_assoc in Hr.
Qed.

Lemma response_kind_open r method head :
  head_of_response r method = Ok head -> match body_kind head with Some k => open_kind k | None => True end.
Proof.
  unfold head_of_response. destruct (code r) as [st|]; [|done]. intros (m & _ & [= <-])%bind_Ok. cbn.
  unfold response_body_kind. destruct (_ || _); [done|]. destruct (transfer_is_chunked m); [done|].
  destruct (header_content_length m) as [n|] eqn:Hn; [|done]. cbn.
  unfold header_content_length in Hn. destruct (get m "content-length") as [v|]; [|done]. cbn in Hn.
  destruct (to_str v) as [t|]; [|done]. cbn in Hn. destruct (parse_u64 t) as [k|] eqn:Hk; [|done].
  injection Hn as <-. by apply from_str_radix_bounds in Hk as [? _].
Qed.

(** C2. An exchange with an upstream terminates and keeps the pool in step:
    whatever the peer sends, if the exchange fails the pool is untouched; if it
    succeeds the bytes consumed are a head the parser takes and, when the head
    announces a body, exactly one well-formed body of that kind whose data is
    what the caller got; and the connection, with exactly the bytes after
    them, is put in the pool only if the head keeps it alive and the body is
    not delimited by the close. *)
Theorem exchange_in_step method key cap c p :
  exists r p', exchange method key cap c p = Some (r, p') /\
  match r with
  | Err _ => p' = p
  | Ok (head, data) => exists h wire c', total c = h ++ wire ++ total c'
      /\ (exists buf more hr, total c = buf ++ more /\ parse_response buf = Complete (length h) hr
          /\ head_of_response hr method = Ok head)
      /\ match body_kind head with
         | Some k => body_wire k data wire
             /\ p' = (if keep_alive head && negb (match k with CloseDelimited => true | _ => false end)
                      then (pool_put key cap c' p).2 else p)
         | None => data = [] /\ wire = [] /\ p' = (if keep_alive head then (pool_put key cap c' p).2 else p)
         end
  end.
Proof.
  unfold exchange. destruct (parse_response_head method c) as [[head|e] c1] eqn:Hp; [|by eexists _, _].
  destruct (parse_response_sound _ _ _ _ Hp) as (h & buf & more & hr & Ht & Hbuf & Hpr & Hhd).
  pose proof (response_kind_open _ _ _ Hhd) as Hk. unfold forward_body.
  destruct (body_kind head) as [k|] eqn:Hkind.
  - destruct (response_body_sound key cap
      (keep_alive head && negb (match k with CloseDelimited => true | _ => false end)) false p c1 k None Hk)
      as (data & r & s' & Hr & Hs).
    unfold new, new_lease. rewrite Hr. cbn. eexists _, _. split; [reflexivity|].
    destruct r as [[]|]; [|done]. destruct Hs as (wire & c' & Ht' & Hw & _ & Hpool).
    exists h, wire, c'. rewrite Hkind. split_and!.
    + by rewrite Ht, Ht'.
    + by exists buf, more, hr.
    + done.
    + by rewrite Hpool, andb_true_r.
  - eexists _, _. split; [reflexivity|]. cbn. exists h, [], c1. rewrite Hkind. split_and!; [done| |done..].
    by exists buf, more, hr.
Qed.

(** The framing of a response is the one of RFC 9112: no body for the
    responses that cannot have one, chunks before a length, a length before the
    close, but for one case, a chunked response that also says
    [content-length: 0], which is taken for one without a body. *)
Theorem response_framing_rfc status method m :
  (response_body_kind status method m = rfc_body_kind status method m
   \/ response_body_kind status method m = None /\ rfc_body_kind status method m = Some (Fixed 0))
  <-> ~ (response_has_no_body status method = false /\ transfer_is_chunked m = true
         /\ header_content_length m = Some 0).
Proof.
  unfold response_body_kind, rfc_body_kind. destruct (response_has_no_body status method); cbn.
  { split; [by intros _ [? _]|by left]. }
  case_bool_decide as Hz.
  - rewrite Hz. destruct (transfer_is_chunked m).
    + split; [intros [?|[_ ?]]; done|]. intros Hn. by destruct Hn.
    + split; [by intros _ (_ & ? & _)|]. intros _. by right.
  - split; [by intros _ (_ & _ & ?)|by left].
Qed.
End response.

(** ** Forwarding *)

(** [SerializedOutboundHttp1Request], with the head [make_request] left in the
    connection's scratch buffer. *)
Record SerializedOutboundHttp1Request := MkSerialized {
  request_head : list Z;
  request_method : string;
  request_body : OutboundHttp1RequestBody;
  request_chunked : bool;
}.

Section forward.
(** [impl Display for VmError] of the vm crate. *)
Context (display : VmError -> string).
Context {M W : Type} `{HM : HeaderMap M} `{HC : HttpCrate} `{HP : ResponseParser} `{HS : Sink W}.

Definition send_serialized_request_and_parse_response (q : SerializedOutboundHttp1Request) (c : Connection) (w : W)
    : outcome (ParsedResponseHead M) * Connection * W :=
  let '(r, w) := write "failed to write plain http/1.1 upstream request: " q.(request_head) w
                   (send_request_body q.(request_body) q.(request_chunked)) in
  match r with
  | Err e => (Err e, c, w)
  | Ok _ =>
      let '(r, c) := parse_response_head q.(request_method) c in
      (match r with Ok h => Ok h | Err e => Err (Fail e) end, c, w)
  end.

(** [acquire_plain_http1_connection]: a pooled connection, or what dialling
    gives. *)
Definition acquire_plain_http1_connection (key : Http1PoolKey) (p : PlainHttp1SenderPool Connection)
    (dialled : vm_result Connection) : vm_result Connection * PlainHttp1SenderPool Connection :=
  match pool_take key p with
  | (Some c, p) => (Ok c, p)
  | (None, p) => (dialled, p)
  end.

Definition failed_while_evaluating (target : string) (e : fault) : fault :=
  match e with
  | Fail e =>
      Fail (HostError ("outbound request to " +:+ target +:+ " failed while evaluating host call: " +:+ display e))
  | Panic => Panic
  end.

(** [forward_serialized_via_sender_pool]; [make_request n] is what the [n]th
    call of the callback gives, [d1] and [d2] what dialling gives, and [w1] and
    [w2] the write halves of the connections of the two attempts, which come
    back with the result. *)
Definition forward_serialized_via_sender_pool (key : Http1PoolKey) (cap : Z) (target : string)
    (make_request : nat -> vm_result SerializedOutboundHttp1Request)
    (d1 d2 : vm_result Connection) (w1 w2 : W) (p : PlainHttp1SenderPool Connection)
    : outcome (ParsedResponseHead M * OutboundHttp1ForwardBody) * PlainHttp1SenderPool Connection * W * W :=
  let finish head c p := let '(b, p) := forward_body key cap head c p in (Ok (head, b), p) in
  let '(r, p) := acquire_plain_http1_connection key p d1 in
  match r with
  | Err e => (Err (Fail e), p, w1, w2)
  | Ok c =>
      match make_request 0%nat with
      | Err e => (Err (Fail e), p, w1, w2)
      | Ok q =>
          let '(r, c, w1) := send_serialized_request_and_parse_response q c w1 in
          match r with
          | Ok head => let '(r, p) := finish head c p in (r, p, w1, w2)
          | Err Panic => (Err Panic, p, w1, w2)
          | Err (Fail e) =>
              if is_retryable q.(request_body) then
                let '(r, p) := acquire_plain_http1_connection key p d2 in
                match r with
                | Err e => (Err (Fail e), p, w1, w2)
                | Ok c =>
                    match make_request 1%nat with
                    | Err e => (Err (Fail e), p, w1, w2)
                    | Ok q =>
                        let '(r, c, w2) := send_serialized_request_and_parse_response q c w2 in
                        match r with
                        | Ok head => let '(r, p) := finish head c p in (r, p, w1, w2)
                        | Err e => (Err (failed_while_evaluating target e), p, w1, w2)
                        end
                    end
                end
              else (Err (failed_while_evaluating target (Fail e)), p, w1, w2)
          end
      end
  end.

(** A pool that has lost connections of [key], and nothing else. *)
Definition shrunk (key : Http1PoolKey) (p p' : PlainHttp1SenderPool Connection) : Prop :=
  pool_ok p' /\ (exists n, stack p' key = drop n (stack p key)) /\ forall k, k ≠ key -> stack p' k = stack p k.

Lemma acquire_shrunk key p d :
  pool_ok p -> shrunk key p (acquire_plain_http1_connection key p d).2.
Proof.
  intros Hok. destruct (take_spec key p Hok) as (_ & Hok' & Hs).
  assert (Hp : (acquire_plain_http1_connection key p d).2 = (pool_take key p).2).
  { unfold acquire_plain_http1_connection. by destruct (pool_take key p) as [[c|] p']. }
  rewrite Hp. split; [done|]. split.
  - exists 1%nat. rewrite Hs, bool_decide_true by done. by destruct (stack p key).
  - intros k Hk. by rewrite Hs, bool_decide_false.
Qed.

Lemma shrunk_trans key p1 p2 p3 : shrunk key p1 p2 -> shrunk key p2 p3 -> shrunk key p1 p3.
Proof.
  intros (_ & [n Hn] & H1) (Hok & [m Hm] & H2). split; [done|]. split.
  - exists (n + m)%nat. by rewrite Hm, Hn, drop_drop.
  - intros k Hk. by rewrite H2, H1.
Qed.

End forward.

(** ** Concrete exchanges *)

(** A parser for the witnesses: a head is one line, the status, and a body of
    two bytes follows a status that can have one. *)
#[local] Instance line_parser : ResponseParser := fun l =>
  match find_crlf l with
  | Some i =>
      let code := match parse_u64 (string_of_bytes (take i l)) with Ok n => Some n | Err _ => None end in
      Complete (i + 2) (MkResponse code (Some 1) [(bytes_of_string "Content-Length", [50])])
  | None => Partial
  end.
#[local] Instance line_parser_laws : ResponseParserLaws.
Proof.
  intros l n r. unfold parse_response, line_parser. destruct (find_crlf l) as [i|] eqn:Hi; [|done]. intros [= <- _].
  apply find_crlf_some, (f_equal length) in Hi. rewrite !length_app, length_take, length_drop in Hi.
  cbn [length CRLF] in Hi. lia.
Defined.

Abbreviation hmap := (list (string * list Z)).

Lemma exchange_in_step_witness :
  let c := MkConn [] [Data [50; 48]; Data [48; 13; 10; 104; 105]; Data [72]] in
  exists head p', exchange (M:=hmap) (HC:=any_crate) "GET" (Plain "k") 4 c new_pool = Some (Ok (head, [104; 105]), p')
    /\ status head = 200 /\ p' = (pool_put (Plain "k") 4 (MkConn [] [Data [72]]) new_pool).2
    /\ exists h wire c', total c = h ++ wire ++ total c' /\ body_wire (Fixed 2) [104; 105] wire.
Proof.
  intros c. destruct (exchange_in_step (M:=hmap) (HC:=any_crate) "GET" (Plain "k") 4 c new_pool) as (r & p' & Hx & Hr).
  pose proof Hx as Hv. vm_compute in Hv. injection Hv as <- <-. eexists _, _. split; [exact Hx|].
  split; [reflexivity|]. split; [reflexivity|].
  destruct Hr as (h & wire & c' & Ht & _ & Hw & _). exists h, wire, c'. split; [exact Ht|exact Hw].
Defined.


(** An interim response is taken for the final one: it has no body, so the
    connection goes back to the pool with the final response still to come,
    which the next request on the connection is then answered with. *)
Theorem interim_response_pooled :
  let c := MkConn [] [Data [49; 48; 48; 13; 10]; Data [50; 48; 48; 13; 10; 104; 105]] in
  exists head c', exchange (M:=hmap) (HC:=any_crate) "GET" (Plain "k") 4 c new_pool
      = Some (Ok (head, []), (pool_put (Plain "k") 4 c' new_pool).2)
    /\ status head = 100 /\ total c' = [50; 48; 48; 13; 10; 104; 105].
Proof.
  intros c. eexists _, (MkConn [] [Data [50; 48; 48; 13; 10; 104; 105]]).
  split; [vm_compute; reflexivity|done].
Qed.

End Http1Upstream.
