(* ===== verification/HostRuntime.v ===== *)
(** Model of the host runtime of [src/abi_impl/mod.rs]: the table of pending
    asynchronous host operations ([VmAsyncOps]), the fixed window rate limiter
    ([RateLimiterStore]) and the thread's current host context
    ([EdgeHostContextGuard]).  The width of an operation id and the values of a
    call are the vm crate's; channels, threads and executors are outside the
    program: a pending operation is told what its channel or future does. *)

From S2P Require Import Prelude Bytes ShardedStore.

Module VmAsyncOps.
Section ops.
Context {V : Type}.
(** The number of values of [HostOpId]. *)
Context (op_ids : Z).

Abbreviation AsyncOpResult := (vm_result V).

(** A oneshot receiver: nothing sent yet, a result sent, or the sender gone. *)
Inductive receiver :=
| Waiting
| Sent (r : AsyncOpResult)
| Dropped.

(** A future, as the polls it takes. *)
Inductive future :=
| Now (r : AsyncOpResult)
| Later (f : future).

Inductive PendingOp :=
| Receiver (r : receiver)
| Future (f : future).

Record VmAsyncOps := MkOps {
  pending : gmap Z PendingOp;
  next_op_id : Z;
  runtime_handle : bool;
}.
#[export] Instance eta_ops : Eta VmAsyncOps := fun s => MkOps s.(pending) s.(next_op_id) s.(runtime_handle).

Definition new (try_current : bool) : VmAsyncOps := MkOps ∅ 1 try_current.

(** [wrapping_add(1).max(1)] *)
Definition next_id (n : Z) : Z := Z.max ((n + 1) mod op_ids) 1.

Fixpoint allocate_loop (attempts : nat) (s : VmAsyncOps) : vm_result Z * VmAsyncOps :=
  match attempts with
  | O => (Err (HostError "exhausted edge async host op ids"), s)
  | S attempts =>
      let op_id := s.(next_op_id) in
      let s := s <| next_op_id := next_id op_id |> in
      match s.(pending) !! op_id with
      | None => (Ok op_id, s)
      | Some _ => allocate_loop attempts s
      end
  end.
Definition ATTEMPTS : nat := Z.to_nat U16_MAX.
Definition allocate_op_id (s : VmAsyncOps) : vm_result Z * VmAsyncOps := allocate_loop ATTEMPTS s.

Definition insert_pending (op_id : Z) (op : PendingOp) (s : VmAsyncOps) : vm_result unit * VmAsyncOps :=
  match s.(pending) !! op_id with
  | Some _ => (Err (HostError ("duplicate async host op id " +:+ dec op_id)), s)
  | None => (Ok tt, s <| pending := <[op_id := op]> s.(pending) |>)
  end.

(** [?] on a step of the state. *)
Definition then_ {A B} (x : vm_result A * VmAsyncOps) (f : A -> VmAsyncOps -> vm_result B * VmAsyncOps)
    : vm_result B * VmAsyncOps :=
  let '(r, s) := x in match r with Ok a => f a s | Err e => (Err e, s) end.

(** The receiver is in the table when the result is sent, so sending does not
    fail. *)
Definition schedule_ready (r : AsyncOpResult) (s : VmAsyncOps) : vm_result Z * VmAsyncOps :=
  then_ (allocate_op_id s) (fun op_id s =>
    then_ (insert_pending op_id (Receiver (Sent r)) s) (fun _ s => (Ok op_id, s))).

(** [spawned] is what starting the thread said, where there is no runtime. *)
Definition schedule_future (try_current : bool) (spawned : result string unit) (f : future) (s : VmAsyncOps)
    : vm_result Z * VmAsyncOps :=
  then_ (allocate_op_id s) (fun op_id s =>
    let s := s <| runtime_handle := s.(runtime_handle) || try_current |> in
    if s.(runtime_handle) then
      then_ (insert_pending op_id (Future f) s) (fun _ s => (Ok op_id, s))
    else
      match spawned with
      | Err e => (Err (HostError ("failed to spawn async host op thread: " +:+ e)), s)
      | Ok _ => then_ (insert_pending op_id (Receiver Waiting) s) (fun _ s => (Ok op_id, s))
      end).

(** The thread of an operation ends: it sends its result, or is gone. *)
Definition thread_done (op_id : Z) (r : option AsyncOpResult) (s : VmAsyncOps) : VmAsyncOps :=
  s <| pending := alter (fun op => match op with
                                   | Receiver Waiting => Receiver match r with Some r => Sent r | None => Dropped end
                                   | op => op
                                   end) op_id s.(pending) |>.

Inductive poll := Pending | Ready (r : AsyncOpResult).

Definition poll_op (op_id : Z) (s : VmAsyncOps) : poll * VmAsyncOps :=
  match s.(pending) !! op_id with
  | None => (Ready (Err (HostError ("unknown async host op " +:+ dec op_id))), s)
  | Some op =>
      let done r := (Ready r, s <| pending := delete op_id s.(pending) |>) in
      match op with
      | Receiver Waiting => (Pending, s)
      | Receiver (Sent r) => done r
      | Receiver Dropped => done (Err (HostError ("async host op " +:+ dec op_id +:+ " was cancelled")))
      | Future (Now r) => done r
      | Future (Later f) => (Pending, s <| pending := <[op_id := Future f]> s.(pending) |>)
      end
  end.

(** ** Properties *)

Definition ops_ok (s : VmAsyncOps) : Prop := 1 <= s.(next_op_id) < op_ids.

Context (enough_ids : 65536 <= op_ids).

Lemma next_id_range n : 1 <= n < op_ids -> 1 <= next_id n < op_ids.
Proof. intros Hn. unfold next_id. pose proof (Z.mod_pos_bound (n + 1) op_ids). lia. Qed.

(** The ids the loop tries, starting at [n]. *)
Definition nth_id (n : Z) (i : nat) : Z := 1 + (n - 1 + Z.of_nat i) mod (op_ids - 1).

Lemma nth_id_0 n : 1 <= n < op_ids -> nth_id n 0 = n.
Proof. intros Hn. unfold nth_id. rewrite Z.mod_small; lia. Qed.

Lemma nth_id_S n i : 1 <= n < op_ids -> nth_id (next_id n) i = nth_id n (S i).
Proof.
  intros Hn. unfold nth_id, next_id. f_equal.
  destruct (decide (n + 1 = op_ids)) as [Heq|Hne].
  - rewrite Heq, Z.mod_same by lia. replace (Z.max 0 1) with 1 by lia.
    replace (n - 1 + Z.of_nat (S i)) with (Z.of_nat i + 1 * (op_ids - 1)) by lia.
    rewrite Z.mod_add by lia. by f_equal.
  - rewrite (Z.mod_small (n + 1)) by lia. f_equal. lia.
Qed.

Lemma nth_id_inj n i j :
  Z.of_nat i < op_ids - 1 -> Z.of_nat j < op_ids - 1 -> nth_id n i = nth_id n j -> i = j.
Proof.
  unfold nth_id. intros Hi Hj Heq.
  assert (Hd : (Z.of_nat i - Z.of_nat j) mod (op_ids - 1) = 0).
  { replace (Z.of_nat i - Z.of_nat j) with ((n - 1 + Z.of_nat i) - (n - 1 + Z.of_nat j)) by lia.
    rewrite Zminus_mod. replace ((n - 1 + Z.of_nat i) mod (op_ids - 1)) with ((n - 1 + Z.of_nat j) mod (op_ids - 1)) by lia.
    by rewrite Z.sub_diag, Z.mod_0_l by lia. }
  apply Z.mod_divide in Hd as [q Hq]; [|lia]. assert (q = 0) by nia. lia.
Qed.

Lemma allocate_loop_spec k s :
  ops_ok s ->
  let '(r, s') := allocate_loop k s in
  ops_ok s' /\ pending s' = pending s /\ runtime_handle s' = runtime_handle s /\
  match r with
  | Ok id => pending s !! id = None /\ 1 <= id < op_ids
  | Err _ => forall i, (i < k)%nat -> is_Some (pending s !! nth_id (next_op_id s) i)
  end.
Proof.
  revert s. induction k as [|k IH]; intros s Hok; cbn [allocate_loop].
  { split_and!; try done. intros i Hi. lia. }
  cbn [pending set_field eta_ops]. destruct (pending s !! next_op_id s) as [op|] eqn:Hop.
  - specialize (IH (s <| next_op_id := next_id (next_op_id s) |>)).
    assert (Hn : ops_ok (s <| next_op_id := next_id (next_op_id s) |>)) by (by apply next_id_range).
    specialize (IH Hn). destruct (allocate_loop k _) as [[id|e] s']; [done|].
    destruct IH as (? & ? & ? & Hall). split_and!; [done..|]. intros [|i] Hi.
    + rewrite nth_id_0 by done. by rewrite Hop.
    + rewrite <-nth_id_S by done. apply (Hall i). lia.
  - pose proof (next_id_range _ Hok) as [? ?]. destruct Hok as [? ?]. by split_and!.
Qed.

(** Fewer than 65535 operations are pending: some id that is tried is free. *)
Lemma allocate_total s :
  ops_ok s -> Z.of_nat (size (pending s)) < U16_MAX ->
  exists id s', allocate_op_id s = (Ok id, s') /\ ops_ok s' /\ pending s' = pending s
    /\ runtime_handle s' = runtime_handle s /\ pending s !! id = None /\ 1 <= id < op_ids.
Proof.
  intros Hok Hsz. unfold allocate_op_id. pose proof (allocate_loop_spec ATTEMPTS s Hok) as Hs.
  destruct (allocate_loop ATTEMPTS s) as [[id|e] s']; [by exists id, s'; naive_solver|].
  destruct Hs as (_ & _ & _ & Hall). exfalso.
  set (tried := nth_id (next_op_id s) <$> seq 0 ATTEMPTS).
  assert (Hnd : NoDup tried).
  { apply NoDup_fmap_2_strong; [|apply NoDup_seq]. intros i j Hi%elem_of_seq Hj%elem_of_seq.
    unfold ATTEMPTS, U16_MAX in *. apply nth_id_inj; lia. }
  assert (Hsub : list_to_set tried ⊆ dom (pending s)).
  { intros id Hid%elem_of_list_to_set. apply list_elem_of_fmap in Hid as (i & -> & Hi%elem_of_seq).
    apply elem_of_dom, Hall. lia. }
  apply subseteq_size in Hsub. rewrite size_list_to_set in Hsub by done.
  unfold tried in Hsub. rewrite length_fmap, length_seq, size_dom in Hsub.
  unfold ATTEMPTS in Hsub. lia.
Qed.

(** The polls of one operation. *)
Fixpoint polls (op_id : Z) (n : nat) (s : VmAsyncOps) : VmAsyncOps :=
  match n with O => s | S n => polls op_id n (poll_op op_id s).2 end.

Fixpoint delay (f : future) : nat := match f with Now _ => 0 | Later f => S (delay f) end.
Fixpoint outcome_of (f : future) : AsyncOpResult := match f with Now r => r | Later f => outcome_of f end.

Lemma polls_future op_id f s n :
  pending s !! op_id = Some (Future f) -> (n <= delay f)%nat ->
  exists f', pending (polls op_id n s) = <[op_id := Future f']> (pending s)
    /\ delay f' = (delay f - n)%nat /\ outcome_of f' = outcome_of f /\ next_op_id (polls op_id n s) = next_op_id s.
Proof.
  revert f s. induction n as [|n IH]; intros f s Hp Hn.
  { exists f. cbn. rewrite insert_id by done. split_and!; [done|lia|done..]. }
  destruct f as [r|f]; [cbn in Hn; lia|]. cbn [polls]. unfold poll_op at 1 2. rewrite Hp. cbn [snd].
  destruct (IH f (s <| pending := <[op_id := Future f]> (pending s) |>)) as (f' & H1 & H2 & H3 & H4);
    [cbn; by rewrite lookup_insert_eq|cbn in Hn; lia|].
  exists f'. rewrite H1, H4. cbn. split_and!; [by rewrite insert_insert_eq|cbn in Hn; lia|done..].
Qed.

End ops.
Arguments VmAsyncOps : clear implicits. Arguments PendingOp : clear implicits. Arguments future : clear implicits.


End VmAsyncOps.

Module RateLimiter.
Section limiter.
(** [DefaultHasher] of a key. *)
Context (hash : string -> N).

Definition RATE_LIMITER_SHARDS : nat := 64.
(** [Instant]s in nanoseconds. *)
Definition NANOS : Z := 1000000000.

Record RateLimitBucket := MkBucket { window_start : Z; count : Z }.
Record RateLimiterStore := MkStore { shards : list (gmap string RateLimitBucket) }.

Definition new : RateLimiterStore := MkStore (replicate RATE_LIMITER_SHARDS ∅).

(** What [allow] does to the bucket of its key. *)
Definition bump (limit window now : Z) (bucket : option RateLimitBucket) : bool * RateLimitBucket :=
  let bucket := default (MkBucket now 0) bucket in
  let bucket := if window <=? Z.max 0 (now - bucket.(window_start)) then MkBucket now 0 else bucket in
  if bucket.(count) <? limit then (true, MkBucket bucket.(window_start) (bucket.(count) + 1)) else (false, bucket).

(** [None]: an index out of range. *)
Definition allow (key : string) (limit window_seconds now : Z) (s : RateLimiterStore)
    : option (bool * RateLimiterStore) :=
  if (limit =? 0) || (window_seconds =? 0) then Some (false, s)
  else
    let shard_index := Sharded.shard_index_for hash key (length s.(shards)) in
    shard ← s.(shards) !! shard_index;
    let '(allowed, bucket) := bump limit (window_seconds * NANOS) now (shard !! key) in
    Some (allowed, MkStore (<[shard_index := <[key := bucket]> shard]> s.(shards))).

(** A trace of calls, with the answers. *)
Record call := MkCall { key : string; limit : Z; window_seconds : Z; at_time : Z }.

Fixpoint run (calls : list call) (s : RateLimiterStore) : option (list bool * RateLimiterStore) :=
  match calls with
  | [] => Some ([], s)
  | c :: calls =>
      '(b, s) ← allow c.(key) c.(limit) c.(window_seconds) c.(at_time) s;
      '(bs, s) ← run calls s;
      Some (b :: bs, s)
  end.

(** The calls for [k] that were allowed in the [w] nanoseconds from [a]. *)
Definition allowed_in (k : string) (a w : Z) (calls : list call) (answers : list bool) : Z :=
  len (filter (fun x => (x.1.(key) = k /\ a <= x.1.(at_time) < a + w) /\ x.2 = true) (zip calls answers)).

Definition bucket_of (s : RateLimiterStore) (k : string) : option RateLimitBucket :=
  s.(shards) !! Sharded.shard_index_for hash k (length s.(shards)) ≫= fun m => m !! k.

Lemma allow_spec k l w now s :
  length s.(shards) = RATE_LIMITER_SHARDS -> l ≠ 0 -> w ≠ 0 ->
  exists s', allow k l w now s = Some ((bump l (w * NANOS) now (bucket_of s k)).1, s')
    /\ length s'.(shards) = RATE_LIMITER_SHARDS
    /\ forall j, bucket_of s' j = if bool_decide (j = k) then Some (bump l (w * NANOS) now (bucket_of s k)).2
                                  else bucket_of s j.
Proof.
  intros Hlen Hl Hw. unfold allow, bucket_of.
  rewrite (proj2 (Z.eqb_neq l 0)), (proj2 (Z.eqb_neq w 0)) by done. cbn [orb].
  set (i := Sharded.shard_index_for hash k _).
  destruct (shards s !! i) as [shard|] eqn:Hi.
  2: { apply lookup_ge_None in Hi.
       pose proof (Sharded.shard_index_lt hash k (length (shards s)) ltac:(rewrite Hlen; unfold RATE_LIMITER_SHARDS; lia)).
       unfold i in Hi. lia. }
  cbn [mbind option_bind]. destruct (bump _ _ _ _) as [b bucket]. cbn [fst snd].
  eexists. split; [reflexivity|]. cbn [shards]. rewrite !length_insert. split; [done|]. intros j.
  pose proof (lookup_lt_Some _ _ _ Hi). case_bool_decide as Hj.
  - subst j. fold i. rewrite list_lookup_insert_eq by done. cbn. by rewrite lookup_insert_eq.
  - destruct (decide (Sharded.shard_index_for hash j (length (shards s)) = i)) as [->|Hne].
    + rewrite list_lookup_insert_eq by done. rewrite Hi. cbn. by rewrite lookup_insert_ne.
    + by rewrite list_lookup_insert_ne.
Qed.

(** The invariant of a key with limit [l] and window [w], for the calls from
    [a] on; [n] of them were allowed, the last call was at [last]. *)
Definition inv (a l w : Z) (b : option RateLimitBucket) (n last : Z) : Prop :=
  0 <= n /\ (last < a -> n = 0) /\
  match b with
  | None => n = 0
  | Some b => 0 <= b.(count) <= l /\ b.(window_start) <= last /\
      (b.(window_start) < a -> n <= b.(count)) /\
      (a <= b.(window_start) < a + w -> n <= l + b.(count)) /\
      (a + w <= b.(window_start) -> n <= 2 * l)
  end.

Lemma bump_inv a l w b n last now :
  inv a l w b n last -> 0 < l -> 0 < w -> last <= now ->
  inv a l w (Some (bump l w now b).2)
    (n + if (bump l w now b).1 && bool_decide (a <= now < a + w) then 1 else 0) now.
Proof.
  unfold inv, bump. intros (Hn & Hlast & Hb) Hl Hw Hnow.
  destruct b as [[ws c]|]; cbn [default from_option id window_start count] in *.
  - destruct (Z.leb_spec w (Z.max 0 (now - ws))); cbn [window_start count];
      [|destruct (Z.ltb_spec c l)]; rewrite ?(proj2 (Z.ltb_lt 0 l)) by done; cbn [fst snd window_start count andb];
      repeat case_bool_decide; lia.
  - rewrite Z.sub_diag, (proj2 (Z.leb_gt _ _)) by lia. cbn [count]. rewrite (proj2 (Z.ltb_lt 0 l)) by done.
    cbn [fst snd window_start count andb]. repeat case_bool_decide; lia.
Qed.

Lemma bump_fresh l w b now :
  0 < l -> match b with Some b => w <= now - b.(window_start) | None => True end -> 0 < w ->
  (bump l w now b).1 = true.
Proof.
  unfold bump. intros Hl Hb Hw. destruct b as [[ws c]|]; cbn [default from_option id window_start] in *.
  - rewrite (proj2 (Z.leb_le _ _)) by lia. cbn. by rewrite (proj2 (Z.ltb_lt 0 l)).
  - rewrite Z.sub_diag, (proj2 (Z.leb_gt _ _)) by lia. cbn [count]. by rewrite (proj2 (Z.ltb_lt 0 l)).
Qed.

(** The calls for [k] have the limit [l] and the window [w], and time does not
    go back, from [t] on. *)
Fixpoint well_timed (k : string) (l w t : Z) (calls : list call) : Prop :=
  match calls with
  | [] => True
  | c :: calls => t <= c.(at_time) /\ 0 <= c.(limit) /\ 0 <= c.(window_seconds)
      /\ (c.(key) = k -> c.(limit) = l /\ c.(window_seconds) = w) /\ well_timed k l w c.(at_time) calls
  end.

Lemma run_inv k l w a calls s n t :
  0 < l -> 0 < w -> length (shards s) = RATE_LIMITER_SHARDS ->
  well_timed k l w t calls -> inv a l (w * NANOS) (bucket_of s k) n t ->
  exists answers s' last, run calls s = Some (answers, s') /\ length (shards s') = RATE_LIMITER_SHARDS
    /\ inv a l (w * NANOS) (bucket_of s' k) (n + allowed_in k a (w * NANOS) calls answers) last.
Proof.
  intros Hl Hw. revert s n t. induction calls as [|c calls IH]; intros s n t Hlen Ht Hinv.
  { exists [], s, t. split_and!; [done|done|]. unfold allowed_in. cbn. by rewrite len_nil, Z.add_0_r. }
  destruct Ht as (Htc & Hcl & Hcw & Hkey & Ht). cbn [run].
  assert (Hstep : exists b s1 n1, allow (key c) (limit c) (window_seconds c) (at_time c) s = Some (b, s1)
    /\ length (shards s1) = RATE_LIMITER_SHARDS /\ inv a l (w * NANOS) (bucket_of s1 k) n1 (at_time c)
    /\ n1 = n + if bool_decide ((key c = k /\ a <= at_time c < a + w * NANOS) /\ b = true) then 1 else 0).
  { destruct (decide (key c = k)) as [Hk|Hk].
    - destruct (Hkey Hk) as [Hlc Hwc]. rewrite Hlc, Hwc, Hk.
      destruct (allow_spec k l w (at_time c) s Hlen) as (s1 & Ha & Hlen1 & Hb1); [lia|lia|].
      eexists _, s1, _. split; [exact Ha|]. split; [done|]. rewrite Hb1, bool_decide_true by done.
      split; [apply bump_inv with (last := t)|]; [done|lia|unfold NANOS; lia|done|].
      f_equal. destruct (bump _ _ _ _).1; cbn; repeat case_bool_decide; naive_solver.
    - assert (Hout : forall b, bool_decide ((key c = k /\ a <= at_time c < a + w * NANOS) /\ b = true) = false)
        by (intros b; apply bool_decide_false; naive_solver).
      assert (Hmono : inv a l (w * NANOS) (bucket_of s k) n (at_time c)).
      { destruct Hinv as (? & ? & Hb). split_and!; [lia|lia|]. destruct (bucket_of s k); [|done].
        destruct Hb as (? & ? & ?). split_and!; lia || naive_solver. }
      destruct (decide (limit c = 0 \/ window_seconds c = 0)) as [Hz|Hz].
      + exists false, s, n. rewrite Hout, Z.add_0_r. split_and!; [|done|done|done]. unfold allow.
        destruct Hz as [-> | ->]; [done|]. by rewrite orb_true_r.
      + destruct (allow_spec (key c) (limit c) (window_seconds c) (at_time c) s Hlen) as (s1 & Ha & Hlen1 & Hb1); [lia|lia|].
        eexists _, s1, n. split; [exact Ha|]. rewrite Hout, Z.add_0_r, Hb1, bool_decide_false by naive_solver.
        done. }
  destruct Hstep as (b & s1 & n1 & -> & Hlen1 & Hinv1 & ->). cbn [mbind option_bind].
  destruct (IH s1 _ _ Hlen1 Ht Hinv1) as (answers & s2 & last & -> & Hlen2 & Hinv2). cbn.
  exists (b :: answers), s2, last. split_and!; [done|done|].
  unfold allowed_in in *. cbn [zip zip_with]. rewrite filter_cons. cbn [fst snd].
  case_bool_decide; [rewrite decide_True by done|rewrite decide_False by done];
    rewrite ?len_cons; rewrite ?Z.add_assoc, ?Z.add_0_r in *; done.
Qed.

(** C34. The rate limiter bounds every interval, not only its own windows: in
    any run of calls at non-decreasing times, in which a key is used with one
    limit and one window, no interval of the window's length has more than
    twice the limit of allowed calls for the key, whatever calls the other keys
    make; no call panics; and a call is allowed when every earlier window of
    its key is over. *)
Theorem rate_limit_bounded k l w a calls :
  0 < l -> 0 < w -> well_timed k l w 0 calls ->
  exists answers s, run calls new = Some (answers, s)
    /\ allowed_in k a (w * NANOS) calls answers <= 2 * l
    /\ forall now, match bucket_of s k with Some b => b.(window_start) + w * NANOS <= now | None => True end ->
         exists s', allow k l w now s = Some (true, s').
Proof.
  intros Hl Hw Ht.
  assert (Hnew : forall k, bucket_of new k = None).
  { intros j. unfold bucket_of, new. cbn [shards]. rewrite length_replicate.
    destruct (replicate _ _ !! _) as [m|] eqn:Hm; [|done]. apply lookup_replicate_1 in Hm as [-> _]. done. }
  destruct (run_inv k l w a calls new 0 0 Hl Hw) as (answers & s & last & Hr & Hlen & Hinv);
    [unfold new; cbn [shards]; by rewrite length_replicate|done|unfold inv; by rewrite Hnew|].
  exists answers, s. split; [done|]. split.
  - destruct Hinv as (_ & _ & Hb). destruct (bucket_of s k) as [b|]; [|lia]. destruct Hb as (? & _ & ? & ? & ?). lia.
  - intros now Hnow. destruct (allow_spec k l w now s Hlen) as (s' & Ha & _); [lia|lia|].
    exists s'. rewrite Ha. do 2 f_equal. apply bump_fresh; [done|destruct (bucket_of s k); [lia|done]|unfold NANOS; lia].
Qed.
End limiter.

(** Two calls at the end of a window and two at the start of the next, for a
    limit of two. *)
Lemma rate_limit_bounded_witness :
  let c k t := MkCall k 2 1 t in
  let calls := [c "a" 0; c "a" 999; c "b" 1000; c "a" 1000000000; c "a" 1000000000; c "a" 1000000001] in
  exists answers s, run (fun _ => 0%N) calls new = Some (answers, s)
    /\ answers = [true; true; true; true; true; false]
    /\ allowed_in "a" 500 1000000000 calls answers <= 4.
Proof.
  intros c calls. destruct (rate_limit_bounded (fun _ => 0%N) "a" 2 1 500 calls) as (answers & s & Hr & Hb & _);
    [lia|lia|by repeat (split; [cbn; done || lia|])|].
  exists answers, s. split; [exact Hr|]. split; [|exact Hb]. vm_compute in Hr. by injection Hr as <- _.
Defined.

End RateLimiter.

Module HostContext.
Section context.
Context {C : Type}.

(** The thread's slot, and the guard that remembers what was in it. *)
Abbreviation slot := (option C).
Record EdgeHostContextGuard := MkGuard { previous : slot }.

Definition enter_edge_host_context_inner (next : C) (s : slot) : EdgeHostContextGuard * slot := (MkGuard s, Some next).
Definition drop_guard (g : EdgeHostContextGuard) (_ : slot) : slot := g.(previous).

Definition current_vm_context (s : slot) : vm_result C :=
  ok_or (HostError "pd-edge host context is unavailable outside Store-backed execution") s.

(** Code on the thread: it asks for the context, or enters one for a block. *)
Inductive code :=
| Stop
| Ask (rest : code)
| Within (c : C) (block rest : code).

Fixpoint run (p : code) (s : slot) : list (vm_result C) * slot :=
  match p with
  | Stop => ([], s)
  | Ask rest => let '(l, s') := run rest s in (current_vm_context s :: l, s')
  | Within c block rest =>
      let '(g, s1) := enter_edge_host_context_inner c s in
      let '(l1, s2) := run block s1 in
      let '(l2, s3) := run rest (drop_guard g s2) in
      (l1 ++ l2, s3)
  end.

(** What lexical scoping gives. *)
Fixpoint scoped (p : code) (s : slot) : list (vm_result C) :=
  match p with
  | Stop => []
  | Ask rest => current_vm_context s :: scoped rest s
  | Within c block rest => scoped block (Some c) ++ scoped rest s
  end.

(** Contexts are lexically scoped: a host call sees the innermost context that
    was entered, and the slot is as before when a block is left. *)
Theorem context_scoped p s : run p s = (scoped p s, s).
Proof.
  revert s. induction p as [|p IH|c b IHb p IH]; intros s; cbn; [done|by rewrite IH|].
  rewrite IHb. cbn. by rewrite IH.
Qed.
End context.
End HostContext.
