(* ===== verification/WebSocketState.v ===== *)
(** Model of [src/abi_impl/websocket/state.rs]: the frames of an open websocket
    ([OutboundWebSocketIoState]) and the state of a connection
    ([WebSocketConnectionState]), which shares its frame state with the readers
    behind a lock.  The websocket stream is tokio-tungstenite's: the messages it
    yields and the outcome of each send are given; base64 is a parameter. *)

From S2P Require Import Prelude Bytes Http1Text HttpHeaders.

Module WebSocketState.
Import HttpHeaders.

Inductive WebSocketPhase :=
| Inactive | UpgradeObserved | UpgradePrepared | HandshakeStarted | Open | Closing | Closed | Failed.
#[export] Instance WebSocketPhase_eq_dec : EqDecision WebSocketPhase.
Proof. solve_decision. Defined.

Inductive WebSocketUpstreamScheme := Ws | Wss.

Definition scheme_as_str (s : WebSocketUpstreamScheme) : string := match s with Ws => "ws" | Wss => "wss" end.
Definition uses_tls (s : WebSocketUpstreamScheme) : bool := match s with Wss => true | Ws => false end.
Definition scheme_parse (value : string) : vm_result WebSocketUpstreamScheme :=
  let v := to_ascii_lowercase (trim value) in
  if bool_decide (v = "ws") then Ok Ws
  else if bool_decide (v = "wss") then Ok Wss
  else Err (HostError ("invalid websocket scheme '" +:+ value +:+ "'; expected ws or wss")).

Definition phase_as_str (p : WebSocketPhase) : string :=
  match p with
  | Inactive => "inactive"
  | UpgradeObserved => "upgrade-observed"
  | UpgradePrepared => "upgrade-prepared"
  | HandshakeStarted => "handshake-started"
  | Open => "open"
  | Closing => "closing"
  | Closed => "closed"
  | Failed => "failed"
  end.

(** ** Frames *)

Record CloseFrame := MkClose { code : Z; reason : string }.

(** [tungstenite::Message]; [Frame] is a raw frame. *)
Inductive Message :=
| Text (text : string)
| Binary (bytes : list Z)
| Ping (payload : list Z)
| Pong (payload : list Z)
| Close (frame : option CloseFrame)
| Frame.

Inductive OutboundWebSocketFrame :=
| FText (text : string)
| FBinary (bytes : list Z).

(** The stream: what it will yield, what was sent on it, and what the next
    sends say ([Ok] when the list is empty). *)
Record Stream := MkStream {
  incoming : list (result string Message);
  sent : list Message;
  outcomes : list (result string unit);
}.
#[export] Instance eta_stream : Eta Stream := fun s => MkStream s.(incoming) s.(sent) s.(outcomes).

Record OutboundWebSocketIoState := MkIo {
  stream : Stream;
  io_eof : bool;
  io_close_code : option Z;
  io_close_reason : option string;
}.
#[export] Instance eta_io : Eta OutboundWebSocketIoState := fun s =>
  MkIo s.(stream) s.(io_eof) s.(io_close_code) s.(io_close_reason).

Definition new_client (s : Stream) : OutboundWebSocketIoState := MkIo s false None None.

(** [stream.send(frame)], [stream.close(frame)] *)
Definition send (m : Message) (s : OutboundWebSocketIoState) : result string unit * OutboundWebSocketIoState :=
  let st := s.(stream) in
  let s' := s <| stream := st <| outcomes := tail st.(outcomes) |> |> in
  match st.(outcomes) with
  | Err e :: _ => (Err e, s')
  | _ => (Ok tt, s' <| stream := s'.(stream) <| sent := st.(sent) ++ [m] |> |>)
  end.

Definition record_close_frame (f : option CloseFrame) (s : OutboundWebSocketIoState) : OutboundWebSocketIoState :=
  let s := s <| io_eof := true |> in
  match f with
  | Some f => s <| io_close_code := Some f.(code) |> <| io_close_reason := Some f.(reason) |>
  | None => s
  end.

(** [.await.map_err(..)?] *)
Definition or_host_error {A} (what : string) (x : result string unit * OutboundWebSocketIoState) (a : A)
    : vm_result A * OutboundWebSocketIoState :=
  match x with
  | (Ok _, s) => (Ok a, s)
  | (Err e, s) => (Err (HostError (what +:+ e)), s)
  end.

Definition send_text (text : string) (s : OutboundWebSocketIoState) : vm_result Z * OutboundWebSocketIoState :=
  or_host_error "failed to send websocket text frame: " (send (Text text) s) (str_len text).

Definition send_binary_bytes (payload : list Z) (s : OutboundWebSocketIoState) : vm_result Z * OutboundWebSocketIoState :=
  or_host_error "failed to send websocket binary frame: " (send (Binary payload) s) (len payload).

Definition close (c : Z) (r : string) (s : OutboundWebSocketIoState) : vm_result unit * OutboundWebSocketIoState :=
  let f := Some (MkClose c r) in
  match send (Close f) s with
  | (Ok _, s) => (Ok tt, record_close_frame f s)
  | (Err e, s) => (Err (HostError ("failed to close websocket session: " +:+ e)), s)
  end.

(** [read_next_frame]; the loop ends with what the stream yields. *)
Fixpoint read_loop (inc : list (result string Message)) (s : OutboundWebSocketIoState)
    : vm_result (option OutboundWebSocketFrame) * OutboundWebSocketIoState :=
  let s' inc := s <| stream := s.(stream) <| incoming := inc |> |> in
  match inc with
  | [] => (Ok None, s' [] <| io_eof := true |>)
  | Err e :: inc => (Err (HostError ("failed to read websocket frame: " +:+ e)), s' inc <| io_eof := true |>)
  | Ok (Text t) :: inc => (Ok (Some (FText t)), s' inc)
  | Ok (Binary b) :: inc => (Ok (Some (FBinary b)), s' inc)
  | Ok (Ping payload) :: inc =>
      match send (Pong payload) (s' inc) with
      | (Ok _, s) => read_loop inc s
      | (Err e, s) => (Err (HostError ("failed to reply to websocket ping: " +:+ e)), s)
      end
  | Ok (Pong _) :: inc | Ok Frame :: inc => read_loop inc (s' inc)
  | Ok (Close f) :: inc => (Ok None, record_close_frame f (s' inc))
  end.
Definition read_next_frame (s : OutboundWebSocketIoState) := read_loop s.(stream).(incoming) s.

(** [read_text], [read_binary_bytes]: a frame of the other kind is consumed. *)
Definition read_text (s : OutboundWebSocketIoState) : vm_result (option string) * OutboundWebSocketIoState :=
  match read_next_frame s with
  | (Ok (Some (FText t)), s) => (Ok (Some t), s)
  | (Ok (Some (FBinary _)), s) =>
      (Err (HostError "next websocket frame is binary; call websocket::connection::read_binary"), s)
  | (Ok None, s) => (Ok None, s)
  | (Err e, s) => (Err e, s)
  end.
Definition read_binary_bytes (s : OutboundWebSocketIoState) : vm_result (option (list Z)) * OutboundWebSocketIoState :=
  match read_next_frame s with
  | (Ok (Some (FBinary b)), s) => (Ok (Some b), s)
  | (Ok (Some (FText _)), s) =>
      (Err (HostError "next websocket frame is text; binary byte-stream mode requires binary frames"), s)
  | (Ok None, s) => (Ok None, s)
  | (Err e, s) => (Err e, s)
  end.

(** Messages that no reader is handed. *)
Definition control (m : Message) : bool := match m with Ping _ | Pong _ | Frame => true | _ => false end.
Definition reply (m : Message) : option Message := match m with Ping p => Some (Pong p) | _ => None end.

Definition frame_of (m : Message) : option OutboundWebSocketFrame :=
  match m with Text t => Some (FText t) | Binary b => Some (FBinary b) | _ => None end.

(** A reader is handed exactly the data frames: on a stream that yields
    control messages and then something else, while sends succeed, the read
    answers every ping before it with a pong of the same payload, in order and
    with nothing else, and then returns the data frame, or the end of the
    stream with the close frame's code and reason recorded, or the stream's
    error; the rest of the stream is left for the next read. *)
Theorem websocket_read_frame ctl last rest s :
  Forall (fun m => control m = true) ctl ->
  match last with Ok m => control m = false | Err _ => True end ->
  s.(stream).(incoming) = (Ok <$> ctl) ++ last :: rest -> s.(stream).(outcomes) = [] ->
  let '(r, s') := read_next_frame s in
  s'.(stream) = MkStream rest (s.(stream).(sent) ++ omap reply ctl) []
  /\ match last with
     | Ok m => r = Ok (frame_of m)
         /\ s'.(io_eof) = s.(io_eof) || match m with Close _ => true | _ => false end
         /\ (forall f, m = Close (Some f) -> s'.(io_close_code) = Some f.(code) /\ s'.(io_close_reason) = Some f.(reason))
     | Err e => r = Err (HostError ("failed to read websocket frame: " +:+ e)) /\ s'.(io_eof) = true
     end.
Proof.
  unfold read_next_frame. intros Hctl Hlast -> Hout. destruct s as [[inc snt out] eof c r]. cbn in Hout. subst out.
  revert snt inc. induction Hctl as [|m ctl Hm Hctl IH]; intros snt inc.
  - cbn [fmap list_fmap app omap list_omap]. destruct last as [m|e]; cbn.
    + destruct m as [t|b|p|p|[f|]|]; try done; cbn; rewrite ?app_nil_r, ?orb_false_r, ?orb_true_r;
        (split_and!; try done); intros f' [= <-]; done.
    + by rewrite app_nil_r.
  - destruct m as [t|b|p|p|f|]; try done; cbn [fmap list_fmap app omap list_omap reply read_loop].
    + unfold send. cbn [stream outcomes set_field eta_io eta_stream]. unfold set_field, eta_io, eta_stream. cbn.
      specialize (IH (snt ++ [Pong p]) ((Ok <$> ctl) ++ last :: rest)). cbn in IH.
      rewrite <-app_assoc in IH. exact IH.
    + exact (IH snt ((Ok <$> ctl) ++ last :: rest)).
    + exact (IH snt ((Ok <$> ctl) ++ last :: rest)).
Qed.

(** ** The connection *)

Record WebSocketConnectionState := MkWs {
  phase : WebSocketPhase;
  present : bool;
  target_host : option string;
  target_port : option Z;
  target_scheme : WebSocketUpstreamScheme;
  requested_subprotocols : list string;
  negotiated_subprotocol : option string;
  failure_message : option string;
  close_code : option Z;
  close_reason : option string;
  io : option positive;
}.
#[export] Instance eta_ws : Eta WebSocketConnectionState := fun s =>
  MkWs s.(phase) s.(present) s.(target_host) s.(target_port) s.(target_scheme) s.(requested_subprotocols)
    s.(negotiated_subprotocol) s.(failure_message) s.(close_code) s.(close_reason) s.(io).

Definition default_state : WebSocketConnectionState :=
  MkWs Inactive false None None Ws [] None None None None None.

Section upgrade.
Context {M : Type} `{HM : HeaderMap M} `{HC : HttpCrate}.

Definition is_downstream_websocket_upgrade (m : M) : bool :=
  let connection_has_upgrade :=
    match get m "connection" ≫= to_str with Some v => has_token [v] "upgrade" | None => false end in
  let upgrade_is_websocket :=
    match get m "upgrade" ≫= to_str with Some v => eq_ignore_ascii_case v "websocket" | None => false end in
  connection_has_upgrade && upgrade_is_websocket && contains_key m "sec-websocket-key".

Definition parse_subprotocols_header (m : M) : list string :=
  match get m "sec-websocket-protocol" ≫= to_str with
  | Some v => filter (fun t => t ≠ "") (trim <$> split_on 44 v)
  | None => []
  end.

Definition for_http_request (m : M) : WebSocketConnectionState :=
  if negb (is_downstream_websocket_upgrade m) then default_state
  else MkWs UpgradeObserved true None None Ws (parse_subprotocols_header m) None None None None None.
End upgrade.

Definition is_websocket_mode (s : WebSocketConnectionState) : bool :=
  s.(present) || negb (bool_decide (s.(phase) = Inactive)).
Definition is_open (s : WebSocketConnectionState) : bool :=
  bool_decide (s.(phase) = Open) && bool_decide (is_Some s.(io)).

Definition prepare_outbound (s : WebSocketConnectionState) : WebSocketConnectionState :=
  let s := s <| present := true |> <| failure_message := None |> in
  match s.(phase) with
  | Inactive | UpgradeObserved => s <| phase := UpgradePrepared |>
  | _ => s
  end.
Definition set_target_host_port (host : string) (port : Z) (s : WebSocketConnectionState) :=
  prepare_outbound s <| target_host := Some host |> <| target_port := Some port |>.
Definition set_target_scheme (scheme : WebSocketUpstreamScheme) (s : WebSocketConnectionState) :=
  prepare_outbound s <| target_scheme := scheme |>.
Definition set_requested_subprotocols (l : list string) (s : WebSocketConnectionState) :=
  prepare_outbound s <| requested_subprotocols := l |>.
Definition note_handshake_started (s : WebSocketConnectionState) : WebSocketConnectionState :=
  prepare_outbound s <| phase := HandshakeStarted |> <| negotiated_subprotocol := None |>
    <| close_code := None |> <| close_reason := None |> <| io := None |>.
Definition mark_open (l : positive) (protocol : option string) (s : WebSocketConnectionState) :=
  s <| present := true |> <| phase := Open |> <| negotiated_subprotocol := protocol |>
    <| failure_message := None |> <| io := Some l |>.
Definition note_closing (s : WebSocketConnectionState) : WebSocketConnectionState :=
  if bool_decide (s.(phase) = Open) then s <| phase := Closing |> else s.
Definition mark_closed (c : option Z) (r : option string) (s : WebSocketConnectionState) :=
  s <| phase := Closed |> <| close_code := c |> <| close_reason := r |>.
Definition mark_failed (message : string) (s : WebSocketConnectionState) : WebSocketConnectionState :=
  s <| phase := Failed |> <| present := true |> <| failure_message := Some message |> <| io := None |>.

(** The frame states behind their locks; a locked one is not in the view of
    [try_lock]. *)
Abbreviation heap := (gmap positive (bool * OutboundWebSocketIoState)).
Definition try_lock (l : positive) (h : heap) : option OutboundWebSocketIoState :=
  '(locked, io) ← h !! l; if locked : bool then None else Some io.

Definition refresh_close_state (h : heap) (s : WebSocketConnectionState) : WebSocketConnectionState :=
  match s.(io) with
  | None => s
  | Some l =>
      match try_lock l h with
      | Some io => if io.(io_eof)
                   then s <| phase := Closed |> <| close_code := io.(io_close_code) |>
                          <| close_reason := io.(io_close_reason) |>
                   else s
      | None => s
      end
  end.
Definition eof (h : heap) (s : WebSocketConnectionState) : bool * WebSocketConnectionState :=
  let s := refresh_close_state h s in
  (match s.(phase) with Closed | Failed => true | _ => false end, s).

(** ** Reachable states *)

(** One operation of the host calls, with any frame states in the heap. *)
Inductive ws_step : WebSocketConnectionState -> WebSocketConnectionState -> Prop :=
| step_prepare s : ws_step s (prepare_outbound s)
| step_target s host port : ws_step s (set_target_host_port host port s)
| step_scheme s x : ws_step s (set_target_scheme x s)
| step_subprotocols s l : ws_step s (set_requested_subprotocols l s)
| step_handshake s : ws_step s (note_handshake_started s)
| step_open s l p : ws_step s (mark_open l p s)
| step_closing s : ws_step s (note_closing s)
| step_refresh s h : ws_step s (refresh_close_state h s)
| step_closed s c r : ws_step s (mark_closed c r s)
| step_failed s m : ws_step s (mark_failed m s).

Definition ws_ok (s : WebSocketConnectionState) : Prop :=
  (s.(phase) = Inactive -> s = default_state)
  /\ (s.(phase) ≠ Closed -> s.(phase) ≠ Inactive -> s.(present) = true)
  /\ (s.(phase) = Open \/ s.(phase) = Closing -> is_Some s.(io))
  /\ (is_Some s.(io) -> s.(phase) = Open \/ s.(phase) = Closing \/ s.(phase) = Closed)
  /\ (is_Some s.(failure_message) -> s.(phase) = Failed \/ s.(phase) = Closed).

Lemma prepare_ok s : ws_ok s -> ws_ok (prepare_outbound s).
Proof.
  intros (H1 & H2 & H3 & H4 & H5). unfold prepare_outbound. cbn.
  destruct (phase s) eqn:Hp; unfold ws_ok; cbn; rewrite ?Hp; split_and!; try done; try naive_solver.
Qed.

Lemma prepare_phase s : phase (prepare_outbound s) ≠ Inactive.
Proof. unfold prepare_outbound. cbn. by destruct (phase s) eqn:Hp; cbn; rewrite ?Hp. Qed.

Lemma ws_step_ok s s' : ws_step s s' -> ws_ok s -> ws_ok s'.
Proof.
  intros Hs Hok. pose proof (prepare_ok s Hok) as Hprep. pose proof (prepare_phase s) as Hph.
  pose proof Hok as (H1 & H2 & H3 & H4 & H5). inversion Hs; subst; clear Hs.
  - done.
  - unfold ws_ok, set_target_host_port in *. cbn in *. naive_solver.
  - unfold ws_ok, set_target_scheme in *. cbn in *. naive_solver.
  - unfold ws_ok, set_requested_subprotocols in *. cbn in *. naive_solver.
  - unfold note_handshake_started, prepare_outbound, ws_ok. cbn.
    destruct (phase s); cbn; split_and!; try done; naive_solver.
  - unfold mark_open, ws_ok. cbn. split_and!; try done; naive_solver.
  - unfold note_closing. case_bool_decide as Hp; [|done]. unfold ws_ok. cbn. rewrite Hp in *.
    split_and!; try done; naive_solver.
  - unfold refresh_close_state. destruct (io s) as [l|] eqn:Hio; [|done].
    destruct (try_lock l h) as [x|]; [|done]. destruct (io_eof x); [|done].
    unfold ws_ok. cbn. rewrite Hio. split_and!; try done; naive_solver.
  - unfold mark_closed, ws_ok. cbn. split_and!; try done; naive_solver.
  - unfold mark_failed, ws_ok. cbn. split_and!; try done; naive_solver.
Qed.

(** Every reachable websocket connection is consistent, whatever the order
    of host calls and whatever the shared frame state becomes in between: an
    inactive one has nothing set; one that is open or closing has its frames,
    and only an open, closing or closed one can have them; a failure message is
    only on a failed or closed one; and [is_open] is exactly the open phase. *)
Theorem websocket_reachable_invariant s0 s :
  (s0 = default_state \/ exists l, s0 = MkWs UpgradeObserved true None None Ws l None None None None None) ->
  rtc ws_step s0 s ->
  ws_ok s /\ is_open s = bool_decide (s.(phase) = Open)
  /\ (is_websocket_mode s = false -> s = default_state).
Proof.
  intros H0 Hr. assert (Hok : ws_ok s).
  { assert (Hok0 : ws_ok s0).
    { destruct H0 as [->|[l ->]]; unfold ws_ok; cbn; split_and!; try done; naive_solver. }
    clear H0. induction Hr as [|a b c Hab _ IH]; [done|]. apply IH. by eapply ws_step_ok. }
  split; [done|]. destruct Hok as (H1 & _ & H3 & _). split.
  - unfold is_open. case_bool_decide as Hp; [|done]. rewrite bool_decide_true; [done|]. apply H3. by left.
  - unfold is_websocket_mode. intros [_ Hn]%orb_false_iff. apply negb_false_iff, bool_decide_eq_true in Hn. by apply H1.
Qed.

Lemma websocket_reachable_invariant_witness :
  is_open (mark_open 1 None (note_handshake_started default_state)) = true.
Proof.
  destruct (websocket_reachable_invariant default_state (mark_open 1 None (note_handshake_started default_state)))
    as (_ & H & _); [by left| |exact H].
  eapply rtc_l; [apply step_handshake|]. eapply rtc_l; [apply step_open|]. apply rtc_refl.
Defined.

Lemma websocket_read_frame_witness :
  let s := new_client (MkStream [Ok (Ping [1]); Ok (Pong []); Ok (Ping [2]); Ok (Text "hi"); Ok Frame] [] []) in
  stream (read_next_frame s).2 = MkStream [Ok Frame] [Pong [1]; Pong [2]] []
  /\ (read_next_frame s).1 = Ok (Some (FText "hi")).
Proof.
  intros s. pose proof (websocket_read_frame [Ping [1]; Pong []; Ping [2]] (Ok (Text "hi")) [Ok Frame] s
    ltac:(by repeat constructor) eq_refl eq_refl eq_refl) as H.
  destruct (read_next_frame s) as [r s'] eqn:Hr. destruct H as (H1 & H2 & _). cbn [fst snd]. split; [exact H1|exact H2].
Defined.

(** Preparing a failed connection clears the message and keeps the phase. *)
Theorem failed_without_message :
  let s := prepare_outbound (mark_failed "boom" default_state) in
  phase s = Failed /\ failure_message s = None.
Proof. done. Qed.

End WebSocketState.
