(* ===== verification/BodyStream.v ===== *)
(** Model of the buffered bodies a program reads: [BufferedByteStream] and the
    inbound request body of [src/abi_impl/http/state/body_io.rs].  A source of
    bytes is an interface; a stream over it is read in chunks, lines or as a
    whole, and keeps everything it has read. *)

From S2P Require Import Prelude Bytes TransportState TlsFlow.

Module BodyStream.

(** ** Sources *)

Inductive BufferedByteStreamPull :=
| Chunk (chunk : list Z)
| Skip
| Eof.

(** [pull_next]; [None] is a source that does not return.  [source_size] bounds
    the pulls before the end. *)
Class BufferedByteSource (S : Type) := {
  pull_next : S -> option (vm_result BufferedByteStreamPull * S);
  source_size : S -> nat;
}.

(** A valid source returns, stays valid, gets smaller until its end, and stays
    at its end. *)
Class SourceLaws S `{BufferedByteSource S} := {
  valid : S -> Prop;
  pull_next_progress s : valid s -> exists r s', pull_next s = Some (r, s') /\ valid s' /\
    match r with
    | Ok (Chunk _) | Ok Skip => (source_size s' < source_size s)%nat
    | Ok Eof => exists s'', pull_next s' = Some (Ok Eof, s'')
    | Err _ => True
    end;
}.

(** ** The stream *)

Record BufferedByteStream := MkStream {
  buffered : list Z;
  read_offset : Z;
  eof_reached : bool;
}.
#[export] Instance eta_stream : Eta BufferedByteStream := fun s =>
  MkStream s.(buffered) s.(read_offset) s.(eof_reached).

Definition default_stream : BufferedByteStream := MkStream [] 0 false.

Definition apply_pull (p : BufferedByteStreamPull) (st : BufferedByteStream) : BufferedByteStream :=
  match p with
  | Chunk l => if bool_decide (l = []) then st else st <| buffered := st.(buffered) ++ l |>
  | Skip => st
  | Eof => st <| eof_reached := true |>
  end.

(** No byte is left in the buffer. *)
Definition exhausted (st : BufferedByteStream) : bool := len st.(buffered) <=? st.(read_offset).

(** [Iterator::position] of a newline *)
Fixpoint find_newline (l : list Z) : option nat :=
  match l with
  | [] => None
  | b :: l => if b =? 10 then Some O else S <$> find_newline l
  end.

Definition unread (st : BufferedByteStream) : list Z := drop (Z.to_nat st.(read_offset)) st.(buffered).

Section stream.
Context {S : Type} `{HS : BufferedByteSource S}.

Abbreviation run A := (option (vm_result A * (BufferedByteStream * S))).

(** [while cond { self.apply_pull(source.pull_next().await?) }]; [None] is out
    of fuel. *)
Fixpoint pull_while (cond : BufferedByteStream -> bool) (fuel : nat) (st : BufferedByteStream) (src : S) : run unit :=
  if cond st then
    match fuel with
    | O => None
    | Datatypes.S fuel =>
        '(r, src) ← pull_next src;
        match r with
        | Err e => Some (Err e, (st, src))
        | Ok p => pull_while cond fuel (apply_pull p st) src
        end
    end
  else Some (Ok tt, (st, src)).

(** Enough for every valid source, see [pull_while_spec]. *)
Definition fuel_of (src : S) : nat := 2 + source_size src.

Definition ensure_readable_byte (st : BufferedByteStream) (src : S) : run unit :=
  pull_while (fun st => exhausted st && negb st.(eof_reached)) (fuel_of src) st src.

Definition read_next_chunk (max_bytes : Z) (st : BufferedByteStream) (src : S) : run (list Z) :=
  '(r, (st, src)) ← ensure_readable_byte st src;
  match r with
  | Err e => Some (Err e, (st, src))
  | Ok _ =>
      if exhausted st then Some (Ok [], (st, src))
      else
        let e := Z.min (saturating_add_u64 st.(read_offset) max_bytes) (len st.(buffered)) in
        let chunk := take (Z.to_nat (e - st.(read_offset))) (unread st) in
        Some (Ok chunk, (st <| read_offset := e |>, src))
  end.

(** One pass of the loop of [read_next_line]: [None] is one more pull. *)
Definition line_ready (st : BufferedByteStream) : option (list Z * BufferedByteStream) :=
  let start := Z.min st.(read_offset) (len st.(buffered)) in
  if start <? len st.(buffered) then
    let tail := drop (Z.to_nat start) st.(buffered) in
    match find_newline tail with
    | Some rel_end =>
        let e := start + Z.of_nat rel_end in
        Some (take rel_end tail, st <| read_offset := saturating_add_u64 e 1 |>)
    | None => if st.(eof_reached) then Some (tail, st <| read_offset := len st.(buffered) |>) else None
    end
  else if st.(eof_reached) then Some ([], st)
  else None.

Fixpoint read_line_loop (fuel : nat) (st : BufferedByteStream) (src : S) : run (list Z) :=
  match line_ready st with
  | Some (line, st) => Some (Ok line, (st, src))
  | None =>
      match fuel with
      | O => None
      | Datatypes.S fuel =>
          '(r, src) ← pull_next src;
          match r with
          | Err e => Some (Err e, (st, src))
          | Ok p => read_line_loop fuel (apply_pull p st) src
          end
      end
  end.
Definition read_next_line (st : BufferedByteStream) (src : S) : run (list Z) :=
  read_line_loop (fuel_of src) st src.

Definition read_all (st : BufferedByteStream) (src : S) : run (list Z) :=
  '(r, (st, src)) ← pull_while (fun st => negb st.(eof_reached)) (fuel_of src) st src;
  Some (match r with Err e => Err e | Ok _ => Ok st.(buffered) end, (st, src)).

Definition read_all_and_consume (st : BufferedByteStream) (src : S) : run (list Z) :=
  '(r, (st, src)) ← read_all st src;
  match r with
  | Err e => Some (Err e, (st, src))
  | Ok body => Some (Ok body, (st <| read_offset := len st.(buffered) |>, src))
  end.

Definition eof (st : BufferedByteStream) (src : S) : run bool :=
  '(r, (st, src)) ← pull_while (fun st => exhausted st && negb st.(eof_reached)) (fuel_of src) st src;
  Some (match r with Err e => Err e | Ok _ => Ok (st.(eof_reached) && exhausted st) end, (st, src)).

(** The operations, as one type. *)
Inductive read_op :=
| ReadNextChunk (max_bytes : Z)
| ReadNextLine
| ReadAll
| ReadAllAndConsume
| AskEof.
Inductive read_result :=
| GotBytes (l : list Z)
| GotEof (b : bool).

Definition map_result {A B} (f : A -> B) (r : run A) : run B :=
  match r with
  | Some (r, x) => Some (match r with Ok a => Ok (f a) | Err e => Err e end, x)
  | None => None
  end.

Definition read (op : read_op) (st : BufferedByteStream) (src : S) : run read_result :=
  match op with
  | ReadNextChunk n => map_result GotBytes (read_next_chunk n st src)
  | ReadNextLine => map_result GotBytes (read_next_line st src)
  | ReadAll => map_result GotBytes (read_all st src)
  | ReadAllAndConsume => map_result GotBytes (read_all_and_consume st src)
  | AskEof => map_result GotEof (eof st src)
  end.

(** ** What the stream stands for *)

(** The bytes a source gives before its end, and the error it ends with. *)
Fixpoint drain (fuel : nat) (src : S) : list Z * option VmError :=
  match fuel with
  | O => ([], None)
  | Datatypes.S fuel =>
      match pull_next src with
      | Some (Ok (Chunk l), src) => let '(d, e) := drain fuel src in (l ++ d, e)
      | Some (Ok Skip, src) => drain fuel src
      | Some (Err e, _) => ([], Some e)
      | _ => ([], None)
      end
  end.
Definition source_view (src : S) : list Z * option VmError := drain (1 + source_size src) src.

Context `{HL : !SourceLaws S}.

Lemma drain_enough n m src :
  valid src -> (source_size src < n)%nat -> (source_size src < m)%nat -> drain n src = drain m src.
Proof.
  revert m src. induction n as [|n IH]; intros [|m] src Hv Hn Hm; try lia. cbn [drain].
  destruct (pull_next_progress src Hv) as (r & src' & -> & Hv' & Hlt).
  destruct r as [[l| |]|e]; [| |done..]; by rewrite (IH m) by (done || lia).
Qed.

Lemma source_view_step src r src' :
  valid src -> pull_next src = Some (r, src') ->
  source_view src = match r with
    | Ok (Chunk l) => (l ++ (source_view src').1, (source_view src').2)
    | Ok Skip => source_view src'
    | Ok Eof => ([], None)
    | Err e => ([], Some e)
    end.
Proof.
  intros Hv Hp. destruct (pull_next_progress src Hv) as (r0 & src0 & Hp0 & Hv' & Hlt).
  rewrite Hp0 in Hp. injection Hp as -> ->. unfold source_view at 1. change (1 + source_size src)%nat with (Datatypes.S (source_size src)).
  cbn [drain]. rewrite Hp0. destruct r as [[l| |]|e]; [| |done..];
    rewrite (drain_enough _ (1 + source_size src')) by (done || lia); fold (source_view src'); [|done].
  by destruct (source_view src').
Qed.

(** Everything the body holds, read or not, and how it ends. *)
Definition whole (st : BufferedByteStream) (src : S) : list Z * option VmError :=
  if st.(eof_reached) then (st.(buffered), None)
  else (st.(buffered) ++ (source_view src).1, (source_view src).2).
(** What is left to read. *)
Definition rest (st : BufferedByteStream) (src : S) : list Z :=
  drop (Z.to_nat st.(read_offset)) (whole st src).1.

Record ok (st : BufferedByteStream) (src : S) : Prop := {
  ok_source : valid src;
  ok_offset : 0 <= st.(read_offset) <= len st.(buffered);
  ok_end : st.(eof_reached) = true -> source_view src = ([], None);
}.

Lemma apply_pull_spec st src r src' :
  ok st src -> eof_reached st = false -> pull_next src = Some (r, src') ->
  match r with
  | Ok p => ok (apply_pull p st) src' /\ whole (apply_pull p st) src' = whole st src
      /\ read_offset (apply_pull p st) = read_offset st
      /\ (exists l, buffered (apply_pull p st) = buffered st ++ l)
      /\ (eof_reached (apply_pull p st) = true \/ source_size src' < source_size src)%nat
  | Err e => ok st src' /\ (whole st src).2 = Some e
  end.
Proof.
  intros [Hv Ho _] He Hp. pose proof (source_view_step _ _ _ Hv Hp) as Hd.
  destruct (pull_next_progress src Hv) as (r0 & src0 & Hp0 & Hv' & Hlt).
  rewrite Hp0 in Hp. injection Hp as -> ->. unfold whole. rewrite He, Hd. destruct r as [[l| |]|e]; cbn [apply_pull].
  - case_bool_decide as Hl; [subst l|]; rewrite ?He; cbn; rewrite ?He.
    + split_and!; [split; [done|done|by rewrite He]|done|done|exists []; by rewrite app_nil_r|by right].
    + split_and!; [split; [done|cbn; len_lia|cbn; by rewrite He]|by rewrite <-app_assoc|done|by exists l|by right].
  - rewrite He. split_and!; [split; [done|done|by rewrite He]|by destruct (source_view src')|done|exists []; by rewrite app_nil_r|by right].
  - destruct Hlt as [src2 Hp2]. cbn. split_and!; [split; [done|done|intros _; by rewrite (source_view_step _ _ _ Hv' Hp2)]|by rewrite app_nil_r|done|exists []; by rewrite app_nil_r|by left].
  - split; [split; [done|done|by rewrite He]|done].
Qed.

(** A loop that pulls until [cond] fails: it ends, changes nothing but how much
    is buffered, and an error is the source's. *)
Lemma pull_while_spec cond st src :
  (forall st, cond st = true -> eof_reached st = false) -> ok st src ->
  exists r st' src', pull_while cond (fuel_of src) st src = Some (r, (st', src'))
    /\ ok st' src' /\ read_offset st' = read_offset st
    /\ match r with Ok _ => cond st' = false /\ whole st' src' = whole st src | Err e => (whole st src).2 = Some e end.
Proof.
  intros Hc. assert (forall fuel st src, ok st src ->
    (if eof_reached st then 0 < fuel else 1 + source_size src < fuel)%nat ->
    exists r st' src', pull_while cond fuel st src = Some (r, (st', src'))
    /\ ok st' src' /\ read_offset st' = read_offset st
    /\ match r with Ok _ => cond st' = false /\ whole st' src' = whole st src | Err e => (whole st src).2 = Some e end) as Hgen.
  { induction fuel as [|fuel IH]; intros st0 src0 Hok Hf; cbn [pull_while];
      (destruct (cond st0) eqn:Hst; [|by exists (Ok tt), st0, src0]); rewrite (Hc _ Hst) in Hf; [lia|].
    destruct (pull_next_progress src0 (ok_source _ _ Hok)) as (r & src1 & Hp & _). rewrite Hp. cbn [mbind option_bind].
    pose proof (apply_pull_spec _ _ _ _ Hok (Hc _ Hst) Hp) as Ha. destruct r as [p|e].
    - destruct Ha as (Hok1 & Hw & Ho & _ & Hlt).
      destruct (IH (apply_pull p st0) src1 Hok1) as (r & st' & src' & -> & Hok' & Ho' & Hr).
      { destruct (eof_reached (apply_pull p st0)); [lia|]. destruct Hlt; [done|lia]. }
      exists r, st', src'. rewrite <-Hw, <-Ho. done.
    - destruct Ha as [Hok1 He]. by exists (Err e), st0, src1. }
  intros Hok. apply Hgen; [done|]. unfold fuel_of. destruct (eof_reached st); lia.
Qed.

(** ** The operations *)

Lemma find_newline_Some l k :
  find_newline l = Some k -> (10 ∉ take k l) /\ l !! k = Some 10.
Proof.
  revert k. induction l as [|b l IH]; intros k; [done|]. cbn [find_newline].
  destruct (Z.eqb_spec b 10) as [->|Hb]; [intros [= <-]; split; [cbn; set_solver|done]|].
  destruct (find_newline l) as [j|]; [|done]. intros [= <-]. destruct (IH j eq_refl) as [Hn Hl].
  cbn. split; [set_solver|done].
Qed.

Lemma find_newline_None l : find_newline l = None -> 10 ∉ l.
Proof.
  induction l as [|b l IH]; cbn [find_newline]; [set_solver|].
  destruct (Z.eqb_spec b 10) as [|Hb]; [done|]. destruct (find_newline l); [done|]. set_solver.
Qed.

Lemma exhausted_iff st src : ok st src -> (exhausted st = true) <-> (read_offset st = len (buffered st)).
Proof. intros [_ Ho _]. unfold exhausted. rewrite Z.leb_le. lia. Qed.

Lemma rest_unread st src :
  ok st src -> rest st src = unread st ++ (if eof_reached st then [] else (source_view src).1).
Proof.
  intros [_ Ho _]. unfold rest, whole, unread. destruct (eof_reached st); cbn [fst]; [by rewrite app_nil_r|].
  rewrite drop_app_le; [done|]. unfold len in Ho. lia.
Qed.

Lemma rest_same_offset st st' src src' :
  whole st' src' = whole st src -> read_offset st' = read_offset st -> rest st' src' = rest st src.
Proof. intros Hw Ho. unfold rest. by rewrite Hw, Ho. Qed.

(** Moving the offset over bytes of the buffer. *)
Lemma advance st src n :
  ok st src -> 0 <= n -> read_offset st + n <= len (buffered st) ->
  let st' := st <| read_offset := read_offset st + n |> in
  ok st' src /\ whole st' src = whole st src
  /\ rest st src = take (Z.to_nat n) (unread st) ++ rest st' src
  /\ len (take (Z.to_nat n) (unread st)) = n.
Proof.
  intros Hok Hn Hl st'. pose proof (ok_offset _ _ Hok) as Ho.
  assert (Hok' : ok st' src) by (destruct Hok; split; [done|cbn; lia|done]).
  split_and!; [done|done| |].
  - rewrite (rest_unread st src), (rest_unread st' src) by done. cbn. rewrite app_assoc. f_equal.
    unfold unread. cbn. rewrite Z2Nat.inj_add, <-drop_drop by lia. by rewrite take_drop.
  - unfold unread, len in *. rewrite length_take, length_drop. lia.
Qed.

Lemma readable st src :
  ok st src -> exhausted st && negb (eof_reached st) = false -> exhausted st = true ->
  eof_reached st = true /\ rest st src = [].
Proof.
  intros Hok Hc He. rewrite He in Hc. cbn in Hc. apply negb_false_iff in Hc. split; [done|].
  rewrite rest_unread, Hc, app_nil_r by done. unfold unread. apply drop_ge.
  apply (exhausted_iff _ src) in He; [|done]. unfold len in He. lia.
Qed.

(** What a read may return and leave, by the body alone: [w] is the whole body
    and how it ends, [r] what is left of it. *)
Definition read_spec (w : list Z * option VmError) (op : read_op) (r : list Z) (v : read_result) (r' : list Z) : Prop :=
  match op, v with
  | ReadNextChunk n, GotBytes c => r = c ++ r' /\ len c <= n /\ (c = [] -> n = 0 \/ r = [] /\ w.2 = None)
  | ReadNextLine, GotBytes l => (10 ∉ l) /\ (r = l ++ (10 :: r') \/ r = l /\ r' = [] /\ w.2 = None)
  | ReadAll, GotBytes b => b = w.1 /\ w.2 = None /\ r' = r
  | ReadAllAndConsume, GotBytes b => b = w.1 /\ w.2 = None /\ r' = []
  | AskEof, GotEof b => b = bool_decide (r = [] /\ w.2 = None) /\ r' = r
  | _, _ => False
  end.

(** The outcome of a run from [st] and [src]: the body stays what it was, the
    result is one the specification allows, an error is the source's. *)
Definition read_post (op : read_op) st src (o : run read_result) : Prop :=
  exists r st' src', o = Some (r, (st', src')) /\ ok st' src' /\
    match r with
    | Ok v => whole st' src' = whole st src /\ read_spec (whole st src) op (rest st src) v (rest st' src')
    | Err e => (whole st src).2 = Some e
    end.

Lemma stop_at_eof st : exhausted st && negb (eof_reached st) = true -> eof_reached st = false.
Proof. intros [_ He]%andb_true_iff. by apply negb_true_iff. Qed.

Lemma whole_eof st src : eof_reached st = true -> whole st src = (buffered st, None).
Proof. unfold whole. by intros ->. Qed.

Lemma buffered_whole st src : len (buffered st) <= len (whole st src).1.
Proof.
  unfold whole. destruct (eof_reached st); cbn [fst]; [lia|]. rewrite len_app.
  pose proof (len_nonneg (source_view src).1). lia.
Qed.

Lemma read_next_chunk_spec n st src :
  ok st src -> 0 <= n -> len (whole st src).1 <= U64_MAX ->
  read_post (ReadNextChunk n) st src (read (ReadNextChunk n) st src).
Proof.
  intros Hok Hn Hmax. cbn [read]. unfold read_next_chunk, ensure_readable_byte.
  destruct (pull_while_spec (fun st => exhausted st && negb (eof_reached st)) st src stop_at_eof Hok)
    as (r & st' & src' & -> & Hok' & Ho & Hr). cbn [mbind option_bind].
  destruct r as [[]|e]; [|by exists (Err e), st', src']. destruct Hr as [Hc Hw].
  destruct (exhausted st') eqn:He; cbn [map_result].
  - destruct (readable _ src' Hok' ltac:(by rewrite He) He) as [Heof Hrest].
    exists (Ok (GotBytes [])), st', src'. split_and!; [done..|]. rewrite Hrest. cbn.
    rewrite (rest_same_offset st' st src' src), Hrest by done. split_and!; [done..|].
    right. by rewrite <-Hw, whole_eof.
  - set (e := Z.min _ _). pose proof (ok_offset _ _ Hok') as Hoff.
    assert (Hlt : read_offset st' < len (buffered st')) by (unfold exhausted in He; lia).
    assert (Hb : len (buffered st') <= U64_MAX).
    { rewrite <-Hw in Hmax. pose proof (buffered_whole st' src'). lia. }
    assert (Hel : e = Z.min (read_offset st' + n) (len (buffered st'))) by (unfold e, saturating_add_u64; lia).
    clearbody e. replace e with (read_offset st' + (e - read_offset st')) at 2 by lia.
    destruct (advance st' src' (e - read_offset st') Hok' ltac:(lia) ltac:(lia)) as (Hok2 & Hw2 & Hr2 & Hl2).
    eexists (Ok (GotBytes _)), _, src'. split; [reflexivity|]. split; [done|]. split; [by rewrite Hw2|].
    cbn [read_spec]. rewrite <-(rest_same_offset st st' src src') by done. split; [exact Hr2|].
    split; [lia|]. intros Hnil. rewrite Hnil in Hl2. rewrite len_nil in Hl2. left. lia.
Qed.

Lemma line_ready_spec st src line st' :
  ok st src -> len (whole st src).1 <= U64_MAX -> line_ready st = Some (line, st') ->
  ok st' src /\ whole st' src = whole st src
  /\ read_spec (whole st src) ReadNextLine (rest st src) (GotBytes line) (rest st' src).
Proof.
  intros Hok Hmax. pose proof (ok_offset _ _ Hok) as Ho. unfold line_ready.
  assert (Hb : len (buffered st) <= U64_MAX) by (pose proof (buffered_whole st src); lia).
  rewrite Z.min_l by lia. change (drop _ (buffered st)) with (unread st).
  destruct (Z.ltb_spec (read_offset st) (len (buffered st))) as [Hlt|Hge].
  - assert (Hlen : len (unread st) = len (buffered st) - read_offset st)
      by (unfold unread, len in *; rewrite length_drop; lia).
    destruct (find_newline (unread st)) as [k|] eqn:Hk.
    + apply find_newline_Some in Hk as [Hn Hl]. intros [= <- <-].
      assert (Hk : Z.of_nat k + 1 <= len (unread st)).
      { apply lookup_lt_Some in Hl. unfold len. lia. }
      replace (saturating_add_u64 (read_offset st + Z.of_nat k) 1) with (read_offset st + (Z.of_nat k + 1))
        by (unfold saturating_add_u64; lia).
      destruct (advance st src (Z.of_nat k + 1) Hok ltac:(lia) ltac:(lia)) as (Hok2 & Hw2 & Hr2 & Hl2).
      split_and!; [done..|]. cbn [read_spec]. split; [done|]. left. rewrite Hr2 at 1.
      replace (Z.to_nat (Z.of_nat k + 1)) with (Datatypes.S k) by lia. rewrite (take_S_r _ _ 10) by done. by rewrite <-app_assoc.
    + destruct (eof_reached st) eqn:He; [|done]. intros [= <- <-].
      replace (len (buffered st)) with (read_offset st + (len (buffered st) - read_offset st)) by lia.
      destruct (advance st src (len (buffered st) - read_offset st) Hok ltac:(lia) ltac:(lia)) as (Hok2 & Hw2 & Hr2 & Hl2).
      split_and!; [done..|]. cbn [read_spec]. split; [by apply find_newline_None|]. right.
      rewrite whole_eof by done. split_and!; [by rewrite rest_unread, He, app_nil_r| |done].
      rewrite rest_unread by done. cbn. rewrite He, app_nil_r. unfold unread. cbn. apply drop_ge. unfold len. lia.
  - destruct (eof_reached st) eqn:He; [|done]. intros [= <- <-].
    assert (Hr : rest st src = []) by (apply readable; [done|by rewrite He, andb_false_r|unfold exhausted; lia]).
    rewrite Hr. split_and!; [done..|]. cbn. split; [set_solver|]. right. by rewrite whole_eof.
Qed.

Lemma line_ready_eof st : line_ready st = None -> eof_reached st = false.
Proof. unfold line_ready. by repeat case_match. Qed.

Lemma read_next_line_spec st src :
  ok st src -> len (whole st src).1 <= U64_MAX -> read_post ReadNextLine st src (read ReadNextLine st src).
Proof.
  assert (forall fuel st src, ok st src -> len (whole st src).1 <= U64_MAX ->
    (if eof_reached st then 0 < fuel else 1 + source_size src < fuel)%nat ->
    read_post ReadNextLine st src (map_result GotBytes (read_line_loop fuel st src))) as Hgen.
  { induction fuel as [|fuel IH]; intros st0 src0 Hok Hmax Hf; cbn [read_line_loop];
      destruct (line_ready st0) as [[line st1]|] eqn:Hl.
    1, 3: destruct (line_ready_spec _ _ _ _ Hok Hmax Hl) as (Hok1 & Hw & Hs);
      by exists (Ok (GotBytes line)), st1, src0.
    - destruct (eof_reached st0); lia.
    - pose proof (line_ready_eof _ Hl) as He. rewrite He in Hf.
      destruct (pull_next_progress src0 (ok_source _ _ Hok)) as (r & src1 & Hp & _). rewrite Hp. cbn [mbind option_bind].
      pose proof (apply_pull_spec _ _ _ _ Hok He Hp) as Ha. destruct r as [p|e]; [|by exists (Err e), st0, src1].
      destruct Ha as (Hok1 & Hw & Ho & _ & Hlt).
      destruct (IH (apply_pull p st0) src1 Hok1) as (r & st' & src' & -> & Hok' & Hr);
        [by rewrite Hw|destruct (eof_reached (apply_pull p st0)); [lia|]; destruct Hlt; [done|lia]|].
      exists r, st', src'. rewrite Hw, (rest_same_offset st0 _ src0 src1) in Hr by done. done. }
  intros Hok Hmax. apply Hgen; [done..|]. unfold fuel_of. destruct (eof_reached st); lia.
Qed.

Lemma read_all_spec st src :
  ok st src -> exists r st' src', read_all st src = Some (r, (st', src')) /\ ok st' src' /\
    match r with
    | Ok b => b = (whole st src).1 /\ (whole st src).2 = None /\ eof_reached st' = true /\ buffered st' = b
        /\ whole st' src' = whole st src /\ read_offset st' = read_offset st
    | Err e => (whole st src).2 = Some e
    end.
Proof.
  intros Hok. unfold read_all.
  destruct (pull_while_spec (fun st => negb (eof_reached st)) st src) as (r & st' & src' & -> & Hok' & Ho & Hr);
    [by intros ? ?%negb_true_iff|done|]. cbn [mbind option_bind].
  eexists _, st', src'. split; [done|]. split; [done|]. destruct r; [|done]. destruct Hr as [Hc Hw].
  apply negb_false_iff in Hc. rewrite <-Hw, whole_eof by done. done.
Qed.

Lemma eof_spec st src : ok st src -> read_post AskEof st src (read AskEof st src).
Proof.
  intros Hok. cbn [read]. unfold eof.
  destruct (pull_while_spec (fun st => exhausted st && negb (eof_reached st)) st src stop_at_eof Hok)
    as (r & st' & src' & -> & Hok' & Ho & Hr). cbn [mbind option_bind map_result].
  destruct r as [[]|e]; [|by exists (Err e), st', src']. destruct Hr as [Hc Hw].
  eexists (Ok (GotEof _)), st', src'. split; [reflexivity|]. split; [done|]. split; [done|]. cbn [read_spec].
  rewrite (rest_same_offset st st' src src') by done. split; [|done].
  rewrite <-Hw, <-(rest_same_offset st st' src src') by done. destruct (exhausted st') eqn:He.
  - destruct (readable _ src' Hok' ltac:(by rewrite He) He) as [Heof Hrest].
    rewrite Heof, Hrest, whole_eof by done. by rewrite bool_decide_true.
  - rewrite andb_false_r. symmetry. apply bool_decide_eq_false. intros [Hn _].
    rewrite rest_unread in Hn by done. apply app_eq_nil in Hn as [Hn _]. apply (f_equal length) in Hn.
    unfold unread in Hn. rewrite length_drop in Hn. unfold exhausted, len in He.
    pose proof (ok_offset _ _ Hok'). cbn in Hn. unfold len in *. lia.
Qed.

Definition op_ok (op : read_op) : Prop := match op with ReadNextChunk n => 0 <= n | _ => True end.

Lemma read_sound op st src :
  ok st src -> op_ok op -> len (whole st src).1 <= U64_MAX -> read_post op st src (read op st src).
Proof.
  intros Hok Hop Hmax. destruct op as [n| | | |].
  - by apply read_next_chunk_spec.
  - by apply read_next_line_spec.
  - cbn [read]. destruct (read_all_spec st src Hok) as (r & st' & src' & -> & Hok' & Hr). cbn [map_result].
    destruct r as [b|e]; [|by exists (Err e), st', src']. destruct Hr as (-> & He & _ & _ & Hw & Ho).
    exists (Ok (GotBytes (whole st src).1)), st', src'. split_and!; [done..|]. cbn.
    by rewrite (rest_same_offset st st' src src').
  - cbn [read]. unfold read_all_and_consume.
    destruct (read_all_spec st src Hok) as (r & st' & src' & -> & Hok' & Hr). cbn [mbind option_bind].
    destruct r as [b|e]; [|by exists (Err e), st', src']. destruct Hr as (-> & He & Heof & Hb & Hw & Ho).
    cbn [map_result]. eexists (Ok (GotBytes _)), _, src'. split; [reflexivity|].
    pose proof (ok_offset _ _ Hok'). pose proof (len_nonneg (buffered st')).
    split; [destruct Hok'; split; [done|cbn; lia|done]|]. split; [done|]. cbn [read_spec]. split_and!; [done..|].
    unfold rest. rewrite whole_eof by done. cbn. apply drop_ge. unfold len. lia.
  - by apply eof_spec.
Qed.

(** C19. Reading a body returns exactly the body.  Every read terminates,
    whatever the source does; its result is one the body alone allows: a chunk
    is a non-empty prefix of what is left of at most the asked size, a line is
    what precedes the next newline, or the unterminated rest at the end, a full
    read is the whole body from its first byte, and the end is reported exactly
    when nothing is left and the source has not failed.  The body stays what it
    was, however the reads are mixed and however the source splits it; an error
    is the source's own. *)
Theorem body_reads_refine op st src :
  ok st src -> op_ok op -> len (whole st src).1 <= U64_MAX ->
  exists r st' src', read op st src = Some (r, (st', src')) /\ ok st' src' /\
    match r with
    | Ok v => whole st' src' = whole st src /\ read_spec (whole st src) op (rest st src) v (rest st' src')
    | Err e => (whole st src).2 = Some e
    end.
Proof. exact (read_sound op st src). Qed.
End stream.

(** ** The inbound request body *)

(** A frame of an [http_body]; [OtherFrame] is neither data nor trailers. *)
Inductive Frame (M : Type) :=
| FrameData (data : list Z)
| FrameTrailers (trailers : M)
| OtherFrame.
Arguments FrameData {M}. Arguments FrameTrailers {M}. Arguments OtherFrame {M}.

Section inbound.
Context {M : Type}.

(** [Option<Body>]: the frames the body will yield, or the errors it reports. *)
Definition InboundRequestBodySource := option (list (result string (Frame M))).

Definition inbound_pull (s : InboundRequestBodySource) : vm_result BufferedByteStreamPull * InboundRequestBodySource :=
  match s with
  | None => (Ok Eof, None)
  | Some (Ok (FrameData l) :: fs) => (Ok (Chunk l), Some fs)
  | Some (Ok _ :: fs) => (Ok Skip, Some fs)
  | Some (Err e :: fs) => (Err (HostError ("failed to read inbound request body frame: " +:+ e)), Some fs)
  | Some [] => (Ok Eof, None)
  end.

#[export] Instance inbound_source : BufferedByteSource InboundRequestBodySource := {
  pull_next s := Some (inbound_pull s);
  source_size s := length (default [] s);
}.
#[export] Instance inbound_source_laws : SourceLaws InboundRequestBodySource.
Proof.
  refine {| valid _ := True |}. intros s _. destruct s as [[|[[l|t|]|e] fs]|]; eexists _, _; (split; [reflexivity|]); cbn; (split; [done|]); (done || lia || by eexists).
Defined.

(** The data of a body that does not fail. *)
Fixpoint frames_data (fs : list (result string (Frame M))) : list Z :=
  match fs with
  | Ok (FrameData l) :: fs => l ++ frames_data fs
  | Ok _ :: fs => frames_data fs
  | _ => []
  end.
Fixpoint frames_error (fs : list (result string (Frame M))) : option VmError :=
  match fs with
  | Ok _ :: fs => frames_error fs
  | Err e :: _ => Some (HostError ("failed to read inbound request body frame: " +:+ e))
  | [] => None
  end.

Lemma inbound_view fs : source_view (Some fs : InboundRequestBodySource) = (frames_data fs, frames_error fs).
Proof.
  induction fs as [|[[l|t|]|e] fs IH]; [done|..].
  all: match goal with |- @source_view ?S ?H ?s = _ => rewrite (source_view_step (S:=S) (HL:=inbound_source_laws) s _ _ I eq_refl) end.
  all: cbn [frames_data frames_error]; try (rewrite IH); done.
Qed.

Record InboundRequestBodyState := MkInbound {
  source : InboundRequestBodySource;
  stream : BufferedByteStream;
}.
Definition new_inbound (body : list (result string (Frame M))) : InboundRequestBodyState :=
  MkInbound (Some body) default_stream.

(** [read_next_chunk], [read_next_line], [read_all], [read_all_and_consume], [eof] *)
Definition inbound_read (op : read_op) (b : InboundRequestBodyState)
    : option (vm_result read_result * InboundRequestBodyState) :=
  match read op b.(stream) b.(source) with
  | Some (r, (st, src)) => Some (r, MkInbound src st)
  | None => None
  end.

Definition is_drained (b : InboundRequestBodyState) : bool :=
  b.(stream).(eof_reached) && exhausted b.(stream).
Definition is_pristine_unread (b : InboundRequestBodyState) : bool :=
  bool_decide (b.(stream).(buffered) = []) && (b.(stream).(read_offset) =? 0) && negb b.(stream).(eof_reached).

(** *** What a read does to the downstream transport *)

Record DownstreamTransport := MkTransport {
  is_http3 : bool;                       (** the carrier of the request is an HTTP/3 stream *)
  request_body_read : bool;              (** [vm_touches.request_body_read] *)
  tcp_downstream : TcpFlow.TcpFlowState;
  tls_downstream : TlsFlow.TlsFlowState;
}.
#[export] Instance eta_transport : Eta DownstreamTransport := fun t =>
  MkTransport t.(is_http3) t.(request_body_read) t.(tcp_downstream) t.(tls_downstream).

Definition mark_downstream_transport_closed (t : DownstreamTransport) : DownstreamTransport :=
  if t.(is_http3) then t
  else t <| tcp_downstream := TcpFlow.mark_closed t.(tcp_downstream) |>
         <| tls_downstream := TlsFlow.mark_closed t.(tls_downstream) |>.
Definition mark_downstream_transport_failed (message : string) (t : DownstreamTransport) : DownstreamTransport :=
  if t.(is_http3) then t
  else t <| tcp_downstream := TcpFlow.mark_failed message t.(tcp_downstream) |>
         <| tls_downstream := TlsFlow.mark_failed t.(tls_downstream) |>.

(** [VmError]'s [Display]; the message of the vm crate's other errors is its
    own. *)
Context (vm_error_display : VmError -> string).

Definition finalize (close : bool) {A} (r : vm_result A) (t : DownstreamTransport) : vm_result A * DownstreamTransport :=
  let t := t <| request_body_read := true |> in
  match r with
  | Ok a => (Ok a, if close then mark_downstream_transport_closed t else t)
  | Err e => (Err e, mark_downstream_transport_failed (vm_error_display e) t)
  end.

(** [finalize_downstream_body_all_result], [finalize_downstream_body_read_result]
    and [finalize_downstream_body_eof_result]. *)
Definition closes (op : read_op) (b : InboundRequestBodyState) (r : vm_result read_result) : bool :=
  match op, r with
  | (ReadAll | ReadAllAndConsume), _ => true
  | (ReadNextChunk _ | ReadNextLine), Ok (GotBytes bytes) => bool_decide (bytes = []) || is_drained b
  | AskEof, Ok (GotEof e) => e
  | _, _ => false
  end.

(** [read_request_body_all], [consume_request_body_all],
    [read_request_body_next_chunk], [read_request_body_next_line] and
    [request_body_eof]. *)
Definition read_request_body (op : read_op) (b : InboundRequestBodyState) (t : DownstreamTransport)
    : option (vm_result read_result * InboundRequestBodyState * DownstreamTransport) :=
  match inbound_read op b with
  | Some (r, b) => let '(r, t) := finalize (closes op b r) r t in Some (r, b, t)
  | None => None
  end.

(** A blank line, or a read of no bytes, counts as the end of the body: the
    transport is marked closed while more is to come. *)
Theorem blank_line_closes_transport :
  let t := MkTransport false false TcpFlow.downstream_ready TlsFlow.default_flow in
  exists b t', read_request_body ReadNextLine (new_inbound [Ok (FrameData [10; 104; 105])]) t
    = Some (Ok (GotBytes []), b, t')
    /\ TcpFlow.phase (tcp_downstream t') = TcpFlow.Closed /\ rest b.(stream) b.(source) = [104; 105].
Proof. eexists _, _. split; [by vm_compute|]. by vm_compute. Qed.
End inbound.
Arguments InboundRequestBodySource : clear implicits.
Arguments InboundRequestBodyState : clear implicits.

Lemma body_reads_refine_witness :
  let fs : InboundRequestBodySource unit := Some [Ok (FrameData [104; 105; 10; 33]); Ok OtherFrame] in
  exists r st' src', read ReadNextLine default_stream fs = Some (r, (st', src'))
    /\ r = Ok (GotBytes [104; 105]) /\ rest st' src' = [33]
    /\ match r with
       | Ok v => read_spec (whole default_stream fs) ReadNextLine (rest default_stream fs) v (rest st' src')
       | Err e => False
       end.
Proof.
  intros fs. destruct (body_reads_refine ReadNextLine default_stream fs) as (r & st' & src' & Hr & _ & Hs).
  - split; [exact I|done|done].
  - exact I.
  - by vm_compute.
  - exists r, st', src'. split; [done|]. vm_compute in Hr. injection Hr as <- <- <-.
    split; [done|]. split; [by vm_compute|]. exact (proj2 Hs).
Defined.
End BodyStream.
