(* ===== verification/UpstreamBody.v ===== *)
(** Model of the body of an upstream response
    ([src/abi_impl/http/state/upstream_body.rs]): where it comes from, what it
    tells the HTTP/2 or HTTP/3 session it belongs to, and how it is passed on to
    the downstream response after a program has read any part of it. *)

From S2P Require Import Prelude Bytes TlsFlow Http1Text Http1Io HttpHeaders Http1SenderPool Http1ResponseBody Http2Session BodyStream.

Module UpstreamBody.
Import HttpHeaders Http1SenderPool Http1ResponseBody BodyStream.

(** The calls on an [Http2ResponseBodyTracker] or [Http3ResponseBodyTracker]. *)
Inductive body_note :=
| NoteReady
| NoteEof
| NoteError (observed : Http2Session.Http2ObservedError).

(** A tracker is the calls made on it so far. *)
Abbreviation tracker := (list body_note).
Definition call (n : body_note) (t : option tracker) : option tracker := (fun l => l ++ [n]) <$> t.

Section body.
Context {M : Type} `{HM : HeaderMap M} `{HC : HttpCrate}.

(** What hyper, the HTTP/1 client and h3 will yield; a failed [recv_data] is the
    message of its classified error. *)
Inductive UpstreamResponseSource :=
| Hyper (frames : list (result Http2Session.Http2ObservedError (Frame M)))
| PlainHttp1 (body : PlainHttp1ResponseBody M)
| Http3 (chunks : list (result string (list Z)))
| Exhausted.

(** With the pool its leases share. *)
Record UpstreamResponseBodySource := MkSource {
  source : UpstreamResponseSource;
  http2_tracker : option tracker;
  http3_tracker : option tracker;
  plain_http1_sender_lease : option (PlainHttp1SenderLease Http1Io.Connection);
  remaining_body_bytes : option Z;
  body_started : bool;
  body_finished : bool;
  trailers : option M;
  shared_pool : PlainHttp1SenderPool Http1Io.Connection;
}.
#[export] Instance eta_source : Eta UpstreamResponseBodySource := fun s =>
  MkSource s.(source) s.(http2_tracker) s.(http3_tracker) s.(plain_http1_sender_lease)
    s.(remaining_body_bytes) s.(body_started) s.(body_finished) s.(trailers) s.(shared_pool).

Definition default_source (p : PlainHttp1SenderPool Http1Io.Connection) : UpstreamResponseBodySource :=
  MkSource Exhausted None None None None false false None p.

Definition note_body_ready (s : UpstreamResponseBodySource) : UpstreamResponseBodySource :=
  if s.(body_started) then s
  else s <| http2_tracker := call NoteReady s.(http2_tracker) |>
         <| http3_tracker := call NoteReady s.(http3_tracker) |>
         <| body_started := true |>.

Definition note_body_complete (s : UpstreamResponseBodySource) : UpstreamResponseBodySource :=
  let s := note_body_ready s in
  if s.(body_finished) then s
  else
    let s := s <| http2_tracker := call NoteEof s.(http2_tracker) |>
               <| http3_tracker := call NoteEof s.(http3_tracker) |> in
    let s := match s.(plain_http1_sender_lease) with
             | Some l =>
                 let '(l, p) := release l s.(shared_pool) in
                 s <| plain_http1_sender_lease := Some l |> <| shared_pool := p |>
             | None => s
             end in
    s <| body_finished := true |>.

Definition note_chunk_delivered (chunk_len : Z) (s : UpstreamResponseBodySource) : UpstreamResponseBodySource :=
  if chunk_len =? 0 then s
  else
    let s := note_body_ready s in
    match s.(remaining_body_bytes) with
    | None => s
    | Some remaining =>
        let remaining := Z.max 0 (remaining - chunk_len) in
        let s := s <| remaining_body_bytes := Some remaining |> in
        if remaining =? 0 then note_body_complete s else s
    end.

(** The end of the source. *)
Definition finish (s : UpstreamResponseBodySource) : vm_result BufferedByteStreamPull * UpstreamResponseBodySource :=
  (Ok Eof, note_body_complete s <| source := Exhausted |>).
Definition deliver (chunk : list Z) (s : UpstreamResponseBodySource)
    : vm_result BufferedByteStreamPull * UpstreamResponseBodySource :=
  (Ok (Chunk chunk), note_chunk_delivered (len chunk) s).

Definition upstream_pull (s : UpstreamResponseBodySource)
    : option (vm_result BufferedByteStreamPull * UpstreamResponseBodySource) :=
  match s.(source) with
  | Hyper [] => Some (finish s)
  | Hyper (f :: fs) =>
      let s := s <| source := Hyper fs |> in
      match f with
      | Ok (FrameData chunk) => Some (deliver chunk s)
      | Ok (FrameTrailers t) => Some (finish (s <| trailers := Some t |>))
      | Ok OtherFrame => Some (Ok Skip, s)
      | Err observed =>
          Some (Err (HostError ("failed to read upstream response frame: " +:+ Http2Session.message observed)),
                s <| http2_tracker := call (NoteError observed) s.(http2_tracker) |>)
      end
  | PlainHttp1 b =>
      match Http1ResponseBody.pull_next (MkState b s.(shared_pool)) with
      | None => None
      | Some (r, st) =>
          let s := s <| source := PlainHttp1 st.(body) |> <| shared_pool := st.(pool) |> in
          match r with
          | Err e => Some (Err e, s)
          | Ok (Some chunk) => Some (deliver chunk s)
          | Ok None => Some (finish (s <| trailers := (take_trailers st.(body)).1 |>))
          end
      end
  | Http3 [] => Some (finish s)
  | Http3 (c :: cs) =>
      let s := s <| source := Http3 cs |> in
      match c with
      | Ok chunk => Some (deliver chunk s)
      | Err message => Some (Err (HostError ("failed to read upstream http3 response frame: " +:+ message)), s)
      end
  | Exhausted => Some (Ok Eof, s)
  end.

Definition raw_size (s : UpstreamResponseSource) (p : PlainHttp1SenderPool Http1Io.Connection) : nat :=
  match s with
  | Hyper fs => length fs
  | PlainHttp1 b => body_size (MkState b p)
  | Http3 cs => length cs
  | Exhausted => 0
  end.

#[export] Instance upstream_source : BufferedByteSource UpstreamResponseBodySource := {
  BodyStream.pull_next := upstream_pull;
  source_size s := raw_size s.(source) s.(shared_pool);
}.

(** ** Every source ends *)

(** A body as the head of a response builds it, and what becomes of it. *)
Definition plain_ok (b : PlainHttp1ResponseBody M) : Prop :=
  kind b = Done \/ lease_connection (lease b) = None \/ open_kind (kind b).

Lemma pull_step_end s r s' :
  pull_step s = Return r s' -> match r with Ok (Some _) => True | _ => kind (body s') = Done end.
Proof.
  unfold pull_step, pull_data, pull_line, with_connection, read_more, record_trailer_line, read_failed, dirty_error, host_error.
  intros Hs. repeat (case_match; simplify_eq/=; try done).
  unfold body_release. by destruct (release _ _).
Qed.

Lemma pull_loop_end fuel s r s' :
  pull_loop fuel s = Some (r, s') -> match r with Ok (Some _) => True | _ => kind (body s') = Done end.
Proof.
  revert s. induction fuel as [|fuel IH]; intros s; [done|]. cbn [pull_loop].
  destruct (pull_step s) as [s1|r1 s1] eqn:Hs; [apply IH|]. intros [= <- <-]. by eapply pull_step_end.
Qed.

Lemma chunked_wire_nonempty data wire : Http1Io.chunked_wire data wire -> wire ≠ [].
Proof. intros Hw Hz. destruct Hw; apply (f_equal length) in Hz; rewrite !length_app in Hz; cbn in Hz; lia. Qed.

Lemma body_wire_nil k d : body_wire k d [] -> d = [].
Proof.
  intros Hw. inversion Hw as [|? ? Hc|d' ? ? Hc|? ? Hc| |]; subst; try done.
  - by apply chunked_wire_nonempty in Hc.
  - by destruct d'.
Qed.

Lemma plain_pull b p :
  plain_ok b -> exists r st, Http1ResponseBody.pull_next (MkState b p) = Some (r, st) /\ plain_ok (body st) /\
    match r with Ok (Some chunk) => chunk ≠ [] /\ (body_size st < body_size (MkState b p))%nat | _ => True end.
Proof.
  intros Hb. assert (kind b = Done \/ kind b ≠ Done) as [Hd|Hd] by (destruct (kind b); [by left|by right..]).
  { unfold Http1ResponseBody.pull_next. rewrite Nat.add_comm. cbn [pull_loop Nat.add]. unfold pull_step. cbn [body]. rewrite Hd.
    eexists _, _. split; [done|]. split; [by left|done]. }
  destruct b as [[key cap reuse dirty [c|]] k t].
  - destruct Hb as [?|[?|Hk]]; [done|done|]. cbn in Hd, Hk.
    destruct (pull_loop_sound key cap reuse dirty p (body_size (MkState (MkBody (MkLease key cap reuse dirty (Some c)) k t) p) + 2) c k t)
      as (r & st & Hp & Hr); [done|unfold body_size; cbn; destruct k as [| |[]|]; cbn; lia|].
    exists r, st. split; [exact Hp|]. pose proof (pull_loop_end _ _ _ _ Hp) as He.
    destruct r as [[chunk|]|e]; [|split; [by left|done]..]. destruct Hr as (Hne & consumed & c' & Hr). split.
    + destruct Hr as [(k' & t' & -> & (_ & Hk' & _) & _)|(_ & _ & t' & ->)]; [by right; right|by left].
    + split; [done|]. assert (0 < length chunk)%nat by (destruct chunk; [done|cbn; lia]).
      destruct Hr as [(k' & t' & -> & _ & Hsz)|(Ht & Hw & t' & ->)]; unfold body_size; cbn; [lia|].
      enough (0 < length (Http1Io.total c))%nat by (unfold Http1Io.conn_size; lia).
      rewrite Ht, length_app. enough (consumed ≠ []) by (destruct consumed; [done|cbn; lia]).
      intros ->. by apply body_wire_nil in Hw.
  - unfold Http1ResponseBody.pull_next, body_size. cbn [body lease lease_connection pull_loop Nat.add].
    destruct k as [|n|[|n| |]|]; try done; unfold pull_step; cbn [body kind].
    all: try destruct (n =? 0); cbn; eexists _, _; (split; [reflexivity|]); (split; [by left|done]).
Qed.

Lemma note_ready_same s :
  source (note_body_ready s) = source s /\ trailers (note_body_ready s) = trailers s.
Proof. unfold note_body_ready. by destruct (body_started s). Qed.
Lemma note_complete_same s :
  source (note_body_complete s) = source s /\ trailers (note_body_complete s) = trailers s.
Proof.
  unfold note_body_complete. destruct (note_ready_same s) as [Hs Ht]. destruct (body_finished _); [done|].
  cbn. destruct (plain_http1_sender_lease _) as [l|]; [destruct (release l _)|]; done.
Qed.
Lemma note_chunk_same n s :
  source (note_chunk_delivered n s) = source s /\ trailers (note_chunk_delivered n s) = trailers s.
Proof.
  unfold note_chunk_delivered. destruct (n =? 0); [done|]. destruct (note_ready_same s) as [Hs Ht].
  destruct (remaining_body_bytes _); [|done]. case_match; [|done].
  match goal with |- context [note_body_complete ?x] => destruct (note_complete_same x) as [-> ->] end. done.
Qed.

Lemma raw_size_pool src p q : raw_size src p = raw_size src q.
Proof. by destruct src. Qed.

Definition upstream_valid (s : UpstreamResponseBodySource) : Prop :=
  match source s with PlainHttp1 b => plain_ok b | _ => True end.

Lemma upstream_pull_progress s :
  upstream_valid s -> exists r s', upstream_pull s = Some (r, s') /\ upstream_valid s' /\
    match r with
    | Ok (Chunk _) | Ok Skip => (raw_size (source s') (shared_pool s') < raw_size (source s) (shared_pool s))%nat
    | Ok Eof => source s' = Exhausted
    | Err _ => True
    end.
Proof.
  unfold upstream_valid, upstream_pull, finish, deliver. destruct (source s) as [[|f fs]|b|[|c cs]|] eqn:Hs; intros Hv.
  - eexists _, _. by split.
  - destruct f as [[l|t|]|e]; (eexists _, _; split; [reflexivity|]); cbn; rewrite ?(proj1 (note_chunk_same _ _)); cbn;
      (split; [done|]); (done || lia).
  - destruct (plain_pull b (shared_pool s) Hv) as (r & [b' p'] & -> & Hb & Hr). cbn in Hb.
    destruct r as [[chunk|]|e]; (eexists _, _; split; [reflexivity|]).
    + rewrite (proj1 (note_chunk_same _ _)). cbn. by destruct Hr.
    + cbn. done.
    + cbn. done.
  - eexists _, _. by split.
  - destruct c as [l|e]; (eexists _, _; split; [reflexivity|]); cbn; rewrite ?(proj1 (note_chunk_same _ _)); cbn;
      (split; [done|]); (done || lia).
  - eexists _, _. split; [done|]. by rewrite Hs.
Qed.

#[export] Instance upstream_source_laws : SourceLaws UpstreamResponseBodySource.
Proof.
  refine {| valid := upstream_valid |}. intros s Hv. destruct (upstream_pull_progress s Hv) as (r & s' & Hp & Hv' & Hr).
  exists r, s'. split; [exact Hp|]. split; [done|]. destruct r as [[| |]|]; [done|done| |done].
  exists s'. change (upstream_pull s' = Some (Ok Eof, s')). unfold upstream_pull. by rewrite Hr.
Defined.

(** ** The response body *)

Record UpstreamResponseBodyState := MkBodyState {
  body_source : UpstreamResponseBodySource;
  stream : BufferedByteStream;
}.

Definition upstream_response_body_source (src : UpstreamResponseSource) (h2 h3 : option tracker)
    (l : option (PlainHttp1SenderLease Http1Io.Connection)) (content_length : option Z)
    (p : PlainHttp1SenderPool Http1Io.Connection) : UpstreamResponseBodySource :=
  let s := MkSource src h2 h3 l content_length false false None p in
  if bool_decide (content_length = Some 0) then note_body_complete s else s.

Definition empty (p : PlainHttp1SenderPool Http1Io.Connection) : UpstreamResponseBodyState :=
  MkBodyState (default_source p) (default_stream <| eof_reached := true |>).

Definition from_hyper (frames : list (result Http2Session.Http2ObservedError (Frame M))) (h2 : option tracker)
    (l : option (PlainHttp1SenderLease Http1Io.Connection)) (content_length : option Z)
    (p : PlainHttp1SenderPool Http1Io.Connection) : UpstreamResponseBodyState :=
  if bool_decide (content_length = Some 0) then
    empty (match l with Some l => (release l p).2 | None => p end)
  else MkBodyState (upstream_response_body_source (Hyper frames) h2 None l content_length p) default_stream.

Definition from_plain_http1 (b : PlainHttp1ResponseBody M) (content_length : option Z)
    (p : PlainHttp1SenderPool Http1Io.Connection) : UpstreamResponseBodyState :=
  if bool_decide (content_length = Some 0) then empty p
  else MkBodyState (upstream_response_body_source (PlainHttp1 b) None None None content_length p) default_stream.

Definition from_http3 (chunks : list (result string (list Z))) (h3 : option tracker) (content_length : option Z)
    (p : PlainHttp1SenderPool Http1Io.Connection) : UpstreamResponseBodyState :=
  if bool_decide (content_length = Some 0) then empty p
  else MkBodyState (upstream_response_body_source (Http3 chunks) None h3 None content_length p) default_stream.

(** [read_next_chunk], [read_next_line], [read_all] and [eof] *)
Definition upstream_read (op : read_op) (b : UpstreamResponseBodyState)
    : option (vm_result read_result * UpstreamResponseBodyState) :=
  match read op b.(stream) b.(body_source) with
  | Some (r, (st, src)) => Some (r, MkBodyState src st)
  | None => None
  end.

(** [HeaderMap::default] when there are none *)
Definition read_trailers (b : UpstreamResponseBodyState) : option (vm_result M * UpstreamResponseBodyState) :=
  match read_all b.(stream) b.(body_source) with
  | Some (Ok _, (st, src)) => Some (Ok (default hm_new src.(trailers)), MkBodyState src st)
  | Some (Err e, (st, src)) => Some (Err e, MkBodyState src st)
  | None => None
  end.

Definition is_known_empty (b : UpstreamResponseBodyState) : bool :=
  b.(stream).(eof_reached) && bool_decide (b.(stream).(buffered) = []).

(** ** Passing the body on *)

Record StreamingUpstreamResponseBodyState := MkStreaming {
  prefix : option (list Z);
  streaming_source : UpstreamResponseBodySource;
  trailers_sent : bool;
}.
#[export] Instance eta_streaming : Eta StreamingUpstreamResponseBodyState := fun s =>
  MkStreaming s.(prefix) s.(streaming_source) s.(trailers_sent).

(** What is left behind reads as an unread body of a source that has ended. *)
Definition take_streaming_passthrough (b : UpstreamResponseBodyState)
    : StreamingUpstreamResponseBodyState * UpstreamResponseBodyState :=
  (MkStreaming (if bool_decide (b.(stream).(buffered) = []) then None else Some b.(stream).(buffered))
     b.(body_source) false,
   MkBodyState (default_source b.(body_source).(shared_pool)) default_stream).

Definition at_eof (p : StreamingUpstreamResponseBodyState)
    : vm_result (option (Frame M)) * StreamingUpstreamResponseBodyState :=
  match p.(streaming_source).(trailers) with
  | Some t =>
      if p.(trailers_sent) then (Ok None, p)
      else (Ok (Some (FrameTrailers t)),
            p <| streaming_source := p.(streaming_source) <| trailers := None |> |> <| trailers_sent := true |>)
  | None => (Ok None, p)
  end.

Fixpoint next_frame_loop (fuel : nat) (p : StreamingUpstreamResponseBodyState)
    : option (vm_result (option (Frame M)) * StreamingUpstreamResponseBodyState) :=
  match fuel with
  | O => None
  | S fuel =>
      '(r, src) ← upstream_pull p.(streaming_source);
      let p := p <| streaming_source := src |> in
      match r with
      | Err e => Some (Err e, p)
      | Ok (Chunk chunk) =>
          if bool_decide (chunk = []) then next_frame_loop fuel p else Some (Ok (Some (FrameData chunk)), p)
      | Ok Skip => next_frame_loop fuel p
      | Ok Eof => Some (at_eof p)
      end
  end.

Definition streaming_size (p : StreamingUpstreamResponseBodyState) : nat :=
  raw_size p.(streaming_source).(source) p.(streaming_source).(shared_pool).

Definition next_frame (p : StreamingUpstreamResponseBodyState)
    : option (vm_result (option (Frame M)) * StreamingUpstreamResponseBodyState) :=
  let rest := next_frame_loop (1 + streaming_size p) (p <| prefix := None |>) in
  match p.(prefix) with
  | Some l => if bool_decide (l = []) then rest else Some (Ok (Some (FrameData l)), p <| prefix := None |>)
  | None => rest
  end.

(** A consumer of the frames until the end. *)
Fixpoint collect_frames (fuel : nat) (p : StreamingUpstreamResponseBodyState)
    : option (list (Frame M) * vm_result unit * StreamingUpstreamResponseBodyState) :=
  match fuel with
  | O => None
  | S fuel =>
      '(r, p) ← next_frame p;
      match r with
      | Err e => Some ([], Err e, p)
      | Ok None => Some ([], Ok tt, p)
      | Ok (Some f) => '(fs, r, p) ← collect_frames fuel p; Some (f :: fs, r, p)
      end
  end.
Definition all_frames (p : StreamingUpstreamResponseBodyState) := collect_frames (4 + streaming_size p) p.

(** *** The frames are the body *)

(** What pulling the next frame from [p] may give, and leave in [p']. *)
Definition frame_post (p : StreamingUpstreamResponseBodyState) (r : vm_result (option (Frame M)))
    (p' : StreamingUpstreamResponseBodyState) : Prop :=
  let v := source_view p.(streaming_source) in
  upstream_valid p'.(streaming_source) /\ prefix p' = prefix p /\
  match r with
  | Ok (Some (FrameData l)) => l ≠ [] /\ (streaming_size p' < streaming_size p)%nat
      /\ v = (l ++ (source_view (streaming_source p')).1, (source_view (streaming_source p')).2)
  | Ok (Some (FrameTrailers _)) => v = ([], None) /\ source (streaming_source p') = Exhausted /\ trailers_sent p' = true
  | Ok (Some OtherFrame) => False
  | Ok None => v = ([], None)
  | Err e => v = ([], Some e)
  end.

Lemma frame_post_skip p p1 r p' :
  (streaming_size p1 < streaming_size p)%nat -> prefix p1 = prefix p ->
  source_view (streaming_source p) = source_view (streaming_source p1) -> frame_post p1 r p' -> frame_post p r p'.
Proof.
  unfold frame_post; cbv zeta. intros Hlt Hpre Hsame (Hv & Hpre' & Hr). split_and!; [done|by rewrite Hpre'|].
  destruct r as [[[l|t|]|]|e]; rewrite ?Hsame; try done. destruct Hr as (? & ? & ?). split_and!; [done|lia|done].
Qed.

Lemma next_frame_loop_spec fuel p :
  upstream_valid (streaming_source p) -> (streaming_size p < fuel)%nat ->
  exists r p', next_frame_loop fuel p = Some (r, p') /\ frame_post p r p'.
Proof.
  revert p. induction fuel as [|fuel IH]; intros p Hv Hf; [lia|]. cbn [next_frame_loop].
  destruct (upstream_pull_progress _ Hv) as (r & src & Hp & Hv' & Hr). rewrite Hp. cbn [mbind option_bind].
  pose proof (source_view_step (HL:=upstream_source_laws) _ _ _ Hv Hp) as Hview.
  set (p1 := p <| streaming_source := src |>).
  assert (Hskip : (streaming_size p1 < streaming_size p)%nat -> source_view (streaming_source p) = source_view src ->
    exists r p', next_frame_loop fuel p1 = Some (r, p') /\ frame_post p r p').
  { intros Hlt Hsame. destruct (IH p1 Hv' ltac:(lia)) as (r1 & p2 & Hn & Hpost).
    exists r1, p2. split; [done|]. by eapply frame_post_skip. }
  destruct r as [[chunk| |]|e].
  - case_bool_decide as Hc; [subst; apply Hskip; [exact Hr|by rewrite Hview; destruct (source_view src)]|].
    by exists (Ok (Some (FrameData chunk))), p1.
  - by apply Hskip.
  - unfold at_eof. cbn [streaming_source p1 set_field]. change (streaming_source p1) with src.
    destruct (trailers src) as [t|] eqn:Ht; [destruct (trailers_sent p1) eqn:Hs|].
    + by exists (Ok None), p1.
    + eexists (Ok (Some (FrameTrailers t))), _. by split.
    + by exists (Ok None), p1.
  - by exists (Err e), p1.
Qed.

(** What the frames of a body with view [v] are. *)
Definition frames_spec (v : list Z * option VmError) (fs : list (Frame M)) (r : vm_result unit) : Prop :=
  exists chunks ts, fs = (FrameData <$> chunks) ++ (FrameTrailers <$> ts)
    /\ Forall (fun c => c ≠ []) chunks /\ concat chunks = v.1 /\ (length ts <= 1)%nat
    /\ match r with Ok _ => v.2 = None | Err e => v.2 = Some e /\ ts = [] end.

Lemma frames_spec_cons l v fs r :
  l ≠ [] -> frames_spec v fs r -> frames_spec (l ++ v.1, v.2) (FrameData l :: fs) r.
Proof.
  intros Hl (chunks & ts & -> & Hne & Hd & Ht & Hr). exists (l :: chunks), ts. cbn. rewrite Hd.
  split_and!; [done|by constructor|done..].
Qed.

Lemma next_frame_no_prefix p : prefix p = None -> next_frame p = next_frame_loop (1 + streaming_size p) p.
Proof. destruct p as [pre src s]. cbn. intros ->. done. Qed.

Lemma ended_view (s : UpstreamResponseBodySource) : source s = Exhausted -> upstream_pull s = Some (Ok Eof, s).
Proof. unfold upstream_pull. by intros ->. Qed.

Lemma collect_ended fuel p :
  prefix p = None -> source (streaming_source p) = Exhausted -> trailers_sent p = true ->
  exists p', collect_frames (S fuel) p = Some ([], Ok tt, p').
Proof.
  intros Hp Hs Ht. cbn [collect_frames]. rewrite next_frame_no_prefix by done.
  cbn [next_frame_loop Nat.add]. rewrite ended_view by done. cbn [mbind option_bind].
  unfold at_eof. cbn. destruct (trailers _); rewrite ?Ht; by eexists.
Qed.

Lemma collect_frames_spec fuel p :
  prefix p = None -> valid (streaming_source p) -> (1 + streaming_size p < fuel)%nat ->
  exists fs r p', collect_frames fuel p = Some (fs, r, p') /\ frames_spec (source_view (streaming_source p)) fs r.
Proof.
  revert p. induction fuel as [|fuel IH]; intros p Hpre Hv Hf; [lia|]. cbn [collect_frames].
  rewrite next_frame_no_prefix by done.
  destruct (next_frame_loop_spec (1 + streaming_size p) p Hv ltac:(lia)) as (r & p1 & -> & Hv1 & Hpre1 & Hr).
  rewrite Hpre in Hpre1. cbn [mbind option_bind]. destruct r as [[[l|t|]|]|e].
  - destruct Hr as (Hl & Hsz & Hview). destruct (IH p1 Hpre1 Hv1 ltac:(lia)) as (fs & r & p2 & -> & Hfs).
    cbn [mbind option_bind]. eexists _, r, p2. split; [done|]. rewrite Hview. by apply frames_spec_cons.
  - destruct Hr as (Hview & Hex & Hsent). destruct fuel as [|fuel]; [lia|].
    destruct (collect_ended fuel p1 Hpre1 Hex Hsent) as [p2 ->]. cbn [mbind option_bind].
    eexists _, (Ok tt), p2. split; [done|]. exists [], [t]. rewrite Hview. by split_and!.
  - done.
  - eexists _, (Ok tt), p1. split; [done|]. exists [], []. rewrite Hr. cbn. split_and!; [done..|lia|done].
  - eexists _, (Err e), p1. split; [done|]. exists [], []. rewrite Hr. by split_and!; cbn; try lia.
Qed.

(** *** Any reads before *)

(** The reads a program makes, up to the first error. *)
Fixpoint upstream_reads (ops : list read_op) (b : UpstreamResponseBodyState)
    : option (vm_result (list read_result) * UpstreamResponseBodyState) :=
  match ops with
  | [] => Some (Ok [], b)
  | op :: ops =>
      match upstream_read op b with
      | Some (Ok v, b) =>
          match upstream_reads ops b with
          | Some (Ok vs, b) => Some (Ok (v :: vs), b)
          | o => o
          end
      | Some (Err e, b) => Some (Err e, b)
      | None => None
      end
  end.

Lemma upstream_reads_spec ops b :
  ok (stream b) (body_source b) -> Forall op_ok ops -> len (whole (stream b) (body_source b)).1 <= U64_MAX ->
  exists r b', upstream_reads ops b = Some (r, b') /\
    match r with
    | Ok _ => ok (stream b') (body_source b')
        /\ whole (stream b') (body_source b') = whole (stream b) (body_source b)
    | Err e => (whole (stream b) (body_source b)).2 = Some e
    end.
Proof.
  intros Hok Hops. revert b Hok. induction Hops as [|op ops Hop Hops IH]; intros b Hok Hmax; cbn [upstream_reads].
  { by exists (Ok []), b. }
  unfold upstream_read at 1.
  destruct (read_sound op (stream b) (body_source b) Hok Hop Hmax) as (r & st & src & -> & Hok1 & Hr).
  destruct r as [v|e]; [|by eexists (Err e), _]. destruct Hr as [Hw _].
  destruct (IH (MkBodyState src st)) as (r & b' & -> & Hr'); [done|cbn; by rewrite Hw|].
  cbn [stream body_source] in Hr'. rewrite Hw in Hr'. destruct r as [vs|e]; by eexists _, b'.
Qed.

Lemma collect_prefix fuel l src sent :
  l ≠ [] -> collect_frames (S fuel) (MkStreaming (Some l) src sent)
  = '(fs, r, p) ← collect_frames fuel (MkStreaming None src sent); Some (FrameData l :: fs, r, p).
Proof.
  intros Hl. assert (Hn : next_frame (MkStreaming (Some l) src sent) = Some (Ok (Some (FrameData l)), MkStreaming None src sent)).
  { unfold next_frame. cbn [prefix]. by rewrite bool_decide_false. }
  cbn [collect_frames]. by rewrite Hn.
Qed.

Lemma passthrough_frames b :
  ok (stream b) (body_source b) ->
  exists fs r p', all_frames (take_streaming_passthrough b).1 = Some (fs, r, p')
    /\ frames_spec (whole (stream b) (body_source b)) fs r.
Proof.
  intros [Hv _ Hend]. unfold take_streaming_passthrough, all_frames. cbn [fst].
  assert (Hw : whole (stream b) (body_source b)
               = (buffered (stream b) ++ (source_view (body_source b)).1, (source_view (body_source b)).2)).
  { unfold whole. destruct (eof_reached _); [|done]. by rewrite Hend, app_nil_r by done. }
  rewrite Hw. case_bool_decide as Hb.
  - rewrite Hb. apply (collect_frames_spec _ (MkStreaming None (body_source b) false)); [done|done|]. unfold streaming_size. cbn. lia.
  - change (4 + _)%nat with (S (3 + streaming_size (MkStreaming None (body_source b) false))).
    rewrite collect_prefix by done.
    destruct (collect_frames_spec (3 + streaming_size (MkStreaming None (body_source b) false))
      (MkStreaming None (body_source b) false)) as (fs & r & p' & -> & Hfs); [done|done|lia|].
    cbn [mbind option_bind]. eexists _, r, p'. split; [done|]. by apply frames_spec_cons.
Qed.

(** C27. A program that looks at an upstream response does not take anything
    from the client: whatever reads it makes first, in chunks, lines, whole or
    asking for the end, passing the body on afterwards terminates and yields
    exactly the upstream's bytes from the first one, in non-empty data frames,
    then at most one trailers frame; an error of the upstream ends it, and
    nothing else does. *)
Theorem passthrough_whole ops b :
  ok (stream b) (body_source b) -> Forall op_ok ops -> len (whole (stream b) (body_source b)).1 <= U64_MAX ->
  exists r b', upstream_reads ops b = Some (r, b') /\
    match r with
    | Err e => (whole (stream b) (body_source b)).2 = Some e
    | Ok _ => exists fs r p', all_frames (take_streaming_passthrough b').1 = Some (fs, r, p')
        /\ frames_spec (whole (stream b) (body_source b)) fs r
    end.
Proof.
  intros Hok Hops Hmax. destruct (upstream_reads_spec ops b Hok Hops Hmax) as (r & b' & Hr & Hs).
  exists r, b'. split; [exact Hr|]. destruct r; [|done]. destruct Hs as [Hok' <-]. by apply passthrough_frames.
Qed.

(** A body of the plain HTTP/1 client gives exactly the data of one well-formed
    body on the connection, unless it fails. *)
Lemma plain_view key cap reuse dirty c k t s :
  source s = PlainHttp1 (MkBody (MkLease key cap reuse dirty (Some c)) k t) -> open_kind k ->
  (source_view s).2 = None ->
  exists consumed c', Http1Io.total c = consumed ++ Http1Io.total c' /\ body_wire k (source_view s).1 consumed.
Proof.
  remember (Http1Io.conn_size c) as n eqn:Hn. revert c k t s Hn.
  induction n as [n IH] using lt_wf_ind. intros c k t s -> Hs Hk.
  assert (Hv : upstream_valid s) by (unfold upstream_valid; rewrite Hs; right; by right).
  destruct (pull_loop_sound key cap reuse dirty (shared_pool s)
    (body_size (MkState (MkBody (MkLease key cap reuse dirty (Some c)) k t) (shared_pool s)) + 2) c k t)
    as (r & st & Hp & Hr); [done|unfold body_size; cbn; destruct k as [| |[]|]; cbn; lia|].
  destruct (upstream_pull s) as [[r1 s1]|] eqn:Hpull.
  2: { unfold upstream_pull in Hpull. rewrite Hs in Hpull. unfold Http1ResponseBody.pull_next in Hpull.
       rewrite Hp in Hpull. by destruct r as [[]|]. }
  rewrite (source_view_step (HL:=upstream_source_laws) _ _ _ Hv Hpull).
  unfold upstream_pull in Hpull. rewrite Hs in Hpull. unfold Http1ResponseBody.pull_next in Hpull. rewrite Hp in Hpull.
  destruct r as [[chunk|]|e]; [| |by injection Hpull as <- <-].
  - unfold deliver in Hpull. injection Hpull as <- <-. intros Hend. cbn [fst snd] in Hend |- *.
    set (s2 := note_chunk_delivered _ _) in *. assert (Hs2 : source s2 = PlainHttp1 (body st)) by apply note_chunk_same.
    destruct Hr as (Hne & consumed & c' & [(k' & t' & -> & (Ht & Hk' & _ & Hw) & Hsz)|(Ht & Hw & t' & ->)]).
    + assert (Hlt : (Http1Io.conn_size c' < Http1Io.conn_size c)%nat) by (destruct chunk; [done|cbn in Hsz; lia]).
      destruct (IH _ Hlt c' k' t' s2 eq_refl Hs2 Hk' Hend) as (consumed' & c2 & Ht' & Hw').
      exists (consumed ++ consumed'), c2. split; [by rewrite <-app_assoc, <-Ht'|by apply Hw].
    + exists consumed, c'. split; [done|]. replace (source_view s2) with (@nil Z, @None VmError); [by rewrite app_nil_r|].
      assert (Hv2 : upstream_valid s2) by (unfold upstream_valid; rewrite Hs2; by left).
      assert (Hp2 : exists s3, upstream_pull s2 = Some (Ok Eof, s3)) by (unfold upstream_pull; rewrite Hs2; by eexists).
      destruct Hp2 as [s3 Hp2]. by rewrite (source_view_step (HL:=upstream_source_laws) _ _ _ Hv2 Hp2).
  - injection Hpull as <- <-. intros _. destruct Hr as (consumed & c' & Ht & Hw & _). by exists consumed, c'.
Qed.

(** ** What the session is told *)

Definition is_error (n : body_note) : bool := match n with NoteError _ => true | _ => false end.

(** The calls a tracker got, errors apart. *)
Definition progress_calls (started finished : bool) : list body_note :=
  (if started then [NoteReady] else []) ++ (if finished then [NoteEof] else []).

Record told (s : UpstreamResponseBodySource) : Prop := {
  told_calls t : http2_tracker s = Some t \/ http3_tracker s = Some t ->
    filter (fun n => is_error n = false) t = progress_calls (body_started s) (body_finished s);
  told_order : body_finished s = true -> body_started s = true;
  told_end : source s = Exhausted -> body_finished s = true;
}.

Lemma call_Some n o t : call n o = Some t -> exists l, o = Some l /\ t = l ++ [n].
Proof. unfold call. destruct o as [l|]; [|done]. intros [= <-]. by exists l. Qed.

Lemma filter_call n l : filter (fun n => is_error n = false) (l ++ [n])
  = filter (fun n => is_error n = false) l ++ (if is_error n then [] else [n]).
Proof. rewrite filter_app. f_equal. by destruct n. Qed.

(** The state of the notes, whatever the source is. *)
Definition notes_ok (s : UpstreamResponseBodySource) : Prop :=
  (forall t, http2_tracker s = Some t \/ http3_tracker s = Some t ->
    filter (fun n => is_error n = false) t = progress_calls (body_started s) (body_finished s))
  /\ (body_finished s = true -> body_started s = true).

Lemma notes_ready s : notes_ok s -> notes_ok (note_body_ready s) /\ body_started (note_body_ready s) = true.
Proof.
  unfold notes_ok, note_body_ready. intros [Hc Ho]. destruct (body_started s) eqn:Hs; [by rewrite Hs; split_and!|]. cbn. split; [|done].
  split; [|done]. intros t [Ht|Ht]; apply call_Some in Ht as (l & Hl & ->); rewrite filter_call, (Hc l) by (rewrite Hl; eauto);
    (destruct (body_finished s); [by specialize (Ho eq_refl)|done]).
Qed.

Lemma notes_complete s : notes_ok s -> notes_ok (note_body_complete s) /\ body_finished (note_body_complete s) = true.
Proof.
  intros Hs. unfold note_body_complete. destruct (notes_ready s Hs) as [Hs1 Hst]. set (s1 := note_body_ready s) in *.
  pose proof Hs1 as [Hc Ho]. destruct (body_finished s1) eqn:Hf; [done|].
  assert (Hgoal : forall s2, http2_tracker s2 = call NoteEof (http2_tracker s1) -> http3_tracker s2 = call NoteEof (http3_tracker s1) ->
    body_started s2 = true -> notes_ok (s2 <| body_finished := true |>)).
  { intros s2 H2 H3 Hst2. split; cbn; [|done]. rewrite H2, H3, Hst2.
    intros t [Ht|Ht]; apply call_Some in Ht as (l & Hl & ->); rewrite filter_call, (Hc l) by (rewrite Hl; eauto);
      rewrite Hst; done. }
  split; [|done]. apply Hgoal; cbn; destruct (plain_http1_sender_lease s1) as [l|]; try (destruct (release l _)); done.
Qed.

Lemma notes_chunk n s : notes_ok s -> notes_ok (note_chunk_delivered n s).
Proof.
  intros Hs. unfold note_chunk_delivered. destruct (n =? 0); [done|]. destruct (notes_ready s Hs) as [Hr _].
  destruct (remaining_body_bytes _); [|done]. case_match; [|done]. by apply notes_complete.
Qed.

Lemma notes_error o s : notes_ok s -> notes_ok (s <| http2_tracker := call (NoteError o) (http2_tracker s) |>).
Proof.
  intros [Hc Ho]. split; [|done]. cbn. intros t [Ht|Ht]; [|by apply Hc; right].
  apply call_Some in Ht as (l & Hl & ->). rewrite filter_call, (Hc l), app_nil_r by (by left). done.
Qed.

Lemma told_pull s r s' : told s -> upstream_pull s = Some (r, s') -> told s'.
Proof.
  intros [Hc Ho He] Hp.
  assert (Hn : forall src p tr, notes_ok (s <| source := src |> <| shared_pool := p |> <| trailers := tr |>)) by (intros; by split).
  assert (Hfin : forall s1, notes_ok s1 -> told (finish s1).2).
  { intros s1 Hs1. destruct (notes_complete s1 Hs1) as [[Hc1 Ho1] Hf1]. by split. }
  assert (Hdel : forall l s1, notes_ok s1 -> source s1 ≠ Exhausted -> told (deliver l s1).2).
  { intros l s1 Hs1 Hne. destruct (notes_chunk (len l) s1 Hs1) as [Hc1 Ho1]. split; [done|done|].
    cbn. by rewrite (proj1 (note_chunk_same _ _)). }
  unfold upstream_pull in Hp. destruct (source s) as [[|f fs]|b|[|c cs]|] eqn:Hs.
  - injection Hp as <- <-. apply Hfin. by split.
  - destruct f as [[l|t|]|e]; injection Hp as <- <-.
    + apply Hdel; [by split|done].
    + apply Hfin. by split.
    + by split.
    + destruct (notes_error e (s <| source := Hyper fs |>)) as [Hc1 Ho1]; [by split|]. by split.
  - destruct (Http1ResponseBody.pull_next _) as [[r1 st]|]; [|done]. destruct r1 as [[chunk|]|e]; injection Hp as <- <-.
    + apply Hdel; [by split|done].
    + apply Hfin. by split.
    + by split.
  - injection Hp as <- <-. apply Hfin. by split.
  - destruct c as [l|e]; injection Hp as <- <-; [apply Hdel; [by split|done]|by split].
  - injection Hp as <- <-. split; [done|done|]. intros _. by apply He.
Qed.

Lemma tracker_kept s r s' : upstream_pull s = Some (r, s') -> is_Some (http2_tracker s) -> is_Some (http2_tracker s').
Proof.
  intros Hp Hs.
  assert (Hready : forall s, is_Some (http2_tracker s) -> is_Some (http2_tracker (note_body_ready s))).
  { intros s1 H1. unfold note_body_ready. destruct (body_started s1); [done|]. cbn. by apply fmap_is_Some. }
  assert (Hcomplete : forall s, is_Some (http2_tracker s) -> is_Some (http2_tracker (note_body_complete s))).
  { intros s1 H1%Hready. unfold note_body_complete. destruct (body_finished _); [done|]. cbn.
    destruct (plain_http1_sender_lease _) as [l|]; [destruct (release l _)|]; by apply fmap_is_Some. }
  assert (Hchunk : forall n s, is_Some (http2_tracker s) -> is_Some (http2_tracker (note_chunk_delivered n s))).
  { intros n s1 H1. unfold note_chunk_delivered. destruct (n =? 0); [done|]. apply Hready in H1.
    destruct (remaining_body_bytes _); [|done]. case_match; [|done]. by apply Hcomplete. }
  unfold upstream_pull, finish, deliver in Hp. repeat case_match; simplify_eq; try done.
  all: first [by apply (Hcomplete s)|by apply Hcomplete|by apply Hchunk|by apply fmap_is_Some].
Qed.

(** Some pulls later. *)
Definition pulled (s s' : UpstreamResponseBodySource) : Prop := exists r, upstream_pull s = Some (r, s').

Lemma told_pulled s s' : rtc pulled s s' -> told s -> told s'.
Proof. induction 1 as [|s s1 s2 [r Hr] _ IH]; [done|]. intros Hs. apply IH. by eapply told_pull. Qed.

Lemma told_fresh src h2 h3 l content_length p :
  src ≠ Exhausted -> h2 ∈ [None; Some []] -> h3 ∈ [None; Some []] -> 
  told (upstream_response_body_source src h2 h3 l content_length p).
Proof.
  intros Hsrc H2 H3. unfold upstream_response_body_source. set (s := MkSource _ _ _ _ _ _ _ _ _).
  assert (Hs : notes_ok s).
  { split; [|done]. intros t Ht. assert (t = []) as -> by (cbn in Ht; set_solver). done. }
  case_bool_decide; [|by destruct Hs; split].
  destruct (notes_complete s Hs) as [[Hc Ho] Hf]. split; [done|done|]. by rewrite (proj1 (note_complete_same s)).
Qed.

End body.

(** The calls of a tracker for the stream [id] on its session. *)
Definition note (id : Z) (n : body_note) (d : Http2Session.Http2UpstreamSessionDagState) :=
  match n with
  | NoteReady => Http2Session.mark_stream_response_body_ready id d
  | NoteEof => Http2Session.mark_stream_closed id d
  | NoteError o => Http2Session.note_body_error id o d
  end.
Definition notes (id : Z) (t : list body_note) (d : Http2Session.Http2UpstreamSessionDagState) := foldl (fun d n => note id n d) d t.

Lemma prune_same_ids d :
  Http2Session.same_ids (Http2Session.streams d) (Http2Session.streams (Http2Session.prune_terminal_streams d)).
Proof.
  unfold Http2Session.prune_terminal_streams. cbn.
  repeat case_match; cbn; apply Http2Session.same_ids_retain.
Qed.

Lemma goaway_streams r s d : Http2Session.streams (Http2Session.mark_goaway r s d) = Http2Session.streams d.
Proof. unfold Http2Session.mark_goaway, Http2Session.advance_session_goal. by repeat case_match. Qed.

Lemma error_same_ids id o d :
  Http2Session.same_ids (Http2Session.streams d) (Http2Session.streams (Http2Session.note_body_error id o d)).
Proof.
  unfold Http2Session.note_body_error, Http2Session.apply_stream_error.
  assert (Hreset : forall r, Http2Session.same_ids (Http2Session.streams d)
    (Http2Session.streams (Http2Session.mark_stream_reset id (Http2Session.reset_reason r) (Http2Session.reset_source r) d))).
  { intros r. eapply Http2Session.same_ids_trans; [|apply prune_same_ids].
    eapply Http2Session.same_ids_trans; [|by apply Http2Session.same_ids_alter]. by apply Http2Session.same_ids_alter. }
  destruct (Http2Session.observed_reset o) as [r|], (Http2Session.observed_goaway o) as [g|];
    rewrite ?goaway_streams; auto using Http2Session.same_ids_refl.
  apply Http2Session.same_ids_fmap. intros s. by case_match.
Qed.

Lemma note_same_ids id n d :
  Http2Session.same_ids (Http2Session.streams d) (Http2Session.streams (note id n d)).
Proof.
  destruct n as [| |o]; cbn [note]; [by apply Http2Session.same_ids_alter| |apply error_same_ids].
  eapply Http2Session.same_ids_trans; [|apply prune_same_ids]. by apply Http2Session.same_ids_alter.
Qed.

Lemma closed_gone id d : Http2Session.streams (Http2Session.mark_stream_closed id d) !! id = None.
Proof.
  unfold Http2Session.mark_stream_closed, Http2Session.prune_terminal_streams.
  assert (Hgone : Http2Session.retain_active
    (Http2Session.streams (Http2Session.advance_stream_goal id Http2Session.SGoalClosed d)) !! id = None).
  { apply eq_None_not_Some. intros [s [Hs Ht]%Http2Session.retain_active_lookup]. cbn in Hs.
    rewrite lookup_alter_Some in Hs. destruct Hs as [(_ & s0 & _ & ->)|[? _]]; done. }
  cbn. repeat case_match; exact Hgone.
Qed.

Lemma notes_gone id t d :
  Http2Session.streams d !! id = None -> Http2Session.streams (notes id t d) !! id = None.
Proof.
  revert d. induction t as [|n t IH]; intros d Hd; [done|]. apply IH.
  apply eq_None_not_Some. intros [s Hs]. destruct (note_same_ids _ _ _ _ _ Hs) as (s0 & Hs0 & _). congruence.
Qed.

Lemma notes_eof id t d : NoteEof ∈ t -> Http2Session.streams (notes id t d) !! id = None.
Proof.
  intros (l & k & ->)%list_elem_of_split. unfold notes. rewrite foldl_app. cbn [foldl note].
  apply notes_gone, closed_gone.
Qed.

Section end_of_body.
Context {M : Type} `{HM : HeaderMap M} `{HC : HttpCrate}.

End end_of_body.

Abbreviation demo_map := (list (string * list Z)).

Lemma passthrough_whole_witness :
  let b : UpstreamResponseBodyState (M:=demo_map) :=
    from_hyper [Ok (FrameData [97; 10]); Ok OtherFrame; Ok (FrameData [98]); Ok (FrameTrailers [("x", [49])])]
      (Some []) None None new_pool in
  exists r b', upstream_reads (HC:=any_crate) [ReadNextLine; ReadNextChunk 1] b = Some (r, b')
    /\ r = Ok [GotBytes [97]; GotBytes [98]]
    /\ exists fs r p', all_frames (HC:=any_crate) (take_streaming_passthrough b').1 = Some (fs, r, p')
      /\ frames_spec ([97; 10; 98], None) fs r.
Proof.
  intros b. destruct (passthrough_whole (HC:=any_crate) [ReadNextLine; ReadNextChunk 1] b) as (r & b' & Hr & Hs).
  - split; [exact I|done|done].
  - repeat constructor; cbn; lia.
  - by vm_compute.
  - exists r, b'. split; [exact Hr|]. vm_compute in Hr. injection Hr as <- <-. split; [done|].
    destruct Hs as (fs & r & p' & Hf & Hs). exists fs, r, p'. split; [exact Hf|]. exact Hs.
Defined.


(** A response that says [content-length: 0] drops its tracker without a call:
    the session keeps the stream, and after a GOAWAY waits for it forever. *)
Theorem empty_body_keeps_stream fs t l p :
  http2_tracker (body_source (from_hyper (M:=demo_map) fs (Some t) l (Some 0) p)) = None
  /\ let d := Http2Session.mark_goaway None Http2Session.RemotePeer (Http2Session.reserve_stream 1 1 Http2Session.new).2 in
     Http2Session.session_frontier d = Http2Session.Draining
     /\ Http2Session.session_frontier (notes 1 [NoteReady; NoteEof] d) = Http2Session.SClosed.
Proof. split; [done|]. by vm_compute. Qed.

(** An HTTP/3 body that fails tells its session nothing. *)
Theorem http3_body_error_untold e cs t p :
  let b := from_http3 (M:=demo_map) (Err e :: cs) (Some t) None p in
  exists s, upstream_pull (HC:=any_crate) (body_source b)
    = Some (Err (HostError ("failed to read upstream http3 response frame: " +:+ e)), s) /\ http3_tracker s = Some t.
Proof. eexists. by split. Qed.
End UpstreamBody.
