(* ===== verification/Http1ResponseWriter.v ===== *)
(** Model of how a response is written to a downstream HTTP/1 connection
    ([write_http1_response] and its variants in
    [src/runtime/http_plane/http1_fast_path.rs], the snapshot headers of
    [src/abi_impl/http/state/upstream.rs]): the framing decision, the head, the
    body in chunks or as it is, the trailers. *)

From S2P Require Import Prelude Bytes Effects TlsFlow Http1Text Http1Io HttpHeaders Http1SenderPool Http1ResponseBody Http1FastPath Http1Upstream BodyStream UpstreamBody.

Module Http1ResponseWriter.
Import Http1Text Http1Io HttpHeaders Http1SenderPool Http1ResponseBody.
Import Http1FastPath(Version, HTTP_10, HTTP_11).
Import Http1Upstream(Sink, SinkLaws, write_all, written, write_ok, write_err, render, entries_of, hop_by_hop_names,
  OutboundHttp1ForwardBody, NoBody, Raw).
Import BodyStream(Frame, FrameData, FrameTrailers, OtherFrame).
#[local] Existing Instance Http1FastPath.Version_eq_dec.

(** ** The [http] crate's status codes *)

Class StatusCrate := {
  status_from_u16 : Z -> option Z;          (** [StatusCode::from_u16] *)
  status_as_str : Z -> string;
  canonical_reason : Z -> option string;
}.

(** [http::Version]; the writers know two. *)
Inductive AnyVersion := HTTP_09 | V10 | V11 | HTTP_2 | HTTP_3.
Definition http1_version (v : AnyVersion) : Version := match v with V10 => HTTP_10 | _ => HTTP_11 end.

Definition http1_response_has_no_body (status : Z) (method : string) : bool :=
  bool_decide (method = "HEAD") || (100 <=? status) && (status <? 200) || (status =? 204) || (status =? 304).

(** ** Headers of a response *)

(** What the writers ask of the headers they write: the two kinds below. *)
Class ResponseHeaders (H : Type) := {
  rh_contains : H -> string -> bool;
  rh_token : H -> string -> string -> bool;
  rh_insert : string -> list Z -> H -> H;
  rh_lines : H -> list (string * list Z);
}.

(** The values of a name among the lines. *)
Definition values {H} `{ResponseHeaders H} (h : H) (k : string) : list (list Z) :=
  snd <$> filter (fun e => e.1 = k) (rh_lines h).

(** A lower case name. *)
Definition lower_name (k : string) : Prop := to_ascii_lowercase k = k.

Class ResponseHeadersLaws H `{ResponseHeaders H} `{HttpCrate} := {
  rh_contains_values h k : lower_name k -> rh_contains h k = negb (bool_decide (values h k = []));
  rh_token_values h k t : lower_name k -> rh_token h k t = has_token (omap to_str (values h k)) t;
  rh_insert_values h n v k : lower_name n -> values (rh_insert n v h) k = if bool_decide (n = k) then [v] else values h k;
}.

Definition is_hop_by_hop_header (name : string) : bool := existsb (fun k => bool_decide (name = k)) hop_by_hop_names.

Lemma filter_nothing {A} (P : A -> Prop) `{!forall x, Decision (P x)} (l : list A) : (forall x, ~ P x) -> filter P l = [].
Proof. intros HP. induction l as [|x l IH]; [done|]. by rewrite filter_cons_False. Qed.

Section headers.
Context {M : Type} `{HM : HeaderMap M} `{HMM : !HeaderMapMut M} `{HC : HttpCrate}.

Definition http_header_contains_token (m : M) (name token : string) : bool := map_contains_token m name token.

#[export] Instance map_headers : ResponseHeaders M := {
  rh_contains := contains_key;
  rh_token := http_header_contains_token;
  rh_insert n v m := hm_insert n v m;
  rh_lines := hm_iter;
}.

Definition merge_http_headers (target overlay : M) : M :=
  foldl (fun m e => hm_insert e.1 e.2 m) target (hm_iter overlay).

Inductive SnapshotHttp1DownstreamHeaders :=
| Snapshot (base overlay : M)
| Explicit (headers : M).

Definition snapshot_contains_name (h : SnapshotHttp1DownstreamHeaders) (name : string) : bool :=
  match h with
  | Snapshot base overlay => contains_key overlay name || negb (is_hop_by_hop_header name) && contains_key base name
  | Explicit headers => contains_key headers name
  end.

Definition snapshot_header_contains_token (h : SnapshotHttp1DownstreamHeaders) (name token : string) : bool :=
  match h with
  | Snapshot base overlay =>
      if contains_key overlay name then map_contains_token overlay name token
      else if is_hop_by_hop_header name then false
      else map_contains_token base name token
  | Explicit headers => map_contains_token headers name token
  end.

Definition insert_override (name : string) (value : list Z) (h : SnapshotHttp1DownstreamHeaders)
    : SnapshotHttp1DownstreamHeaders :=
  match h with
  | Snapshot base overlay => Snapshot base (hm_insert name value overlay)
  | Explicit headers => Explicit (hm_insert name value headers)
  end.

(** [write_http1_lines]: the lines it writes. *)
Definition snapshot_lines (h : SnapshotHttp1DownstreamHeaders) : list (string * list Z) :=
  match h with
  | Snapshot base overlay =>
      filter (fun e => existsb (fun o => bool_decide (o.1 = e.1)) (hm_iter overlay) || is_hop_by_hop_header e.1 = false)
        (hm_iter base) ++ hm_iter overlay
  | Explicit headers => hm_iter headers
  end.

#[export] Instance snapshot_headers : ResponseHeaders SnapshotHttp1DownstreamHeaders := {
  rh_contains := snapshot_contains_name;
  rh_token := snapshot_header_contains_token;
  rh_insert := insert_override;
  rh_lines := snapshot_lines;
}.

(** *** Both keep the laws *)

Context `{HML : !HeaderMapLaws M} `{HMML : !HeaderMapMutLaws M}.

Lemma iter_values (m : M) k : snd <$> filter (fun e => e.1 = k) (hm_iter m) = hm_get_all m k.
Proof. apply iter_get_all. Qed.

#[export] Instance map_headers_laws : ResponseHeadersLaws M.
Proof.
  split; unfold values; cbn.
  - intros m k Hk. unfold contains_key, get_all. by rewrite iter_values, Hk.
  - intros m k t Hk. unfold http_header_contains_token, map_contains_token, get_all. by rewrite iter_values, Hk.
  - intros m n v k Hn. by rewrite !iter_values, get_all_insert.
Qed.

Lemma overlay_values (m : M) k :
  existsb (fun o => bool_decide (o.1 = k)) (hm_iter m) = negb (bool_decide (hm_get_all m k = [])).
Proof.
  rewrite <-iter_values. induction (hm_iter m) as [|e l IH]; [done|]. cbn [existsb]. rewrite filter_cons.
  destruct (decide (e.1 = k)) as [He|He].
  - by rewrite (bool_decide_true (e.1 = k)), bool_decide_false by done.
  - by rewrite (bool_decide_false (e.1 = k)) by done.
Qed.

Lemma snapshot_values base overlay k :
  values (Snapshot base overlay) k
  = if bool_decide (hm_get_all overlay k = [])
    then if is_hop_by_hop_header k then [] else hm_get_all base k
    else hm_get_all overlay k.
Proof.
  unfold values. cbn [rh_lines snapshot_headers snapshot_lines]. rewrite filter_app, fmap_app, iter_values, list_filter_filter.
  rewrite (list_filter_iff _ (fun e => e.1 = k /\ (negb (bool_decide (hm_get_all overlay k = [])) || is_hop_by_hop_header k = false))).
  2: { intros e. rewrite overlay_values. naive_solver. }
  case_bool_decide as Ho; cbn [negb orb].
  - rewrite Ho, app_nil_r. destruct (is_hop_by_hop_header k) eqn:Hh.
    + rewrite filter_nothing; [done|]. by intros e [_ ?].
    + rewrite <-iter_values. f_equal. apply list_filter_iff. intros e. split; [by intros [? _]|by split].
  - rewrite filter_nothing; [done|]. by intros e [_ ?].
Qed.

#[export] Instance snapshot_headers_laws : ResponseHeadersLaws (SnapshotHttp1DownstreamHeaders).
Proof.
  split.
  - intros [base overlay|m] k Hk; [|exact (rh_contains_values m k Hk)]. rewrite snapshot_values.
    cbn [rh_contains snapshot_headers snapshot_contains_name]. unfold contains_key, get_all. rewrite Hk.
    destruct (bool_decide (hm_get_all overlay k = [])) eqn:Ho; [|by rewrite Ho]. by destruct (is_hop_by_hop_header k).
  - intros [base overlay|m] k t Hk; [|exact (rh_token_values m k t Hk)]. rewrite snapshot_values.
    cbn [rh_token snapshot_headers snapshot_header_contains_token]. unfold contains_key, map_contains_token, get_all.
    rewrite Hk. destruct (bool_decide (hm_get_all overlay k = [])); [|done]. by destruct (is_hop_by_hop_header k).
  - intros [base overlay|m] n v k Hn; [|exact (rh_insert_values m n v k Hn)]. cbn [rh_insert snapshot_headers insert_override].
    rewrite !snapshot_values, get_all_insert. destruct (decide (n = k)) as [->|Hne].
    + by rewrite (bool_decide_true (k = k)), bool_decide_false by done.
    + by rewrite !(bool_decide_false (n = k)) by done.
Qed.

(** Merging keeps, of every name the overlay has, the last value only. *)
Lemma merge_last (target overlay : M) k :
  hm_get_all (merge_http_headers target overlay) k
  = match last (hm_get_all overlay k) with Some v => [v] | None => hm_get_all target k end.
Proof.
  unfold merge_http_headers. rewrite <-(iter_values overlay). generalize (hm_iter overlay). intros l. revert target.
  induction l as [|[n v] l IH]; intros target; [done|]. cbn [foldl]. rewrite IH, filter_cons. cbn [fst snd].
  destruct (decide (n = k)) as [->|Hn].
  - rewrite fmap_cons, last_cons, get_all_insert, bool_decide_true by done.
    by destruct (last _).
  - by rewrite get_all_insert, bool_decide_false.
Qed.
End headers.
Arguments SnapshotHttp1DownstreamHeaders : clear implicits.

(** ** Writing *)

(** [io::Result], or a panic. *)
Inductive io_fault :=
| IoError (message : string)
| IoPanic.

(** A computation that writes to the stream: it reads and returns the sink. *)
Abbreviation writer := (eff io_fault).

Section writers.
Context {W : Type} `{HS : Sink W} `{HSt : StatusCrate}.

(** [stream.write_all(..).await?] *)
Definition put (l : list Z) : writer W unit := fun w =>
  match write_all l w with (Ok _, w) => (Ok tt, w) | (Err e, w) => (Err (IoError e), w) end.

Definition version_label (v : Version) : string := match v with HTTP_10 => "HTTP/1.0" | HTTP_11 => "HTTP/1.1" end.
Definition write_http1_status_line (v : Version) (status : Z) : list Z :=
  bytes_of_string (version_label v +:+ " " +:+ status_as_str status +:+ " " +:+ default "OK" (canonical_reason status))
    ++ CRLF.

(** The lines of a block of headers. *)
Definition header_block (l : list (string * list Z)) : list Z := concat (render <$> entries_of l).

Definition write_head {H} `{ResponseHeaders H} (v : Version) (status : Z) (h : H) : writer W unit :=
  put (write_http1_status_line v status ++ header_block (rh_lines h) ++ CRLF).

(** A piece of the body; [append_chunk_prefix] panics on an index out of its
    digit array. *)
Definition send_data (use_chunked : bool) (data : list Z) : writer W unit :=
  if use_chunked then
    match append_chunk_prefix [] (len data) with
    | Some p => put (p ++ data ++ CRLF)
    | None => fun w => (Err IoPanic, w)
    end
  else put data.

Section framing.
Context {H : Type} `{ResponseHeaders H}.

Definition http1_connection_keep_alive (v : Version) (h : H) : bool :=
  let connection_close := rh_token h "connection" "close" in
  let connection_keep_alive := rh_token h "connection" "keep-alive" in
  match v with
  | HTTP_10 => connection_keep_alive && negb connection_close
  | HTTP_11 => negb connection_close
  end.

Definition connection_header (v : Version) (keep_alive : bool) (h : H) : H :=
  if negb keep_alive then rh_insert "connection" (bytes_of_string "close") h
  else if bool_decide (v = HTTP_10) && negb (rh_contains h "connection")
  then rh_insert "connection" (bytes_of_string "keep-alive") h
  else h.

(** The headers to write, whether the body goes in chunks, and whether the
    connection is kept.  [needed]: there is a body to frame. *)
Definition framing (needed : bool) (v : Version) (request_keep_alive : bool) (h : H) : H * bool * bool :=
  let has_content_length := rh_contains h "content-length" in
  let use_chunked := rh_token h "transfer-encoding" "chunked" in
  let keep_alive := request_keep_alive && http1_connection_keep_alive v h in
  let '(h, use_chunked, keep_alive) :=
    if needed && negb has_content_length && negb use_chunked then
      match v with
      | HTTP_10 => (h, use_chunked, false)
      | HTTP_11 => (rh_insert "transfer-encoding" (bytes_of_string "chunked") h, true, keep_alive)
      end
    else (h, use_chunked, keep_alive) in
  (connection_header v keep_alive h, use_chunked, keep_alive).
End framing.

Context {M : Type} `{HM : HeaderMap M} `{HMM : !HeaderMapMut M} `{HC : HttpCrate}.

Definition finish_chunked (use_chunked : bool) (trailers : M) : writer W unit :=
  if use_chunked then put ([48] ++ CRLF ++ header_block (hm_iter trailers) ++ CRLF) else mret tt.

(** *** Any response *)

Record Response := MkResponse {
  version : AnyVersion;
  status : Z;
  headers : M;
  frames : list (result string (Frame M));
}.

(** The loop over the frames: the trailers, and whether the connection is kept. *)
Fixpoint write_frames (use_chunked : bool) (fs : list (result string (Frame M))) (trailers : M) (keep_alive : bool)
    : writer W (M * bool) :=
  match fs with
  | [] => mret (trailers, keep_alive)
  | Err e :: _ => fun w => (Err (IoError e), w)
  | Ok (FrameData data) :: fs =>
      _ ← send_data use_chunked data; write_frames use_chunked fs trailers keep_alive
  | Ok (FrameTrailers t) :: fs => write_frames use_chunked fs t keep_alive
  | Ok OtherFrame :: fs => write_frames use_chunked fs trailers false
  end.

Definition write_http1_response (request_method : string) (request_keep_alive : bool) (r : Response) : writer W bool :=
  let v := http1_version r.(version) in
  let has_body := negb (http1_response_has_no_body r.(status) request_method) in
  let '(h, use_chunked, keep_alive) := framing has_body v request_keep_alive r.(headers) in
  _ ← write_head v r.(status) h;
  if negb has_body then mret keep_alive
  else
    '(trailers, keep_alive) ← write_frames use_chunked r.(frames) hm_new keep_alive;
    _ ← finish_chunked use_chunked trailers;
    mret keep_alive.

(** *** A response made by the program *)

Record ResolvedNativeLocalHttp1DownstreamResponse := MkLocal {
  local_status : Z;
  local_headers : M;
  local_body : list Z;
  default_content_type : bool;
}.

(** [if let Ok(value) = HeaderValue::from_str(&n.to_string())] *)
Definition insert_length (n : Z) (m : M) : M :=
  match header_value_str (dec n) with
  | Some v => hm_insert "content-length" v m
  | None => m
  end.

Definition status_or_ok (status : Z) : Z := default 200 (status_from_u16 status).

Definition local_head (has_body : bool) (r : ResolvedNativeLocalHttp1DownstreamResponse) : M :=
  let body_len := if has_body then len r.(local_body) else 0 in
  let m := insert_length body_len (hm_remove "transfer-encoding" r.(local_headers)) in
  if r.(default_content_type) && (0 <? body_len) && negb (contains_key m "content-type")
  then hm_insert "content-type" (bytes_of_string "text/plain") m
  else m.

Definition write_native_local_http1_response (request_method : string) (request_keep_alive : bool)
    (request_version : AnyVersion) (r : ResolvedNativeLocalHttp1DownstreamResponse) : writer W bool :=
  let status := status_or_ok r.(local_status) in
  let v := http1_version request_version in
  let has_body := negb (http1_response_has_no_body status request_method) in
  let m := local_head has_body r in
  let keep_alive := request_keep_alive && http1_connection_keep_alive v m in
  _ ← write_head v status (connection_header v keep_alive m);
  _ ← (if (0 <? if has_body then len r.(local_body) else 0) then put r.(local_body) else mret tt);
  mret keep_alive.

(** *** A response passed on from an upstream *)

Record ResolvedNativeHttp1DownstreamResponse := MkNative {
  native_status : Z;
  native_headers : M;
  native_version : AnyVersion;
  native_body : OutboundHttp1ForwardBody (M:=M);
  response_headers : M;
  response_status : option Z;
}.

(** [VmError]'s [Display]. *)
Context (vm_error_display : VmError -> string).

(** [while let Some(chunk) = body.pull_next().await?]; [None]: out of fuel. *)
Fixpoint relay_body (fuel : nat) (use_chunked : bool) (s : State M) (w : W) : option (result io_fault unit * State M * W) :=
  match fuel with
  | O => None
  | S fuel =>
      match Http1ResponseBody.pull_next s with
      | None => None
      | Some (Err e, s) => Some (Err (IoError (vm_error_display e)), s, w)
      | Some (Ok None, s) => Some (Ok tt, s, w)
      | Some (Ok (Some chunk), s) =>
          match send_data use_chunked chunk w with
          | (Ok _, w) => relay_body fuel use_chunked s w
          | (Err e, w) => Some (Err e, s, w)
          end
      end
  end.

Definition without_hop_by_hop (m : M) : M :=
  foldl (fun m e => if is_hop_by_hop_header e.1 then hm_remove e.1 m else m) m (hm_iter m).

Definition native_head (r : ResolvedNativeHttp1DownstreamResponse) : M :=
  let m := merge_http_headers (without_hop_by_hop r.(native_headers)) r.(response_headers) in
  let body_content_length := match r.(native_body) with NoBody => Some 0 | Raw _ n => n end in
  if negb (contains_key m "content-length") && negb (http_header_contains_token m "transfer-encoding" "chunked")
  then match body_content_length with Some n => insert_length n m | None => m end
  else m.

Definition native_response_status (r : ResolvedNativeHttp1DownstreamResponse) : Z :=
  default (status_or_ok r.(native_status)) (r.(response_status) ≫= status_from_u16).

(** With the pool the body's lease shares; [None]: out of fuel. *)
Definition write_native_http1_response (request_method : string) (request_keep_alive : bool)
    (r : ResolvedNativeHttp1DownstreamResponse) (p : PlainHttp1SenderPool Connection) (w : W)
    : option (result io_fault bool * PlainHttp1SenderPool Connection * W) :=
  let status := native_response_status r in
  let v := http1_version r.(native_version) in
  let has_body := negb (http1_response_has_no_body status request_method) in
  let '(h, use_chunked, keep_alive) := framing has_body v request_keep_alive (native_head r) in
  match write_head v status h w with
  | (Err e, w) => Some (Err e, p, w)
  | (Ok _, w) =>
      if negb has_body then Some (Ok keep_alive, p, w)
      else
        match r.(native_body) with
        | NoBody =>
            let '(r, w) := finish_chunked use_chunked hm_new w in
            Some (match r with Ok _ => Ok keep_alive | Err e => Err e end, p, w)
        | Raw b _ =>
            match relay_body (body_size (MkState b p) + 2) use_chunked (MkState b p) w with
            | None => None
            | Some (Err e, s, w) => Some (Err e, pool s, w)
            | Some (Ok _, s, w) =>
                let '(r, w) := finish_chunked use_chunked (default hm_new (take_trailers (body s)).1) w in
                Some (match r with Ok _ => Ok keep_alive | Err e => Err e end, pool s, w)
            end
        end
  end.

(** *** A response the program looked at and passed on *)

Record ResolvedSnapshotHttp1DownstreamResponse := MkSnapshot {
  snapshot_status : Z;
  snapshot_head : SnapshotHttp1DownstreamHeaders M;
  snapshot_version : AnyVersion;
  snapshot_body : UpstreamBody.UpstreamResponseBodyState (M:=M);
}.

Definition take_body_passthrough (r : ResolvedSnapshotHttp1DownstreamResponse)
    : option (UpstreamBody.StreamingUpstreamResponseBodyState (M:=M)) :=
  if UpstreamBody.is_known_empty r.(snapshot_body) then None
  else Some (UpstreamBody.take_streaming_passthrough r.(snapshot_body)).1.

Fixpoint relay_frames (fuel : nat) (use_chunked : bool) (p : UpstreamBody.StreamingUpstreamResponseBodyState (M:=M))
    (trailers : M) (keep_alive : bool) (w : W) : option (result io_fault (M * bool) * W) :=
  match fuel with
  | O => None
  | S fuel =>
      match UpstreamBody.next_frame p with
      | None => None
      | Some (Err e, _) => Some (Err (IoError (vm_error_display e)), w)
      | Some (Ok None, _) => Some (Ok (trailers, keep_alive), w)
      | Some (Ok (Some f), p) =>
          match f with
          | FrameData chunk =>
              match send_data use_chunked chunk w with
              | (Ok _, w) => relay_frames fuel use_chunked p trailers keep_alive w
              | (Err e, w) => Some (Err e, w)
              end
          | FrameTrailers t => relay_frames fuel use_chunked p t keep_alive w
          | OtherFrame => relay_frames fuel use_chunked p trailers false w
          end
      end
  end.

Definition write_snapshot_http1_response (request_method : string) (request_keep_alive : bool)
    (r : ResolvedSnapshotHttp1DownstreamResponse) (w : W) : option (result io_fault bool * W) :=
  let body := take_body_passthrough r in
  let status := status_or_ok r.(snapshot_status) in
  let v := http1_version r.(snapshot_version) in
  let has_body := negb (http1_response_has_no_body status request_method) in
  let '(h, use_chunked, keep_alive) :=
    framing (has_body && bool_decide (is_Some body)) v request_keep_alive r.(snapshot_head) in
  match write_head v status h w with
  | (Err e, w) => Some (Err e, w)
  | (Ok _, w) =>
      match body with
      | Some p =>
          if has_body then
            match relay_frames (4 + UpstreamBody.streaming_size p) use_chunked p hm_new keep_alive w with
            | None => None
            | Some (Err e, w) => Some (Err e, w)
            | Some (Ok (trailers, keep_alive), w) =>
                let '(r, w) := finish_chunked use_chunked trailers w in
                Some (match r with Ok _ => Ok keep_alive | Err e => Err e end, w)
            end
          else Some (Ok keep_alive, w)
      | None => Some (Ok keep_alive, w)
      end
  end.
End writers.

(** ** The framing decision *)

Section framing_laws.
Context {H : Type} `{HL : ResponseHeadersLaws H} `{HCL : !HttpCrateLaws}.

Lemma token_of_insert n s h t :
  lower_name n -> Forall visible_ascii (bytes_of_string s) ->
  rh_token (rh_insert n (bytes_of_string s) h) n t = has_token [s] t.
Proof.
  intros Hn Hs. rewrite rh_token_values, rh_insert_values, bool_decide_true by done. cbn.
  by rewrite to_str_visible, string_of_bytes_of_string by done.
Qed.

Lemma token_insert_ne n v h k t :
  lower_name n -> lower_name k -> n ≠ k -> rh_token (rh_insert n v h) k t = rh_token h k t.
Proof. intros Hn Hk Hne. by rewrite !rh_token_values, rh_insert_values, bool_decide_false by done. Qed.

Lemma token_values_eq h h' k t : lower_name k -> values h k = values h' k -> rh_token h k t = rh_token h' k t.
Proof. intros Hk Hv. by rewrite !rh_token_values, Hv by done. Qed.

Lemma keep_alive_insert v h n x :
  lower_name n -> n ≠ "connection" ->
  http1_connection_keep_alive v (rh_insert n x h) = http1_connection_keep_alive v h.
Proof. intros Hn Hne. unfold http1_connection_keep_alive. by rewrite !token_insert_ne by done. Qed.

Lemma connection_header_spec v (keep : bool) h :
  (keep = true -> http1_connection_keep_alive v h = true) ->
  (if keep then http1_connection_keep_alive v (connection_header v keep h) = true
   else values (connection_header v keep h) "connection" = [bytes_of_string "close"])
  /\ (forall k, k ≠ "connection" -> values (connection_header v keep h) k = values h k).
Proof.
  intros Hk. unfold connection_header. destruct keep; cbn [negb].
  - destruct (_ && _) eqn:Hc; [|by split; [apply Hk|]]. split.
    + unfold http1_connection_keep_alive. rewrite !token_of_insert by (done || visible). by destruct v.
    + intros k Hne. by rewrite rh_insert_values, bool_decide_false by done.
  - split; [by rewrite rh_insert_values, bool_decide_true|].
    intros k Hne. by rewrite rh_insert_values, bool_decide_false by done.
Qed.

(** What the decision settles, by the headers that will be written. *)
Lemma framing_spec needed v rka h h' (chunked keep : bool) :
  framing needed v rka h = (h', chunked, keep) ->
  chunked = rh_token h' "transfer-encoding" "chunked"
  /\ (if keep then rka = true /\ http1_connection_keep_alive v h' = true
      else values h' "connection" = [bytes_of_string "close"])
  /\ (forall k, k ≠ "connection" -> k ≠ "transfer-encoding" -> values h' k = values h k)
  /\ (needed = true -> chunked = false -> keep = true -> values h' "content-length" ≠ []).
Proof.
  unfold framing. set (keep0 := rka && http1_connection_keep_alive v h).
  assert (Hk : keep0 = true -> rka = true /\ http1_connection_keep_alive v h = true) by (by intros ?%andb_true_iff).
  clearbody keep0. destruct (needed && _ && _) eqn:Hn.
  - apply andb_true_iff in Hn as [[_ Hcl]%andb_true_iff Hte]. apply negb_true_iff in Hcl, Hte.
    destruct v; intros [= <- <- <-].
    + destruct (connection_header_spec HTTP_10 false h ltac:(done)) as [Hc Hv]. split_and!; [|done|by intros; apply Hv|done].
      apply token_values_eq; [done|]. symmetry. by apply Hv.
    + set (h1 := rh_insert "transfer-encoding" _ h).
      assert (Hk1 : keep0 = true -> http1_connection_keep_alive HTTP_11 h1 = true).
      { unfold h1. rewrite keep_alive_insert by done. by intros [_ ?]%Hk. }
      destruct (connection_header_spec HTTP_11 keep0 h1 Hk1) as [Hc Hv]. split_and!; [..|done].
      * rewrite (token_values_eq _ h1) by (done || by apply Hv). unfold h1.
        by rewrite (token_of_insert _ "chunked") by (done || visible).
      * destruct keep0; [|done]. split; [by apply Hk|done].
      * intros k Hne1 Hne2. rewrite Hv by done. unfold h1. by rewrite rh_insert_values, bool_decide_false by done.
  - intros [= <- <- <-]. destruct (connection_header_spec v keep0 h ltac:(naive_solver)) as [Hc Hv]. split_and!.
    + apply token_values_eq; [done|]. symmetry. by apply Hv.
    + destruct keep0; [|done]. split; [by apply Hk|done].
    + intros k Hne _. by apply Hv.
    + intros -> Hte _. rewrite Hte in Hn. cbn in Hn. rewrite andb_true_r in Hn. apply negb_false_iff in Hn.
      rewrite rh_contains_values in Hn by done. rewrite Hv by done. by apply negb_true_iff, bool_decide_eq_false in Hn.
Qed.

(** How a reader of the head delimits the body it announces. *)
Definition framed (h : H) (data body : list Z) (keep : bool) : Prop :=
  if rh_token h "transfer-encoding" "chunked" then chunked_wire data body
  else body = data /\ (keep = true -> values h "content-length" ≠ []).
(** The head agrees with whether the connection is kept. *)
Definition head_agrees (v : Version) (rka : bool) (h : H) (keep : bool) : Prop :=
  if keep then rka = true /\ http1_connection_keep_alive v h = true
  else values h "connection" = [bytes_of_string "close"].
End framing_laws.

(** ** The body on the wire *)

Section writer_laws.
Context {W : Type} `{HSL : SinkLaws W} `{HSt : StatusCrate}.

Lemma put_Ok l (w w' : W) : put l w = (Ok tt, w') -> written w' = written w ++ l.
Proof. unfold put. destruct (write_all l w) as [[[]|e] w1] eqn:Hw; [|done]. intros [= <-]. by apply write_ok. Qed.

Lemma header_block_lines l :
  header_block l = concat ((fun t => t ++ CRLF) <$> ((fun e => bytes_of_string e.1 ++ [58; 32] ++ e.2) <$> l)).
Proof.
  unfold header_block, entries_of. induction l as [|e l IH]; [done|]. cbn [fmap list_fmap concat]. rewrite IH.
  unfold render. cbn [fst snd]. by rewrite <-!app_assoc.
Qed.

(** A piece of the body, before any tail. *)
Definition piece (chunked : bool) (data wire : list Z) : Prop :=
  if chunked then forall data' tail, chunked_wire data' tail -> chunked_wire (data ++ data') (wire ++ tail)
  else wire = data.

Lemma piece_nil chunked : piece chunked [] [].
Proof. unfold piece. destruct chunked; [by intros|done]. Qed.
Lemma piece_app chunked d1 w1 d2 w2 : piece chunked d1 w1 -> piece chunked d2 w2 -> piece chunked (d1 ++ d2) (w1 ++ w2).
Proof.
  unfold piece. destruct chunked; [|by intros -> ->]. intros H1 H2 data' tail Ht. rewrite <-!app_assoc. by apply H1, H2.
Qed.

Lemma send_data_sound chunked data (w w' : W) :
  data ≠ [] -> len data < U64_LIMIT -> send_data chunked data w = (Ok tt, w') ->
  exists wire, written w' = written w ++ wire /\ piece chunked data wire.
Proof.
  intros Hne Hlen. unfold send_data. pose proof (len_nonneg data). destruct chunked.
  - destruct (chunk_prefix_line (len data) [] ltac:(lia)) as (line & -> & Hl & _ & Hsz). intros Hw%put_Ok.
    rewrite app_nil_l in Hw. eexists. split; [exact Hw|]. intros data' tail Ht. rewrite <-!app_assoc. by apply wire_chunk.
  - intros Hw%put_Ok. by exists data.
Qed.

Section frames.
Context {M : Type} `{HML : HeaderMapLaws M}.

(** Trailers that stay on their lines. *)
Definition trailers_ok (t : M) : Prop := Forall (fun e => is_line (bytes_of_string e.1 ++ [58; 32] ++ e.2)) (hm_iter t).

Lemma iter_nil (m : M) : (forall k, hm_get_all m k = []) -> hm_iter m = [].
Proof.
  intros Hm. destruct (hm_iter m) as [|[k v] l] eqn:Hl; [done|]. specialize (Hm k). rewrite <-(iter_get_all m k), Hl in Hm.
  rewrite filter_cons_True in Hm by done. done.
Qed.
Lemma trailers_ok_new : trailers_ok hm_new.
Proof. unfold trailers_ok. rewrite iter_nil; [done|]. apply get_all_new. Qed.

Definition frame_ok (f : result string (Frame M)) : Prop :=
  match f with
  | Ok (FrameData l) => l ≠ [] /\ len l < U64_LIMIT
  | Ok (FrameTrailers t) => trailers_ok t
  | Ok OtherFrame => False
  | Err _ => True
  end.

Lemma write_frames_sound chunked fs t keep (w w' : W) t' keep' :
  Forall frame_ok fs -> trailers_ok t -> write_frames chunked fs t keep w = (Ok (t', keep'), w') ->
  keep' = keep /\ trailers_ok t'
  /\ exists wire, written w' = written w ++ wire /\ piece chunked (BodyStream.frames_data fs) wire.
Proof.
  intros Hfs. revert t w. induction Hfs as [|f fs Hf Hfs IH]; intros t w Ht.
  { intros [= <- <- <-]. split_and!; [done..|]. exists []. rewrite app_nil_r. split; [done|apply piece_nil]. }
  destruct f as [[l|tr|]|e]; cbn [write_frames BodyStream.frames_data]; [|by apply IH|done|done].
  intros ([] & w1 & H1 & H2)%eff_bind_Ok. destruct Hf as [Hne Hlen].
  destruct (send_data_sound _ _ _ _ Hne Hlen H1) as (wire1 & Hw1 & Hp1).
  destruct (IH _ _ Ht H2) as (-> & Ht' & wire2 & Hw2 & Hp2). split_and!; [done..|].
  exists (wire1 ++ wire2). split; [by rewrite Hw2, Hw1, app_assoc|]. by apply piece_app.
Qed.

Lemma finish_chunked_sound (chunked : bool) (t : M) (w w' : W) :
  trailers_ok t -> finish_chunked chunked t w = (Ok tt, w') ->
  exists tail, written w' = written w ++ tail /\ if chunked then chunked_wire [] tail else tail = [].
Proof.
  intros Ht. unfold finish_chunked. destruct chunked.
  - intros Hw%put_Ok. eexists. split; [exact Hw|]. rewrite header_block_lines. apply (wire_end [48]); [done|done|].
    unfold trailers_ok in Ht. apply Forall_fmap. eapply Forall_impl; [exact Ht|]. intros e He. split; [|exact He].
    intros Hnil. apply (f_equal length) in Hnil. rewrite !length_app in Hnil. cbn in Hnil. lia.
  - intros [= <-]. exists []. by rewrite app_nil_r.
Qed.

Context `{HMML : !HeaderMapMut M} `{HMMLL : !HeaderMapMutLaws M} {HC : HttpCrate} `{HCL : !HttpCrateLaws}.

(** The pieces and the last one are the body the head announces. *)
Lemma pieces_framed {R} `{HRL : ResponseHeadersLaws R} (h : R) data wire tail keep :
  let chunked := rh_token h "transfer-encoding" "chunked" in
  piece chunked data wire -> (if chunked then chunked_wire [] tail else tail = []) ->
  (chunked = false -> keep = true -> values h "content-length" ≠ []) ->
  framed h data (wire ++ tail) keep.
Proof.
  intros chunked Hp Ht Hcl. unfold framed. fold chunked. destruct chunked.
  - specialize (Hp [] tail Ht). by rewrite app_nil_r in Hp.
  - subst tail. rewrite app_nil_r. split; [done|]. by apply Hcl.
Qed.

Lemma response_written request_method rka (r : Response) (w w' : W) keep :
  Forall frame_ok (frames r) -> write_http1_response request_method rka r w = (Ok keep, w') ->
  let v := http1_version (version r) in
  exists (h : M) body,
    written w' = written w ++ write_http1_status_line v (status r) ++ header_block (hm_iter h) ++ CRLF ++ body
    /\ head_agrees v rka h keep
    /\ (forall k, k ≠ "connection" -> k ≠ "transfer-encoding" -> values h k = values (headers r) k)
    /\ if http1_response_has_no_body (status r) request_method then body = []
       else framed h (BodyStream.frames_data (frames r)) body keep.
Proof.
  intros Hfs. unfold write_http1_response. cbv zeta.
  destruct (framing _ _ rka (headers r)) as [[h chunked] keep0] eqn:Hf.
  destruct (framing_spec _ _ _ _ _ _ _ Hf) as (Hc & Hk & Hv & Hcl).
  intros ([] & w1 & Hw1%put_Ok & Hr)%eff_bind_Ok. cbn [rh_lines map_headers] in Hw1.
  destruct (http1_response_has_no_body (status r) request_method) eqn:Hno; cbn [negb] in Hr, Hcl.
  - injection Hr as <- <-. exists h, []. split_and!; [by rewrite Hw1, app_nil_r|by destruct keep0|done|done].
  - apply eff_bind_Ok in Hr as ([t keep1] & w2 & Hb & Hr).
    apply eff_bind_Ok in Hr as ([] & w3 & Hfin & [= <- <-]).
    destruct (write_frames_sound _ _ _ _ _ _ _ _ Hfs trailers_ok_new Hb) as (-> & Ht & wire & Hw2 & Hp).
    destruct (finish_chunked_sound _ _ _ _ Ht Hfin) as (tail & Hw3 & Htail).
    exists h, (wire ++ tail). split_and!; [by rewrite Hw3, Hw2, Hw1, <-!app_assoc|by destruct keep0|done|].
    rewrite Hc in Hp, Htail, Hcl. apply pieces_framed; [done..|]. by apply Hcl.
Qed.

(** C3. A response that has been written is what its head says it is: the head
    and then the body, and on a connection that will be reused either a
    well-formed chunked body under a [transfer-encoding: chunked] or the data
    under a [content-length]; nothing for a response that has no body.  The head
    says [connection: close] exactly when the connection is closed, a
    connection is kept only if the request allows it, and every other header is
    the response's own. *)
Theorem response_framed request_method rka (r : Response) (w w' : W) keep :
  Forall frame_ok (frames r) -> write_http1_response request_method rka r w = (Ok keep, w') ->
  let v := http1_version (version r) in
  exists (h : M) body,
    written w' = written w ++ write_http1_status_line v (status r) ++ header_block (hm_iter h) ++ CRLF ++ body
    /\ head_agrees v rka h keep
    /\ (forall k, k ≠ "connection" -> k ≠ "transfer-encoding" -> values h k = values (headers r) k)
    /\ if http1_response_has_no_body (status r) request_method then body = []
       else framed h (BodyStream.frames_data (frames r)) body keep.
Proof. apply response_written. Qed.
End frames.
End writer_laws.

#[local] Existing Instances Http1Upstream.bytes_sink Http1Upstream.bytes_sink_laws.
(** Two status codes for the witnesses. *)
#[export] Instance few_codes : StatusCrate := {
  status_from_u16 n := if (100 <=? n) && (n <? 1000) then Some n else None;
  status_as_str n := Bytes.dec n;
  canonical_reason n := if n =? 200 then Some "OK" else None;
}.

(** A chunked answer to a GET, and an answer that closes an HTTP/1.0
    connection. *)
Lemma response_framed_witness :
  let r := MkResponse (M:=list (string * list Z)) V11 200 [("x", [49])] [Ok (FrameData [104; 105]); Ok (FrameTrailers [])] in
  let run := write_http1_response (W:=list Z) (HC:=any_crate) "GET" true r [] in
  run = (Ok true, bytes_of_string "HTTP/1.1 200 OK" ++ CRLF ++ bytes_of_string "x: 1" ++ CRLF
    ++ bytes_of_string "transfer-encoding: chunked" ++ CRLF ++ CRLF
    ++ bytes_of_string "2" ++ CRLF ++ [104; 105] ++ CRLF ++ bytes_of_string "0" ++ CRLF ++ CRLF)
  /\ exists h body, run.2 = write_http1_status_line HTTP_11 200 ++ header_block h ++ CRLF ++ body
      /\ framed (H:=list (string * list Z)) (H0:=map_headers (HC:=any_crate)) h [104; 105] body true.
Proof.
  intros r run. assert (Hrun : run = (Ok true, run.2)) by (vm_compute; reflexivity).
  split; [vm_compute; reflexivity|].
  destruct (response_framed (W:=list Z) (HC:=any_crate) "GET" true r [] run.2 true) as (h & body & Hw & _ & _ & Hb).
  - repeat constructor; cbn; try lia; done.
  - exact Hrun.
  - exists h, body. split; [exact Hw|exact Hb].
Defined.
End Http1ResponseWriter.
