(* ===== verification/Http1Relay.v ===== *)
(** Properties of the responses a downstream HTTP/1 connection relays
    ([write_native_http1_response], [write_native_local_http1_response] and
    [write_snapshot_http1_response] of
    [src/runtime/http_plane/http1_fast_path.rs], defined in
    Http1ResponseWriter.v): the client's body is the upstream's, framed by the
    head; the upstream's connection goes back to its pool only after it. *)

From S2P Require Import Prelude Bytes Effects TlsFlow Http1Text Http1Io HttpHeaders Http1SenderPool Http1ResponseBody Http1FastPath Http1Upstream BodyStream UpstreamBody Http1ResponseWriter.

Module Http1Relay.
Import Http1Text Http1Io HttpHeaders Http1SenderPool Http1ResponseBody Http1ResponseWriter.
Import Http1FastPath(Version, HTTP_10, HTTP_11).
Import Http1Upstream(Sink, SinkLaws, written, OutboundHttp1ForwardBody, NoBody, Raw).
Import BodyStream(Frame, FrameData, FrameTrailers, OtherFrame).

(** ** The trailers of an upstream stay on their lines *)

Section trailers.
Context {M : Type} `{HML : HeaderMapLaws M} {HC : HttpCrate} `{HCL : !HttpCrateLaws}.

Lemma elem_iter (m : M) e : e ∈ hm_iter m <-> e.2 ∈ hm_get_all m e.1.
Proof.
  rewrite <-iter_get_all, list_elem_of_fmap. setoid_rewrite list_elem_of_filter. split; [by exists e|].
  destruct e as [k v]. intros ([k' v'] & Hv & Hk & He). cbn in *. by subst.
Qed.

Lemma trailers_ok_append n v (m : M) :
  trailers_ok m -> is_line (bytes_of_string n ++ [58; 32] ++ v) -> trailers_ok (hm_append n v m).
Proof.
  unfold trailers_ok. rewrite !Forall_forall. intros Hm Hl [k w]. rewrite elem_iter. cbn [fst snd]. rewrite get_all_append.
  rewrite elem_of_app. intros [Hw|Hw]; [by apply (Hm (k, w)), elem_iter|]. case_bool_decide; [|by apply elem_of_nil in Hw].
  apply list_elem_of_singleton in Hw. by subst.
Qed.

Lemma lower_13 b : lower b = 13 -> b = 13.
Proof. unfold lower. destruct (_ && _) eqn:Hb; lia. Qed.

Lemma header_line name n raw v :
  header_name name = Ok n -> header_value raw = Ok v -> is_line (bytes_of_string n ++ [58; 32] ++ v).
Proof.
  intros Hn Hv. apply no_cr_is_line. rewrite (header_name_lower _ _ Hn). pose proof (header_name_no_cr _ _ Hn) as Hncr.
  pose proof (header_value_no_cr _ _ Hv) as Hvcr. rewrite (header_value_same _ _ Hv).
  rewrite !elem_of_app. intros [(b & Hb & Hin)%list_elem_of_fmap|[Hs|Hin]]; [|set_solver|done].
  symmetry in Hb. apply lower_13 in Hb. by subst.
Qed.

Definition trailers_fine (s : State M) : Prop :=
  match Http1ResponseBody.trailers (body s) with Some t => trailers_ok t | None => True end.
Definition progress_state (pr : progress (M:=M)) : State M := match pr with Continue s | Return _ s => s end.

Lemma record_trailer_fine line (s : State M) next :
  trailers_fine s -> (forall s, trailers_fine s -> trailers_fine (progress_state (next s))) ->
  trailers_fine (progress_state (record_trailer_line line s next)).
Proof.
  intros Hs Hnext. unfold record_trailer_line. destruct (split_colon line) as [[name value]|]; [|done].
  destruct (header_name name) as [n|e] eqn:Hn; [|done]. destruct (header_value _) as [v|e] eqn:Hv; [|done].
  apply Hnext. unfold trailers_fine. cbn. apply trailers_ok_append; [|by eapply header_line].
  unfold trailers_fine in Hs. destruct (Http1ResponseBody.trailers (body s)); [done|]. apply trailers_ok_new.
Qed.

Lemma pull_step_fine (s : State M) : trailers_fine s -> trailers_fine (progress_state (pull_step s)).
Proof.
  destruct s as [[l k t] p]. intros Hs. change (match t with Some t => trailers_ok t | None => True end) in Hs.
  unfold pull_step, pull_data, pull_line, with_connection, read_more, body_release. cbn.
  repeat first [apply record_trailer_fine; [|intros []] | progress cbn | case_match]; simplify_eq/=; try done.
Qed.
End trailers.

(** ** Relaying *)

Section relay.
Context {W : Type} `{HSL : SinkLaws W} `{HSt : StatusCrate}.
Context {M : Type} `{HML : HeaderMapLaws M} {HC : HttpCrate} `{HCL : !HttpCrateLaws}.
Context (vm_error_display : VmError -> string).
Context (key : Http1PoolKey) (cap : Z) (reuse is_dirty : bool) (p : PlainHttp1SenderPool Connection).
Abbreviation live c k t := (MkState (MkBody (MkLease key cap reuse is_dirty (Some c)) k t) p).
Abbreviation given_back := (given_back (M:=M) key cap reuse is_dirty p).

Lemma pull_loop_fine fuel (s : State M) r s' : trailers_fine s -> pull_loop fuel s = Some (r, s') -> trailers_fine s'.
Proof.
  revert s. induction fuel as [|fuel IH]; intros s Hs; [done|]. cbn [pull_loop]. pose proof (pull_step_fine s Hs) as Hf.
  destruct (pull_step s); [by apply IH|]. by intros [= <- <-].
Qed.

(** The upstream's connection is back after exactly one body of kind [k]. *)
Definition released (c : Connection) (k : PlainHttp1BodyKind) (data : list Z) (s : State M) : Prop :=
  exists consumed c', total c = consumed ++ total c' /\ body_wire k data consumed /\ given_back c' s.

Lemma released_moved c k consumed c' k' chunk data s :
  moved c k consumed c' k' chunk -> released c' k' data s -> released c k (chunk ++ data) s.
Proof.
  intros (Ht & _ & _ & Hw) (consumed' & c2 & Ht' & Hw' & Hg). exists (consumed ++ consumed'), c2.
  split_and!; [by rewrite <-app_assoc, <-Ht'|by apply Hw|done].
Qed.

Lemma chunked_wire_le data wire : chunked_wire data wire -> (length data <= length wire)%nat.
Proof. induction 1; [cbn; lia|]. rewrite !length_app. lia. Qed.
Lemma body_wire_le k data wire : body_wire k data wire -> (length data <= length wire)%nat.
Proof.
  destruct 1 as [d|data w Hw%chunked_wire_le|d data w Hw%chunked_wire_le|data w Hw%chunked_wire_le|ts _|d];
    rewrite ?length_app; cbn; lia.
Qed.

Lemma relay_sound fuel chunked c k t (w : W) :
  open_kind k -> trailers_fine (live c k t) -> Z.of_nat (conn_size c) < U64_LIMIT -> (conn_size c + 1 < fuel)%nat ->
  exists r s' w', relay_body vm_error_display fuel chunked (live c k t) w = Some (r, s', w') /\ trailers_fine s' /\
    match r with
    | Err _ => pool s' = p \/ exists data, released c k data s'
    | Ok _ => exists data wire, released c k data s' /\ written w' = written w ++ wire /\ piece chunked data wire
    end.
Proof.
  revert c k t w. induction fuel as [|fuel IH]; intros c k t w Hk Hfine Hmax Hf; [lia|]. cbn [relay_body].
  destruct (pull_loop_sound key cap reuse is_dirty p (body_size (live c k t) + 2) c k t Hk) as (r & s1 & Hp & Hr);
    [unfold body_size; cbn; destruct k as [| |[]|]; cbn; lia|].
  pose proof (pull_loop_fine _ _ _ _ Hfine Hp) as Hfine1. unfold pull_next. rewrite Hp.
  destruct r as [[chunk|]|e]; cbn [return_sound] in Hr.
  - destruct Hr as (Hne & consumed & c' & Hr). assert (Hlen : len chunk < U64_LIMIT).
    { unfold len. destruct Hr as [(k' & t' & _ & _ & Hsz)|(Ht & Hw & _)]; [lia|].
      apply body_wire_le in Hw. unfold conn_size in Hmax. rewrite Ht, length_app in Hmax. lia. }
    destruct (send_data chunked chunk w) as [[[]|e] w1] eqn:Hsend.
    + destruct (send_data_sound _ _ _ _ Hne Hlen Hsend) as (wire1 & Hw1 & Hp1).
      destruct Hr as [(k' & t' & -> & Hmoved & Hsz)|(Ht & Hw & t' & ->)].
      * assert (0 < length chunk)%nat by (destruct chunk; [done|cbn; lia]).
        destruct (IH c' k' t' w1) as (r & s2 & w2 & -> & Hfine2 & Hr); [apply Hmoved|done|lia|lia|].
        exists r, s2, w2. split; [done|]. split; [done|]. destruct r as [[]|e].
        -- destruct Hr as (data & wire & Hrel & Hw2 & Hp2). exists (chunk ++ data), (wire1 ++ wire).
           split_and!; [by eapply released_moved|by rewrite Hw2, Hw1, app_assoc|by apply piece_app].
        -- destruct Hr as [Hr|[data Hr]]; [by left|right]. exists (chunk ++ data). by eapply released_moved.
      * destruct fuel as [|fuel]; [lia|]. cbn. eexists _, _, w1. split; [done|]. split; [exact Hfine1|].
        exists chunk, wire1. split_and!; [|done..]. exists consumed, c'. split_and!; [done..|by exists t'].
    + exists (Err e), s1, w1. split; [done|]. split; [done|].
      destruct Hr as [(k' & t' & -> & _)|(Ht & Hw & Hg)]; [by left|right; exists chunk, consumed, c'; done].
  - destruct Hr as (consumed & c' & Ht & Hw & Hg). exists (Ok tt), s1, w. split_and!; [done..|]. exists [], [].
    split_and!; [by exists consumed, c'|by rewrite app_nil_r|apply piece_nil].
  - eexists _, s1, w. split; [done|]. split; [done|]. by left.
Qed.

Context `{HMM : !HeaderMapMut M} `{HMMLL : !HeaderMapMutLaws M}.

(** The upstream sent exactly one body of kind [k], and its connection is where
    the lease puts it. *)
Definition delivered (c : Connection) (k : PlainHttp1BodyKind) (data : list Z) (p' : PlainHttp1SenderPool Connection) : Prop :=
  exists consumed c', total c = consumed ++ total c' /\ body_wire k data consumed
    /\ p' = if reuse && negb is_dirty then (pool_put key cap c' p).2 else p.

Lemma released_delivered c k data s : released c k data s -> delivered c k data (pool s).
Proof. intros (consumed & c' & Ht & Hw & t & ->). by exists consumed, c'. Qed.

Lemma native_written request_method rka (r : ResolvedNativeHttp1DownstreamResponse) c k t n (w : W) :
  native_body r = Raw (MkBody (MkLease key cap reuse is_dirty (Some c)) k t) n -> open_kind k ->
  trailers_fine (live c k t) -> Z.of_nat (conn_size c) < U64_LIMIT ->
  exists res p' w', write_native_http1_response vm_error_display request_method rka r p w = Some (res, p', w') /\
    match res with
    | Err _ => p' = p \/ exists data, delivered c k data p'
    | Ok keep => let v := http1_version (native_version r) in exists (h : M) out,
        written w' = written w ++ write_http1_status_line v (native_response_status r)
          ++ header_block (hm_iter h) ++ CRLF ++ out
        /\ head_agrees v rka h keep
        /\ (forall k, k ≠ "connection" -> k ≠ "transfer-encoding" -> values h k = values (native_head r) k)
        /\ if http1_response_has_no_body (native_response_status r) request_method then out = [] /\ p' = p
           else exists data, delivered c k data p' /\ framed h data out keep
    end.
Proof.
  intros Hbody Hk Hfine Hmax. unfold write_native_http1_response. cbv zeta. rewrite Hbody.
  destruct (framing _ _ rka (native_head r)) as [[h chunked] keep] eqn:Hf.
  destruct (framing_spec _ _ _ _ _ _ _ Hf) as (Hc & Hkeep & Hv & Hcl).
  destruct (write_head _ _ _ w) as [[[]|e] w1] eqn:Hw1; [|by eexists (Err e), p, w1; split; [|left]].
  apply put_Ok in Hw1. cbn [rh_lines map_headers] in Hw1.
  destruct (http1_response_has_no_body _ request_method) eqn:Hno; cbn [negb] in Hcl |- *.
  { exists (Ok keep), p, w1. split; [done|]. exists h, []. split_and!; [by rewrite Hw1, app_nil_r|by destruct keep|done..]. }
  destruct (relay_sound (body_size (live c k t) + 2) chunked c k t w1 Hk Hfine Hmax) as (res & s & w2 & -> & Hfine2 & Hr);
    [unfold body_size; cbn; lia|].
  destruct res as [[]|e].
  2: { eexists (Err e), _, w2. split; [done|]. destruct Hr as [Hr|[data Hr]]; [by left|right].
       exists data. by apply released_delivered. }
  destruct Hr as (data & wire & Hrel%released_delivered & Hw2 & Hp).
  destruct (finish_chunked _ _ w2) as [[[]|e] w3] eqn:Hfin; cycle 1.
  { eexists (Err e), _, w3. split; [done|]. right. by exists data. }
  assert (Ht : trailers_ok (default hm_new (take_trailers (body s)).1)).
  { unfold trailers_fine in Hfine2. cbn. destruct (Http1ResponseBody.trailers (body s)); [done|apply trailers_ok_new]. }
  destruct (finish_chunked_sound _ _ _ _ Ht Hfin) as (tail & Hw3 & Htail).
  eexists (Ok keep), _, w3. split; [done|]. exists h, (wire ++ tail).
  split_and!; [by rewrite Hw3, Hw2, Hw1, <-!app_assoc|by destruct keep|done|]. exists data. split; [done|].
  rewrite Hc in Hp, Htail, Hcl. apply pieces_framed; [done..|]. by apply Hcl.
Qed.

End relay.

(** ** A response made by the program *)

Section local.
Context {W : Type} `{HSL : SinkLaws W} `{HSt : StatusCrate}.
Context {M : Type} `{HML : HeaderMapLaws M} `{HMM : !HeaderMapMut M} `{HMMLL : !HeaderMapMutLaws M}.
Context {HC : HttpCrate} `{HCL : !HttpCrateLaws}.

Lemma map_values (m : M) k : values m k = hm_get_all m k.
Proof. apply iter_get_all. Qed.

Definition text_plain (r : ResolvedNativeLocalHttp1DownstreamResponse (M:=M)) (body : list Z) : bool :=
  default_content_type r && (0 <? len body) && bool_decide (values (local_headers r) "content-type" = []).

Lemma local_head_values (has_body : bool) (r : ResolvedNativeLocalHttp1DownstreamResponse (M:=M)) k :
  let body := if has_body then local_body r else [] in
  values (local_head has_body r) k
  = if bool_decide (k = "content-length") then [bytes_of_string (Bytes.dec (len body))]
    else if bool_decide (k = "transfer-encoding") then []
    else if text_plain r body && bool_decide (k = "content-type") then [bytes_of_string "text/plain"]
    else values (local_headers r) k.
Proof.
  cbv zeta. unfold local_head, insert_length, text_plain.
  replace (if has_body then len (local_body r) else 0) with (len (if has_body then local_body r else [])) by (by destruct has_body).
  set (body := if has_body then _ else _). rewrite header_value_str_visible by apply dec_visible, len_nonneg.
  assert (Hct : forall m : M, contains_key m "content-type" = negb (bool_decide (values m "content-type" = [])))
    by (intros m; by rewrite map_values).
  rewrite Hct, !map_values, get_all_insert, get_all_remove. cbn [bool_decide].
  rewrite !(bool_decide_false (_ = "content-type")), negb_involutive by done.
  destruct (_ && bool_decide (hm_get_all (local_headers r) _ = [])) eqn:Htp.
  - rewrite !get_all_insert, get_all_remove. cbn [andb].
    repeat case_bool_decide; subst; done.
  - rewrite !get_all_insert, get_all_remove. cbn [andb]. repeat case_bool_decide; subst; done.
Qed.

(** A response the program made is sent exactly: its status line and head,
    then its body and nothing else, under a [content-length] that is the body's
    length and without a [transfer-encoding], whatever the program set; a
    [content-type] of [text/plain] is added only to a body without one; the
    head says whether the connection stays open. *)
Theorem local_response_exact request_method rka version (r : ResolvedNativeLocalHttp1DownstreamResponse (M:=M)) (w w' : W) keep :
  write_native_local_http1_response request_method rka version r w = (Ok keep, w') ->
  let v := http1_version version in
  let body := if http1_response_has_no_body (status_or_ok (local_status r)) request_method then [] else local_body r in
  exists (h : M), written w' = written w ++ write_http1_status_line v (status_or_ok (local_status r))
      ++ header_block (hm_iter h) ++ CRLF ++ body
    /\ head_agrees v rka h keep
    /\ forall k, k ≠ "connection" -> values h k
        = if bool_decide (k = "content-length") then [bytes_of_string (Bytes.dec (len body))]
          else if bool_decide (k = "transfer-encoding") then []
          else if text_plain r body && bool_decide (k = "content-type") then [bytes_of_string "text/plain"]
          else values (local_headers r) k.
Proof.
  intros Hrun. cbv zeta. set (no_body := http1_response_has_no_body _ _) in *. revert Hrun.
  unfold write_native_local_http1_response. cbv zeta. fold no_body.
  set (m := local_head (negb no_body) r). set (keep0 := rka && http1_connection_keep_alive _ m).
  assert (Hk : keep0 = true -> rka = true /\ http1_connection_keep_alive (http1_version version) m = true)
    by (by intros ?%andb_true_iff).
  clearbody keep0.
  destruct (connection_header_spec (http1_version version) keep0 m) as [Hc Hv]; [naive_solver|].
  intros ([] & w1 & Hw1%put_Ok & Hr)%eff_bind_Ok. apply eff_bind_Ok in Hr as ([] & w2 & Hw2 & [= <- <-]).
  exists (connection_header (http1_version version) keep0 m). split_and!.
  - cbn [rh_lines map_headers] in Hw1.
    assert (Hb : written w2 = written w1 ++ (if no_body then [] else local_body r)).
    { destruct no_body; cbn [negb] in Hw2.
      - injection Hw2 as <-. by rewrite app_nil_r.
      - destruct (Z.ltb_spec 0 (len (local_body r))) as [Hl|Hl]; [by apply put_Ok|]. injection Hw2 as <-.
        destruct (local_body r); [by rewrite app_nil_r|]. len_lia. }
    by rewrite Hb, Hw1, <-!app_assoc.
  - destruct keep0; [|done]. split; [by apply Hk|done].
  - intros k Hne. rewrite Hv by done. unfold m. rewrite local_head_values. by destruct no_body.
Qed.
End local.

(** ** A response the program looked at and passed on *)

Section snapshot.
Import UpstreamBody.
Context {W : Type} `{HSL : SinkLaws W} `{HSt : StatusCrate}.
Context {M : Type} `{HML : HeaderMapLaws M} `{HMM : !HeaderMapMut M} `{HMMLL : !HeaderMapMutLaws M}.
Context {HC : HttpCrate} `{HCL : !HttpCrateLaws}.
Context (vm_error_display : VmError -> string).

(** Trailers that stay on their lines, wherever the body keeps them. *)
Definition some_ok (t : option M) : Prop := match t with Some t => trailers_ok t | None => True end.
Definition frame_fine {E} (f : result E (Frame M)) : Prop := match f with Ok (FrameTrailers t) => trailers_ok t | _ => True end.
Definition upstream_fine (s : UpstreamResponseBodySource (M:=M)) : Prop :=
  some_ok (trailers s) /\
  match source s with
  | Hyper fs => Forall frame_fine fs
  | PlainHttp1 b => some_ok (Http1ResponseBody.trailers b)
  | _ => True
  end.

Lemma finish_fine (s : UpstreamResponseBodySource (M:=M)) : some_ok (trailers s) -> upstream_fine (finish s).2.
Proof. intros Hs. unfold upstream_fine. cbn. by rewrite (proj2 (note_complete_same s)). Qed.
Lemma deliver_fine chunk (s : UpstreamResponseBodySource (M:=M)) : upstream_fine s -> upstream_fine (deliver chunk s).2.
Proof. intros Hs. unfold upstream_fine. cbn. by destruct (note_chunk_same (len chunk) s) as [-> ->]. Qed.

Lemma upstream_pull_fine (s : UpstreamResponseBodySource (M:=M)) r s' : upstream_fine s -> upstream_pull s = Some (r, s') -> upstream_fine s'.
Proof.
  intros Hs. pose proof Hs as [Ht Hsrc]. unfold upstream_pull. destruct (source s) as [[|[[l|t|]|e] fs]|b|[|[l|e] cs]|] eqn:Hsource.
  all: try apply Forall_cons in Hsrc as [Hf Hfs].
  5: { by intros [= <- <-]. }
  5: { destruct (pull_next _) as [[r1 st]|] eqn:Hp; [|done].
       pose proof (pull_loop_fine _ (MkState b (shared_pool s)) _ _ Hsrc Hp) as Hb.
       destruct r1 as [[chunk|]|e]; intros [= <- <-]; [by apply (deliver_fine chunk)|by apply finish_fine|by split]. }
  all: intros [= <- <-].
  - by apply finish_fine.
  - by apply (deliver_fine l).
  - by apply finish_fine.
  - by split.
  - by apply finish_fine.
  - by apply (deliver_fine l).
  - by split.
  - done.
Qed.

Lemma next_frame_loop_fine fuel (pt : StreamingUpstreamResponseBodyState (M:=M)) r pt' :
  upstream_fine (streaming_source pt) -> next_frame_loop fuel pt = Some (r, pt') ->
  upstream_fine (streaming_source pt') /\ match r with Ok (Some f) => frame_fine (E:=string) (Ok f) | _ => True end.
Proof.
  revert pt. induction fuel as [|fuel IH]; intros pt Hpt; [done|]. cbn [next_frame_loop].
  destruct (upstream_pull (streaming_source pt)) as [[r1 src]|] eqn:Hp; [|done]. cbn [mbind option_bind].
  pose proof (upstream_pull_fine _ _ _ Hpt Hp) as Hsrc. destruct r1 as [[chunk| |]|e].
  - case_bool_decide; [by apply IH|]. by intros [= <- <-].
  - by apply IH.
  - unfold at_eof. cbn. destruct (trailers src) as [t|] eqn:Ht; [destruct (trailers_sent pt)|]; intros [= <- <-]; [done| |done].
    destruct Hsrc as [Hts Hs]. rewrite Ht in Hts. by split; [split|].
  - by intros [= <- <-].
Qed.

Lemma collect_fine fuel (pt : StreamingUpstreamResponseBodyState (M:=M)) fs r pt' :
  upstream_fine (streaming_source pt) -> collect_frames fuel pt = Some (fs, r, pt') ->
  Forall (fun f => frame_fine (E:=string) (Ok f)) fs.
Proof.
  revert pt fs r pt'. induction fuel as [|fuel IH]; intros pt fs r pt' Hpt; [done|]. cbn [collect_frames].
  destruct (next_frame pt) as [[r1 pt1]|] eqn:Hn; [|done]. cbn [mbind option_bind].
  assert (Hf : upstream_fine (streaming_source pt1) /\ match r1 with Ok (Some f) => frame_fine (E:=string) (Ok f) | _ => True end).
  { revert Hn. unfold next_frame. destruct (prefix pt) as [l|]; [case_bool_decide|]; try (by apply next_frame_loop_fine).
    by intros [= <- <-]. }
  destruct r1 as [[f|]|e]; [|intros [= <- <- <-]; constructor..].
  destruct (collect_frames fuel pt1) as [[[fs1 r1] pt2]|] eqn:Hc; [|done]. cbn [mbind option_bind]. intros [= <- <- <-].
  constructor; [apply Hf|]. by eapply IH; [apply Hf|].
Qed.

(** The frames a stream gave and how it ended. *)
Definition frame_list (fs : list (Frame M)) (r : vm_result unit) : list (result string (Frame M)) :=
  (Ok <$> fs) ++ match r with Ok _ => [] | Err e => [Err (vm_error_display e)] end.

(** Relaying a stream frame by frame is writing its frames. *)
Lemma relay_frames_write fuel chunked (pt : StreamingUpstreamResponseBodyState (M:=M)) t keep (w : W) fs r pt' :
  collect_frames fuel pt = Some (fs, r, pt') ->
  relay_frames vm_error_display fuel chunked pt t keep w = Some (write_frames chunked (frame_list fs r) t keep w).
Proof.
  revert pt t keep w fs r pt'. induction fuel as [|fuel IH]; intros pt t keep w fs r pt'; [done|]. cbn [collect_frames relay_frames].
  destruct (next_frame pt) as [[[[f|]|e] pt1]|]; cbn [mbind option_bind]; [|by intros [= <- <- <-]..|done].
  destruct (collect_frames fuel pt1) as [[[fs1 r1] pt2]|] eqn:Hc; [|done]. cbn [mbind option_bind]. intros [= <- <- <-].
  destruct f as [l|tr|]; cbn [frame_list fmap list_fmap app write_frames]; [|by eapply IH..].
  unfold mbind, eff_bind. destruct (send_data chunked l w) as [[[]|e] w1]; [|done]. by eapply IH.
Qed.

Lemma frame_list_data (chunks : list (list Z)) (ts : list M) r :
  BodyStream.frames_data (frame_list ((FrameData <$> chunks) ++ (FrameTrailers <$> ts)) r) = concat chunks.
Proof.
  unfold frame_list. rewrite fmap_app, <-app_assoc. induction chunks as [|l chunks IH]; cbn; [|by rewrite IH].
  induction ts as [|t ts IH]; [by destruct r|done].
Qed.

Lemma write_frames_err chunked (fs : list (result string (Frame M))) e t keep (w : W) x w' :
  write_frames chunked (fs ++ [Err e]) t keep w ≠ (Ok x, w').
Proof.
  revert t keep w. induction fs as [|[[l|tr|]|e'] fs IH]; intros t keep w; cbn [app write_frames]; [done| |apply IH..|done].
  intros ([] & w1 & _ & Hr)%eff_bind_Ok. by eapply IH.
Qed.

Lemma frames_spec_ok (v : list Z * option VmError) fs r :
  frames_spec (M:=M) v fs r -> len v.1 <= U64_MAX -> Forall (fun f => frame_fine (E:=string) (Ok f)) fs ->
  Forall frame_ok (frame_list fs r).
Proof.
  intros (chunks & ts & -> & Hne & Hd & _) Hmax. rewrite Forall_app, !Forall_fmap. intros [_ Hts].
  unfold frame_list. rewrite fmap_app, !Forall_app, !Forall_fmap. split; [split|by destruct r; repeat constructor].
  - revert v Hd Hmax. induction Hne as [|l chunks Hl Hne IH]; intros v Hd Hmax; constructor.
    + split; [done|]. cbn in Hd. rewrite <-Hd in Hmax. unfold U64_MAX, U64_LIMIT in *. rewrite len_app in Hmax. pose proof (len_nonneg (concat chunks)). cbn in Hmax. lia.
    + apply (IH (concat chunks, None)); [done|]. cbn in Hd. rewrite <-Hd, len_app in Hmax. pose proof (len_nonneg l). cbn in *. lia.
  - done.
Qed.

(** Looking at a response does not change it: whatever part of the body the
    program read before, the client gets the whole of it from the first byte,
    framed the way the head says, and the writer does not report success when
    the upstream failed. *)
Theorem snapshot_relayed request_method rka (r : ResolvedSnapshotHttp1DownstreamResponse (M:=M)) (w : W) :
  let b := snapshot_body r in
  BodyStream.ok (stream b) (body_source b) -> upstream_fine (body_source b) ->
  len (BodyStream.whole (stream b) (body_source b)).1 <= U64_MAX -> is_known_empty b = false ->
  exists res w', write_snapshot_http1_response vm_error_display request_method rka r w = Some (res, w') /\
    match res with
    | Err _ => True
    | Ok keep => let v := http1_version (snapshot_version r) in exists (h : SnapshotHttp1DownstreamHeaders M) out,
        written w' = written w ++ write_http1_status_line v (status_or_ok (snapshot_status r))
          ++ header_block (rh_lines h) ++ CRLF ++ out
        /\ head_agrees v rka h keep
        /\ (forall k, k ≠ "connection" -> k ≠ "transfer-encoding" -> values h k = values (snapshot_head r) k)
        /\ if http1_response_has_no_body (status_or_ok (snapshot_status r)) request_method then out = []
           else (BodyStream.whole (stream b) (body_source b)).2 = None
                /\ framed h (BodyStream.whole (stream b) (body_source b)).1 out keep
    end.
Proof.
  intros b Hok Hfine Hmax Hne. unfold write_snapshot_http1_response, take_body_passthrough. cbv zeta. fold b. rewrite Hne.
  destruct (framing _ _ rka (snapshot_head r)) as [[h chunked] keep] eqn:Hf.
  destruct (framing_spec _ _ _ _ _ _ _ Hf) as (Hc & Hkeep & Hv & Hcl).
  rewrite bool_decide_true, andb_true_r in Hcl by by eexists.
  destruct (write_head _ _ _ w) as [[[]|e] w1] eqn:Hw1; [|by eexists (Err e), w1]. apply put_Ok in Hw1.
  destruct (http1_response_has_no_body _ request_method) eqn:Hno; cbn [negb] in Hcl |- *.
  { exists (Ok keep), w1. split; [done|]. exists h, []. split_and!; [by rewrite Hw1, app_nil_r|by destruct keep|done..]. }
  destruct (passthrough_frames b Hok) as (fs & res & pt & Hall & Hspec).
  pose proof (collect_fine _ _ _ _ _ (Hfine : upstream_fine (streaming_source (take_streaming_passthrough b).1)) Hall) as Hff.
  unfold all_frames in Hall. rewrite (relay_frames_write _ _ _ _ _ _ _ _ _ Hall).
  destruct (write_frames _ _ _ _ w1) as [[[t keep1]|e] w2] eqn:Hw2; [|by eexists (Err e), w2].
  destruct (write_frames_sound _ _ _ _ _ _ _ _ (frames_spec_ok _ _ _ Hspec Hmax Hff) trailers_ok_new Hw2)
    as (-> & Ht & wire & Hw2' & Hp).
  destruct (finish_chunked _ _ w2) as [[[]|e] w3] eqn:Hfin; [|by eexists (Err e), w3].
  destruct (finish_chunked_sound _ _ _ _ Ht Hfin) as (tail & Hw3 & Htail).
  destruct Hspec as (chunks & ts & -> & _ & Hd & _ & Hend).
  destruct res as [[]|e]; [|exfalso; unfold frame_list in Hw2; by apply write_frames_err in Hw2].
  eexists (Ok keep), w3. split; [done|]. exists h, (wire ++ tail).
  split_and!; [by rewrite Hw3, Hw2', Hw1, <-!app_assoc|by destruct keep|done|done|].
  rewrite frame_list_data, Hd in Hp. rewrite Hc in Hp, Htail, Hcl. apply pieces_framed; [done..|]. by apply Hcl.
Qed.
End snapshot.

(** ** Concrete responses *)

#[local] Existing Instances Http1Upstream.bytes_sink Http1Upstream.bytes_sink_laws.
Abbreviation hmap := (list (string * list Z)).

Definition line (s : string) : list Z := bytes_of_string s ++ CRLF.
Definition show (e : VmError) : string := "error".

(** An upstream that sends "hi" in a chunk, a trailer, and more. *)
Definition hi_chunked : Connection := MkConn [] [Data (line "2" ++ bytes_of_string "hi" ++ CRLF ++ line "0" ++ line "x: 1" ++ CRLF ++ [72])].
Definition hi_lease : PlainHttp1SenderLease Connection := new_lease (Plain "k") 4 true hi_chunked.
Definition hi_response (upstream response : hmap) : ResolvedNativeHttp1DownstreamResponse (M:=hmap) :=
  MkNative 200 upstream V11 (Raw (new hi_lease (Chunked NeedSize)) None) response None.


Definition hello_local : ResolvedNativeLocalHttp1DownstreamResponse (M:=hmap) :=
  MkLocal 200 [("transfer-encoding", bytes_of_string "chunked"); ("content-length", [57])] (bytes_of_string "hello") true.
Lemma local_response_exact_witness :
  let run := write_native_local_http1_response (HC:=any_crate) "GET" false V10 hello_local ([] : list Z) in
  run = (Ok false, line "HTTP/1.0 200 OK" ++ line "content-length: 5" ++ line "content-type: text/plain"
    ++ line "connection: close" ++ CRLF ++ bytes_of_string "hello")
  /\ exists h : hmap, values (H0:=map_headers (HC:=any_crate)) h "content-length" = [[53]]
      /\ values (H0:=map_headers (HC:=any_crate)) h "transfer-encoding" = [].
Proof.
  intros run. assert (Hrun : run = (Ok false, run.2)) by (vm_compute; reflexivity). split; [vm_compute; reflexivity|].
  destruct (local_response_exact (W:=list Z) (HC:=any_crate) "GET" false V10 hello_local [] run.2 false Hrun) as (h & _ & _ & Hv).
  exists h. split; (rewrite Hv by done; by vm_compute).
Defined.

(** A program that read "h" of a body "hi" and passes the response on. *)
Definition hi_body : UpstreamBody.UpstreamResponseBodyState (M:=hmap) :=
  UpstreamBody.from_hyper [Ok (FrameData [104; 105])] None None (Some 2) new_pool.
Definition looked_at : ResolvedSnapshotHttp1DownstreamResponse (M:=hmap) :=
  MkSnapshot 200 (Snapshot [("content-length", [50])] [("a", [49])]) V11
    (match UpstreamBody.upstream_reads [BodyStream.ReadNextChunk 1] hi_body with Some (_, b) => b | None => hi_body end).
Lemma snapshot_relayed_witness :
  exists w', write_snapshot_http1_response (HC:=any_crate) show "GET" true looked_at ([] : list Z) = Some (Ok true, w')
    /\ w' = line "HTTP/1.1 200 OK" ++ line "content-length: 2" ++ line "a: 1" ++ CRLF ++ [104; 105]
    /\ exists h out, framed (H:=SnapshotHttp1DownstreamHeaders hmap) (H0:=snapshot_headers (HC:=any_crate)) h [104; 105] out true.
Proof.
  destruct (snapshot_relayed (W:=list Z) (HC:=any_crate) show "GET" true looked_at []) as (res & w' & Hrun & Hr);
    [|by vm_compute|by vm_compute|by vm_compute|].
  { split; [done|vm_compute; split; congruence|done]. }
  pose proof Hrun as Hgot. vm_compute in Hgot. injection Hgot as <- <-.
  eexists. split; [exact Hrun|]. split; [by vm_compute|]. destruct Hr as (h & out & _ & _ & _ & _ & Hf). by exists h, out.
Defined.

(** *** Where the head and the body part *)

(** An upstream that sends both a [transfer-encoding: chunked] and a
    [content-length] is relayed under its [content-length], whatever it says,
    with the data of the chunks, on a connection that stays open. *)
Lemma native_keeps_wrong_length :
  let r := hi_response [("content-length", [53]); ("transfer-encoding", bytes_of_string "chunked")] [] in
  option_map (fun x => (x.1.1, x.2)) (write_native_http1_response (HC:=any_crate) show "GET" true r new_pool ([] : list Z))
  = Some (Ok true, line "HTTP/1.1 200 OK" ++ line "content-length: 5" ++ CRLF ++ bytes_of_string "hi").
Proof. by vm_compute. Qed.

(** An upstream's empty chunked body, read to its end by the program, is passed
    on without a length and without chunks on a connection that stays open: the
    client waits. *)
Lemma snapshot_empty_unframed :
  let b := match UpstreamBody.upstream_reads [BodyStream.ReadAll] (UpstreamBody.from_hyper (M:=hmap) [] None None None new_pool) with
           | Some (_, b) => b | None => hi_body end in
  write_snapshot_http1_response (HC:=any_crate) show "GET" true
    (MkSnapshot (M:=hmap) 200 (Snapshot [("transfer-encoding", bytes_of_string "chunked")] []) V11 b) ([] : list Z)
  = Some (Ok true, line "HTTP/1.1 200 OK" ++ CRLF).
Proof. by vm_compute. Qed.

(** The answer to a HEAD says the length of what it does not send. *)
Lemma head_says_length_zero :
  write_native_local_http1_response (HC:=any_crate) "HEAD" true V11 hello_local ([] : list Z)
  = (Ok true, line "HTTP/1.1 200 OK" ++ line "content-length: 0" ++ CRLF).
Proof. by vm_compute. Qed.

(** Of two cookies the program adds to a relayed response, one is sent. *)
Lemma native_drops_repeated :
  let r := hi_response [] [("set-cookie", [97]); ("set-cookie", [98])] in
  values (H0:=map_headers (HC:=any_crate)) (native_head (HC:=any_crate) r) "set-cookie" = [[98]].
Proof. by vm_compute. Qed.
End Http1Relay.
