(* ===== verification/DownstreamResponse.v ===== *)
(** Model of the response a program builds ([HttpResponseOutputNode] of
    [src/abi_impl/http/state/downstream_response.rs], the host calls of
    [src/abi_impl/http/response.rs] and the context methods of
    [src/abi_impl/http/state.rs] they use): a head, and a body given at once,
    in pieces through a channel, or by an upstream exchange. *)

From S2P Require Import Prelude Bytes Effects TransportState Http1Text HttpHeaders Http1FastPath Http1Upstream BodyStream Http1ResponseWriter.

Module DownstreamResponse.
Import HttpHeaders Http1Text(U64_LIMIT).
Import Http1ResponseWriter(StatusCrate, status_from_u16, status_as_str, canonical_reason, ResponseHeaders, values,
  is_hop_by_hop_header, merge_http_headers, Response, MkResponse, V11, status_or_ok,
  ResolvedNativeLocalHttp1DownstreamResponse, MkLocal, SnapshotHttp1DownstreamHeaders, Snapshot, Explicit).
Import BodyStream(Frame, FrameData, FrameTrailers, OtherFrame).

(** ** The body in pieces *)

(** What the two ends of the unbounded channel share: the chunks sent and not
    yet received, and whether the receiver is gone. *)
Record Channel := MkChannel {
  in_flight : list (list Z);
  receiver_closed : bool;
}.
#[export] Instance eta_channel : Eta Channel := fun c => MkChannel c.(in_flight) c.(receiver_closed).

Definition IMPLICIT_DOWNSTREAM_RESPONSE_STREAM_CHUNK_BYTES : Z := 8 * 1024.

Inductive DownstreamResponseStreamWriteMode :=
| ImplicitBuffered
| ExplicitImmediate.

Record DownstreamResponseBodyStream := MkBodyStream {
  sender : bool;                 (** whether the stream still has its ends *)
  receiver : bool;
  buffered : list Z;
  committed : bool;
  finished : bool;
  wrote_any_bytes : bool;
  channel : Channel;
}.
#[export] Instance eta_body_stream : Eta DownstreamResponseBodyStream := fun s =>
  MkBodyStream s.(sender) s.(receiver) s.(buffered) s.(committed) s.(finished) s.(wrote_any_bytes) s.(channel).

Definition new : DownstreamResponseBodyStream := MkBodyStream true true [] false false false (MkChannel [] false).

Definition start : eff VmError DownstreamResponseBodyStream bool :=
  s ← get_state;
  _ ← throw_if s.(finished) (HostError "downstream response stream is already finished");
  if s.(committed) then mret false
  else _ ← modify (fun s => s <| committed := true |>); mret true.

Definition send (chunk : list Z) : eff VmError DownstreamResponseBodyStream unit :=
  s ← get_state;
  _ ← throw_if (negb s.(sender)) (HostError "downstream response stream is unavailable for further writes");
  _ ← throw_if s.(channel).(receiver_closed)
        (HostError "downstream response stream receiver closed before writes completed");
  modify (fun s => s <| channel := s.(channel) <| in_flight := s.(channel).(in_flight) ++ [chunk] |> |>).

Definition flush_buffered : eff VmError DownstreamResponseBodyStream bool :=
  s ← get_state;
  if bool_decide (s.(buffered) = []) then mret false
  else
    let chunk := s.(buffered) in
    _ ← modify (fun s => s <| buffered := [] |>);
    committed_now ← start;
    _ ← modify (fun s => s <| wrote_any_bytes := true |>);
    _ ← send chunk;
    mret committed_now.

Definition write_bytes (bytes : list Z) (mode : DownstreamResponseStreamWriteMode)
    : eff VmError DownstreamResponseBodyStream bool :=
  s ← get_state;
  _ ← throw_if s.(finished) (HostError "downstream response stream is already finished");
  if bool_decide (bytes = []) then mret false
  else
    _ ← modify (fun s => s <| buffered := s.(buffered) ++ bytes |>);
    match mode with
    | ExplicitImmediate => flush_buffered
    | ImplicitBuffered =>
        s ← get_state;
        if IMPLICIT_DOWNSTREAM_RESPONSE_STREAM_CHUNK_BYTES <=? len s.(buffered) then flush_buffered else mret false
    end.

Definition finish : eff VmError DownstreamResponseBodyStream bool :=
  s ← get_state;
  if s.(finished) then mret false
  else
    committed_now ← flush_buffered;
    _ ← modify (fun s => s <| finished := true |> <| sender := false |>);
    mret committed_now.

Definition take_receiver : eff VmError DownstreamResponseBodyStream unit :=
  s ← get_state;
  _ ← throw_if (negb s.(receiver)) (HostError "downstream response stream receiver has already been consumed");
  modify (fun s => s <| receiver := false |>).

(** ** The response *)

Section response.
Context {M : Type} `{HM : HeaderMap M} `{HMM : !HeaderMapMut M} `{HC : HttpCrate}.

Record HttpResponseOutputNode := MkNode {
  headers : M;
  body : option (list Z);
  body_stream : option DownstreamResponseBodyStream;
  status : option Z;
  body_source_exchange : option Z;
  stream_ready_notify : nat;         (** the calls of [notify_waiters] *)
}.
#[export] Instance eta_node : Eta HttpResponseOutputNode := fun r =>
  MkNode r.(headers) r.(body) r.(body_stream) r.(status) r.(body_source_exchange) r.(stream_ready_notify).

Definition default_node : HttpResponseOutputNode := MkNode hm_new None None None None 0.

Definition has_local_body (r : HttpResponseOutputNode) : bool :=
  bool_decide (is_Some r.(body)) || bool_decide (is_Some r.(body_stream)).
Definition stream_committed (r : HttpResponseOutputNode) : bool :=
  match r.(body_stream) with Some s => s.(committed) | None => false end.

(** A call on the stream, when there is one. *)
Definition on_stream {A} (m : eff VmError DownstreamResponseBodyStream A) (none : A) : eff VmError HttpResponseOutputNode A :=
  fun r =>
    match r.(body_stream) with
    | Some s => let '(a, s) := m s in (a, r <| body_stream := Some s |>)
    | None => (Ok none, r)
    end.

Definition ensure_stream_mut (r : HttpResponseOutputNode) : HttpResponseOutputNode :=
  r <| body := None |> <| body_source_exchange := None |> <| body_stream := Some (default new r.(body_stream)) |>.

Definition sync_response_output_stream_headers (r : HttpResponseOutputNode) : HttpResponseOutputNode :=
  r <| headers := hm_remove "content-length" r.(headers) |>.

Definition sync_response_output_body_headers (r : HttpResponseOutputNode) : HttpResponseOutputNode :=
  let r := r <| body_stream := None |> in
  match r.(body) with
  | Some body =>
      let r := r <| headers := hm_remove "transfer-encoding" r.(headers) |> in
      match header_value_str (Bytes.dec (len body)) with
      | Some value => r <| headers := hm_insert "content-length" value r.(headers) |>
      | None => r
      end
  | None => r
  end.

(** The fields of the state of a downstream request that the calls use, and the
    transport's flow. *)
Record HttpVmTouchState := MkTouches {
  request_body_read : bool;
  response_body_read : bool;
  response_body_mutated : bool;
  response_headers_mutated : bool;
  response_status_mutated : bool;
  exchange_response_body_reads : gset Z;
}.
#[export] Instance eta_touches : Eta HttpVmTouchState := fun t =>
  MkTouches t.(request_body_read) t.(response_body_read) t.(response_body_mutated) t.(response_headers_mutated)
    t.(response_status_mutated) t.(exchange_response_body_reads).

Inductive DownstreamPostResponsePlan :=
| ConnectTunnel
| WebSocketTunnel (selected_subprotocol : option string).
#[export] Instance DownstreamPostResponsePlan_eq_dec : EqDecision DownstreamPostResponsePlan.
Proof. solve_decision. Defined.

(** The fields of a forwarded response that the calls change. *)
Record NativeDefaultUpstreamForwardResponse := MkForward {
  native_status : Z;
  native_headers : M;
}.
#[export] Instance eta_forward : Eta NativeDefaultUpstreamForwardResponse := fun n =>
  MkForward n.(native_status) n.(native_headers).

Record DownstreamState := MkDownstream {
  response_output : HttpResponseOutputNode;
  post_response_plan : option DownstreamPostResponsePlan;
  native_default_upstream_http_forward : bool;
  native_default_upstream_forward_response : option (result string NativeDefaultUpstreamForwardResponse);
  vm_touches : HttpVmTouchState;
  downstream_flow : TcpFlow.TcpFlowState;
}.
#[export] Instance eta_downstream : Eta DownstreamState := fun d =>
  MkDownstream d.(response_output) d.(post_response_plan) d.(native_default_upstream_http_forward)
    d.(native_default_upstream_forward_response) d.(vm_touches) d.(downstream_flow).

Abbreviation host_call := (eff VmError DownstreamState).

Definition on_response {A} (m : eff VmError HttpResponseOutputNode A) : host_call A :=
  zoom response_output (fun r d => d <| response_output := r |>) m.
Definition touch (f : HttpVmTouchState -> HttpVmTouchState) : host_call unit :=
  modify (fun d => d <| vm_touches := f d.(vm_touches) |>).

Definition notify_if (committed_now : bool) : eff VmError HttpResponseOutputNode unit :=
  modify (fun r => if committed_now then r <| stream_ready_notify := S r.(stream_ready_notify) |> else r).

Definition body_selected (r : HttpResponseOutputNode) : bool :=
  bool_decide (is_Some r.(body)) || bool_decide (is_Some r.(body_source_exchange)).

Definition start_downstream_response_stream : host_call unit :=
  _ ← touch (fun t => t <| response_body_mutated := true |>);
  on_response (
    r ← get_state;
    _ ← throw_if (body_selected r) (HostError
          "downstream response stream cannot begin after a buffered body or exchange body is already selected");
    _ ← modify sync_response_output_stream_headers;
    _ ← modify ensure_stream_mut;
    committed_now ← on_stream start false;
    notify_if committed_now).

Definition write_downstream_response_stream_bytes (bytes : list Z) (mode : DownstreamResponseStreamWriteMode)
    : host_call unit :=
  _ ← modify (fun d => d <| downstream_flow := TcpFlow.note_write d.(downstream_flow) |>);
  _ ← touch (fun t => t <| response_body_mutated := true |>);
  on_response (
    r ← get_state;
    _ ← throw_if (body_selected r) (HostError
          "downstream response stream cannot accept writes after a buffered body or exchange body is already selected");
    _ ← modify sync_response_output_stream_headers;
    _ ← modify (fun r =>
          if negb (bool_decide (bytes = [])) && negb (contains_key r.(headers) "content-type")
          then r <| headers := hm_insert "content-type" (bytes_of_string "text/plain") r.(headers) |> else r);
    _ ← modify ensure_stream_mut;
    committed_now ← on_stream (write_bytes bytes mode) false;
    notify_if committed_now).

Definition finish_downstream_response_stream : host_call unit :=
  on_response (committed_now ← on_stream finish false; notify_if committed_now).

Definition append_response_output_body_bytes (bytes : list Z) : host_call unit :=
  write_downstream_response_stream_bytes bytes ImplicitBuffered.

(** *** The head *)

Definition ensure_downstream_response_head_mutable : host_call unit :=
  d ← get_state;
  throw_if (stream_committed d.(response_output))
    (HostError "downstream response headers and status are immutable after response streaming begins").

(** Whether the head of a forwarded response is changed in place: nothing else
    has been set. *)
Definition forward_head (d : DownstreamState) : option NativeDefaultUpstreamForwardResponse :=
  let r := d.(response_output) in
  if bool_decide (d.(post_response_plan) = None) && negb (has_local_body r) && bool_decide (r.(body_source_exchange) = None)
     && bool_decide (r.(status) = None) && bool_decide (hm_iter r.(headers) = [])
  then match d.(native_default_upstream_forward_response) with Some (Ok n) => Some n | _ => None end
  else None.

(** A change of the headers, of the forwarded response or of the output. *)
Definition change_headers (f : M -> M) (d : DownstreamState) : DownstreamState :=
  match forward_head d with
  | Some n => d <| native_default_upstream_forward_response := Some (Ok (n <| native_headers := f n.(native_headers) |>)) |>
  | None => d <| response_output := d.(response_output) <| headers := f d.(response_output).(headers) |> |>
  end.

Definition note_downstream_response_headers_mutated : host_call unit :=
  touch (fun t => t <| response_headers_mutated := true |>).

Definition insert_downstream_response_header (name : string) (value : list Z) : host_call unit :=
  _ ← note_downstream_response_headers_mutated;
  _ ← ensure_downstream_response_head_mutable;
  modify (change_headers (hm_insert name value)).

(** [IntoIterator for HeaderMap] names the first value of a name only. *)
Fixpoint first_values (seen : list string) (l : list (string * list Z)) : list (string * list Z) :=
  match l with
  | [] => []
  | (n, v) :: l => if bool_decide (n ∈ seen) then first_values seen l else (n, v) :: first_values (n :: seen) l
  end.

Definition insert_downstream_response_headers (batch : M) : host_call unit :=
  _ ← note_downstream_response_headers_mutated;
  _ ← ensure_downstream_response_head_mutable;
  modify (change_headers (fun m => foldl (fun m e => hm_insert e.1 e.2 m) m (first_values [] (hm_iter batch)))).

Definition set_downstream_response_status (code : Z) : host_call unit :=
  _ ← touch (fun t => t <| response_status_mutated := true |>);
  _ ← ensure_downstream_response_head_mutable;
  modify (fun d =>
    match forward_head d with
    | Some n => d <| native_default_upstream_forward_response := Some (Ok (n <| native_status := code |>)) |>
    | None => d <| response_output := d.(response_output) <| status := Some code |> |>
    end).

(** *** The host calls *)

Definition parse_header_name (name : string) : vm_result string :=
  match header_name (bytes_of_string name) with
  | Ok n => Ok n
  | Err _ => Err (HostError ("invalid header name '" +:+ name +:+ "'"))
  end.
Definition parse_header (name value : string) : vm_result (string * list Z) :=
  n ← parse_header_name name;
  match header_value_str value with
  | Some v => Ok (n, v)
  | None => Err (HostError ("invalid header value '" +:+ value +:+ "'"))
  end.

Definition validate_response_status (status : Z) : vm_result Z :=
  if (100 <=? status) && (status <=? 599) then Ok status
  else Err (HostError ("status code must be in range 100..=599, got '" +:+ Bytes.dec status +:+ "'")).

Definition get_response_status : host_call Z :=
  d ← get_state; mret (default 0 d.(response_output).(status)).

Definition get_response_header (name : string) : host_call string :=
  n ← lift (parse_header_name name);
  d ← get_state;
  mret (default "" (head (hm_get_all d.(response_output).(headers) n) ≫= to_str)).

Definition set_response_header (name value : string) : host_call unit :=
  '(n, v) ← lift (parse_header name value);
  insert_downstream_response_header n v.

(** With the batch parsed. *)
Definition set_response_headers (batch : vm_result M) : host_call unit :=
  parsed ← lift batch; insert_downstream_response_headers parsed.

Definition head_immutable : VmError :=
  HostError "downstream response headers are immutable after response streaming begins".

Definition add_response_header (name value : string) : host_call unit :=
  '(n, v) ← lift (parse_header name value);
  _ ← note_downstream_response_headers_mutated;
  on_response (
    r ← get_state;
    _ ← throw_if (stream_committed r) head_immutable;
    modify (fun r => r <| headers := hm_append n v r.(headers) |>)).

Definition clear_response_header (name : string) : host_call unit :=
  n ← lift (parse_header_name name);
  _ ← note_downstream_response_headers_mutated;
  on_response (
    r ← get_state;
    _ ← throw_if (stream_committed r) head_immutable;
    modify (fun r => r <| headers := hm_remove n r.(headers) |>)).

Definition set_response_status (status : Z) : host_call unit :=
  code ← lift (validate_response_status status); set_downstream_response_status code.

Definition set_response_body (bytes : list Z) : host_call unit :=
  _ ← touch (fun t => t <| response_body_mutated := true |>);
  on_response (
    r ← get_state;
    _ ← throw_if (bool_decide (is_Some r.(body_stream)))
          (HostError "http::response::set_body is unavailable after response streaming begins");
    modify (fun r => sync_response_output_body_headers (r <| body_source_exchange := None |> <| body := Some bytes |>))).

(** The number of bytes written. *)
Definition write_response_stream (chunk : list Z) : host_call Z :=
  _ ← write_downstream_response_stream_bytes chunk ExplicitImmediate; mret (len chunk).

(** Taking over the response of an exchange; [snapshot]: its status and
    headers, once it has started. *)
Definition copy_exchange_head (snapshot : Z * M) (r : HttpResponseOutputNode) : HttpResponseOutputNode :=
  r <| headers := foldl (fun m e => if negb (is_hop_by_hop_header e.1) then hm_insert e.1 e.2 m else m) r.(headers)
                    (hm_iter snapshot.2) |>.

Definition apply_exchange_node (call : string) (exchange : Z) (snapshot : Z * M) : eff VmError HttpResponseOutputNode unit :=
  r ← get_state;
  _ ← throw_if (bool_decide (is_Some r.(body_stream)))
        (HostError ("http::response::" +:+ call +:+ " is unavailable after response streaming begins"));
  modify (fun r => copy_exchange_head snapshot
    (r <| status := Some snapshot.1 |> <| body := None |> <| body_source_exchange := Some exchange |>)).

Definition apply_exchange_to_response (exchange : Z) (snapshot : vm_result (Z * M)) : host_call unit :=
  snapshot ← lift snapshot;
  on_response (apply_exchange_node "apply_exchange" exchange snapshot).

Definition apply_exchange_to_response_with_headers (exchange : Z) (batch : vm_result M) (snapshot : vm_result (Z * M))
    : host_call unit :=
  parsed ← lift batch;
  snapshot ← lift snapshot;
  _ ← on_response (apply_exchange_node "apply_exchange_with_headers" exchange snapshot);
  insert_downstream_response_headers parsed.

(** [materialize_downstream_response_body_source] up to reading the exchange's
    body, and from there, with the state as it is by then. *)
Definition materialize_source (d : DownstreamState) : option Z :=
  if has_local_body d.(response_output) then None else d.(response_output).(body_source_exchange).
Definition materialize_body (exchange : Z) (read : vm_result (list Z)) : host_call unit :=
  bytes ← lift read;
  on_response (modify (fun r =>
    if negb (has_local_body r) && bool_decide (r.(body_source_exchange) = Some exchange)
    then sync_response_output_body_headers (r <| body_source_exchange := None |> <| body := Some bytes |>)
    else r)).

(** [http::response::get_body] after that; the text is the bytes read as
    UTF-8 by the caller. *)
Definition get_response_body : host_call (list Z) :=
  _ ← touch (fun t => t <| response_body_read := true |>);
  d ← get_state;
  _ ← throw_if (bool_decide (is_Some d.(response_output).(body_stream)))
        (HostError "http::response::get_body is unavailable after response streaming begins");
  mret (default [] d.(response_output).(body)).

(** ** The response that is sent *)

(** [StatusCode::from_u16(..).unwrap_or(OK)] of the status, if one was set. *)
Context `{HSt : StatusCrate}.
Definition status_code_or_ok (status : option Z) : Z := default 200 (status ≫= status_from_u16).

Definition response_from_output (body : list Z) (hs : M) (status : option Z) : Response :=
  let m := merge_http_headers hm_new hs in
  let m :=
    if bool_decide (body = []) then
      if contains_key m "content-length" then m else hm_insert "content-length" [48] m
    else if contains_key m "content-type" then m
    else hm_insert "content-type" (bytes_of_string "text/plain") m in
  MkResponse V11 (status_code_or_ok status) m (if bool_decide (body = []) then [] else [Ok (FrameData body)]).

(** [chunks]: what the receiver will get. *)
Definition response_from_output_stream (chunks : list (list Z)) (hs : M) (status : option Z) : Response :=
  MkResponse V11 (status_code_or_ok status) (merge_http_headers hm_new hs) ((fun c => Ok (FrameData c)) <$> chunks).

Definition without_content (m : M) : M := hm_remove "content-length" (hm_remove "content-type" m).

Definition response_from_connect_tunnel (hs : M) : Response :=
  MkResponse V11 200 (without_content (merge_http_headers hm_new hs)) [].

(** [derive_accept_key] of tungstenite *)
Context (derive_accept_key : list Z -> string).

Definition response_from_websocket_tunnel (request_headers hs : M) (selected_subprotocol : option string)
    : vm_result Response :=
  key ← ok_or (HostError "downstream websocket tunnel requires a valid sec-websocket-key header")
          (get request_headers "sec-websocket-key" ≫= to_str);
  accept ← ok_or (HostError "failed to encode websocket accept header for downstream tunnel")
             (header_value_str (derive_accept_key (bytes_of_string key)));
  let m := merge_http_headers hm_new hs in
  let m := hm_insert "connection" (bytes_of_string "Upgrade") m in
  let m := hm_insert "upgrade" (bytes_of_string "websocket") m in
  let m := hm_insert "sec-websocket-accept" accept m in
  m ← match selected_subprotocol with
      | Some p =>
          match header_value_str p with
          | Some v => Ok (hm_insert "sec-websocket-protocol" v m)
          | None => Err (HostError ("invalid negotiated websocket subprotocol '" +:+ p +:+ "'"))
          end
      | None => Ok m
      end;
  Ok (MkResponse V11 101 (without_content m) []).

Definition filtered_snapshot_headers (hs : M) : M :=
  foldl (fun m e => if negb (is_hop_by_hop_header e.1) then hm_insert e.1 e.2 m else m) hm_new (hm_iter hs).

(** The heads of a response taken over from an exchange, given its status and
    headers. *)
Definition downstream_snapshot_response_head (snapshot : Z * M) (hs : M) (status : option Z)
    : Z * SnapshotHttp1DownstreamHeaders M := (default snapshot.1 status, Snapshot snapshot.2 hs).
Definition explicit_snapshot_downstream_response_head (snapshot : Z * M) (hs : M) (status : option Z)
    : Z * SnapshotHttp1DownstreamHeaders M := (default snapshot.1 status, Explicit hs).

Definition response_from_upstream_snapshot_head (frames : list (result string (Frame M))) (status : Z) (hs : M) : Response :=
  MkResponse V11 (status_or_ok status) hs frames.
Definition response_from_upstream_snapshot (snapshot : Z * M) (frames : list (result string (Frame M))) (hs : M)
    (status : option Z) : Response :=
  response_from_upstream_snapshot_head frames (default snapshot.1 status)
    (merge_http_headers (filtered_snapshot_headers snapshot.2) hs).

(** Taking the response the program made, before anything is streamed. *)
Definition try_take_native_local_http1_downstream_response (d : DownstreamState)
    : option (ResolvedNativeLocalHttp1DownstreamResponse (M:=M)) * DownstreamState :=
  let r := d.(response_output) in
  if bool_decide (is_Some d.(post_response_plan)) || stream_committed r || bool_decide (is_Some r.(body_source_exchange))
  then (None, d)
  else
    match r.(body) with
    | None => (None, d)
    | Some bytes =>
        (Some (MkLocal (default 200 r.(status)) r.(headers) bytes true),
         d <| native_default_upstream_http_forward := false |>
           <| native_default_upstream_forward_response := None |>
           <| response_output := r <| body := None |> <| status := None |> <| headers := hm_new |> |>)
    end.

(** The part of [resolve_http_graph_response_inner] that needs no upstream:
    (no response was forwarded natively): finish the stream and take its
    receiver, then the first of a tunnel, the body and the stream.  [None]: the response is an upstream's, or there is
    none.  [later]: what the program sends after the receiver is taken. *)
Definition take_parts (finish_response_stream : bool) : eff VmError HttpResponseOutputNode (option (list (list Z))) :=
  _ ← (if finish_response_stream then on_stream finish false else mret false);
  r ← get_state;
  if stream_committed r then
    _ ← on_stream take_receiver tt;
    mret ((fun s => s.(channel).(in_flight)) <$> r.(body_stream))
  else mret None.

Definition text_response (status : Z) (text : string) : Response :=
  MkResponse V11 status hm_new (if bool_decide (text = "") then [] else [Ok (FrameData (bytes_of_string text))]).
(** [VmError]'s [Display]. *)
Context (vm_error_display : VmError -> string).

Definition resolve_local_response (finish_response_stream : bool) (later : list (list Z)) (request_headers : M)
    (d : DownstreamState) : option Response * DownstreamState :=
  match on_response (take_parts finish_response_stream) d with
  | (Err e, d) => (Some (text_response 500 (vm_error_display e)), d)
  | (Ok chunks, d) =>
      let r := d.(response_output) in
      match d.(post_response_plan), r.(body), chunks with
      | Some plan, _, _ =>
          let d := d <| post_response_plan := None |> in
          (Some match plan with
                | ConnectTunnel => response_from_connect_tunnel r.(headers)
                | WebSocketTunnel p =>
                    match response_from_websocket_tunnel request_headers r.(headers) p with
                    | Ok response => response
                    | Err _ => text_response 500 "internal server error"
                    end
                end, d)
      | None, Some bytes, _ => (Some (response_from_output bytes r.(headers) r.(status)), d)
      | None, None, Some chunks => (Some (response_from_output_stream (chunks ++ later) r.(headers) r.(status)), d)
      | None, None, None => (None, d)
      end
  end.
End response.

(** ** The stream *)

(** The bytes accepted and not yet received. *)
Definition pending_bytes (s : DownstreamResponseBodyStream) : list Z := concat s.(channel).(in_flight) ++ s.(buffered).

Record stream_ok (s : DownstreamResponseBodyStream) : Prop := {
  ok_uncommitted : s.(committed) = false -> s.(channel).(in_flight) = [] /\ s.(receiver) = true;
  ok_sender : s.(sender) = negb s.(finished);
  ok_chunks : Forall (fun c => c ≠ []) s.(channel).(in_flight);
  ok_finished : s.(finished) = true -> s.(buffered) = [];
}.

Lemma stream_ok_new : stream_ok new.
Proof. by split. Qed.

(** A call that adds [l]: what holds of its result and the new state. *)
Definition stream_post (l : list Z) (s : DownstreamResponseBodyStream) (o : vm_result bool * DownstreamResponseBodyStream)
    : Prop :=
  let '(r, s') := o in
  stream_ok s' /\ receiver s' = receiver s
  /\ receiver_closed (channel s') = receiver_closed (channel s)
  /\ (committed s = true -> committed s' = true)
  /\ (exists new, in_flight (channel s') = in_flight (channel s) ++ new)
  /\ match r with
     | Ok n => pending_bytes s' = pending_bytes s ++ l /\ committed s' = committed s || n /\ (committed s = true -> n = false)
     | Err e => finished s = true /\ s' = s
         \/ receiver_closed (channel s) = true /\ finished s = false /\ in_flight (channel s') = in_flight (channel s)
     end.

Ltac eff_step := unfold mbind, eff_bind, throw_if, throw, get_state, modify, mret, eff_ret; cbn.

Ltac same_stream := split_and!; try done; try (exists []; by rewrite app_nil_r); try (by rewrite app_nil_r); try (by left).

Lemma start_post s : stream_ok s -> stream_post [] s (start s).
Proof.
  intros Hs. pose proof Hs as [Hu Hsend Hc Hf]. unfold start. eff_step. destruct (finished s) eqn:Hfin; cbn; [by same_stream|].
  destruct (committed s) eqn:Hcom; cbn; unfold stream_post; [by same_stream; rewrite Hcom|].
  same_stream; [|by rewrite Hcom..]. by split; cbn; rewrite ?Hfin.
Qed.

Lemma finished_not_pending s : stream_ok s -> buffered s ≠ [] -> finished s = false.
Proof. intros [_ _ _ Hf] Hb. destruct (finished s); [|done]. by rewrite Hf in Hb. Qed.

(** Sending what is buffered after adding [l] to it. *)
Lemma flush_post l s :
  stream_ok s -> finished s = false -> stream_post l s (flush_buffered (s <| buffered := buffered s ++ l |>)).
Proof.
  intros Hs Hfin. pose proof Hs as [Hu Hsend Hc Hf]. unfold flush_buffered. eff_step. case_bool_decide as Hb; cbn.
  - apply app_eq_nil in Hb as [Hb ->]. unfold stream_post. rewrite app_nil_r. same_stream.
    by rewrite orb_false_r.
  - unfold start, send. eff_step. rewrite Hfin. cbn. destruct (committed s) eqn:Hcom; cbn;
      destruct (receiver_closed (channel s)) eqn:Hrc; cbn; rewrite ?Hsend, ?Hfin; cbn; rewrite ?Hrc; cbn; unfold stream_post; cbn.
    all: same_stream.
    all: try (by right). all: try (by eexists). all: try (by rewrite Hcom).
    all: try (by unfold pending_bytes; rewrite concat_app; cbn; rewrite !app_nil_r, app_assoc).
    all: split; cbn; rewrite ?Hcom, ?Hsend, ?Hfin; try done; by apply Forall_app_2; [|apply Forall_singleton].
Qed.

Lemma write_bytes_post l mode s : stream_ok s -> stream_post l s (write_bytes l mode s).
Proof.
  intros Hs. unfold write_bytes. eff_step. destruct (finished s) eqn:Hfin; cbn; [unfold stream_post; by same_stream|].
  case_bool_decide as Hl; cbn.
  - subst l. unfold stream_post. same_stream. by rewrite orb_false_r.
  - destruct mode; [|by apply flush_post]. case_match; [by apply flush_post|]. unfold stream_post. same_stream.
    + destruct Hs as [Hu Hsend Hc Hf]. split; cbn; rewrite ?Hfin; try done; by rewrite Hsend, Hfin.
    + unfold pending_bytes. cbn. by rewrite app_assoc.
    + by rewrite orb_false_r.
Qed.

Lemma finish_post s : stream_ok s -> stream_post [] s (finish s).
Proof.
  intros Hs. unfold finish. eff_step. destruct (finished s) eqn:Hfin; cbn.
  { unfold stream_post. same_stream. by rewrite orb_false_r. }
  pose proof (flush_post [] s Hs Hfin) as Hp. replace (s <| buffered := buffered s ++ [] |>) with s in Hp.
  2: { destruct s. cbn. by rewrite app_nil_r. }
  assert (Hb : forall n s', flush_buffered s = (Ok n, s') -> buffered s' = []).
  { unfold flush_buffered. eff_step. case_bool_decide as Hb; [by intros n s' [= <- <-]|].
    unfold start, send. eff_step. rewrite Hfin. repeat (cbn; case_match); intros n s' Heq; by simplify_eq/=. }
  destruct (flush_buffered s) as [[n|e] s1]; [|exact Hp]. specialize (Hb n s1 eq_refl).
  destruct Hp as ([Hu Hsend Hc Hf] & Hr & Hrc & Hcom & Hin & Hpend & Hn). unfold stream_post. cbn. same_stream; try by destruct Hn.
Qed.

(** ** Every call *)

Section calls.
Context {M : Type} `{HML : HeaderMapLaws M} `{HMM : !HeaderMapMut M} `{HMML : !HeaderMapMutLaws M} `{HC : HttpCrate}.
Context `{HSt : StatusCrate}.

Abbreviation node := (HttpResponseOutputNode (M:=M)).
Abbreviation downstream := (DownstreamState (M:=M)).

Inductive op :=
| SetHeader (name value : string)
| AddHeader (name value : string)
| ClearHeader (name : string)
| SetHeaders (batch : vm_result M)
| SetStatus (status : Z)
| SetBody (bytes : list Z)
| StartStream
| WriteStream (chunk : list Z)
| AppendBody (bytes : list Z)                (** the implicit writes of the I/O calls *)
| FinishStream
| ApplyExchange (exchange : Z) (snapshot : vm_result (Z * M))
| ApplyExchangeWithHeaders (exchange : Z) (batch : vm_result M) (snapshot : vm_result (Z * M))
| MaterializeBody (exchange : Z) (read : vm_result (list Z))
| GetBody.

Definition call (o : op) : eff VmError downstream unit :=
  match o with
  | SetHeader n v => set_response_header n v
  | AddHeader n v => add_response_header n v
  | ClearHeader n => clear_response_header n
  | SetHeaders b => set_response_headers b
  | SetStatus s => set_response_status s
  | SetBody l => set_response_body l
  | StartStream => start_downstream_response_stream
  | WriteStream l => _ ← write_response_stream l; mret tt
  | AppendBody l => append_response_output_body_bytes l
  | FinishStream => finish_downstream_response_stream
  | ApplyExchange e s => apply_exchange_to_response e s
  | ApplyExchangeWithHeaders e b s => apply_exchange_to_response_with_headers e b s
  | MaterializeBody e r => materialize_body e r
  | GetBody => _ ← get_response_body; mret tt
  end.

(** The bytes a call adds to the stream. *)
Definition op_bytes (o : op) : list Z := match o with WriteStream l | AppendBody l => l | _ => [] end.

(** *** What every call keeps *)

(** At most one of the three sources of the body, and a sound stream. *)
Definition count {A} (o : option A) : nat := match o with Some _ => 1 | None => 0 end.
Definition sources (r : node) : nat := count r.(body) + count r.(body_stream) + count r.(body_source_exchange).
Record node_ok (r : node) : Prop := {
  ok_sources : (sources r <= 1)%nat;
  ok_stream : match r.(body_stream) with Some s => stream_ok s | None => True end;
}.

Definition stream_bytes (r : node) : list Z := match r.(body_stream) with Some s => pending_bytes s | None => [] end.
Definition closed (r : node) : bool :=
  match r.(body_stream) with Some s => s.(channel).(receiver_closed) | None => false end.
Definition taken (r : node) : bool := match r.(body_stream) with Some s => negb s.(receiver) | None => false end.

Definition content_name (k : string) : bool := bool_decide (k = "content-length") || bool_decide (k = "content-type").

Record node_post (l : list Z) (r : node) (ok : bool) (r' : node) : Prop := {
  post_ok : node_ok r';
  post_closed : closed r' = closed r;
  post_taken : taken r' = taken r;
  post_bytes : closed r = false -> stream_bytes r' = stream_bytes r ++ (if ok then l else []);
  post_committed : stream_committed r = true -> stream_committed r' = true;
  post_head : stream_committed r = true ->
    status r' = status r /\ forall k, content_name k = false -> hm_get_all (headers r') k = hm_get_all (headers r) k;
}.

(** A call that leaves the stream alone, and the head too once it is out. *)
Lemma post_same_stream r ok r' l :
  node_ok r -> body_stream r' = body_stream r -> (sources r' <= 1)%nat -> (ok = true -> l = []) ->
  (stream_committed r = true -> status r' = status r /\ headers r' = headers r) -> node_post l r ok r'.
Proof.
  intros [Ho Hst] Hs Hsrc Hl Hh. split.
  - split; [done|]. by rewrite Hs.
  - unfold closed. by rewrite Hs.
  - unfold taken. by rewrite Hs.
  - intros _. unfold stream_bytes. rewrite Hs. destruct ok; [rewrite Hl by done|]; by rewrite app_nil_r.
  - unfold stream_committed. by rewrite Hs.
  - intros Hc. destruct (Hh Hc) as [-> Hheaders]. split; [done|]. intros k _. by rewrite Hheaders.
Qed.

Lemma sync_stream_head (r : node) k :
  content_name k = false -> hm_get_all (headers (sync_response_output_stream_headers r)) k = hm_get_all (headers r) k.
Proof.
  intros Hk. unfold content_name in Hk. apply orb_false_iff in Hk as [Hk _]. apply bool_decide_eq_false in Hk.
  cbn. by rewrite get_all_remove, bool_decide_false.
Qed.

(** A call on the stream with the head changed to [hs]. *)
Lemma post_stream l r (m : eff VmError DownstreamResponseBodyStream bool) hs n :
  node_ok r -> body_selected r = false -> (forall s, stream_ok s -> stream_post l s (m s)) ->
  (forall k, content_name k = false -> hm_get_all hs k = hm_get_all (headers r) k) ->
  let '(res, s) := m (default new (body_stream r)) in
  node_post l r (is_Ok res) (MkNode hs None (Some s) (status r) None n).
Proof.
  intros [Ho Hst] Hsel Hm Hh. apply orb_false_iff in Hsel as [Hb He].
  assert (Hs : stream_ok (default new (body_stream r))) by (destruct (body_stream r); [done|apply stream_ok_new]).
  specialize (Hm _ Hs). destruct (m _) as [res s]. destruct Hm as (Hok & Hr & Hrc & Hcom & Hin & Hres).
  assert (Hclosed : receiver_closed (channel (default new (body_stream r))) = closed r) by (unfold closed; by destruct (body_stream r)).
  split.
  - by split.
  - unfold closed at 1. cbn. by rewrite Hrc.
  - unfold taken. cbn. rewrite Hr. by destruct (body_stream r).
  - intros Hcl. unfold stream_bytes. cbn. replace (match body_stream r with Some s => pending_bytes s | None => [] end)
      with (pending_bytes (default new (body_stream r))) by (by destruct (body_stream r)).
    destruct res as [b|e]; cbn; [by apply Hres|]. rewrite app_nil_r. destruct Hres as [[_ ->]|[Hc _]]; [done|].
    by rewrite Hclosed, Hcl in Hc.
  - unfold stream_committed. intros Hc. cbn. apply Hcom. by destruct (body_stream r).
  - intros _. by split.
Qed.

Lemma body_selected_false (r : node) : body_selected r = false -> body r = None /\ body_source_exchange r = None.
Proof.
  unfold body_selected. intros [Hb He]%orb_false_iff. apply bool_decide_eq_false in Hb, He.
  by rewrite !eq_None_not_Some.
Qed.

Lemma post_error (r : node) l : node_ok r -> node_post l r false r.
Proof. intros Hr. apply post_same_stream; try done. apply Hr. Qed.

Definition state_post (l : list Z) (d : downstream) {A} (o : vm_result A * DownstreamState) : Prop :=
  node_post l (response_output d) (is_Ok o.1) (response_output o.2).

(** What starting the stream and writing to it share. *)
Definition stream_call (refused : VmError) (g : node -> node) (m : eff VmError DownstreamResponseBodyStream bool)
    : eff VmError node unit :=
  r ← get_state;
  _ ← throw_if (body_selected r) refused;
  _ ← modify g;
  _ ← modify ensure_stream_mut;
  committed_now ← on_stream m false;
  notify_if committed_now.

Lemma stream_call_sound l refused (g : node -> node) m (r : node) :
  node_ok r -> (forall s, stream_ok s -> stream_post l s (m s)) ->
  (forall r, g r = r <| headers := headers (g r) |>) ->
  (forall k, content_name k = false -> hm_get_all (headers (g r)) k = hm_get_all (headers r) k) ->
  node_post l r (is_Ok (stream_call refused g m r).1) (stream_call refused g m r).2.
Proof.
  intros Hr Hm Hg Hh. unfold stream_call. eff_step. destruct (body_selected r) eqn:Hsel; cbn; [by apply post_error|].
  destruct (body_selected_false _ Hsel) as [Hb He]. rewrite (Hg r). unfold on_stream, ensure_stream_mut. cbn.
  pose proof (fun n => post_stream l r m (headers (g r)) n Hr Hsel Hm Hh) as Hp.
  destruct (m (default new (body_stream r))) as [[[]|e] st]; apply Hp.
Qed.

(** The header part. *)
Lemma change_headers_sound (f : M -> M) (d : downstream) :
  node_ok (response_output d) -> stream_committed (response_output d) = false ->
  node_post [] (response_output d) true (response_output (change_headers f d)).
Proof.
  intros Hr Hc. unfold change_headers. destruct (forward_head d); apply post_same_stream; try done; try apply Hr; by rewrite Hc.
Qed.

Lemma insert_headers_sound (f : M -> M) (d : downstream) :
  node_ok (response_output d) ->
  let m := (_ ← note_downstream_response_headers_mutated; _ ← ensure_downstream_response_head_mutable; modify (change_headers f)) in
  node_post [] (response_output d) (is_Ok (m d).1) (response_output (m d).2).
Proof.
  intros Hr. cbv zeta. unfold note_downstream_response_headers_mutated, touch, ensure_downstream_response_head_mutable. eff_step.
  destruct (stream_committed (response_output d)) eqn:Hc; cbn; [by apply post_error|].
  match goal with |- context [change_headers f ?d1] => exact (change_headers_sound f d1 Hr Hc) end.
Qed.

Lemma apply_node_sound c e snap (r : node) :
  node_ok r -> node_post [] r (is_Ok (apply_exchange_node c e snap r).1) (apply_exchange_node c e snap r).2.
Proof.
  intros Hr. unfold apply_exchange_node. eff_step. case_bool_decide as Hs; cbn; [by apply post_error|].
  apply eq_None_not_Some in Hs. apply post_same_stream; [done|done| |done|].
  - unfold sources. cbn. rewrite Hs. cbn. lia.
  - unfold stream_committed. by rewrite Hs.
Qed.

Lemma sync_body_sound (r : node) bytes :
  body_stream r = None -> node_ok r ->
  node_post [] r true (sync_response_output_body_headers (r <| body_source_exchange := None |> <| body := Some bytes |>)).
Proof.
  intros Hs Hr. unfold sync_response_output_body_headers. cbn.
  apply post_same_stream; [done|by rewrite Hs; case_match| |done|unfold stream_committed; by rewrite Hs].
  unfold sources. case_match; cbn; lia.
Qed.

Lemma on_response_post l (m : eff VmError node unit) (d : downstream) :
  node_post l (response_output d) (is_Ok (m (response_output d)).1) (m (response_output d)).2 ->
  node_post l (response_output d) (is_Ok (on_response m d).1) (response_output (on_response m d).2).
Proof. unfold on_response, zoom. by destruct (m (response_output d)) as [r n]. Qed.

(** The type of content a write gives the response. *)
Definition write_head (bytes : list Z) (r : node) : node :=
  let r := sync_response_output_stream_headers r in
  if negb (bool_decide (bytes = [])) && negb (contains_key r.(headers) "content-type")
  then r <| headers := hm_insert "content-type" (bytes_of_string "text/plain") r.(headers) |> else r.

Lemma write_head_values bytes (r : node) k :
  content_name k = false -> hm_get_all (headers (write_head bytes r)) k = hm_get_all (headers r) k.
Proof.
  intros Hk. unfold write_head. pose proof (sync_stream_head r k Hk) as Hs. case_match; [|done]. cbn in *.
  rewrite get_all_insert, bool_decide_false; [done|]. intros <-. by vm_compute in Hk.
Qed.

Lemma write_sound l mode (d : downstream) :
  node_ok (response_output d) ->
  node_post l (response_output d) (is_Ok (write_downstream_response_stream_bytes l mode d).1)
    (response_output (write_downstream_response_stream_bytes l mode d).2).
Proof.
  intros Hr. set (d1 := d <| downstream_flow := TcpFlow.note_write d.(downstream_flow) |>
    <| vm_touches := d.(vm_touches) <| response_body_mutated := true |> |>).
  apply (on_response_post l (stream_call _ (write_head l) (write_bytes l mode)) d1).
  apply stream_call_sound; [done|intros s; apply write_bytes_post| |intros k; apply write_head_values].
  intros [h b st c e n]. unfold write_head. by case_match.
Qed.

Lemma finish_sound (r : node) :
  node_ok r ->
  let m := (committed_now ← on_stream finish false; notify_if committed_now) in
  node_post [] r (is_Ok (m r).1) (m r).2.
Proof.
  intros Hr. cbv zeta. unfold on_stream, notify_if. eff_step. destruct (body_stream r) as [s|] eqn:Hs.
  2: { apply post_same_stream; try done. apply Hr. }
  pose proof Hr as [Ho _]. unfold sources in Ho. rewrite Hs in Ho. cbn in Ho.
  destruct (body r) eqn:Hb; [cbn in Ho; lia|]. destruct (body_source_exchange r) eqn:He; [cbn in Ho; lia|].
  assert (Hsel : body_selected r = false) by (unfold body_selected; by rewrite Hb, He).
  pose proof (fun n => post_stream [] r finish (headers r) n Hr Hsel finish_post (fun k _ => eq_refl)) as Hp. rewrite Hs in Hp. cbn [default] in Hp.
  destruct r as [h b st c e n]. cbn in *. subst. destruct (finish s) as [[[]|er] s1]; apply Hp.
Qed.

Lemma post_trans (r r1 r2 : node) ok l : node_post [] r true r1 -> node_post l r1 ok r2 -> node_post l r ok r2.
Proof.
  intros [Ho1 Hc1 Ht1 Hb1 Hm1 Hh1] [Ho2 Hc2 Ht2 Hb2 Hm2 Hh2]. split.
  - done.
  - by rewrite Hc2.
  - by rewrite Ht2.
  - intros Hc. rewrite Hb2, Hb1 by congruence. by rewrite app_nil_r.
  - auto.
  - intros Hc. destruct (Hh1 Hc) as [Hs1 Hv1]. destruct (Hh2 (Hm1 Hc)) as [Hs2 Hv2].
    split; [congruence|]. intros k Hk. by rewrite Hv2, Hv1.
Qed.

Lemma materialize_sound exchange bytes (r : node) :
  node_ok r ->
  node_post [] r true (if negb (has_local_body r) && bool_decide (r.(body_source_exchange) = Some exchange)
    then sync_response_output_body_headers (r <| body_source_exchange := None |> <| body := Some bytes |>) else r).
Proof.
  intros Hr. destruct (_ && _) eqn:Hc; [|apply post_same_stream; try done; apply Hr].
  apply sync_body_sound; [|done]. apply andb_true_iff in Hc as [Hc _]. unfold has_local_body in Hc.
  apply negb_true_iff, orb_false_iff in Hc as [_ Hc]. by apply bool_decide_eq_false, eq_None_not_Some in Hc.
Qed.

Lemma call_sound (o : op) (d : downstream) :
  node_ok (response_output d) ->
  node_post (op_bytes o) (response_output d) (is_Ok (call o d).1) (response_output (call o d).2).
Proof.
  intros Hr. assert (Herr : node_post (op_bytes o) (response_output d) false (response_output d)) by by apply post_error.
  assert (Hsync : forall r : node, sync_response_output_stream_headers r = r <| headers := headers (sync_response_output_stream_headers r) |>)
    by by intros [].
  destruct o as [n0 v0|n0 v0|n0|batch|code0|l| |l|l| |e0 snap|e0 batch snap|e0 got|]; cbn [call op_bytes] in *.
  - unfold set_response_header. eff_step. destruct (parse_header n0 v0) as [[n v]|e]; cbn; [|done].
    exact (insert_headers_sound (hm_insert n v) d Hr).
  - unfold add_response_header, on_response, zoom, note_downstream_response_headers_mutated, touch. eff_step.
    destruct (parse_header n0 v0) as [[n v]|e]; cbn; [|done].
    destruct (stream_committed (response_output d)) eqn:Hc; cbn; [done|].
    apply post_same_stream; try done; try apply Hr; by rewrite Hc.
  - unfold clear_response_header, on_response, zoom, note_downstream_response_headers_mutated, touch. eff_step.
    destruct (parse_header_name n0) as [n|e]; cbn; [|done].
    destruct (stream_committed (response_output d)) eqn:Hc; cbn; [done|].
    apply post_same_stream; try done; try apply Hr; by rewrite Hc.
  - unfold set_response_headers. eff_step. destruct batch as [b|e]; cbn; [|done].
    exact (insert_headers_sound _ d Hr).
  - unfold set_response_status, set_downstream_response_status, ensure_downstream_response_head_mutable, touch. eff_step.
    destruct (validate_response_status code0) as [code|e]; cbn; [|done].
    destruct (stream_committed (response_output d)) eqn:Hc; cbn; [done|].
    case_match; cbn; (apply post_same_stream; try done; try apply Hr; by rewrite Hc).
  - unfold set_response_body, on_response, zoom, touch. eff_step. case_bool_decide as Hs; cbn; [done|].
    apply sync_body_sound; [by apply eq_None_not_Some|done].
  - set (d1 := d <| vm_touches := d.(vm_touches) <| response_body_mutated := true |> |>).
    apply (on_response_post [] (stream_call _ sync_response_output_stream_headers start) d1).
    apply stream_call_sound; [done|apply start_post|done|intros k; apply sync_stream_head].
  - pose proof (write_sound l ExplicitImmediate d Hr) as Hw. unfold write_response_stream. eff_step.
    by destruct (write_downstream_response_stream_bytes l ExplicitImmediate d) as [[[]|e] d1].
  - by apply write_sound.
  - apply (on_response_post [] (committed_now ← on_stream finish false; notify_if committed_now)). by apply finish_sound.
  - unfold apply_exchange_to_response. eff_step. destruct snap as [snap|e]; cbn; [|done].
    apply (on_response_post [] (apply_exchange_node _ e0 snap)). by apply apply_node_sound.
  - unfold apply_exchange_to_response_with_headers. eff_step. destruct batch as [b|e]; cbn; [|done].
    destruct snap as [snap|e]; cbn; [|done].
    pose proof (on_response_post [] (apply_exchange_node "apply_exchange_with_headers" e0 snap) d) as Hp.
    specialize (Hp (apply_node_sound _ _ _ _ Hr)). destruct (on_response _ d) as [[[]|e] d1]; cbn in Hp |- *; [|done].
    eapply post_trans; [exact Hp|]. exact (insert_headers_sound _ d1 (post_ok _ _ _ _ Hp)).
  - unfold materialize_body. eff_step. destruct got as [bytes|e]; cbn; [|done]. by apply materialize_sound.
  - unfold get_response_body, touch. eff_step. case_bool_decide; cbn; [done|]. apply post_same_stream; try done. apply Hr.
Qed.

(** ** Delivery *)

(** What happens to a response: calls of the program, and of the server that
    sends it; the server's end receives and may go away. *)
Inductive event :=
| Call (o : op)
| Resolve (finish_response_stream : bool)
| Receive
| DropReceiver.

Record run := MkRun {
  run_state : downstream;
  accepted : list Z;               (** the bytes of the writes that succeeded *)
  received : list (list Z);        (** the chunks the server took *)
}.

Definition on_taken (f : DownstreamResponseBodyStream -> DownstreamResponseBodyStream) (d : downstream) : downstream :=
  let r := d.(response_output) in
  match r.(body_stream) with
  | Some s => if s.(receiver) then d else d <| response_output := r <| body_stream := Some (f s) |> |>
  | None => d
  end.

Definition step (st : run) (ev : event) : run :=
  let '(MkRun d acc got) := st in
  match ev with
  | Call o => let '(r, d) := call o d in MkRun d (acc ++ if is_Ok r then op_bytes o else []) got
  | Resolve f => MkRun (on_response (take_parts f) d).2 acc got
  | Receive =>
      let head := match d.(response_output).(body_stream) with
                  | Some s => if s.(receiver) then [] else take 1 s.(channel).(in_flight)
                  | None => [] end in
      MkRun (on_taken (fun s => s <| channel := s.(channel) <| in_flight := drop 1 s.(channel).(in_flight) |> |>) d)
        acc (got ++ head)
  | DropReceiver => MkRun (on_taken (fun s => s <| channel := s.(channel) <| receiver_closed := true |> |>) d) acc got
  end.

Definition initial (d : downstream) : run := MkRun (d <| response_output := default_node |>) [] [].

Record run_ok (st : run) : Prop := {
  run_node : node_ok (response_output (run_state st));
  run_open : closed (response_output (run_state st)) = false;
  run_bytes : concat (received st) ++ stream_bytes (response_output (run_state st)) = accepted st;
  run_chunks : Forall (fun c => c ≠ []) (received st);
}.

Lemma initial_ok (d : downstream) : run_ok (initial d).
Proof. split; cbn; [split; cbn; [lia|done]|done|done|constructor]. Qed.

(** A change of the stream that only the server's end sees. *)
Lemma on_taken_sound f (d : downstream) :
  node_ok (response_output d) ->
  (forall s, stream_ok s -> receiver s = false -> stream_ok (f s)) -> node_ok (response_output (on_taken f d)).
Proof.
  intros [Ho Hs] Hf. unfold on_taken. destruct (body_stream (response_output d)) as [s|] eqn:Hst; [|by split; rewrite ?Hst].
  destruct (receiver s) eqn:Hr; [by split; rewrite ?Hst|]. split; cbn; [|by apply Hf].
  unfold sources in *. cbn. by rewrite Hst in Ho.
Qed.

Lemma take_receiver_ok s : stream_ok s -> committed s = true -> stream_ok (take_receiver s).2.
Proof.
  intros [Hu Hsend Hc Hf] Hcom. unfold take_receiver. eff_step. destruct (receiver s) eqn:Hr; cbn; [|by split; cbn; rewrite ?Hcom, ?Hr].
  by split; cbn; rewrite ?Hcom.
Qed.

Lemma take_receiver_same s :
  channel (take_receiver s).2 = channel s /\ buffered (take_receiver s).2 = buffered s.
Proof. unfold take_receiver. eff_step. by destruct (receiver s). Qed.

Lemma take_receiver_sound (r : node) :
  node_ok r -> stream_committed r = true -> let r' := (on_stream take_receiver tt r).2 in
  node_ok r' /\ closed r' = closed r /\ stream_bytes r' = stream_bytes r.
Proof.
  intros [Ho Hs] Hc. unfold on_stream, stream_committed in *. cbv zeta. destruct (body_stream r) as [s|] eqn:Hst; [|done].
  pose proof (take_receiver_ok s Hs Hc) as Hs'. destruct (take_receiver_same s) as [Hch Hbuf].
  destruct (take_receiver s) as [a s']. cbn in *. unfold closed, stream_bytes, pending_bytes. rewrite Hst. cbn. rewrite Hch, Hbuf.
  split_and!; [|done..]. split; cbn; [|done]. unfold sources in *. cbn. by rewrite Hst in Ho.
Qed.

(** What taking the parts of the response leaves. *)
Lemma take_parts_sound f (r : node) :
  node_ok r -> let r' := (take_parts f r).2 in node_ok r' /\ closed r' = closed r /\ (closed r = false -> stream_bytes r' = stream_bytes r).
Proof.
  intros Hr. unfold take_parts. set (m := if f then _ else _).
  assert (Hm : node_post [] r (is_Ok (m r).1) (m r).2).
  { unfold m. destruct f; [|by apply post_same_stream; try done; apply Hr].
    pose proof (finish_sound r Hr) as Hf. cbv zeta in Hf. revert Hf. unfold notify_if. eff_step.
    destruct (on_stream finish false r) as [[[]|e] r1]; cbn; [|done..]. intros [Hok Hp1 Hp2 Hp3 Hp4 Hp5]. split; try done. destruct Hok; by split. }
  clearbody m. eff_step. destruct (m r) as [[b|e] r1]; cbn in Hm.
  2: { destruct Hm as [Hok Hcl _ Hb _ _]. cbn. split_and!; [done..|]. intros Hc. by rewrite Hb, app_nil_r. }
  destruct Hm as [Hok Hcl _ Hb _ _].
  assert (Hbytes : closed r = false -> stream_bytes r1 = stream_bytes r) by (intros Hc; by rewrite Hb, app_nil_r).
  destruct (stream_committed r1) eqn:Hcom; cbn; [|done].
  destruct (take_receiver_sound r1 Hok Hcom) as (Hok2 & Hcl2 & Hb2).
  destruct (on_stream take_receiver tt r1) as [[[]|e] r2]; cbn in *; (split_and!; [done|congruence|intros Hc; rewrite Hb2; by apply Hbytes]).
Qed.

Lemma step_ok st ev : ev ≠ DropReceiver -> run_ok st -> run_ok (step st ev).
Proof.
  intros Hev [Hn Ho Hb Hc]. destruct st as [d acc got]. cbn in Hn, Ho, Hb, Hc. destruct ev as [o|f| |]; [| | |done]; cbn [step].
  - pose proof (call_sound o d Hn) as [Hok Hcl _ Hbytes _ _]. destruct (call o d) as [r d1]. cbn in *.
    split; cbn; [done|congruence| |done]. by rewrite Hbytes, app_assoc, Hb.
  - unfold on_response, zoom. pose proof (take_parts_sound f _ Hn) as (Hok & Hcl & Hbytes). destruct (take_parts f _) as [r n].
    cbn in *. split; cbn; [done|congruence|by rewrite Hbytes|done].
  - assert (Hok : forall s, stream_ok s -> receiver s = false ->
      stream_ok (s <| channel := s.(channel) <| in_flight := drop 1 s.(channel).(in_flight) |> |>)).
    { intros s [Hu Hsend Hchunks Hf] Hr. split; cbn; try done; [|by apply Forall_drop].
      intros Hcom. apply Hu in Hcom as [-> ?]. done. }
    pose proof (on_taken_sound _ d Hn Hok) as Hn'. unfold on_taken in *. unfold stream_bytes, closed in Ho, Hb.
    destruct (body_stream (response_output d)) as [s|] eqn:Hst; cbn; [destruct (receiver s) eqn:Hr|].
    all: split; cbn; try done; unfold stream_bytes, closed; rewrite ?Hst, ?app_nil_r; try done.
    + rewrite concat_app, <-app_assoc, <-Hb. f_equal. unfold pending_bytes. cbn.
      destruct (in_flight (channel s)) as [|c cs]; cbn; [done|]. by rewrite app_nil_r, drop_0, app_assoc.
    + apply Forall_app. split; [done|]. apply Forall_take. pose proof (ok_stream _ Hn) as Hs. rewrite Hst in Hs. apply Hs.
    + by rewrite app_nil_r in Hb.
Qed.

Lemma steps_ok evs st : DropReceiver ∉ evs -> run_ok st -> run_ok (foldl step st evs).
Proof.
  revert st. induction evs as [|ev evs IH]; intros st Hd Hst; [done|]. cbn [foldl].
  apply IH; [set_solver|]. apply step_ok; [set_solver|done].
Qed.

(** C20. A response written in pieces arrives whole and in order.  Whatever calls
    the program makes and however the server's receiving interleaves with them,
    as long as the server does not go away: the chunks the server took, those in
    flight and the bytes still buffered are exactly the bytes of the writes that
    succeeded, in order; no chunk is empty; a finished stream holds nothing
    back; and the response never has two bodies. *)
Theorem stream_delivered evs (d : downstream) :
  DropReceiver ∉ evs ->
  let st := foldl step (initial d) evs in
  let r := response_output (run_state st) in
  concat (received st) ++ stream_bytes r = accepted st
  /\ Forall (fun c => c ≠ []) (received st)
  /\ (sources r <= 1)%nat
  /\ forall s, body_stream r = Some s -> finished s = true -> concat (received st ++ in_flight (channel s)) = accepted st.
Proof.
  intros Hd. cbv zeta. destruct (steps_ok evs _ Hd (initial_ok d)) as [[Ho Hs] _ Hb Hc]. split_and!; [done..|].
  intros s Hst Hfin. rewrite <-Hb. unfold stream_bytes. rewrite Hst in *. destruct Hs as [_ _ _ Hbuf].
  unfold pending_bytes. by rewrite Hbuf, app_nil_r, concat_app.
Qed.

(** Once the head of a streamed response may be on its way, it does not
    change: no sequence of calls changes the status or any header but the two
    that describe the content, and the stream stays committed. *)
Theorem committed_head_fixed (ops : list op) (d : downstream) :
  node_ok (response_output d) -> stream_committed (response_output d) = true ->
  let d' := foldl (fun d o => (call o d).2) d ops in
  stream_committed (response_output d') = true
  /\ status (response_output d') = status (response_output d)
  /\ forall k, content_name k = false -> hm_get_all (headers (response_output d')) k = hm_get_all (headers (response_output d)) k.
Proof.
  revert d. induction ops as [|o ops IH]; intros d Hn Hc; [done|]. cbn [foldl].
  destruct (call_sound o d Hn) as [Hok _ _ _ Hcom Hhead]. destruct (Hhead Hc) as [Hs Hv].
  destruct (IH _ Hok (Hcom Hc)) as (Hc' & Hs' & Hv'). split_and!; [done|congruence|]. intros k Hk. by rewrite Hv', Hv.
Qed.

(** *** Refusals *)

Definition refuse_if (b : bool) (e : VmError) : option VmError := if b then Some e else None.
Definition refusal_of {A} (r : vm_result A) : option VmError := match r with Ok _ => None | Err e => Some e end.
Definition or_else (a b : option VmError) : option VmError := match a with Some e => Some e | None => b end.
Definition is_streaming (r : node) : bool := bool_decide (is_Some r.(body_stream)).
Definition stream_finished (r : node) : bool := match r.(body_stream) with Some s => s.(finished) | None => false end.
Definition unavailable (what : string) : VmError :=
  HostError ("http::response::" +:+ what +:+ " is unavailable after response streaming begins").
Definition already_finished : VmError := HostError "downstream response stream is already finished".
Definition immutable_head : VmError :=
  HostError "downstream response headers and status are immutable after response streaming begins".

(** Which calls are refused, and how. *)
Definition refusal (o : op) (r : node) : option VmError :=
  match o with
  | SetHeader n v => or_else (refusal_of (parse_header n v)) (refuse_if (stream_committed r) immutable_head)
  | AddHeader n v => or_else (refusal_of (parse_header n v)) (refuse_if (stream_committed r) head_immutable)
  | ClearHeader n => or_else (refusal_of (parse_header_name n)) (refuse_if (stream_committed r) head_immutable)
  | SetHeaders b => or_else (refusal_of b) (refuse_if (stream_committed r) immutable_head)
  | SetStatus s => or_else (refusal_of (validate_response_status s)) (refuse_if (stream_committed r) immutable_head)
  | SetBody _ => refuse_if (is_streaming r) (unavailable "set_body")
  | GetBody => refuse_if (is_streaming r) (unavailable "get_body")
  | StartStream => or_else (refuse_if (body_selected r) (HostError
      "downstream response stream cannot begin after a buffered body or exchange body is already selected"))
      (refuse_if (stream_finished r) already_finished)
  | WriteStream _ | AppendBody _ => or_else (refuse_if (body_selected r) (HostError
      "downstream response stream cannot accept writes after a buffered body or exchange body is already selected"))
      (refuse_if (stream_finished r) already_finished)
  | FinishStream => None
  | ApplyExchange _ s => or_else (refusal_of s) (refuse_if (is_streaming r) (unavailable "apply_exchange"))
  | ApplyExchangeWithHeaders _ b s => or_else (refusal_of b) (or_else (refusal_of s)
      (refuse_if (is_streaming r) (unavailable "apply_exchange_with_headers")))
  | MaterializeBody _ got => refusal_of got
  end.

Lemma start_result s : (start s).1 = if finished s then Err already_finished else Ok (negb (committed s)).
Proof. unfold start. eff_step. destruct (finished s); [done|]. by destruct (committed s). Qed.

Lemma stream_result l (m : eff VmError DownstreamResponseBodyStream bool) s :
  stream_ok s -> receiver_closed (channel s) = false -> stream_post l s (m s) ->
  (finished s = true -> (m s).1 = Err already_finished) ->
  exists n, (m s).1 = if finished s then Err already_finished else Ok n.
Proof.
  intros Hs Hc Hp Hf. destruct (finished s) eqn:Hfin; [exists true; by apply Hf|].
  destruct (m s) as [[n|e] s']; [by exists n|]. exfalso. destruct Hp as (_ & _ & _ & _ & _ & [[? _]|[? _]]); congruence.
Qed.

Lemma write_finished l mode s : finished s = true -> (write_bytes l mode s).1 = Err already_finished.
Proof. unfold write_bytes. eff_step. by intros ->. Qed.

Lemma stream_call_result l refused g m (r : node) :
  node_ok r -> closed r = false -> (forall s, stream_ok s -> stream_post l s (m s)) ->
  (forall s, finished s = true -> (m s).1 = Err already_finished) ->
  (forall r, body_stream (g r) = body_stream r) ->
  (stream_call refused g m r).1 = match or_else (refuse_if (body_selected r) refused) (refuse_if (stream_finished r) already_finished) with
                                  | Some e => Err e | None => Ok tt end.
Proof.
  intros [_ Hs] Hc Hm Hf Hg. unfold stream_call. eff_step. destruct (body_selected r); cbn; [done|].
  unfold on_stream, ensure_stream_mut. cbn. rewrite Hg.
  assert (Hok : stream_ok (default new (body_stream r))) by (destruct (body_stream r); [done|apply stream_ok_new]).
  destruct (stream_result l m (default new (body_stream r))) as [n Hn]; [done|unfold closed in Hc; by destruct (body_stream r)|by apply Hm|by apply Hf|].
  replace (finished (default new (body_stream r))) with (stream_finished r) in Hn by (unfold stream_finished; by destruct (body_stream r)).
  destruct (m _) as [res s1]. cbn in Hn. subst. by destruct (stream_finished r).
Qed.

Lemma write_result l mode (d : downstream) :
  node_ok (response_output d) -> closed (response_output d) = false ->
  (write_downstream_response_stream_bytes l mode d).1
  = match refusal (WriteStream l) (response_output d) with Some e => Err e | None => Ok tt end.
Proof.
  intros Hn Hc. set (m := stream_call (HostError
      "downstream response stream cannot accept writes after a buffered body or exchange body is already selected")
      (write_head l) (write_bytes l mode)).
  assert (Hw : (write_downstream_response_stream_bytes l mode d).1 = (m (response_output d)).1).
  { unfold write_downstream_response_stream_bytes, on_response, zoom, touch. eff_step.
    change ((let '(r, t) := m (response_output d) in (r, d <| downstream_flow := TcpFlow.note_write d.(downstream_flow) |>
      <| vm_touches := d.(vm_touches) <| response_body_mutated := true |> |> <| response_output := t |>)).1 = (m (response_output d)).1).
    by destruct (m (response_output d)). }
  rewrite Hw. unfold m. rewrite (stream_call_result l) ; [done|done|done|intros; by apply write_bytes_post|intros; by apply write_finished|].
  intros [h b st c e n]. unfold write_head. by case_match.
Qed.

Lemma call_result (o : op) (d : downstream) :
  node_ok (response_output d) -> closed (response_output d) = false ->
  (call o d).1 = match refusal o (response_output d) with Some e => Err e | None => Ok tt end.
Proof.
  intros Hn Hc.
  destruct o as [n0 v0|n0 v0|n0|batch|code0|l| |l|l| |e0 snap|e0 batch snap|e0 got|]; cbn [call refusal].
  - unfold set_response_header, insert_downstream_response_header, note_downstream_response_headers_mutated, touch,
      ensure_downstream_response_head_mutable. eff_step. destruct (parse_header n0 v0) as [[n v]|e]; cbn; [|done].
    by destruct (stream_committed _).
  - unfold add_response_header, on_response, zoom, note_downstream_response_headers_mutated, touch. eff_step.
    destruct (parse_header n0 v0) as [[n v]|e]; cbn; [|done]. by destruct (stream_committed _).
  - unfold clear_response_header, on_response, zoom, note_downstream_response_headers_mutated, touch. eff_step.
    destruct (parse_header_name n0) as [n|e]; cbn; [|done]. by destruct (stream_committed _).
  - unfold set_response_headers, insert_downstream_response_headers, note_downstream_response_headers_mutated, touch,
      ensure_downstream_response_head_mutable. eff_step. destruct batch as [b|e]; cbn; [|done]. by destruct (stream_committed _).
  - unfold set_response_status, set_downstream_response_status, ensure_downstream_response_head_mutable, touch. eff_step.
    destruct (validate_response_status code0) as [code|e]; cbn; [|done]. by destruct (stream_committed _).
  - unfold set_response_body, on_response, zoom, touch, is_streaming. eff_step. by case_bool_decide.
  - set (m := stream_call (HostError
      "downstream response stream cannot begin after a buffered body or exchange body is already selected")
      sync_response_output_stream_headers start).
    assert (Hw : (start_downstream_response_stream d).1 = (m (response_output d)).1).
    { unfold start_downstream_response_stream, on_response, zoom, touch. eff_step.
      change ((let '(r, t) := m (response_output d) in (r, d <| vm_touches := d.(vm_touches) <| response_body_mutated := true |> |>
        <| response_output := t |>)).1 = (m (response_output d)).1). by destruct (m (response_output d)). }
    rewrite Hw. unfold m. rewrite (stream_call_result []); [done|done|done|intros; by apply start_post| |done].
    intros s Hs. by rewrite start_result, Hs.
  - pose proof (write_result l ExplicitImmediate d Hn Hc) as Hw. unfold write_response_stream. eff_step.
    destruct (write_downstream_response_stream_bytes l ExplicitImmediate d) as [[[]|e] d1]; cbn in *; by rewrite <-Hw.
  - exact (write_result l ImplicitBuffered d Hn Hc).
  - unfold finish_downstream_response_stream, on_response, zoom, on_stream. eff_step.
    destruct (body_stream (response_output d)) as [s|] eqn:Hs; [|done]. pose proof (ok_stream _ Hn) as Hok. rewrite Hs in Hok.
    pose proof (finish_post s Hok) as Hp. unfold closed in Hc. rewrite Hs in Hc. destruct (finish s) as [[n|e] s1] eqn:Hfin; [done|].
    exfalso. destruct Hp as (_ & _ & _ & _ & _ & [[Hf _]|[? _]]); [|congruence].
    unfold finish in Hfin. revert Hfin. eff_step. by rewrite Hf.
  - unfold apply_exchange_to_response, on_response, zoom, apply_exchange_node, is_streaming. eff_step.
    destruct snap as [snap|e]; cbn; [|done]. by case_bool_decide.
  - unfold apply_exchange_to_response_with_headers. eff_step. destruct batch as [b|e]; cbn; [|done].
    destruct snap as [snap|e]; cbn; [|done]. unfold on_response, zoom, apply_exchange_node, is_streaming. eff_step.
    case_bool_decide as Hs; cbn; [done|]. apply eq_None_not_Some in Hs.
    unfold insert_downstream_response_headers, note_downstream_response_headers_mutated, touch,
      ensure_downstream_response_head_mutable, stream_committed. eff_step. by rewrite Hs.
  - unfold materialize_body. eff_step. by destruct got.
  - unfold get_response_body, touch, is_streaming. eff_step. by case_bool_decide.
Qed.

(** What is chosen for the response besides its headers and stream. *)
Definition chosen (r : node) : option (list Z) * option Z * option Z := (body r, body_source_exchange r, status r).

Lemma stream_call_chosen refused g m (r : node) :
  (forall r, g r = r <| headers := headers (g r) |>) -> chosen (stream_call refused g m r).2 = chosen r.
Proof.
  intros Hg. unfold stream_call. eff_step. destruct (body_selected r) eqn:Hsel; cbn; [done|].
  destruct (body_selected_false _ Hsel) as [Hb He]. rewrite (Hg r). unfold on_stream, ensure_stream_mut. cbn.
  destruct (m _) as [[[]|e] s]; unfold chosen; cbn; by rewrite Hb, He.
Qed.

Lemma on_response_chosen {A} (m : eff VmError node A) (d : downstream) :
  chosen (m (response_output d)).2 = chosen (response_output d) ->
  chosen (response_output (on_response m d).2) = chosen (response_output d).
Proof. unfold on_response, zoom. by destruct (m _). Qed.

Lemma write_chosen l mode (d : downstream) :
  chosen (response_output (write_downstream_response_stream_bytes l mode d).2) = chosen (response_output d).
Proof.
  set (d1 := d <| downstream_flow := TcpFlow.note_write d.(downstream_flow) |>
    <| vm_touches := d.(vm_touches) <| response_body_mutated := true |> |>).
  apply (on_response_chosen (stream_call _ (write_head l) (write_bytes l mode)) d1). apply stream_call_chosen.
  intros [h b st c e n]. unfold write_head. by case_match.
Qed.

Lemma refused_chosen (o : op) (d : downstream) e :
  (call o d).1 = Err e -> chosen (response_output (call o d).2) = chosen (response_output d).
Proof.
  destruct o as [n0 v0|n0 v0|n0|batch|code0|l| |l|l| |e0 snap|e0 batch snap|e0 got|]; cbn [call].
  7: { intros _. set (d1 := d <| vm_touches := d.(vm_touches) <| response_body_mutated := true |> |>).
       apply (on_response_chosen (stream_call _ sync_response_output_stream_headers start) d1). by apply stream_call_chosen. }
  7: { intros _. pose proof (write_chosen l ExplicitImmediate d) as Hw. unfold write_response_stream. eff_step.
       by destruct (write_downstream_response_stream_bytes l ExplicitImmediate d) as [[[]|e1] d1]. }
  7: { intros _. apply write_chosen. }
  7: { intros _. apply on_response_chosen. unfold on_stream, notify_if. eff_step.
       destruct (body_stream (response_output d)) as [s|]; [|done]. by destruct (finish s) as [[[]|e1] s1]. }
  all: unfold set_response_header, add_response_header, clear_response_header, set_response_headers, set_response_status,
    set_response_body, apply_exchange_to_response, apply_exchange_to_response_with_headers, materialize_body, get_response_body,
    insert_downstream_response_header, insert_downstream_response_headers, set_downstream_response_status,
    note_downstream_response_headers_mutated, ensure_downstream_response_head_mutable, apply_exchange_node, on_response, zoom,
    touch, throw_if, throw, lift.
  all: unfold mbind, eff_bind, get_state, modify, mret, eff_ret.
  all: intros He; repeat (cbn in *; case_match); simplify_eq/=; try done.
  all: exfalso; unfold stream_committed in *; cbn in *.
  all: match goal with H : bool_decide (is_Some ?x) = false |- _ => apply bool_decide_eq_false, eq_None_not_Some in H end.
  all: repeat case_match; congruence.
Qed.

(** C21. Every refusal is exact and harmless.  While the server is there, a call
    on the response succeeds or fails as [refusal] says, by the validity of its
    arguments and by whether the head is committed, a body is selected, or the
    stream is finished; a refused call changes neither the body, nor the
    exchange it is taken from, nor the status, nor one byte of the stream. *)
Theorem call_refused (o : op) (d : downstream) :
  node_ok (response_output d) -> closed (response_output d) = false ->
  let '(res, d') := call o d in
  res = match refusal o (response_output d) with Some e => Err e | None => Ok tt end
  /\ (is_Ok res = false ->
      chosen (response_output d') = chosen (response_output d) /\ stream_bytes (response_output d') = stream_bytes (response_output d)).
Proof.
  intros Hn Hc. pose proof (call_result o d Hn Hc) as Hr. pose proof (refused_chosen o d) as Hch.
  pose proof (post_bytes _ _ _ _ (call_sound o d Hn) Hc) as Hb. destruct (call o d) as [res d']. cbn in *.
  split; [done|]. destruct res as [[]|e]; [done|]. intros _. split; [by apply (Hch e)|]. by rewrite app_nil_r in Hb.
Qed.

#[local] Existing Instances Http1ResponseWriter.map_headers Http1ResponseWriter.map_headers_laws.
(** ** Sending it *)

Section sending.
Import Http1ResponseWriter(write_http1_response, write_http1_status_line, header_block, framed, head_agrees, http1_response_has_no_body).
Context {W : Type} `{HSL : Http1Upstream.SinkLaws W} `{HCL : !HttpCrateLaws}.
Context (derive_accept_key : list Z -> string) (vm_error_display : VmError -> string).

Lemma calls_run ops (st : run) :
  let st' := foldl step st (Call <$> ops) in
  run_ok st -> run_ok st' /\ received st' = received st /\ taken (response_output (run_state st')) = taken (response_output (run_state st)).
Proof.
  revert st. induction ops as [|o ops IH]; intros st; [done|]. cbn [fmap list_fmap foldl]. intros Hst.
  assert (Hs : run_ok (step st (Call o))) by (by apply step_ok). destruct (IH _ Hs) as (Hok & Hr & Ht).
  split_and!; [done|rewrite Hr|rewrite Ht].
  - destruct st as [d acc got]. cbn. by destruct (call o d).
  - destruct st as [d acc got]. cbn. pose proof (post_taken _ _ _ _ (call_sound o d (run_node _ Hst))) as Hp.
    cbn in Hp. by destruct (call o d).
Qed.

(** Finishing a stream with something in it: the receiver gets all of it. *)
Lemma take_parts_stream (r : node) s :
  node_ok r -> closed r = false -> taken r = false -> body_stream r = Some s -> pending_bytes s ≠ [] ->
  exists chunks r', take_parts true r = (Ok (Some chunks), r') /\ concat chunks = pending_bytes s /\ Forall (fun c => c ≠ []) chunks
    /\ body r' = body r /\ headers r' = headers r /\ status r' = status r.
Proof.
  intros Hn Hc Ht Hs Hne. pose proof (ok_stream _ Hn) as Hok. rewrite Hs in Hok. unfold closed, taken in Hc, Ht. rewrite Hs in Hc, Ht.
  pose proof (finish_post s Hok) as Hp.
  assert (Hfin : forall n s', finish s = (Ok n, s') -> finished s' = true).
  { unfold finish. eff_step. destruct (finished s) eqn:Hf; [by intros n s' [= <- <-]|].
    destruct (flush_buffered s) as [[n|e] s1]; by intros ? ? [= <- <-]. }
  unfold take_parts, on_stream. eff_step. rewrite Hs. destruct (finish s) as [[n|e] s1] eqn:Hf.
  2: { exfalso. destruct Hp as (_ & _ & _ & _ & _ & [[Hfd _]|[? _]]); [|congruence]. revert Hf. unfold finish. eff_step. by rewrite Hfd. }
  specialize (Hfin _ _ eq_refl). destruct Hp as (Hok1 & Hr1 & _ & _ & _ & Hp1 & _). rewrite app_nil_r in Hp1.
  assert (Hb1 : pending_bytes s1 = concat (in_flight (channel s1))).
  { unfold pending_bytes. by rewrite (ok_finished _ Hok1 Hfin), app_nil_r. }
  assert (Hcom : committed s1 = true).
  { destruct (committed s1) eqn:Hcom; [done|]. destruct (ok_uncommitted _ Hok1 Hcom) as [Hi _].
    rewrite Hb1, Hi in Hp1. by rewrite <-Hp1 in Hne. }
  unfold stream_committed. cbn. rewrite Hcom. cbn. unfold take_receiver. eff_step. rewrite Hr1.
  apply negb_false_iff in Ht. rewrite Ht. cbn. eexists _, _. split; [done|]. split_and!; [congruence|apply Hok1|done..].
Qed.

End sending.
End calls.

(** ** Concrete responses *)

#[local] Existing Instances Http1Upstream.bytes_sink Http1Upstream.bytes_sink_laws Http1ResponseWriter.few_codes.
Abbreviation hmap := (list (string * list Z)).

Definition fresh : DownstreamState (M:=hmap) :=
  MkDownstream default_node None false None (MkTouches false false false false false ∅) TcpFlow.downstream_ready.
Definition no_key (l : list Z) : string := "".
Definition shown (e : VmError) : string := "error".
Abbreviation calls ops := (foldl (fun d o => (call (HC:=any_crate) o d).2) fresh ops).
Abbreviation resolve := (resolve_local_response (HC:=any_crate) no_key shown true [] ([] : hmap)).

(** Two writes, a receive between them, and the end of the program. *)
Lemma stream_delivered_witness :
  let evs := [Call (WriteStream [104]); Resolve false; Receive; Call (AppendBody [105; 106]); Call FinishStream] in
  let st := foldl (step (HC:=any_crate)) (initial fresh) evs in
  accepted st = [104; 105; 106] /\ received st = [[104]]
  /\ concat (received st) ++ stream_bytes (response_output (run_state st)) = accepted st.
Proof.
  intros evs st. split; [by vm_compute|]. split; [by vm_compute|].
  apply (stream_delivered (HC:=any_crate) evs fresh). unfold evs. rewrite !not_elem_of_cons. by split_and!; try apply not_elem_of_nil.
Defined.

Lemma committed_head_fixed_witness :
  let d := calls [SetStatus 201; StartStream] in
  let d' := foldl (fun d o => (call (HC:=any_crate) o d).2) d [SetStatus 404; SetHeader "x" "1"; WriteStream [104]] in
  status (response_output d') = Some 201 /\ hm_get_all (headers (response_output d')) "x" = []
  /\ status (response_output d') = status (response_output d).
Proof.
  intros d d'. split; [by vm_compute|]. split; [by vm_compute|].
  apply (committed_head_fixed (HC:=any_crate) [SetStatus 404; SetHeader "x" "1"; WriteStream [104]] d); [|by vm_compute].
  split; [by apply Nat.leb_le|]. by split; try by vm_compute.
Defined.

(** A body cannot be set once a stream has begun. *)
Lemma call_refused_witness :
  let d := calls [AppendBody [104]] in
  (call (HC:=any_crate) (SetBody [105]) d).1
  = Err (HostError "http::response::set_body is unavailable after response streaming begins")
  /\ stream_bytes (response_output (call (HC:=any_crate) (SetBody [105]) d).2) = [104].
Proof.
  intros d. pose proof (call_refused (HC:=any_crate) (SetBody [105]) d) as Hr.
  destruct (call (HC:=any_crate) (SetBody [105]) d) as [res d'] eqn:Hc. destruct Hr as [Hres Hsame].
  - split; [by apply Nat.leb_le|]. by split; try by vm_compute.
  - by vm_compute.
  - split; [rewrite Hres; by vm_compute|]. destruct (Hsame ltac:(rewrite Hres; by vm_compute)) as [_ Hb].
    cbn [snd]. etransitivity; [exact Hb|]. by vm_compute.
Defined.


(** *** What the code does not expect *)

(** A stream that was only given nothing is neither a body nor a stream: with
    its own status and headers set, the program's response is not sent at all,
    and the request goes on to the upstream or is answered 404. *)
Lemma empty_stream_not_sent :
  (resolve (calls [SetStatus 204; SetHeader "a" "1"; WriteStream []])).1 = None.
Proof. by vm_compute. Qed.

(** The length of a body set before survives taking over an exchange whose
    response has none: five bytes are announced for a body of any length. *)
Lemma stale_content_length :
  let r := response_output (calls [SetBody [104; 101; 108; 108; 111]; ApplyExchange 2 (Ok (200, [("transfer-encoding", [99])]))]) in
  (headers r, body r, body_source_exchange r) = ([("content-length", [53])], None, Some 2).
Proof. by vm_compute. Qed.

(** A length set between the pieces of a stream is sent as it is. *)
Lemma stream_wrong_length :
  let '(resp, _) := resolve (calls [AppendBody [104; 105]; SetHeader "content-length" "9"]) in
  option_map (fun r => (Http1ResponseWriter.write_http1_response (HC:=any_crate) "GET" true r ([] : list Z)).2) resp
  = Some (bytes_of_string "HTTP/1.1 200 OK" ++ [13; 10] ++ bytes_of_string "content-type: text/plain" ++ [13; 10]
      ++ bytes_of_string "content-length: 9" ++ [13; 10; 13; 10; 104; 105]).
Proof. by vm_compute. Qed.

(** Whether a started stream has a content type depends on when the server looks
    at the head: before the first write it has none. *)
Lemma head_depends_on_timing :
  let started := calls [StartStream] in
  headers (response_output started) = []
  /\ stream_committed (response_output started) = true
  /\ headers (response_output (call (HC:=any_crate) (WriteStream [104]) started).2) = [("content-type", bytes_of_string "text/plain")].
Proof. by vm_compute. Qed.

(** Of two cookies the program adds, one is sent. *)
Lemma added_cookie_lost :
  let '(resp, _) := resolve (calls [AddHeader "set-cookie" "a"; AddHeader "set-cookie" "b"; AppendBody [104]]) in
  option_map (fun r => hm_get_all (Http1ResponseWriter.headers r) "set-cookie") resp = Some [[98]].
Proof. by vm_compute. Qed.
End DownstreamResponse.
