(* ===== verification/HttpExchange.v ===== *)
(** Model of the outbound HTTP exchanges of a request: the request node, the
    exchange registry and the transport state they use
    ([src/abi_impl/http/state.rs]), and the host calls that build a request
    ([src/abi_impl/http/exchange.rs]). *)

From S2P Require Import Prelude Bytes Effects TransportState TlsFlow HttpVersions HttpHeaders Http1ResponseWriter WebSocketState Http2Session Http3Session DownstreamResponse.

Module HttpExchange.
Import HttpHeaders.
Import HttpVersion(HttpVersionPreference, HttpUpstreamScheme, Http, Https, Auto, ParsedHttpUpstreamTarget,
  build_upstream_origin, format_upstream_authority, scheme_as_str, scheme_parse).
Import Http1ResponseWriter(merge_http_headers).
Import DownstreamResponse(parse_header_name, parse_header, first_values).

#[local] Existing Instances HttpVersion.HttpUpstreamScheme_eq_dec HttpVersion.HttpVersionPreference_eq_dec
  TcpSocket.TcpSocketPhase_eq_dec.

(** ** The crates *)

(** [http::uri::Authority] *)
Class AuthorityCrate := {
  Authority : Type;
  parse_authority : string -> option Authority;
  authority_str : Authority -> string;
  authority_host : Authority -> string;
  port_u16 : Authority -> option Z;
}.
(** An authority is the text it was parsed from, with the port written there. *)
Class AuthorityLaws `{AuthorityCrate} := {
  parse_authority_port h p a :
    0 < p <= U16_MAX -> parse_authority (h +:+ ":" +:+ Bytes.dec p) = Some a -> port_u16 a = Some p;
  authority_str_parse s a : parse_authority s = Some a -> authority_str a = s;
}.

(** [Method::from_bytes], its error dropped, and the pairs of a query
    ([url::form_urlencoded]). *)
Class RequestCrate := {
  method_from_bytes : string -> option string;
  form_parse : string -> list (string * string);
  form_serialize : list (string * string) -> string;
}.

(** A byte of a request line: no space, no line end. *)
Definition line_byte (b : Z) : Prop := ~ (9 <= b <= 13 \/ b = 32).
Definition line_text (s : string) : Prop := Forall line_byte (bytes_of_string s).

(** A method is a token, kept as it is; serialized pairs are unreserved
    characters and escapes, read back as they were. *)
Class RequestCrateLaws `{RequestCrate} := {
  method_token s m : method_from_bytes s = Some m -> m = s /\ s ≠ "" /\ line_text s;
  form_serialize_safe l :
    Forall (fun b => line_byte b /\ b ≠ 35) (bytes_of_string (form_serialize l));
  form_parse_serialize l : form_parse (form_serialize l) = l;
}.

(** ** The request *)

Section exchange.
Context {M : Type} `{HM : HeaderMap M} `{HMM : !HeaderMapMut M} `{HC : HttpCrate}.
Context `{AC : AuthorityCrate} `{RC : RequestCrate}.

(** The part of the downstream request's head that an upstream request can
    inherit. *)
Record HttpRequestHead := MkHead {
  head_method : string;
  head_path : string;
  head_query : string;
  head_headers : LazyHttpHeaders M;
}.
#[export] Instance eta_head : Eta HttpRequestHead := fun h =>
  MkHead h.(head_method) h.(head_path) h.(head_query) h.(head_headers).

Record HttpOutboundRequestNode := MkRequest {
  inherits_request_head : bool;
  method : string;
  path : string;
  query : string;
  headers : M;
  inherited_header_overrides : M;
  body_override : option (list Z);
  target : option string;
  target_host : option string;
  target_host_arc : option string;
  target_port : option Z;
  target_host_header : option string;
  target_authority : option string;
  target_plain_http1_pool_key : option string;
  target_inherits_request_path : bool;
  target_scheme : HttpUpstreamScheme;
  version_preference : HttpVersionPreference;
}.
#[export] Instance eta_request : Eta HttpOutboundRequestNode := fun r =>
  MkRequest r.(inherits_request_head) r.(method) r.(path) r.(query) r.(headers) r.(inherited_header_overrides)
    r.(body_override) r.(target) r.(target_host) r.(target_host_arc) r.(target_port) r.(target_host_header)
    r.(target_authority) r.(target_plain_http1_pool_key) r.(target_inherits_request_path) r.(target_scheme)
    r.(version_preference).

Definition new : HttpOutboundRequestNode :=
  MkRequest false "GET" "/" "" hm_new hm_new None None None None None None None None false Http Auto.
Definition default_upstream : HttpOutboundRequestNode :=
  MkRequest true "GET" "" "" hm_new hm_new None None None None None None None None false Http Auto.

Definition reset_inherited_request_head (r : HttpOutboundRequestNode) : HttpOutboundRequestNode :=
  r <| inherits_request_head := true |> <| method := "GET" |> <| path := "" |> <| query := "" |>
    <| headers := hm_new |> <| inherited_header_overrides := hm_new |>.

Abbreviation on_request := (eff fault HttpOutboundRequestNode).
Definition host_error {A} (e : vm_result A) : result fault A :=
  match e with Ok a => Ok a | Err e => Err (Fail e) end.

Definition build_origin : HttpUpstreamScheme -> string -> Z -> outcome ParsedHttpUpstreamTarget :=
  build_upstream_origin parse_authority authority_str authority_host port_u16.

Definition set_target_host_port (host : string) (port : Z) : on_request unit :=
  r ← get_state;
  parsed ← lift (build_origin r.(target_scheme) host port);
  modify (fun r => r <| target := Some (HttpVersion.target parsed) |> <| target_host := Some (HttpVersion.host parsed) |>
    <| target_host_arc := Some (HttpVersion.host_arc parsed) |> <| target_port := Some (HttpVersion.port parsed) |>
    <| target_host_header := Some (HttpVersion.host_header parsed) |>
    <| target_authority := Some (HttpVersion.authority parsed) |>
    <| target_plain_http1_pool_key := Some (HttpVersion.plain_http1_pool_key parsed) |>
    <| target_inherits_request_path := true |>).

Definition set_target_scheme (sch : HttpUpstreamScheme) : on_request unit :=
  _ ← modify (fun r => r <| target_scheme := sch |>);
  r ← get_state;
  match r.(target_host), r.(target_port) with
  | Some host, Some port =>
      parsed ← lift (build_origin sch host port);
      modify (fun r => r <| target := Some (HttpVersion.target parsed) |>
        <| target_host_arc := Some (HttpVersion.host_arc parsed) |>
        <| target_host_header := Some (HttpVersion.host_header parsed) |>
        <| target_authority := Some (HttpVersion.authority parsed) |>
        <| target_plain_http1_pool_key := Some (HttpVersion.plain_http1_pool_key parsed) |>)
  | _, _ => mret tt
  end.

(** Asking for the headers of the head parses them, for every other reader
    too. *)
Definition materialize_inherited_request_head (h : HttpRequestHead) (r : HttpOutboundRequestNode)
    : HttpRequestHead * HttpOutboundRequestNode :=
  if negb r.(inherits_request_head) then (h, r)
  else
    let '(m, lazy) := HttpHeaders.headers h.(head_headers) in
    (h <| head_headers := lazy |>,
     r <| method := h.(head_method) |> <| path := h.(head_path) |> <| query := h.(head_query) |>
       <| headers := merge_http_headers m r.(inherited_header_overrides) |>
       <| inherited_header_overrides := hm_new |> <| inherits_request_head := false |>).

Definition insert_header (name : string) (value : list Z) (r : HttpOutboundRequestNode) : HttpOutboundRequestNode :=
  if r.(inherits_request_head)
  then r <| inherited_header_overrides := hm_insert name value r.(inherited_header_overrides) |>
  else r <| headers := hm_insert name value r.(headers) |>.

(** [for (name, value) in parsed.iter()] *)
Definition apply_header_batch (batch : vm_result M) : on_request unit :=
  parsed ← lift (host_error batch);
  modify (fun r => foldl (fun r e => insert_header e.1 e.2 r) r (hm_iter parsed)).

(** ** The exchange *)

(** The body of a response, behind its lock. *)
Context {B : Type}.

Inductive HttpCarrierKind := CarrierHttp1 | CarrierHttp2 | CarrierHttp3.
Inductive HttpCarrierRef :=
| DownstreamHttp1
| DownstreamHttp2Stream (stream : Http2Session.Http2StreamRef)
| DownstreamHttp3Stream (stream : Http3Session.Http3StreamRef)
| Http1DefaultUpstream
| Http1DynamicExchange (handle : Z)
| UpstreamHttp2Stream (stream : Http2Session.Http2StreamRef)
| UpstreamHttp3Stream (stream : Http3Session.Http3StreamRef).

Definition carrier_kind_of (r : HttpCarrierRef) : HttpCarrierKind :=
  match r with
  | DownstreamHttp1 | Http1DefaultUpstream | Http1DynamicExchange _ => CarrierHttp1
  | DownstreamHttp2Stream _ | UpstreamHttp2Stream _ => CarrierHttp2
  | DownstreamHttp3Stream _ | UpstreamHttp3Stream _ => CarrierHttp3
  end.

Inductive AttachedHttpTransport :=
| AttachedTcp (stream : Z)
| AttachedTls (session : Z).

Record HttpExchangeTransportState := MkTransport {
  tcp_flow : TcpFlow.TcpFlowState;
  tls_flow : TlsFlow.TlsFlowState;
  carrier_kind : HttpCarrierKind;
  carrier_ref : option HttpCarrierRef;
  http_version : option string;
  peer_addr : option string;
  attached_transport : option AttachedHttpTransport;
}.
#[export] Instance eta_transport : Eta HttpExchangeTransportState := fun t =>
  MkTransport t.(tcp_flow) t.(tls_flow) t.(carrier_kind) t.(carrier_ref) t.(http_version) t.(peer_addr)
    t.(attached_transport).

Definition default_transport : HttpExchangeTransportState :=
  MkTransport TcpFlow.default_flow TlsFlow.default_flow CarrierHttp1 None None None None.
Definition note_write (t : HttpExchangeTransportState) : HttpExchangeTransportState :=
  t <| tcp_flow := TcpFlow.note_write t.(tcp_flow) |>.
(** With the label of the version. *)
Definition mark_response_ready (version : string) (r : HttpCarrierRef) (t : HttpExchangeTransportState)
    : HttpExchangeTransportState :=
  t <| carrier_kind := carrier_kind_of r |> <| carrier_ref := Some r |> <| http_version := Some version |>.
Definition set_peer_addr (addr : option string) (t : HttpExchangeTransportState) : HttpExchangeTransportState :=
  t <| peer_addr := addr |>.

Record HttpUpstreamResponseSnapshot := MkSnapshot {
  snapshot_status : Z;
  snapshot_headers : M;
  snapshot_version : string;
  snapshot_carrier_kind : HttpCarrierKind;
  snapshot_carrier_ref : HttpCarrierRef;
  snapshot_body : B;
}.

Inductive HttpUpstreamResponseNode :=
| NotStarted
| Ready (snapshot : HttpUpstreamResponseSnapshot).

Record HttpOutboundExchangeState := MkExchange {
  request : HttpOutboundRequestNode;
  response : HttpUpstreamResponseNode;
  transport : HttpExchangeTransportState;
  websocket_dag : WebSocketState.WebSocketConnectionState;
  upstream_latency_ms : Z;
}.
#[export] Instance eta_exchange : Eta HttpOutboundExchangeState := fun e =>
  MkExchange e.(request) e.(response) e.(transport) e.(websocket_dag) e.(upstream_latency_ms).

Definition new_exchange_state : HttpOutboundExchangeState :=
  MkExchange new NotStarted default_transport WebSocketState.default_state 0.
Definition default_upstream_exchange_state : HttpOutboundExchangeState :=
  new_exchange_state <| request := default_upstream |>.

Definition response_snapshot (e : HttpOutboundExchangeState) : vm_result HttpUpstreamResponseSnapshot :=
  match e.(response) with
  | Ready s => Ok s
  | NotStarted => Err (HostError "outbound exchange response is unavailable before the exchange starts")
  end.
Definition response_ready (e : HttpOutboundExchangeState) : bool :=
  match e.(response) with Ready _ => true | NotStarted => false end.
Definition store_response (s : HttpUpstreamResponseSnapshot) (latency_ms : Z) (e : HttpOutboundExchangeState)
    : HttpOutboundExchangeState :=
  e <| response := Ready s |> <| upstream_latency_ms := latency_ms |>.

(** ** The context *)

Definition DEFAULT_UPSTREAM_EXCHANGE_HANDLE : Z := 1.
Definition FIRST_DYNAMIC_EXCHANGE_HANDLE : Z := 2.
Definition I64_MAX : Z := 2 ^ 63 - 1.

Record ExchangeRegistry := MkRegistry {
  next_outbound_exchange_handle : Z;
  exchanges : gmap Z HttpOutboundExchangeState;
  initialized_from_request : bool;
}.
#[export] Instance eta_registry : Eta ExchangeRegistry := fun g =>
  MkRegistry g.(next_outbound_exchange_handle) g.(exchanges) g.(initialized_from_request).

Definition registry_from_http_request : ExchangeRegistry := MkRegistry FIRST_DYNAMIC_EXCHANGE_HANDLE ∅ false.
Definition seed_exchanges (g : ExchangeRegistry) : ExchangeRegistry :=
  if g.(initialized_from_request) then g
  else g <| exchanges := <[DEFAULT_UPSTREAM_EXCHANGE_HANDLE := default_upstream_exchange_state]> g.(exchanges) |>
         <| initialized_from_request := true |>.

(** The fields of [TransportState] that exchanges use. *)
Record TransportState := MkTransportState {
  tcp_dag : TcpFlow.TcpTransportDag;
  tls_dag : TlsFlow.TlsTransportDag;
  downstream_request_seed : option (string * string * string);
  transport_initialized : bool;
  tcp_streams : gmap Z TcpSocket.TcpSocketState;
  dynamic_tls_sessions : gmap Z TlsFlow.TlsFlowState;
}.
#[export] Instance eta_transport_state : Eta TransportState := fun t =>
  MkTransportState t.(tcp_dag) t.(tls_dag) t.(downstream_request_seed) t.(transport_initialized) t.(tcp_streams)
    t.(dynamic_tls_sessions).

(** [authority_host] of the whole text, as [TlsFlow] asks for it. *)
Definition host_of (s : string) : option string := authority_host <$> parse_authority s.

Definition seed_transport (t : TransportState) : TransportState :=
  if t.(transport_initialized) then t
  else t <| tcp_dag := TcpFlow.for_http_request |>
         <| tls_dag := match t.(downstream_request_seed) with
                       | Some (scheme, host, version) => TlsFlow.for_http_request host_of scheme host version
                       | None => TlsFlow.MkDag TlsFlow.default_flow TlsFlow.default_flow
                       end |>
         <| transport_initialized := true |>.

Record Context := MkContext {
  request_head : HttpRequestHead;
  registry : ExchangeRegistry;
  transports : TransportState;
  native_forward_response_ready : bool;   (** a forwarded response is waiting to be taken *)
}.
#[export] Instance eta_context : Eta Context := fun c =>
  MkContext c.(request_head) c.(registry) c.(transports) c.(native_forward_response_ready).

Abbreviation host_call := (eff fault Context).

Definition lock_exchanges : host_call ExchangeRegistry :=
  _ ← modify (fun c => c <| registry := seed_exchanges c.(registry) |>);
  c ← get_state; mret c.(registry).
Definition lock_transport : host_call TransportState :=
  _ ← modify (fun c => c <| transports := seed_transport c.(transports) |>);
  c ← get_state; mret c.(transports).
Definition set_transport (f : TransportState -> TransportState) : host_call unit :=
  _ ← lock_transport; modify (fun c => c <| transports := f c.(transports) |>).

Definition unknown_exchange_handle (handle : Z) : fault :=
  Fail (HostError ("unknown outbound exchange handle " +:+ Bytes.dec handle)).

(** A computation on one exchange, [missing] when there is none. *)
Definition with_exchange {A} (handle : Z) (missing : fault) (m : eff fault HttpOutboundExchangeState A) : host_call A :=
  g ← lock_exchanges;
  match g.(exchanges) !! handle with
  | None => throw missing
  | Some e => fun c =>
      let '(r, e) := m e in
      (r, c <| registry := c.(registry) <| exchanges := <[handle := e]> c.(registry).(exchanges) |> |>)
  end.
Definition on_exchange_request {A} (m : on_request A) : eff fault HttpOutboundExchangeState A :=
  zoom request (fun r e => e <| request := r |>) m.
Definition on_exchange_transport (f : HttpExchangeTransportState -> HttpExchangeTransportState)
    : eff fault HttpOutboundExchangeState unit :=
  modify (fun e => e <| transport := f e.(transport) |>).

Definition allocate_outbound_exchange_handle : host_call Z :=
  g ← lock_exchanges;
  let handle := g.(next_outbound_exchange_handle) in
  _ ← throw_if (handle =? I64_MAX) (Fail (HostError "outbound exchange handle space exhausted"));
  _ ← modify (fun c => c <| registry := c.(registry) <| next_outbound_exchange_handle := handle + 1 |>
                 <| exchanges := <[handle := new_exchange_state]> c.(registry).(exchanges) |> |>);
  mret handle.

Definition outbound_exchange_exists (handle : Z) : host_call bool :=
  g ← lock_exchanges; mret (bool_decide (is_Some (g.(exchanges) !! handle))).
Definition ensure_known_exchange_handle (handle : Z) : host_call unit :=
  known ← outbound_exchange_exists handle; throw_if (negb known) (unknown_exchange_handle handle).

(** The default exchange's request is made explicit before it is changed. *)
Definition on_explicit_request {A} (h : HttpRequestHead) (mutate : on_request A)
    : eff fault HttpOutboundExchangeState (HttpRequestHead * result fault A) := fun e =>
  let '(h, r) := materialize_inherited_request_head h e.(request) in
  let '(res, r) := mutate r in
  (Ok (h, res), e <| request := r |>).

Definition with_exchange_request_mut {A} (handle : Z) (mutate : on_request A) : host_call A :=
  if handle =? DEFAULT_UPSTREAM_EXCHANGE_HANDLE then
    c ← get_state;
    '(h, res) ← with_exchange handle (unknown_exchange_handle handle) (on_explicit_request c.(request_head) mutate);
    _ ← modify (fun c => c <| request_head := h |>);
    lift res
  else with_exchange handle (unknown_exchange_handle handle) (on_exchange_request mutate).

Definition with_exchange_request {A} (handle : Z) (read : HttpOutboundRequestNode -> A) : host_call A :=
  g ← lock_exchanges;
  match g.(exchanges) !! handle with
  | None => throw (unknown_exchange_handle handle)
  | Some e => mret (read e.(request))
  end.

(** ** The host calls *)

(** [char::is_whitespace] of some character: in UTF-8 none of these sequences
    starts inside a character. *)
Fixpoint has_whitespace (l : list Z) : bool :=
  match l with
  | [] => false
  | b :: l' => bool_decide (is_Some (strip_ws_front l)) || has_whitespace l'
  end.

Definition is_valid_request_path (value : string) : bool :=
  let l := bytes_of_string value in
  negb (is_empty value) && bool_decide (head l = Some 47) && negb (HttpVersion.contains 63 value)
    && negb (HttpVersion.contains 35 value) && negb (has_whitespace l).

Definition strip_question_mark (q : string) : string :=
  match bytes_of_string q with 63 :: l => string_of_bytes l | _ => q end.

Definition parse_version_preference (label : string) : vm_result HttpVersionPreference :=
  ok_or (HostError ("invalid http version preference '" +:+ label +:+ "'; expected auto, 1.1, 2, or 3"))
    (HttpVersion.parse label).

Definition parse_upstream_port (port : Z) : vm_result Z :=
  if (0 <=? port) && (port <=? U16_MAX) && negb (port =? 0) then Ok port
  else Err (HostError ("invalid upstream port '" +:+ Bytes.dec port +:+ "'")).

Definition observe (sch : HttpUpstreamScheme) (host : option string) : TlsFlow.TlsFlowState -> TlsFlow.TlsFlowState :=
  TlsFlow.observe_target_parts (bool_decide (sch = Https)) host.

(** [transport.tcp_dag.default_upstream] and [transport.tls_dag.default_upstream] *)
Definition on_default_tcp (f : TcpFlow.TcpFlowState -> TcpFlow.TcpFlowState) (t : TransportState) : TransportState :=
  t <| tcp_dag := TcpFlow.MkDag (TcpFlow.downstream t.(tcp_dag)) (f (TcpFlow.default_upstream t.(tcp_dag))) |>.
Definition on_default_tls (f : TlsFlow.TlsFlowState -> TlsFlow.TlsFlowState) (t : TransportState) : TransportState :=
  t <| tls_dag := TlsFlow.MkDag (TlsFlow.downstream t.(tls_dag)) (f (TlsFlow.default_upstream t.(tls_dag))) |>.

Definition prepare_default_upstream_request (host : string) (port : Z) (version : string) (batch : vm_result M)
    : host_call unit :=
  version ← lift (host_error (parse_version_preference version));
  port ← lift (host_error (parse_upstream_port port));
  let handle := DEFAULT_UPSTREAM_EXCHANGE_HANDLE in
  '(sch, host) ← with_exchange handle (unknown_exchange_handle handle) (on_exchange_request (
    _ ← set_target_host_port host port;
    _ ← modify (fun r => r <| version_preference := version |>);
    _ ← apply_header_batch batch;
    r ← get_state; mret (r.(target_scheme), r.(target_host))));
  set_transport (fun t => on_default_tls (observe sch host) (on_default_tcp TcpFlow.configure t)).

Definition set_exchange_header (exchange : Z) (name value : string) : host_call unit :=
  '(n, v) ← lift (host_error (parse_header name value));
  with_exchange_request_mut exchange (modify (fun r => r <| headers := hm_insert n v r.(headers) |>)).
Definition add_exchange_header (exchange : Z) (name value : string) : host_call unit :=
  '(n, v) ← lift (host_error (parse_header name value));
  with_exchange_request_mut exchange (modify (fun r => r <| headers := hm_append n v r.(headers) |>)).
Definition clear_exchange_header (exchange : Z) (name : string) : host_call unit :=
  n ← lift (host_error (parse_header_name name));
  with_exchange_request_mut exchange (modify (fun r => r <| headers := hm_remove n r.(headers) |>)).

Definition set_exchange_method (exchange : Z) (m : string) : host_call unit :=
  parsed ← lift (ok_or (Fail (HostError ("invalid http method '" +:+ m +:+ "'"))) (method_from_bytes m));
  with_exchange_request_mut exchange (modify (fun r => r <| method := parsed |>)).

Definition set_exchange_path (exchange : Z) (p : string) : host_call unit :=
  _ ← throw_if (negb (is_valid_request_path p))
        (Fail (HostError ("path must start with '/' and must not contain whitespace, '?', or '#', got '" +:+ p +:+ "'")));
  with_exchange_request_mut exchange (modify (fun r => r <| path := p |>)).

Definition set_exchange_query (exchange : Z) (q : string) : host_call unit :=
  _ ← ensure_known_exchange_handle exchange;
  let normalized := strip_question_mark q in
  _ ← throw_if (HttpVersion.contains 35 normalized || has_whitespace (bytes_of_string normalized))
        (Fail (HostError ("query must not contain whitespace or '#', got '" +:+ q +:+ "'")));
  with_exchange_request_mut exchange (modify (fun r => r <| query := normalized |>)).

Definition set_exchange_query_arg (exchange : Z) (key value : string) : host_call unit :=
  with_exchange_request_mut exchange (modify (fun r =>
    let pairs := filter (fun e => e.1 ≠ key) (form_parse r.(query)) ++ [(key, value)] in
    r <| query := form_serialize pairs |>)).

Definition set_exchange_version (exchange : Z) (version : string) : host_call unit :=
  parsed ← lift (host_error (parse_version_preference version));
  with_exchange_request_mut exchange (modify (fun r => r <| version_preference := parsed |>)).
Definition get_exchange_version (exchange : Z) : host_call string :=
  with_exchange_request exchange (fun r => HttpVersion.as_str r.(version_preference)).

Definition set_exchange_body (exchange : Z) (body : list Z) : host_call unit :=
  with_exchange_request_mut exchange (modify (fun r => r <| body_override := Some body |>)).

Definition set_exchange_target (exchange : Z) (host : string) (port : Z) : host_call unit :=
  port ← lift (host_error (parse_upstream_port port));
  '(sch, host) ← with_exchange_request_mut exchange (
    _ ← set_target_host_port host port; r ← get_state; mret (r.(target_scheme), r.(target_host)));
  if exchange =? DEFAULT_UPSTREAM_EXCHANGE_HANDLE
  then set_transport (fun t => on_default_tls (observe sch host) (on_default_tcp TcpFlow.configure t))
  else with_exchange exchange (unknown_exchange_handle exchange) (on_exchange_transport (fun t =>
    t <| tcp_flow := TcpFlow.configure t.(tcp_flow) |> <| tls_flow := observe sch host t.(tls_flow) |>)).

Definition set_exchange_scheme (exchange : Z) (scheme : string) : host_call unit :=
  sch ← lift (host_error (scheme_parse scheme));
  '(sch, host) ← with_exchange_request_mut exchange (
    _ ← set_target_scheme sch; r ← get_state; mret (r.(target_scheme), r.(target_host)));
  if bool_decide (host = None) then mret tt
  else if exchange =? DEFAULT_UPSTREAM_EXCHANGE_HANDLE
  then set_transport (on_default_tls (observe sch host))
  else with_exchange exchange (unknown_exchange_handle exchange) (on_exchange_transport (fun t =>
    t <| tls_flow := observe sch host t.(tls_flow) |>)).

(** *** Bodies in pieces and attached transports *)

Definition upstream_response_available : host_call bool :=
  c ← get_state;
  if c.(native_forward_response_ready) then mret true
  else
    g ← lock_exchanges;
    mret (match g.(exchanges) !! DEFAULT_UPSTREAM_EXCHANGE_HANDLE with Some e => response_ready e | None => false end).

Definition append_body (bytes : list Z) (r : HttpOutboundRequestNode) : HttpOutboundRequestNode :=
  r <| body_override := Some (default [] r.(body_override) ++ bytes) |>.
Definition read_only (handle : Z) : fault :=
  Fail (HostError ("outbound exchange handle " +:+ Bytes.dec handle +:+ " is read-only after the exchange has started")).

Definition append_outbound_exchange_body_bytes (handle : Z) (bytes : list Z) : host_call unit :=
  if handle =? DEFAULT_UPSTREAM_EXCHANGE_HANDLE then
    available ← upstream_response_available;
    _ ← throw_if available
          (Fail (HostError "default upstream stream is read-only after the upstream exchange has started"));
    _ ← set_transport (on_default_tcp TcpFlow.note_write);
    with_exchange handle Panic (on_exchange_request (modify (append_body bytes)))
  else
    with_exchange handle (unknown_exchange_handle handle) (
      e ← get_state;
      _ ← throw_if (response_ready e) (read_only handle);
      _ ← on_exchange_transport note_write;
      on_exchange_request (modify (append_body bytes))).

Definition no_target : fault :=
  Fail (HostError "http exchange target must be configured before attaching a transport").
Definition exchange_target_snapshot (handle : Z) : host_call string :=
  g ← lock_exchanges;
  match g.(exchanges) !! handle with
  | None => throw (unknown_exchange_handle handle)
  | Some e => lift (ok_or no_target e.(request).(target))
  end.

(** The last part of both attachments. *)
Definition attach (exchange : Z) (t : AttachedHttpTransport) : host_call unit :=
  with_exchange exchange Panic (
    e ← get_state;
    _ ← throw_if (response_ready e) (read_only exchange);
    on_exchange_transport (fun s => s <| attached_transport := Some t |>)).

Definition attach_exchange_tcp (exchange stream : Z) : host_call unit :=
  _ ← ensure_known_exchange_handle exchange;
  _ ← exchange_target_snapshot exchange;
  t ← lock_transport;
  match t.(tcp_streams) !! stream with
  | None => throw (Fail (HostError
      ("http::exchange::attach_tcp requires a dynamic tcp stream handle, got " +:+ Bytes.dec stream)))
  | Some socket =>
      _ ← throw_if (negb (bool_decide (TcpSocket.phase socket = TcpSocket.Connected)))
            (Fail (HostError ("tcp stream handle " +:+ Bytes.dec stream
               +:+ " must be connected before it can be attached to an http exchange")));
      attach exchange (AttachedTcp stream)
  end.

Definition attach_exchange_tls_plaintext (exchange session : Z) : host_call unit :=
  _ ← ensure_known_exchange_handle exchange;
  g ← lock_exchanges;
  match g.(exchanges) !! exchange with
  | None => throw (unknown_exchange_handle exchange)
  | Some e =>
      _ ← lift (ok_or no_target e.(request).(target));
      t ← lock_transport;
      match t.(tcp_streams) !! session with
      | None => throw (Fail (HostError
          ("http::exchange::attach_tls_plaintext requires a dynamic tcp/tls handle, got " +:+ Bytes.dec session)))
      | Some socket =>
          _ ← throw_if (negb (bool_decide (TcpSocket.phase socket = TcpSocket.Connected)
                              || bool_decide (TcpSocket.phase socket = TcpSocket.UpgradedTls)))
                (Fail (HostError ("tls session handle " +:+ Bytes.dec session
                   +:+ " must be connected before it can be attached to an http exchange")));
          _ ← modify (fun c =>
                let t := c.(transports) in
                let flow := default TlsFlow.for_dynamic_socket (t.(dynamic_tls_sessions) !! session) in
                let flow :=
                  match e.(request).(target_host) with
                  | Some host => if negb (TlsFlow.handshake_complete flow)
                                 then TlsFlow.observe_target host_of (scheme_as_str e.(request).(target_scheme)) host flow
                                 else flow
                  | None => flow
                  end in
                c <| transports := t <| dynamic_tls_sessions := <[session := flow]> t.(dynamic_tls_sessions) |> |>);
          attach exchange (AttachedTls session)
      end
  end.

(** One host call, and what it returns. *)
Inductive op :=
| NewExchange
| PrepareDefaultUpstream (host : string) (port : Z) (version : string) (batch : vm_result M)
| SetHeader (exchange : Z) (name value : string)
| AddHeader (exchange : Z) (name value : string)
| ClearHeader (exchange : Z) (name : string)
| SetMethod (exchange : Z) (m : string)
| SetPath (exchange : Z) (p : string)
| SetQuery (exchange : Z) (q : string)
| SetQueryArg (exchange : Z) (key value : string)
| SetVersion (exchange : Z) (version : string)
| GetVersion (exchange : Z)
| SetTarget (exchange : Z) (host : string) (port : Z)
| SetScheme (exchange : Z) (scheme : string)
| SetBody (exchange : Z) (body : list Z)
| AppendBody (exchange : Z) (bytes : list Z)
| AttachTcp (exchange stream : Z)
| AttachTls (exchange session : Z).

Inductive reply :=
| Done
| NewHandle (handle : Z)
| Label (s : string).
Definition done (m : host_call unit) : host_call reply := _ ← m; mret Done.

Definition call (o : op) : host_call reply :=
  match o with
  | NewExchange => h ← allocate_outbound_exchange_handle; mret (NewHandle h)
  | PrepareDefaultUpstream host port version batch => done (prepare_default_upstream_request host port version batch)
  | SetHeader e n v => done (set_exchange_header e n v)
  | AddHeader e n v => done (add_exchange_header e n v)
  | ClearHeader e n => done (clear_exchange_header e n)
  | SetMethod e m => done (set_exchange_method e m)
  | SetPath e p => done (set_exchange_path e p)
  | SetQuery e q => done (set_exchange_query e q)
  | SetQueryArg e k v => done (set_exchange_query_arg e k v)
  | SetVersion e v => done (set_exchange_version e v)
  | GetVersion e => s ← get_exchange_version e; mret (Label s)
  | SetTarget e h p => done (set_exchange_target e h p)
  | SetScheme e s => done (set_exchange_scheme e s)
  | SetBody e b => done (set_exchange_body e b)
  | AppendBody e b => done (append_outbound_exchange_body_bytes e b)
  | AttachTcp e s => done (attach_exchange_tcp e s)
  | AttachTls e s => done (attach_exchange_tls_plaintext e s)
  end.

(** The exchange a call is about; a new one is about none. *)
Definition subject (o : op) : option Z :=
  match o with
  | NewExchange => None
  | PrepareDefaultUpstream _ _ _ _ => Some DEFAULT_UPSTREAM_EXCHANGE_HANDLE
  | SetHeader e _ _ | AddHeader e _ _ | ClearHeader e _ | SetMethod e _ | SetPath e _ | SetQuery e _ | SetQueryArg e _ _
  | SetVersion e _ | GetVersion e | SetTarget e _ _ | SetScheme e _ | SetBody e _ | AppendBody e _ | AttachTcp e _
  | AttachTls e _ => Some e
  end.

(** ** Well-formed states *)

(** The fields of a target go together: they are those of one authority with a
    host and a port, without user information. *)
Record target_of (r : HttpOutboundRequestNode) (t : string) : Prop := {
  of_authority : exists sch hh a h p host, t = scheme_as_str sch +:+ "://" +:+ hh
    /\ parse_authority hh = Some a /\ HttpVersion.contains 64 hh = false
    /\ hh = h +:+ ":" +:+ Bytes.dec p /\ 0 < p <= U16_MAX
    /\ r.(target_port) = Some p /\ r.(target_host_header) = Some hh /\ r.(target_authority) = Some hh
    /\ r.(target_plain_http1_pool_key) = Some ("http://" +:+ hh)
    /\ r.(target_host_arc) = Some (TlsFlow.trim_brackets (authority_host a))
    /\ r.(target_host) = Some host /\ is_empty host = false;
  of_path : r.(target_inherits_request_path) = true;
}.
Definition target_ok (r : HttpOutboundRequestNode) : Prop :=
  match r.(target) with
  | Some t => target_of r t
  | None => r.(target_host) = None /\ r.(target_port) = None
  end.

(** A method, a path and a query that fit on a request line. *)
Definition line_ok (m p q : string) : Prop := line_text m /\ line_text p /\ line_text q.
Definition request_ok (r : HttpOutboundRequestNode) : Prop :=
  target_ok r /\ line_ok r.(method) r.(path) r.(query).
Definition head_ok (h : HttpRequestHead) : Prop := line_ok h.(head_method) h.(head_path) h.(head_query).

Record registry_ok (g : ExchangeRegistry) : Prop := {
  next_range : FIRST_DYNAMIC_EXCHANGE_HANDLE <= g.(next_outbound_exchange_handle) <= I64_MAX;
  handles k : is_Some (g.(exchanges) !! k)
    <-> k = DEFAULT_UPSTREAM_EXCHANGE_HANDLE \/ FIRST_DYNAMIC_EXCHANGE_HANDLE <= k < g.(next_outbound_exchange_handle);
  requests_ok k e : g.(exchanges) !! k = Some e -> request_ok e.(request);
}.
Definition ok (c : Context) : Prop := head_ok c.(request_head) /\ registry_ok (seed_exchanges c.(registry)).

(** What a call on [handle] leaves alone. *)
Record others (handle : option Z) (c c' : Context) : Prop := {
  other_exchanges k : Some k ≠ handle -> is_Some ((seed_exchanges c.(registry)).(exchanges) !! k) ->
    (seed_exchanges c'.(registry)).(exchanges) !! k = (seed_exchanges c.(registry)).(exchanges) !! k;
  default_flows : handle ≠ Some DEFAULT_UPSTREAM_EXCHANGE_HANDLE ->
    (seed_transport c'.(transports)).(tcp_dag) = (seed_transport c.(transports)).(tcp_dag)
    /\ (seed_transport c'.(transports)).(tls_dag) = (seed_transport c.(transports)).(tls_dag);
  other_flows : TcpFlow.downstream (seed_transport c'.(transports)).(tcp_dag) = TcpFlow.downstream (seed_transport c.(transports)).(tcp_dag)
    /\ TlsFlow.downstream (seed_transport c'.(transports)).(tls_dag) = TlsFlow.downstream (seed_transport c.(transports)).(tls_dag)
    /\ c'.(transports).(tcp_streams) = c.(transports).(tcp_streams);
  same_line : c'.(request_head).(head_method) = c.(request_head).(head_method)
    /\ c'.(request_head).(head_path) = c.(request_head).(head_path)
    /\ c'.(request_head).(head_query) = c.(request_head).(head_query);
}.

Lemma seed_exchanges_idemp g : seed_exchanges (seed_exchanges g) = seed_exchanges g.
Proof. unfold seed_exchanges. destruct (initialized_from_request g) eqn:Hg; cbn; by rewrite ?Hg. Qed.
Lemma seed_transport_idemp t : seed_transport (seed_transport t) = seed_transport t.
Proof. unfold seed_transport. destruct (transport_initialized t) eqn:Ht; cbn; by rewrite ?Ht. Qed.
Lemma seeded_initialized g : initialized_from_request (seed_exchanges g) = true.
Proof. unfold seed_exchanges. by destruct (initialized_from_request g) eqn:Hg. Qed.
Lemma seed_initialized g : initialized_from_request g = true -> seed_exchanges g = g.
Proof. unfold seed_exchanges. by intros ->. Qed.

#[local] Arguments seed_transport : simpl never.
#[local] Arguments seed_exchanges : simpl never.

Lemma others_refl h c : others h c c.
Proof. done. Qed.
Lemma others_trans h c1 c2 c3 : others h c1 c2 -> others h c2 c3 -> others h c1 c3.
Proof.
  intros [H1 H2 (H3 & H4 & H5) (H6 & H7 & H8)] [I1 I2 (I3 & I4 & I5) (I6 & I7 & I8)].
  split; [|naive_solver congruence..].
  intros k Hk Hs. rewrite I1 by (done || by rewrite H1). by apply H1.
Qed.

(** ** Safe computations

    From a well-formed context in which [P] holds, a computation that is safe
    for [h] leaves one, touches nothing but [h], never panics, and when it
    succeeds [Q] holds of its result. *)
Definition safe (h : option Z) (P : Context -> Prop) {A} (m : host_call A) (Q : A -> Context -> Prop) : Prop :=
  forall c, ok c -> P c -> let '(r, c') := m c in
    ok c' /\ others h c c' /\ match r with Ok a => Q a c' | Err e => e ≠ Panic end.

Lemma safe_ret h (P : Context -> Prop) {A} (a : A) (Q : A -> Context -> Prop) : (forall c, P c -> Q a c) -> safe h P (mret a) Q.
Proof. intros HQ c Hc HP. split_and!; [done|apply others_refl|by apply HQ]. Qed.
Lemma safe_bind h P {A B'} (m : host_call A) (f : A -> host_call B') R Q :
  safe h P m R -> (forall a, safe h (R a) (f a) Q) -> safe h P (m ≫= f) Q.
Proof.
  intros Hm Hf c Hc HP. unfold mbind, eff_bind. specialize (Hm c Hc HP). destruct (m c) as [[a|e] c1].
  - destruct Hm as (Hc1 & Ho1 & HR). specialize (Hf a c1 Hc1 HR). destruct (f a c1) as [r c2].
    destruct Hf as (? & ? & ?). split_and!; [done|by eapply others_trans|done].
  - exact Hm.
Qed.
Lemma safe_weaken h (P P' : Context -> Prop) {A} (m : host_call A) (Q Q' : A -> Context -> Prop) :
  safe h P' m Q' -> (forall c, P c -> P' c) -> (forall a c, Q' a c -> Q a c) -> safe h P m Q.
Proof. intros Hm HP HQ c Hc H'. specialize (Hm c Hc (HP c H')). destruct (m c) as [[]?]; naive_solver. Qed.
Lemma safe_throw h P {A} e Q : e ≠ Panic -> safe h P (throw (A:=A) e) Q.
Proof. intros He c Hc _. by split_and!. Qed.
Lemma safe_throw_if h (P : Context -> Prop) b e : e ≠ Panic -> safe h P (throw_if b e) (fun _ c => b = false /\ P c).
Proof. destruct b; intros He c Hc HP; by split_and!. Qed.
Lemma safe_lift h (P : Context -> Prop) {A} (r : outcome A) : no_panic r -> safe h P (lift r) (fun a c => r = Ok a /\ P c).
Proof. intros Hr c Hc HP. split_and!; [done|done|]. destruct r; [done|]. intros ->. by apply Hr. Qed.

(** The lock on the registry is the registry, seeded. *)
Definition seeded (g : ExchangeRegistry) (c : Context) : Prop := c.(registry) = g /\ initialized_from_request g = true /\ registry_ok g.

Lemma safe_lock_exchanges h P : safe h P lock_exchanges seeded.
Proof.
  intros c [Hh Hg] _. cbn. split_and!.
  - split; [done|]. cbn. by rewrite seed_exchanges_idemp.
  - split; cbn; [by rewrite seed_exchanges_idemp|done..].
  - split_and!; [done|apply seeded_initialized|done].
Qed.

Lemma safe_set_transport f :
  (forall t, TcpFlow.downstream (tcp_dag (f t)) = TcpFlow.downstream (tcp_dag t)
    /\ TlsFlow.downstream (tls_dag (f t)) = TlsFlow.downstream (tls_dag t) /\ tcp_streams (f t) = tcp_streams t
    /\ transport_initialized (f t) = transport_initialized t) ->
  safe (Some DEFAULT_UPSTREAM_EXCHANGE_HANDLE) (fun _ => True) (set_transport f) (fun _ _ => True).
Proof.
  intros Hf c Hc _. unfold set_transport, lock_transport. cbn.
  set (t := seed_transport (transports c)). destruct (Hf t) as (H1 & H2 & H3 & H4).
  assert (Ht : transport_initialized t = true) by (unfold t, seed_transport; by destruct (transport_initialized (transports c)) eqn:?).
  assert (Hs : seed_transport (f t) = f t) by (unfold seed_transport at 1; by rewrite H4, Ht).
  split_and!; [done| |done]. split; cbn; [done|done| |done]. fold t. rewrite Hs, H1, H2, H3. split_and!; [done..|].
  unfold t, seed_transport. by destruct (transport_initialized (transports c)).
Qed.

(** What a change of one exchange keeps. *)
Definition keeps_exchange {A} (m : eff fault HttpOutboundExchangeState A) : Prop :=
  forall e, request_ok e.(request) -> request_ok (m e).2.(request) /\ (m e).1 ≠ Err Panic.

Lemma registry_ok_insert g k e' :
  registry_ok g -> is_Some (exchanges g !! k) -> request_ok e'.(request) ->
  registry_ok (g <| exchanges := <[k := e']> g.(exchanges) |>).
Proof.
  intros [Hn Hh Hr] Hk He. split; cbn; [done| |].
  - intros j. rewrite <-Hh. destruct (decide (k = j)) as [->|Hj]; [by rewrite lookup_insert_eq|by rewrite lookup_insert_ne].
  - intros j e. destruct (decide (k = j)) as [->|Hj]; [rewrite lookup_insert_eq; by intros [= <-]|].
    rewrite lookup_insert_ne by done. apply Hr.
Qed.

Lemma with_exchange_run {A} handle missing (m : eff fault HttpOutboundExchangeState A) c :
  let g := seed_exchanges c.(registry) in
  with_exchange handle missing m c
  = match g.(exchanges) !! handle with
    | None => (Err missing, c <| registry := g |>)
    | Some e => ((m e).1, c <| registry := g <| exchanges := <[handle := (m e).2]> g.(exchanges) |> |>)
    end.
Proof.
  intros g. unfold with_exchange, lock_exchanges, mbind, eff_bind, modify, get_state, mret, eff_ret. cbn. fold g.
  destruct (exchanges g !! handle) as [e|]; [|done]. by destruct (m e).
Qed.

Lemma safe_with_exchange (P : Context -> Prop) {A} handle missing (m : eff fault HttpOutboundExchangeState A) :
  missing ≠ Panic \/ (forall c, ok c -> P c -> is_Some (exchanges (seed_exchanges c.(registry)) !! handle)) ->
  keeps_exchange m -> safe (Some handle) P (with_exchange handle missing m) (fun _ _ => True).
Proof.
  intros Hmiss Hm c [Hh Hg] HP. rewrite with_exchange_run.
  set (g := seed_exchanges (registry c)) in *.
  assert (Hgi : initialized_from_request g = true) by apply seeded_initialized.
  destruct (exchanges g !! handle) as [e|] eqn:He; cbn.
  - destruct (Hm e (requests_ok g Hg _ _ He)) as [He' Hr]. destruct (m e) as [r e']. cbn in *.
    assert (Hs : seed_exchanges (g <| exchanges := <[handle:=e']> (exchanges g) |>) = g <| exchanges := <[handle:=e']> (exchanges g) |>)
      by (by apply seed_initialized).
    split_and!.
    + split; [done|]. cbn. rewrite Hs. apply registry_ok_insert; [done|by rewrite He|done].
    + split; cbn; [|done..]. fold g. rewrite Hs. intros k Hk _. cbn. rewrite lookup_insert_ne; [done|congruence].
    + destruct r; [done|]. congruence.
  - split_and!.
    + split; [done|]. cbn. by rewrite seed_initialized.
    + split; cbn; [|done..]. fold g. by rewrite seed_initialized.
    + destruct Hmiss as [Hmiss|Hmiss]; [done|]. destruct (Hmiss c (conj Hh Hg) HP) as [? Hx]. unfold g in He. congruence.
Qed.

(** *** Requests *)

Definition keeps_request {A} (m : on_request A) : Prop :=
  forall r, request_ok r -> request_ok (m r).2 /\ (m r).1 ≠ Err Panic.

Lemma keeps_request_ret {A} (a : A) : keeps_request (mret a).
Proof. done. Qed.
Lemma keeps_request_bind {A B'} (m : on_request A) (f : A -> on_request B') :
  keeps_request m -> (forall a, keeps_request (f a)) -> keeps_request (m ≫= f).
Proof.
  intros Hm Hf r Hr. unfold mbind, eff_bind. destruct (Hm r Hr) as [H1 H2]. destruct (m r) as [[a|e] r1]; cbn in *; [by apply Hf|].
  split; [done|congruence].
Qed.
Lemma keeps_request_get : keeps_request get_state.
Proof. done. Qed.
Lemma keeps_request_modify f : (forall r, request_ok r -> request_ok (f r)) -> keeps_request (modify f).
Proof. intros Hf r Hr. split; [by apply Hf|done]. Qed.
Lemma keeps_request_lift {A} (r : outcome A) : no_panic r -> keeps_request (lift r).
Proof. by intros Hr r' Hr'. Qed.

(** The target and the line are all that counts. *)
Lemma request_ok_same r r' :
  request_ok r ->
  (target r', target_host r', target_host_arc r', target_port r', target_host_header r', target_authority r',
   target_plain_http1_pool_key r', target_inherits_request_path r')
  = (target r, target_host r, target_host_arc r, target_port r, target_host_header r, target_authority r,
     target_plain_http1_pool_key r, target_inherits_request_path r) ->
  line_ok (method r') (path r') (query r') -> request_ok r'.
Proof.
  intros [Ht _] [= H1 H2 H3 H4 H5 H6 H7 H8] Hl. split; [|done]. unfold target_ok in *. rewrite H1, H2, H4.
  destruct (target r); [|done]. destruct Ht as [Ha Hp]. split; [|congruence].
  rewrite H2, H3, H4, H5, H6, H7. exact Ha.
Qed.

Lemma insert_header_ok n v r : request_ok r -> request_ok (insert_header n v r).
Proof. intros Hr. unfold insert_header. destruct (inherits_request_head r); apply (request_ok_same r); by try apply Hr. Qed.
Lemma host_error_no_panic {A} (e : vm_result A) : no_panic (host_error e).
Proof. by destruct e. Qed.
Lemma apply_batch_ok batch : keeps_request (apply_header_batch batch).
Proof.
  apply keeps_request_bind; [apply keeps_request_lift, host_error_no_panic|]. intros m. apply keeps_request_modify.
  generalize (hm_iter m). intros l. induction l as [|e l IH]; intros r Hr; [done|]. cbn. by apply IH, insert_header_ok.
Qed.

Context `{AL : !AuthorityLaws} `{RL : !RequestCrateLaws}.

(** What an origin is made of. *)
Lemma build_origin_spec sch h p t :
  0 <= p <= U16_MAX -> build_origin sch h p = Ok t ->
  exists a h', parse_authority (HttpVersion.host_header t) = Some a
    /\ HttpVersion.contains 64 (HttpVersion.host_header t) = false
    /\ HttpVersion.host_header t = format_upstream_authority h p
    /\ HttpVersion.host_header t = h' +:+ ":" +:+ Bytes.dec p /\ 0 < p
    /\ HttpVersion.target t = scheme_as_str sch +:+ "://" +:+ HttpVersion.host_header t
    /\ HttpVersion.authority t = HttpVersion.host_header t
    /\ HttpVersion.plain_http1_pool_key t = "http://" +:+ HttpVersion.host_header t
    /\ HttpVersion.host t = TlsFlow.trim_brackets (authority_host a) /\ HttpVersion.host_arc t = HttpVersion.host t
    /\ is_empty (HttpVersion.host t) = false /\ HttpVersion.port t = p.
Proof.
  intros Hp Hb. destruct (HttpVersion.format_upstream_authority_shape h p) as [h' Hh].
  unfold build_origin, build_upstream_origin in Hb. destruct (Z.eqb_spec p 0); [done|].
  destruct (HttpVersion.contains 64 _) eqn:Hat; [done|].
  destruct (parse_authority _) as [a|] eqn:Ha; [|done].
  destruct (is_empty _) eqn:He; [done|]. pose proof (authority_str_parse _ _ Ha) as Hs.
  rewrite Hh in Ha. rewrite (parse_authority_port h' p a) in Hb by (done || lia). injection Hb as <-. cbn.
  exists a, h'. rewrite Hs, <-Hh in *. split_and!; try done. lia.
Qed.
Lemma build_origin_no_panic sch h p : 0 <= p <= U16_MAX -> no_panic (build_origin sch h p).
Proof.
  intros Hp. exact (proj1 (HttpVersion.build_upstream_origin_ok _ _ _ _ parse_authority_port sch h p Hp)).
Qed.

Lemma set_target_ok host port : 0 <= port <= U16_MAX -> keeps_request (set_target_host_port host port).
Proof.
  intros Hp r Hr. unfold set_target_host_port, mbind, eff_bind, get_state, lift, modify.
  pose proof (build_origin_no_panic (target_scheme r) host port Hp) as Hn.
  destruct (build_origin (target_scheme r) host port) as [t|e] eqn:Hb; [|split; cbn; [done|by intros [= ->]]].
  split; [|done]. cbn. apply build_origin_spec in Hb as (a & h' & Ha & Hat & _ & Hh & Hp0 & Ht & Hau & Hk & Hhost & Harc & He & Hpt); [|done].
  split; [|apply Hr]. unfold target_ok. cbn. split; cbn; [|done].
  exists (target_scheme r), (HttpVersion.host_header t), a, h', port, (HttpVersion.host t).
  rewrite Ht, Hau, Hk, Harc, Hpt. split_and!; try done; try lia; by rewrite Hhost.
Qed.

Lemma set_scheme_ok sch : keeps_request (set_target_scheme sch).
Proof.
  intros r Hr. unfold set_target_scheme, mbind, eff_bind, get_state, lift, modify. cbn.
  assert (Hr' : request_ok (r <| target_scheme := sch |>)) by (apply (request_ok_same r); by try apply Hr).
  destruct (target_host r) as [host|] eqn:Hho; [|done]. destruct (target_port r) as [port|] eqn:Hpo; [|done].
  destruct (target r) as [t0|] eqn:Ht0; [|destruct Hr as [Ht _]; unfold target_ok in Ht; rewrite Ht0 in Ht; naive_solver].
  destruct Hr as [Ht Hl]. unfold target_ok in Ht. rewrite Ht0 in Ht.
  destruct Ht as [(sch0 & hh & a0 & h0 & p & host' & _ & _ & _ & _ & Hp & Hp' & _ & _ & _ & _ & Hho' & Hne) Hpath].
  rewrite Hho in Hho'. rewrite Hpo in Hp'. simplify_eq.
  pose proof (build_origin_no_panic sch host' p ltac:(lia)) as Hn.
  destruct (build_origin sch host' p) as [t|e] eqn:Hb; [|split; cbn; [done|by intros [= ->]]].
  split; [|done]. cbn. apply build_origin_spec in Hb as (a & h' & Ha & Hat & _ & Hh & Hp0 & Ht & Hau & Hk & Hhost & Harc & He & Hpt); [|lia].
  split; [|done]. unfold target_ok. cbn. split; cbn; [|done].
  exists sch, (HttpVersion.host_header t), a, h', p, host'.
  rewrite Ht, Hau, Hk, Harc, Hho, Hpo. split_and!; try done; try lia; by rewrite Hhost.
Qed.

(** *** Calls *)

Lemma materialize_ok h r :
  head_ok h -> request_ok r ->
  let '(h', r') := materialize_inherited_request_head h r in
  request_ok r' /\ inherits_request_head r' = false /\ head_method h' = head_method h /\ head_path h' = head_path h
  /\ head_query h' = head_query h.
Proof.
  intros Hh Hr. unfold materialize_inherited_request_head. destruct (inherits_request_head r) eqn:Hi; cbn; [|by split_and!].
  destruct (HttpHeaders.headers (head_headers h)). split_and!; [|done..]. by apply (request_ok_same r).
Qed.

Lemma on_exchange_request_keeps {A} (m : on_request A) : keeps_request m -> keeps_exchange (on_exchange_request m).
Proof. intros Hm e He. unfold on_exchange_request, zoom. destruct (Hm _ He) as [H1 H2]. by destruct (m (request e)). Qed.

Lemma safe_request_mut handle {A} (m : on_request A) :
  keeps_request m -> safe (Some handle) (fun _ => True) (with_exchange_request_mut handle m) (fun _ _ => True).
Proof.
  intros Hm. unfold with_exchange_request_mut. destruct (Z.eqb_spec handle DEFAULT_UPSTREAM_EXCHANGE_HANDLE) as [->|Hd].
  2: { apply safe_with_exchange; [by left|by apply on_exchange_request_keeps]. }
  intros c Hc _. set (x := on_explicit_request (request_head c) m).
  assert (Hx : keeps_exchange x).
  { intros e He. unfold x, on_explicit_request. pose proof (materialize_ok _ _ (proj1 Hc) He) as Hmat.
    destruct (materialize_inherited_request_head _ _) as [h r]. destruct Hmat as (Hr & _).
    destruct (Hm r Hr) as [H1 _]. by destruct (m r). }
  assert (Hne : unknown_exchange_handle DEFAULT_UPSTREAM_EXCHANGE_HANDLE ≠ Panic) by done.
  pose proof (safe_with_exchange (fun _ => True) DEFAULT_UPSTREAM_EXCHANGE_HANDLE _ x (or_introl Hne) Hx c Hc I) as Hsafe.
  unfold mbind, eff_bind at 1. cbn [get_state]. fold x. unfold mbind, eff_bind. rewrite with_exchange_run in *.
  destruct (exchanges _ !! _) as [e|] eqn:He; [|by apply Hsafe]. unfold x, on_explicit_request in *.
  destruct Hc as [Hh Hg]. pose proof (materialize_ok _ _ Hh (proj1 (conj (requests_ok _ Hg _ _ He) I))) as Hmat.
  destruct (materialize_inherited_request_head _ _) as [h r]. destruct Hmat as (Hr & _ & E1 & E2 & E3).
  destruct (Hm r Hr) as [_ H2]. destruct (m r) as [res r']. cbn in *.
  destruct Hsafe as ([_ Hreg] & [O1 O2 O3 O4] & _). split_and!.
  - split; [|done]. cbn. unfold head_ok. by rewrite E1, E2, E3.
  - by split.
  - destruct res; [done|]. congruence.
Qed.

Lemma line_check s : forallb (fun b => negb ((9 <=? b) && (b <=? 13) || (b =? 32))) (bytes_of_string s) = true -> line_text s.
Proof.
  rewrite forallb_forall. intros Hl. apply Forall_forall. intros b Hb%list_elem_of_In. specialize (Hl _ Hb).
  unfold line_byte. lia.
Qed.
Lemma line_ok_new : line_ok "GET" "/" "".
Proof. split_and!; by apply line_check. Qed.

Lemma has_whitespace_line s : has_whitespace (bytes_of_string s) = false -> line_text s.
Proof.
  unfold line_text. induction (bytes_of_string s) as [|b l IH]; [intros; by apply Forall_nil|].
  cbn [has_whitespace]. intros [Hb Hl]%orb_false_iff. constructor; [|by apply IH].
  apply bool_decide_eq_false in Hb. intros Hw. apply Hb.
  assert (b = 9 \/ b = 10 \/ b = 11 \/ b = 12 \/ b = 13 \/ b = 32) as Hc by lia.
  repeat destruct Hc as [->|Hc]; try subst; by eexists.
Qed.

Lemma valid_path_line s : is_valid_request_path s = true -> line_text s.
Proof. unfold is_valid_request_path. rewrite !andb_true_iff, !negb_true_iff. intros [_ Hw]. by apply has_whitespace_line. Qed.

Lemma serialized_line l : line_text (form_serialize l).
Proof. unfold line_text. eapply Forall_impl; [apply form_serialize_safe|]. by intros ? []. Qed.

Lemma host_of_port z p : host_error (parse_upstream_port z) = Ok p -> 0 <= p <= U16_MAX.
Proof. unfold parse_upstream_port. destruct (_ && _) eqn:Hz; cbn; [|done]. intros [= <-]. lia. Qed.

Lemma safe_done h m : safe h (fun _ => True) m (fun _ _ => True) -> safe h (fun _ => True) (done m) (fun _ _ => True).
Proof. intros Hm. eapply safe_bind; [exact Hm|]. intros []. by apply safe_ret. Qed.

(** A result of pure code, then a change of the request that keeps it well
    formed. *)
Lemma safe_parse_then {A} h (r : outcome A) (f : A -> host_call unit) :
  no_panic r -> (forall a, r = Ok a -> safe h (fun _ => True) (f a) (fun _ _ => True)) ->
  safe h (fun _ => True) (lift r ≫= f) (fun _ _ => True).
Proof.
  intros Hr Hf. eapply safe_bind; [by apply safe_lift|]. intros a.
  intros c Hc [Ha _]. by apply (Hf a Ha).
Qed.

Lemma safe_modify_request e f :
  (forall r, request_ok r -> request_ok (f r)) ->
  safe (Some e) (fun _ => True) (with_exchange_request_mut e (modify f)) (fun _ _ => True).
Proof. intros Hf. by apply safe_request_mut, keeps_request_modify. Qed.

(** Changes that leave the target alone. *)
Lemma same_target r r' :
  request_ok r ->
  (target r', target_host r', target_host_arc r', target_port r', target_host_header r', target_authority r',
   target_plain_http1_pool_key r', target_inherits_request_path r')
  = (target r, target_host r, target_host_arc r, target_port r, target_host_header r, target_authority r,
     target_plain_http1_pool_key r, target_inherits_request_path r) ->
  (line_text (method r) -> line_text (method r')) -> (line_text (path r) -> line_text (path r')) ->
  (line_text (query r) -> line_text (query r')) -> request_ok r'.
Proof. intros Hr He Hm Hp Hq. apply (request_ok_same r); [done..|]. destruct Hr as [_ (? & ? & ?)]. split_and!; auto. Qed.

Definition has (handle : Z) (c : Context) : Prop := is_Some ((seed_exchanges c.(registry)).(exchanges) !! handle).

Lemma safe_attach e t : safe (Some e) (has e) (attach e t) (fun _ _ => True).
Proof.
  apply safe_with_exchange; [by right|]. intros x Hx. unfold mbind, eff_bind, get_state, throw_if.
  by destruct (response_ready x).
Qed.

Lemma safe_lock_transport h P :
  (forall c t, P c -> P (c <| transports := t |>)) -> safe h P lock_transport (fun t c => t = transports c /\ P c).
Proof.
  intros HP c Hc H'. unfold lock_transport, mbind, eff_bind, modify, get_state, mret, eff_ret. cbn. split_and!.
  - done.
  - split; cbn; rewrite ?seed_transport_idemp; try done. split_and!; [done..|].
    unfold seed_transport. by destruct (transport_initialized (transports c)).
  - done.
  - by apply HP.
Qed.

Lemma seeded_has g e x c : exchanges g !! e = Some x -> seeded g c -> has e c.
Proof. intros He (Hg & Hi & _). unfold has. rewrite Hg, seed_initialized by done. by rewrite He. Qed.

Lemma safe_known e P : safe (Some e) P (ensure_known_exchange_handle e) (fun _ _ => True).
Proof.
  eapply safe_bind.
  - eapply safe_bind; [apply safe_lock_exchanges|]. intros g. apply (safe_ret _ _ _ (fun _ _ => True)). done.
  - intros b. eapply (safe_weaken _ _ (fun _ => True)); [by apply safe_throw_if|done|done].
Qed.

Lemma default_exists c : ok c -> has DEFAULT_UPSTREAM_EXCHANGE_HANDLE c.
Proof. intros [_ Hg]. apply (handles _ Hg). by left. Qed.

Lemma safe_available h : safe h (fun _ => True) upstream_response_available (fun _ _ => True).
Proof.
  intros c Hc _. unfold upstream_response_available, mbind, eff_bind at 1. cbn [get_state].
  destruct (native_forward_response_ready c); [by split_and!|].
  revert c Hc. cut (safe h (fun _ => True) (g ← lock_exchanges;
    mret match exchanges g !! DEFAULT_UPSTREAM_EXCHANGE_HANDLE with Some e => response_ready e | None => false end) (fun _ _ => True)).
  { intros Hs c Hc. exact (Hs c Hc I). }
  eapply safe_bind; [apply safe_lock_exchanges|]. intros g. by apply safe_ret.
Qed.

Lemma safe_append e bytes : safe (Some e) (fun _ => True) (append_outbound_exchange_body_bytes e bytes) (fun _ _ => True).
Proof.
  assert (Hb : forall r, request_ok r -> request_ok (append_body bytes r)) by (intros r Hr; by apply (same_target r)).
  unfold append_outbound_exchange_body_bytes. destruct (Z.eqb_spec e DEFAULT_UPSTREAM_EXCHANGE_HANDLE) as [->|He].
  - eapply safe_bind; [apply safe_available|]. intros b. eapply safe_bind; [by apply safe_throw_if|]. intros [].
    eapply (safe_bind _ _ _ _ (fun _ _ => True)).
    { eapply (safe_weaken _ _ (fun _ => True)); [by apply safe_set_transport|done|done]. }
    intros []. apply safe_with_exchange; [right; intros c Hc _; by apply default_exists|].
    by apply on_exchange_request_keeps, keeps_request_modify.
  - apply safe_with_exchange; [by left|]. intros x Hx. unfold mbind, eff_bind, get_state, throw_if.
    destruct (response_ready x); [done|]. cbn. by split; [apply Hb|].
Qed.

Lemma safe_target_snapshot e : safe (Some e) (fun _ => True) (exchange_target_snapshot e) (fun _ => has e).
Proof.
  eapply safe_bind; [apply safe_lock_exchanges|]. intros g. destruct (exchanges g !! e) as [x|] eqn:Hx.
  - eapply safe_weaken; [apply (safe_lift _ (seeded g))|done|].
    + by destruct (target (request x)).
    + intros t c [_ Hg]. by eapply seeded_has.
  - by apply safe_throw.
Qed.

Lemma has_transports e c t : has e c -> has e (c <| transports := t |>).
Proof. done. Qed.

Lemma safe_attach_tcp e s : safe (Some e) (fun _ => True) (attach_exchange_tcp e s) (fun _ _ => True).
Proof.
  eapply safe_bind; [apply safe_known|]. intros []. eapply safe_bind; [apply safe_target_snapshot|]. intros t.
  eapply safe_bind; [by apply safe_lock_transport, has_transports|]. intros ts.
  destruct (tcp_streams ts !! s) as [socket|]; [|by apply safe_throw].
  eapply safe_bind; [by apply safe_throw_if|]. intros []. eapply safe_weaken; [apply safe_attach|naive_solver|done].
Qed.

Lemma safe_attach_tls e s : safe (Some e) (fun _ => True) (attach_exchange_tls_plaintext e s) (fun _ _ => True).
Proof.
  eapply safe_bind; [apply safe_known|]. intros []. eapply safe_bind; [apply safe_lock_exchanges|]. intros g.
  destruct (exchanges g !! e) as [x|] eqn:Hx; [|by apply safe_throw].
  eapply safe_bind; [apply safe_lift; by destruct (target (request x))|]. intros t.
  eapply (safe_weaken _ _ (has e)); [|intros c [_ Hg]; by eapply seeded_has|intros a c Q; exact Q].
  eapply safe_bind; [apply (safe_lock_transport _ (has e)), has_transports|]. intros ts.
  destruct (tcp_streams ts !! s) as [socket|]; [|by apply safe_throw].
  eapply safe_bind; [by apply safe_throw_if|]. intros []. eapply (safe_bind _ _ _ _ (fun _ => has e)); [|intros []; apply safe_attach].
  intros c Hc (_ & _ & Hhas). cbn. split_and!; [done| |done]. split; cbn; [done|..|done].
  - intros _. unfold seed_transport. by destruct (transport_initialized (transports c)) eqn:Ht; cbn; rewrite Ht.
  - unfold seed_transport. by destruct (transport_initialized (transports c)) eqn:Ht; cbn; rewrite Ht.
Qed.

Lemma safe_new : safe None (fun _ => True) allocate_outbound_exchange_handle
  (fun h c => FIRST_DYNAMIC_EXCHANGE_HANDLE <= h /\ c.(registry).(exchanges) !! h = Some new_exchange_state).
Proof.
  intros c [Hh Hg] _. unfold allocate_outbound_exchange_handle, lock_exchanges, mbind, eff_bind, modify, get_state, mret, eff_ret, throw_if.
  cbn. set (g := seed_exchanges (registry c)) in *. assert (Hi : initialized_from_request g = true) by apply seeded_initialized.
  destruct (Z.eqb_spec (next_outbound_exchange_handle g) I64_MAX) as [Hmax|Hmax]; cbn.
  - split_and!; [|split; cbn; fold g|done]; [split; [done|]; cbn|..]; rewrite ?(seed_initialized g) by done; done.
  - destruct Hg as [Hn Hd Hr]. split_and!; [split; [done|]; cbn; rewrite seed_initialized by done|split; cbn; fold g|lia|].
    + split; cbn; [lia| |].
      * intros k. destruct (decide (k = next_outbound_exchange_handle g)) as [->|Hk].
        { rewrite lookup_insert_eq. split; [right; lia|by eexists]. }
        rewrite lookup_insert_ne by done. rewrite Hd. lia.
      * intros k e. destruct (decide (k = next_outbound_exchange_handle g)) as [->|Hk].
        { rewrite lookup_insert_eq. intros [= <-]. split; [done|apply line_ok_new]. }
        rewrite lookup_insert_ne by done. apply Hr.
    + intros k _ Hk. rewrite seed_initialized by done. cbn. apply Hd in Hk. rewrite lookup_insert_ne; [done|].
      unfold DEFAULT_UPSTREAM_EXCHANGE_HANDLE, FIRST_DYNAMIC_EXCHANGE_HANDLE in *. lia.
    + done.
    + done.
    + done.
    + by rewrite lookup_insert_eq.
Qed.

Lemma safe_query e q : safe (Some e) (fun _ => True) (set_exchange_query e q) (fun _ _ => True).
Proof.
  eapply safe_bind; [apply safe_known|]. intros []. eapply safe_bind; [by apply safe_throw_if|]. intros [] c Hc [Hw _].
  apply orb_false_iff in Hw as [_ Hw]. apply safe_modify_request; [|done..].
  intros r Hr. apply (same_target r); try done. intros _. by apply has_whitespace_line.
Qed.

Lemma safe_path e q : safe (Some e) (fun _ => True) (set_exchange_path e q) (fun _ _ => True).
Proof.
  eapply safe_bind; [by apply safe_throw_if|]. intros [] c Hc [Hw _]. apply negb_false_iff in Hw.
  apply safe_modify_request; [|done..]. intros r Hr. apply (same_target r); try done. intros _. by apply valid_path_line.
Qed.

Lemma keeps_target_pair (m : on_request unit) : keeps_request m ->
  keeps_request (_ ← m; r ← get_state; mret (target_scheme r, target_host r)).
Proof. intros Hm. by apply keeps_request_bind; [|intros []; apply keeps_request_bind]. Qed.

Lemma safe_flows e (f : TransportState -> TransportState) g :
  (forall t, TcpFlow.downstream (tcp_dag (f t)) = TcpFlow.downstream (tcp_dag t)
    /\ TlsFlow.downstream (tls_dag (f t)) = TlsFlow.downstream (tls_dag t) /\ tcp_streams (f t) = tcp_streams t
    /\ transport_initialized (f t) = transport_initialized t) ->
  safe (Some e) (fun _ => True)
    (if e =? DEFAULT_UPSTREAM_EXCHANGE_HANDLE then set_transport f
     else with_exchange e (unknown_exchange_handle e) (on_exchange_transport g)) (fun _ _ => True).
Proof.
  intros Hf. destruct (Z.eqb_spec e DEFAULT_UPSTREAM_EXCHANGE_HANDLE) as [->|He].
  - by apply safe_set_transport.
  - by apply safe_with_exchange; [left|intros x Hx].
Qed.

Lemma safe_target e host port : safe (Some e) (fun _ => True) (set_exchange_target e host port) (fun _ _ => True).
Proof.
  apply safe_parse_then; [apply host_error_no_panic|]. intros p Hp%host_of_port.
  eapply safe_bind; [by apply safe_request_mut, keeps_target_pair, set_target_ok|]. intros [sch h]. by apply safe_flows.
Qed.
Lemma safe_scheme e s : safe (Some e) (fun _ => True) (set_exchange_scheme e s) (fun _ _ => True).
Proof.
  apply safe_parse_then; [apply host_error_no_panic|]. intros sch _.
  eapply safe_bind; [by apply safe_request_mut, keeps_target_pair, set_scheme_ok|]. intros [sch' h].
  case_bool_decide; [by apply safe_ret|]. by apply safe_flows.
Qed.
Lemma safe_prepare host port version batch :
  safe (Some DEFAULT_UPSTREAM_EXCHANGE_HANDLE) (fun _ => True) (prepare_default_upstream_request host port version batch)
    (fun _ _ => True).
Proof.
  apply safe_parse_then; [apply host_error_no_panic|]. intros v _.
  apply safe_parse_then; [apply host_error_no_panic|]. intros p Hp%host_of_port.
  eapply (safe_bind _ _ _ _ (fun _ _ => True)); [|intros [sch h]; by apply safe_set_transport].
  apply safe_with_exchange; [by left|]. apply on_exchange_request_keeps.
  apply keeps_request_bind; [by apply set_target_ok|intros []].
  apply keeps_request_bind; [apply keeps_request_modify; intros r Hr; by apply (same_target r)|intros []].
  apply keeps_target_pair, apply_batch_ok.
Qed.

Lemma parse_header_no_panic {A} (r : vm_result A) : no_panic (host_error r).
Proof. by destruct r. Qed.

(** Every call is safe. *)
Lemma call_safe o : safe (subject o) (fun _ => True) (call o) (fun _ _ => True).
Proof.
  destruct o; cbn [call subject]; try apply safe_done;
    try (apply safe_parse_then; [apply host_error_no_panic|]; intros a Ha; try destruct a as [n v]; apply safe_modify_request;
         intros r Hr; by apply (same_target r)).
  - eapply safe_bind; [apply safe_new|]. intros h. by apply safe_ret.
  - apply safe_prepare.
  - apply safe_parse_then; [by destruct (method_from_bytes m)|]. intros a Ha. apply safe_modify_request.
    intros r Hr. apply (same_target r); try done. intros _. cbn. destruct (method_from_bytes m) eqn:Hm; [|done].
    injection Ha as <-. apply method_token in Hm as (-> & _ & ?). done.
  - apply safe_path.
  - apply safe_query.
  - apply safe_modify_request. intros r Hr. apply (same_target r); try done. intros _. apply serialized_line.
  - eapply (safe_bind _ _ _ _ (fun _ _ => True)); [|intros s; by apply safe_ret]. eapply safe_bind; [apply safe_lock_exchanges|]. intros g.
    destruct (exchanges g !! exchange); [by apply safe_ret|by apply safe_throw].
  - apply safe_target.
  - apply safe_scheme.
  - apply safe_modify_request. intros r Hr. by apply (same_target r).
  - apply safe_append.
  - apply safe_attach_tcp.
  - apply safe_attach_tls.
Qed.

Definition run (ops : list op) (c : Context) : Context := foldl (fun c o => (call o c).2) c ops.
Definition initial (h : HttpRequestHead) (t : TransportState) (forwarded : bool) : Context :=
  MkContext h registry_from_http_request t forwarded.

Lemma initial_exchanges_ok h t b : head_ok h -> ok (initial h t b).
Proof.
  intros Hh. split; [done|]. unfold seed_exchanges. cbn. split; cbn.
  - unfold FIRST_DYNAMIC_EXCHANGE_HANDLE, I64_MAX. lia.
  - intros k. destruct (decide (k = DEFAULT_UPSTREAM_EXCHANGE_HANDLE)) as [->|Hk].
    + rewrite lookup_insert_eq. split; [by left|by eexists].
    + rewrite lookup_insert_ne, lookup_empty by done. split; [by intros []|]. unfold FIRST_DYNAMIC_EXCHANGE_HANDLE. lia.
  - intros k e. destruct (decide (k = DEFAULT_UPSTREAM_EXCHANGE_HANDLE)) as [->|Hk].
    + rewrite lookup_insert_eq. intros [= <-]. split; [done|]. split_and!; by apply line_check.
    + by rewrite lookup_insert_ne, lookup_empty by done.
Qed.

Lemma run_ok ops c : ok c -> ok (run ops c).
Proof.
  revert c. induction ops as [|o ops IH]; intros c Hc; [done|]. apply IH. pose proof (call_safe o c Hc I) as Hs.
  destruct (call o c) as [r c']. apply Hs.
Qed.

Lemma allocated c h :
  (allocate_outbound_exchange_handle c).1 = Ok h -> h = next_outbound_exchange_handle (seed_exchanges (registry c)).
Proof.
  unfold allocate_outbound_exchange_handle, lock_exchanges, mbind, eff_bind, modify, get_state, mret, eff_ret, throw_if. cbn.
  destruct (_ =? _); cbn; [done|]. by intros [= <-].
Qed.

(** C18. The requests a program builds are well formed.  Whatever calls it makes, in
    any order and with any arguments: no call panics; the default exchange
    exists, and a new exchange gets a handle that was never given out before;
    and in every exchange the fields of the target are those of one authority,
    so that the connection pool's key, the host header and the host that is
    connected to agree, and method, path and query have no space or line end
    that would split the request line. *)
Theorem exchanges_well_formed ops h t b :
  head_ok h ->
  let c := run ops (initial h t b) in
  let g := seed_exchanges c.(registry) in
  (forall o, (call o c).1 ≠ Err Panic)
  /\ is_Some (g.(exchanges) !! DEFAULT_UPSTREAM_EXCHANGE_HANDLE)
  /\ (forall k, (call NewExchange c).1 = Ok (NewHandle k) -> g.(exchanges) !! k = None)
  /\ forall k e, g.(exchanges) !! k = Some e -> request_ok e.(request).
Proof.
  intros Hh c g. assert (Hc : ok c) by by apply run_ok, initial_exchanges_ok. split_and!.
  - intros o. pose proof (call_safe o c Hc I) as Hs. destruct (call o c) as [[r|e] c']; cbn; [done|].
    destruct Hs as (_ & _ & He). congruence.
  - by apply default_exists.
  - intros k Hk. assert (Ha : (allocate_outbound_exchange_handle c).1 = Ok k).
    { revert Hk. cbn [call]. unfold mbind, eff_bind. destruct (allocate_outbound_exchange_handle c) as [[j|] ?]; cbn; [|done].
      by intros [= ->]. }
    apply allocated in Ha. destruct Hc as [_ [Hn Hd _]]. apply eq_None_not_Some. intros Hs%Hd. fold g in Ha, Hn, Hs.
    unfold DEFAULT_UPSTREAM_EXCHANGE_HANDLE, FIRST_DYNAMIC_EXCHANGE_HANDLE in *. lia.
  - intros k e He. destruct Hc as [_ Hg]. by apply (requests_ok _ Hg k).
Qed.

(** C24. Exchanges do not interfere.  Calls that do not name an exchange leave it as
    it is, its request, its response and its transport; calls that do not name
    the default exchange leave the connections of the request alone, and no
    call changes the downstream connection, the socket table, or the request
    line that came from the client. *)
Theorem exchanges_isolated ops h t b ops' k :
  head_ok h -> Forall (fun o => subject o ≠ Some k) ops' ->
  let c := run ops (initial h t b) in
  let c' := run ops' c in
  let flows c := let t := seed_transport c.(transports) in (tcp_dag t, tls_dag t) in
  (is_Some ((seed_exchanges c.(registry)).(exchanges) !! k) ->
     (seed_exchanges c'.(registry)).(exchanges) !! k = (seed_exchanges c.(registry)).(exchanges) !! k)
  /\ (k = DEFAULT_UPSTREAM_EXCHANGE_HANDLE -> flows c' = flows c)
  /\ TcpFlow.downstream (flows c').1 = TcpFlow.downstream (flows c).1
  /\ TlsFlow.downstream (flows c').2 = TlsFlow.downstream (flows c).2
  /\ tcp_streams (transports c') = tcp_streams (transports c)
  /\ (head_method (request_head c'), head_path (request_head c'), head_query (request_head c'))
     = (head_method (request_head c), head_path (request_head c), head_query (request_head c)).
Proof.
  intros Hh Hops c c' flows. assert (Hc : ok c) by by apply run_ok, initial_exchanges_ok.
  unfold c'. clearbody c. clear c' Hh h t b ops. revert c Hc.
  induction Hops as [|o ops Ho _ IH]; intros c Hc; [done|]. cbn [run foldl].
  pose proof (call_safe o c Hc I) as Hs. destruct (call o c) as [r c1]. destruct Hs as (Hc1 & [O1 O2 (O3 & O4 & O5) (O6 & O7 & O8)] & _).
  destruct (IH c1 Hc1) as (I1 & I2 & I3 & I4 & I5 & I6). fold (run ops c1). cbn [snd]. unfold run in *.
  split_and!.
  - intros Hk. assert (Hk' : Some k ≠ subject o) by congruence. rewrite I1; rewrite (O1 k Hk' Hk); done.
  - intros ->. rewrite (I2 eq_refl). unfold flows. destruct (O2 Ho) as [-> ->]. done.
  - rewrite I3. exact O3.
  - rewrite I4. exact O4.
  - by rewrite I5, O5.
  - rewrite I6. by rewrite O6, O7, O8.
Qed.

End exchange.

(** ** Examples *)

(** A crate that knows one authority, and one whose queries are numbers in
    unary. *)
#[export] Instance one_authority : AuthorityCrate := {
  Authority := Z;
  parse_authority := HttpVersion.demo_parse;
  authority_str := fun _ => "e:1";
  authority_host := fun _ => "e";
  port_u16 := Some;
}.
#[export] Instance one_authority_laws : @AuthorityLaws one_authority.
Proof.
  split; [exact HttpVersion.demo_parse_port|]. intros s a. cbn. unfold HttpVersion.demo_parse. by case_decide.
Qed.

#[export] Instance unary_queries : RequestCrate := {
  method_from_bytes := fun s =>
    if negb (is_empty s) && forallb (fun b => (33 <=? b) && (b <? 127)) (bytes_of_string s) then Some s else None;
  form_parse := fun q => default [] (decode_nat (length (bytes_of_string q)));
  form_serialize := fun l => string_of_bytes (replicate (encode_nat l) 97);
}.
Lemma unary_bytes n : bytes_of_string (string_of_bytes (replicate n 97)) = replicate n 97.
Proof. apply bytes_of_string_of_bytes. apply Forall_replicate. by split. Qed.
#[export] Instance unary_queries_laws : @RequestCrateLaws unary_queries.
Proof.
  split; cbn.
  - intros s m. destruct (negb _) eqn:He; [|done]. destruct (forallb _ _) eqn:Hl; [|done]. intros [= <-].
    split_and!; [done|by intros ->|]. unfold line_text. rewrite forallb_forall in Hl. apply Forall_forall.
    intros b Hb%list_elem_of_In. specialize (Hl _ Hb). unfold line_byte. lia.
  - intros l. rewrite unary_bytes. apply Forall_replicate. unfold line_byte. lia.
  - intros l. rewrite unary_bytes, length_replicate, decode_encode_nat. done.
Qed.

Abbreviation hmap := (list (string * list Z)).
Definition get_head : HttpRequestHead (M:=hmap) := MkHead "GET" "/a" "b=c" (from_raw_header_bytes [(bytes_of_string "Host", [120])]).
Definition no_transports : TransportState :=
  MkTransportState (TcpFlow.MkDag TcpFlow.default_flow TcpFlow.default_flow) (TlsFlow.MkDag TlsFlow.default_flow TlsFlow.default_flow)
    None false ∅ ∅.
Abbreviation demo ops := (run (B:=unit) ops (initial get_head no_transports false)).

Lemma get_head_ok : head_ok get_head.
Proof. split_and!; by apply line_check. Qed.

Lemma exchanges_well_formed_witness :
  let ops := [NewExchange; SetTarget 2 "e" 1; SetScheme 2 "https"; SetPath 1 "/b"; SetBody 2 [1]] in
  let g := seed_exchanges (demo ops).(registry) in
  option_map (fun e => (request e).(target)) (exchanges g !! 2) = Some (Some "https://e:1")
  /\ is_Some (exchanges g !! 1) /\ (call (NewExchange (M:=hmap)) (demo ops)).1 = Ok (NewHandle 3) /\ exchanges g !! 3 = None.
Proof.
  intros ops g. destruct (exchanges_well_formed (B:=unit) ops get_head no_transports false get_head_ok) as (_ & H1 & H2 & _).
  split; [by vm_compute|]. split; [exact H1|]. assert (Hn : (call (NewExchange (M:=hmap)) (demo ops)).1 = Ok (NewHandle 3)) by (by vm_compute).
  split; [exact Hn|exact (H2 3 Hn)].
Defined.

Lemma exchanges_isolated_witness :
  let ops := [NewExchange; SetPath 2 "/x"] in
  (seed_exchanges (run [SetPath 1 "/b"; NewExchange; SetBody 3 [1]] (demo ops)).(registry)).(exchanges) !! 2
  = (seed_exchanges (demo ops).(registry)).(exchanges) !! 2
  /\ is_Some ((seed_exchanges (demo ops).(registry)).(exchanges) !! 2).
Proof.
  intros ops.
  assert (Hs : is_Some ((seed_exchanges (demo ops).(registry)).(exchanges) !! 2)) by (vm_compute; by eexists).
  split; [|exact Hs].
  refine (proj1 (exchanges_isolated (B:=unit) ops get_head no_transports false [SetPath 1 "/b"; NewExchange; SetBody 3 [1]] 2 get_head_ok _) Hs).
  repeat (apply Forall_cons; split; [done|]). by apply Forall_nil.
Defined.

(** *** What the code does not expect *)

(** A batch that does not parse leaves a half-prepared exchange: the target is
    set, and the connection state has not heard of it. *)
Lemma prepare_half_done :
  let c := demo [PrepareDefaultUpstream "e" 1 "auto" (Err (HostError "header batch map keys must be strings"))] in
  (call (B:=unit) (PrepareDefaultUpstream (M:=hmap) "e" 1 "auto" (Err (HostError "x"))) (demo [])).1 = Err (Fail (HostError "x"))
  /\ option_map (fun e => (request e).(target)) (exchanges (seed_exchanges c.(registry)) !! 1) = Some (Some "http://e:1")
  /\ TcpFlow.phase (TcpFlow.default_upstream (tcp_dag (transports c))) = TcpFlow.Inactive.
Proof. by vm_compute. Qed.

(** Once an exchange has been sent, appending to its body is refused, and
    replacing it, or changing its headers, is accepted and changes nothing that
    is sent. *)
Lemma set_after_start :
  let started := MkExchange (B:=unit) new (Ready (MkSnapshot 200 [] "1.1" CarrierHttp1 (Http1DynamicExchange 2) tt))
    default_transport WebSocketState.default_state 0 in
  let c := demo [NewExchange] in
  let c := c <| registry := c.(registry) <| exchanges := <[2 := started]> c.(registry).(exchanges) |> |> in
  (call (AppendBody (M:=hmap) 2 [1]) c).1 = Err (read_only 2)
  /\ (call (SetBody (M:=hmap) 2 [1]) c).1 = Ok Done /\ (call (SetHeader (M:=hmap) 2 "a" "b") c).1 = Ok Done.
Proof. by vm_compute. Qed.
End HttpExchange.
