(* ===== verification/UpstreamRequest.v ===== *)
(** Model of the request that goes to an upstream ([state/upstream.rs] under
    [src/abi_impl/http/]): the snapshot of an exchange's request, the headers
    that are passed on, the body that is sent, and the request as it is
    serialized for HTTP/1. *)

From S2P Require Import Prelude Bytes TransportState TlsFlow HttpVersions Http1Text Http1Io HttpHeaders Http1ResponseWriter Http1Upstream BodyStream WebSocketState HttpExchange.

Module UpstreamRequest.
Import HttpHeaders Http1Text(U64_LIMIT) Http1Io(chunked_wire).
Import Http1ResponseWriter(merge_http_headers, is_hop_by_hop_header, lower_name).
Import Http1Upstream(OutboundHttp1RequestHeaders, Parsed, InheritedFiltered, InheritedFilteredWithOverrides,
  OutboundHttp1RequestBody, SerializedOutboundHttp1Request, MkSerialized, entry, entries_of, is_named, request_lines,
  serialize_request_head_parts_into, body_content_length, stream_data, Sink, SinkLaws, written, send_request_body).
Import HttpVersion(HttpVersionPreference, HttpUpstreamScheme).
Import HttpExchange.
Import BodyStream(InboundRequestBodyState, MkInbound, source, stream, whole, rest, inbound_read, ReadAll, ReadNextChunk,
  GotBytes, is_drained, is_pristine_unread, DownstreamTransport, mark_downstream_transport_closed,
  mark_downstream_transport_failed, read_spec).

#[local] Existing Instances BodyStream.inbound_source BodyStream.inbound_source_laws.

(** ** The head *)

Section request.
Context {M : Type} `{HM : HeaderMap M} `{HMM : !HeaderMapMut M} `{HC : HttpCrate} `{AC : AuthorityCrate}.

Inductive UpstreamResponseStartError :=
| UnknownExchangeHandle (handle : Z)
| MissingTarget
| MissingClient
| Protocol (message : string)
| ResolveOutboundBody (message : string)
| UpstreamRequestFailed (message : string).

Definition as_vm_error (e : UpstreamResponseStartError) : VmError :=
  match e with
  | UnknownExchangeHandle handle => HostError ("unknown outbound exchange handle " +:+ Bytes.dec handle)
  | MissingTarget => HostError "upstream target is unavailable before configuring the default upstream exchange target"
  | MissingClient => HostError "upstream client is unavailable outside the HTTP data plane"
  | Protocol message | ResolveOutboundBody message | UpstreamRequestFailed message => HostError message
  end.

Inductive DefaultUpstreamRequestHead :=
| Inherit
| InheritOverrides (header_overrides : M)
| ExplicitHead (method path query : string) (headers : M).

Record DefaultUpstreamRequestSnapshot := MkRequestSnapshot {
  snapshot_version_preference : HttpVersionPreference;
  snapshot_target : option string;
  snapshot_target_host_arc : option string;
  snapshot_target_port : option Z;
  snapshot_target_authority : option string;
  snapshot_target_plain_http1_pool_key : option string;
  snapshot_target_scheme : HttpUpstreamScheme;
  head : DefaultUpstreamRequestHead;
}.

Definition from_request (r : HttpOutboundRequestNode (M:=M)) : DefaultUpstreamRequestSnapshot :=
  MkRequestSnapshot r.(version_preference) r.(target)
    (match r.(target_host_arc) with Some h => Some h | None => r.(target_host) end) r.(target_port)
    r.(target_authority) r.(target_plain_http1_pool_key) r.(target_scheme)
    (if r.(inherits_request_head) then
       if bool_decide (hm_iter r.(inherited_header_overrides) = []) then Inherit
       else InheritOverrides r.(inherited_header_overrides)
     else ExplicitHead r.(method) r.(path) r.(query) r.(headers)).

Definition method_or_request_head (s : DefaultUpstreamRequestSnapshot) (h : HttpRequestHead (M:=M)) : string :=
  match s.(head) with Inherit | InheritOverrides _ => h.(head_method) | ExplicitHead m _ _ _ => m end.
Definition path_or_request_head (s : DefaultUpstreamRequestSnapshot) (h : HttpRequestHead (M:=M)) : string :=
  match s.(head) with Inherit | InheritOverrides _ => h.(head_path) | ExplicitHead _ p _ _ => p end.
Definition query_or_request_head (s : DefaultUpstreamRequestSnapshot) (h : HttpRequestHead (M:=M)) : string :=
  match s.(head) with Inherit | InheritOverrides _ => h.(head_query) | ExplicitHead _ _ q _ => q end.

(** The header map of the head, parsed if it was not. *)
Definition parsed_headers (h : HttpRequestHead (M:=M)) : M := (HttpHeaders.headers h.(head_headers)).1.

Definition cloned_headers_or_request_head (s : DefaultUpstreamRequestSnapshot) (h : HttpRequestHead (M:=M)) : M :=
  match s.(head) with
  | Inherit => parsed_headers h
  | InheritOverrides o => merge_http_headers (parsed_headers h) o
  | ExplicitHead _ _ _ m => m
  end.

Definition passed_on (name : string) : bool :=
  negb (bool_decide (name = "host")) && negb (bool_decide (name = "content-length")) && negb (is_hop_by_hop_header name).

Definition filtered_upstream_headers (m : M) (host_header : option string) : M :=
  let filtered := foldl (fun f e => if passed_on e.1 then hm_insert e.1 e.2 f else f) hm_new (hm_iter m) in
  match host_header ≫= header_value_str with
  | Some v => hm_insert "host" v filtered
  | None => filtered
  end.

Definition filtered_headers_or_request_head (s : DefaultUpstreamRequestSnapshot) (h : HttpRequestHead (M:=M))
    (host_header : option string) : M :=
  match s.(head) with
  | Inherit => filtered_upstream_headers (parsed_headers h) host_header
  | InheritOverrides o => merge_http_headers (filtered_upstream_headers (parsed_headers h) host_header) o
  | ExplicitHead _ _ _ m => filtered_upstream_headers m host_header
  end.

Definition outbound_http1_headers_or_request_head (s : DefaultUpstreamRequestSnapshot) (h : HttpRequestHead (M:=M))
    (host_header : option string) : OutboundHttp1RequestHeaders M :=
  match s.(head) with
  | Inherit => InheritedFiltered h.(head_headers) host_header
  | InheritOverrides o => InheritedFilteredWithOverrides h.(head_headers) host_header o
  | ExplicitHead _ _ _ _ => Parsed (filtered_headers_or_request_head s h host_header)
  end.

Definition build_configured_upstream_url (upstream : string) (inherits_request_path : bool) (host_header : option string)
    (request_path request_query : string) : string * option string :=
  if negb inherits_request_path then (upstream, host_header)
  else
    let path := if is_empty request_path then "/" else request_path in
    let path_and_query := if is_empty request_query then path else path +:+ "?" +:+ request_query in
    (upstream +:+ path_and_query, host_header).

(** ** What is prepared to be sent *)

Record PreparedUpstreamRequest := MkPrepared {
  prepared_version_preference : HttpVersionPreference;
  http2_mode : HttpVersion.Http2UpstreamMode;
  http3_mode : HttpVersion.Http3UpstreamMode;
  prepared_tls_flow : TlsFlow.TlsFlowState;
  prepared_attached_transport : option AttachedHttpTransport;
  prepared_method : string;
  prepared_path : string;
  prepared_query : string;
  prepared_headers : M;
  prepared_target : string;
  prepared_target_host : option string;
  prepared_target_port : option Z;
  prepared_target_host_header : option string;
  prepared_target_authority : option string;
  prepared_target_plain_http1_pool_key : option string;
  prepared_target_inherits_request_path : bool;
  prepared_target_scheme : HttpUpstreamScheme;
}.

Context {B : Type}.

(** The TLS flow of an exchange: the attached session's, or its own. *)
Definition exchange_tls_flow (t : TransportState) (own : TlsFlow.TlsFlowState) (attached : option AttachedHttpTransport)
    : TlsFlow.TlsFlowState :=
  match attached with
  | Some (AttachedTls session) => default TlsFlow.for_dynamic_socket (t.(dynamic_tls_sessions) !! session)
  | _ => own
  end.

(** The end that [prepared_upstream_request] and
    [prepared_outbound_exchange_request] share; [http2] and [http3] are the
    features that are built. *)
Definition prepare (http2 http3 : bool) (h : HttpRequestHead (M:=M)) (r : DefaultUpstreamRequestSnapshot)
    (attached : option AttachedHttpTransport) (flow : TlsFlow.TlsFlowState)
    : result UpstreamResponseStartError PreparedUpstreamRequest :=
  match r.(snapshot_target) with
  | None => Err MissingTarget
  | Some t =>
      Ok (MkPrepared r.(snapshot_version_preference)
        (HttpVersion.select_http2_mode http2 r.(snapshot_target_scheme) flow r.(snapshot_version_preference))
        (HttpVersion.select_http3_mode http3 r.(snapshot_target_scheme) flow r.(snapshot_version_preference))
        flow attached (method_or_request_head r h) (path_or_request_head r h) (query_or_request_head r h)
        (cloned_headers_or_request_head r h) t r.(snapshot_target_host_arc) r.(snapshot_target_port)
        r.(snapshot_target_authority) r.(snapshot_target_authority) r.(snapshot_target_plain_http1_pool_key) true
        r.(snapshot_target_scheme))
  end.

Definition snapshot_default_upstream_request (e : HttpOutboundExchangeState (M:=M) (B:=B))
    : result UpstreamResponseStartError (DefaultUpstreamRequestSnapshot * option AttachedHttpTransport) :=
  if WebSocketState.is_websocket_mode e.(websocket_dag)
  then Err (Protocol "default upstream exchange is already owned by the websocket DAG")
  else Ok (from_request e.(request), e.(transport).(attached_transport)).

Definition prepared_upstream_request (http2 http3 : bool) (h : HttpRequestHead (M:=M)) (t : TransportState)
    (e : HttpOutboundExchangeState (M:=M) (B:=B)) : result UpstreamResponseStartError PreparedUpstreamRequest :=
  '(r, attached) ← snapshot_default_upstream_request e;
  prepare http2 http3 h r attached (exchange_tls_flow t (TlsFlow.default_upstream t.(tls_dag)) attached).

(** Of the handle's exchange, when there is one. *)
Definition prepared_outbound_exchange_request (http2 http3 : bool) (h : HttpRequestHead (M:=M)) (t : TransportState)
    (handle : Z) (e : option (HttpOutboundExchangeState (M:=M) (B:=B)))
    : result UpstreamResponseStartError PreparedUpstreamRequest :=
  e ← ok_or (UnknownExchangeHandle handle) e;
  if handle =? DEFAULT_UPSTREAM_EXCHANGE_HANDLE then prepared_upstream_request http2 http3 h t e
  else if WebSocketState.is_websocket_mode e.(websocket_dag)
  then Err (Protocol ("outbound exchange handle " +:+ Bytes.dec handle +:+ " is already owned by the websocket DAG"))
  else
    let attached := e.(transport).(attached_transport) in
    prepare http2 http3 h (from_request e.(request)) attached (exchange_tls_flow t e.(transport).(tls_flow) attached).

(** ** The body *)

Inductive NativeDefaultUpstreamRequestBodyMode :=
| ModeEmpty
| BufferedImmediate
| StreamInbound
| BufferRemaining.

Inductive NativeDefaultUpstreamRequestBodyTemplate :=
| TemplateEmpty
| TemplateBytes (body : list Z)
| TemplateStreaming (content_length : option Z).

Abbreviation inbound := (InboundRequestBodyState M).
Abbreviation node := (HttpOutboundRequestNode (M:=M)).

Definition request_headers_indicate_empty_body_lazy (l : LazyHttpHeaders M) : bool :=
  bool_decide (content_length l = Some 0)
  || negb (contains_name l "content-length") && negb (contains_name l "transfer-encoding").

Definition request_body_known_empty_for_exchange (h : HttpRequestHead (M:=M)) (r : node) : bool :=
  match r.(body_override) with
  | Some b => bool_decide (b = [])
  | None => request_headers_indicate_empty_body_lazy h.(head_headers)
  end.

(** [inbound.read_all()] *)
Definition read_all (b : inbound) : option (vm_result (list Z) * inbound) :=
  '(r, b) ← inbound_read ReadAll b;
  Some (match r with Ok (GotBytes l) => Ok l | Ok (BodyStream.GotEof _) => Ok [] | Err e => Err e end, b).

Definition resolve_outbound_request_body (h : HttpRequestHead (M:=M)) (r : node) (b : inbound)
    : option (vm_result (list Z) * inbound) :=
  match r.(body_override) with
  | Some body => Some (Ok body, b)
  | None => if request_body_known_empty_for_exchange h r then Some (Ok [], b) else read_all b
  end.

Definition native_default_upstream_request_body_mode (h : HttpRequestHead (M:=M)) (r : node) (b : inbound)
    : NativeDefaultUpstreamRequestBodyMode :=
  match r.(body_override) with
  | Some body => if bool_decide (body = []) then ModeEmpty else BufferedImmediate
  | None =>
      if request_body_known_empty_for_exchange h r then ModeEmpty
      else if is_pristine_unread b then StreamInbound else BufferRemaining
  end.

(** [Display] of a [VmError]. *)
Context (vm_error_display : VmError -> string).

Definition nonempty_template (body : list Z) : NativeDefaultUpstreamRequestBodyTemplate :=
  if bool_decide (body = []) then TemplateEmpty else TemplateBytes body.

Definition default_upstream_outbound_http1_request_body_template (h : HttpRequestHead (M:=M)) (r : node) (b : inbound)
    : option (result UpstreamResponseStartError NativeDefaultUpstreamRequestBodyTemplate * inbound) :=
  match r.(body_override) with
  | Some body => Some (Ok (nonempty_template body), b)
  | None =>
      if request_body_known_empty_for_exchange h r then Some (Ok TemplateEmpty, b)
      else
        match native_default_upstream_request_body_mode h r b with
        | ModeEmpty => Some (Ok TemplateEmpty, b)
        | BufferedImmediate | BufferRemaining =>
            '(body, b) ← resolve_outbound_request_body h r b;
            Some (match body with
                  | Ok body => Ok (nonempty_template body)
                  | Err e => Err (ResolveOutboundBody
                      ("failed to resolve outbound exchange body: " +:+ vm_error_display e))
                  end, b)
        | StreamInbound => Some (Ok (TemplateStreaming (content_length h.(head_headers))), b)
        end
  end.

Definition OUTBOUND_HTTP1_REQUEST_BODY_STREAM_CHUNK_BYTES : Z := 16 * 1024.

(** [stream_remaining_inbound_request_body]: the items of the stream, and what
    it leaves of the body and of the downstream transport. *)
Fixpoint stream_remaining_inbound_request_body (fuel : nat) (b : inbound) (t : DownstreamTransport)
    : option (list (vm_result (list Z)) * inbound * DownstreamTransport) :=
  match fuel with
  | O => None
  | S fuel =>
      '(r, b) ← inbound_read (ReadNextChunk OUTBOUND_HTTP1_REQUEST_BODY_STREAM_CHUNK_BYTES) b;
      match r with
      | Ok (GotBytes chunk) =>
          if bool_decide (chunk = []) then Some ([], b, mark_downstream_transport_closed t)
          else
            let t := if is_drained b then mark_downstream_transport_closed t else t in
            '(items, b, t) ← stream_remaining_inbound_request_body fuel b t;
            Some (Ok chunk :: items, b, t)
      | Ok (BodyStream.GotEof _) => None
      | Err e => Some ([Err e], b, mark_downstream_transport_failed (vm_error_display e) t)
      end
  end.

(** Enough for a chunk of one byte each, and the end. *)
Definition stream_fuel (b : inbound) : nat := 2 + length (rest b.(stream) b.(source)).

(** The body of the serialized request; [items] is what the stream yields when
    it is polled. *)
Definition body_of_template (template : NativeDefaultUpstreamRequestBodyTemplate) (items : list (vm_result (list Z)))
    : OutboundHttp1RequestBody :=
  match template with
  | TemplateEmpty => Http1Upstream.Empty
  | TemplateBytes body => Http1Upstream.Bytes body
  | TemplateStreaming n => Http1Upstream.Streaming n items
  end.

Definition serialize_default_upstream_http1_request_into (s : DefaultUpstreamRequestSnapshot) (h : HttpRequestHead (M:=M))
    (authority : string) (template : NativeDefaultUpstreamRequestBodyTemplate) (items : list (vm_result (list Z)))
    : SerializedOutboundHttp1Request :=
  let m := method_or_request_head s h in
  let hs := outbound_http1_headers_or_request_head s h (Some authority) in
  let body := body_of_template template items in
  let '(encoded, use_chunked_body) :=
    serialize_request_head_parts_into m (path_or_request_head s h) (query_or_request_head s h) hs authority
      (body_content_length body) in
  MkSerialized encoded m body use_chunked_body.

(** The body of a dynamic exchange is what the program set. *)
Definition resolve_outbound_exchange_body (handle : Z) (h : HttpRequestHead (M:=M))
    (e : option (HttpOutboundExchangeState (M:=M) (B:=B))) (b : inbound) : option (outcome (list Z) * inbound) :=
  if handle =? DEFAULT_UPSTREAM_EXCHANGE_HANDLE then
    match e with
    | None => Some (Err Panic, b)
    | Some e => '(r, b) ← resolve_outbound_request_body h e.(request) b; Some (host_error r, b)
    end
  else
    match e with
    | None => Some (Err (unknown_exchange_handle handle), b)
    | Some e => Some (Ok (default [] e.(request).(body_override)), b)
    end.

(** ** The headers that are sent *)

Context `{HML : !HeaderMapLaws M} `{HMML : !HeaderMapMutLaws M} `{HCL : !HttpCrateLaws}.

(** The values of a name among header lines. *)
Definition line_values (k : string) (l : list entry) : list (list Z) := snd <$> filter (fun e => is_named k e = true) l.
Definition last_only (l : list (list Z)) : list (list Z) := option_list (last l).

Lemma last_only_id l : (length l <= 1)%nat -> last_only l = l.
Proof. destruct l as [|x [|y l]]; cbn; [done|done|lia]. Qed.

Lemma foldl_insert_values (p : string -> bool) l (m0 : M) k :
  hm_get_all (foldl (fun f e => if p e.1 then hm_insert e.1 e.2 f else f) m0 l) k
  = match last (snd <$> filter (fun e => e.1 = k) l) with
    | Some v => if p k then [v] else hm_get_all m0 k
    | None => hm_get_all m0 k
    end.
Proof.
  revert m0. induction l as [|[n v] l IH]; intros m0; [done|]. cbn [foldl fst snd]. rewrite IH, filter_cons. cbn [fst].
  destruct (decide (n = k)) as [->|Hn].
  - rewrite fmap_cons, last_cons. cbn [snd]. destruct (last _) as [x|]; destruct (p k); try done;
      by rewrite get_all_insert, bool_decide_true.
  - destruct (p n); [|done]. by rewrite get_all_insert, bool_decide_false.
Qed.

(** What is passed on of a header map: one value of a name at most, the last. *)
Lemma filtered_values (m : M) host k :
  hm_get_all (filtered_upstream_headers m host) k
  = if bool_decide (k = "host") then option_list (host ≫= header_value_str)
    else if passed_on k then last_only (hm_get_all m k) else [].
Proof.
  unfold filtered_upstream_headers.
  assert (Hf : forall k, hm_get_all (foldl (fun f e => if passed_on e.1 then hm_insert e.1 e.2 f else f) (hm_new : M) (hm_iter m)) k
    = if passed_on k then last_only (hm_get_all m k) else []).
  { intros j. rewrite foldl_insert_values, get_all_new, iter_get_all. unfold last_only. by destruct (last _), (passed_on j). }
  destruct (host ≫= header_value_str) as [v|]; [rewrite get_all_insert|]; rewrite Hf.
  - destruct (decide (k = "host")) as [->|Hk]; [by rewrite !bool_decide_true|by rewrite !bool_decide_false by congruence].
  - case_bool_decide as Hk; [by subst k|done].
Qed.

(** The names of a map are lower case, as those of the crate are. *)
Definition lower_map (m : M) : Prop := forall k, hm_get_all m k ≠ [] -> lower_name k.

Lemma has_name_values (m : M) k : Http1Upstream.has_name m k = negb (bool_decide (hm_get_all m k = [])).
Proof. exact (Http1ResponseWriter.overlay_values m k). Qed.

Lemma lower_bytes k : lower_name k -> lower <$> bytes_of_string k = bytes_of_string k.
Proof. intros Hk. by rewrite <-bytes_of_string_lower, Hk. Qed.

Lemma iter_in (m : M) e : e ∈ hm_iter m -> hm_get_all m e.1 ≠ [].
Proof.
  intros He Hn. rewrite <-iter_get_all in Hn. apply fmap_nil_inv in Hn.
  assert (e ∈ filter (fun x => x.1 = e.1) (hm_iter m)) as Hin by (by apply list_elem_of_filter). rewrite Hn in Hin. by apply elem_of_nil in Hin.
Qed.

Lemma map_lines (m : M) k : lower_name k -> lower_map m -> line_values k (entries_of (hm_iter m)) = hm_get_all m k.
Proof.
  intros Hk Hm. rewrite <-iter_get_all. unfold line_values.
  assert (Hl : forall e, e ∈ hm_iter m -> lower_name e.1) by (intros e He; by apply Hm, iter_in).
  induction (hm_iter m) as [|[n v] l IH]; [done|].
  change (entries_of ((n, v) :: l)) with ((bytes_of_string n, v) :: entries_of l). rewrite !filter_cons. cbn [fst snd].
  assert (Hn : is_named k (bytes_of_string n, v) = bool_decide (n = k)).
  { unfold is_named, bytes_eq_ignore_ascii_case. cbn [fst]. rewrite !lower_bytes by (done || apply (Hl (n, v)); by left).
    apply bool_decide_ext. split; [apply bytes_of_string_inj|by intros ->]. }
  rewrite Hn.
  assert (IH' : snd <$> filter (fun e => is_named k e = true) (entries_of l) = snd <$> filter (fun e => e.1 = k) l)
    by (apply IH; intros e He; apply Hl; by right).
  destruct (decide (n = k)) as [->|Hne].
  - rewrite bool_decide_true, !decide_True by done. cbn. by rewrite IH'.
  - rewrite bool_decide_false, !decide_False by done. exact IH'.
Qed.

(** Names that are text. *)
Definition text_names (r : list RawHttpHeader) : Prop := Forall (fun x => Forall visible_ascii (name x)) r.

Lemma raw_entries r :
  text_names r -> entries_of (for_each_header (M:=M) (MkLazy (Some r) None)) = (fun x => (name x, value x)) <$> r.
Proof.
  intros Hr. unfold entries_of, for_each_header. cbn. induction Hr as [|x r Hx Hr IH]; [done|]. cbn [omap list_omap].
  unfold from_utf8 at 1. rewrite visible_utf8, !fmap_cons by done. cbn [fst snd]. rewrite IH. f_equal. f_equal.
  apply bytes_of_string_of_bytes. eapply Forall_impl; [exact Hx|]. unfold visible_ascii, in_u8. lia.
Qed.

Lemma raw_lines r k :
  text_names r -> line_values k (entries_of (for_each_header (M:=M) (MkLazy (Some r) None))) = value <$> filter (fun x => named k x = true) r.
Proof.
  intros Hr. rewrite raw_entries by done. unfold line_values. clear Hr. induction r as [|x r IH]; [done|].
  rewrite fmap_cons, !filter_cons. change (is_named k (name x, value x)) with (named k x).
  destruct (named k x); [rewrite !decide_True by done; cbn; by f_equal|]. by rewrite !decide_False.
Qed.

Lemma named_same k k' (e : entry) : lower_name k -> lower_name k' -> is_named k e = true -> is_named k' e = true -> k = k'.
Proof.
  unfold is_named, bytes_eq_ignore_ascii_case. intros Hk Hk' H1%bool_decide_eq_true H2%bool_decide_eq_true.
  rewrite !lower_bytes in * by done. apply bytes_of_string_inj. congruence.
Qed.

Lemma passed_on_cases k :
  passed_on k = negb (bool_decide (k ∈ "host" :: "content-length" :: Http1Upstream.hop_by_hop_names)).
Proof.
  unfold passed_on, is_hop_by_hop_header. rewrite <-!negb_orb. f_equal. apply eq_true_iff_eq.
  rewrite !orb_true_iff, !bool_decide_eq_true, existsb_exists, !elem_of_cons. split.
  - intros [[->| ->]|(x & Hx & Hk)]; [by left|by right; left|]. apply bool_decide_eq_true in Hk as ->. right. right. by apply list_elem_of_In.
  - intros [->|[->|Hk]]; [by left; left|by left; right|]. right. exists k. by rewrite bool_decide_eq_true, <-list_elem_of_In.
Qed.

Lemma inherited_values l k : lower_name k -> line_values k (Http1Upstream.inherited l) = if passed_on k then line_values k l else [].
Proof.
  intros Hk. rewrite passed_on_cases. case_bool_decide as Hin; cbn [negb].
  - unfold line_values. rewrite Http1Upstream.filter_none; [done|]. intros e He. apply (Http1Upstream.inherited_not l e k He).
    apply elem_of_cons in Hin as [->|[->|Hin]%elem_of_cons]; [left; set_solver..|by right].
  - unfold line_values, Http1Upstream.inherited. rewrite list_filter_filter. f_equal. apply list_filter_iff. intros e.
    split; [by intros [? _]|]. intros Hn. split; [done|]. rewrite !elem_of_cons in Hin.
    assert (Hne : forall k', lower_name k' -> k' ≠ k -> is_named k' e = false).
    { intros k' Hk' Hd. apply not_true_iff_false. intros Hn'. apply Hd. by apply (named_same k' k e). }
    apply andb_true_iff. rewrite !negb_true_iff. split.
    + unfold Http1Upstream.special. rewrite !Hne; [done|..]; try done; intros <-; apply Hin; [do 2 right; set_solver..|by right; left|by left].
    + unfold Http1Upstream.is_hop_by_hop_header_name. apply not_true_iff_false. intros (k' & Hk' & Hn')%existsb_exists.
      apply list_elem_of_In in Hk'. apply Hin. right. right. replace k with k'; [done|]. apply (named_same k' k e); [|done..].
      clear -Hk'. repeat (apply elem_of_cons in Hk' as [->|Hk']; [done|]). by apply elem_of_nil in Hk'.
Qed.

Lemma line_values_app k l l' : line_values k (l ++ l') = line_values k l ++ line_values k l'.
Proof. unfold line_values. by rewrite filter_app, fmap_app. Qed.

Lemma host_line k authority : lower_name k ->
  line_values k [Http1Upstream.text "host" authority] = if bool_decide (k = "host") then [bytes_of_string authority] else [].
Proof.
  intros Hk. unfold line_values. rewrite filter_cons. case_bool_decide as Hh; [subst k; by rewrite decide_True|].
  rewrite decide_False; [done|]. intros Hn. apply Hh. by apply (named_same k "host" (Http1Upstream.text "host" authority)).
Qed.

(** The lines after the headers: how the body is framed, and the connection. *)
Definition last_lines (length : option Z) : list entry :=
  [match length with
   | Some n => Http1Upstream.text "content-length" (dec n)
   | None => Http1Upstream.text "transfer-encoding" "chunked"
   end; Http1Upstream.text "connection" "keep-alive"].

(** Headers without any that say how the body is framed: [base] is their
    lines. *)
Definition plain_lines (hs : OutboundHttp1RequestHeaders M) (authority : string) (base : list entry) : Prop :=
  forall length, request_lines hs authority length = (base ++ last_lines length, bool_decide (length = None)).

Lemma plain_intro hs authority base flags :
  Http1Upstream.encode_request_headers hs authority = (base, flags) ->
  Http1Upstream.has_content_length flags = false -> Http1Upstream.has_connection flags = false ->
  Http1Upstream.has_transfer_encoding flags = false -> plain_lines hs authority base.
Proof.
  intros He H1 H2 H3 length. unfold request_lines. rewrite He. unfold Http1Upstream.framing. rewrite H1, H2, H3. by destruct length.
Qed.

(** What each name is sent with: [vals] is what the client sent, [o] what the
    program overrides. *)
Definition sent_values (vals : list (list Z)) (o : M) (authority k : string) : list (list Z) :=
  if bool_decide (k = "host") then [bytes_of_string authority]
  else if passed_on k then (if bool_decide (hm_get_all o k = []) then vals else hm_get_all o k) else [].

(** Overrides that leave the framing, the host and the hop-by-hop headers
    alone, with one value for a name. *)
Record plain_overrides (o : M) : Prop := {
  overrides_lower : lower_map o;
  overrides_passed_on k : passed_on k = false -> hm_get_all o k = [];
  overrides_single k : (length (hm_get_all o k) <= 1)%nat;
}.

Lemma inherit_lines r authority : text_names r ->
  exists base, plain_lines (InheritedFiltered (M:=M) (MkLazy (Some r) None) (Some authority)) authority base
    /\ forall k, lower_name k ->
         line_values k base = if bool_decide (k = "host") then [bytes_of_string authority]
                              else if passed_on k then value <$> filter (fun x => named k x = true) r else [].
Proof.
  intros Hr. eexists. split.
  - eapply plain_intro; [unfold Http1Upstream.encode_request_headers; reflexivity|done..].
  - intros k Hk. cbn [Http1Upstream.has_host]. rewrite orb_true_r. cbn [app]. rewrite app_nil_r, line_values_app.
    cbn [Http1Upstream.host_entry]. rewrite inherited_values, raw_lines, host_line by done.
    case_bool_decide as Hh; [by subst k|]. by rewrite app_nil_r.
Qed.

Lemma override_name (o : M) k (x : RawHttpHeader) :
  lower_name k -> Forall visible_ascii (name x) -> named k x = true ->
  contains_key o (string_of_bytes (name x)) = negb (bool_decide (hm_get_all o k = [])).
Proof.
  intros Hk Hx Hn%bool_decide_eq_true. unfold contains_key, get_all. do 2 f_equal.
  replace (to_ascii_lowercase (string_of_bytes (name x))) with k; [done|]. apply bytes_of_string_inj.
  rewrite bytes_of_string_lower, bytes_of_string_of_bytes, Hn, lower_bytes; [done|done|].
  eapply Forall_impl; [exact Hx|]. unfold visible_ascii, in_u8. lia.
Qed.

Lemma not_overridden (o : M) r k :
  lower_name k -> text_names r ->
  line_values k (filter (fun e => negb (contains_key o (string_of_bytes e.1)) = true) ((fun x => (name x, value x)) <$> r))
  = if bool_decide (hm_get_all o k = []) then value <$> filter (fun x => named k x = true) r else [].
Proof.
  intros Hk Hr. unfold line_values. induction Hr as [|x r Hx Hr IH]; [by destruct (bool_decide _)|].
  rewrite fmap_cons, (filter_cons _ x). destruct (named k x) eqn:Hn.
  - rewrite (decide_True (P:=true = true)) by done. rewrite filter_cons. cbn [fst].
    rewrite (override_name o k x) by done. destruct (bool_decide (hm_get_all o k = [])); cbn [negb].
    + rewrite decide_True by done. rewrite filter_cons. change (is_named k (name x, value x)) with (named k x).
      rewrite decide_True by done. cbn. by f_equal.
    + by rewrite decide_False.
  - rewrite (decide_False (P:=false = true)) by done. rewrite filter_cons. case_decide; [|exact IH].
    rewrite filter_cons. change (is_named k (name x, value x)) with (named k x). by rewrite decide_False by congruence.
Qed.

Lemma overrides_lines r (o : M) authority : text_names r -> plain_overrides o ->
  exists base, plain_lines (InheritedFilteredWithOverrides (MkLazy (Some r) None) (Some authority) o) authority base
    /\ forall k, lower_name k -> line_values k base = sent_values (value <$> filter (fun x => named k x = true) r) o authority k.
Proof.
  intros Hr [Hl Hp Hs].
  assert (Hnone : forall k, passed_on k = false -> Http1Upstream.has_name o k = false)
    by (intros k Hk; rewrite has_name_values, Hp by done; done).
  eexists. split.
  - eapply plain_intro; [unfold Http1Upstream.encode_request_headers; reflexivity|..]; by apply Hnone.
  - intros k Hk. rewrite (Hnone "host" eq_refl). cbn [orb Http1Upstream.has_host is_Some bool_decide].
    rewrite bool_decide_true by (by eexists). rewrite orb_true_r, app_nil_r, !line_values_app, map_lines by done.
    unfold Http1Upstream.inherited, sent_values. rewrite list_filter_filter.
    rewrite (list_filter_iff _ (fun e => (negb (Http1Upstream.special e) && negb (Http1Upstream.is_hop_by_hop_header_name e.1) = true)
      /\ negb (contains_key o (string_of_bytes e.1)) = true)) by (intros; tauto).
    rewrite <-list_filter_filter. fold (Http1Upstream.inherited (filter (fun e => negb (contains_key o (string_of_bytes e.1)) = true)
      (entries_of (for_each_header (M:=M) (MkLazy (Some r) None))))).
    rewrite inherited_values, raw_entries, not_overridden by done. cbn [Http1Upstream.host_entry]. rewrite host_line by done.
    destruct (decide (k = "host")) as [->|Hh]; [by rewrite Hp by done|]. rewrite !(bool_decide_false (k = "host")) by done.
    rewrite app_nil_r. destruct (passed_on k) eqn:Hpk; [|by rewrite Hp].
    case_bool_decide as Ho; [by rewrite Ho, app_nil_r|done].
Qed.

(** *** The same, after the head was made explicit *)

Lemma lower_name_of_crate b n : header_name b = Ok n -> lower_name n.
Proof.
  intros Hn%header_name_lower. apply bytes_of_string_inj. rewrite bytes_of_string_lower, Hn, <-list_fmap_compose.
  apply list_fmap_ext. intros _ x _. unfold compose, lower. repeat case_match; lia.
Qed.

Lemma parsed_lower r (m : M) : lower_map m -> lower_map (foldl append_raw m r).
Proof.
  revert m. induction r as [|x r IH]; intros m Hm; [done|]. cbn [foldl]. apply IH. unfold append_raw.
  destruct (header_name (name x)) as [n|] eqn:Hn; [|done]. destruct (header_value (value x)) as [v|]; [|done].
  intros k. rewrite get_all_append. case_bool_decide as Hk; [subst k; intros _; by eapply lower_name_of_crate|].
  rewrite app_nil_r. apply Hm.
Qed.

Lemma new_lower : lower_map (hm_new : M).
Proof. intros k. by rewrite get_all_new. Qed.

Lemma merge_lower (m o : M) : lower_map m -> lower_map o -> lower_map (merge_http_headers m o).
Proof.
  intros Hm Ho k. rewrite Http1ResponseWriter.merge_last. destruct (last _) as [v|] eqn:Hl; [|apply Hm].
  intros _. apply Ho. intros Hn. by rewrite Hn in Hl.
Qed.

Lemma filtered_lower (m : M) host : lower_map m -> lower_map (filtered_upstream_headers m host).
Proof.
  intros Hm k. rewrite filtered_values. case_bool_decide; [by subst k|]. destruct (passed_on k); [|done].
  intros Hk. apply Hm. intros Hn. by rewrite Hn in Hk.
Qed.

Lemma explicit_lines r (o : M) authority v :
  text_names r -> well_formed r -> lower_map o -> header_value_str authority = Some v ->
  exists base,
    plain_lines (Parsed (filtered_upstream_headers (merge_http_headers (foldl append_raw hm_new r) o) (Some authority))) authority base
    /\ forall k, lower_name k ->
         line_values k base = if bool_decide (k = "host") then [bytes_of_string authority]
           else if passed_on k then match last (hm_get_all o k) with
                                    | Some v => [v]
                                    | None => last_only (value <$> filter (fun x => named k x = true) r) end
           else [].
Proof.
  intros Hr Hw Ho Hv. set (m := filtered_upstream_headers _ _).
  assert (Hm : forall k, hm_get_all m k = if bool_decide (k = "host") then [v]
      else if passed_on k then last_only (hm_get_all (merge_http_headers (foldl append_raw hm_new r) o) k) else []).
  { intros k. unfold m. rewrite filtered_values. cbn [mbind option_bind]. by rewrite Hv. }
  assert (Hnone : forall k, k ≠ "host" -> passed_on k = false -> Http1Upstream.has_name m k = false).
  { intros k Hk Hp. by rewrite has_name_values, Hm, (bool_decide_false (k = "host")), Hp by done. }
  assert (Hlow : lower_map m) by (apply filtered_lower, merge_lower, Ho; apply parsed_lower, new_lower).
  assert (Hhost : Http1Upstream.has_name m "host" = true) by (by rewrite has_name_values, Hm).
  eexists. split.
  - eapply plain_intro; [unfold Http1Upstream.encode_request_headers; reflexivity|..]; by apply Hnone.
  - intros k Hk. cbn [Http1Upstream.has_host]. rewrite Hhost, app_nil_r, map_lines, Hm by done.
    case_bool_decide as Hh; [by rewrite (header_value_str_same _ _ Hv)|]. destruct (passed_on k); [|done].
    rewrite Http1ResponseWriter.merge_last. destruct (last (hm_get_all o k)); [done|]. f_equal.
    pose proof (get_all_parse r (hm_new : M) k Hw) as Hg. unfold get_all in Hg. by rewrite Hk, get_all_new in Hg.
Qed.

(** C26. Any call that changes the default exchange first turns the inherited head
    into an explicit one.  That alone changes nothing that is sent: for a
    client's head without repeated headers and overrides that leave the framing
    alone, method, path and query are the same, the body is framed the same
    way, and every header name is sent with the same values. *)
Theorem inheritance_transparent h r raw authority v length :
  head_headers h = MkLazy (Some raw) None -> well_formed raw -> text_names raw ->
  (forall k, lower_name k -> (List.length (filter (fun x => named k x = true) raw) <= 1)%nat) ->
  inherits_request_head r = true -> plain_overrides (inherited_header_overrides r) -> header_value_str authority = Some v ->
  let x := materialize_inherited_request_head h r in
  let s := from_request r in
  let s' := from_request x.2 in
  let sent s h := request_lines (outbound_http1_headers_or_request_head s h (Some authority)) authority length in
  (method_or_request_head s' x.1, path_or_request_head s' x.1, query_or_request_head s' x.1)
  = (method_or_request_head s h, path_or_request_head s h, query_or_request_head s h)
  /\ (sent s' x.1).2 = (sent s h).2
  /\ forall k, lower_name k -> line_values k (sent s' x.1).1 = line_values k (sent s h).1.
Proof.
  intros Hh Hw Ht Hone Hi Ho Hv x s s' sent. set (o := inherited_header_overrides r) in *.
  assert (Hsingle : forall k, lower_name k -> last_only (value <$> filter (fun x => named k x = true) raw) = value <$> filter (fun x => named k x = true) raw)
    by (intros k Hk; apply last_only_id; rewrite length_fmap; by apply Hone).
  destruct (explicit_lines raw o authority v Ht Hw (overrides_lower _ Ho) Hv) as (base' & Hb' & Hl').
  assert (Hsent' : sent s' x.1 = (base' ++ last_lines length, bool_decide (length = None))).
  { unfold sent, s', x, materialize_inherited_request_head. rewrite Hi, Hh. cbn. apply Hb'. }
  assert (exists base, sent s h = (base ++ last_lines length, bool_decide (length = None))
    /\ forall k, lower_name k -> line_values k base = sent_values (value <$> filter (fun x => named k x = true) raw) o authority k)
    as (base & Hsent & Hl).
  { unfold sent, s, from_request, outbound_http1_headers_or_request_head. rewrite Hi, Hh. fold o. cbn [head].
    destruct (decide (hm_iter o = [])) as [Hn|Hn]; [rewrite (bool_decide_true (hm_iter o = [])) by done
      |rewrite (bool_decide_false (hm_iter o = [])) by done].
    - destruct (inherit_lines raw authority Ht) as (base & Hb & Hl). exists base. split; [apply Hb|]. intros k Hk.
      rewrite (Hl k Hk). unfold sent_values. by rewrite <-(iter_get_all o k), Hn.
    - destruct (overrides_lines raw o authority Ht Ho) as (base & Hb & Hl). exists base. by split; [apply Hb|]. }
  rewrite Hsent, Hsent'. split_and!.
  - unfold s, s', x, materialize_inherited_request_head, from_request, method_or_request_head, path_or_request_head, query_or_request_head.
    rewrite Hi, Hh. cbn. by destruct (bool_decide (hm_iter (inherited_header_overrides r) = [])).
  - done.
  - intros k Hk. cbn [fst]. rewrite !line_values_app. f_equal. rewrite (Hl k Hk), (Hl' k Hk). unfold sent_values.
    destruct (bool_decide (k = "host")); [done|]. destruct (passed_on k); [|done].
    pose proof (overrides_single _ Ho k) as Hs. destruct (hm_get_all o k) as [|y [|z l]]; cbn in *; [by apply Hsingle|done|lia].
Qed.

(** ** The body that is sent *)

Definition inbound_ok (b : inbound) : Prop := BodyStream.ok b.(stream) b.(source) /\ len (whole b.(stream) b.(source)).1 <= U64_MAX.
Definition client_body (b : inbound) : list Z * option VmError := whole b.(stream) b.(source).

Lemma inbound_read_sound op (b : inbound) : inbound_ok b -> BodyStream.op_ok op ->
  exists r b', inbound_read op b = Some (r, b') /\ BodyStream.ok b'.(stream) b'.(source) /\
    match r with
    | Ok v => client_body b' = client_body b /\ read_spec (client_body b) op (rest b.(stream) b.(source)) v (rest b'.(stream) b'.(source))
    | Err e => (client_body b).2 = Some e
    end.
Proof.
  intros [Hok Hmax] Hop. destruct (BodyStream.read_sound op (stream b) (source b) Hok Hop Hmax) as (r & st & src & Hr & Hok' & Hs).
  exists r, (MkInbound src st). unfold inbound_read. by rewrite Hr.
Qed.

Definition chunk_item (c : vm_result (list Z)) : Prop :=
  match c with Ok l => l ≠ [] /\ len l <= OUTBOUND_HTTP1_REQUEST_BODY_STREAM_CHUNK_BYTES | Err _ => True end.

(** Streaming the body yields what is left of it, in pieces that are not
    empty, and its error if it has one. *)
Lemma stream_remaining_sound fuel (b : inbound) t :
  inbound_ok b -> (1 + List.length (rest b.(stream) b.(source)) < fuel)%nat ->
  exists items b' t', stream_remaining_inbound_request_body fuel b t = Some (items, b', t')
    /\ Forall chunk_item items
    /\ (Forall (fun c => is_Ok c = true) items /\ stream_data items = rest b.(stream) b.(source) /\ (client_body b).2 = None
        \/ exists e, Err e ∈ items /\ (client_body b).2 = Some e).
Proof.
  revert b t. induction fuel as [|fuel IH]; intros b t Hb Hf; [lia|]. cbn [stream_remaining_inbound_request_body].
  destruct (inbound_read_sound (ReadNextChunk OUTBOUND_HTTP1_REQUEST_BODY_STREAM_CHUNK_BYTES) b Hb) as (r & b1 & -> & Hok1 & Hr);
    [by cbn|]. cbn [mbind option_bind].
  destruct r as [v|e].
  2: { eexists _, _, _. split; [reflexivity|]. split; [by repeat constructor|]. right. exists e. split; [by left|done]. }
  destruct Hr as [Hw Hs]. destruct v as [chunk|?]; [|done]. cbn [read_spec] in Hs. destruct Hs as (Hrest & Hlen & Hend).
  case_bool_decide as Hc.
  - eexists _, _, _. split; [reflexivity|]. split; [constructor|]. left. subst chunk.
    destruct (Hend eq_refl) as [?|[Hn He]]; [done|]. by rewrite Hn.
  - assert (Hb1 : inbound_ok b1) by (split; [done|]; change (len (client_body b1).1 <= U64_MAX); rewrite Hw; apply Hb).
    destruct (IH b1 (if is_drained b1 then mark_downstream_transport_closed t else t) Hb1) as (items & b' & t' & Hi & Hitems & Hs).
    { rewrite Hrest, length_app in Hf. destruct chunk; [done|]. cbn in Hf. lia. }
    rewrite Hi. cbn [mbind option_bind]. eexists _, _, _. split; [reflexivity|]. split; [by constructor|].
    destruct Hs as [(Hall & Hd & He)|(e & He & He')].
    + left. split; [by constructor|]. change (stream_data (Ok chunk :: items)) with (chunk ++ stream_data items).
      rewrite Hd, Hrest, <-Hw. done.
    + right. exists e. rewrite <-Hw. split; [by right|done].
Qed.

Lemma pristine_rest (b : inbound) : is_pristine_unread b = true -> rest b.(stream) b.(source) = (client_body b).1.
Proof.
  unfold is_pristine_unread. rewrite !andb_true_iff. intros [[_ Ho] _]. unfold rest, client_body. by apply Z.eqb_eq in Ho as ->.
Qed.

Lemma read_all_client (b : inbound) : inbound_ok b ->
  exists r b', read_all b = Some (r, b') /\
    match r with Ok l => l = (client_body b).1 /\ (client_body b).2 = None | Err e => (client_body b).2 = Some e end.
Proof.
  intros Hb. unfold read_all. destruct (inbound_read_sound ReadAll b Hb I) as (r & b' & -> & _ & Hr). cbn [mbind option_bind].
  eexists _, _. split; [reflexivity|]. destruct r as [[l|?]|e]; [|by destruct Hr|done]. by destruct Hr as [_ (? & ? & _)].
Qed.

(** The framing is ours unless the program overrides it. *)
Definition framing_free (s : DefaultUpstreamRequestSnapshot) : Prop :=
  match s.(head) with InheritOverrides o => forall k, passed_on k = false -> hm_get_all o k = [] | _ => True end.

Lemma framing_free_plain s h authority : framing_free s ->
  exists base, plain_lines (outbound_http1_headers_or_request_head s h (Some authority)) authority base.
Proof.
  unfold framing_free, outbound_http1_headers_or_request_head, filtered_headers_or_request_head.
  destruct (head s) as [|o|m p q hs]; intros Hs.
  - eexists. eapply plain_intro; [unfold Http1Upstream.encode_request_headers; reflexivity|done..].
  - eexists. eapply plain_intro; [unfold Http1Upstream.encode_request_headers; reflexivity|..];
      cbn; rewrite has_name_values, Hs by done; done.
  - eexists. eapply plain_intro; [unfold Http1Upstream.encode_request_headers; reflexivity|..];
      cbn; rewrite has_name_values, filtered_values; done.
Qed.

Section wire.
Context {W : Type} `{HS : Sink W} `{HSL : !SinkLaws W}.

Lemma send_stream_no_error chunked n items (w w' : W) e :
  Err e ∈ items -> Http1Upstream.send_stream chunked n items w ≠ (Ok tt, w').
Proof.
  revert n w. induction items as [|[c|e'] items IH]; intros n w Hin; [by apply elem_of_nil in Hin| |done].
  apply elem_of_cons in Hin as [?|Hin]; [done|]. cbn [Http1Upstream.send_stream].
  assert (Hsend : forall m, Http1Upstream.send_chunk chunked c w (Http1Upstream.send_stream chunked m items) ≠ (Ok tt, w')).
  { intros m. unfold Http1Upstream.send_chunk, Http1Upstream.write_chunk_header. destruct chunked.
    - destruct (Http1Text.append_chunk_prefix [] (len c)); [|done].
      intros (w1 & _ & (w2 & _ & (w3 & _ & Hf)%Http1Upstream.write_Ok)%Http1Upstream.write_Ok)%Http1Upstream.write_Ok. by eapply IH.
    - intros (w1 & _ & Hf)%Http1Upstream.write_Ok. by eapply IH. }
  case_bool_decide; [by apply IH|]. destruct n as [n|]; [|apply Hsend]. destruct (_ <? _); [done|apply Hsend].
Qed.

(** A request sent with a template sends the template's bytes; a stream only
    if the client's body ends without an error. *)
Lemma template_sent b t s h authority template data :
  inbound_ok b -> framing_free s ->
  match template with
  | TemplateEmpty => data = [] | TemplateBytes l => data = l
  | TemplateStreaming _ => data = rest b.(stream) b.(source) end ->
  exists items b'' t', stream_remaining_inbound_request_body (stream_fuel b) b t = Some (items, b'', t') /\
    let q := serialize_default_upstream_http1_request_into s h authority template items in
    forall w w' : W, send_request_body (Http1Upstream.request_body q) (Http1Upstream.request_chunked q) w = (Ok tt, w') ->
      (match template with TemplateStreaming _ => (client_body b).2 = None | _ => True end) /\
      exists wire, written w' = written w ++ wire /\
        match body_content_length (Http1Upstream.request_body q) with
        | Some n => wire = data /\ len data = n
        | None => chunked_wire data wire
        end.
Proof.
  intros Hb Hfree Hdata.
  destruct (stream_remaining_sound (stream_fuel b) b t Hb) as (items & b'' & t' & Hstream & Hitems & Hd); [unfold stream_fuel; lia|].
  exists items, b'', t'. split; [done|]. intros q w w'.
  assert (Hq : Http1Upstream.request_body q = body_of_template template items
    /\ Http1Upstream.request_chunked q = bool_decide (body_content_length (body_of_template template items) = None)).
  { destruct (framing_free_plain s h authority Hfree) as [base Hbase].
    unfold q, serialize_default_upstream_http1_request_into, serialize_request_head_parts_into. by rewrite Hbase. }
  destruct Hq as [-> ->]. intros Hsend.
  assert (Hclean : match template with TemplateStreaming _ => data = stream_data items /\ (client_body b).2 = None | _ => True end).
  { destruct template as [|l|n]; [done|done|]. destruct Hd as [(_ & -> & ?)|(e & He & _)]; [by split|].
    exfalso. eapply send_stream_no_error; [exact He|exact Hsend]. }
  apply Http1Upstream.send_body_sound with (n := body_content_length (body_of_template template items)) in Hsend; [|done|done|].
  - destruct template as [|l|n]; cbn in *; [by rewrite Hdata|by rewrite Hdata|]. destruct Hclean as [-> ?]. by split.
  - destruct template as [|l|n]; [done|done|]. eapply Forall_impl; [exact Hitems|]. intros [l|]; [|done]. intros [_ Hl].
    unfold OUTBOUND_HTTP1_REQUEST_BODY_STREAM_CHUNK_BYTES, U64_LIMIT in *. lia.
Qed.

End wire.

End request.

(** ** Examples *)

Abbreviation hmap := (list (string * list Z)).
Definition raw_line (n v : string) : RawHttpHeader := MkRaw (bytes_of_string n) (bytes_of_string v).
Definition demo_raw : list RawHttpHeader := [raw_line "Host" "x"; raw_line "Accept" "y"; raw_line "Connection" "close"].
Definition demo_head (raw : list RawHttpHeader) : HttpRequestHead (M:=hmap) := MkHead "POST" "/a" "" (MkLazy (Some raw) None).
Definition inheriting (o : hmap) : HttpOutboundRequestNode (M:=hmap) := default_upstream <| inherited_header_overrides := o |>.

(** What is sent of a name, inherited and after the head was made explicit. *)
Definition sent_inherited (raw : list RawHttpHeader) (o : hmap) (k : string) : list (list Z) :=
  line_values k (request_lines
    (outbound_http1_headers_or_request_head (from_request (inheriting o)) (demo_head raw) (Some "e:1")) "e:1" (Some 0)).1.
Definition sent_explicit (raw : list RawHttpHeader) (o : hmap) (k : string) : list (list Z) :=
  let x := materialize_inherited_request_head (demo_head raw) (inheriting o) in
  line_values k (request_lines
    (outbound_http1_headers_or_request_head (from_request x.2) x.1 (Some "e:1")) "e:1" (Some 0)).1.

Lemma demo_raw_fine : well_formed demo_raw /\ text_names demo_raw.
Proof.
  unfold well_formed, text_names, demo_raw. split.
  - repeat (apply Forall_cons; split; [split_and!; [done|done|visible]|]). by apply Forall_nil.
  - repeat (apply Forall_cons; split; [visible|]). by apply Forall_nil.
Qed.

Lemma demo_single k : lower_name k -> (length (filter (fun x => named k x = true) demo_raw) <= 1)%nat.
Proof.
  intros Hk. unfold demo_raw. rewrite !filter_cons, filter_nil.
  assert (Hn : forall n v, named k (raw_line n v) = true -> k = to_ascii_lowercase n).
  { intros n v Hn%bool_decide_eq_true. cbn [name raw_line] in Hn. apply bytes_of_string_inj.
    by rewrite bytes_of_string_lower, Hn, lower_bytes. }
  repeat case_decide; cbn; try lia; repeat match goal with H : named k _ = true |- _ => apply Hn in H end; by subst k.
Qed.

Lemma inheritance_transparent_witness :
  let o := [("x-a", [49])] in
  (forall k, lower_name k -> sent_explicit demo_raw o k = sent_inherited demo_raw o k)
  /\ sent_explicit demo_raw o "accept" = [[121]] /\ sent_explicit demo_raw o "x-a" = [[49]].
Proof.
  intros o. split; [|by vm_compute].
  assert (Ho : plain_overrides (M:=hmap) o).
  { split; intros k; change (hm_get_all o k) with (snd <$> filter (fun e => e.1 = k) [("x-a", [49])]);
      rewrite filter_cons, filter_nil; case_decide as Hk; cbn in *; subst; try done; lia. }
  exact (proj2 (proj2 (inheritance_transparent (demo_head demo_raw) (inheriting o) demo_raw "e:1" (bytes_of_string "e:1") (Some 0)
    eq_refl (proj1 demo_raw_fine) (proj2 demo_raw_fine) demo_single eq_refl Ho eq_refl))).
Defined.

(** A client's body of two frames, of which the program has read a line. *)
Definition half_read : InboundRequestBodyState hmap :=
  MkInbound (Some [Ok (BodyStream.FrameData [33])]) (BodyStream.MkStream [104; 105; 10; 63] 3 false).
Definition length_head : HttpRequestHead (M:=hmap) := demo_head [raw_line "Content-Length" "5"].
Definition some_transport : DownstreamTransport := BodyStream.MkTransport false false TcpFlow.downstream_ready TlsFlow.default_flow.
Definition display (e : VmError) : string := match e with HostError m | TypeMismatch m => m end.


(** *** What the code does not expect *)

(** Of repeated headers of a client one is sent, once any call has made the head
    explicit. *)
Lemma repeated_header_lost :
  let raw := [raw_line "Cookie" "a"; raw_line "Cookie" "b"] in
  sent_inherited raw [] "cookie" = [[97]; [98]] /\ sent_explicit raw [] "cookie" = [[98]].
Proof. by vm_compute. Qed.

(** A [host] set with the headers of the default upstream is sent, unless
    another call follows. *)
Lemma host_override_lost :
  sent_inherited demo_raw [("host", [122])] "host" = [[122]]
  /\ sent_explicit demo_raw [("host", [122])] "host" = [bytes_of_string "e:1"].
Proof. by vm_compute. Qed.

(** A request without a length and without a transfer coding, as HTTP/2 and
    HTTP/3 allow, is forwarded without its body. *)
Lemma unannounced_body_dropped :
  let b := BodyStream.new_inbound (M:=hmap) [Ok (BodyStream.FrameData [104; 105])] in
  client_body b = ([104; 105], None)
  /\ default_upstream_outbound_http1_request_body_template display (demo_head demo_raw) (inheriting []) b = Some (Ok TemplateEmpty, b).
Proof. by vm_compute. Qed.
End UpstreamRequest.
