(* ===== verification/UpstreamSend.v ===== *)
(** Model of how a request is sent on a shared session to an upstream
    ([send_request] of [src/abi_impl/http2/upstream.rs] and of
    [src/abi_impl/http3/upstream.rs]), over the sessions of [Http2Session] and
    [Http3Session].  What hyper, h3 and quinn answer is given; at every await
    other tasks use the session and the pool. *)

From S2P Require Import Prelude Bytes Effects LruStore TlsFlow HttpVersions HttpHeaders Http2Session Http2Pool Http3Session Http1SenderPool TlsConfig.

(** * HTTP/3 *)
Module Http3Send.
Import HttpHeaders Http3Session Http3Pool.
#[local] Existing Instances Http1SenderPool.TlsSessionCacheKey_eq_dec Http1SenderPool.TlsSessionCacheKey_countable.
Import HttpVersion(HttpUpstreamScheme, scheme_as_str, contains).
Import Http2Client(format_upstream_authority).

(** ** Errors *)

(** An error of h3 with its sources; a [quinn::ConnectionError] among them is
    given by its text. *)
Record TransportFailure := MkFailure { display : string; chain : list (option string) }.

Definition classify_http3_error (e : TransportFailure) : Http3ObservedError :=
  match head (omap id e.(chain)) with
  | Some connection => MkObserved connection None (Some (MkGoaway (Some connection) Transport))
  | None => MkObserved e.(display) None None
  end.

(** [http3::Http3RequestError::into_message] *)
Definition into_message (e : Http3RequestError) : string :=
  match e with
  | FallbackToHttp2 alpn =>
      "http3 request fell back to http/2 after negotiating " +:+ default "no ALPN" alpn
  | TransportError message => message
  end.

(** ** The key of a session *)

Record Http3SessionKey := MkSessionKey { origin : string; tls_key : option TlsFlow.TlsSessionCacheKey }.

#[export] Instance h3_key_eq_dec : EqDecision Http3SessionKey.
Proof. solve_decision. Defined.
#[export] Instance h3_key_countable : Countable Http3SessionKey.
Proof.
  refine (inj_countable' (fun k => (origin k, tls_key k)) (fun t => MkSessionKey t.1 t.2) _); by intros [].
Defined.

Section send.
Context {M : Type} `{HM : HeaderMap M} `{HMM : !HeaderMapMut M} `{HC : HttpCrate}.
Context (authority_host : string -> option string) (hash_pem : string -> Z).
Context (max_reusable_sessions target_active_streams : nat).

Definition session_key (sch : HttpUpstreamScheme) (host : string) (port : Z) (flow : TlsFlow.TlsFlowState)
    : option Http3SessionKey :=
  o ← HttpVersion.session_origin sch host port;
  Some (MkSessionKey o (TlsFlow.tls_session_cache_key authority_host hash_pem (scheme_as_str sch) host port flow)).

(** ** The request *)

(** What a streamed body yields is given by its items. *)
Inductive Http3RequestBody :=
| Empty
| Bytes (body : list Z)
| Streaming (items : list (result string (list Z))).

Record Http3SendRequestOptions := MkOptions {
  exchange_handle : Z;
  target_scheme : HttpUpstreamScheme;
  target_host : string;
  target_port : Z;
  target_host_header : option string;
  upstream_url : string;
  method : string;
  headers : M;
  request_body : Http3RequestBody;
  tls_flow : TlsFlow.TlsFlowState;
  mode : Http3UpstreamMode;
}.

Record Request := MkRequest { request_method : string; request_uri : string; request_headers : list (string * list Z) }.

(** [Request::builder]: the text of the error, if the method or the URI is not one. *)
Context (builder : Request -> result string Request).

Definition build_http3_request (o : Http3SendRequestOptions) : result Http3RequestError Request :=
  headers ← (if contains_key o.(headers) "host" then Ok o.(headers)
             else
               let host := default (format_upstream_authority o.(target_host) o.(target_port)) o.(target_host_header) in
               match header_value_str host with
               | Some v => Ok (hm_insert "host" v o.(headers))
               | None => Err (TransportError ("invalid host header for '" +:+ o.(upstream_url) +:+ "': failed to parse header value"))
               end);
  match builder (MkRequest o.(method) o.(upstream_url) (hm_iter headers)) with
  | Ok r => Ok r
  | Err e => Err (TransportError ("invalid http3 request: " +:+ e))
  end.

(** ** Sending *)

(** The awaits of [send_request], where other tasks run. *)
Inductive point := Connecting | Locking | OpeningStream | NextChunk (n : nat) | SendingData (n : nat) | FinishingStream | AwaitingResponse.

(** What quinn and h3 answer, and the fields of a connected session. *)
Context {R : Type}.
Record Driver := MkDriver {
  connected : result Http3RequestError unit;                 (* [connect_session] *)
  open_stream : result TransportFailure Z;                   (* [sender.send_request] *)
  accept_data : nat -> result TransportFailure unit;         (* [send_data] of the nth chunk *)
  finish_stream : result TransportFailure unit;              (* [finish] *)
  recv_response : result TransportFailure R;                 (* [recv_response] *)
  peer_addr : nat -> string;
  session_alpn : nat -> option string;
  peer_certificate : nat -> option (list Z);
}.
Context (d : Driver).
Context (others : point -> Http3SessionStore (K:=Http3SessionKey) -> Http3SessionStore (K:=Http3SessionKey)).

(** The shared sessions, what the stream has taken, whether it was finished,
    and what has not been polled from the body. *)
Record Run := MkRun {
  store : Http3SessionStore (K:=Http3SessionKey);
  frames : list (list Z);
  ended : bool;
  unread : list (result string (list Z));
}.
#[export] Instance eta_run : Eta Run := fun s => MkRun s.(store) s.(frames) s.(ended) s.(unread).

Record Http3StartedResponse := MkStarted {
  response : R;
  started_peer_addr : option string;
  started_negotiated_alpn : option string;
  started_peer_certificate_der : option (list Z);
  stream_ref : Http3StreamRef;
  tracker : nat;                        (* the session of the [Http3ResponseBodyTracker] *)
}.

Abbreviation sending := (eff Http3RequestError Run).

Definition await (p : point) : sending unit := modify (fun s => s <| store := others p s.(store) |>).

(** A method of the session, under its lock. *)
Definition step_session (i : nat) (f : Http3UpstreamSessionDagState -> Http3UpstreamSessionDagState)
    (st : Http3SessionStore (K:=Http3SessionKey)) : Http3SessionStore :=
  match st.(live) !! i with
  | Some x => st <| live := <[i := x <| dag := f x.(dag) |>]> st.(live) |>
  | None => st
  end.
Definition on_session (i : nat) (f : Http3UpstreamSessionDagState -> Http3UpstreamSessionDagState) : sending unit :=
  modify (fun s => s <| store := step_session i f s.(store) |>).

Definition on_store {A} (f : Http3SessionStore (K:=Http3SessionKey) -> A * Http3SessionStore) : sending A := fun s =>
  let '(a, st) := f s.(store) in (Ok a, s <| store := st |>).
(** The [session_id] of a session. *)
Definition number_of (i : nat) : sending Z :=
  s ← get_state; mret (default 0 (sess_id <$> s.(store).(live) !! i)).

(** [Http3Pool.acquire_or_open_session] with the tasks that run while it connects. *)
Definition acquire_or_open_session (mode : Http3UpstreamMode) (key : Http3SessionKey) : sending nat :=
  found ← on_store (find_session max_reusable_sessions target_active_streams key);
  match found with
  | Some i => mret i
  | None =>
      _ ← await Connecting;
      match d.(connected), mode with
      | Ok _, _ => on_store (store_session max_reusable_sessions target_active_streams key)
      | Err _, Preferred => throw (FallbackToHttp2 None)
      | Err e, NotPreferred => throw e
      end
  end.

(** An answer of the stream; its failure is noted on the session. *)
Definition or_stream_error {A} (i : nat) (id : Z) (what : string) (r : result TransportFailure A) : sending A :=
  match r with
  | Ok a => mret a
  | Err e =>
      let observed := classify_http3_error e in
      _ ← on_session i (apply_stream_error id observed);
      session ← number_of i;
      throw (TransportError ("http3 stream " +:+ dec id +:+ " on session " +:+ dec session +:+ what +:+ observed.(message)))
  end.

Definition send_data (i : nat) (id : Z) (n : nat) (chunk : list Z) : sending unit :=
  _ ← await (SendingData n);
  _ ← or_stream_error i id " failed to send request body: " (d.(accept_data) n);
  modify (fun s => s <| frames := s.(frames) ++ [chunk] |>).

Fixpoint send_stream (i : nat) (id : Z) (n : nat) (items : list (result string (list Z))) (sent_any : bool) : sending bool :=
  _ ← await (NextChunk n);
  match items with
  | [] => mret sent_any
  | item :: items =>
      _ ← modify (fun s => s <| unread := items |>);
      match item with
      | Err m =>
          _ ← on_session i (mark_stream_reset id (Some m) Transport);
          session ← number_of i;
          throw (TransportError ("http3 stream " +:+ dec id +:+ " on session " +:+ dec session
                                 +:+ " failed to read request body: " +:+ m))
      | Ok [] => send_stream i id (S n) items sent_any
      | Ok chunk => _ ← send_data i id n chunk; send_stream i id (S n) items true
      end
  end.

Definition send_body (i : nat) (id : Z) (body : Http3RequestBody) : sending bool :=
  match body with
  | Empty => mret false
  | Bytes l => if bool_decide (l = []) then mret false else _ ← send_data i id 0 l; mret true
  | Streaming items => send_stream i id 0 items false
  end.

Definition request_opened (i : nat) (mode : Http3UpstreamMode) : sending Z :=
  match d.(open_stream) with
  | Ok id => mret id
  | Err e =>
      let observed := classify_http3_error e in
      _ ← on_session i (apply_session_error observed);
      session ← number_of i;
      throw (match mode with
             | Preferred => FallbackToHttp2 (d.(session_alpn) i)
             | NotPreferred => TransportError ("http3 session " +:+ dec session +:+ " failed to open a request stream: "
                                               +:+ observed.(message))
             end)
  end.

(** The end of a request, once its body was sent. *)
Definition finish_request (i : nat) (session id : Z) (request_body_present : bool) : sending Http3StartedResponse :=
  _ ← await FinishingStream;
  _ ← or_stream_error i id " failed to finish request body: " d.(finish_stream);
  _ ← modify (fun s => s <| ended := true |>);
  _ ← on_session i (mark_stream_request_committed id request_body_present);
  _ ← await AwaitingResponse;
  r ← or_stream_error i id " failed to receive response headers: " d.(recv_response);
  _ ← on_session i (mark_stream_response_head_ready id);
  mret (MkStarted r (Some (d.(peer_addr) i)) (d.(session_alpn) i) (d.(peer_certificate) i) (MkStreamRef session id) i).

Definition send_request (o : Http3SendRequestOptions) : sending Http3StartedResponse :=
  key ← lift (ok_or (TransportError ("http3 session key could not be built for target "
                 +:+ o.(target_host) +:+ ":" +:+ dec o.(target_port)))
               (session_key o.(target_scheme) o.(target_host) o.(target_port) o.(tls_flow)));
  i ← acquire_or_open_session o.(mode) key;
  _ ← lift (build_http3_request o);
  _ ← await Locking;
  _ ← await OpeningStream;
  id ← request_opened i o.(mode);
  session ← number_of i;
  _ ← on_session i (fun g => (attach_stream session o.(exchange_handle) id g).2);
  request_body_present ← send_body i id o.(request_body);
  finish_request i session id request_body_present.

(** ** Lemmas *)

Hypothesis others_step : forall p st, rtc (pool_step max_reusable_sessions target_active_streams) st (others p st).

Abbreviation steps := (rtc (pool_step max_reusable_sessions target_active_streams)).

(** What the run has sent and read. *)
Abbreviation progress_of := (list (list Z) * bool * list (result string (list Z)))%type.
Definition progress (s : Run) : progress_of := (s.(frames), s.(ended), s.(unread)).

(** From a state with progress [p] the pool takes steps of its own operations
    only, and the answer and the new progress satisfy [Q]. *)
Definition does (p : progress_of) {A} (m : sending A) (Q : result Http3RequestError A -> progress_of -> Prop) : Prop :=
  forall s, progress s = p -> let '(r, s') := m s in steps s.(store) s'.(store) /\ Q r (progress s').

(** No progress, and the only failures are those of [E]. *)
Definition quiet (E : Http3RequestError -> Prop) {A} (m : sending A) : Prop :=
  forall p, does p m (fun r p' => p' = p /\ match r with Ok _ => True | Err e => E e end).
Definition never (e : Http3RequestError) : Prop := False.
Definition transport (e : Http3RequestError) : Prop := exists m, e = TransportError m.
Definition anything (e : Http3RequestError) : Prop := True.

Lemma does_bind p {A B} (m : sending A) (f : A -> sending B) Mid Q :
  does p m Mid -> (forall a p', Mid (Ok a) p' -> does p' (f a) Q) -> (forall e p', Mid (Err e) p' -> Q (Err e) p') -> does p (m ≫= f) Q.
Proof.
  intros Hm Hf He s Hs. unfold mbind, eff_bind. specialize (Hm s Hs). destruct (m s) as [[a|e] s1]; destruct Hm as [Hst Hr].
  - specialize (Hf a _ Hr s1 eq_refl). destruct (f a s1) as [r s2]. destruct Hf as [? ?]. split; [by etrans|done].
  - split; [done|by apply He].
Qed.
Lemma does_quiet E p {A B} (m : sending A) (f : A -> sending B) Q :
  quiet E m -> (forall a, does p (f a) Q) -> (forall e, E e -> Q (Err e) p) -> does p (m ≫= f) Q.
Proof. intros Hm Hf He. eapply does_bind; [apply Hm|intros a p' [-> _]; apply Hf|intros e p' [-> ?]; by apply He]. Qed.
Lemma does_calm p {A B} (m : sending A) (f : A -> sending B) Q :
  quiet never m -> (forall a, does p (f a) Q) -> does p (m ≫= f) Q.
Proof. intros Hm Hf. by eapply does_quiet. Qed.
Lemma does_weaken p {A} (m : sending A) (Q Q' : _ -> _ -> Prop) :
  does p m Q -> (forall r p', Q r p' -> Q' r p') -> does p m Q'.
Proof. intros Hm HQ s Hs. specialize (Hm s Hs). destruct (m s). destruct Hm. auto. Qed.
Lemma does_ret p {A} (a : A) (Q : _ -> _ -> Prop) : Q (Ok a) p -> does p (mret a) Q.
Proof. by intros HQ s <-. Qed.

Lemma quiet_ret E {A} (a : A) : quiet E (mret a).
Proof. by intros p s <-. Qed.
Lemma quiet_throw (E : Http3RequestError -> Prop) {A} e : E e -> quiet E (throw (A:=A) e).
Proof. by intros He p s <-. Qed.
Lemma quiet_lift {A} (r : result Http3RequestError A) : quiet anything (lift r).
Proof. intros p s <-. by destruct r. Qed.
Lemma quiet_weaken (E E' : Http3RequestError -> Prop) {A} (m : sending A) : (forall e, E e -> E' e) -> quiet E m -> quiet E' m.
Proof.
  intros He Hm p s Hs. specialize (Hm p s Hs). destruct (m s) as [[a|e] s']; [done|]. destruct Hm as (? & ? & ?). auto.
Qed.
Lemma quiet_bind E {A B} (m : sending A) (f : A -> sending B) : quiet E m -> (forall a, quiet E (f a)) -> quiet E (m ≫= f).
Proof. intros Hm Hf p. eapply does_quiet; [exact Hm|intros a; apply Hf|by intros]. Qed.
Lemma quiet_calm E {A B} (m : sending A) (f : A -> sending B) : quiet never m -> (forall a, quiet E (f a)) -> quiet E (m ≫= f).
Proof. intros Hm Hf p. apply does_calm; [exact Hm|intros a; apply Hf]. Qed.
Lemma quiet_await x : quiet never (await x).
Proof. intros p s <-. split; [apply others_step|done]. Qed.
Lemma quiet_number i : quiet never (number_of i).
Proof. by intros p s <-. Qed.

Lemma step_session_steps i f st : (forall g, rtc session_step g (f g)) -> steps st (step_session i f st).
Proof.
  intros Hf. unfold step_session. destruct (live st !! i) as [x|] eqn:Hx; [|done].
  assert (Hgo : forall g g', rtc session_step g g' -> forall st : Http3SessionStore (K:=Http3SessionKey), live st !! i = Some (x <| dag := g |>) ->
    steps st (st <| live := <[i := x <| dag := g' |>]> st.(live) |>)).
  { intros g g' Hg. induction Hg as [g|g g1 g2 H1 _ IH]; intros st' Hi.
    - destruct st' as [a b c]; cbn in *. rewrite list_insert_id by done. apply rtc_refl.
    - eapply rtc_l; [exact (hp_session _ _ i _ g1 st' Hi H1)|].
      destruct st' as [a b c]; cbn in *. set (st1 := MkStore a b (<[i := x <| dag := g1 |>]> c)).
      assert (H2 : live st1 !! i = Some (x <| dag := g1 |>)) by (cbn; apply list_lookup_insert_eq; by eapply lookup_lt_Some).
      specialize (IH st1 H2). cbn in IH. rewrite list_insert_insert_eq in IH. exact IH. }
  apply (Hgo (dag x)); [apply Hf|]. by destruct x.
Qed.
Lemma quiet_session i f : (forall g, rtc session_step g (f g)) -> quiet never (on_session i f).
Proof. intros Hf p s <-. split; [by apply step_session_steps|done]. Qed.

Lemma session_error_steps o g : rtc session_step g (apply_session_error o g).
Proof.
  unfold apply_session_error. destruct (observed_goaway o) as [a|], (observed_reset o);
    try (apply rtc_once; apply st_goaway); [apply rtc_refl|apply rtc_once; apply st_conn_failed].
Qed.
Lemma stream_error_steps id o g : rtc session_step g (apply_stream_error id o g).
Proof.
  unfold apply_stream_error. destruct (observed_reset o) as [a|], (observed_goaway o) as [b|].
  - eapply rtc_l; [apply st_reset|]. apply rtc_once, st_goaway.
  - apply rtc_once, st_reset.
  - apply rtc_once, st_goaway.
  - apply rtc_once, st_conn_failed.
Qed.

Lemma quiet_store {A} (f : Http3SessionStore (K:=Http3SessionKey) -> A * Http3SessionStore) :
  (forall st, steps st (f st).2) -> quiet never (on_store f).
Proof. intros Hf p s <-. unfold on_store. specialize (Hf (store s)). destruct (f (store s)). by split. Qed.

Lemma transport_intro m : transport (TransportError m).
Proof. by exists m. Qed.
Create HintDb quiet.
#[local] Hint Resolve quiet_ret quiet_throw quiet_lift quiet_await quiet_number quiet_calm quiet_session transport_intro : quiet.
#[local] Hint Extern 1 (anything _) => exact I : quiet.

Lemma quiet_acquire m key : quiet anything (acquire_or_open_session m key).
Proof.
  unfold acquire_or_open_session. apply quiet_calm; [apply quiet_store; intros st; apply rtc_once; constructor|].
  intros [i|]; [auto with quiet|]. apply quiet_calm; [auto with quiet|]. intros _. destruct (connected d) as [[]|e].
  - apply (quiet_weaken never); [done|]. apply quiet_store. intros st. apply rtc_once. constructor.
  - destruct m; auto with quiet.
Qed.
Lemma quiet_or_error {A} i id what (r : result TransportFailure A) : quiet transport (or_stream_error i id what r).
Proof.
  unfold or_stream_error. destruct r as [a|e]; [auto with quiet|]. cbn zeta.
  apply quiet_calm; [apply quiet_session, stream_error_steps|auto with quiet].
Qed.
Lemma quiet_opened i m : quiet anything (request_opened i m).
Proof.
  unfold request_opened. destruct (open_stream d) as [a|e]; [auto with quiet|]. cbn zeta.
  apply quiet_calm; [apply quiet_session, session_error_steps|]. intros _. apply quiet_calm; [auto with quiet|].
  intros n. destruct m; auto with quiet.
Qed.

(** The bytes of a stream up to its end or its error. *)
Fixpoint stream_whole (items : list (result string (list Z))) : list Z * option string :=
  match items with
  | [] => ([], None)
  | Err m :: _ => ([], Some m)
  | Ok l :: items => let '(b, e) := stream_whole items in (l ++ b, e)
  end.
Definition body_whole (b : Http3RequestBody) : list Z * option string :=
  match b with Empty => ([], None) | Bytes l => (l, None) | Streaming items => stream_whole items end.
Definition body_items (b : Http3RequestBody) : list (result string (list Z)) :=
  match b with Streaming items => items | _ => [] end.

(** After sending what [body] is, or a part of it: the frames that were added. *)
Definition sent (body : list Z * option string) (p : progress_of) {A} (r : result Http3RequestError A) (p' : progress_of) : Prop :=
  let '(fs, e, _) := p in let '(fs', e', u') := p' in
  e' = e /\ exists new rest, fs' = fs ++ new /\ Forall (fun f => f ≠ []) new /\ mjoin new ++ rest = body.1 /\
    match r with
    | Ok _ => rest = [] /\ body.2 = None /\ u' = []
    | Err e => exists m, e = TransportError m
    end.

Lemma does_data fs e u i id n chunk :
  does (fs, e, u) (send_data i id n chunk) (fun r p' =>
    match r with Ok _ => p' = (fs ++ [chunk], e, u) | Err err => p' = (fs, e, u) /\ transport err end).
Proof.
  unfold send_data. apply does_calm; [apply quiet_await|]. intros _.
  eapply does_quiet; [apply quiet_or_error| |done]. intros _ s [= <- <- <-]. by split.
Qed.

Lemma does_stream items i id n sent_any fs e :
  does (fs, e, items) (send_stream i id n items sent_any) (sent (stream_whole items) (fs, e, items)).
Proof.
  revert fs n sent_any. induction items as [|item items IH]; intros fs n sent_any; cbn [send_stream];
    (apply does_calm; [apply quiet_await|]; intros _).
  - apply does_ret. split; [done|]. exists [], []. by rewrite app_nil_r.
  - eapply does_bind with (Mid := fun r p' => match r with Ok _ => p' = (fs, e, items) | Err _ => False end);
      [by intros [st f en u] [= -> -> ->]| |done]. intros _ p' ->.
    destruct item as [[|b l]|m].
    + intros s Hs. specialize (IH fs (S n) sent_any s Hs). destruct (send_stream _ _ _ _ _ s) as [r s'].
      destruct IH as [? Hsent]. split; [done|]. cbn. destruct (stream_whole items) as [w err]. exact Hsent.
    + eapply does_bind; [apply does_data| |].
      * intros _ p' ->. intros s Hs. specialize (IH (fs ++ [b :: l]) (S n) true s Hs).
        destruct (send_stream _ _ _ _ _ s) as [r s']. destruct IH as [? Hsent]. split; [done|].
        unfold sent in *. cbn [stream_whole]. destruct (stream_whole items) as [w err]. destruct (progress s') as [[fs' e'] u'].
        destruct Hsent as (-> & new & rest & -> & Hne & Hw & Hr). split; [done|]. exists ((b :: l) :: new), rest.
        rewrite <-app_assoc. split_and!; [done|by constructor| |done]. change (mjoin ((b :: l) :: new)) with ((b :: l) ++ mjoin new). by rewrite <-app_assoc, Hw.
      * intros err p' [-> Herr]. split; [done|]. exists [], (stream_whole (Ok (b :: l) :: items)).1.
        rewrite app_nil_r. by split_and!.
    + apply does_calm; [apply quiet_session; intros g; apply rtc_once; constructor|]. intros _.
      apply does_calm; [apply quiet_number|]. intros sid [st f en u] [= -> -> ->]. split; [done|]. split; [done|].
      exists [], []. rewrite app_nil_r. split_and!; [done..|]. by eexists.
Qed.

Lemma does_body body i id :
  does ([], false, body_items body) (send_body i id body) (sent (body_whole body) ([], false, body_items body)).
Proof.
  destruct body as [|l|items]; cbn [send_body body_items body_whole].
  - apply does_ret. split; [done|]. by exists [], [].
  - case_bool_decide as Hl; [apply does_ret; split; [done|]; exists [], []; by subst|].
    eapply does_bind; [apply does_data| |].
    + intros _ p' ->. apply does_ret. split; [done|]. exists [l], []. cbn. rewrite !app_nil_r. split_and!; try done. by apply Forall_singleton.
    + intros e p' [-> He]. split; [done|]. exists [], l. by split_and!.
  - apply does_stream.
Qed.

Lemma does_finish i session id present fs e u :
  does (fs, e, u) (finish_request i session id present) (fun r p' =>
    p'.1.1 = fs /\ match r with Ok _ => p'.1.2 = true | Err err => transport err end).
Proof.
  unfold finish_request. apply does_calm; [apply quiet_await|intros _].
  eapply does_quiet; [apply quiet_or_error|intros _|done].
  eapply does_bind with (Mid := fun r p' => match r with Ok _ => p' = (fs, true, u) | Err _ => False end);
    [by intros [st f en v] [= -> -> ->]|intros _ p' ->|done].
  apply does_calm; [apply quiet_session; intros g; apply rtc_once; constructor|intros _].
  apply does_calm; [apply quiet_await|intros _]. eapply does_quiet; [apply quiet_or_error|intros a|done].
  apply does_calm; [apply quiet_session; intros g; apply rtc_once; constructor|intros _]. by apply does_ret.
Qed.

(** C28. A request on a shared HTTP/3 session is sent whole, or the caller is
    told.  Whatever the peer answers, and whatever other tasks do with the pool
    and the sessions at every await: the request only takes steps of the pool,
    so the invariants of the pool and of its sessions hold; what it puts on its
    stream is a part of its body from the first byte, in frames that are not
    empty; a response is only returned when all of the body was sent, the body
    ended without an error and the stream was finished; and the request falls
    back to HTTP/2 only when nothing of its body has been read or sent, so that
    it can be sent again. *)
Theorem http3_request_sent o s :
  progress s = ([], false, body_items o.(request_body)) ->
  let '(r, s') := send_request o s in
  steps s.(store) s'.(store)
  /\ (exists rest, mjoin s'.(frames) ++ rest = (body_whole o.(request_body)).1) /\ Forall (fun f => f ≠ []) s'.(frames)
  /\ match r with
     | Ok _ => mjoin s'.(frames) = (body_whole o.(request_body)).1 /\ (body_whole o.(request_body)).2 = None /\ s'.(ended) = true
     | Err (FallbackToHttp2 _) => progress s' = progress s
     | Err (TransportError _) => True
     end.
Proof.
  intros Hp. set (Q := fun (r : result Http3RequestError Http3StartedResponse) (p' : progress_of) =>
    (exists rest, mjoin p'.1.1 ++ rest = (body_whole (request_body o)).1) /\ Forall (fun f => f ≠ []) p'.1.1
    /\ match r with
       | Ok _ => mjoin p'.1.1 = (body_whole (request_body o)).1 /\ (body_whole (request_body o)).2 = None /\ p'.1.2 = true
       | Err (FallbackToHttp2 _) => p' = ([], false, body_items (request_body o))
       | Err (TransportError _) => True
       end).
  assert (Hnone : forall e, Q (Err e) ([], false, body_items (request_body o))).
  { intros e. split; [by eexists|]. split; [constructor|]. by destruct e. }
  assert (Hdoes : does ([], false, body_items (request_body o)) (send_request o) Q).
  { unfold send_request.
    eapply does_quiet; [apply quiet_lift|intros key|auto]. eapply does_quiet; [apply quiet_acquire|intros i|auto].
    eapply does_quiet; [apply quiet_lift|intros _|auto]. do 2 (apply does_calm; [apply quiet_await|intros _]).
    eapply does_quiet; [apply quiet_opened|intros id|auto]. apply does_calm; [apply quiet_number|intros session].
    apply does_calm; [apply quiet_session; intros g; apply rtc_once; constructor|intros _].
    eapply does_bind; [apply does_body| |].
    - intros present [[fs' e'] u'] (-> & new & rest & -> & Hne & Hw & -> & He & ->). rewrite app_nil_r in Hw.
      eapply does_weaken; [apply does_finish|]. intros r' [[fs2 e2] u2] [Hfs Hr]. cbn in Hfs, Hr |- *. subst fs2. split_and!; [by exists []; rewrite app_nil_r|done|].
      destruct r' as [a|err]; [done|]. by destruct Hr as [m ->].
    - intros e [[fs' e'] u'] (-> & new & rest & -> & Hne & Hw & m & ->). split; [by exists rest|]. by split. }
  specialize (Hdoes s Hp). destruct (send_request o s) as [r s']. destruct Hdoes as (? & ? & ? & Hr).
  split_and!; [done..|]. rewrite Hp. destruct r as [|[]]; exact Hr.
Qed.
End send.

(** ** Witnesses *)

Definition plain_builder (r : Request) : result string Request := if is_empty r.(request_uri) then Err "empty string" else Ok r.
Definition alone (_ : point) (st : Http3SessionStore (K:=Http3SessionKey)) : Http3SessionStore (K:=Http3SessionKey) := st.
Definition upstream (response : result TransportFailure Z) : Driver (R:=Z) :=
  MkDriver (Ok tt) (Ok 0) (fun _ => Ok tt) (Ok tt) response (fun _ => "192.0.2.1:443") (fun _ => Some "h3") (fun _ => None).
Definition demo_options : Http3SendRequestOptions (M:=list (string * list Z)) :=
  MkOptions 1 HttpVersion.Https "example.org" 443 None "https://example.org/a" "POST" [("host", [120])]
    (Streaming [Ok [1; 2]; Ok []; Ok [3]]) (TlsFlow.demo_flow) Preferred.
Definition demo_run : Run := MkRun (new_store 4) [] false [Ok [1; 2]; Ok []; Ok [3]].
Definition demo_send (response : result TransportFailure Z) :=
  send_request TlsFlow.demo_host str_len 8 4 plain_builder (upstream response) alone demo_options demo_run.

Lemma http3_request_sent_witness :
  let '(r, s') := demo_send (Ok 200) in
  is_Ok r = true /\ s'.(frames) = [[1; 2]; [3]] /\ s'.(ended) = true /\ mjoin s'.(frames) = [1; 2; 3].
Proof.
  assert (Hc : let '(r, s') := demo_send (Ok 200) in (is_Ok r, s'.(frames), s'.(ended)) = (true, [[1; 2]; [3]], true)) by by vm_compute.
  pose proof (http3_request_sent TlsFlow.demo_host str_len 8 4 plain_builder (upstream (Ok 200)) alone
    (fun _ _ => rtc_refl _ _) demo_options demo_run eq_refl) as Hs.
  fold (demo_send (Ok 200)) in Hs. destruct (demo_send (Ok 200)) as [[r|e] s']; [|done]. injection Hc as Hf He.
  destruct Hs as (_ & _ & _ & Hm & _). by split_and!.
Defined.

(** When the connection ends while a request waits for its response, the
    stream of the request stays attached for good: every error of the
    connection counts as a GOAWAY, and a GOAWAY leaves the streams to finish. *)
Theorem connection_error_keeps_stream :
  let '(r, s') := demo_send (Err (MkFailure "h3 error" [None; Some "timed out"])) in
  is_Ok r = false /\
  match s'.(store).(live) !! 0%nat with
  | Some x => session_frontier x.(dag) = Draining /\ has_active_streams x.(dag) = true /\ should_retain x.(dag) = true
  | None => False
  end.
Proof. by vm_compute. Qed.

End Http3Send.

(** * HTTP/2 *)
Module Http2Send.
Import HttpHeaders Http2Session TlsConfig.
Import HttpVersion(HttpUpstreamScheme, Http2UpstreamMode, Disabled, AutomaticTls, PriorKnowledge, HTTP2_ALPN_PROTOCOL).
Import Http2Client(format_upstream_authority, path_and_query, can_fallback_to_http11).

(** ** Errors *)

(** An error of hyper with its sources; an [h2::Error] among them is given by
    its text, its reason and what it is. *)
Record H2Error := MkH2Error {
  text : string; reason : option string; is_remote : bool; is_reset : bool; is_go_away : bool }.
Record TransportFailure := MkFailure { display : string; chain : list (option H2Error) }.

Definition classify_http2_error (e : TransportFailure) : Http2ObservedError :=
  match head (omap id e.(chain)) with
  | Some h =>
      let source := if h.(is_remote) then RemotePeer else Transport in
      MkObserved h.(text) (if h.(is_reset) then Some (MkReset h.(reason) source) else None)
        (if h.(is_go_away) then Some (MkGoaway h.(reason) source) else None)
  | None => MkObserved e.(display) None None
  end.

Section send.
Context {M : Type} `{HM : HeaderMap M} `{HMM : !HeaderMapMut M} `{HC : HttpCrate} `{TC : TlsCrate}.
Context {R : Type}.

Record Http2SendRequest := MkSend {
  exchange_handle : Z;
  target_host : string;
  target_port : Z;
  target_host_header : option string;
  request_path : string;
  request_query : string;
  mode : Http2UpstreamMode;
  tls_flow : TlsFlow.TlsFlowState;
  method : string;
  headers : M;
  request_body_present : bool;
}.

Record Request := MkRequest { request_method : string; request_uri : string; request_headers : list (string * list Z) }.

(** [Request::builder]: the text of the error, if the method or the URI is not one. *)
Context (builder : Request -> result string Request).

Definition build_http2_request (o : Http2SendRequest) : result Http2RequestError Request :=
  headers ← (if contains_key o.(headers) "host" then Ok o.(headers)
             else
               let host := default (format_upstream_authority o.(target_host) o.(target_port)) o.(target_host_header) in
               match header_value_str host with
               | Some v => Ok (hm_insert "host" v o.(headers))
               | None => Err (TransportError ("invalid host header for 'http://" +:+ host +:+ "': failed to parse header value"))
               end);
  match builder (MkRequest o.(method) (path_and_query o.(request_path) o.(request_query)) (hm_iter headers)) with
  | Ok r => Ok r
  | Err e => Err (TransportError ("invalid http2 request: " +:+ e))
  end.

(** ** Connecting *)

(** The awaits, where other tasks use the session. *)
Inductive point := Readying | AwaitingResponse.

(** What the network, rustls and hyper answer. *)
Record Driver := MkDriver {
  tcp_connect : result string unit;
  peer_address : result string string;
  server_name : string -> result string unit;            (* [ServerName::try_from] *)
  tls_connect : ClientConfig -> string -> result string (option string * option (list Z));
                                                         (* the negotiated protocol and the certificate *)
  handshake : result string unit;
  ready : result TransportFailure unit;
  answer : result TransportFailure R;                    (* [sender.send_request] *)
}.
Context (d : Driver).
Context (others : point -> Http2UpstreamSessionDagState -> Http2UpstreamSessionDagState).

Record Http2UpstreamSession := MkSession {
  number : Z;
  peer_addr : string;
  negotiated_alpn : option string;
  peer_certificate_der : option (list Z);
  dag : Http2UpstreamSessionDagState;
}.
#[export] Instance eta_session : Eta Http2UpstreamSession := fun s =>
  MkSession s.(number) s.(peer_addr) s.(negotiated_alpn) s.(peer_certificate_der) s.(dag).

Definition in_session (sid : Z) (what : string) : string := "http2 session " +:+ dec sid +:+ what.
Definition or_transport {A} (what : string) (r : result string A) : result Http2RequestError A :=
  match r with Ok a => Ok a | Err e => Err (TransportError (what +:+ e)) end.

Definition connect_cleartext_http2 (host : string) (port sid : Z) : result Http2RequestError Http2UpstreamSession :=
  _ ← or_transport (in_session sid (" failed to connect to " +:+ host +:+ ":" +:+ dec port +:+ ": ")) d.(tcp_connect);
  peer ← or_transport (in_session sid " failed to read peer addr: ") d.(peer_address);
  _ ← or_transport (in_session sid " handshake failed: ") d.(handshake);
  Ok (MkSession sid peer None None new).

Definition connect_tls_http2 (host : string) (port : Z) (flow : TlsFlow.TlsFlowState) (sid : Z)
    : result Http2RequestError Http2UpstreamSession :=
  _ ← or_transport (in_session sid (" failed to connect to " +:+ host +:+ ":" +:+ dec port +:+ ": ")) d.(tcp_connect);
  peer ← or_transport (in_session sid " failed to read peer addr: ") d.(peer_address);
  let peer_name := match TlsFlow.peer_name flow with Some p => if is_empty p then host else p | None => host end in
  config ← or_transport "" (build_tls_client_config flow);
  _ ← or_transport (in_session sid (" has invalid TLS peer name '" +:+ peer_name +:+ "': ")) (d.(server_name) peer_name);
  '(alpn, certificate) ← or_transport (in_session sid " TLS handshake failed: ") (d.(tls_connect) config peer_name);
  if bool_decide (alpn = Some HTTP2_ALPN_PROTOCOL) then
    _ ← or_transport (in_session sid " handshake failed after TLS setup: ") d.(handshake);
    Ok (MkSession sid peer alpn certificate new)
  else if can_fallback_to_http11 flow then Err (FallbackToHttp1 alpn)
  else Err (TransportError (in_session sid (" negotiated " +:+ default "no ALPN" alpn +:+ " instead of " +:+ HTTP2_ALPN_PROTOCOL))).

Definition open_session (host : string) (port : Z) (m : Http2UpstreamMode) (flow : TlsFlow.TlsFlowState) (sid : Z)
    : result Http2RequestError Http2UpstreamSession :=
  match m with
  | AutomaticTls => connect_tls_http2 host port flow sid
  | PriorKnowledge => connect_cleartext_http2 host port sid
  | Disabled => Err (TransportError "http2 session creation was attempted while HTTP/2 was disabled")
  end.

(** ** Sending *)

(** The session, once there is one, and whether hyper was given the request
    with its body. *)
Record Run := MkRun { session : option Http2UpstreamSession; handed : bool }.
#[export] Instance eta_run : Eta Run := fun s => MkRun s.(session) s.(handed).

Record Http2StartedResponse := MkStarted {
  response : R;
  started_peer_addr : option string;
  started_negotiated_alpn : option string;
  started_peer_certificate_der : option (list Z);
  stream_ref : Http2StreamRef;
}.

Abbreviation sending := (eff Http2RequestError Run).

Definition on_dag (f : Http2UpstreamSessionDagState -> Http2UpstreamSessionDagState) : sending unit :=
  modify (fun s => s <| session := (fun x => x <| dag := f x.(dag) |>) <$> s.(session) |>).
Definition await (p : point) : sending unit := on_dag (others p).

(** The end of [Http2Pool.acquire_or_open_session]: the pool gives a session
    that accepts streams, or it is on this request to open one. *)
Definition acquire_or_open_session (pooled : option Http2UpstreamSession) (sid : Z) (o : Http2SendRequest)
    : sending Http2UpstreamSession :=
  x ← lift (match pooled with
            | Some x => Ok x
            | None => open_session o.(target_host) o.(target_port) o.(mode) o.(tls_flow) sid
            end);
  _ ← modify (fun s => s <| session := Some x |>);
  mret x.

Definition reserve (handle : Z) (x : Http2UpstreamSession) : sending Http2StreamRef := fun s =>
  match s.(session) with
  | Some y => let '(r, g) := reserve_stream x.(number) handle y.(dag) in (r, s <| session := Some (y <| dag := g |>) |>)
  | None => (Ok (MkStreamRef x.(number) 0), s)
  end.

(** What is done with the session. *)
Definition send_on (x : Http2UpstreamSession) (o : Http2SendRequest) : sending Http2StartedResponse :=
  _ ← await Readying;
  _ ← (match d.(ready) with
       | Ok _ => mret tt
       | Err e =>
           let observed := classify_http2_error e in
           _ ← on_dag (apply_session_error observed);
           throw (TransportError (in_session x.(number) (" is not ready for a new stream: " +:+ observed.(message))))
       end);
  stream ← reserve o.(exchange_handle) x;
  let id := stream.(ref_stream_id) in
  _ ← lift (build_http2_request o);
  _ ← modify (fun s => s <| handed := true |>);
  _ ← await AwaitingResponse;
  r ← (match d.(answer) with
       | Ok r => mret r
       | Err e =>
           let observed := classify_http2_error e in
           _ ← on_dag (apply_stream_error id observed);
           throw (TransportError ("http2 stream " +:+ dec id +:+ " on session " +:+ dec x.(number) +:+ " failed: "
                                  +:+ observed.(message)))
       end);
  _ ← on_dag (mark_stream_request_committed id o.(request_body_present));
  _ ← on_dag (mark_stream_response_head_ready id);
  mret (MkStarted r (Some x.(peer_addr)) x.(negotiated_alpn) x.(peer_certificate_der) stream).

Definition send_request (pooled : option Http2UpstreamSession) (sid : Z) (o : Http2SendRequest) : sending Http2StartedResponse :=
  x ← acquire_or_open_session pooled sid o;
  send_on x o.

(** ** Lemmas *)

Hypothesis others_step : forall p g, rtc session_step g (others p g).

(** The session [s] of a run has only taken steps of its own. *)
Definition advances (s s' : Run) : Prop :=
  match s.(session), s'.(session) with
  | Some x, Some y => y <| dag := x.(dag) |> = x /\ rtc session_step x.(dag) y.(dag)
  | None, None => True
  | _, _ => False
  end.
Lemma advances_refl s : advances s s.
Proof. unfold advances. destruct (session s) as [[]|]; [|done]. split; [done|apply rtc_refl]. Qed.
Lemma advances_trans s1 s2 s3 : advances s1 s2 -> advances s2 s3 -> advances s1 s3.
Proof.
  unfold advances. destruct (session s1) as [[]|], (session s2) as [[]|], (session s3) as [[]|]; try done.
  cbn. intros [[= -> -> -> ->] ?] [[= -> -> -> ->] ?]. split; [done|]. by etrans.
Qed.

Definition no_fallback {A} (r : result Http2RequestError A) : Prop :=
  match r with Err (FallbackToHttp1 _) => False | _ => True end.

(** With a session and from [P]: the session advances, and the answer is [Q]'s or an error that is no fallback. *)
Definition does (P : Run -> Prop) {A} (m : sending A) (Q : A -> Run -> Prop) : Prop :=
  forall s, is_Some s.(session) -> P s ->
    let '(r, s') := m s in advances s s' /\ match r with Ok a => Q a s' | Err e => exists m, e = TransportError m end.

Lemma advances_some s s' : advances s s' -> is_Some s.(session) -> is_Some s'.(session).
Proof. unfold advances. intros Ha [x Hx]. rewrite Hx in Ha. by destruct (session s'). Qed.

Lemma sends_bind P {A B} (m : sending A) (f : A -> sending B) Mid Q :
  does P m Mid -> (forall a, does (Mid a) (f a) Q) -> does P (m ≫= f) Q.
Proof.
  intros Hm Hf s Hs HP. unfold mbind, eff_bind. specialize (Hm s Hs HP). destruct (m s) as [[a|e] s1]; destruct Hm as [Ha Hr].
  - specialize (Hf a s1 (advances_some _ _ Ha Hs) Hr). destruct (f a s1) as [r s2]. destruct Hf as [? ?].
    split; [by eapply advances_trans|done].
  - by split.
Qed.
Lemma sends_ret (P : Run -> Prop) {A} (a : A) : does P (mret a) (fun b s => b = a /\ P s).
Proof. intros s Hs HP. split; [apply advances_refl|done]. Qed.
Lemma does_lift (P : Run -> Prop) {A} (r : result Http2RequestError A) :
  no_fallback r -> does P (lift r) (fun _ s => P s).
Proof. intros Hr s Hs HP. split; [apply advances_refl|]. destruct r as [a|[]]; [done|done|by eexists]. Qed.
Lemma does_dag (P : Run -> Prop) (Q : unit -> Run -> Prop) f :
  (forall g, rtc session_step g (f g)) ->
  (forall s x, s.(session) = Some x -> P s -> Q tt (s <| session := Some (x <| dag := f x.(dag) |>) |>)) -> does P (on_dag f) Q.
Proof.
  intros Hf HQ [[x|] h] Hs HP; [|by destruct Hs]. split; [split; [by destruct x|apply Hf]|]. by apply (HQ (MkRun (Some x) h) x).
Qed.
Lemma does_fail (P : Run -> Prop) {A} f m (Q : A -> Run -> Prop) :
  (forall g, rtc session_step g (f g)) -> does P (_ ← on_dag f; throw (TransportError m)) Q.
Proof.
  intros Hf. eapply sends_bind; [by apply (does_dag P (fun _ _ => True))|]. intros _ s Hs _.
  split; [apply advances_refl|by eexists].
Qed.

Lemma session_failed_steps o g : rtc session_step g (apply_session_error o g).
Proof.
  unfold apply_session_error. destruct (observed_goaway o) as [a|], (observed_reset o);
    try (apply rtc_once; apply st_goaway); [apply rtc_refl|apply rtc_once; apply st_conn_failed].
Qed.
Lemma stream_failed_steps id o g : rtc session_step g (apply_stream_error id o g).
Proof.
  unfold apply_stream_error. destruct (observed_reset o) as [a|], (observed_goaway o) as [b|].
  - eapply rtc_l; [apply st_reset|]. apply rtc_once, st_goaway.
  - apply rtc_once, st_reset.
  - apply rtc_once, st_goaway.
  - apply rtc_once, st_conn_failed.
Qed.

(** The session a request gets: one of the pool, or one it opened. *)
Definition obtained (pooled : option Http2UpstreamSession) (sid : Z) (o : Http2SendRequest) : result Http2RequestError Http2UpstreamSession :=
  match pooled with
  | Some x => Ok x
  | None => open_session o.(target_host) o.(target_port) o.(mode) o.(tls_flow) sid
  end.

Lemma or_transport_ok {A} what (r : result string A) a : or_transport what r = Ok a <-> r = Ok a.
Proof. destruct r; cbn; split; congruence. Qed.

Lemma opened_new host port m flow sid x : open_session host port m flow sid = Ok x -> x.(dag) = new /\ x.(number) = sid.
Proof.
  destruct m; cbn; [done| |].
  - unfold connect_tls_http2. destruct (tcp_connect d), (peer_address d) as [peer|]; cbn; try done.
    destruct (build_tls_client_config flow) as [config|]; cbn; [|done]. destruct (server_name d _); cbn; [|done].
    destruct (tls_connect d _ _) as [[alpn certificate]|]; cbn; [|done].
    case_bool_decide; [|by case_match]. destruct (handshake d); cbn; [|done]. by intros [= <-].
  - unfold connect_cleartext_http2. destruct (tcp_connect d), (peer_address d), (handshake d); cbn; try done. by intros [= <-].
Qed.

Lemma open_fallback host port m flow sid a :
  open_session host port m flow sid = Err (FallbackToHttp1 a) ->
  m = AutomaticTls /\ a ≠ Some HTTP2_ALPN_PROTOCOL /\ can_fallback_to_http11 flow = true.
Proof.
  destruct m; cbn; [done| |].
  - unfold connect_tls_http2. destruct (tcp_connect d), (peer_address d) as [peer|]; cbn; try done.
    destruct (build_tls_client_config flow) as [config|]; cbn; [|done]. destruct (server_name d _); cbn; [|done].
    destruct (tls_connect d _ _) as [[alpn certificate]|]; cbn; [|done].
    case_bool_decide as Ha; [destruct (handshake d); cbn; done|]. destruct (can_fallback_to_http11 flow); [|done]. by intros [= <-].
  - unfold connect_cleartext_http2. by destruct (tcp_connect d), (peer_address d), (handshake d).
Qed.

Lemma does_reserve (P : Run -> Prop) handle x :
  does P (reserve handle x) (fun stream s => stream.(session_id) = x.(number)).
Proof.
  intros [[y|] h] [z Hz] HP; cbn in Hz; [|done]. unfold reserve. cbn [session].
  assert (Hst : rtc session_step (dag y) (reserve_stream (number x) handle (dag y)).2) by (apply rtc_once; constructor).
  unfold reserve_stream in *. destruct (negb _); cbn in *.
  - split; [split; [by destruct y|exact Hst]|by eexists].
  - split; [split; [by destruct y|exact Hst]|done].
Qed.

Lemma request_no_fallback o : no_fallback (build_http2_request o).
Proof. unfold build_http2_request. repeat (case_match; cbn; try done). Qed.

(** The stream of a request whose response has come. *)
Definition answered (x : Http2UpstreamSession) (st : Http2StartedResponse) (s : Run) : Prop :=
  s.(handed) = true
  /\ (st.(started_peer_addr), st.(started_negotiated_alpn), st.(started_peer_certificate_der), st.(stream_ref).(session_id))
     = (Some x.(peer_addr), x.(negotiated_alpn), x.(peer_certificate_der), x.(number))
  /\ exists y, s.(session) = Some y /\ forall e, streams y.(dag) !! st.(stream_ref).(ref_stream_id) = Some e -> e.(frontier) = ResponseHeadReady.

Lemma head_ready_frontier id b g e :
  streams (mark_stream_response_head_ready id (mark_stream_request_committed id b g)) !! id = Some e -> frontier e = ResponseHeadReady.
Proof.
  unfold mark_stream_response_head_ready, mark_stream_request_committed, advance_stream_goal. cbn.
  rewrite !lookup_alter_eq. destruct (streams g !! id) as [x|]; cbn; [|done]. intros [= <-]. cbn. by destruct b.
Qed.

Lemma does_send_on x o : does (fun _ => True) (send_on x o) (answered x).
Proof.
  unfold send_on.
  eapply sends_bind; [apply (does_dag _ (fun _ _ => True)); [apply others_step|done]|intros []].
  eapply sends_bind with (Mid := fun _ _ => True); [destruct (ready d); [|apply does_fail, session_failed_steps]|intros _].
  { intros s Hs _. split; [apply advances_refl|done]. }
  eapply sends_bind; [apply does_reserve|intros stream].
  eapply sends_bind; [apply does_lift, request_no_fallback|intros req].
  eapply sends_bind with (Mid := fun _ s => session_id stream = number x /\ handed s = true).
  { intros s Hs Hx. split; [|by split]. unfold advances. cbn. destruct (session s) as [[]|]; [split; [done|apply rtc_refl]|done]. }
  intros []. set (P := fun s : Run => session_id stream = number x /\ handed s = true).
  eapply sends_bind; [apply (does_dag _ (fun _ => P)); [apply others_step|by intros s y _ [? ?]]|intros []].
  eapply sends_bind with (Mid := fun _ => P); [destruct (answer d); [|apply does_fail, stream_failed_steps]|intros r].
  { intros s Hs Hx. split; [apply advances_refl|done]. }
  eapply sends_bind with (Mid := fun _ s => P s /\ exists g y, session s = Some y /\
    dag y = mark_stream_request_committed (ref_stream_id stream) (request_body_present o) g).
  { apply does_dag; [intros g; apply rtc_once; constructor|]. intros s y Hy [? ?]. split; [by split|]. by eexists _, _. }
  intros []. eapply sends_bind with (Mid := fun _ s => P s /\ exists y, session s = Some y /\
    forall e, streams (dag y) !! ref_stream_id stream = Some e -> frontier e = ResponseHeadReady).
  { apply does_dag; [intros g; apply rtc_once; constructor|]. intros s y Hy ([? ?] & g & z & Hz & Hg).
    rewrite Hz in Hy. injection Hy as <-. split; [by split|]. eexists. split; [done|]. cbn. rewrite Hg. apply head_ready_frontier. }
  intros []. intros s Hs ([Hid Hh] & y & Hy & Hf). split; [apply advances_refl|]. split; [done|].
  split; [by rewrite <-Hid|]. by exists y.
Qed.

(** C29. A request on a shared HTTP/2 session falls back to HTTP/1 only before
    anything was sent.  Whatever the network answers, and whatever other tasks
    do with the session: a fallback happens only while connecting with TLS, when
    the peer did not choose HTTP/2 and the flow allows HTTP/1.1, and then there
    is no session and the request was not handed over; every other failure is
    final; the session only takes steps of its own, so that its invariant holds;
    and a response comes with the stream of a request that was handed over,
    whose state says that its head is there. *)
Theorem http2_request_sent pooled sid o :
  let '(r, s') := send_request pooled sid o (MkRun None false) in
  match obtained pooled sid o, r with
  | Ok x, Ok st => advances (MkRun (Some x) false) s' /\ answered x st s'
  | Ok x, Err e => advances (MkRun (Some x) false) s' /\ no_fallback (A:=unit) (Err e)
  | Err e, Err e' => e' = e /\ s' = MkRun None false /\
      match e with
      | FallbackToHttp1 alpn =>
          pooled = None /\ o.(mode) = AutomaticTls /\ alpn ≠ Some HTTP2_ALPN_PROTOCOL /\ can_fallback_to_http11 o.(tls_flow) = true
      | TransportError _ => True
      end
  | Err _, Ok _ => False
  end.
Proof.
  unfold send_request, acquire_or_open_session. fold (obtained pooled sid o). unfold mbind, eff_bind, lift.
  destruct (obtained pooled sid o) as [x|e] eqn:Hx; cbn -[send_on].
  - pose proof (does_send_on x o (MkRun (Some x) false) ltac:(by eexists) I) as Hs.
    change (set_field _ _ _ _ _) with (MkRun (Some x) false).
    destruct (send_on x o _) as [[st|e] s']; destruct Hs as [Ha Hr]; split; try done. by destruct Hr as [m ->].
  - split_and!; [done..|]. destruct e as [alpn|]; [|done]. unfold obtained in Hx. destruct pooled; [done|].
    by apply open_fallback in Hx.
Qed.

End send.

(** ** Witnesses *)

Definition alone (_ : point) (g : Http2UpstreamSessionDagState) : Http2UpstreamSessionDagState := g.
(** The [http] crate takes no [<] in a path. *)
Definition strict_builder (r : Request) : result string Request :=
  if HttpVersion.contains 60 r.(request_uri) then Err "invalid uri character" else Ok r.
Definition upstream (alpn : string) : Driver (R:=Z) :=
  MkDriver (Ok tt) (Ok "192.0.2.1:443") (fun _ => Ok tt) (fun _ _ => Ok (Some alpn, None)) (Ok tt) (Ok tt) (Ok 200).
Definition demo_request (path : string) : Http2SendRequest (M:=list (string * list Z)) :=
  MkSend 1 "example.org" 443 None path "" AutomaticTls TlsFlow.demo_flow "GET" [("host", [120])] false.
Definition demo_send (alpn path : string) :=
  send_request strict_builder (upstream alpn) alone None 1 (demo_request path) (MkRun None false).

Lemma http2_request_sent_witness :
  (demo_send "http/1.1" "/a").1 = Err (FallbackToHttp1 (Some "http/1.1"))
  /\ (demo_send "http/1.1" "/a").2 = MkRun None false /\ is_Ok (demo_send "h2" "/a").1 = true.
Proof.
  pose proof (http2_request_sent strict_builder (upstream "http/1.1") alone (fun _ _ => rtc_refl _ _) None 1 (demo_request "/a")) as Hs.
  fold (demo_send "http/1.1" "/a") in Hs. destruct (demo_send "http/1.1" "/a") as [[r|e] s'] eqn:Hd.
  - apply (f_equal fst) in Hd. by vm_compute in Hd.
  - assert (He : obtained (upstream "http/1.1") None 1 (demo_request "/a") = Err (FallbackToHttp1 (Some "http/1.1"))) by by vm_compute.
    rewrite He in Hs. destruct Hs as (-> & -> & _). split_and!; [done|done|]. by vm_compute.
Defined.

(** A request that the [http] crate does not take is refused after its stream
    was reserved, and the stream is never released: a path that the host calls
    accept leaves an active stream on the shared session, which then does not
    close when it is told to go away. *)
Theorem invalid_request_leaks_stream :
  let '(r, s) := demo_send "h2" "/<" in
  is_Ok r = false /\ s.(handed) = false /\
  match s.(session) with
  | Some x => let g := mark_goaway None RemotePeer x.(dag) in has_active_streams g = true /\ session_frontier g = Draining
  | None => False
  end.
Proof. by vm_compute. Qed.

End Http2Send.
