(* ===== verification/UpstreamStart.v ===== *)
(** Model of how an outbound exchange is started ([state/upstream.rs] under
    [src/abi_impl/http/]): which protocols are tried and in which order, what
    is sent in each attempt, what is noted of the connection, and the response
    that is stored.  The senders of the three protocols are an interface
    ([Senders]); while they wait, other tasks run. *)

From S2P Require Import Prelude Bytes Effects TransportState TlsFlow HttpVersions HttpHeaders Http1SenderPool Http1ResponseWriter Http1Upstream BodyStream WebSocketState Http2Session Http3Session UpstreamSend HttpExchange UpstreamRequest.

Module UpstreamStart.
Import HttpHeaders.
Import HttpVersion(HttpUpstreamScheme, Http, Https, HttpVersionPreference, Auto, Http1, Http3, scheme_as_str, format_upstream_authority).
Import Http1SenderPool(Http1PoolKey, Plain, Tls).
Import Http1Upstream(OutboundHttp1RequestBody, Empty, Bytes, Streaming, SerializedOutboundHttp1Request, MkSerialized,
  serialize_request_head_parts_into, body_content_length, Parsed).
Import BodyStream(InboundRequestBodyState, inbound_read, ReadNextChunk, GotBytes, is_drained, DownstreamTransport,
  mark_downstream_transport_closed, mark_downstream_transport_failed).
Import HttpExchange UpstreamRequest.

#[local] Existing Instances BodyStream.inbound_source BodyStream.inbound_source_laws HttpVersion.HttpUpstreamScheme_eq_dec HttpVersion.HttpVersionPreference_eq_dec
  HttpVersion.Http2UpstreamMode_eq_dec HttpVersion.Http3UpstreamMode_eq_dec.

(** ** Data *)

Section start.
Context {M : Type} `{HM : HeaderMap M} `{HMM : !HeaderMapMut M} `{HC : HttpCrate} `{AC : AuthorityCrate}.
(** The body of a response behind its lock, and the network. *)
Context {B N : Type}.

Record StartedUpstreamResponse := MkStarted {
  started_status : Z;
  started_headers : M;
  started_version : string;                       (* its label *)
  started_carrier_ref : HttpCarrierRef;
  started_peer_addr : option string;
  started_negotiated_alpn : option string;
  started_peer_certificate_der : option (list Z);
  started_body : B;
}.
#[export] Instance eta_started : Eta StartedUpstreamResponse := fun s =>
  MkStarted s.(started_status) s.(started_headers) s.(started_version) s.(started_carrier_ref) s.(started_peer_addr)
    s.(started_negotiated_alpn) s.(started_peer_certificate_der) s.(started_body).

Record OutboundHttp1ForwardResponse := MkForwarded {
  forwarded_status : Z;
  forwarded_headers : M;
  forwarded_version : string;
  forwarded_body : B;
  forwarded_latency_ms : Z;
  forwarded_negotiated_alpn : option string;
  forwarded_peer_certificate_der : option (list Z);
}.

(** The head of a response over HTTP/2 or HTTP/3, and the body state that is
    made of it for a content-length. *)
Record ResponseHead := MkResponse {
  status : Z;
  headers_of : M;
  version : string;
  into_body : option Z -> B;
}.

Record OutboundHttp1Target := MkTarget {
  scheme : HttpUpstreamScheme;
  authority : string;
  host : string;
  port : Z;
  plain_pool_key : option string;
  target_tls_flow : option TlsFlow.TlsFlowState;
}.

(** Which shared services there are, and which features are built. *)
Record Services := MkServices {
  http1_sender_pool : bool;
  http1_reuse_entries : Z;
  http2_sessions : bool;
  http3_sessions : bool;
  tls_session_cache : bool;
  http2_built : bool;
  http3_built : bool;
}.

(** ** The senders *)

(** Each gives an answer, and how many pieces of a streamed body it polled. *)
Class Senders := {
  forward_http1 : Http1PoolKey -> Z -> OutboundHttp1Target -> SerializedOutboundHttp1Request -> N ->
    vm_result OutboundHttp1ForwardResponse * nat * N;
  request_http2 : HttpUpstreamScheme -> Http2Send.Http2SendRequest (M:=M) -> OutboundHttp1RequestBody -> N ->
    result Http2Session.Http2RequestError (Http2Send.Http2StartedResponse (R:=ResponseHead)) * nat * N;
  request_http3 : Http3Send.Http3SendRequestOptions (M:=M) -> OutboundHttp1RequestBody -> N ->
    result Http3Pool.Http3RequestError (Http3Send.Http3StartedResponse (R:=ResponseHead)) * nat * N;
  request_attached : AttachedHttpTransport -> string -> string -> M -> OutboundHttp1RequestBody -> N ->
    result UpstreamResponseStartError ResponseHead * nat * N;
  clock_ms : N -> Z;
}.

(** A sender asks for the next protocol only before it has read the body. *)
Class SendersLaws `{Senders} := {
  http2_fallback_unread sch r b n alpn polled n' :
    request_http2 sch r b n = (Err (Http2Session.FallbackToHttp1 alpn), polled, n') -> polled = 0%nat;
  http3_fallback_unread o b n alpn polled n' :
    request_http3 o b n = (Err (Http3Pool.FallbackToHttp2 alpn), polled, n') -> polled = 0%nat;
}.

Context `{SN : Senders}.

(** ** The state *)

Inductive protocol := ByHttp1 | ByHttp2 | ByHttp3 | ByAttached.

Record World := MkWorld {
  context : Context (M:=M) (B:=B);
  inbound_body : InboundRequestBodyState M;
  downstream_transport : DownstreamTransport;
  native_forward : option (result UpstreamResponseStartError OutboundHttp1ForwardResponse);
  native_active : bool;                                        (* [native_default_upstream_http_forward] *)
  cached_sessions : list (TlsFlow.TlsSessionCacheKey * TlsFlow.CachedTlsSession);   (* inserted, latest last *)
  tcp_stream_ios : gmap Z bool;                                (* whether the stream is still there *)
  dynamic_tls_session_ios : gmap Z bool;
  network : N;
  attempts : list (protocol * OutboundHttp1RequestBody);       (* what was handed to the senders *)
}.
#[export] Instance eta_world : Eta World := fun w =>
  MkWorld w.(context) w.(inbound_body) w.(downstream_transport) w.(native_forward) w.(native_active) w.(cached_sessions)
    w.(tcp_stream_ios) w.(dynamic_tls_session_ios) w.(network) w.(attempts).

Inductive start_fault :=
| Start (e : UpstreamResponseStartError)
| Panicked
| OutOfFuel.

Abbreviation starting := (eff start_fault World).
Abbreviation exchange_state := (HttpOutboundExchangeState (M:=M) (B:=B)).
Abbreviation snapshot := (HttpUpstreamResponseSnapshot (M:=M) (B:=B)).

Context (authority_hash : string -> Z) (vm_error_display : VmError -> string) (services : Services).
(** The other tasks, at an await. *)
Context (others : World -> World).

Definition await : starting unit := modify others.

Definition lock_exchanges : starting (ExchangeRegistry (M:=M) (B:=B)) :=
  _ ← modify (fun w => w <| context := w.(context) <| registry := seed_exchanges w.(context).(registry) |> |>);
  w ← get_state; mret w.(context).(registry).
Definition lock_transport : starting TransportState :=
  _ ← modify (fun w => w <| context := w.(context) <| transports := seed_transport w.(context).(transports) |> |>);
  w ← get_state; mret w.(context).(transports).
Definition set_transport (f : TransportState -> TransportState) : starting unit :=
  _ ← lock_transport;
  modify (fun w => w <| context := w.(context) <| transports := f w.(context).(transports) |> |>).

Definition unknown (handle : Z) : start_fault := Start (UnknownExchangeHandle handle).

Definition with_exchange {A} (handle : Z) (m : eff start_fault exchange_state A) : starting A :=
  g ← lock_exchanges;
  match g.(exchanges) !! handle with
  | None => throw (unknown handle)
  | Some e => fun w =>
      let '(r, e) := m e in
      (r, w <| context := w.(context) <| registry := w.(context).(registry)
                <| exchanges := <[handle := e]> w.(context).(registry).(exchanges) |> |> |>)
  end.
(** The default exchange, which the code expects to exist. *)
Definition default_exchange : starting exchange_state :=
  g ← lock_exchanges;
  match g.(exchanges) !! DEFAULT_UPSTREAM_EXCHANGE_HANDLE with Some e => mret e | None => throw Panicked end.

Definition or_start {A} (r : result UpstreamResponseStartError A) : starting A :=
  match r with Ok a => mret a | Err e => throw (Start e) end.

Definition on_started_transport (f : HttpExchangeTransportState -> HttpExchangeTransportState) : eff start_fault exchange_state unit :=
  modify (fun e => e <| transport := f e.(transport) |>).

(** ** What is noted of a connection *)

Definition with_outbound_tls_flow_mut {A} (handle : Z) (mutate : TlsFlow.TlsFlowState -> A * TlsFlow.TlsFlowState) : starting A :=
  if handle =? DEFAULT_UPSTREAM_EXCHANGE_HANDLE then
    t ← lock_transport;
    let '(a, flow) := mutate (TlsFlow.default_upstream t.(tls_dag)) in
    _ ← set_transport (on_default_tls (fun _ => flow));
    mret a
  else with_exchange handle (fun e =>
    let '(a, flow) := mutate e.(transport).(tls_flow) in
    (Ok a, e <| transport := e.(transport) <| tls_flow := flow |> |>)).

Definition note_outbound_tls_prepared (handle : Z) : starting unit :=
  with_outbound_tls_flow_mut handle (fun f => (tt, TlsFlow.note_client_hello_sent (TlsFlow.note_handshake_prepared f))).
Definition outbound_tls_handshake_complete (handle : Z) : starting bool :=
  with_outbound_tls_flow_mut handle (fun f => (TlsFlow.handshake_complete f, f)).
Definition note_outbound_tls_failure (handle : Z) : starting unit :=
  with_outbound_tls_flow_mut handle (fun f => (tt, TlsFlow.mark_failed f)).

Fixpoint join (sep : string) (l : list string) : string :=
  match l with [] => "" | [x] => x | x :: l => x +:+ sep +:+ join sep l end.

Definition finalize_outbound_tls_handshake (handle : Z) (alpn : option string) (certificate : option (list Z)) : starting unit :=
  r ← with_outbound_tls_flow_mut handle (fun f =>
    let f := TlsFlow.note_server_certificate_received certificate (TlsFlow.note_server_hello_received f) in
    let f := if TlsFlow.verify_peer f && TlsFlow.verify_hostname f
             then TlsFlow.note_server_certificate_verified f else TlsFlow.note_verification_skipped f in
    if TlsFlow.accepts_negotiated_alpn alpn f then (Ok tt, TlsFlow.mark_handshake_complete alpn f)
    else (Err (UpstreamRequestFailed ("tls ALPN mismatch: requested [" +:+ join ", " (TlsFlow.desired_alpn f)
                 +:+ "], negotiated " +:+ default "none" alpn)), TlsFlow.mark_failed f));
  or_start r.

Definition cache_outbound_tls_session (handle : Z) (alpn : option string) (certificate : option (list Z)) : starting unit :=
  if negb services.(tls_session_cache) then mret tt
  else
    '(sch, host, port, flow) ← (if handle =? DEFAULT_UPSTREAM_EXCHANGE_HANDLE then
        g ← lock_exchanges;
        let '(sch, host, port) := match g.(exchanges) !! handle with
                                  | Some e => (e.(request).(target_scheme), e.(request).(target_host), e.(request).(target_port))
                                  | None => (Http, None, None)
                                  end in
        t ← lock_transport;
        mret (sch, host, port, TlsFlow.default_upstream t.(tls_dag))
      else with_exchange handle (fun e =>
        (Ok (e.(request).(target_scheme), e.(request).(target_host), e.(request).(target_port), e.(transport).(tls_flow)), e)));
    match host, port with
    | Some host, Some port =>
        match TlsFlow.tls_session_cache_key host_of authority_hash (scheme_as_str sch) host port flow with
        | Some key =>
            let nonempty o := match o with Some s => if is_empty s then None else Some s | None => None end in
            modify (fun w => w <| cached_sessions := w.(cached_sessions) ++
              [(key, TlsFlow.MkCachedSession alpn (nonempty (TlsFlow.peer_name flow)) (nonempty (TlsFlow.server_name flow)) certificate)] |>)
        | None => mret tt
        end
    | _, _ => mret tt
    end.

Definition mark_outbound_tcp_connected (handle : Z) : starting unit :=
  if handle =? DEFAULT_UPSTREAM_EXCHANGE_HANDLE then set_transport (on_default_tcp TcpFlow.mark_connected)
  else with_exchange handle (modify (fun e =>
    e <| transport := e.(transport) <| tcp_flow := TcpFlow.mark_connected e.(transport).(tcp_flow) |> |>)).

(** ** Bodies *)

(** [n] items of the rest of the client's body are polled. *)
Fixpoint poll (n : nat) (b : InboundRequestBodyState M) (t : DownstreamTransport) : InboundRequestBodyState M * DownstreamTransport :=
  match n with
  | O => (b, t)
  | S n =>
      match inbound_read (ReadNextChunk OUTBOUND_HTTP1_REQUEST_BODY_STREAM_CHUNK_BYTES) b with
      | Some (Ok (GotBytes chunk), b) =>
          if bool_decide (chunk = []) then (b, mark_downstream_transport_closed t)
          else poll n b (if is_drained b then mark_downstream_transport_closed t else t)
      | Some (Err e, b) => (b, mark_downstream_transport_failed (vm_error_display e) t)
      | _ => (b, t)
      end
  end.

(** A sender's call: what it was handed is logged, it polls a streamed body,
    and other tasks run until it answers. *)
Definition send {A} (p : protocol) (body : OutboundHttp1RequestBody) (call : N -> A * nat * N) : starting A := fun w =>
  let '(a, polled, n) := call w.(network) in
  let '(b, t) := match body with
                 | Streaming _ _ => poll polled w.(inbound_body) w.(downstream_transport)
                 | _ => (w.(inbound_body), w.(downstream_transport))
                 end in
  (Ok a, others (w <| network := n |> <| inbound_body := b |> <| downstream_transport := t |>
                   <| attempts := w.(attempts) ++ [(p, body)] |>)).

Definition request_body_template : starting NativeDefaultUpstreamRequestBodyTemplate :=
  e ← default_exchange;
  r ← (fun w =>
    match default_upstream_outbound_http1_request_body_template vm_error_display w.(context).(request_head) e.(request) w.(inbound_body) with
    | Some (r, b) => (Ok r, w <| inbound_body := b |>)
    | None => (Err OutOfFuel, w)
    end);
  _ ← await;
  or_start r.

Definition resolved_body (handle : Z) : starting (list Z) :=
  g ← lock_exchanges;
  r ← (fun w =>
    match resolve_outbound_exchange_body handle w.(context).(request_head) (g.(exchanges) !! handle) w.(inbound_body) with
    | Some (r, b) => (Ok r, w <| inbound_body := b |>)
    | None => (Err OutOfFuel, w)
    end);
  _ ← await;
  match r with
  | Ok l => mret l
  | Err Panic => throw Panicked
  | Err (Fail e) => throw (Start (ResolveOutboundBody ("failed to resolve outbound exchange body: " +:+ vm_error_display e)))
  end.

(** The body of a template; a stream is given by the items it has left. *)
Definition body_from_default_upstream_template (template : NativeDefaultUpstreamRequestBodyTemplate)
    : starting OutboundHttp1RequestBody := fun w =>
  match template with
  | TemplateStreaming _ =>
      match stream_remaining_inbound_request_body vm_error_display (stream_fuel w.(inbound_body)) w.(inbound_body) w.(downstream_transport) with
      | Some (items, _, _) => (Ok (body_of_template template items), w)
      | None => (Err OutOfFuel, w)
      end
  | _ => (Ok (body_of_template template []), w)
  end.
(** The length and the presence [into_http_body_from_default_upstream_template] returns. *)
Definition template_length (template : NativeDefaultUpstreamRequestBodyTemplate) : option Z :=
  match template with TemplateEmpty => Some 0 | TemplateBytes l => Some (len l) | TemplateStreaming n => n end.
Definition body_present (template : NativeDefaultUpstreamRequestBodyTemplate) : bool :=
  match template with
  | TemplateEmpty => false
  | TemplateBytes l => 0 <? len l
  | TemplateStreaming n => negb (bool_decide (n = Some 0))
  end.
(** What a dynamic exchange sends. *)
Definition bytes_template (body : list Z) : NativeDefaultUpstreamRequestBodyTemplate :=
  if bool_decide (body = []) then TemplateEmpty else TemplateBytes body.

(** ** HTTP/1 *)

Definition target_pool_key (t : OutboundHttp1Target) : vm_result Http1PoolKey :=
  match t.(scheme) with
  | Http => Ok (Plain (default ("http://" +:+ t.(authority)) t.(plain_pool_key)))
  | Https =>
      flow ← ok_or (HostError ("https upstream " +:+ t.(authority)
               +:+ " is missing tls configuration for outbound http/1.1 forwarding")) t.(target_tls_flow);
      ok_or (HostError ("https upstream " +:+ t.(authority)
               +:+ " is missing tls flow state for outbound http/1.1 pooling"))
        (Tls <$> TlsFlow.tls_session_cache_key host_of authority_hash "https" t.(host) t.(port) flow)
  end.

Definition forward (t : OutboundHttp1Target) (q : SerializedOutboundHttp1Request) : starting OutboundHttp1ForwardResponse :=
  let failed {A} (r : vm_result A) : starting A :=
    match r with Ok a => mret a | Err e => throw (Start (UpstreamRequestFailed (vm_error_display e))) end in
  key ← failed (target_pool_key t);
  r ← send ByHttp1 q.(Http1Upstream.request_body) (forward_http1 key services.(http1_reuse_entries) t q);
  failed r.

Definition http1_target (sch : HttpUpstreamScheme) (authority host : string) (port : Z) (key : option string)
    (flow : TlsFlow.TlsFlowState) : OutboundHttp1Target :=
  MkTarget sch authority host port key (if bool_decide (sch = Https) then Some flow else None).

(** The host, port and authority of a snapshot; [what] names the exchange. *)
Definition endpoint (no_host no_port : string) (host : option string) (port : option Z) (authority : option string)
    : starting (string * Z * string) :=
  host ← or_start (ok_or (Protocol no_host) host);
  port ← or_start (ok_or (Protocol no_port) port);
  mret (host, port, default (format_upstream_authority host port) authority).

Definition default_tls_flow : starting TlsFlow.TlsFlowState :=
  t ← lock_transport; mret (TlsFlow.default_upstream t.(tls_dag)).

Definition forward_default (r : DefaultUpstreamRequestSnapshot (M:=M)) (t : OutboundHttp1Target)
    (template : NativeDefaultUpstreamRequestBodyTemplate) : starting OutboundHttp1ForwardResponse :=
  body ← body_from_default_upstream_template template;
  w ← get_state;
  let items := match body with Streaming _ items => items | _ => [] end in
  forward t (serialize_default_upstream_http1_request_into r w.(context).(request_head) t.(authority) template items).

Definition carrier_of (handle : Z) : HttpCarrierRef :=
  if handle =? DEFAULT_UPSTREAM_EXCHANGE_HANDLE then Http1DefaultUpstream else Http1DynamicExchange handle.
Definition started_upstream_response_from_plain_http1_forward (handle : Z) (r : OutboundHttp1ForwardResponse) : StartedUpstreamResponse :=
  MkStarted r.(forwarded_status) r.(forwarded_headers) r.(forwarded_version) (carrier_of handle) None
    r.(forwarded_negotiated_alpn) r.(forwarded_peer_certificate_der) r.(forwarded_body).

Definition start_upstream_response_via_plain_http1_sender_pool (handle : Z) (p : PreparedUpstreamRequest (M:=M)) (body : list Z)
    : starting StartedUpstreamResponse :=
  _ ← throw_if (negb services.(http1_sender_pool)) (Start MissingClient);
  '(host, port, authority) ← endpoint "outbound exchange host should be configured for plain http/1.1 forwarding"
     "outbound exchange port should be configured for plain http/1.1 forwarding"
     p.(prepared_target_host) p.(prepared_target_port) p.(prepared_target_authority);
  let t := http1_target p.(prepared_target_scheme) authority host port p.(prepared_target_plain_http1_pool_key) p.(prepared_tls_flow) in
  let hs := Parsed (filtered_upstream_headers p.(prepared_headers) (Some authority)) in
  let body := body_of_template (bytes_template body) [] in
  let '(encoded, use_chunked_body) :=
    serialize_request_head_parts_into p.(prepared_method) p.(prepared_path) p.(prepared_query) hs authority (body_content_length body) in
  r ← forward t (MkSerialized encoded p.(prepared_method) body use_chunked_body);
  mret (started_upstream_response_from_plain_http1_forward handle r).

Definition start_default_upstream_response_via_plain_http1_sender_pool (r : DefaultUpstreamRequestSnapshot (M:=M))
    : starting StartedUpstreamResponse :=
  _ ← throw_if (negb services.(http1_sender_pool)) (Start MissingClient);
  '(host, port, authority) ← endpoint "default upstream host should be configured for plain http/1.1 forwarding"
     "default upstream port should be configured for plain http/1.1 forwarding"
     r.(snapshot_target_host_arc) r.(snapshot_target_port) r.(snapshot_target_authority);
  flow ← default_tls_flow;
  let t := http1_target r.(snapshot_target_scheme) authority host port r.(snapshot_target_plain_http1_pool_key) flow in
  template ← request_body_template;
  response ← forward_default r t template;
  mret (started_upstream_response_from_plain_http1_forward DEFAULT_UPSTREAM_EXCHANGE_HANDLE response).

Definition forward_native_default_upstream_http_via_sender_pool (r : DefaultUpstreamRequestSnapshot (M:=M))
    : starting OutboundHttp1ForwardResponse :=
  _ ← throw_if (negb services.(http1_sender_pool)) (Start MissingClient);
  template ← request_body_template;
  '(host, port, authority) ← endpoint "default upstream host should be configured" "default upstream port should be configured"
     r.(snapshot_target_host_arc) r.(snapshot_target_port) r.(snapshot_target_authority);
  flow ← default_tls_flow;
  let t := http1_target r.(snapshot_target_scheme) authority host port r.(snapshot_target_plain_http1_pool_key) flow in
  response ← forward_default r t template;
  _ ← mark_outbound_tcp_connected DEFAULT_UPSTREAM_EXCHANGE_HANDLE;
  _ ← (if bool_decide (r.(snapshot_target_scheme) = Https) then
         _ ← finalize_outbound_tls_handshake DEFAULT_UPSTREAM_EXCHANGE_HANDLE response.(forwarded_negotiated_alpn)
               response.(forwarded_peer_certificate_der);
         cache_outbound_tls_session DEFAULT_UPSTREAM_EXCHANGE_HANDLE response.(forwarded_negotiated_alpn)
               response.(forwarded_peer_certificate_der)
       else mret tt);
  mret response.

(** ** The response *)

Definition snapshot_of (s : StartedUpstreamResponse) : snapshot :=
  MkSnapshot s.(started_status) s.(started_headers) s.(started_version) (carrier_kind_of s.(started_carrier_ref))
    s.(started_carrier_ref) s.(started_body).

(** The end of every start: a response that was stored meanwhile is kept,
    unless the transport was attached. *)
Definition store_started (handle : Z) (attached : bool) (s : StartedUpstreamResponse) (latency_ms : Z) : starting snapshot :=
  with_exchange handle (
    e ← get_state;
    match attached, e.(response) with
    | false, Ready existing => mret existing
    | _, _ =>
        _ ← (if attached then modify (fun e => e <| transport := e.(transport) <| attached_transport := None |> |>) else mret tt);
        _ ← modify (store_response (snapshot_of s) latency_ms);
        _ ← on_started_transport (mark_response_ready s.(started_version) s.(started_carrier_ref));
        _ ← on_started_transport (set_peer_addr s.(started_peer_addr));
        mret (snapshot_of s)
    end).

(** ** The forwarded response of the default exchange *)

Definition set_native (r : option (result UpstreamResponseStartError OutboundHttp1ForwardResponse)) (active : bool) : starting unit :=
  modify (fun w => w <| native_forward := r |> <| native_active := active |>
                     <| context := w.(context) <| native_forward_response_ready := bool_decide (is_Some r) |> |>).

Definition materialize_native_default_upstream_forward_response (r : OutboundHttp1ForwardResponse) : starting snapshot :=
  let handle := DEFAULT_UPSTREAM_EXCHANGE_HANDLE in
  let s := started_upstream_response_from_plain_http1_forward handle r in
  g ← lock_exchanges;
  let stored := match g.(exchanges) !! handle with Some e => response_ready e | None => true end in
  snapshot ← store_started handle false s r.(forwarded_latency_ms);
  _ ← (if stored then mret tt else set_native None false);
  mret snapshot.

(** [take_or_start_native_default_upstream_forward_response] *)
Definition take_native : starting (option (result UpstreamResponseStartError OutboundHttp1ForwardResponse)) :=
  w ← get_state;
  _ ← set_native None w.(native_active);
  mret w.(native_forward).

(** Its error is dropped by [if let Ok(Some(..))]. *)
Definition try_materialize_ready_or_pending_native_default_upstream_forward_response : starting (option snapshot) :=
  r ← take_native;
  match r with
  | Some (Ok r) => s ← materialize_native_default_upstream_forward_response r; mret (Some s)
  | Some (Err _) | None => mret None
  end.

(** ** Which protocol *)

Definition use_http2 (m : HttpVersion.Http2UpstreamMode) : bool :=
  services.(http2_built) && negb (bool_decide (m = HttpVersion.Disabled)) && services.(http2_sessions).
Definition use_http3 (m : HttpVersion.Http3UpstreamMode) : bool :=
  services.(http3_built) && negb (bool_decide (m = HttpVersion.H3Disabled)) && services.(http3_sessions).

Definition modes (r : DefaultUpstreamRequestSnapshot (M:=M)) (flow : TlsFlow.TlsFlowState)
    : HttpVersion.Http2UpstreamMode * HttpVersion.Http3UpstreamMode :=
  (HttpVersion.select_http2_mode services.(http2_built) r.(snapshot_target_scheme) flow r.(snapshot_version_preference),
   HttpVersion.select_http3_mode services.(http3_built) r.(snapshot_target_scheme) flow r.(snapshot_version_preference)).

Definition outbound_http1_fast_path_eligible (preference : HttpVersionPreference)
    (has_target has_attached_transport has_plain_http1_sender_pool uses_http2 uses_http3 : bool) : bool :=
  has_target && negb has_attached_transport && has_plain_http1_sender_pool
    && (bool_decide (preference = Auto) || bool_decide (preference = Http1)) && negb uses_http2 && negb uses_http3.

Definition eligible (r : DefaultUpstreamRequestSnapshot (M:=M)) (flow : TlsFlow.TlsFlowState) : bool :=
  outbound_http1_fast_path_eligible r.(snapshot_version_preference) (bool_decide (is_Some r.(snapshot_target))) false
    services.(http1_sender_pool) (use_http2 (modes r flow).1) (use_http3 (modes r flow).2).

Definition start_default_upstream_plain_http1_fast_path : starting (option snapshot) :=
  e ← default_exchange;
  '(r, attached) ← or_start (snapshot_default_upstream_request e);
  if bool_decide (is_Some attached) then mret None
  else
    _ ← throw_if (bool_decide (r.(snapshot_target) = None)) (Start MissingTarget);
    flow ← default_tls_flow;
    if TlsFlow.requires_custom_client flow then mret None
    else if negb (eligible r flow) then mret None
    else
      response ← forward_native_default_upstream_http_via_sender_pool r;
      s ← materialize_native_default_upstream_forward_response response;
      mret (Some s).

(** The answer of a forward is stored, whether it is a response or an error. *)
Definition store_forward (m : starting OutboundHttp1ForwardResponse) : starting bool := fun w =>
  match m w with
  | (Ok response, w) => (_ ← set_native (Some (Ok response)) true; mret true) w
  | (Err (Start e), w) => (_ ← set_native (Some (Err e)) true; mret true) w
  | (Err fault, w) => (Err fault, w)
  end.

(** [start_native_default_upstream_http_forward_response]: the forward of a
    program that pipes the default exchange to the client. *)
Definition start_native_default_upstream_http_forward_response : starting bool :=
  w ← get_state;
  if bool_decide (is_Some w.(native_forward)) || w.(native_active) then mret true
  else
    e ← default_exchange;
    match snapshot_default_upstream_request e with
    | Err _ => mret false
    | Ok (r, attached) =>
        if bool_decide (is_Some attached) then mret false
        else
          flow ← default_tls_flow;
          if negb (eligible r flow) then mret false
          else
            w ← get_state;
            match native_default_upstream_request_body_mode w.(context).(request_head) e.(request) w.(inbound_body) with
            | BufferRemaining => mret false
            | _ =>
                _ ← await;
                _ ← await; store_forward (forward_native_default_upstream_http_via_sender_pool r)
            end
    end.

(** ** An attached transport *)

(** [take_dynamic_tcp_stream_for_http] and [take_dynamic_tls_stream_for_http];
    [kind] and [io] are their texts. *)
Definition take_stream (kind io : string) (ios : World -> gmap Z bool) (set_ios : gmap Z bool -> World -> World) (handle : Z)
    : starting unit :=
  t ← lock_transport;
  match t.(tcp_streams) !! handle with
  | None => throw (Start (Protocol ("dynamic " +:+ kind +:+ " handle " +:+ dec handle +:+ " is unavailable for http attachment")))
  | Some socket =>
      _ ← set_transport (fun t => t <| tcp_streams := <[handle := TcpSocket.mark_http_attached socket]> t.(tcp_streams) |>);
      w ← get_state;
      match ios w !! handle with
      | None => throw (Start (Protocol ("dynamic " +:+ kind +:+ " handle " +:+ dec handle +:+ " has no active " +:+ io)))
      | Some there =>
          _ ← modify (set_ios (delete handle (ios w)));
          _ ← await;
          throw_if (negb there) (Start (Protocol ("dynamic " +:+ kind +:+ " handle " +:+ dec handle +:+ " is already in use")))
      end
  end.
Definition take_dynamic_tcp_stream_for_http : Z -> starting unit :=
  take_stream "tcp stream" "transport" tcp_stream_ios (fun m w => w <| tcp_stream_ios := m |>).
Definition take_dynamic_tls_stream_for_http : Z -> starting unit :=
  take_stream "tls session" "plaintext transport" dynamic_tls_session_ios (fun m w => w <| dynamic_tls_session_ios := m |>).

(** The address of the socket's peer, when there is one. *)
Definition peer_of (handle : Z) : starting (option string) :=
  t ← lock_transport;
  mret (match t.(tcp_streams) !! handle with
        | Some socket => let p := TcpSocket.peer_address socket in if is_empty p then None else Some p
        | None => None
        end).

Definition request_path_with_query (path query : string) : string := if is_empty query then path else path +:+ "?" +:+ query.

(** [start_upstream_response_via_attached_http1] *)
Definition via_attached_http1 (handle : Z) (p : PreparedUpstreamRequest (M:=M)) (t : AttachedHttpTransport) (hs : M)
    (body : OutboundHttp1RequestBody) (content_length : option Z) : starting StartedUpstreamResponse :=
  let hs := foldl (fun m e => hm_insert e.1 e.2 m) hm_new (hm_iter hs) in
  let hs := match content_length with Some n => hm_insert "content-length" (bytes_of_string (dec n)) hs | None => hs end in
  r ← send ByAttached body (request_attached t p.(prepared_method) (request_path_with_query p.(prepared_path) p.(prepared_query)) hs body);
  r ← or_start r;
  mret (MkStarted r.(status) r.(headers_of) r.(version) (carrier_of handle) None (Some TlsFlow.HTTP11_ALPN_PROTOCOL) None
          (r.(into_body) (Http1Upstream.header_content_length r.(headers_of)))).

Definition start_upstream_response_via_attached_transport (handle : Z) (p : PreparedUpstreamRequest (M:=M)) (hs : M)
    (body : OutboundHttp1RequestBody) (content_length : option Z) : starting StartedUpstreamResponse :=
  _ ← throw_if (bool_decide (p.(prepared_version_preference) = Http3))
        (Start (Protocol "http3 cannot use an attached tcp or tls plaintext transport"));
  match p.(prepared_attached_transport) with
  | Some (AttachedTcp stream) =>
      _ ← throw_if (bool_decide (p.(prepared_target_scheme) = Https))
            (Start (Protocol "attached tcp transports cannot be used with https targets; attach a tls plaintext transport instead"));
      _ ← take_dynamic_tcp_stream_for_http stream;
      started ← via_attached_http1 handle p (AttachedTcp stream) hs body content_length;
      peer ← peer_of stream;
      mret (started <| started_peer_addr := peer |>)
  | Some (AttachedTls session) =>
      _ ← take_dynamic_tls_stream_for_http session;
      started ← via_attached_http1 handle p (AttachedTls session) hs body content_length;
      t ← lock_transport;
      let flow := t.(dynamic_tls_sessions) !! session in
      peer ← peer_of session;
      mret (started <| started_negotiated_alpn := flow ≫= TlsFlow.alpn |>
                    <| started_peer_certificate_der := flow ≫= TlsFlow.peer_certificate_der |>
                    <| started_peer_addr := peer |>)
  | None => throw (Start (Protocol "attached transport is unavailable"))
  end.

(** The milliseconds since [since]. *)
Definition elapsed (since : Z) : starting Z :=
  w ← get_state; mret (Z.min (Z.max 0 (clock_ms w.(network) - since)) U64_MAX).
Definition now : starting Z := w ← get_state; mret (clock_ms w.(network)).

Definition start_attached (handle : Z) (p : PreparedUpstreamRequest (M:=M)) (hs : M) : starting snapshot :=
  template ← (if handle =? DEFAULT_UPSTREAM_EXCHANGE_HANDLE then request_body_template
              else l ← resolved_body handle; mret (bytes_template l));
  body ← body_from_default_upstream_template template;
  started_at ← now;
  started ← start_upstream_response_via_attached_transport handle p hs body (template_length template);
  _ ← mark_outbound_tcp_connected handle;
  latency_ms ← elapsed started_at;
  store_started handle true started latency_ms.

(** ** HTTP/3, HTTP/2, HTTP/1 *)

Definition http2_request (handle : Z) (p : PreparedUpstreamRequest (M:=M)) (host : string) (port : Z) (hs : M) (present : bool)
    : Http2Send.Http2SendRequest (M:=M) :=
  Http2Send.MkSend handle host port p.(prepared_target_host_header) p.(prepared_path) p.(prepared_query) p.(http2_mode)
    p.(prepared_tls_flow) p.(prepared_method) hs present.

Definition start_upstream_response_via_http2 (handle : Z) (p : PreparedUpstreamRequest (M:=M)) (hs : M)
    (template : NativeDefaultUpstreamRequestBodyTemplate)
    : starting (result Http2Session.Http2RequestError StartedUpstreamResponse) :=
  body ← body_from_default_upstream_template template;
  match p.(prepared_target_host), p.(prepared_target_port) with
  | Some host, Some port =>
      r ← send ByHttp2 body (request_http2 p.(prepared_target_scheme) (http2_request handle p host port hs (body_present template)) body);
      mret (match r with
            | Ok s =>
                let r := s.(Http2Send.response) in
                Ok (MkStarted r.(status) r.(headers_of) r.(version) (UpstreamHttp2Stream s.(Http2Send.stream_ref))
                      s.(Http2Send.started_peer_addr) s.(Http2Send.started_negotiated_alpn)
                      s.(Http2Send.started_peer_certificate_der)
                      (r.(into_body) (Http1Upstream.header_content_length r.(headers_of))))
            | Err e => Err e
            end)
  | _, _ => throw Panicked
  end.

Definition http3_body (template : NativeDefaultUpstreamRequestBodyTemplate) (body : OutboundHttp1RequestBody) : Http3Send.Http3RequestBody :=
  match template, body with
  | TemplateStreaming _, Streaming _ items =>
      Http3Send.Streaming ((fun c => match c with Ok l => Ok l | Err e => Err (vm_error_display e) end) <$> items)
  | TemplateBytes l, _ => Http3Send.Bytes l
  | _, _ => Http3Send.Empty
  end.

Definition start_upstream_response_via_http3 (handle : Z) (p : PreparedUpstreamRequest (M:=M)) (url : string) (hs : M)
    (template : NativeDefaultUpstreamRequestBodyTemplate)
    : starting (result Http3Pool.Http3RequestError StartedUpstreamResponse) :=
  body ← body_from_default_upstream_template template;
  match p.(prepared_target_host), p.(prepared_target_port) with
  | Some host, Some port =>
      let mode := if bool_decide (p.(http3_mode) = HttpVersion.Preferred) then Http3Pool.Preferred else Http3Pool.NotPreferred in
      r ← send ByHttp3 body (request_http3
            (Http3Send.MkOptions handle p.(prepared_target_scheme) host port p.(prepared_target_host_header) url p.(prepared_method) hs
               (http3_body template body) p.(prepared_tls_flow) mode) body);
      mret (match r with
            | Ok s =>
                let r := s.(Http3Send.response) in
                Ok (MkStarted r.(status) r.(headers_of) r.(version) (UpstreamHttp3Stream s.(Http3Send.stream_ref))
                      s.(Http3Send.started_peer_addr) s.(Http3Send.started_negotiated_alpn)
                      s.(Http3Send.started_peer_certificate_der)
                      (r.(into_body) (Http1Upstream.header_content_length r.(headers_of))))
            | Err e => Err e
            end)
  | _, _ => throw Panicked
  end.

(** A failure is noted on the TLS flow and passed on. *)
Definition noting_failure {A} (handle : Z) (m : starting A) : starting A := fun w =>
  match m w with
  | (Err (Start e), w) => (Err (Start e), (note_outbound_tls_failure handle w).2)
  | r => r
  end.
Definition failed_while_evaluating (handle : Z) (message : string) : start_fault :=
  Start (UpstreamRequestFailed ("outbound exchange " +:+ dec handle +:+ " failed while evaluating host call: " +:+ message)).

(** The last resort: the default exchange's request is taken anew. *)
Definition start_http1 (handle : Z) (p : PreparedUpstreamRequest (M:=M)) (template : NativeDefaultUpstreamRequestBodyTemplate)
    : starting StartedUpstreamResponse :=
  if handle =? DEFAULT_UPSTREAM_EXCHANGE_HANDLE then
    e ← default_exchange;
    '(r, _) ← or_start (snapshot_default_upstream_request e);
    noting_failure handle (start_default_upstream_response_via_plain_http1_sender_pool r)
  else
    let body := match template with TemplateBytes l => l | _ => [] end in
    noting_failure handle (start_upstream_response_via_plain_http1_sender_pool handle p body).

Definition start_http2 (handle : Z) (p : PreparedUpstreamRequest (M:=M)) (hs : M) (template : NativeDefaultUpstreamRequestBodyTemplate)
    : starting StartedUpstreamResponse :=
  r ← start_upstream_response_via_http2 handle p hs template;
  match r with
  | Ok started => mret started
  | Err (Http2Session.FallbackToHttp1 _) => start_http1 handle p template
  | Err e => noting_failure handle (throw (failed_while_evaluating handle (Http2Session.into_message e)))
  end.

Definition start_http3 (handle : Z) (p : PreparedUpstreamRequest (M:=M)) (url : string) (hs : M)
    (template : NativeDefaultUpstreamRequestBodyTemplate) : starting StartedUpstreamResponse :=
  r ← start_upstream_response_via_http3 handle p url hs template;
  match r with
  | Ok started => mret started
  | Err (Http3Pool.FallbackToHttp2 _) =>
      if use_http2 p.(http2_mode) then start_http2 handle p hs template else start_http1 handle p template
  | Err e => noting_failure handle (throw (failed_while_evaluating handle (Http3Send.into_message e)))
  end.

(** The body that is prepared for the attempts: the default exchange's over
    HTTP/1 alone is resolved, and taken again as a template then. *)
Definition prepare_body (handle : Z) (explicit : bool) : starting NativeDefaultUpstreamRequestBodyTemplate :=
  if (handle =? DEFAULT_UPSTREAM_EXCHANGE_HANDLE) && explicit then request_body_template
  else l ← resolved_body handle; mret (bytes_template l).

Definition supports_response_version (version : string) : bool := bool_decide (version = "3").

Definition start_prepared (handle : Z) (p : PreparedUpstreamRequest (M:=M)) (url : string) (hs : M) : starting snapshot :=
  complete ← outbound_tls_handshake_complete handle;
  _ ← (if (complete : bool) then (mret tt : starting unit) else note_outbound_tls_prepared handle);
  started_at ← now;
  let h3 := use_http3 p.(http3_mode) in
  let h2 := use_http2 p.(http2_mode) in
  template ← prepare_body handle (h3 || h2);
  started ← ((if h3 then start_http3 handle p url hs template
             else if h2 then start_http2 handle p hs template
             else start_http1 handle p template) : starting StartedUpstreamResponse);
  _ ← (if (complete : bool) then (mret tt : starting unit)
       else
         _ ← finalize_outbound_tls_handshake handle started.(started_negotiated_alpn) started.(started_peer_certificate_der);
         cache_outbound_tls_session handle started.(started_negotiated_alpn) started.(started_peer_certificate_der));
  _ ← (if supports_response_version started.(started_version) then (mret tt : starting unit) else mark_outbound_tcp_connected handle);
  latency_ms ← elapsed started_at;
  store_started handle false started latency_ms.

Definition prepared_request (handle : Z) : starting (PreparedUpstreamRequest (M:=M)) :=
  g ← lock_exchanges;
  t ← lock_transport;
  w ← get_state;
  match handle =? DEFAULT_UPSTREAM_EXCHANGE_HANDLE, g.(exchanges) !! handle with
  | true, None => throw Panicked
  | _, e => or_start (prepared_outbound_exchange_request services.(http2_built) services.(http3_built) w.(context).(request_head) t handle e)
  end.

(** After the shortcuts of the default exchange. *)
Definition start_explicitly (handle : Z) : starting snapshot :=
  p ← prepared_request handle;
  let '(url, host_header) := build_configured_upstream_url p.(prepared_target) p.(prepared_target_inherits_request_path)
                               p.(prepared_target_host_header) p.(prepared_path) p.(prepared_query) in
  let hs := filtered_upstream_headers p.(prepared_headers) host_header in
  if bool_decide (is_Some p.(prepared_attached_transport)) then start_attached handle p hs
  else start_prepared handle p url hs.

(** The default exchange: a forwarded response that waits, or the fast path. *)
Definition start_default_shortcuts (handle : Z) : starting (option snapshot) :=
  if negb (handle =? DEFAULT_UPSTREAM_EXCHANGE_HANDLE) then mret None
  else
    forwarded ← try_materialize_ready_or_pending_native_default_upstream_forward_response;
    match forwarded with
    | Some s => mret (Some s)
    | None => start_default_upstream_plain_http1_fast_path
    end.

Definition start_outbound_exchange_response (handle : Z) : starting snapshot :=
  stored ← with_exchange handle (e ← get_state; mret e.(response));
  match stored with
  | Ready s => mret s
  | NotStarted =>
      shortcut ← start_default_shortcuts handle;
      match shortcut with
      | Some s => mret s
      | None => start_explicitly handle
      end
  end.

(** ** Running a start

    While a start of [handle] waits, the other tasks keep the registry well
    formed and the exchanges that there are, keep a response that is stored in
    [handle], and attach no transport to it.  Of the other exchanges they keep
    [Ro]. *)
Definition regs (w : World) : ExchangeRegistry (M:=M) (B:=B) := seed_exchanges w.(context).(registry).
Definition exchange_of (w : World) (k : Z) : option exchange_state := (regs w).(exchanges) !! k.

Definition kept (e e' : exchange_state) : Prop :=
  (forall s, e.(response) = Ready s -> e'.(response) = Ready s)
  /\ (e.(transport).(attached_transport) = None -> e'.(transport).(attached_transport) = None).

Definition guar (handle : Z) (Ro : relation exchange_state) (w w' : World) : Prop :=
  (registry_ok (regs w) -> registry_ok (regs w'))
  /\ forall k e, exchange_of w k = Some e ->
       exists e', exchange_of w' k = Some e' /\ if decide (k = handle) then kept e e' else Ro e e'.

Record rely (handle : Z) (Ro : relation exchange_state) : Prop := {
  rely_others w : guar handle Ro w (others w);
  rely_attempts w : (others w).(attempts) = w.(attempts);
}.

(** What a start needs of a world. *)
Record startable (handle : Z) (w : World) : Prop := {
  registry_fine : registry_ok (regs w);
  has_handle : is_Some (exchange_of w handle);
  unattached e : exchange_of w handle = Some e -> e.(transport).(attached_transport) = None;
}.

(** The part of a world that most steps leave alone. *)
Definition same_view (w w' : World) : Prop :=
  w'.(attempts) = w.(attempts) /\ w'.(inbound_body) = w.(inbound_body)
  /\ w'.(context).(request_head) = w.(context).(request_head)
  /\ forall k, request <$> exchange_of w' k = request <$> exchange_of w k.

Lemma kept_refl e : kept e e.
Proof. by split. Qed.
Lemma kept_trans e1 e2 e3 : kept e1 e2 -> kept e2 e3 -> kept e1 e3.
Proof. intros [] []. split; auto. Qed.
Lemma same_view_refl w : same_view w w.
Proof. done. Qed.
Lemma regs_seeded w : seed_exchanges (regs w) = regs w.
Proof. apply seed_exchanges_idemp. Qed.

Section running.
Context (handle : Z) (Ro : relation exchange_state) `{HRo : !PreOrder Ro} (Hrely : rely handle Ro).

Lemma guar_refl w : guar handle Ro w w.
Proof. split; [done|]. intros k e He. exists e. split; [done|]. case_decide; [apply kept_refl|reflexivity]. Qed.
Lemma guar_trans w1 w2 w3 : guar handle Ro w1 w2 -> guar handle Ro w2 w3 -> guar handle Ro w1 w3.
Proof.
  intros [Hr H1] [Hr' H2]. split; [auto|]. intros k e He. destruct (H1 k e He) as (e' & He' & Hk).
  destruct (H2 k e' He') as (e'' & He'' & Hk'). exists e''. split; [done|].
  case_decide; [by eapply kept_trans|by etransitivity].
Qed.
Lemma startable_guar w w' : guar handle Ro w w' -> startable handle w -> startable handle w'.
Proof.
  intros [Hr Hg] [H1 [e He] H3]. destruct (Hg handle e He) as (e' & He' & Hk). rewrite decide_True in Hk by done.
  split; [auto|by exists e'|]. intros e2 He2. assert (e2 = e') as -> by congruence. destruct Hk as [_ Hk]. apply Hk. by apply H3.
Qed.
(** A change of nothing but what exchanges do not see. *)
Lemma guar_same w w' : regs w' = regs w -> guar handle Ro w w'.
Proof. intros Hr. unfold guar, exchange_of. rewrite Hr. apply guar_refl. Qed.
Lemma same_view_frame w w' :
  regs w' = regs w -> w'.(attempts) = w.(attempts) -> w'.(inbound_body) = w.(inbound_body)
  -> w'.(context).(request_head) = w.(context).(request_head) -> same_view w w'.
Proof. intros Hr ???. unfold same_view, exchange_of. by rewrite Hr. Qed.

(** [base] are the attempts made before; [carries] is what a body that is
    handed to a sender has to be. *)
Context (base : list (protocol * OutboundHttp1RequestBody)) (carries : OutboundHttp1RequestBody -> Prop).

Definition tried (L : list protocol) (w : World) : Prop :=
  exists l, w.(attempts) = base ++ l /\ l.*1 `sublist_of` L /\ Forall carries l.*2.
Definition all_protocols : list protocol := [ByHttp3; ByHttp2; ByHttp1].

Record stable (P : World -> Prop) : Prop := {
  stable_others w : startable handle w -> P w -> P (others w);
  stable_view w w' : same_view w w' -> P w -> P w';
  stable_tried w : P w -> tried all_protocols w;
}.

(** From a startable world in which [P] holds, [m] ends; a fault is an error
    that the code returns, and a result satisfies [Q]. *)
Definition runs (P : World -> Prop) {A} (m : starting A) (Q : A -> World -> Prop) : Prop :=
  forall w, startable handle w -> P w ->
    let '(r, w') := m w in guar handle Ro w w' /\
    match r with Ok a => Q a w' | Err (Start _) => tried all_protocols w' | Err _ => False end.
Definition unseen {A} (m : starting A) : Prop := forall P, stable P -> runs P m (fun _ => P).

Lemma runs_ret (P : World -> Prop) {A} (a : A) (Q : A -> World -> Prop) : (forall w, P w -> Q a w) -> runs P (mret a) Q.
Proof. intros HQ w _ HP. split; [apply guar_refl|by apply HQ]. Qed.
Lemma runs_bind (P : World -> Prop) {A C} (m : starting A) (f : A -> starting C) R Q :
  runs P m R -> (forall a, runs (R a) (f a) Q) -> runs P (m ≫= f) Q.
Proof.
  intros Hm Hf w Hw HP. unfold mbind, eff_bind. specialize (Hm w Hw HP). destruct (m w) as [[a|e] w1]; [|done].
  destruct Hm as [Hg HR]. specialize (Hf a w1 (startable_guar _ _ Hg Hw) HR). destruct (f a w1) as [r w2].
  destruct Hf as [Hg' HQ]. split; [by eapply guar_trans|done].
Qed.
Lemma runs_weaken (P P' : World -> Prop) {A} (m : starting A) (Q Q' : A -> World -> Prop) :
  runs P' m Q' -> (forall w, P w -> P' w) -> (forall a w, Q' a w -> Q a w) -> runs P m Q.
Proof. intros Hm HP HQ w Hw H'. specialize (Hm w Hw (HP w H')). destruct (m w) as [[a|[]] w']; naive_solver. Qed.
Lemma runs_fact (P : World -> Prop) (F : Prop) {A} (m : starting A) Q : (F -> runs P m Q) -> runs (fun w => P w /\ F) m Q.
Proof. intros Hm w Hw [HP HF]. by apply Hm. Qed.
Lemma runs_throw (P : World -> Prop) {A} e (Q : A -> World -> Prop) : (forall w, P w -> tried all_protocols w) -> runs P (throw (Start e)) Q.
Proof. intros HP w _ H'. split; [apply guar_refl|by apply HP]. Qed.
Lemma runs_get (P : World -> Prop) : runs P get_state (fun w0 w => P w /\ w0 = w).
Proof. intros w _ HP. by split; [apply guar_refl|]. Qed.

Lemma unseen_ret {A} (a : A) : unseen (mret a).
Proof. intros P HP. by apply runs_ret. Qed.
Lemma unseen_throw {A} e : unseen (throw (A:=A) (Start e)).
Proof. intros P HP. apply runs_throw, HP. Qed.
Lemma unseen_bind {A C} (m : starting A) (f : A -> starting C) : unseen m -> (forall a, unseen (f a)) -> unseen (m ≫= f).
Proof. intros Hm Hf P HP. eapply runs_bind; [by apply Hm|]. intros a. by apply Hf. Qed.
Lemma unseen_get : unseen get_state.
Proof. intros P HP. eapply runs_weaken; [apply runs_get|done|]. by intros ?? []. Qed.
Lemma unseen_await : unseen await.
Proof. intros P HP w Hw H'. split; [apply (rely_others _ _ Hrely)|by apply HP]. Qed.
Lemma unseen_or_start {A} (r : result UpstreamResponseStartError A) : unseen (or_start r).
Proof. destruct r; [apply unseen_ret|apply unseen_throw]. Qed.
Lemma unseen_throw_if b e : unseen (throw_if b (Start e)).
Proof. destruct b; [apply unseen_throw|apply unseen_ret]. Qed.
Lemma unseen_modify f : (forall w, regs (f w) = regs w /\ (f w).(attempts) = w.(attempts) /\ (f w).(inbound_body) = w.(inbound_body)
    /\ (f w).(context).(request_head) = w.(context).(request_head)) -> unseen (modify f).
Proof.
  intros Hf P HP w Hw H'. destruct (Hf w) as (Hr & ? & ? & ?). split; [by apply guar_same|].
  eapply (stable_view P HP); [|exact H']. by apply same_view_frame.
Qed.
Lemma runs_or_start (P : World -> Prop) {A} (r : result UpstreamResponseStartError A) :
  stable P -> runs P (or_start r) (fun a w => P w /\ r = Ok a).
Proof. intros HP. destruct r; [by apply runs_ret|by apply runs_throw, HP]. Qed.

(** *** The locks *)

Lemma lock_exchanges_run w : exists w', lock_exchanges w = (Ok (regs w), w') /\ regs w' = regs w /\ same_view w w'
  /\ (regs w').(exchanges) = w'.(context).(registry).(exchanges) /\ initialized_from_request w'.(context).(registry) = true.
Proof.
  set (w' := w <| context := w.(context) <| registry := regs w |> |>). exists w'.
  assert (Hr : regs w' = regs w) by (unfold w', regs at 1; cbn; apply regs_seeded).
  split_and!; [done|done|by apply same_view_frame|by rewrite Hr|apply seeded_initialized].
Qed.
Lemma runs_lock_exchanges P : stable P -> runs P lock_exchanges (fun g w => P w /\ g = regs w).
Proof.
  intros HP w Hw H'. destruct (lock_exchanges_run w) as (w' & -> & Hr & Hv & _). split; [by apply guar_same|].
  split; [by eapply (stable_view P HP)|done].
Qed.
Lemma unseen_lock_exchanges : unseen lock_exchanges.
Proof. intros P HP. eapply runs_weaken; [by apply runs_lock_exchanges|done|]. by intros ?? []. Qed.
Lemma unseen_lock_transport : unseen lock_transport.
Proof.
  apply unseen_bind; [by apply unseen_modify|]. intros _. apply unseen_bind; [apply unseen_get|]. intros ?. apply unseen_ret.
Qed.
Lemma unseen_set_transport f : unseen (set_transport f).
Proof. apply unseen_bind; [apply unseen_lock_transport|]. intros _. by apply unseen_modify. Qed.

Lemma runs_default_exchange P :
  stable P -> runs P default_exchange (fun e w => P w /\ exchange_of w DEFAULT_UPSTREAM_EXCHANGE_HANDLE = Some e).
Proof.
  intros HP. unfold default_exchange. eapply runs_bind; [by apply runs_lock_exchanges|]. intros g w Hw [H' ->].
  assert (Hd : is_Some (exchange_of w DEFAULT_UPSTREAM_EXCHANGE_HANDLE)) by (apply (handles _ (registry_fine _ _ Hw)); by left).
  destruct Hd as [e He]. unfold exchange_of in He. rewrite He. split; [apply guar_refl|done].
Qed.
Lemma unseen_default_exchange : unseen default_exchange.
Proof. intros P HP. eapply runs_weaken; [by apply runs_default_exchange|done|]. by intros ?? []. Qed.

(** A change of [handle]'s exchange that leaves its request alone. *)
Definition fine_change {A} (m : eff start_fault exchange_state A) (R : A -> exchange_state -> Prop) : Prop := forall e,
  (m e).2.(request) = e.(request) /\ kept e (m e).2 /\
  match (m e).1 with Ok a => R a (m e).2 | Err f => exists x, f = Start x end.

Lemma runs_with_exchange P {A} (m : eff start_fault exchange_state A) R :
  stable P -> fine_change m R ->
  runs P (with_exchange handle m) (fun a w => P w /\ exists e, exchange_of w handle = Some e /\ R a e).
Proof.
  intros HP Hm w Hw H'. unfold with_exchange, mbind, eff_bind.
  destruct (lock_exchanges_run w) as (w1 & -> & Hr & Hv & Hex & Hi). destruct (has_handle _ _ Hw) as [e He].
  unfold exchange_of in He. rewrite He. specialize (Hm e). destruct (m e) as [r e']. cbn in Hm. destruct Hm as (Hreq & Hk & Hres).
  set (w2 := w1 <| context := _ |>).
  assert (Hr2 : (regs w2).(exchanges) = <[handle := e']> (regs w).(exchanges)).
  { unfold w2, regs at 1. cbn. rewrite seed_initialized by done. cbn. by rewrite <-Hex, Hr. }
  assert (Hok : registry_ok (regs w) -> registry_ok (regs w2)).
  { intros Hok. pose proof (registry_ok_insert (regs w) handle e' Hok) as Hins.
    assert (Heq : regs w2 = regs w <| exchanges := <[handle := e']> (regs w).(exchanges) |>).
    { unfold w2, regs at 1. cbn. rewrite seed_initialized by done. cbn. unfold regs in Hr.
      rewrite (seed_initialized _ Hi) in Hr. by rewrite Hr. }
    rewrite Heq. apply Hins; [by eexists|]. rewrite Hreq. by apply (requests_ok _ Hok _ _ He). }
  assert (Hg : guar handle Ro w w2).
  { split; [exact Hok|]. intros k x. unfold exchange_of. rewrite Hr2. case_decide as Hkh.
    - subst k. rewrite lookup_insert_eq. intros Hx. exists e'. split; [done|]. assert (x = e) as -> by congruence. done.
    - rewrite lookup_insert_ne by done. intros Hx. exists x. by split. }
  assert (Hv2 : same_view w w2).
  { destruct Hv as (Ha & Hb & Hc & _). split_and!; [done..|]. intros k. unfold exchange_of. rewrite Hr2.
    destruct (decide (handle = k)) as [->|Hkh]; [rewrite lookup_insert_eq, He; cbn; by rewrite Hreq|by rewrite lookup_insert_ne]. }
  split; [done|]. destruct r as [a|f].
  - split; [by eapply (stable_view P HP)|]. exists e'. unfold exchange_of. by rewrite Hr2, lookup_insert_eq.
  - destruct Hres as [x ->]. apply (stable_tried P HP). by eapply (stable_view P HP).
Qed.
Lemma unseen_with_exchange {A} (m : eff start_fault exchange_state A) : fine_change m (fun _ _ => True) -> unseen (with_exchange handle m).
Proof. intros Hm P HP. eapply runs_weaken; [by apply runs_with_exchange|done|]. by intros ?? []. Qed.

(** *** What is noted *)

Lemma unseen_tls_flow {A} (mutate : TlsFlow.TlsFlowState -> A * TlsFlow.TlsFlowState) : unseen (with_outbound_tls_flow_mut handle mutate).
Proof.
  unfold with_outbound_tls_flow_mut. destruct (_ =? _).
  - apply unseen_bind; [apply unseen_lock_transport|]. intros t. destruct (mutate _) as [a flow].
    apply unseen_bind; [apply unseen_set_transport|]. intros _. apply unseen_ret.
  - apply unseen_with_exchange. intros e. destruct (mutate _) as [a flow]. by split_and!.
Qed.
Lemma unseen_finalize alpn certificate : unseen (finalize_outbound_tls_handshake handle alpn certificate).
Proof. apply unseen_bind; [apply unseen_tls_flow|]. intros r. apply unseen_or_start. Qed.
Lemma unseen_cache alpn certificate : unseen (cache_outbound_tls_session handle alpn certificate).
Proof.
  unfold cache_outbound_tls_session. destruct (negb _); [apply unseen_ret|]. apply unseen_bind.
  - destruct (_ =? _).
    + apply unseen_bind; [apply unseen_lock_exchanges|]. intros g. destruct (match _ !! _ with Some _ => _ | None => _ end) as [[? ?] ?].
      apply unseen_bind; [apply unseen_lock_transport|]. intros t. apply unseen_ret.
    + apply unseen_with_exchange. intros e. by split_and!.
  - intros [[[sch host] port] flow]. destruct host, port; try apply unseen_ret.
    destruct (TlsFlow.tls_session_cache_key _ _ _ _ _ _); [by apply unseen_modify|apply unseen_ret].
Qed.
Lemma unseen_connected : unseen (mark_outbound_tcp_connected handle).
Proof.
  unfold mark_outbound_tcp_connected. destruct (_ =? _); [apply unseen_set_transport|]. apply unseen_with_exchange. intros e. by split_and!.
Qed.
Lemma unseen_elapsed since : unseen (elapsed since).
Proof. apply unseen_bind; [apply unseen_get|]. intros w. apply unseen_ret. Qed.
Lemma unseen_now : unseen now.
Proof. apply unseen_bind; [apply unseen_get|]. intros w. apply unseen_ret. Qed.
Lemma unseen_endpoint a b host port authority : unseen (endpoint a b host port authority).
Proof. repeat first [apply unseen_bind; [apply unseen_or_start|intros ?]|apply unseen_ret]. Qed.
Lemma unseen_default_flow : unseen default_tls_flow.
Proof. apply unseen_bind; [apply unseen_lock_transport|]. intros t. apply unseen_ret. Qed.
Lemma unseen_set_native r active : unseen (set_native r active).
Proof. by apply unseen_modify. Qed.

(** A failure is noted, and passed on. *)
Lemma runs_noting_failure P {A} (m : starting A) Q :
  stable (tried all_protocols) -> runs P m Q -> runs P (noting_failure handle m) Q.
Proof.
  intros Ht Hm w Hw HP. unfold noting_failure. specialize (Hm w Hw HP).
  destruct (m w) as [[a|[e| |]] w1]; [done| |done|done]. destruct Hm as [Hg Hr].
  pose proof (unseen_tls_flow (fun f => (tt, TlsFlow.mark_failed f)) _ Ht w1 (startable_guar _ _ Hg Hw) Hr) as Hn.
  unfold note_outbound_tls_failure. destruct (with_outbound_tls_flow_mut _ _ w1) as [[[]|[]] w2]; cbn in Hn |- *;
    destruct Hn as [Hg' Hn]; try done; (split; [by eapply guar_trans|done]).
Qed.

(** *** The response *)

(** A response that is stored is what the start returns. *)
Definition stored (s : snapshot) (w : World) : Prop := exists e, exchange_of w handle = Some e /\ e.(response) = Ready s.

Lemma store_fine s latency_ms : fine_change
  (e ← get_state;
   match false, e.(response) with
   | false, Ready existing => mret existing
   | _, _ =>
       _ ← (if false then modify (fun e => e <| transport := e.(transport) <| attached_transport := None |> |>) else mret tt);
       _ ← modify (store_response (snapshot_of s) latency_ms);
       _ ← on_started_transport (mark_response_ready s.(started_version) s.(started_carrier_ref));
       _ ← on_started_transport (set_peer_addr s.(started_peer_addr));
       mret (snapshot_of s)
   end) (fun a e => e.(response) = Ready a).
Proof.
  intros e. unfold mbind, eff_bind, get_state. destruct (response e) eqn:He; cbn.
  - split_and!; [done| |done]. split; [|done]. intros x Hx. congruence.
  - split_and!; [done|apply kept_refl|done].
Qed.
Lemma runs_store P s latency_ms :
  stable P -> runs P (store_started handle false s latency_ms) (fun a w => P w /\ stored a w).
Proof. intros HP. apply runs_with_exchange; [done|apply store_fine]. Qed.

(** *** Bodies

    [body_inv] is what is known of the client's body, and [fits] of a template
    that was made of it; both are about the body, the head and the requests. *)
Definition same_source (w w' : World) : Prop :=
  w'.(inbound_body) = w.(inbound_body) /\ w'.(context).(request_head) = w.(context).(request_head)
  /\ forall k, request <$> exchange_of w' k = request <$> exchange_of w k.

Record body_laws (body_inv : World -> Prop) (fits : NativeDefaultUpstreamRequestBodyTemplate -> World -> Prop) : Prop := {
  inv_others w : startable handle w -> body_inv w -> body_inv (others w);
  fits_others t w : startable handle w -> body_inv w -> fits t w -> fits t (others w);
  inv_source w w' : same_source w w' -> body_inv w -> body_inv w';
  fits_source t w w' : same_source w w' -> fits t w -> fits t w';
  template_fits w e : handle = DEFAULT_UPSTREAM_EXCHANGE_HANDLE -> body_inv w -> exchange_of w handle = Some e ->
    exists r b, default_upstream_outbound_http1_request_body_template vm_error_display w.(context).(request_head) e.(request) w.(inbound_body)
      = Some (r, b) /\
    match r with Ok t => body_inv (w <| inbound_body := b |>) /\ fits t (w <| inbound_body := b |>) | Err _ => True end;
  resolved_fits w : body_inv w -> is_Some (exchange_of w handle) ->
    exists r b, resolve_outbound_exchange_body handle w.(context).(request_head) (exchange_of w handle) w.(inbound_body) = Some (r, b) /\
    match r with
    | Ok l => body_inv (w <| inbound_body := b |>) /\ fits (bytes_template l) (w <| inbound_body := b |>)
    | Err f => exists e, f = Fail e
    end;
  fits_carries t w : body_inv w -> fits t w ->
    match t with
    | TemplateStreaming n => exists items b d,
        stream_remaining_inbound_request_body vm_error_display (stream_fuel w.(inbound_body)) w.(inbound_body) w.(downstream_transport)
        = Some (items, b, d) /\ carries (Streaming n items)
    | _ => carries (body_of_template t [])
    end;
  fits_again t w : handle ≠ DEFAULT_UPSTREAM_EXCHANGE_HANDLE -> fits t w ->
    carries (body_of_template (bytes_template (match t with TemplateBytes l => l | _ => [] end)) []);
}.

Context (body_inv : World -> Prop) (fits : NativeDefaultUpstreamRequestBodyTemplate -> World -> Prop)
  (Hbody : body_laws body_inv fits).

Definition src (L : list protocol) (w : World) : Prop := tried L w /\ body_inv w.
Definition tmpl (L : list protocol) (t : NativeDefaultUpstreamRequestBodyTemplate) (w : World) : Prop :=
  tried L w /\ body_inv w /\ fits t w.

Lemma source_of_view w w' : same_view w w' -> same_source w w'.
Proof. by intros (_ & ? & ? & ?). Qed.
Lemma tried_sub L L' w : L `sublist_of` L' -> tried L w -> tried L' w.
Proof. intros Hs (l & ? & ? & ?). exists l. split_and!; [done|by etransitivity|done]. Qed.
Lemma stable_tried_sub L : L `sublist_of` all_protocols -> stable (tried L).
Proof.
  intros HL. split.
  - intros w _ (l & Ha & Hl). exists l. by rewrite (rely_attempts _ _ Hrely).
  - intros w w' (Hw & _) (l & Ha & Hl). exists l. by rewrite Hw.
  - intros w. by apply tried_sub.
Qed.
Lemma stable_src L : L `sublist_of` all_protocols -> stable (src L).
Proof.
  intros HL. destruct (stable_tried_sub L HL) as [Ho Hv Ht]. split.
  - intros w Hw []. split; [by apply Ho|by apply (inv_others _ _ Hbody)].
  - intros w w' Hw []. split; [by eapply Hv|eapply (inv_source _ _ Hbody); [by apply source_of_view|done]].
  - intros w [? _]. by apply Ht.
Qed.
Lemma stable_tmpl L t : L `sublist_of` all_protocols -> stable (tmpl L t).
Proof.
  intros HL. destruct (stable_src L HL) as [Ho Hv Ht]. split.
  - intros w Hw (H1 & H2 & H3). destruct (Ho w Hw (conj H1 H2)). split_and!; [done..|by apply (fits_others _ _ Hbody)].
  - intros w w' Hw (H1 & H2 & H3). destruct (Hv w w' Hw (conj H1 H2)). split_and!; [done..|].
    eapply (fits_source _ _ Hbody); [by apply source_of_view|done].
  - intros w (H1 & H2 & _). by apply Ht.
Qed.

Lemma runs_template L : handle = DEFAULT_UPSTREAM_EXCHANGE_HANDLE -> L `sublist_of` all_protocols ->
  runs (src L) request_body_template (fun t => tmpl L t).
Proof.
  intros Hd HL. unfold request_body_template. eapply runs_bind; [apply runs_default_exchange; by apply stable_src|]. intros e.
  eapply runs_bind with (R := fun r w => match r with Ok t => tmpl L t w | Err _ => tried L w end).
  - intros w Hw [[Ht Hb] He]. rewrite <-Hd in He. destruct (template_fits _ _ Hbody w e Hd Hb He) as (r & b & -> & Hr).
    split; [by apply guar_same|]. destruct r; [|done]. by destruct Hr.
  - intros r. eapply runs_bind with (R := fun _ w => match r with Ok t => tmpl L t w | Err _ => tried L w end).
    + destruct r; apply unseen_await; [by apply stable_tmpl|by apply stable_tried_sub].
    + intros _. destruct r; [by apply runs_ret|]. apply runs_throw. intros w. by apply tried_sub.
Qed.

Lemma runs_resolved L : L `sublist_of` all_protocols -> runs (src L) (resolved_body handle) (fun l => tmpl L (bytes_template l)).
Proof.
  intros HL. unfold resolved_body. eapply runs_bind; [apply runs_lock_exchanges; by apply stable_src|]. intros g.
  eapply runs_bind with (R := fun r w => match r with Ok l => tmpl L (bytes_template l) w | Err f => tried L w /\ exists e, f = Fail e end).
  - intros w Hw [[Ht Hb] ->]. destruct (resolved_fits _ _ Hbody w Hb (has_handle _ _ Hw)) as (r & b & Hr & Hres).
    unfold exchange_of in Hr. rewrite Hr. split; [by apply guar_same|]. destruct r; [by destruct Hres|by split].
  - intros r. destruct r as [l|f].
    + eapply runs_bind; [apply unseen_await; by apply stable_tmpl|]. intros ?. by apply runs_ret.
    + apply runs_fact. intros [e ->]. eapply runs_bind; [apply unseen_await; by apply stable_tried_sub|]. intros ?.
      apply runs_throw. intros w. by apply tried_sub.
Qed.

Lemma runs_prepare_body L explicit : L `sublist_of` all_protocols ->
  runs (src L) (prepare_body handle explicit) (fun t => tmpl L t).
Proof.
  intros HL. unfold prepare_body. destruct (handle =? DEFAULT_UPSTREAM_EXCHANGE_HANDLE) eqn:Hd; [destruct explicit; cbn|].
  - apply runs_template; [by apply Z.eqb_eq|done].
  - eapply runs_bind; [by apply runs_resolved|]. intros l. by apply runs_ret.
  - eapply runs_bind; [by apply runs_resolved|]. intros l. by apply runs_ret.
Qed.

(** A body that carries what it has to, made of a template. *)
Lemma runs_body L t : runs (tmpl L t) (body_from_default_upstream_template t)
  (fun b w => tmpl L t w /\ carries b /\ exists items, b = body_of_template t items).
Proof.
  intros w Hw (H1 & H2 & H3). pose proof (fits_carries _ _ Hbody t w H2 H3) as Hc. unfold body_from_default_upstream_template.
  destruct t as [|l|n].
  1,2: by split; [apply guar_refl|split; [|split; [|by exists []]]].
  destruct Hc as (items & b & d & -> & Hc). split; [apply guar_refl|]. split; [done|]. split; [done|]. by exists items.
Qed.

(** A sender's call. [unread] are its answers that come before the body is
    polled. *)
Lemma runs_send L t p body {A} (call : N -> A * nat * N) (unread : A -> Prop) :
  L `sublist_of` all_protocols -> carries body -> (forall n a k n', call n = (a, k, n') -> unread a -> k = 0%nat) ->
  runs (tmpl L t) (send p body call) (fun a w => tried (L ++ [p]) w /\ (unread a -> body_inv w /\ fits t w)).
Proof.
  intros HL Hc Hu w Hw ((l & Ha & Hl & Hcs) & H2 & H3). unfold send. destruct (call (network w)) as [[a polled] n'] eqn:Hcall.
  destruct (match body with Streaming _ _ => _ | _ => _ end) as [b d] eqn:Hp.
  set (w1 := w <| network := n' |> <| inbound_body := b |> <| downstream_transport := d |> <| attempts := w.(attempts) ++ [(p, body)] |>).
  assert (Hg : guar handle Ro w w1) by (by apply guar_same).
  split; [eapply guar_trans; [exact Hg|apply (rely_others _ _ Hrely)]|].
  split.
  - exists (l ++ [(p, body)]). rewrite (rely_attempts _ _ Hrely), !fmap_app. unfold w1. cbn. rewrite Ha, (assoc_L (++)).
    split_and!; [done|by apply sublist_app|]. apply Forall_app. by repeat constructor.
  - intros Hun. rewrite (Hu _ _ _ _ Hcall Hun) in Hp.
    assert (Hs : same_source w w1) by (destruct body; injection Hp as <- <-; done).
    assert (Hw1 : startable handle w1) by (by eapply startable_guar). apply (inv_source _ _ Hbody _ _ Hs) in H2 as Hb1.
    split; [by apply (inv_others _ _ Hbody)|]. apply (fits_others _ _ Hbody); [done|done|]. by eapply (fits_source _ _ Hbody).
Qed.
(** When nothing more is asked of the body. *)
Lemma runs_send_last L p body {A} (call : N -> A * nat * N) :
  carries body -> runs (tried L) (send p body call) (fun _ w => tried (L ++ [p]) w).
Proof.
  intros Hc w Hw (l & Ha & Hl & Hcs). unfold send. destruct (call (network w)) as [[a polled] n'].
  destruct (match body with Streaming _ _ => _ | _ => _ end) as [b d].
  split; [eapply guar_trans; [|apply (rely_others _ _ Hrely)]; by apply guar_same|].
  exists (l ++ [(p, body)]). rewrite (rely_attempts _ _ Hrely), !fmap_app. cbn. rewrite Ha, (assoc_L (++)).
  split_and!; [done|by apply sublist_app|]. apply Forall_app. by repeat constructor.
Qed.

(** *** Attempts *)

Lemma sub_left {A} (L K N' : list A) : L ++ K `sublist_of` N' -> L `sublist_of` N'.
Proof. intros Hs. etransitivity; [|exact Hs]. by apply sublist_inserts_r. Qed.
Lemma runs_fail (L : list protocol) {A} e (Q : A -> World -> Prop) : L `sublist_of` all_protocols -> runs (tried L) (throw (Start e)) Q.
Proof. intros HL. apply runs_throw. intros w. by apply tried_sub. Qed.

Lemma runs_forward L t q :
  L ++ [ByHttp1] `sublist_of` all_protocols -> carries q.(Http1Upstream.request_body) ->
  runs (tried L) (forward t q) (fun _ w => tried (L ++ [ByHttp1]) w).
Proof.
  intros HL Hc. unfold forward. eapply runs_bind with (R := fun _ => tried L).
  { destruct (target_pool_key t); [by apply runs_ret|]. apply runs_fail. by eapply sub_left. }
  intros key. eapply runs_bind; [by apply runs_send_last|]. intros r. destruct r; [by apply runs_ret|by apply runs_fail].
Qed.

Lemma runs_http1_exchange L p t :
  L ++ [ByHttp1] `sublist_of` all_protocols -> handle ≠ DEFAULT_UPSTREAM_EXCHANGE_HANDLE ->
  runs (tmpl L t) (start_upstream_response_via_plain_http1_sender_pool handle p (match t with TemplateBytes l => l | _ => [] end))
    (fun _ w => tried (L ++ [ByHttp1]) w).
Proof.
  intros HL Hd. pose proof (stable_tmpl L t (sub_left _ _ _ HL)) as Hst. unfold start_upstream_response_via_plain_http1_sender_pool.
  eapply runs_bind; [by apply unseen_throw_if|]. intros ?. eapply runs_bind; [by apply unseen_endpoint|]. intros [[host port] authority].
  destruct (serialize_request_head_parts_into _ _ _ _ _ _) as [encoded use_chunked_body].
  eapply runs_bind with (R := fun _ w => tried (L ++ [ByHttp1]) w); [|intros r; by apply runs_ret].
  intros w Hw (H1 & H2 & H3). apply runs_forward; [done| |done|done]. cbn. by apply (fits_again _ _ Hbody t w).
Qed.

Lemma serialized_body r h authority t items :
  Http1Upstream.request_body (serialize_default_upstream_http1_request_into r h authority t items) = body_of_template t items.
Proof. unfold serialize_default_upstream_http1_request_into. by destruct (serialize_request_head_parts_into _ _ _ _ _ _). Qed.
Lemma streamed_items t items :
  body_of_template t (match body_of_template t items with Streaming _ items => items | _ => [] end) = body_of_template t items.
Proof. by destruct t. Qed.

Lemma runs_forward_default L r tg t : L ++ [ByHttp1] `sublist_of` all_protocols ->
  runs (tmpl L t) (forward_default r tg t) (fun _ w => tried (L ++ [ByHttp1]) w).
Proof.
  intros HL. unfold forward_default. eapply runs_bind; [apply runs_body|]. intros b. eapply runs_bind; [apply runs_get|].
  intros w0 w Hw [[[H1 _] [Hc [items ->]]] ->]. apply runs_forward; [done| |done|done]. by rewrite serialized_body, streamed_items.
Qed.


Lemma runs_http1_default L r : L ++ [ByHttp1] `sublist_of` all_protocols -> handle = DEFAULT_UPSTREAM_EXCHANGE_HANDLE ->
  runs (src L) (start_default_upstream_response_via_plain_http1_sender_pool r) (fun _ w => tried (L ++ [ByHttp1]) w).
Proof.
  intros HL Hd. pose proof (stable_src L (sub_left _ _ _ HL)) as Hst. unfold start_default_upstream_response_via_plain_http1_sender_pool.
  eapply runs_bind; [by apply unseen_throw_if|]. intros ?. eapply runs_bind; [by apply unseen_endpoint|]. intros [[host port] authority].
  eapply runs_bind; [by apply unseen_default_flow|]. intros flow.
  eapply runs_bind; [apply runs_template; [done|by eapply sub_left]|]. intros t.
  eapply runs_bind; [by apply runs_forward_default|]. intros response. by apply runs_ret.
Qed.

Lemma runs_native_forward L r : L ++ [ByHttp1] `sublist_of` all_protocols -> handle = DEFAULT_UPSTREAM_EXCHANGE_HANDLE ->
  runs (src L) (forward_native_default_upstream_http_via_sender_pool r) (fun _ w => tried (L ++ [ByHttp1]) w).
Proof.
  intros HL Hd. pose proof (stable_src L (sub_left _ _ _ HL)) as Hst. pose proof (stable_tried_sub _ HL) as Ht.
  unfold forward_native_default_upstream_http_via_sender_pool. rewrite <-Hd.
  eapply runs_bind; [by apply unseen_throw_if|]. intros ?.
  eapply runs_bind; [apply runs_template; [done|by eapply sub_left]|]. intros t.
  pose proof (stable_tmpl L t (sub_left _ _ _ HL)) as Htm.
  eapply runs_bind; [by apply unseen_endpoint|]. intros [[host port] authority].
  eapply runs_bind; [by apply unseen_default_flow|]. intros flow.
  eapply runs_bind; [by apply runs_forward_default|]. intros response.
  eapply runs_bind; [by apply unseen_connected|]. intros ?.
  eapply runs_bind with (R := fun _ => tried (L ++ [ByHttp1])).
  - case_bool_decide; [|by apply runs_ret]. eapply runs_bind; [by apply unseen_finalize|]. intros ?. by apply unseen_cache.
  - intros ?. by apply runs_ret.
Qed.

(** A request that is prepared has a host and a port. *)
Definition prepared_fine (p : PreparedUpstreamRequest (M:=M)) : Prop :=
  p.(prepared_attached_transport) = None /\ is_Some p.(prepared_target_host) /\ is_Some p.(prepared_target_port).

Lemma runs_http1 L p t : L ++ [ByHttp1] `sublist_of` all_protocols ->
  runs (tmpl L t) (start_http1 handle p t) (fun _ w => tried (L ++ [ByHttp1]) w).
Proof.
  intros HL. pose proof (stable_tmpl L t (sub_left _ _ _ HL)) as Hst. unfold start_http1.
  destruct (handle =? DEFAULT_UPSTREAM_EXCHANGE_HANDLE) eqn:Hd.
  - apply Z.eqb_eq in Hd. eapply runs_bind; [by apply unseen_default_exchange|]. intros e.
    eapply runs_bind; [by apply unseen_or_start|]. intros [r attached]. apply runs_noting_failure; [by apply stable_tried_sub|].
    eapply runs_weaken; [by apply (runs_http1_default L)|by intros w (? & ? & _)|done].
  - apply Z.eqb_neq in Hd. apply runs_noting_failure; [by apply stable_tried_sub|]. by apply runs_http1_exchange.
Qed.

Context `{HL : !SendersLaws}.

Definition asks_http1 {A} (r : result Http2Session.Http2RequestError A) : Prop := exists alpn, r = Err (Http2Session.FallbackToHttp1 alpn).
Definition asks_http2 {A} (r : result Http3Pool.Http3RequestError A) : Prop := exists alpn, r = Err (Http3Pool.FallbackToHttp2 alpn).

Lemma runs_via_http2 L p hs t : L `sublist_of` all_protocols -> prepared_fine p ->
  runs (tmpl L t) (start_upstream_response_via_http2 handle p hs t)
    (fun r w => tried (L ++ [ByHttp2]) w /\ (asks_http1 r -> body_inv w /\ fits t w)).
Proof.
  intros HLs (_ & [host Hh] & [port Hp]). unfold start_upstream_response_via_http2. rewrite Hh, Hp.
  eapply runs_bind; [apply runs_body|]. intros b. eapply runs_bind.
  - intros w Hw (H1 & Hc & _). eapply (runs_send L t ByHttp2 b _ asks_http1 HLs Hc); [|done|done].
    intros n a k n' Hcall [alpn ->]. by eapply http2_fallback_unread.
  - intros r. apply runs_ret. intros w [H1 H2]. split; [done|]. intros [alpn Ha]. apply H2. exists alpn. destruct r; congruence.
Qed.
Lemma runs_via_http3 L p url hs t : L `sublist_of` all_protocols -> prepared_fine p ->
  runs (tmpl L t) (start_upstream_response_via_http3 handle p url hs t)
    (fun r w => tried (L ++ [ByHttp3]) w /\ (asks_http2 r -> body_inv w /\ fits t w)).
Proof.
  intros HLs (_ & [host Hh] & [port Hp]). unfold start_upstream_response_via_http3. rewrite Hh, Hp.
  eapply runs_bind; [apply runs_body|]. intros b. eapply runs_bind.
  - intros w Hw (H1 & Hc & _). eapply (runs_send L t ByHttp3 b _ asks_http2 HLs Hc); [|done|done].
    intros n a k n' Hcall [alpn ->]. by eapply http3_fallback_unread.
  - intros r. apply runs_ret. intros w [H1 H2]. split; [done|]. intros [alpn Ha]. apply H2. exists alpn. destruct r; congruence.
Qed.

Lemma runs_failed (L : list protocol) {A} message (Q : A -> World -> Prop) : L `sublist_of` all_protocols ->
  runs (tried L) (noting_failure handle (throw (failed_while_evaluating handle message))) Q.
Proof. intros HLs. apply runs_noting_failure; [by apply stable_tried_sub|]. by apply runs_fail. Qed.

Lemma runs_http2 L p hs t : L ++ [ByHttp2; ByHttp1] `sublist_of` all_protocols -> prepared_fine p ->
  runs (tmpl L t) (start_http2 handle p hs t) (fun _ w => tried (L ++ [ByHttp2; ByHttp1]) w).
Proof.
  intros HLs Hp. assert (H1 : (L ++ [ByHttp2]) ++ [ByHttp1] `sublist_of` all_protocols) by (by rewrite <-(assoc_L (++))).
  unfold start_http2. eapply runs_bind; [apply runs_via_http2; [by eapply sub_left|done]|]. intros [started|[alpn|m]].
  - apply runs_ret. intros w [Ht _]. eapply tried_sub; [|exact Ht]. apply sublist_app; [done|]. apply sublist_skip, sublist_nil_l.
  - eapply runs_weaken with (Q' := fun _ w => tried ((L ++ [ByHttp2]) ++ [ByHttp1]) w); [by apply runs_http1| |].
    + intros w [Ht Hf]. destruct Hf; [by eexists|]. done.
    + intros a w. by rewrite <-(assoc_L (++)).
  - eapply (runs_weaken _ (tried (L ++ [ByHttp2])) _ _ (fun _ => tried (L ++ [ByHttp2; ByHttp1])));
      [apply runs_failed; by eapply sub_left|by intros w []|done].
Qed.

Lemma runs_http3 p url hs t : prepared_fine p ->
  runs (tmpl [] t) (start_http3 handle p url hs t) (fun _ w => tried all_protocols w).
Proof.
  intros Hp. unfold start_http3. eapply runs_bind; [apply runs_via_http3; [apply sublist_nil_l|done]|]. intros [started|[alpn|m]].
  - apply runs_ret. intros w [Ht _]. eapply tried_sub; [|exact Ht]. apply sublist_skip, sublist_nil_l.
  - apply (runs_weaken _ (tmpl [ByHttp3] t) _ _ (fun _ w => tried all_protocols w)); [| |done].
    + destruct (use_http2 _); [by apply (runs_http2 [ByHttp3])|].
      eapply runs_weaken; [apply (runs_http1 [ByHttp3])|done|]; [by repeat constructor|].
      intros a w. apply tried_sub. by repeat constructor.
    + intros w [Ht Hf]. destruct Hf; [by eexists|]. done.
  - eapply (runs_weaken _ (tried [ByHttp3]) _ _ (fun _ => tried all_protocols)); [apply runs_failed|by intros w []|done]. by repeat constructor.
Qed.

(** *** The start *)

Lemma runs_prepared L p url hs : L = [] -> prepared_fine p ->
  runs (src L) (start_prepared handle p url hs) (fun s w => tried all_protocols w /\ stored s w).
Proof.
  intros -> Hp. unfold start_prepared. pose proof (stable_src [] (sublist_nil_l _)) as Hst.
  pose proof (stable_tried_sub all_protocols (reflexivity _)) as Ht.
  eapply runs_bind; [by apply unseen_tls_flow|]. intros complete.
  eapply runs_bind with (R := fun _ => src []); [destruct complete; [by apply runs_ret|by apply unseen_tls_flow]|intros ?].
  eapply runs_bind; [by apply unseen_now|]. intros started_at.
  eapply runs_bind; [apply runs_prepare_body, sublist_nil_l|]. intros t.
  eapply runs_bind with (R := fun _ => tried all_protocols).
  { destruct (use_http3 _); [by apply runs_http3|]. destruct (use_http2 _).
    - eapply runs_weaken; [apply (runs_http2 []); [by repeat constructor|done]|done|]. intros ? ?. apply tried_sub. by repeat constructor.
    - eapply runs_weaken; [apply (runs_http1 []); by repeat constructor|done|]. intros ? ?. apply tried_sub. by repeat constructor. }
  intros started. eapply runs_bind with (R := fun _ => tried all_protocols).
  { destruct complete; [by apply runs_ret|]. eapply runs_bind; [by apply unseen_finalize|]. intros ?. by apply unseen_cache. }
  intros ?. eapply runs_bind with (R := fun _ => tried all_protocols).
  { destruct (supports_response_version _); [by apply runs_ret|by apply unseen_connected]. }
  intros ?. eapply runs_bind; [by apply unseen_elapsed|]. intros latency_ms. by apply runs_store.
Qed.

(** The parts of a target go together. *)
Lemma from_request_fine (r : HttpOutboundRequestNode (M:=M)) t :
  request_ok r -> (from_request r).(snapshot_target) = Some t ->
  is_Some (from_request r).(snapshot_target_host_arc) /\ is_Some (from_request r).(snapshot_target_port).
Proof.
  intros [Ht _] Hr. unfold target_ok in Ht. cbn in Hr. rewrite Hr in Ht.
  destruct Ht as [(sch & hh & a & h & p & host & _ & _ & _ & _ & _ & Hport & _ & _ & _ & Harc & _) _].
  cbn. rewrite Hport, Harc. by split; eexists.
Qed.
Lemma prepare_fine http2 http3 h (r : HttpOutboundRequestNode (M:=M)) flow p :
  request_ok r -> prepare http2 http3 h (from_request r) None flow = Ok p -> prepared_fine p.
Proof.
  intros Hr. unfold prepare. destruct (snapshot_target (from_request r)) as [t|] eqn:Ht; [|done]. intros [= <-].
  split; [done|]. cbn -[from_request]. by eapply from_request_fine.
Qed.

Lemma runs_prepared_request P : stable P -> runs P (prepared_request handle) (fun p w => P w /\ prepared_fine p).
Proof.
  intros HP. unfold prepared_request. eapply runs_bind; [by apply runs_lock_exchanges|]. intros g.
  eapply runs_bind with (R := fun _ w => P w /\ exists e, g.(exchanges) !! handle = Some e /\ request_ok e.(request)
    /\ e.(transport).(attached_transport) = None).
  { intros w Hw [H' ->]. pose proof (unseen_lock_transport P HP w Hw H') as Hl. destruct (has_handle _ _ Hw) as [e He].
    destruct (lock_transport w) as [[t|[]] w1]; destruct Hl as [Hg Hl]; (split; [done|]); try done. split; [done|]. exists e.
    split_and!; [done|by apply (requests_ok _ (registry_fine _ _ Hw) _ _ He)|by apply (unattached _ _ Hw)]. }
  intros t. eapply runs_bind; [apply runs_get|]. intros w0 w Hw [[H' (e & He & Hr & Ha)] _]. rewrite He.
  assert (Hres : forall h, match prepared_outbound_exchange_request services.(http2_built) services.(http3_built) h t handle (Some e) with
    | Ok p => prepared_fine p | Err _ => True end).
  { intros h. unfold prepared_outbound_exchange_request, prepared_upstream_request, snapshot_default_upstream_request. cbn.
    rewrite Ha. repeat (case_match; cbn); try done; simplify_eq; by eapply prepare_fine. }
  specialize (Hres (w0.(context).(request_head))).
  assert (Hend : runs P (or_start (prepared_outbound_exchange_request services.(http2_built) services.(http3_built)
    w0.(context).(request_head) t handle (Some e))) (fun p w => P w /\ prepared_fine p)).
  { eapply runs_weaken; [by apply runs_or_start|done|]. intros p w' [? Hp]. split; [done|]. by rewrite Hp in Hres. }
  specialize (Hend w Hw H'). by destruct (handle =? _).
Qed.

Lemma runs_explicitly : runs (src []) (start_explicitly handle) (fun s w => tried all_protocols w /\ stored s w).
Proof.
  unfold start_explicitly. eapply runs_bind; [apply runs_prepared_request, stable_src, sublist_nil_l|]. intros p.
  apply runs_fact. intros Hp. destruct (build_configured_upstream_url _ _ _ _ _) as [url host_header]. destruct Hp as [Ha Hp].
  rewrite Ha, bool_decide_false by (by intros []). by apply runs_prepared.
Qed.

Lemma runs_materialize L r : L `sublist_of` all_protocols -> handle = DEFAULT_UPSTREAM_EXCHANGE_HANDLE ->
  runs (tried L) (materialize_native_default_upstream_forward_response r) (fun s w => tried L w /\ stored s w).
Proof.
  intros HLs Hd. pose proof (stable_tried_sub L HLs) as Ht. unfold materialize_native_default_upstream_forward_response. rewrite <-Hd.
  eapply runs_bind; [by apply unseen_lock_exchanges|]. intros g. eapply runs_bind; [by apply runs_store|]. intros s.
  eapply runs_bind with (R := fun _ w => tried L w /\ stored s w); [|intros ?; by apply runs_ret].
  destruct (match _ !! _ with Some _ => _ | None => _ end); [by apply runs_ret|].
  intros w Hw [H' Hs]. split; [by apply guar_same|]. done.
Qed.

Lemma runs_fast_path : handle = DEFAULT_UPSTREAM_EXCHANGE_HANDLE ->
  runs (src []) start_default_upstream_plain_http1_fast_path
    (fun o w => match o with Some s => tried all_protocols w /\ stored s w | None => src [] w end).
Proof.
  intros Hd. pose proof (stable_src [] (sublist_nil_l _)) as Hst. unfold start_default_upstream_plain_http1_fast_path.
  eapply runs_bind; [by apply unseen_default_exchange|]. intros e. eapply runs_bind; [by apply unseen_or_start|]. intros [r attached].
  case_bool_decide; [by apply runs_ret|]. eapply runs_bind; [by apply unseen_throw_if|]. intros ?.
  eapply runs_bind; [by apply unseen_default_flow|]. intros flow. destruct (TlsFlow.requires_custom_client flow); [by apply runs_ret|].
  destruct (negb _); [by apply runs_ret|].
  eapply runs_bind; [apply (runs_native_forward []); [by repeat constructor|done]|]. intros response.
  eapply runs_bind; [apply runs_materialize; [by repeat constructor|done]|]. intros s. apply runs_ret.
  intros w [H' ?]. split; [|done]. eapply tried_sub; [|exact H']. by repeat constructor.
Qed.

Lemma runs_shortcuts : runs (src []) (start_default_shortcuts handle)
  (fun o w => match o with Some s => tried all_protocols w /\ stored s w | None => src [] w end).
Proof.
  pose proof (stable_src [] (sublist_nil_l _)) as Hst. unfold start_default_shortcuts.
  destruct (handle =? DEFAULT_UPSTREAM_EXCHANGE_HANDLE) eqn:Hd; cbn [negb]; [|by apply runs_ret]. apply Z.eqb_eq in Hd.
  eapply runs_bind with (R := fun o w => match o with Some s => tried all_protocols w /\ stored s w | None => src [] w end).
  - unfold try_materialize_ready_or_pending_native_default_upstream_forward_response, take_native.
    eapply runs_bind with (R := fun _ => src []).
    { eapply runs_bind; [by apply unseen_get|]. intros w0. eapply runs_bind; [by apply unseen_set_native|]. intros ?. by apply runs_ret. }
    intros [[r|e]|]; [|by apply runs_ret..]. apply (runs_weaken _ (tried []) _ _
      (fun o w => match o with Some s => tried [] w /\ stored s w | None => src [] w end)).
    + eapply runs_bind; [apply runs_materialize; [apply sublist_nil_l|done]|]. intros s. by apply runs_ret.
    + by intros w [? _].
    + intros [s|] w; [|done]. intros [H' ?]. split; [|done]. eapply tried_sub; [apply sublist_nil_l|exact H'].
  - intros [s|]; [by apply runs_ret|by apply runs_fast_path].
Qed.

Lemma runs_start : runs (src []) (start_outbound_exchange_response handle) (fun s w => tried all_protocols w /\ stored s w).
Proof.
  pose proof (stable_src [] (sublist_nil_l _)) as Hst. unfold start_outbound_exchange_response.
  eapply runs_bind; [apply (runs_with_exchange _ _ (fun a e => e.(response) = a)); [done|]|].
  { intros e. split_and!; [done|apply kept_refl|done]. }
  intros [|s].
  - eapply (runs_weaken _ (src [])); [|by intros w []|by intros ? ? H'; exact H'].
    eapply runs_bind; [apply runs_shortcuts|]. intros [s|]; [by apply runs_ret|by apply runs_explicitly].
  - apply runs_ret. intros w [[H' _] (e & He & Hs)]. split; [|by exists e]. eapply tried_sub; [apply sublist_nil_l|exact H'].
Qed.

End running.

(** ** What a start promises *)

Section promises.
Context (handle : Z) (Ro : relation exchange_state) `{HRo : !PreOrder Ro} (Hrely : rely handle Ro) `{HL : !SendersLaws}.
(** The laws that reading the client's body relies on. *)

Lemma read_all_kept (b : InboundRequestBodyState M) : inbound_ok b ->
  exists r b', read_all b = Some (r, b') /\
    match r with
    | Ok l => l = (client_body b).1 /\ inbound_ok b' /\ client_body b' = client_body b
    | Err e => (client_body b).2 = Some e
    end.
Proof.
  intros Hb. unfold read_all. destruct (inbound_read_sound BodyStream.ReadAll b Hb I) as (r & b' & -> & Hok & Hr). cbn [mbind option_bind].
  eexists _, _. split; [reflexivity|]. destruct r as [[l|?]|e]; [|by destruct Hr|done]. destruct Hr as [Hc (? & _)].
  split_and!; [done| |done]. split; [done|]. change (len (client_body b').1 <= U64_MAX). rewrite Hc. apply Hb.
Qed.

(** Nothing is known of the bodies. *)
Lemma any_body : (forall w, inbound_ok w.(inbound_body) -> inbound_ok (others w).(inbound_body)) ->
  body_laws handle (fun _ => True) (fun w => inbound_ok w.(inbound_body)) (fun _ _ => True).
Proof.
  intros Ho. split; try done.
  - intros w _. apply Ho.
  - by intros w w' (-> & _).
  - intros w e _ Hb _. unfold default_upstream_outbound_http1_request_body_template, resolve_outbound_request_body.
    destruct (body_override (request e)) as [o|]; [by eexists (Ok _), _|].
    destruct (request_body_known_empty_for_exchange _ _); [by eexists (Ok _), _|].
    destruct (read_all_kept _ Hb) as (r & b & Hr & Hres).
    destruct (native_default_upstream_request_body_mode _ _ _); [by eexists (Ok _), _| |by eexists (Ok _), _|];
      rewrite Hr; cbn [mbind option_bind]; eexists _, b; (split; [reflexivity|]); destruct r; try done; by destruct Hres as (_ & ? & _).
  - intros w Hb [e He]. unfold resolve_outbound_exchange_body, resolve_outbound_request_body. rewrite He.
    destruct (handle =? DEFAULT_UPSTREAM_EXCHANGE_HANDLE); [|by eexists (Ok _), _].
    destruct (body_override (request e)) as [o|]; [by eexists (Ok _), _|].
    destruct (request_body_known_empty_for_exchange _ _); [by eexists (Ok _), _|].
    destruct (read_all_kept _ Hb) as (r & b & Hr & Hres). rewrite Hr. cbn [mbind option_bind]. eexists _, b.
    split; [reflexivity|]. destruct r; [by destruct Hres as (_ & ? & _)|by eexists].
  - intros [|l|n] w Hb _; [done|done|].
    destruct (stream_remaining_sound vm_error_display (stream_fuel w.(inbound_body)) _ w.(downstream_transport) Hb ltac:(unfold stream_fuel; lia)) as (items & b & d & Hs & _).
    by exists items, b, d.
Qed.

(** A response that is there is returned, and nothing is done for it. *)
Lemma start_stored w s : stored handle s w ->
  let '(r, w') := start_outbound_exchange_response handle w in
  r = Ok s /\ w'.(attempts) = w.(attempts) /\ forall k, exchange_of w' k = exchange_of w k.
Proof.
  intros (e & He & Hs). unfold start_outbound_exchange_response, with_exchange, mbind, eff_bind.
  destruct (lock_exchanges_run w) as (w1 & -> & Hr & (Ha & _) & Hex & Hi). unfold exchange_of in He. rewrite He. cbn. rewrite Hs. cbn.
  split_and!; [done|done|]. intros k. unfold exchange_of, regs. cbn. rewrite seed_initialized by done. cbn. rewrite <-Hex, Hr.
  by rewrite insert_id.
Qed.


(** ** What is sent *)

(** The body that the exchange's request has: the program's, or the client's. *)
Definition body_to_send (h : HttpRequestHead (M:=M)) (r : HttpOutboundRequestNode (M:=M)) (client : list Z) : list Z :=
  if handle =? DEFAULT_UPSTREAM_EXCHANGE_HANDLE
  then match r.(body_override) with Some o => o | None => if request_body_known_empty_for_exchange h r then [] else client end
  else default [] r.(body_override).
Definition carries_body (data : list Z) (failure : option VmError) (body : OutboundHttp1RequestBody) : Prop :=
  match body with
  | Empty => data = []
  | Bytes l => l = data
  | Streaming _ items =>
      (Forall (fun c => is_Ok c = true) items /\ Http1Upstream.stream_data items = data) \/ exists e, Err e ∈ items /\ failure = Some e
  end.

Section source.
Context (h : HttpRequestHead (M:=M)) (r : HttpOutboundRequestNode (M:=M)) (client : list Z * option VmError).
Let data := body_to_send h r client.1.

Definition source_inv (w : World) : Prop :=
  inbound_ok w.(inbound_body) /\ client_body w.(inbound_body) = client /\ w.(context).(request_head) = h
  /\ request <$> exchange_of w handle = Some r.
Definition source_fits (t : NativeDefaultUpstreamRequestBodyTemplate) (w : World) : Prop :=
  match t with
  | TemplateEmpty => data = []
  | TemplateBytes l => l = data
  | TemplateStreaming _ => handle = DEFAULT_UPSTREAM_EXCHANGE_HANDLE /\ data = BodyStream.rest w.(inbound_body).(BodyStream.stream) w.(inbound_body).(BodyStream.source)
  end.

Lemma source_inv_same w w' : same_source w w' -> source_inv w -> source_inv w'.
Proof. intros (Hb & Hh & Hx) (? & ? & ? & ?). unfold source_inv. by rewrite Hb, Hh, Hx. Qed.
Lemma source_fits_same t w w' : same_source w w' -> source_fits t w -> source_fits t w'.
Proof. intros (Hb & _). destruct t; cbn; by rewrite ?Hb. Qed.
Lemma nonempty_fits l w : l = data -> source_fits (bytes_template l) w.
Proof. intros ->. unfold bytes_template. by case_bool_decide. Qed.

(** The default exchange's body, taken whole. *)
Lemma resolved_whole w : source_inv w -> handle = DEFAULT_UPSTREAM_EXCHANGE_HANDLE ->
  exists x b, resolve_outbound_request_body h r w.(inbound_body) = Some (x, b) /\
    match x with Ok l => l = data /\ source_inv (w <| inbound_body := b |>) | Err e => client.2 = Some e end.
Proof.
  intros (Hb & Hc & Hh & Hr) Hd. unfold resolve_outbound_request_body, data, body_to_send. rewrite Hd, Z.eqb_refl.
  destruct (body_override r) as [o|]; [by eexists (Ok _), _|].
  destruct (request_body_known_empty_for_exchange h r); [by eexists (Ok _), _|].
  destruct (read_all_kept _ Hb) as (x & b & Hx & Hres). eexists x, b. split; [done|]. rewrite Hc in Hres.
  destruct x as [l|e]; [|done]. destruct Hres as (? & ? & ?). split; [done|]. by split_and!.
Qed.

Lemma source_body : (forall w, same_source w (others w)) ->
  body_laws handle (carries_body data client.2) source_inv source_fits.
Proof.
  intros Ho. split.
  - intros w _. by apply source_inv_same.
  - intros t w _ _. by apply source_fits_same.
  - exact source_inv_same.
  - exact source_fits_same.
  - intros w e Hd Hi He. pose proof (resolved_whole w Hi Hd) as (x & b & Hx & Hres).
    destruct Hi as (Hb & Hc & Hh & Hr). assert (Hre : request e = r) by (rewrite He in Hr; cbn in Hr; congruence). rewrite Hre, Hh.
    unfold default_upstream_outbound_http1_request_body_template, native_default_upstream_request_body_mode.
    pose proof (eq_refl data) as Hdata. unfold data at 2, body_to_send in Hdata. rewrite Hd, Z.eqb_refl in Hdata.
    destruct (body_override r) as [o|] eqn:Hor.
    { eexists (Ok _), _. split; [reflexivity|]. split; [done|]. by apply nonempty_fits. }
    destruct (request_body_known_empty_for_exchange h r); [by eexists (Ok _), _|].
    destruct (BodyStream.is_pristine_unread (inbound_body w)) eqn:Hp.
    { eexists (Ok _), _. split; [reflexivity|]. split; [done|]. cbn. split; [done|]. rewrite Hdata, pristine_rest by done. by rewrite Hc. }
    rewrite Hx. cbn [mbind option_bind]. eexists _, b. split; [reflexivity|]. destruct x as [l|]; [|done].
    destruct Hres as [-> ?]. split; [done|]. by apply nonempty_fits.
  - intros w Hi [e He]. unfold resolve_outbound_exchange_body. rewrite He.
    assert (Hre : request e = r) by (destruct Hi as (_ & _ & _ & Hr); rewrite He in Hr; cbn in Hr; congruence).
    assert (Hh : request_head (context w) = h) by apply Hi. rewrite Hre, Hh.
    destruct (handle =? DEFAULT_UPSTREAM_EXCHANGE_HANDLE) eqn:Hd.
    + apply Z.eqb_eq in Hd. destruct (resolved_whole w Hi Hd) as (x & b & -> & Hres). cbn [mbind option_bind]. eexists _, b.
      split; [reflexivity|]. destruct x as [l|]; cbn; [|by eexists]. destruct Hres as [-> ?]. split; [done|]. by apply nonempty_fits.
    + eexists (Ok _), _. split; [reflexivity|]. split; [done|]. apply nonempty_fits. unfold data, body_to_send. by rewrite Hd.
  - intros t w (Hb & Hc & _) Hf. destruct t as [|l|n]; [done|done|]. destruct Hf as [_ Hf].
    destruct (stream_remaining_sound vm_error_display (stream_fuel w.(inbound_body)) _ w.(downstream_transport) Hb ltac:(unfold stream_fuel; lia)) as (items & b & d & Hs & _ & Hi).
    exists items, b, d. split; [done|]. cbn. rewrite Hc in Hi. destruct Hi as [(? & Hd & _)|?]; [left|by right]. by rewrite Hf.
  - intros t w Hd Hf. destruct t as [|l|n]; cbn in *; [done| |by destruct Hf]. subst l. unfold bytes_template. by case_bool_decide.
Qed.
End source.

(** C7. Every attempt is handed the whole body.  When other tasks leave the
    client's body and the exchange's request alone: each protocol that is tried,
    the fallbacks included, is given the body that the program set, nothing if
    the head announces no body, and otherwise every byte that the client sends
    from the first, whatever part of it the program has read before; a stream
    that ends with an error ends with the client's. *)
Theorem every_attempt_sends_whole_body w e :
  (forall w, same_source w (others w)) -> startable handle w -> inbound_ok w.(inbound_body) -> exchange_of w handle = Some e ->
  let data := body_to_send w.(context).(request_head) e.(request) (client_body w.(inbound_body)).1 in
  let '(r, w') := start_outbound_exchange_response handle w in
  exists l, w'.(attempts) = w.(attempts) ++ l /\ Forall (carries_body data (client_body w.(inbound_body)).2) l.*2.
Proof.
  intros Ho Hw Hb He data.
  pose proof (runs_start handle Ro Hrely w.(attempts) _ _ _
    (source_body w.(context).(request_head) e.(request) (client_body w.(inbound_body)) Ho) w Hw) as Hrun.
  assert (Hsrc : src w.(attempts) (carries_body data (client_body w.(inbound_body)).2)
    (source_inv w.(context).(request_head) e.(request) (client_body w.(inbound_body))) [] w).
  { split; [exists []; by rewrite app_nil_r|]. split_and!; [done|done|done|by rewrite He]. }
  specialize (Hrun Hsrc). destruct (start_outbound_exchange_response handle w) as [r w']. destruct Hrun as [_ Hres].
  destruct r as [s|[x| |]]; [destruct Hres as [(l & ? & _ & ?) _]|destruct Hres as (l & ? & _ & ?)|done..]; by exists l.
Qed.
End promises.

End start.

(** ** Witnesses *)

(** A crate that knows one host, with and without its port. *)
Definition parse_e (s : string) : option string := if decide (s = "e:1") then Some s else if decide (s = "e") then Some s else None.
#[local] Instance one_host : AuthorityCrate := {
  Authority := string;
  parse_authority := parse_e;
  authority_str := id;
  authority_host := fun _ => "e";
  port_u16 := fun s => if decide (s = "e:1") then Some 1 else None;
}.
#[local] Instance one_host_laws : @AuthorityLaws one_host.
Proof.
  split; cbn; unfold parse_e, id.
  - intros h p a Hp. case_decide as Heq.
    + intros [= <-]. rewrite decide_True by done. apply (HttpVersion.demo_parse_port h p 1 Hp).
      unfold HttpVersion.demo_parse. by rewrite decide_True.
    + case_decide as Heq'; [|done]. destruct h as [|c [|d h]]; cbv [String.append] in Heq'; discriminate Heq'.
  - intros s a. repeat case_decide; by intros [= <-].
Qed.

Abbreviation hmap := (list (string * list Z)).
Abbreviation demo_forward := (OutboundHttp1ForwardResponse (M:=hmap) (B:=unit)).

(** An upstream that takes HTTP/1 only, negotiating [alpn]; [0] of the network
    makes it drop the connection.  It reads two pieces of a streamed body. *)
Definition answering (alpn : option string) : Senders (M:=hmap) (B:=unit) (N:=nat) := {|
  forward_http1 := fun _ _ _ _ n =>
    match n with
    | O => (Err (HostError "connection closed"), 2%nat, 7%nat)
    | S n => (Ok (MkForwarded (M:=hmap) (B:=unit) 200 [] "1.1" tt 5 alpn None), 2%nat, n)
    end;
  request_http2 := fun _ _ _ n => (Err (Http2Session.FallbackToHttp1 alpn), 0%nat, n);
  request_http3 := fun _ _ n => (Err (Http3Pool.FallbackToHttp2 None), 0%nat, n);
  request_attached := fun _ _ _ _ _ n => (Ok (MkResponse 204 [] "1.1" (fun _ => tt)), 0%nat, n);
  clock_ms := fun n => Z.of_nat n;
|}.
#[local] Instance answering_laws alpn : @SendersLaws _ _ _ (answering alpn).
Proof. split; cbn; intros; by simplify_eq. Qed.

Definition all_services : Services := MkServices true 8 true true true true true.
Definition demo_alpn_flow (alpn : list string) : TlsFlow.TlsFlowState := TlsFlow.set_desired_alpn alpn TlsFlow.demo_flow.
Definition demo_transports (alpn : list string) : TransportState :=
  MkTransportState (TcpFlow.MkDag TcpFlow.default_flow TcpFlow.default_flow)
    (TlsFlow.MkDag TlsFlow.default_flow (demo_alpn_flow alpn)) None true ∅ ∅.
Definition demo_ops : list (op (M:=hmap)) := [SetTarget 1 "e" 1; SetScheme 1 "https"].
Definition demo_context : Context (M:=hmap) (B:=unit) := run demo_ops (initial length_head (demo_transports []) false).
Definition world_of (c : Context) (alpn : list string) (n : nat) : World (M:=hmap) (B:=unit) (N:=nat) :=
  MkWorld (c <| transports := demo_transports alpn |>) half_read some_transport None false [] ∅ ∅ n [].
Definition demo_world (alpn : list string) (n : nat) := world_of demo_context alpn n.
Definition demo_start (chosen : option string) (alpn : list string) (n : nat) :=
  start_outbound_exchange_response (SN:=answering chosen) str_len display all_services (fun w => w) 1 (demo_world alpn n).

Lemma length_head_ok : head_ok length_head.
Proof. split_and!; by apply line_check. Qed.
Lemma demo_context_ok : HttpExchange.ok demo_context.
Proof. apply run_ok, initial_exchanges_ok, length_head_ok. Qed.
Lemma regs_world_of c alpn n : regs (world_of c alpn n) = seed_exchanges c.(registry).
Proof. done. Qed.
Lemma demo_startable alpn n : startable 1 (demo_world alpn n).
Proof.
  split; [unfold demo_world; rewrite regs_world_of; apply demo_context_ok|by vm_compute; eexists|].
  intros e He. assert (Ha : (fun e => e.(transport).(attached_transport)) <$> exchange_of (demo_world alpn n) 1 = Some None) by by vm_compute.
  rewrite He in Ha. cbn in Ha. congruence.
Qed.
Lemma half_read_ok : inbound_ok half_read.
Proof. split; [split; [done|by vm_compute|done]|by vm_compute]. Qed.
Lemma alone_rely : rely (M:=hmap) (B:=unit) (N:=nat) (fun w => w) 1 eq.
Proof. split; [|done]. intros w. split; [done|]. intros k e He. exists e. split; [done|]. case_decide; [apply kept_refl|done]. Qed.


Lemma every_attempt_sends_whole_body_witness :
  let '(r, w) := demo_start (Some "http/1.1") ["h3"; "h2"; "http/1.1"] 1 in
  exists l, w.(attempts) = l /\ Forall (carries_body [104; 105; 10; 63; 33] None) l.*2 /\ length l = 3%nat.
Proof.
  set (w0 := demo_world ["h3"; "h2"; "http/1.1"] 1).
  assert (He : exists e, exchange_of w0 1 = Some e
    /\ body_to_send 1 w0.(context).(request_head) e.(request) (client_body w0.(inbound_body)).1 = [104; 105; 10; 63; 33]
    /\ (client_body w0.(inbound_body)).2 = None) by (vm_compute; by eexists).
  destruct He as (e & He & Hd & Hn).
  assert (Hl : length (demo_start (Some "http/1.1") ["h3"; "h2"; "http/1.1"] 1).2.(attempts) = 3%nat) by by vm_compute.
  pose proof (every_attempt_sends_whole_body (SN:=answering (Some "http/1.1")) str_len display all_services (fun w => w) 1 eq alone_rely
    w0 e (fun w => source_of_view w w (same_view_refl w)) (demo_startable _ _) half_read_ok He) as Hs.
  cbv zeta in Hs. rewrite Hd, Hn in Hs. unfold w0 in Hs. fold (demo_start (Some "http/1.1") ["h3"; "h2"; "http/1.1"] 1) in Hs.
  destruct (demo_start _ _ _) as [r w]. destruct Hs as (l & Ha & Hc). exists l. cbn in Ha, Hl. rewrite Ha in Hl. by rewrite Ha.
Defined.

(** ** What the code does not expect *)

(** A forward that failed is forgotten when the program asks for its response,
    and the request is sent a second time. *)
Theorem failed_forward_sent_again :
  let start := demo_world ["http/1.1"] 0 <| inbound_body := BodyStream.new_inbound [Ok (BodyStream.FrameData [104; 105])] |> in
  let '(r, w) := start_native_default_upstream_http_forward_response (SN:=answering (Some "http/1.1")) str_len display all_services (fun w => w) start in
  r = Ok true /\ w.(native_forward) = Some (Err (UpstreamRequestFailed "connection closed")) /\ w.(attempts).*1 = [ByHttp1] /\
  let '(r, w) := start_outbound_exchange_response (SN:=answering (Some "http/1.1")) str_len display all_services (fun w => w) 1 w in
  is_Ok r = true /\ w.(attempts) = [(ByHttp1, Http1Upstream.Streaming (Some 5) [Ok [104; 105]]); (ByHttp1, Http1Upstream.Bytes [104; 105])].
Proof. by vm_compute. Qed.

(** Over HTTP/1 the protocol that the peer chose is looked at when the response
    is there: the request was carried out, and the program is told that it
    failed. *)
Theorem alpn_refused_after_response :
  let '(r, w) := demo_start (Some "h2") ["http/1.1"] 1 in
  r = Err (Start (UpstreamRequestFailed "tls ALPN mismatch: requested [http/1.1], negotiated h2"))
  /\ w.(attempts) = [(ByHttp1, Http1Upstream.Bytes [104; 105; 10; 63; 33])] /\ w.(network) = 0%nat.
Proof. by vm_compute. Qed.

(** A response that another task stored is replaced by one over an attached
    transport. *)
Theorem attached_replaces_stored s handle (w : World (M:=hmap) (B:=unit) (N:=nat)) e latency_ms :
  exchange_of w handle = Some e ->
  let '(r, w') := store_started handle true s latency_ms w in r = Ok (snapshot_of s) /\ stored handle (snapshot_of s) w'.
Proof.
  intros He. unfold store_started, with_exchange, mbind, eff_bind.
  destruct (lock_exchanges_run w) as (w1 & -> & Hr & _ & Hex & Hi). unfold exchange_of in He. rewrite He. cbn.
  assert (Ho : forall e', stored handle (snapshot_of s) (w1 <| context := w1.(context) <| registry := w1.(context).(registry)
    <| exchanges := <[handle := e']> w1.(context).(registry).(exchanges) |> |> |>) <-> e'.(response) = Ready (snapshot_of s)).
  { intros e'. unfold stored, exchange_of, regs. cbn. rewrite seed_initialized by done. cbn. rewrite lookup_insert_eq.
    split; [by intros (? & [= <-] & ?)|intros ?; by exists e']. }
  destruct (response e); cbn; by rewrite Ho.
Qed.

End UpstreamStart.
