(* ===== verification/Sockets.v ===== *)
(** Live sockets: what the host calls on TCP streams, TLS sessions and MQTT
    connections share.  A stream is the script of what its peer sends, with the
    time of each arrival, the script of how writes end, and the log of what was
    read and written.  The resolver, the sockets of the operating system and
    rustls are a [Network]; the tables are those of [TransportState] in
    [src/abi_impl/http/state.rs] that hold dynamic handles. *)

From S2P Require Import Prelude Bytes Effects TransportState TlsFlow HttpVersions HttpExchange TlsConfig.

Module Sockets.
Import TlsFlow (TlsFlowState).
Import TcpSocket (TcpSocketState).
Import TlsConfig (TlsCrate, ClientConfig).
Import HttpExchange (AuthorityCrate, parse_authority, authority_host).

(** ** A stream *)

(** A read that gives data gives at least one byte. *)
Inductive arrival :=
| Data (first : Z) (more : list Z)
| ReadError (message : string)
| Eof.

(** Arrivals carry their time in nanoseconds; after the last one the peer is
    silent.  A [Some] of [outcomes] is a write that fails after some bytes. *)
Record Stream := MkStream {
  incoming : list (Z * arrival);
  outcomes : list (option (nat * string));
  received : list Z;
  sent : list Z;
}.
#[export] Instance eta_stream : Eta Stream := fun s =>
  MkStream s.(incoming) s.(outcomes) s.(received) s.(sent).

(** How [timeout(limit, stream.read(&mut buffer))] ends. *)
Inductive read_end :=
| ReadBytes (bytes : list Z)  (** none at the end of the stream *)
| ReadFailed (message : string)
| ReadElapsed
| ReadNever.

(** The read is polled before the timer. *)
Definition read (max : nat) (limit : option Z) (now : Z) (s : Stream) : read_end * Z * Stream :=
  let elapsed := match limit with Some t => (ReadElapsed, now + t, s) | None => (ReadNever, now, s) end in
  match s.(incoming) with
  | [] => elapsed
  | (at_, a) :: rest =>
      let when := Z.max now at_ in
      if match limit with Some t => now + t <? when | None => false end then elapsed
      else
        match a with
        | Data b l =>
            let s := s <| received := s.(received) ++ take max (b :: l) |> in
            let rest := match drop max (b :: l) with [] => rest | b :: l => (at_, Data b l) :: rest end in
            (ReadBytes (take max (b :: l)), when, s <| incoming := rest |>)
        | ReadError e => (ReadFailed e, when, s <| incoming := rest |>)
        | Eof => (ReadBytes [], when, s)
        end
  end.

Definition write_all (bytes : list Z) (s : Stream) : result string unit * Stream :=
  match s.(outcomes) with
  | Some (k, e) :: r => (Err e, s <| outcomes := r |> <| sent := s.(sent) ++ take k bytes |>)
  | o => (Ok tt, s <| outcomes := tail o |> <| sent := s.(sent) ++ bytes |>)
  end.
Definition flush (s : Stream) : result string unit * Stream :=
  match s.(outcomes) with
  | Some (_, e) :: r => (Err e, s <| outcomes := r |>)
  | o => (Ok tt, s <| outcomes := tail o |>)
  end.

(** ** The outside *)

(** Its answers may differ from call to call: the first argument is the number
    of calls made before.  Errors are their text. *)
Class Network `{TlsCrate} := {
  SocketAddr : Type;
  ServerName : Type;
  is_ipv4 : SocketAddr -> bool;
  addr_str : SocketAddr -> string;
  parse_addr : string -> result string SocketAddr;
  lookup_host : nat -> string -> result string (list SocketAddr);
  new_socket : nat -> bool -> result string unit;
  bind : nat -> SocketAddr -> result string unit;
  (** the stream with its local and its peer address *)
  connect : nat -> SocketAddr -> result string (Stream * result string SocketAddr * result string SocketAddr);
  server_name : string -> result string ServerName;
  (** the stream of plain text, the negotiated protocol and the peer's first certificate *)
  tls_connect : nat -> ClientConfig -> ServerName -> Stream -> result string (Stream * option (list Z) * option (list Z));
  new_uuid : nat -> string;
}.

(** What the calls use of the values of the vm, of its errors' text and of the
    base64 crate. *)
Class Values := { Value : Type; as_bytes : Value -> option (list Z) }.
Class ErrorText := error_text : VmError -> string.
Class Base64 := { base64_encode : list Z -> string; base64_decode : string -> result string (list Z) }.

Definition value_to_bytes `{Values} (value : Value) : vm_result (list Z) :=
  ok_or (TypeMismatch "bytes") (as_bytes value).

(** A stream of bytes before anything was read or written. *)
Definition arrival_u8 (a : Z * arrival) : Prop := match a.2 with Data b l => is_u8s (b :: l) | _ => True end.
Definition stream_u8 (s : Stream) : Prop := Forall arrival_u8 s.(incoming).
Definition fresh (s : Stream) : Prop := stream_u8 s /\ s.(received) = [] /\ s.(sent) = [].

Class NetworkLaws `{Network} := {
  connect_fresh i a s local peer : connect i a = Ok (s, local, peer) -> fresh s;
  tls_connect_fresh i config name s0 s alpn certificate :
    stream_u8 s0 -> tls_connect i config name s0 = Ok (s, alpn, certificate) -> fresh s;
}.

(** ** The tables of dynamic handles *)

(** [Arc<Mutex<Option<TcpStream>>>]: [None] while the stream is owned elsewhere. *)
Definition SharedIo := option Stream.

Record Net := MkNet {
  next_tcp_stream_handle : Z;
  tcp_streams : gmap Z TcpSocketState;
  tcp_stream_ios : gmap Z SharedIo;
  dynamic_tls_sessions : gmap Z TlsFlowState;
  dynamic_tls_session_ios : gmap Z SharedIo;
  clock : Z;              (** [Instant::now()] *)
  outside_calls : nat;    (** calls of the [Network] so far *)
  dropped : list Stream;  (** the streams that were shut down and dropped *)
}.
#[export] Instance eta_net : Eta Net := fun n =>
  MkNet n.(next_tcp_stream_handle) n.(tcp_streams) n.(tcp_stream_ios) n.(dynamic_tls_sessions)
    n.(dynamic_tls_session_ios) n.(clock) n.(outside_calls) n.(dropped).

(** How a host call ends without a value: with an error for the program, with
    a panic, or not at all, because it waits for a peer that stays silent.  The
    model's loops also have fuel. *)
Inductive ended := Error (e : VmError) | Panics | Hangs | OutOfFuel.
Definition host_error {S A} (message : string) : eff ended S A := throw (Error (HostError message)).
(** A [Result] of code without effects, and one that may panic. *)
Definition or_error {S A} (r : vm_result A) : eff ended S A :=
  match r with Ok a => mret a | Err e => throw (Error e) end.
Definition of_outcome {S A} (r : outcome A) : eff ended S A :=
  match r with Ok a => mret a | Err (Fail e) => throw (Error e) | Err Panic => throw Panics end.
(** [map_err(|err| VmError::HostError(format!(...)))?] *)
Definition or_host_error {S A} (r : result string A) (message : string -> string) : eff ended S A :=
  match r with Ok a => mret a | Err e => host_error (message e) end.

Definition networking (A : Type) : Type := eff ended Net A.

Section sockets.
Context `{NW : Network} `{AC : AuthorityCrate}.

Definition outside {A} (f : nat -> A) : networking A := fun n =>
  (Ok (f n.(outside_calls)), n <| outside_calls := S n.(outside_calls) |>).

Definition allocate_tcp_stream_handle : networking Z :=
  n ← get_state;
  let handle := n.(next_tcp_stream_handle) in
  if handle =? HttpExchange.I64_MAX then host_error "tcp stream handle space exhausted"
  else
    _ ← modify (fun n => n <| next_tcp_stream_handle := handle + 1 |>
                           <| tcp_streams := <[handle := TcpSocket.default_socket]> n.(tcp_streams) |>);
    mret handle.

(** [if let Some(state) = tcp_streams.get_mut(&handle)] *)
Definition update_socket (handle : Z) (f : TcpSocketState -> TcpSocketState) : networking unit :=
  modify (fun n => n <| tcp_streams := alter f handle n.(tcp_streams) |>).
Definition update_tls_session (handle : Z) (f : TlsFlowState -> TlsFlowState) : networking unit :=
  modify (fun n => n <| dynamic_tls_sessions := alter f handle n.(dynamic_tls_sessions) |>).

(** [normalize_target] of the MQTT calls and [format_socket_authority] of the
    TCP and UDP calls, which differ in the word of their messages. *)
Definition format_socket_authority (host : string) (port : Z) (protocol : string) : vm_result (string * string * Z) :=
  let err m := Err (HostError m) in
  if is_empty host || HttpExchange.has_whitespace (bytes_of_string host)
  then err (protocol +:+ " target host must be non-empty and contain no whitespace, got '" +:+ host +:+ "'")
  else if (port <? 0) || (U16_MAX <? port)
  then err (protocol +:+ " target port must be between 1 and 65535, got " +:+ dec port)
  else if port =? 0
  then err (protocol +:+ " target port must be between 1 and 65535, got 0")
  else
    let authority := HttpVersion.format_upstream_authority host port in
    match parse_authority authority with
    | None => err ("invalid " +:+ protocol +:+ " target host='" +:+ host +:+ "' port=" +:+ dec port)
    | Some parsed => Ok (authority, TlsFlow.trim_brackets (authority_host parsed), port)
    end.

End sockets.

Section ends.
Context {S : Type} (P : S -> Prop) (R : ended -> S -> Prop).

Lemma triple_host_error {A} message (Q : A -> S -> Prop) :
  (forall s, P s -> R (Error (HostError message)) s) -> triple P (host_error message) Q R.
Proof. apply triple_throw. Qed.
Lemma triple_or_error {A} (r : vm_result A) :
  (forall e s, P s -> R (Error e) s) -> triple P (or_error r) (fun a s => P s /\ r = Ok a) R.
Proof. intros HR s Hs. destruct r as [a|e]; cbn; [done|by apply HR]. Qed.
Lemma triple_or_host_error {A} (r : result string A) message :
  (forall e s, P s -> R (Error e) s) -> triple P (or_host_error r message) (fun a s => P s /\ r = Ok a) R.
Proof. intros HR s Hs. destruct r as [a|e]; cbn; [done|by apply HR]. Qed.
End ends.

(** ** Reads and writes *)

(** What is still to come on a stream: an upper bound of the reads that give
    data or an error. *)
Definition arrival_size (a : Z * arrival) : nat := match a.2 with Data _ l => S (length l) | _ => 1 end.
Definition to_come (s : Stream) : nat := sum_list_with arrival_size s.(incoming).

Lemma read_spec max limit now s : (0 < max)%nat ->
  let '(r, now', s') := read max limit now s in
  s'.(sent) = s.(sent) /\ s'.(outcomes) = s.(outcomes) /\ (stream_u8 s -> stream_u8 s') /\
  match r with
  | ReadBytes [] => s' = s
  | ReadBytes l => s'.(received) = s.(received) ++ l /\ (to_come s' + length l)%nat = to_come s /\ (stream_u8 s -> is_u8s l)
  | ReadFailed _ => s'.(received) = s.(received) /\ (to_come s' < to_come s)%nat
  | ReadElapsed => s' = s /\ exists t, limit = Some t /\ now' = now + t
  | ReadNever => s' = s /\ limit = None /\ s.(incoming) = []
  end.
Proof.
  intros Hmax. unfold read.
  destruct s as [inc o rc sn]. unfold stream_u8, to_come. cbn [incoming].
  assert (He : forall l, inc = l -> (limit = None -> l = []) -> let '(r, now', s') := match limit with Some t => (ReadElapsed, now + t, MkStream inc o rc sn) | None => (ReadNever, now, MkStream inc o rc sn) end in
    sent s' = sn /\ outcomes s' = o /\ (Forall arrival_u8 inc -> Forall arrival_u8 (incoming s')) /\
    match r with ReadElapsed => s' = MkStream inc o rc sn /\ (exists t, limit = Some t /\ now' = now + t)
    | ReadNever => s' = MkStream inc o rc sn /\ limit = None /\ inc = [] | _ => False end).
  { intros l -> Hl. destruct limit as [t|]; cbn; split_and!; eauto. }
  destruct inc as [|[at_ a] rest].
  { specialize (He [] eq_refl ltac:(done)). by destruct limit. }
  destruct (match limit with Some t => _ | None => false end) eqn:Hw.
  { specialize (He _ eq_refl ltac:(by destruct limit)). by destruct limit. }
  clear He Hw. cbn [sent outcomes received set_field].
  destruct a as [b l|e|]; cbn [incoming sent outcomes received]; [| |done].
  - destruct max as [|max]; [lia|]. cbn [take drop].
    assert (Hl : (length (take max l) + length (drop max l) = length l)%nat) by (rewrite <-length_app, take_drop; done).
    split_and!; [done|done| |done| | ].
    + intros [Hu Hr]%Forall_cons. cbn in Hu. destruct (drop max l) eqn:E; [done|]. constructor; [|done].
      cbn. rewrite <-E. apply Forall_cons in Hu as [_ Hu]. by apply Forall_drop.
    + cbn [sum_list_with arrival_size length]. destruct (drop max l); cbn [sum_list_with arrival_size snd] in *; cbn in Hl |- *; lia.
    + intros [Hu _]%Forall_cons. cbn in Hu. apply Forall_cons in Hu as [? Hu]. constructor; [done|]. by apply Forall_take.
  - cbn. split_and!; [done|done| |done|lia]. by intros []%Forall_cons.
Qed.

Lemma write_all_spec bytes s :
  let '(r, s') := write_all bytes s in
  s'.(incoming) = s.(incoming) /\ s'.(received) = s.(received) /\ (r = Ok tt -> s'.(sent) = s.(sent) ++ bytes).
Proof. unfold write_all. destruct (outcomes s) as [|[[k e]|] r]; done. Qed.
Lemma flush_spec s :
  let '(r, s') := flush s in s'.(incoming) = s.(incoming) /\ s'.(received) = s.(received) /\ s'.(sent) = s.(sent).
Proof. unfold flush. destruct (outcomes s) as [|[[k e]|] r]; done. Qed.

(** ** An example *)

#[local] Existing Instance TlsConfig.text_pems.

(** A network whose resolver knows only some names and on which nothing arrives. *)
Definition quiet_network (known : string -> bool) : Network := {|
  SocketAddr := string; ServerName := string; is_ipv4 := fun _ => true; addr_str := id; parse_addr := Ok;
  lookup_host := fun _ a => if known a then Ok [a] else Err "unknown host"; new_socket := fun _ _ => Ok tt;
  bind := fun _ _ => Ok tt; connect := fun _ _ => Err "refused";
  server_name := Ok; tls_connect := fun _ _ _ _ => Err "no tls"; new_uuid := fun _ => "uuid";
|}.
Lemma quiet_network_laws known : @NetworkLaws _ (quiet_network known).
Proof. by split. Qed.

End Sockets.
