(* ===== verification/MqttUpstream.v ===== *)
(** Model of [src/abi_impl/mqtt/upstream.rs]: the host calls on MQTT
    connections.  A connection is opened over a TCP stream or a TLS session of
    the transport tables; packets are read from it in a loop that sends pings
    when the keep-alive interval ends, and calls that wait for an
    acknowledgement queue what else arrives as events. *)

From S2P Require Import Prelude Bytes Effects TransportState TlsFlow TlsConfig HttpExchange Sockets MqttModel MqttCodec.

Module MqttUpstream.
Import MqttModel MqttCodec Sockets.
Import HttpExchange (AuthorityCrate).
Import TlsConfig (TlsCrate).

Definition DEFAULT_UPSTREAM_MQTT_CONNECTION_HANDLE : Z := 1.
Definition FIRST_DYNAMIC_MQTT_CONNECTION_HANDLE : Z := 2.

Record MqttRegistry := MkRegistry {
  default_upstream_mqtt : MqttConnectionState;
  next_mqtt_connection_handle : Z;
  mqtt_connections : gmap Z MqttConnectionState;
}.
#[export] Instance eta_registry : Eta MqttRegistry := fun r =>
  MkRegistry r.(default_upstream_mqtt) r.(next_mqtt_connection_handle) r.(mqtt_connections).

Definition default_registry : MqttRegistry :=
  MkRegistry default_state FIRST_DYNAMIC_MQTT_CONNECTION_HANDLE ∅.

(** The parts of the context the calls use: [lock_mqtt()] and the tables of
    [lock_transport()]. *)
Record World := MkWorld { registry : MqttRegistry; net : Net }.
#[export] Instance eta_world : Eta World := fun w => MkWorld w.(registry) w.(net).

Inductive MqttHandle := DefaultUpstream | Dynamic (handle : Z).
#[export] Instance MqttHandle_eq_dec : EqDecision MqttHandle.
Proof. solve_decision. Defined.
Record KeepAliveReadWait := MkWait { timeout : Z; wait_ping_response_pending : bool }.
Inductive CarrierReadChunk := ChunkData (bytes : list Z) | TimedOut | ChunkClosed.

(** Texts of other crates and of derived [Debug]: of a packet, of an error of
    the vm. *)
Class Texts := { debug_packet : MqttIncomingPacket -> string; error_display : VmError -> string }.

Definition call (A : Type) : Type := eff ended World A.

Definition on_net {A} (m : networking A) : call A := zoom net (fun n w => w <| net := n |>) m.

Section calls.
Context `{NW : Network} `{AC : AuthorityCrate} `{TX : Texts}.

(** ** Connections *)

Definition mqtt_connection_exists (handle : Z) : call bool :=
  if handle =? DEFAULT_UPSTREAM_MQTT_CONNECTION_HANDLE then mret true
  else w ← get_state; mret (bool_decide (is_Some (w.(registry).(mqtt_connections) !! handle))).

Definition allocate_mqtt_connection_handle : call Z :=
  w ← get_state;
  let handle := w.(registry).(next_mqtt_connection_handle) in
  if handle =? HttpExchange.I64_MAX then host_error "mqtt connection handle space exhausted"
  else
    _ ← modify (fun w => w <| registry := w.(registry) <| next_mqtt_connection_handle := handle + 1 |>
                   <| mqtt_connections := <[handle := default_state]> w.(registry).(mqtt_connections) |> |>);
    mret handle.

Definition decode_connection (connection : Z) : call MqttHandle :=
  if connection =? DEFAULT_UPSTREAM_MQTT_CONNECTION_HANDLE then mret DefaultUpstream
  else
    exists_ ← mqtt_connection_exists connection;
    if (exists_ : bool) then mret (Dynamic connection)
    else host_error ("invalid mqtt connection handle " +:+ dec connection +:+
           "; reserved handles are 1 (default upstream) and allocated handles start at 2").

Definition state_of (h : MqttHandle) (w : World) : option MqttConnectionState :=
  match h with
  | DefaultUpstream => Some w.(registry).(default_upstream_mqtt)
  | Dynamic h => w.(registry).(mqtt_connections) !! h
  end.
Definition set_state (h : MqttHandle) (c : MqttConnectionState) (w : World) : World :=
  match h with
  | DefaultUpstream => w <| registry := w.(registry) <| default_upstream_mqtt := c |> |>
  | Dynamic h => w <| registry := w.(registry) <| mqtt_connections := <[h := c]> w.(registry).(mqtt_connections) |> |>
  end.

Definition connection_state (h : MqttHandle) : call MqttConnectionState :=
  w ← get_state;
  match state_of h w with Some c => mret c | None => throw Panics end.

Definition with_connection_state_mut {T} (connection : Z) (mutate : eff VmError MqttConnectionState T) : call T :=
  h ← decode_connection connection;
  w ← get_state;
  match state_of h w with
  | None => throw Panics
  | Some c =>
      let '(r, c) := mutate c in
      _ ← modify (set_state h c);
      or_error r
  end.

Definition with_configurable_connection_state_mut {T} (connection : Z) (mutate : eff VmError MqttConnectionState T) : call T :=
  with_connection_state_mut connection
    (state ← get_state;
     match state.(phase) with
     | CarrierAttached | ConnectSent | Open =>
         throw (HostError "mqtt connection configuration is read-only after the carrier is attached")
     | _ => mutate
     end).

Definition no_carrier {E S A} (e : VmError -> E) : eff E S A :=
  throw (e (HostError "mqtt connection has no attached carrier")).

Definition active_connection_carrier (connection : Z) : call MqttCarrierAttachment :=
  with_connection_state_mut connection
    (state ← get_state;
     match state.(carrier) with Some k => mret k | None => no_carrier id end).

(** [Instant::now()] *)
Definition instant_now : call Z := w ← get_state; mret w.(net).(clock).

Definition note_connection_activity (connection : Z) : call unit :=
  now ← instant_now; with_connection_state_mut connection (modify (note_packet_activity now)).
Definition note_connection_ping_response (connection : Z) : call unit :=
  now ← instant_now; with_connection_state_mut connection (modify (note_ping_response_received now)).
Definition note_connection_ping_request (connection : Z) : call unit :=
  now ← instant_now; with_connection_state_mut connection (modify (note_ping_request_sent now)).

Definition keep_alive_read_wait (connection : Z) : call (option KeepAliveReadWait) :=
  now ← instant_now;
  with_connection_state_mut connection
    (state ← get_state;
     mret ((fun t => MkWait t state.(ping_response_pending)) <$> next_keep_alive_wait now state)).

Definition terminal_connection_message (connection : Z) (closed_message : string) : call string :=
  h ← decode_connection connection;
  current ← connection_state h;
  mret match current.(phase) with
       | Failed => default closed_message current.(failure_message)
       | _ => closed_message
       end.

Definition terminal_connection_event (connection : Z) : call (option MqttEvent) :=
  h ← decode_connection connection;
  current ← connection_state h;
  mret match current.(phase) with
       | Failed => Some (EvFailed (default "mqtt connection failed" current.(failure_message)))
       | Closed => Some (EvClosed "connection-closed")
       | _ => None
       end.

Definition normalize_target (host : string) (port : Z) : vm_result (string * string * Z) :=
  format_socket_authority host port "mqtt".

(** A UUID is drawn here whether or not the client identifier is missing. *)
Definition connection_snapshot (connection : Z) : call MqttConnectConfig :=
  uuid ← on_net (outside new_uuid);
  with_connection_state_mut connection
    (state ← get_state;
     match state.(host) with
     | None => throw (HostError "mqtt target host must be configured before connect")
     | Some h =>
         let '(id, state') := ensure_client_id uuid state in
         _ ← modify (fun _ => state');
         mret {| cfg_scheme := state.(scheme); cfg_host := h;
                 cfg_port := default (default_port state.(scheme)) state.(port);
                 cfg_client_id := id; cfg_username := state.(username); cfg_password := state.(password);
                 cfg_keep_alive_secs := state.(keep_alive_secs); cfg_clean_start := state.(clean_start) |}
     end).

(** ** Carriers *)

(** The loop over the resolved addresses. *)
Fixpoint connect_resolved (handle : Z) (resolved : list SocketAddr) (last_error : option string) : networking Z :=
  match resolved with
  | [] =>
      let message := default "no resolved mqtt target addresses were usable" last_error in
      _ ← update_socket handle (TcpSocket.mark_failed message);
      host_error ("failed to connect mqtt tcp carrier " +:+ dec handle +:+ ": " +:+ message)
  | addr :: resolved =>
      socket ← outside (fun k => new_socket k (is_ipv4 addr));
      _ ← or_host_error socket (fun e => "failed to create mqtt tcp socket: " +:+ e);
      connected ← outside (fun k => connect k addr);
      match connected with
      | Ok (stream, local, peer) =>
          local ← or_host_error local (fun e => "failed to read mqtt tcp local address: " +:+ e);
          peer ← or_host_error peer (fun e => "failed to read mqtt tcp peer address: " +:+ e);
          _ ← update_socket handle (TcpSocket.mark_connected (addr_str local) (addr_str peer));
          _ ← modify (fun n => n <| tcp_stream_ios := <[handle := Some stream]> n.(tcp_stream_ios) |>);
          mret handle
      | Err e => connect_resolved handle resolved (Some e)
      end
  end.

Definition connect_tcp_carrier (host : string) (port : Z) : networking Z :=
  handle ← allocate_tcp_stream_handle;
  '(authority, normalized_host, normalized_port) ← or_error (normalize_target host port);
  n ← get_state;
  _ ← match n.(tcp_streams) !! handle with
      | None => throw Panics
      | Some _ => update_socket handle (TcpSocket.set_target authority normalized_host normalized_port)
      end;
  resolved ← outside (fun k => lookup_host k authority);
  match resolved with
  | Err e =>
      let message := "failed to resolve mqtt target '" +:+ authority +:+ "': " +:+ e in
      _ ← update_socket handle (TcpSocket.mark_failed message);
      host_error message
  | Ok resolved => connect_resolved handle resolved None
  end.

(** [get_or_insert_with(stream, TlsFlowState::for_dynamic_socket)] *)
Definition dynamic_tls_session (stream : Z) (f : TlsFlow.TlsFlowState -> TlsFlow.TlsFlowState) : networking unit :=
  modify (fun n => n <| dynamic_tls_sessions := partial_alter (fun o => Some (f (default TlsFlow.for_dynamic_socket o))) stream n.(dynamic_tls_sessions) |>).

Definition upgrade_tcp_carrier_to_tls (stream : Z) (host : string) : networking Z :=
  _ ← dynamic_tls_session stream (fun flow =>
        TlsFlow.note_client_hello_sent (TlsFlow.note_handshake_prepared (TlsFlow.observe_socket_target HttpExchange.host_of host flow)));
  n ← get_state;
  match n.(dynamic_tls_sessions) !! stream with
  | None => throw Panics
  | Some flow =>
      let peer_name := default "" flow.(TlsFlow.peer_name) in
      if is_empty peer_name then host_error ("mqtt tls session handle " +:+ dec stream +:+ " has no peer name")
      else
        name ← or_host_error (server_name peer_name) (fun e =>
          "invalid mqtt tls peer name '" +:+ peer_name +:+ "' for stream " +:+ dec stream +:+ ": " +:+ e);
        n ← get_state;
        match n.(tcp_stream_ios) !! stream with
        | None => host_error ("mqtt tcp carrier " +:+ dec stream +:+ " must be connected before tls upgrade")
        | Some io =>
            _ ← modify (fun n => n <| tcp_stream_ios := delete stream n.(tcp_stream_ios) |>);
            match io with
            | None => host_error ("mqtt tcp carrier " +:+ dec stream +:+ " is already in use during tls upgrade")
            | Some tcp_stream =>
                config ← or_host_error (TlsConfig.build_dynamic_client_config flow) (fun e => e);
                connected ← outside (fun k => tls_connect k config name tcp_stream);
                match connected with
                | Ok (tls_stream, alpn, certificate) =>
                    _ ← update_tls_session stream (fun flow =>
                          let flow := TlsFlow.note_server_certificate_received certificate (TlsFlow.note_server_hello_received flow) in
                          let flow := if flow.(TlsFlow.verify_peer) && flow.(TlsFlow.verify_hostname)
                                      then TlsFlow.note_server_certificate_verified flow
                                      else TlsFlow.note_verification_skipped flow in
                          TlsFlow.mark_handshake_complete (from_utf8_lossy <$> alpn) flow);
                    _ ← modify (fun n => n <| dynamic_tls_session_ios := <[stream := Some tls_stream]> n.(dynamic_tls_session_ios) |>);
                    mret stream
                | Err e =>
                    _ ← update_tls_session stream TlsFlow.mark_failed;
                    _ ← update_socket stream (TcpSocket.mark_failed ("mqtt tls handshake failed: " +:+ e));
                    host_error ("mqtt tls handshake failed for stream " +:+ dec stream +:+ ": " +:+ e)
                end
            end
        end
  end.

(** [attach_carrier]; the method of the same name is [MqttModel.attach_carrier]. *)
Definition attach_new_carrier (config : MqttConnectConfig) : networking MqttCarrierAttachment :=
  stream ← connect_tcp_carrier config.(cfg_host) config.(cfg_port);
  if uses_tls config.(cfg_scheme) then
    session ← upgrade_tcp_carrier_to_tls stream config.(cfg_host);
    _ ← update_socket session TcpSocket.mark_mqtt_attached;
    mret (Tls session)
  else
    _ ← update_socket stream TcpSocket.mark_mqtt_attached;
    mret (Tcp stream).

(** The shared stream of a carrier, and the words of the messages about it. *)
Definition carrier_ios (k : MqttCarrierAttachment) (n : Net) : option SharedIo :=
  match k with
  | Tcp stream => n.(tcp_stream_ios) !! stream
  | Tls session => n.(dynamic_tls_session_ios) !! session
  end.
Definition set_carrier_io (k : MqttCarrierAttachment) (io : SharedIo) (n : Net) : Net :=
  match k with
  | Tcp stream => n <| tcp_stream_ios := <[stream := io]> n.(tcp_stream_ios) |>
  | Tls session => n <| dynamic_tls_session_ios := <[session := io]> n.(dynamic_tls_session_ios) |>
  end.
Definition remove_carrier_io (k : MqttCarrierAttachment) (n : Net) : Net :=
  match k with
  | Tcp stream => n <| tcp_stream_ios := delete stream n.(tcp_stream_ios) |>
  | Tls session => n <| dynamic_tls_session_ios := delete session n.(dynamic_tls_session_ios) |>
  end.
Definition carrier_name (k : MqttCarrierAttachment) : string :=
  match k with Tcp s => "mqtt tcp carrier " +:+ dec s | Tls s => "mqtt tls carrier " +:+ dec s end.
Definition carrier_fails (k : MqttCarrierAttachment) (what e : string) : string :=
  match k with
  | Tcp s => "mqtt tcp " +:+ what +:+ " failed for stream " +:+ dec s +:+ ": " +:+ e
  | Tls s => "mqtt tls " +:+ what +:+ " failed for session " +:+ dec s +:+ ": " +:+ e
  end.

(** [active_tcp_io] or [active_tls_io], then [lock().await] and [as_mut()]. *)
Definition carrier_stream (k : MqttCarrierAttachment) : networking Stream :=
  n ← get_state;
  match carrier_ios k n with
  | None => host_error (carrier_name k +:+ " is unavailable")
  | Some None => host_error (carrier_name k +:+ " is already in use")
  | Some (Some stream) => mret stream
  end.

Definition write_carrier_bytes (k : MqttCarrierAttachment) (bytes : list Z) : networking unit :=
  stream ← carrier_stream k;
  let '(r, stream) := write_all bytes stream in
  _ ← modify (set_carrier_io k (Some stream));
  _ ← or_host_error r (carrier_fails k "write");
  let '(r, stream) := flush stream in
  _ ← modify (set_carrier_io k (Some stream));
  or_host_error r (carrier_fails k "flush").

Definition write_connection_packet (connection : Z) (bytes : list Z) : call unit :=
  k ← active_connection_carrier connection;
  _ ← on_net (write_carrier_bytes k bytes);
  note_connection_activity connection.

Definition write_connection_ping_request (connection : Z) : call unit :=
  k ← active_connection_carrier connection;
  bytes ← of_outcome encode_pingreq_packet;
  _ ← on_net (write_carrier_bytes k bytes);
  note_connection_ping_request connection.

Definition read_carrier_chunk (k : MqttCarrierAttachment) (max_bytes : nat) (timeout_after : option Z) : networking CarrierReadChunk :=
  stream ← carrier_stream k;
  n ← get_state;
  let '(r, now, stream) := read max_bytes timeout_after n.(clock) stream in
  _ ← modify (fun n => set_carrier_io k (Some stream) n <| clock := now |>);
  match r with
  | ReadElapsed => mret TimedOut
  | ReadNever => throw Hangs
  | ReadFailed e => host_error (carrier_fails k "read" e)
  | ReadBytes [] => mret ChunkClosed
  | ReadBytes bytes => mret (ChunkData bytes)
  end.

Definition close_carrier (k : MqttCarrierAttachment) (failure_message : option string) : networking unit :=
  n ← get_state;
  let io := carrier_ios k n in
  _ ← modify (remove_carrier_io k);
  _ ← match k with
      | Tcp _ => mret tt
      | Tls session =>
          update_tls_session session (match failure_message with Some _ => TlsFlow.mark_failed | None => TlsFlow.mark_closed end)
      end;
  _ ← update_socket (match k with Tcp s => s | Tls s => s end)
        (match failure_message with Some m => TcpSocket.mark_failed m | None => TcpSocket.mark_closed end);
  match io with
  | Some (Some stream) => modify (fun n => n <| dropped := n.(dropped) ++ [stream] |>)
  | _ => mret tt
  end.

Definition take_connection_carrier (connection : Z) : call (option MqttCarrierAttachment) :=
  with_connection_state_mut connection
    (state ← get_state; let '(k, state) := take_carrier state in _ ← modify (fun _ => state); mret k).

Definition close_connection_carrier (connection : Z) (failure_message : option string) : call unit :=
  k ← take_connection_carrier connection;
  match k with
  | Some k => on_net (close_carrier k failure_message)
  | None => mret tt
  end.

(** ** Reading packets *)

(** What the peer still has to say on a carrier bounds the loops. *)
Definition carrier_to_come (k : MqttCarrierAttachment) (n : Net) : nat :=
  match carrier_ios k n with Some (Some stream) => to_come stream | _ => 0 end.

Definition KEEP_ALIVE_EXPIRED : string := "mqtt keepalive expired while waiting for broker activity".

(** The end of the reading loop when no activity answered the ping. *)
Definition keep_alive_expired (connection : Z) (buffer : list Z) : call (option MqttIncomingPacket) :=
  _ ← with_connection_state_mut connection
        (modify (fun c => mark_failed KEEP_ALIVE_EXPIRED (c <| pending_read_buffer := buffer |>)));
  _ ← close_connection_carrier connection (Some KEEP_ALIVE_EXPIRED);
  mret None.

Fixpoint read_packet_loop (fuel : nat) (connection : Z) (k : MqttCarrierAttachment) (buffer : list Z)
    : call (option MqttIncomingPacket) :=
  match fuel with
  | O => throw OutOfFuel
  | S fuel =>
      decoded ← of_outcome (decode_packet buffer);
      match decoded with
      | Some (packet, consumed) =>
          if len buffer <? consumed then throw Panics
          else
            _ ← with_connection_state_mut connection
                  (modify (fun c => c <| pending_read_buffer := drop (Z.to_nat consumed) buffer |>));
            mret (Some packet)
      | None =>
          wait ← keep_alive_read_wait connection;
          let expired := match wait with Some w => w.(timeout) =? 0 | None => false end in
          if (expired : bool) then
            if match wait with Some w => w.(wait_ping_response_pending) | None => false end
            then keep_alive_expired connection buffer
            else
              _ ← write_connection_ping_request connection;
              read_packet_loop fuel connection k buffer
          else
            wait ← keep_alive_read_wait connection;
            chunk ← on_net (read_carrier_chunk k 4096 (timeout <$> wait));
            match chunk with
            | ChunkData chunk =>
                _ ← note_connection_activity connection;
                read_packet_loop fuel connection k (buffer ++ chunk)
            | TimedOut =>
                match wait with
                | None => host_error "mqtt read timed out without an active keepalive policy"
                | Some w =>
                    if w.(wait_ping_response_pending) then keep_alive_expired connection buffer
                    else
                      _ ← write_connection_ping_request connection;
                      read_packet_loop fuel connection k buffer
                end
            | ChunkClosed =>
                _ ← with_connection_state_mut connection
                      (modify (fun c => mark_closed (c <| pending_read_buffer := buffer |>)));
                mret None
            end
      end
  end.

Definition take_read_buffer (connection : Z) : call (MqttCarrierAttachment * list Z) :=
  with_connection_state_mut connection
    (state ← get_state;
     match state.(carrier) with
     | None => no_carrier id
     | Some k => _ ← modify (fun c => c <| pending_read_buffer := [] |>); mret (k, state.(pending_read_buffer))
     end).

Definition read_next_packet (connection : Z) : call (option MqttIncomingPacket) :=
  '(k, buffer) ← take_read_buffer connection;
  w ← get_state;
  read_packet_loop (2 * carrier_to_come k w.(net) + 2) connection k buffer.

(** ** Events *)

Definition queue_event (connection : Z) (event : MqttEvent) : call unit :=
  with_connection_state_mut connection (modify (fun c => c <| pending_events := c.(pending_events) ++ [event] |>)).

Definition pop_queued_event (connection : Z) : call (option MqttEvent) :=
  with_connection_state_mut connection
    (state ← get_state;
     match state.(pending_events) with
     | [] => mret None
     | e :: events => _ ← modify (fun c => c <| pending_events := events |>); mret (Some e)
     end).

Definition handle_unsolicited_packet (connection : Z) (packet : MqttIncomingPacket) : call unit :=
  match packet with
  | Publish topic payload qos retain dup packet_id =>
      _ ← (if qos =? 1 then
             match packet_id with
             | None => host_error "mqtt qos1 publish is missing a packet id"
             | Some id =>
                 bytes ← of_outcome (encode_puback_packet id);
                 write_connection_packet connection bytes
             end
           else mret tt);
      queue_event connection (EvPublish topic payload qos retain dup)
  | Disconnect reason_code =>
      _ ← with_connection_state_mut connection (modify mark_closed);
      queue_event connection (EvClosed ("remote-disconnect:" +:+ dec reason_code))
  | PingResp => note_connection_ping_response connection
  | ConnAck _ | PubAck _ _ | SubAck _ _ | UnsubAck _ _ => mret tt
  end.

(** A bound of the packets that can still be read on a connection. *)
Definition packets_to_come (connection : Z) : call nat :=
  h ← decode_connection connection;
  state ← connection_state h;
  w ← get_state;
  mret (length state.(pending_read_buffer)
        + match state.(carrier) with Some k => carrier_to_come k w.(net) | None => 0 end)%nat.

(** The loop of the three waits: [accept] is the answer to the awaited packet. *)
Fixpoint wait_loop (fuel : nat) (connection : Z) (accept : MqttIncomingPacket -> option (vm_result unit))
    (closed_message : string) : call unit :=
  match fuel with
  | O => throw OutOfFuel
  | S fuel =>
      packet ← read_next_packet connection;
      match packet with
      | Some packet =>
          match accept packet with
          | Some r => or_error r
          | None =>
              _ ← handle_unsolicited_packet connection packet;
              wait_loop fuel connection accept closed_message
          end
      | None =>
          message ← terminal_connection_message connection closed_message;
          host_error message
      end
  end.
Definition wait_for (connection : Z) (accept : MqttIncomingPacket -> option (vm_result unit)) (closed_message : string) : call unit :=
  fuel ← packets_to_come connection;
  wait_loop (S fuel) connection accept closed_message.

(** [{:?}] of a list of bytes *)
Fixpoint join (sep : string) (l : list string) : string :=
  match l with [] => "" | [s] => s | s :: l => s +:+ sep +:+ join sep l end.
Definition debug_codes (codes : list Z) : string := "[" +:+ join ", " (dec <$> codes) +:+ "]".

Definition puback_answer (expected : Z) (p : MqttIncomingPacket) : option (vm_result unit) :=
  match p with
  | PubAck id reason_code =>
      if id =? expected
      then Some (if 128 <=? reason_code
                 then Err (HostError ("mqtt publish rejected with reason code " +:+ dec reason_code)) else Ok tt)
      else None
  | _ => None
  end.
Definition codes_answer (what : string) (reason_codes : list Z) : vm_result unit :=
  if existsb (fun code => 128 <=? code) reason_codes
  then Err (HostError ("mqtt " +:+ what +:+ " rejected with reason codes " +:+ debug_codes reason_codes)) else Ok tt.
Definition suback_answer (expected : Z) (p : MqttIncomingPacket) : option (vm_result unit) :=
  match p with
  | SubAck id codes => if id =? expected then Some (codes_answer "subscribe" codes) else None
  | _ => None
  end.
Definition unsuback_answer (expected : Z) (p : MqttIncomingPacket) : option (vm_result unit) :=
  match p with
  | UnsubAck id codes => if id =? expected then Some (codes_answer "unsubscribe" codes) else None
  | _ => None
  end.

Definition wait_for_puback (connection expected : Z) : call unit :=
  wait_for connection (puback_answer expected) "mqtt connection closed while waiting for puback".
Definition wait_for_suback (connection expected : Z) : call unit :=
  wait_for connection (suback_answer expected) "mqtt connection closed while waiting for suback".
Definition wait_for_unsuback (connection expected : Z) : call unit :=
  wait_for connection (unsuback_answer expected) "mqtt connection closed while waiting for unsuback".

(** ** Opening *)

(** The carrier was refused: the connection fails and the carrier is closed. *)
Definition connect_failed {A} (connection : Z) (k : MqttCarrierAttachment) (message : string) (e : ended) : call A :=
  _ ← with_connection_state_mut connection (modify (mark_failed message));
  _ ← on_net (close_carrier k (Some message));
  throw e.

Definition or_connect_failed (connection : Z) (k : MqttCarrierAttachment) (m : call unit) : call unit := fun w =>
  match m w with
  | (Err (Error e), w) => connect_failed connection k (error_display e) (Error e) w
  | r => r
  end.

Definition connack (connection : Z) (k : MqttCarrierAttachment) : call bool :=
  let rejected message := connect_failed connection k message (Error (HostError message)) in
  packet ← read_next_packet connection;
  match packet with
  | Some (ConnAck reason_code) =>
      if reason_code <? 128 then
        now ← instant_now;
        _ ← with_connection_state_mut connection (modify (mark_open now));
        mret true
      else rejected ("mqtt connect rejected with reason code " +:+ dec reason_code)
  | Some packet => rejected ("expected mqtt connack, received " +:+ debug_packet packet)
  | None => rejected "mqtt connection closed before connack"
  end.

Definition ensure_connection_open (connection : Z) : call bool :=
  h ← decode_connection connection;
  state ← connection_state h;
  match state.(phase) with
  | Open => mret true
  | _ =>
      _ ← close_connection_carrier connection None;
      config ← connection_snapshot connection;
      k ← on_net (attach_new_carrier config);
      _ ← with_connection_state_mut connection (modify (attach_carrier k));
      packet ← of_outcome (encode_connect_packet config);
      _ ← or_connect_failed connection k (write_connection_packet connection packet);
      _ ← with_connection_state_mut connection (modify note_connect_sent);
      connack connection k
  end.

Definition parse_qos (qos : Z) : vm_result Z :=
  if qos =? 0 then Ok 0
  else if qos =? 1 then Ok 1
  else if qos =? 2 then Err (HostError "mqtt qos 2 is not supported in this milestone")
  else Err (HostError ("mqtt qos must be 0 or 1, got " +:+ dec qos)).

Definition fresh_packet_id (connection : Z) : call Z :=
  with_connection_state_mut connection
    (state ← get_state; let '(id, state) := next_packet_id state in _ ← modify (fun _ => state); mret id).

(** ** Publishing, subscribing, reading events *)

Definition publish_payload (connection : Z) (topic : string) (payload : list Z) (qos : Z) (retain : bool) : call bool :=
  if is_empty topic then host_error "mqtt publish topic must not be empty"
  else
    _ ← ensure_connection_open connection;
    qos ← or_error (parse_qos qos);
    packet_id ← (if qos =? 0 then mret None else id ← fresh_packet_id connection; mret (Some id));
    bytes ← of_outcome (encode_publish_packet topic payload qos retain packet_id);
    _ ← write_connection_packet connection bytes;
    _ ← match packet_id with Some id => wait_for_puback connection id | None => mret tt end;
    mret true.

Definition subscribe_filter (connection : Z) (filter : string) (qos : Z) : call bool :=
  if is_empty filter then host_error "mqtt subscription filter must not be empty"
  else
    _ ← ensure_connection_open connection;
    qos ← or_error (parse_qos qos);
    packet_id ← fresh_packet_id connection;
    bytes ← of_outcome (encode_subscribe_packet filter qos packet_id);
    _ ← write_connection_packet connection bytes;
    _ ← wait_for_suback connection packet_id;
    mret true.

Definition unsubscribe_filter (connection : Z) (filter : string) : call bool :=
  if is_empty filter then host_error "mqtt unsubscribe filter must not be empty"
  else
    _ ← ensure_connection_open connection;
    packet_id ← fresh_packet_id connection;
    bytes ← of_outcome (encode_unsubscribe_packet filter packet_id);
    _ ← write_connection_packet connection bytes;
    _ ← wait_for_unsuback connection packet_id;
    mret true.

Fixpoint event_loop (fuel : nat) (connection : Z) : call MqttEvent :=
  match fuel with
  | O => throw OutOfFuel
  | S fuel =>
      queued ← pop_queued_event connection;
      match queued with
      | Some event => mret event
      | None =>
          packet ← read_next_packet connection;
          match packet with
          | Some packet =>
              _ ← handle_unsolicited_packet connection packet;
              event_loop fuel connection
          | None =>
              terminal ← terminal_connection_event connection;
              match terminal with
              | Some event => mret event
              | None => event_loop fuel connection
              end
          end
      end
  end.

(** [read_next_event_value] before [into_value], which makes a value of the vm
    of the event. *)
Definition read_next_event (connection : Z) : call MqttEvent :=
  queued ← pop_queued_event connection;
  match queued with
  | Some event => mret event
  | None =>
      terminal ← terminal_connection_event connection;
      match terminal with
      | Some event => mret event
      | None =>
          _ ← ensure_connection_open connection;
          fuel ← packets_to_come connection;
          event_loop (fuel + 2) connection
      end
  end.

(** ** Host calls *)

Definition connection_is_present (connection : Z) : call bool :=
  h ← decode_connection connection; state ← connection_state h; mret state.(present).

Definition connection_set_scheme (connection : Z) (value : string) : call unit :=
  value ← or_error (MqttModel.parse value);
  with_configurable_connection_state_mut connection (modify (set_scheme value)).

Definition connection_set_target (connection : Z) (host : string) (port : Z) : call unit :=
  '(_, normalized_host, port) ← or_error (normalize_target host port);
  with_configurable_connection_state_mut connection (modify (set_target normalized_host port)).

Definition connection_set_client_id (connection : Z) (client_id : string) : call unit :=
  with_configurable_connection_state_mut connection (modify (set_client_id client_id)).
Definition connection_set_username (connection : Z) (username : string) : call unit :=
  with_configurable_connection_state_mut connection (modify (set_username username)).
Definition connection_set_password (connection : Z) (password : string) : call unit :=
  with_configurable_connection_state_mut connection (modify (set_password password)).
Definition connection_set_keep_alive_secs (connection keep_alive_secs : Z) : call unit :=
  if (keep_alive_secs <? 0) || (U16_MAX <? keep_alive_secs)
  then host_error ("mqtt keep alive must be between 0 and 65535 seconds, got " +:+ dec keep_alive_secs)
  else with_configurable_connection_state_mut connection (modify (set_keep_alive_secs keep_alive_secs)).
Definition connection_set_clean_start (connection : Z) (enabled : bool) : call unit :=
  with_configurable_connection_state_mut connection (modify (set_clean_start enabled)).

Definition connection_get_phase (connection : Z) : call string :=
  h ← decode_connection connection; state ← connection_state h; mret (phase_as_str state.(phase)).

(** A [Result] kept for later. *)
Definition attempt {A} (m : call A) : call (vm_result A) := fun w =>
  match m w with
  | (Ok a, w) => (Ok (Ok a), w)
  | (Err (Error e), w) => (Ok (Err e), w)
  | (Err e, w) => (Err e, w)
  end.

Definition connection_disconnect (connection reason_code : Z) (reason_text : string) : call unit :=
  if (reason_code <? 0) || (255 <? reason_code)
  then host_error ("mqtt disconnect reason code must be between 0 and 255, got " +:+ dec reason_code)
  else
    h ← decode_connection connection;
    state ← connection_state h;
    write_result ← match state.(carrier) with
                   | Some _ =>
                       packet ← of_outcome (encode_disconnect_packet reason_code reason_text);
                       attempt (write_connection_packet connection packet)
                   | None => mret (Ok tt)
                   end;
    _ ← close_connection_carrier connection None;
    _ ← with_connection_state_mut connection (modify mark_closed);
    or_error write_result.

Definition connection_publish_text (connection : Z) (topic payload : string) (qos : Z) (retain : bool) : call bool :=
  publish_payload connection topic (bytes_of_string payload) qos retain.

(** [STANDARD.decode] of the base64 crate is given. *)
Definition connection_publish_binary_base64 (decode : string -> result string (list Z))
    (connection : Z) (topic payload : string) (qos : Z) (retain : bool) : call bool :=
  payload ← or_host_error (decode payload) (fun e => "mqtt binary payload must be base64 encoded: " +:+ e);
  publish_payload connection topic payload qos retain.

End calls.
End MqttUpstream.
