(* ===== verification/MqttSession.v ===== *)
(** What the operations of [MqttUpstream] do on one connection: a logic for
    computations that change one connection and the tables, and for every
    operation a lemma that says what it reads and writes on the carrier, that it
    ends, and what it does to the history of a session. *)

From S2P Require Import Prelude Bytes Effects TransportState TlsFlow TlsConfig HttpExchange Sockets MqttModel MqttCodec MqttUpstream.

Module MqttSession.
Import MqttModel MqttCodec Sockets MqttUpstream.
Import HttpExchange (AuthorityCrate).
Import TlsConfig (TlsCrate).

(** ** Triples on one connection *)

Abbreviation C := MqttConnectionState.

Definition handle_of (connection : Z) : MqttHandle :=
  if connection =? DEFAULT_UPSTREAM_MQTT_CONNECTION_HANDLE then DefaultUpstream else Dynamic connection.

Section local.
Context `{NW : Network} `{AC : AuthorityCrate} `{TX : Texts}.
Context (connection : Z) (w0 : World).

(** The world whose only parts that a call on [connection] may change are the
    state of that connection and the transport tables. *)
Definition at_ (c : C) (n : Net) : World := set_state (handle_of connection) c (w0 <| net := n |>).

Definition lt {A} (P : C -> Net -> Prop) (m : call A) (Q : A -> C -> Net -> Prop) (R : ended -> C -> Net -> Prop) : Prop :=
  forall c n, P c n -> exists r c' n', m (at_ c n) = (r, at_ c' n') /\
    match r with Ok a => Q a c' n' | Err e => R e c' n' end.

Lemma state_at c n : state_of (handle_of connection) (at_ c n) = Some c.
Proof. unfold at_. destruct (handle_of connection); cbn; [done|]. by rewrite lookup_insert_eq. Qed.
Lemma net_at c n : (at_ c n).(net) = n.
Proof. unfold at_. by destruct (handle_of connection). Qed.
Lemma set_state_at c c' n : set_state (handle_of connection) c' (at_ c n) = at_ c' n.
Proof. unfold at_. destruct (handle_of connection); cbn; [done|]. by rewrite insert_insert_eq. Qed.
Lemma set_net_at c n n' : (at_ c n) <| net := n' |> = at_ c n'.
Proof. unfold at_. by destruct (handle_of connection). Qed.
Lemma decode_at c n : decode_connection connection (at_ c n) = (Ok (handle_of connection), at_ c n).
Proof.
  unfold decode_connection, mqtt_connection_exists, at_, handle_of.
  destruct (connection =? DEFAULT_UPSTREAM_MQTT_CONNECTION_HANDLE); [done|].
  unfold mbind, eff_bind. cbn. by rewrite bool_decide_true by (rewrite lookup_insert_eq; eauto).
Qed.

Lemma lt_ret (P : C -> Net -> Prop) {A} (a : A) (Q : A -> C -> Net -> Prop) R :
  (forall c n, P c n -> Q a c n) -> lt P (mret a) Q R.
Proof. intros HQ c n HP. exists (Ok a), c, n. split; [done|by apply HQ]. Qed.
Lemma lt_throw (P : C -> Net -> Prop) {A} e (Q : A -> C -> Net -> Prop) (R : ended -> C -> Net -> Prop) :
  (forall c n, P c n -> R e c n) -> lt P (throw e) Q R.
Proof. intros HR c n HP. exists (Err e), c, n. split; [done|by apply HR]. Qed.
Lemma lt_bind (P : C -> Net -> Prop) {A B} (m : call A) (f : A -> call B) M Q R :
  lt P m M R -> (forall a, lt (M a) (f a) Q R) -> lt P (m ≫= f) Q R.
Proof.
  intros Hm Hf c n HP. destruct (Hm c n HP) as (r & c1 & n1 & Hr & H1). unfold mbind, eff_bind. rewrite Hr.
  destruct r as [a|e]; [by apply Hf|]. by exists (Err e), c1, n1.
Qed.
Lemma lt_weaken (P P' : C -> Net -> Prop) {A} (m : call A) (Q Q' : A -> C -> Net -> Prop) (R R' : ended -> C -> Net -> Prop) :
  lt P' m Q' R' -> (forall c n, P c n -> P' c n) -> (forall a c n, Q' a c n -> Q a c n) ->
  (forall e c n, R' e c n -> R e c n) -> lt P m Q R.
Proof.
  intros Hm HP HQ HR c n H'. destruct (Hm c n (HP c n H')) as (r & c1 & n1 & Hr & H1). exists r, c1, n1.
  split; [done|]. destruct r; auto.
Qed.
Lemma lt_skip (P : C -> Net -> Prop) {A} (a : A) R : lt P (mret a) (fun _ => P) R.
Proof. by apply lt_ret. Qed.
Lemma lt_assoc (P : C -> Net -> Prop) {A B D} (m : call A) (f : A -> call B) (g : B -> call D) Q R :
  lt P ((m ≫= f) ≫= g) Q R -> lt P (m ≫= fun a => f a ≫= g) Q R.
Proof.
  intros Hm c n HP. destruct (Hm c n HP) as (r & c1 & n1 & Hr & H1). exists r, c1, n1. split; [|done].
  rewrite <-Hr. unfold mbind, eff_bind. by destruct (m _) as [[a|e] w].
Qed.
Lemma lt_fact (F : Prop) (P : C -> Net -> Prop) {A} (m : call A) Q R :
  (F -> lt P m Q R) -> lt (fun c n => P c n /\ F) m Q R.
Proof. intros Hm c n [HP HF]. by apply Hm. Qed.
Lemma lt_pre (P P' : C -> Net -> Prop) {A} (m : call A) Q R :
  lt P' m Q R -> (forall c n, P c n -> P' c n) -> lt P m Q R.
Proof. intros Hm HP. by eapply lt_weaken. Qed.
Lemma lt_at {A} (P : C -> Net -> Prop) (m : call A) Q R :
  (forall c0 n0, P c0 n0 -> lt (fun c n => c = c0 /\ n = n0) m Q R) -> lt P m Q R.
Proof. intros Hm c n HP. by apply (Hm c n HP). Qed.

Lemma lt_mut (P : C -> Net -> Prop) {A} (mutate : eff VmError C A) (Q : A -> C -> Net -> Prop) (R : ended -> C -> Net -> Prop) :
  (forall c n, P c n -> match mutate c with (Ok a, c') => Q a c' n | (Err e, c') => R (Error e) c' n end) ->
  lt P (with_connection_state_mut connection mutate) Q R.
Proof.
  intros Hm c n HP. specialize (Hm c n HP). unfold with_connection_state_mut, mbind, eff_bind.
  rewrite decode_at. cbn. rewrite state_at. destruct (mutate c) as [r c']. cbn. rewrite set_state_at.
  destruct r as [a|e]; eexists _, c', n; (split; [reflexivity|]); done.
Qed.
Lemma lt_net (P : C -> Net -> Prop) {A} (m : networking A) (Q : A -> C -> Net -> Prop) (R : ended -> C -> Net -> Prop) :
  (forall c n, P c n -> match m n with (Ok a, n') => Q a c n' | (Err e, n') => R e c n' end) -> lt P (on_net m) Q R.
Proof.
  intros Hm c n HP. specialize (Hm c n HP). unfold on_net, zoom. rewrite net_at. destruct (m n) as [r n'].
  exists r, c, n'. rewrite set_net_at. split; [done|]. by destruct r.
Qed.
Lemma lt_state {A} (P : C -> Net -> Prop) (f : C -> call A) Q R :
  (forall c0, lt (fun c n => P c n /\ c = c0) (f c0) Q R) ->
  lt P (h ← decode_connection connection; state ← connection_state h; f state) Q R.
Proof.
  intros Hf c n HP. unfold connection_state, mbind, eff_bind. rewrite decode_at. cbn. rewrite state_at. cbn.
  by apply Hf.
Qed.
Lemma lt_get {A} (P : C -> Net -> Prop) (f : World -> call A) Q R :
  (forall c0 n0, lt (fun c n => (P c n /\ c = c0) /\ n = n0) (f (at_ c0 n0)) Q R) -> lt P (get_state ≫= f) Q R.
Proof. intros Hf c n HP. unfold mbind, eff_bind. cbn. by apply Hf. Qed.
Lemma lt_now {A} (P : C -> Net -> Prop) (f : Z -> call A) Q R :
  (forall t, lt (fun c n => P c n /\ n.(clock) = t) (f t) Q R) -> lt P (instant_now ≫= f) Q R.
Proof. intros Hf c n HP. unfold instant_now, mbind, eff_bind. cbn. rewrite net_at. by apply Hf. Qed.
Lemma lt_outcome (P : C -> Net -> Prop) {A} (r : outcome A) (R : ended -> C -> Net -> Prop) :
  no_panic r -> (forall e c n, P c n -> R (Error e) c n) -> lt P (of_outcome r) (fun a c n => P c n /\ r = Ok a) R.
Proof.
  intros Hr HR. destruct r as [a|[e|]]; cbn; [by apply lt_ret|by apply lt_throw; intros; apply HR|]. by destruct Hr.
Qed.
Lemma lt_or_error (P : C -> Net -> Prop) {A} (r : vm_result A) (R : ended -> C -> Net -> Prop) :
  (forall e c n, P c n -> R (Error e) c n) -> lt P (or_error r) (fun a c n => P c n /\ r = Ok a) R.
Proof. intros HR. destruct r as [a|e]; cbn; [by apply lt_ret|apply lt_throw; intros; by apply HR]. Qed.

(** A world with the connection is one of these. *)
Lemma at_world w c : w0 = w -> state_of (handle_of connection) w = Some c -> w = at_ c w.(net).
Proof.
  unfold at_. intros ->. destruct w as [[d nx m] n]. destruct (handle_of connection); cbn; [by intros [= ->]|].
  intros Hc. by rewrite insert_id.
Qed.

(** ** What calls keep *)

Definition net_ok (n : Net) : Prop :=
  map_Forall (fun _ io => forall s, io = Some s -> stream_u8 s) n.(tcp_stream_ios) /\
  map_Forall (fun _ io => forall s, io = Some s -> stream_u8 s) n.(dynamic_tls_session_ios) /\
  n.(next_tcp_stream_handle) <= HttpExchange.I64_MAX.
Definition ok (c : C) (n : Net) : Prop := (mqtt_inv c /\ is_u8s c.(pending_read_buffer)) /\ net_ok n.

(** Everything of a connection, and of the tables, that an exchange of packets
    on the carrier [k] leaves alone. *)
Definition fixed (c : C) : C :=
  c <| last_activity_at := None |> <| ping_response_pending := false |> <| pending_read_buffer := [] |>.
Definition fixed_net (k : MqttCarrierAttachment) (n : Net) : Net := remove_carrier_io k n <| clock := 0 |>.

(** The stream of a carrier gave [got] and was sent [frames]. *)
Definition io_advance (o o' : option SharedIo) (got : list Z) (frames : list (list Z)) : Prop :=
  match o with
  | Some (Some s) => exists s', o' = Some (Some s') /\ s'.(received) = s.(received) ++ got /\
      s'.(sent) = s.(sent) ++ concat frames /\ (to_come s' + length got <= to_come s)%nat
  | _ => got = [] /\ frames = [] /\ o' = o
  end.

Record advance (k : MqttCarrierAttachment) (c : C) (n : Net) (c' : C) (n' : Net) (got : list Z) (frames : list (list Z)) : Prop := {
  adv_conn : fixed c' = fixed c;
  adv_net : fixed_net k n' = fixed_net k n;
  adv_io : io_advance (carrier_ios k n) (carrier_ios k n') got frames;
}.

Lemma advance_refl k c n : advance k c n c n [] [].
Proof.
  split; [done|done|]. destruct (carrier_ios k n) as [[s|]|]; cbn; [|done..].
  exists s. by rewrite !app_nil_r, Nat.add_0_r.
Qed.
Lemma advance_trans k c n c1 n1 c2 n2 got1 got2 fs1 fs2 :
  advance k c n c1 n1 got1 fs1 -> advance k c1 n1 c2 n2 got2 fs2 -> advance k c n c2 n2 (got1 ++ got2) (fs1 ++ fs2).
Proof.
  intros [Hc1 Hn1 H1] [Hc2 Hn2 H2]. split; [congruence|congruence|].
  destruct (carrier_ios k n) as [[s|]|]; cbn in *.
  - destruct H1 as (s1 & Hk1 & Hr1 & Hs1 & Ht1). rewrite Hk1 in H2. destruct H2 as (s2 & -> & Hr2 & Hs2 & Ht2). exists s2.
    rewrite Hr2, Hr1, Hs2, Hs1, concat_app, length_app, !app_assoc. split_and!; [done..|lia].
  - destruct H1 as (-> & -> & H1). rewrite H1 in H2. destruct H2 as (-> & -> & ->). done.
  - destruct H1 as (-> & -> & H1). rewrite H1 in H2. destruct H2 as (-> & -> & ->). done.
Qed.
Lemma advance_conn k c n c' : fixed c' = fixed c -> advance k c n c' n [] [].
Proof. intros Hc. destruct (advance_refl k c n). by split. Qed.

Lemma fixed_eq c c' : fixed c' = fixed c ->
  phase c' = phase c /\ carrier c' = carrier c /\ pending_events c' = pending_events c /\
  keep_alive_secs c' = keep_alive_secs c /\ failure_message c' = failure_message c.
Proof. intros Hf. pose proof (f_equal phase Hf). by split_and!; [|eapply (f_equal carrier) in Hf|eapply (f_equal pending_events) in Hf|eapply (f_equal keep_alive_secs) in Hf|eapply (f_equal failure_message) in Hf]. Qed.

Lemma carrier_to_come_advance k c n c' n' got fs :
  advance k c n c' n' got fs -> (carrier_to_come k n' + length got <= carrier_to_come k n)%nat.
Proof.
  intros [_ _ Hio]. unfold carrier_to_come. destruct (carrier_ios k n) as [[s|]|]; cbn in Hio.
  - by destruct Hio as (s' & -> & _ & _ & ?).
  - destruct Hio as (-> & _ & ->). cbn. lia.
  - destruct Hio as (-> & _ & ->). cbn. lia.
Qed.

Lemma set_carrier_io_same k io n : carrier_ios k (set_carrier_io k io n) = Some io.
Proof. destruct k; cbn; by rewrite lookup_insert_eq. Qed.
Lemma fixed_set_carrier_io k io n t : fixed_net k (set_carrier_io k io n <| clock := t |>) = fixed_net k n.
Proof. unfold fixed_net. destruct k; cbn; by rewrite delete_insert_eq. Qed.
Lemma fixed_set_carrier_io' k io n : fixed_net k (set_carrier_io k io n) = fixed_net k n.
Proof. rewrite <-(fixed_set_carrier_io k io n n.(clock)). by destruct k. Qed.
Lemma set_carrier_io_twice k io io' n : set_carrier_io k io (set_carrier_io k io' n) = set_carrier_io k io n.
Proof. destruct k; cbn; by rewrite insert_insert_eq. Qed.
Lemma carrier_ios_clock k n t : carrier_ios k (n <| clock := t |>) = carrier_ios k n.
Proof. by destruct k. Qed.

Lemma net_ok_clock n t : net_ok n -> net_ok (n <| clock := t |>).
Proof. done. Qed.
Lemma net_ok_set k s n : net_ok n -> stream_u8 s -> net_ok (set_carrier_io k (Some s) n).
Proof.
  intros (Ht & Hl & Hm) Hs. destruct k; (split_and!; [| |done]); cbn; try done;
    apply map_Forall_insert_2; try done; by intros ? [= <-].
Qed.
Lemma net_ok_stream k n s : net_ok n -> carrier_ios k n = Some (Some s) -> stream_u8 s.
Proof. intros (Ht & Hl & _) Hs. destruct k; cbn in Hs; [by eapply Ht|by eapply Hl]. Qed.

(** Errors and waiting for a silent peer are the only ways not to return. *)
Definition fine (e : ended) : Prop := match e with Error _ | Hangs => True | Panics | OutOfFuel => False end.
Definition failing (e : ended) (c : C) (n : Net) : Prop := fine e /\ ok c n.
(** [failing] without waiting for ever. *)
Definition answered (e : ended) (c : C) (n : Net) : Prop := (exists x, e = Error x) /\ ok c n.

Lemma answered_failing e c n : answered e c n -> failing e c n.
Proof. by intros [[x ->] ?]. Qed.
Lemma answered_error e c n : ok c n -> answered (Error e) c n.
Proof. split; eauto. Qed.

Lemma ok_step c c' n : ok c n -> mqtt_step c c' -> is_u8s c'.(pending_read_buffer) -> ok c' n.
Proof. intros [[Hi _] Hn] Hs Hu. split; [|done]. split; [|done]. by eapply mqtt_step_inv. Qed.
Lemma ok_buffer c n b : ok c n -> is_u8s b -> ok (c <| pending_read_buffer := b |>) n.
Proof. intros Ho Hb. eapply ok_step; [done| |done]. destruct c. apply (step_buffers b pending_events0). Qed.
Lemma ok_events c n evs : ok c n -> ok (c <| pending_events := evs |>) n.
Proof. intros Ho. eapply ok_step; [done| |apply Ho]. destruct c. apply (step_buffers pending_read_buffer0 evs). Qed.

(** ** Writing *)

Lemma write_carrier_spec k bytes n : net_ok n ->
  match write_carrier_bytes k bytes n with
  | (Ok _, n') => net_ok n' /\ forall c, advance k c n c n' [] [bytes]
  | (Err e, n') => net_ok n' /\ exists x, e = Error x
  end.
Proof.
  intros Hn. unfold write_carrier_bytes, carrier_stream, mbind, eff_bind. cbn [get_state].
  destruct (carrier_ios k n) as [[s|]|] eqn:Hk; [|cbn; split; eauto..]. cbn [mret eff_ret].
  pose proof (net_ok_stream _ _ _ Hn Hk) as Hu.
  pose proof (write_all_spec bytes s) as Hw. destruct (write_all bytes s) as [r s1]. destruct Hw as (Hi1 & Hr1 & Hs1).
  assert (Hu1 : stream_u8 s1) by (unfold stream_u8; by rewrite Hi1).
  unfold modify. cbn [mret eff_ret]. destruct r as [[]|e]; cbn [or_host_error mret eff_ret]; [|split; [by apply net_ok_set|eauto]].
  pose proof (flush_spec s1) as Hf. destruct (flush s1) as [r s2]. destruct Hf as (Hi2 & Hr2 & Hs2).
  assert (Hu2 : stream_u8 s2) by (unfold stream_u8; by rewrite Hi2).
  rewrite set_carrier_io_twice. destruct r as [[]|e]; cbn [or_host_error mret eff_ret]; (split; [by apply net_ok_set|]); [|eauto].
  intros c. split; [done|by rewrite fixed_set_carrier_io'|]. rewrite Hk, set_carrier_io_same. cbn. exists s2.
  split_and!; [done|by rewrite app_nil_r; congruence| |unfold to_come; rewrite Hi2, Hi1; lia].
  rewrite Hs2, Hs1 by done. by rewrite app_nil_r.
Qed.

Lemma lt_activity (f : Z -> C -> C) (P : C -> Net -> Prop) Q (R : ended -> C -> Net -> Prop) :
  (forall t c n, P c n -> Q tt (f t c) n) ->
  lt P (now ← instant_now; with_connection_state_mut connection (modify (f now))) Q R.
Proof. intros Hf. apply lt_now. intros t. apply lt_mut. intros c n [HP _]. by apply Hf. Qed.

Lemma lt_carrier (P : C -> Net -> Prop) (R : ended -> C -> Net -> Prop) :
  (forall e c n, P c n -> R (Error e) c n) ->
  lt P (active_connection_carrier connection) (fun k c n => P c n /\ carrier c = Some k) R.
Proof. intros HR. apply lt_mut. intros c n HP. unfold mbind, eff_bind. cbn. destruct (carrier c) eqn:?; cbn; auto. Qed.

Definition PING : list Z := [192; 0].

(** A packet is written whole, or the call fails. *)
Lemma lt_write_packet bytes c0 n0 : ok c0 n0 ->
  lt (fun c n => c = c0 /\ n = n0) (write_connection_packet connection bytes)
    (fun _ c n => ok c n /\ pending_read_buffer c = pending_read_buffer c0 /\
       exists k, carrier c0 = Some k /\ advance k c0 n0 c n [] [bytes]) answered.
Proof.
  intros Ho. eapply lt_bind; [apply lt_carrier; intros e c n [-> ->]; by apply answered_error|]. intros k.
  eapply lt_bind; [apply (lt_net _ _ (fun _ c n => ok c n /\ c = c0 /\ carrier c0 = Some k /\ advance k c0 n0 c n [] [bytes]))|].
  - intros c n [[-> ->] Hk]. pose proof (write_carrier_spec k bytes n0 (proj2 Ho)) as Hw.
    destruct (write_carrier_bytes k bytes n0) as [[]n']; destruct Hw as [Hn' Hw].
    + split_and!; [by split; [apply Ho|]|done|done|apply Hw].
    + destruct Hw as [x ->]. apply answered_error. by split; [apply Ho|].
  - intros []. apply lt_activity. intros t c n (Ho' & -> & Hk & Ha). split; [by eapply ok_step; [|apply step_activity|apply Ho']|].
    split; [done|]. exists k. split; [done|]. rewrite <-(app_nil_r [bytes]). apply (advance_trans _ _ _ _ _ _ _ [] [] _ [] Ha). by apply advance_conn.
Qed.

Lemma lt_write_ping c0 n0 : ok c0 n0 ->
  lt (fun c n => c = c0 /\ n = n0) (write_connection_ping_request connection)
    (fun _ c n => ok c n /\ ping_response_pending c = true /\ exists k, carrier c0 = Some k /\ advance k c0 n0 c n [] [PING]) answered.
Proof.
  intros Ho. eapply lt_bind; [apply lt_carrier; intros e c n [-> ->]; by apply answered_error|]. intros k.
  eapply lt_bind; [apply lt_outcome; [done|intros e c n [[-> ->] _]; by apply answered_error]|]. intros bytes.
  eapply lt_bind; [apply (lt_net _ _ (fun _ c n => ok c n /\ carrier c0 = Some k /\ advance k c0 n0 c n [] [PING]))|].
  - intros c n [[[-> ->] Hk] [= <-]]. pose proof (write_carrier_spec k PING n0 (proj2 Ho)) as Hw.
    change ([192] ++ encode_variable_int_loop 4 (len []) ++ []) with PING.
    destruct (write_carrier_bytes k _ n0) as [[]n']; destruct Hw as [Hn' Hw].
    + split_and!; [by split; [apply Ho|]|done|apply Hw].
    + destruct Hw as [x ->]. apply answered_error. by split; [apply Ho|].
  - intros []. apply lt_activity. intros t c n (Ho' & Hk & Ha). split; [by eapply ok_step; [|apply step_ping_sent|apply Ho']|].
    split; [done|]. exists k. split; [done|]. rewrite <-(app_nil_r [PING]). apply (advance_trans _ _ _ _ _ _ _ [] [] _ [] Ha). by apply advance_conn.
Qed.

(** ** Reading *)

Lemma read_carrier_spec k lim n : net_ok n ->
  match read_carrier_chunk k 4096 lim n with
  | (Ok (ChunkData l), n') => l ≠ [] /\ is_u8s l /\ net_ok n' /\ forall c, advance k c n c n' l []
  | (Ok TimedOut, n') => net_ok n' /\ (forall c, advance k c n c n' [] []) /\ lim ≠ None
  | (Ok ChunkClosed, n') => net_ok n' /\ forall c, advance k c n c n' [] []
  | (Err e, n') => net_ok n' /\ ((exists x, e = Error x) \/ e = Hangs /\ lim = None)
  end.
Proof.
  intros Hn. unfold read_carrier_chunk, carrier_stream, mbind, eff_bind. cbn [get_state].
  destruct (carrier_ios k n) as [[s|]|] eqn:Hk; [|cbn; eauto..]. cbn [mret eff_ret].
  pose proof (net_ok_stream _ _ _ Hn Hk) as Hu.
  pose proof (read_spec 4096 lim n.(clock) s ltac:(lia)) as Hr.
  destruct (read 4096 lim n.(clock) s) as [[r t] s']. unfold modify. cbn [mret eff_ret].
  destruct Hr as (Hs & _ & Hu' & Hr). specialize (Hu' Hu).
  assert (Hn' : net_ok (set_carrier_io k (Some s') n <| clock := t |>)) by (by apply net_ok_clock, net_ok_set).
  assert (Hadv : forall got, s'.(received) = s.(received) ++ got -> (to_come s' + length got <= to_come s)%nat ->
    forall c, advance k c n c (set_carrier_io k (Some s') n <| clock := t |>) got []).
  { intros got Hg Ht c. split; [done|apply fixed_set_carrier_io|]. rewrite Hk, carrier_ios_clock, set_carrier_io_same.
    exists s'. cbn [concat]. by rewrite app_nil_r. }
  destruct r as [[|b l]|e| |]; cbn.
  - subst s'. split; [done|]. apply Hadv; [by rewrite app_nil_r|cbn; lia].
  - destruct Hr as (Hg & Ht & Hb). split_and!; [done|by apply Hb|done|]. apply Hadv; [done|lia].
  - split; [done|]. by left; eauto.
  - destruct Hr as (-> & t' & -> & _). split_and!; [done| |done]. apply Hadv; [by rewrite app_nil_r|cbn; lia].
  - split; [done|]. right. by destruct Hr as (_ & -> & _).
Qed.

Lemma close_carrier_spec k m n : net_ok n ->
  exists n', close_carrier k m n = (Ok tt, n') /\ net_ok n' /\ (carrier_ios k n' = None /\ n'.(clock) = n.(clock)) /\
    n'.(dropped) = n.(dropped) ++ match carrier_ios k n with Some (Some s) => [s] | _ => [] end.
Proof.
  intros (Ht & Hl & Hm). unfold close_carrier, mbind, eff_bind, update_socket, update_tls_session. cbn.
  assert (Hd1 : forall i, map_Forall (fun _ io => forall s, io = Some s -> stream_u8 s) (delete i n.(tcp_stream_ios)))
    by (intros i; by apply map_Forall_delete).
  assert (Hd2 : forall i, map_Forall (fun _ io => forall s, io = Some s -> stream_u8 s) (delete i n.(dynamic_tls_session_ios)))
    by (intros i; by apply map_Forall_delete).
  destruct k as [i|i]; cbn.
  - destruct (tcp_stream_ios n !! i) as [[s|]|]; cbn; eexists; (split; [reflexivity|]);
      unfold net_ok; cbn; rewrite ?lookup_delete_eq, ?app_nil_r; split_and!; by auto.
  - destruct (dynamic_tls_session_ios n !! i) as [[s|]|]; cbn; eexists; (split; [reflexivity|]);
      unfold net_ok; cbn; rewrite ?lookup_delete_eq, ?app_nil_r; split_and!; by auto.
Qed.

(** *** One packet *)

Lemma lt_wait (P : C -> Net -> Prop) (R : ended -> C -> Net -> Prop) :
  lt P (keep_alive_read_wait connection)
    (fun w c n => P c n /\ w = (fun t => MkWait t (ping_response_pending c)) <$> next_keep_alive_wait (clock n) c) R.
Proof. apply lt_now. intros t. apply lt_mut. intros c n [HP Ht]. unfold mbind, eff_bind. cbn. by subst t. Qed.

(** The connection stays without an answer only if no keep-alive is in force. *)
Definition unattended (c : C) : Prop := phase c ≠ Open \/ keep_alive_secs c = 0.
Definition read_fails (c0 : C) (e : ended) (c : C) (n : Net) : Prop := failing e c n /\ (e = Hangs -> unattended c0).

Lemma wait_none now c : next_keep_alive_wait now c = None -> unattended c.
Proof.
  unfold next_keep_alive_wait, unattended. case_bool_decide; cbn; [|by left].
  destruct (Z.eqb_spec (keep_alive_secs c) 0); [by right|]. done.
Qed.
Lemma unattended_fixed c c' : fixed c' = fixed c -> unattended c' -> unattended c.
Proof. intros (Hp & _ & _ & Hk & _)%fixed_eq. unfold unattended. by rewrite Hp, Hk. Qed.

Section packet.
Context (k : MqttCarrierAttachment) (c0 : C) (n0 : Net) (start : list Z) (Hcarrier : carrier c0 = Some k).

(** The loop has taken [buffer], what was left over and what it has read. *)
Definition reading (buffer : list Z) (c : C) (n : Net) : Prop :=
  ok c n /\ exists got j, is_u8s (start ++ got) /\ buffer = start ++ got /\ advance k c0 n0 c n got (replicate j PING).

(** A packet was read: the bytes after it are left over. *)
Definition packet_read (p : MqttIncomingPacket) (c : C) (n : Net) : Prop :=
  ok c n /\ exists got j used, advance k c0 n0 c n got (replicate j PING) /\
    decode_packet (start ++ got) = Ok (Some (p, used)) /\ c.(pending_read_buffer) = drop (Z.to_nat used) (start ++ got).

(** The connection ended: the peer closed it, or did not answer a ping. *)
Definition session_over (c : C) (n : Net) : Prop :=
  ok c n /\ pending_events c = pending_events c0 /\ exists got j, pending_read_buffer c = start ++ got /\
    (phase c = Closed /\ carrier c = Some k /\ io_advance (carrier_ios k n0) (carrier_ios k n) got (replicate j PING) \/
     phase c = Failed /\ failure_message c = Some KEEP_ALIVE_EXPIRED /\ carrier c = None /\
       forall s0, carrier_ios k n0 = Some (Some s0) -> exists s, last n.(dropped) = Some s /\
         io_advance (Some (Some s0)) (Some (Some s)) got (replicate j PING)).

Definition read_result (r : option MqttIncomingPacket) (c : C) (n : Net) : Prop :=
  match r with Some p => packet_read p c n | None => session_over c n end.

Lemma reading_step buffer c n c' n' got fs :
  reading buffer c n -> ok c' n' -> advance k c n c' n' got fs -> is_u8s got -> (exists i, fs = replicate i PING) -> reading (buffer ++ got) c' n'.
Proof.
  intros (_ & g & j & Hu & -> & Ha) Ho Ha' Hg [i ->]. split; [done|]. exists (g ++ got), (j + i)%nat.
  rewrite replicate_add. split_and!; [rewrite app_assoc; by apply Forall_app|by rewrite app_assoc|by eapply advance_trans].
Qed.

Lemma lt_expired buffer : lt (reading buffer) (keep_alive_expired connection buffer) read_result (read_fails c0).
Proof.
  unfold keep_alive_expired.
  eapply lt_bind; [apply (lt_mut _ _ (fun _ c n => exists c1, reading buffer c1 n /\
    c = mark_failed KEEP_ALIVE_EXPIRED (c1 <| pending_read_buffer := buffer |>)))|].
  { intros c n Hr. cbn. by exists c. }
  intros []. eapply lt_bind with (M := fun _ => session_over); [|intros []; by apply lt_ret].
  eapply lt_bind; [apply (lt_mut _ _ (fun o c n => o = Some k /\ exists c1, reading buffer c1 n /\
    c = (mark_failed KEEP_ALIVE_EXPIRED (c1 <| pending_read_buffer := buffer |>)) <| carrier := None |>))|].
  { intros c n (c1 & Hr & ->). unfold mbind, eff_bind. cbn. split; [|by exists c1].
    destruct Hr as (_ & ? & ? & _ & _ & [Hf _ _]). apply fixed_eq in Hf as (_ & Hk & _). congruence. }
  intros o. apply lt_at. intros c n (-> & c1 & Hr & ->). apply lt_net. intros ?? [-> ->].
  destruct Hr as (Ho & got & j & Hu & -> & [Hf Hn Hio]).
  destruct (close_carrier_spec k (Some KEEP_ALIVE_EXPIRED) n (proj2 Ho)) as (n' & -> & Hn' & _ & Hd). cbn.
  apply fixed_eq in Hf as (Hp & Hc & He & _). split.
  { apply (ok_step (mark_failed KEEP_ALIVE_EXPIRED (c1 <| pending_read_buffer := start ++ got |>))).
    - eapply ok_step; [by eapply (ok_buffer c1 n' (start ++ got)); [split; [apply Ho|]|]|apply step_failed|done].
    - apply step_take_carrier.
    - done. }
  split; [done|]. exists got, j. split; [done|]. right. split_and!; [done..|].
  intros s0 Hs0. rewrite Hs0 in Hio. destruct Hio as (s & Hs & Hio). exists s. rewrite Hd, Hs, last_snoc. split; [done|]. by exists s.
Qed.

Lemma read_error x c n : ok c n -> read_fails c0 (Error x) c n.
Proof. by intros Ho. Qed.

Lemma lt_ping buffer N :
  lt (fun c n => reading buffer c n /\ carrier_to_come k n = N) (write_connection_ping_request connection)
    (fun _ c n => (reading buffer c n /\ ping_response_pending c = true) /\ (carrier_to_come k n <= N)%nat) (read_fails c0).
Proof.
  apply lt_at. intros c n [Hr HN]. pose proof (proj1 Hr) as Ho. eapply lt_weaken; [by apply (lt_write_ping _ _ Ho)|done| |].
  - intros [] c' n' (Ho' & Hp & k' & Hk & Ha).
    assert (k' = k) as ->.
    { destruct Hr as (_ & ? & ? & _ & _ & [Hf _ _]). apply fixed_eq in Hf as (_ & Hk' & _). congruence. }
    pose proof (carrier_to_come_advance _ _ _ _ _ _ _ Ha). cbn in *. split_and!; [|done|lia].
    rewrite <-(app_nil_r buffer). eapply (reading_step buffer c n); [done|done|exact Ha|constructor|by exists 1%nat].
  - intros e c' n' [[x ->] Ho']. by apply read_error.
Qed.

Definition ping_bound (c : C) : nat := if ping_response_pending c then 0 else 1.

Lemma lt_read_loop fuel buffer :
  lt (fun c n => reading buffer c n /\ (2 * carrier_to_come k n + ping_bound c < fuel)%nat)
    (read_packet_loop fuel connection k buffer) read_result (read_fails c0).
Proof.
  revert buffer. induction fuel as [|fuel IH]; intros buffer; cbn [read_packet_loop]; [by intros c n [_ ?]; lia|].
  apply lt_at. intros c n [Hr Hf]. pose proof Hr as (Ho & got & j & Hu & Hb & Ha).
  eapply lt_bind; [apply lt_outcome|].
  { apply decode_packet_no_panic. by subst. }
  { intros e ?? [-> ->]. by apply read_error. }
  intros [[p used]|].
  { apply lt_fact. intros Hd. pose proof (decode_packet_incremental buffer []) as Hi. rewrite Hd in Hi.
    destruct Hi as [Hused _]. rewrite (proj2 (Z.ltb_ge _ _)) by lia.
    eapply lt_bind with (M := fun _ => packet_read p); [|intros []; by apply lt_ret].
    apply lt_mut. intros ?? [-> ->]. cbn. subst buffer. split.
    - apply ok_buffer; [done|]. by apply Forall_drop.
    - exists got, j, used. split_and!; [|done|done]. rewrite <-(app_nil_r got), <-(app_nil_r (replicate j PING)).
      eapply advance_trans; [exact Ha|]. by apply advance_conn. }
  apply lt_fact. intros _.
  eapply lt_bind; [apply lt_wait|]. intros wait. apply lt_at. intros ?? [[-> ->] Hw].
  assert (Hping : (0 < fuel)%nat -> ping_response_pending c = false -> lt (fun c' n' => c' = c /\ n' = n)
    (_ ← write_connection_ping_request connection; read_packet_loop fuel connection k buffer) read_result (read_fails c0)).
  { intros Hfu Hp. eapply lt_bind; [eapply lt_pre; [apply (lt_ping buffer (carrier_to_come k n))|by intros ?? [-> ->]]|].
    intros []. eapply lt_pre; [apply IH|]. intros c' n' [[Hr' Hp'] Hc']. split; [done|]. revert Hf. unfold ping_bound. rewrite Hp, Hp'. lia. }
  assert (Hexp : lt (fun c' n' => c' = c /\ n' = n) (keep_alive_expired connection buffer) read_result (read_fails c0)).
  { eapply lt_pre; [apply lt_expired|]. by intros ?? [-> ->]. }
  assert (Hfu : ping_response_pending c = false -> (0 < fuel)%nat) by (intros Hp; revert Hf; unfold ping_bound; rewrite Hp; lia).
  destruct (match wait with Some w => timeout w =? 0 | None => false end) eqn:Hz.
  { destruct wait as [w|]; [|done]. destruct (next_keep_alive_wait (clock n) c) as [t|]; [|done]. injection Hw as ->. cbn.
    destruct (ping_response_pending c) eqn:Hp; auto. }
  clear Hw Hz wait. eapply lt_bind; [apply lt_wait|]. intros wait. apply lt_at. intros ?? [[-> ->] Hw].
  eapply lt_bind with (M := fun r c' n' => c' = c /\ ok c n' /\ match r with
    | ChunkData l => l ≠ [] /\ is_u8s l /\ advance k c n c n' l []
    | _ => advance k c n c n' [] []
    end /\ (r = TimedOut -> wait ≠ None)).
  { apply lt_net. intros ?? [-> ->]. pose proof (read_carrier_spec k (timeout <$> wait) n (proj2 Ho)) as Hread.
    assert (Hok : forall n', net_ok n' -> ok c n') by (split; [apply Ho|done]).
    destruct (read_carrier_chunk k 4096 (timeout <$> wait) n) as [[[l| |]|e] n'].
    - naive_solver.
    - destruct Hread as (? & Hadv & Hne). split_and!; [done|by apply Hok|apply Hadv|]. intros _ ->. by apply Hne.
    - naive_solver.
    - destruct Hread as (Hn' & [[x ->]|[-> Hnone]]); [by apply read_error, Hok|]. split; [by split; [|apply Hok]|].
      intros _. destruct wait; [done|]. eapply unattended_fixed; [apply Ha|].
      destruct (next_keep_alive_wait (clock n) c) eqn:?; [done|]. by eapply wait_none. }
  intros [l| |]; apply lt_at; intros ? n1 (-> & Ho1 & Hadv & Hne).
  - destruct Hadv as (Hl & Hlu & Hadv). eapply lt_bind; [apply (lt_activity _ _ (fun _ c' n' => reading (buffer ++ l) c' n' /\ n' = n1 /\ ping_response_pending c' = false))|].
    { intros t ?? [-> ->]. split; [|done]. eapply (reading_step buffer c n); [done| | |done|by exists 0%nat].
      - eapply ok_step; [done|apply step_activity|apply Ho1].
      - rewrite <-(app_nil_r l). apply (advance_trans _ _ _ _ _ _ _ _ _ [] [] Hadv). by apply advance_conn. }
    intros []. eapply lt_pre; [apply IH|]. intros c' n' (Hr' & -> & Hp'). split; [done|].
    pose proof (carrier_to_come_advance _ _ _ _ _ _ _ Hadv). destruct l; [done|]. cbn in *. unfold ping_bound in *.
    rewrite Hp'. destruct (ping_response_pending c); lia.
  - assert (Hr1 : reading buffer c n1).
    { rewrite <-(app_nil_r buffer). eapply (reading_step buffer c n); [done|done|exact Hadv|constructor|by exists 0%nat]. }
    destruct wait as [w|]; [|by destruct (Hne eq_refl)]. destruct (next_keep_alive_wait (clock n) c) as [t|]; [|done]. injection Hw as ->.
    pose proof (carrier_to_come_advance _ _ _ _ _ _ _ Hadv) as Hc. cbn in Hc. cbn.
    destruct (ping_response_pending c) eqn:Hp.
    + eapply lt_pre; [apply lt_expired|]. by intros ?? [-> ->].
    + eapply lt_bind; [eapply lt_pre; [apply (lt_ping buffer (carrier_to_come k n1))|by intros ?? [-> ->]]|].
      intros []. eapply lt_pre; [apply IH|]. intros c' n' [[Hr' Hp'] Hc']. split; [done|]. revert Hf. unfold ping_bound. rewrite Hp, Hp'. lia.
  - eapply lt_bind with (M := fun _ => session_over); [|intros []; by apply lt_ret]. apply lt_mut. intros ?? [-> ->]. cbn.
    pose proof Ha as [Hfx _ _]. apply fixed_eq in Hfx as (_ & Hk & He & _). split; [|split; [done|]].
    + eapply ok_step; [by eapply (ok_buffer c n1 buffer); [|subst buffer]|apply step_closed|by subst buffer].
    + exists got, j. split; [done|]. left. split; [done|]. split; [by rewrite <-Hcarrier|].
      assert (Hb' : advance k c0 n0 c n1 got (replicate j PING)); [|apply Hb'].
      rewrite <-(app_nil_r got), <-(app_nil_r (replicate j PING)). by eapply advance_trans.
Qed.

End packet.

Lemma lt_read_next c1 n1 : ok c1 n1 ->
  lt (fun c n => c = c1 /\ n = n1) (read_next_packet connection)
    (fun r c n => exists k, carrier c1 = Some k /\
       read_result k (c1 <| pending_read_buffer := [] |>) n1 c1.(pending_read_buffer) r c n) (read_fails c1).
Proof.
  intros Ho. set (c0 := c1 <| pending_read_buffer := [] |>).
  eapply lt_bind; [apply (lt_mut _ _ (fun r c n => carrier c1 = Some r.1 /\ r.2 = pending_read_buffer c1 /\ c = c0 /\ n = n1))|].
  { intros ?? [-> ->]. unfold mbind, eff_bind. cbn. by destruct (carrier c1) as [k|]; [|by apply (read_error c1)]. }
  intros [k buffer]. apply lt_at. intros ?? (Hk & Hb & -> & ->). cbn in Hk, Hb. subst buffer.
  apply lt_get. intros ??. apply lt_at. intros ?? [[[-> ->] <-] <-]. rewrite net_at.
  eapply lt_weaken; [apply (lt_read_loop k c0 n1 (pending_read_buffer c1) Hk)| | |].
  - intros ?? [-> ->]. split; [|unfold ping_bound; destruct (ping_response_pending c0); lia].
    split; [apply (ok_buffer c1 n1 [] Ho); constructor|]. exists [], 0%nat. rewrite app_nil_r.
    split_and!; [apply Ho|done|apply advance_refl].
  - intros r c n Hr. by exists k.
  - done.
Qed.

(** *** The calls end and keep the state well formed *)

(** What is still to be read on a connection. *)
Definition unread (c : C) (n : Net) : nat :=
  length c.(pending_read_buffer) + match carrier c with Some k => carrier_to_come k n | None => 0 end.

Lemma packet_read_unread k p c1 n1 c n : carrier c1 = Some k ->
  packet_read k (c1 <| pending_read_buffer := [] |>) n1 c1.(pending_read_buffer) p c n ->
  (unread c n < unread c1 n1)%nat /\ phase c = phase c1 /\ keep_alive_secs c = keep_alive_secs c1 /\
  pending_events c = pending_events c1.
Proof.
  intros Hk (Ho' & got & j & used & Ha & Hd & Hb).
  pose proof (decode_packet_incremental (pending_read_buffer c1 ++ got) []) as Hi. rewrite Hd in Hi. destruct Hi as [Hu _].
  pose proof (carrier_to_come_advance _ _ _ _ _ _ _ Ha) as Hc.
  destruct Ha as [Hf _ _]. apply fixed_eq in Hf as (Hp & Hk' & He & Hka & _). split_and!; [|done..].
  unfold unread. rewrite Hk', Hb. cbn in *. rewrite Hk, length_drop. unfold len in Hu. rewrite length_app in *. lia.
Qed.

(** ** Opening a carrier *)

Definition refused (e : ended) (n : Net) : Prop := net_ok n /\ exists x, e = Error x.
Definition nt (P : Net -> Prop) {A} (m : networking A) (Q : A -> Net -> Prop) : Prop :=
  triple (fun n => net_ok n /\ P n) m (fun a n => net_ok n /\ Q a n) refused.

Lemma nt_bind P {A B} (m : networking A) (f : A -> networking B) M Q :
  nt P m M -> (forall a, nt (M a) (f a) Q) -> nt P (m ≫= f) Q.
Proof. intros Hm Hf. eapply triple_bind; [exact Hm|]. intros a. apply Hf. Qed.
Lemma nt_ret (P : Net -> Prop) {A} (a : A) (Q : A -> Net -> Prop) : (forall n, P n -> Q a n) -> nt P (mret a) Q.
Proof. intros HQ n [Hn HP]. split; auto. Qed.
Lemma nt_error P {A} m (Q : A -> Net -> Prop) : nt P (host_error m) Q.
Proof. intros n [Hn _]. split; eauto. Qed.
Lemma nt_or_error P {A} (r : vm_result A) : nt P (or_error r) (fun a n => P n /\ r = Ok a).
Proof. intros n [Hn HP]. destruct r; cbn; [done|split; eauto]. Qed.
Lemma nt_or_host_error P {A} (r : result string A) m : nt P (or_host_error r m) (fun a n => P n /\ r = Ok a).
Proof. intros n [Hn HP]. destruct r; cbn; [done|split; eauto]. Qed.
Lemma nt_fact (P : Net -> Prop) (F : Prop) {A} (m : networking A) Q : (F -> nt P m Q) -> nt (fun n => P n /\ F) m Q.
Proof. intros Hm n (Hn & HP & HF). by apply Hm. Qed.
Lemma nt_weaken (P P' : Net -> Prop) {A} (m : networking A) (Q Q' : A -> Net -> Prop) :
  nt P' m Q' -> (forall n, P n -> P' n) -> (forall a n, Q' a n -> Q a n) -> nt P m Q.
Proof. intros Hm HP HQ. eapply triple_weaken; [exact Hm| | |done]; naive_solver. Qed.
Lemma nt_any (P : Net -> Prop) {A} (m : networking A) (Q : A -> Net -> Prop) : nt (fun _ => True) m Q -> nt P m Q.
Proof. intros Hm. by eapply nt_weaken. Qed.
Lemma nt_pre (P P' : Net -> Prop) {A} (m : networking A) (Q : A -> Net -> Prop) : nt P' m Q -> (forall n, P n -> P' n) -> nt P m Q.
Proof. intros Hm HP. by eapply nt_weaken. Qed.
Lemma nt_at (P : Net -> Prop) {A} (m : networking A) (Q : A -> Net -> Prop) :
  (forall n0, P n0 -> nt (fun n => n = n0) m Q) -> nt P m Q.
Proof. intros Hm n [Hn HP]. by apply (Hm n HP). Qed.
Lemma nt_get (P : Net -> Prop) {A} (f : Net -> networking A) (Q : A -> Net -> Prop) :
  (forall n0, P n0 -> nt (fun n => n = n0) (f n0) Q) -> nt P (get_state ≫= f) Q.
Proof. intros Hf n [Hn HP]. by apply (Hf n HP n). Qed.
Lemma nt_modify (P : Net -> Prop) f (Q : unit -> Net -> Prop) :
  (forall n, net_ok n -> P n -> net_ok (f n) /\ Q tt (f n)) -> nt P (modify f) Q.
Proof. intros Hf. apply triple_modify. intros n [Hn HP]. by apply Hf. Qed.
Lemma nt_outside (P : Net -> Prop) {A} (f : nat -> A) :
  (forall n k, P n -> P (n <| outside_calls := k |>)) -> nt P (outside f) (fun a n => P n /\ exists k, a = f k).
Proof. intros HP n [Hn H']. cbn. split_and!; [done|by apply HP|eauto]. Qed.

(** A call on the tables of sockets and sessions alone. *)
Definition keeps_ios (f : Net -> Net) : Prop := forall n,
  tcp_stream_ios (f n) = tcp_stream_ios n /\ dynamic_tls_session_ios (f n) = dynamic_tls_session_ios n /\
  next_tcp_stream_handle (f n) = next_tcp_stream_handle n.
Lemma nt_tables (P : Net -> Prop) f : keeps_ios f -> (forall n, P n -> P (f n)) -> nt P (modify f) (fun _ n => P n).
Proof.
  intros Hf HP. apply nt_modify. intros n (H1 & H2 & H3) H'. destruct (Hf n) as (E1 & E2 & E3). unfold net_ok.
  rewrite E1, E2, E3. split; [done|auto].
Qed.

(** The handle has a stream that was not used yet. *)
Definition tcp_io (handle : Z) (n : Net) : Prop := exists s, n.(tcp_stream_ios) !! handle = Some (Some s) /\ fresh s.
Definition tls_io (handle : Z) (n : Net) : Prop := exists s, n.(dynamic_tls_session_ios) !! handle = Some (Some s) /\ fresh s.

Lemma net_ok_tcp h s n : net_ok n -> stream_u8 s -> net_ok (n <| tcp_stream_ios := <[h := Some s]> n.(tcp_stream_ios) |>).
Proof. intros Hn Hs. apply (net_ok_set (Tcp h) s n Hn Hs). Qed.
Lemma net_ok_tls h s n : net_ok n -> stream_u8 s -> net_ok (n <| dynamic_tls_session_ios := <[h := Some s]> n.(dynamic_tls_session_ios) |>).
Proof. intros Hn Hs. apply (net_ok_set (Tls h) s n Hn Hs). Qed.

Context `{NL : !NetworkLaws}.

Lemma nt_connect_resolved handle resolved last_error :
  nt (fun _ => True) (connect_resolved handle resolved last_error) (fun h n => h = handle /\ tcp_io handle n).
Proof.
  revert last_error. induction resolved as [|a resolved IH]; intros last_error; cbn [connect_resolved].
  - eapply nt_bind; [by apply (nt_tables (fun _ => True))|]. intros []. apply nt_error.
  - eapply nt_bind; [by apply (nt_outside (fun _ => True))|]. intros socket.
    eapply nt_bind; [apply nt_or_host_error|]. intros []. apply nt_any.
    eapply nt_bind; [by apply (nt_outside (fun _ => True))|]. intros [[[s local] peer]|e]; [|apply nt_any, IH].
    apply nt_fact. intros [i Hc]. symmetry in Hc. apply connect_fresh in Hc.
    eapply nt_bind; [apply nt_or_host_error|]. intros la. eapply nt_bind; [apply nt_or_host_error|]. intros pa. apply nt_any.
    eapply nt_bind; [by apply (nt_tables (fun _ => True))|]. intros [].
    eapply nt_bind with (M := fun _ => tcp_io handle); [|intros []; by apply nt_ret].
    apply nt_modify. intros n Hn _. split; [by apply net_ok_tcp; [|apply Hc]|]. exists s. cbn. by rewrite lookup_insert_eq.
Qed.

Lemma nt_connect_tcp_carrier host port :
  nt (fun _ => True) (connect_tcp_carrier host port) (fun h n => tcp_io h n).
Proof.
  unfold connect_tcp_carrier.
  eapply nt_bind with (M := fun h n => is_Some (n.(tcp_streams) !! h)).
  { intros n [Hn _]. unfold allocate_tcp_stream_handle, mbind, eff_bind. cbn.
    destruct (Z.eqb_spec (next_tcp_stream_handle n) HttpExchange.I64_MAX); cbn; [split; eauto|].
    destruct Hn as (? & ? & ?). split; [split_and!; cbn; [done|done|lia]|]. rewrite lookup_insert_eq. eauto. }
  intros h. eapply nt_bind; [apply nt_or_error|]. intros [[authority nh] np]. apply nt_fact. intros _.
  apply nt_get. intros n0 [sk ->]. apply nt_any. eapply nt_bind; [by apply (nt_tables (fun _ => True))|]. intros []. eapply nt_bind; [by apply (nt_outside (fun _ => True))|]. intros [resolved|e]; apply nt_any.
  - eapply nt_weaken; [apply nt_connect_resolved|done|]. by intros ? n [-> ?].
  - eapply nt_bind; [by apply (nt_tables (fun _ => True))|]. intros []. apply nt_error.
Qed.

Lemma nt_upgrade stream host :
  nt (tcp_io stream) (upgrade_tcp_carrier_to_tls stream host) (fun session n => session = stream /\ tls_io stream n).
Proof.
  unfold upgrade_tcp_carrier_to_tls, dynamic_tls_session.
  eapply nt_bind with (M := fun _ n => tcp_io stream n /\ is_Some (n.(dynamic_tls_sessions) !! stream)).
  { intros n [Hn Hs]. cbn. rewrite lookup_partial_alter_eq. eauto. }
  intros []. apply nt_get. intros n0 [Hs [flow ->]]. apply (nt_pre _ (tcp_io stream)); [|by intros ? ->]. clear n0 Hs.
  destruct (is_empty _); [apply nt_error|].
  eapply nt_bind; [apply nt_or_host_error|]. intros name. apply nt_fact. intros _.
  apply nt_get. intros n0 (s & -> & Hf). apply nt_any.
  eapply nt_bind; [apply (nt_modify _ _ (fun _ _ => True)); intros n (? & ? & ?) _; split; [|done]; split_and!; [by apply map_Forall_delete|done|done]|].
  intros []. eapply nt_bind; [apply nt_or_host_error|]. intros config. apply nt_any.
  eapply nt_bind; [by apply (nt_outside (fun _ => True))|]. intros [[[s' alpn] certificate]|e].
  - apply nt_fact. intros [i Hc]. symmetry in Hc. apply tls_connect_fresh in Hc; [|apply Hf].
    eapply nt_bind; [by apply (nt_tables (fun _ => True))|]. intros [].
    eapply nt_bind with (M := fun _ => tls_io stream); [|intros []; by apply nt_ret].
    apply nt_modify. intros n Hn _. split; [by apply net_ok_tls; [|apply Hc]|]. exists s'. cbn. by rewrite lookup_insert_eq.
  - apply nt_any. eapply nt_bind; [by apply (nt_tables (fun _ => True))|]. intros [].
    eapply nt_bind; [by apply (nt_tables (fun _ => True))|]. intros []. apply nt_error.
Qed.

Lemma nt_attach config :
  nt (fun _ => True) (attach_new_carrier config) (fun k n => exists s, carrier_ios k n = Some (Some s) /\ fresh s).
Proof.
  unfold attach_new_carrier. eapply nt_bind; [apply nt_connect_tcp_carrier|]. intros h. destruct (uses_tls _).
  - eapply nt_bind; [apply nt_upgrade|]. intros session.
    eapply nt_bind; [apply (nt_tables (fun n => session = h /\ tls_io h n)); [done|]; by intros|].
    intros []. apply nt_ret. intros n [-> Hs]. exact Hs.
  - eapply nt_bind; [by apply (nt_tables (tcp_io h))|]. intros []. by apply nt_ret.
Qed.

(** ** Sessions *)

(** The bytes of a stream are these packets and a rest. *)
Inductive decodes : list Z -> list MqttIncomingPacket -> list Z -> Prop :=
| decodes_nil rest : decodes rest [] rest
| decodes_cons bytes p used ps rest :
    decode_packet bytes = Ok (Some (p, used)) -> decodes (drop (Z.to_nat used) bytes) ps rest -> decodes bytes (p :: ps) rest.

Lemma decodes_app bytes ps rest more : decodes bytes ps rest -> decodes (bytes ++ more) ps (rest ++ more).
Proof.
  induction 1 as [rest|bytes p used ps rest Hd _ IH]; [constructor|].
  pose proof (decode_packet_incremental bytes more) as Hi. rewrite Hd in Hi. destruct Hi as [Hu Hi].
  econstructor; [exact Hi|]. rewrite drop_app_le; [done|]. unfold len in Hu. lia.
Qed.
Lemma decodes_snoc bytes ps rest p used :
  decodes bytes ps rest -> decode_packet rest = Ok (Some (p, used)) -> decodes bytes (ps ++ [p]) (drop (Z.to_nat used) rest).
Proof. induction 1; intros Hd; cbn; [econstructor; [done|constructor]|econstructor; eauto]. Qed.

(** The messages the broker published, as events; the acknowledgements they
    are owed. *)
Definition event_of (p : MqttIncomingPacket) : option MqttEvent :=
  match p with Publish topic payload qos retain dup _ => Some (EvPublish topic payload qos retain dup) | _ => None end.
Definition published (ps : list MqttIncomingPacket) : list MqttEvent := omap event_of ps.
Definition puback_frame (id : Z) : list Z := match encode_puback_packet id with Ok b => b | Err _ => [] end.
Definition ack_of (p : MqttIncomingPacket) : option (list Z) :=
  match p with Publish _ _ qos _ _ (Some id) => if qos =? 1 then Some (puback_frame id) else None | _ => None end.
Definition owed (ps : list MqttIncomingPacket) : list (list Z) := omap ack_of ps.
Definition is_publish (e : MqttEvent) : Prop := match e with EvPublish _ _ _ _ _ => True | _ => False end.
#[export] Instance is_publish_dec e : Decision (is_publish e).
Proof. destruct e; cbn; apply _. Defined.
Definition is_puback (frame : list Z) : Prop := head frame = Some 64.
#[export] Instance is_puback_dec frame : Decision (is_puback frame).
Proof. unfold is_puback. apply _. Defined.

(** What happened on the stream [s] of a session: it gave the packets [ps], of
    which [handled] were looked at, and was sent [frames]; the program was
    handed [delivered]. *)
Record history (s : Stream) (ps handled : list MqttIncomingPacket) (frames : list (list Z)) (delivered : list MqttEvent) (c : C) : Prop := {
  h_decodes : decodes s.(received) ps c.(pending_read_buffer);
  h_events : filter is_publish (delivered ++ c.(pending_events)) = published handled;
  h_sent : s.(sent) = concat frames;
  h_acks : filter is_puback frames = owed handled;
}.

(** The session of a connection: its stream is the carrier's, or the one that
    was dropped last when the broker did not answer a ping. *)
Definition attached (k : MqttCarrierAttachment) (s : Stream) (c : C) (n : Net) : Prop :=
  carrier c = Some k /\ carrier_ios k n = Some (Some s).
Definition detached (s : Stream) (c : C) (n : Net) : Prop :=
  carrier c = None /\ phase c = Failed /\ last n.(dropped) = Some s.
Definition held k s ps handled frames delivered c n : Prop :=
  history s ps handled frames delivered c /\ attached k s c n.
Definition session k s ps frames delivered c n : Prop :=
  history s ps ps frames delivered c /\
  ((phase c = Open \/ phase c = Closed) /\ attached k s c n \/ detached s c n).

(** *** Closing *)

Lemma lt_of_nt (F : C -> Prop) P {A} (m : networking A) Q :
  nt P m Q -> lt (fun c n => ok c n /\ F c /\ P n) (on_net m) (fun a c n => ok c n /\ F c /\ Q a n) answered.
Proof.
  intros Hm. apply lt_net. intros c n (Ho & HF & HP). specialize (Hm n (conj (proj2 Ho) HP)).
  destruct (m n) as [[a|e] n']; [destruct Hm as [Hn HQ]|destruct Hm as [Hn He]]; split; try done; by split; [apply Ho|].
Qed.

Lemma nt_close k m : nt (fun _ => True) (close_carrier k m) (fun _ _ => True).
Proof. intros n [Hn _]. by destruct (close_carrier_spec k m n Hn) as (n' & -> & Hn' & _). Qed.

Lemma lt_close_connection m : lt ok (close_connection_carrier connection m) (fun _ c n => ok c n) answered.
Proof.
  eapply lt_bind; [apply (lt_mut _ _ (fun _ c n => ok c n))|].
  { intros c n Ho. unfold mbind, eff_bind. cbn. eapply ok_step; [done|apply step_take_carrier|apply Ho]. }
  intros [k|]; [|by apply lt_ret]. eapply lt_weaken; [apply (lt_of_nt (fun _ => True)), nt_close|done| |done]. by intros ?? ? [? _].
Qed.

Lemma lt_snapshot : lt ok (connection_snapshot connection) (fun _ c n => ok c n) answered.
Proof.
  eapply lt_bind; [apply (lt_net _ _ (fun _ c n => ok c n)); by intros c n Ho|]. intros uuid. apply lt_mut. intros c n Ho.
  unfold mbind, eff_bind. cbn. destruct (host c); cbn; [|by apply answered_error].
  eapply ok_step; [done|apply (step_client_id uuid)|]. unfold ensure_client_id. destruct (is_empty _); apply Ho.
Qed.

Lemma lt_connect_failed {A} k m e (Q : A -> C -> Net -> Prop) : fine e ->
  lt ok (connect_failed connection k m e) Q (fun e' c n => e' = e /\ ok c n).
Proof.
  intros He. eapply lt_bind; [apply (lt_mut _ _ (fun _ c n => ok c n))|].
  { intros c n Ho. cbn. eapply ok_step; [done|apply step_failed|apply Ho]. }
  intros []. eapply lt_bind; [apply (lt_net _ _ (fun _ c n => ok c n))|].
  { intros c n [Hc Hn]. destruct (close_carrier_spec k (Some m) n Hn) as (n' & -> & Hn' & _). by split. }
  intros []. by apply lt_throw.
Qed.

(** *** Reading in a session *)

Lemma pings_no_acks j : filter is_puback (replicate j PING) = [].
Proof. induction j as [|j IH]; [done|]. cbn [replicate]. by rewrite filter_cons_False. Qed.
Lemma frames_pings frames j : filter is_puback (frames ++ replicate j PING) = filter is_puback frames.
Proof. by rewrite filter_app, pings_no_acks, app_nil_r. Qed.

Lemma packet_read_held k s ps handled frames delivered c1 n1 p c n :
  held k s ps handled frames delivered c1 n1 ->
  packet_read k (c1 <| pending_read_buffer := [] |>) n1 c1.(pending_read_buffer) p c n ->
  exists s' j, held k s' (ps ++ [p]) handled (frames ++ replicate j PING) delivered c n.
Proof.
  intros [[Hd He Hs Ha] [Hk Hio]] (_ & got & j & used & [Hf _ Hadv] & Hp & Hb).
  rewrite Hio in Hadv. destruct Hadv as (s' & Hio' & Hr & Hs' & _). apply fixed_eq in Hf as (_ & Hk' & He' & _).
  exists s', j. split; [split|split; [by rewrite Hk'|done]].
  - rewrite Hr, Hb. eapply decodes_snoc; [by apply decodes_app|done].
  - by rewrite He'.
  - by rewrite Hs', Hs, concat_app.
  - by rewrite frames_pings.
Qed.

Lemma session_over_held k s ps frames delivered c1 n1 c n :
  held k s ps ps frames delivered c1 n1 ->
  session_over k (c1 <| pending_read_buffer := [] |>) n1 c1.(pending_read_buffer) c n ->
  exists s' j, session k s' ps (frames ++ replicate j PING) delivered c n.
Proof.
  intros [[Hd He Hs Ha] [Hk Hio]] (_ & Hev & got & j & Hb & Hend).
  assert (Hist : forall s', received s' = received s ++ got -> sent s' = sent s ++ concat (replicate j PING) ->
    history s' ps ps (frames ++ replicate j PING) delivered c).
  { intros s' Hr Hs'. split; [|by rewrite Hev|by rewrite Hs', Hs, concat_app|by rewrite frames_pings].
    rewrite Hr, Hb. by apply decodes_app. }
  destruct Hend as [(Hp & Hk' & Hadv)|(Hp & _ & Hk' & Hadv)].
  - rewrite Hio in Hadv. destruct Hadv as (s' & Hio' & Hr & Hs' & _). exists s', j. split; [by apply Hist|]. left. by split; [right|].
  - destruct (Hadv _ Hio) as (s' & Hl & s'' & [= <-] & Hr & Hs' & _). exists s', j. split; [by apply Hist|]. by right.
Qed.

Lemma filter_other frames f : head f ≠ Some 64 -> filter is_puback (frames ++ [f]) = filter is_puback frames.
Proof. intros Hf. by rewrite filter_app, (filter_cons_False _ f), app_nil_r. Qed.
Lemma fixed_packet_head h b f : encode_fixed_packet h b = Ok f -> head f = Some h.
Proof. intros (l & _ & [= <-])%bind_Ok. done. Qed.
Lemma connect_packet_head config f : encode_connect_packet config = Ok f -> head f = Some 16.
Proof.
  intros (? & _ & Hf)%bind_Ok. revert Hf. intros (? & _ & Hf)%bind_Ok. revert Hf. intros (? & _ & Hf)%bind_Ok.
  revert Hf. intros (? & _ & Hf)%bind_Ok. by apply fixed_packet_head in Hf.
Qed.

(** *** Opening a session *)

(** A connection that was just opened: the broker accepted it, and its session
    has only begun. *)
Definition begun (c : C) (n : Net) : Prop :=
  exists k s r frames, r < 128 /\ held k s [ConnAck r] [ConnAck r] frames [] c n.

Lemma lt_connack k s f c1 n1 :
  ok c1 n1 -> held k s [] [] [f] [] c1 n1 ->
  lt (fun c n => c = c1 /\ n = n1) (connack connection k) (fun b c n => b = true /\ ok c n /\ phase c = Open /\ begun c n) failing.
Proof.
  intros Ho Hh. unfold connack.
  assert (Hrej : forall m (Q : bool -> C -> Net -> Prop), lt ok (connect_failed connection k m (Error (HostError m))) Q failing).
  { intros m Q. eapply lt_weaken; [by apply lt_connect_failed|done|done|]. by intros e c n [-> ?]. }
  eapply lt_bind; [eapply lt_weaken; [by apply (lt_read_next c1 n1 Ho)|done| |by intros e c n [? _]]|].
  { intros r c n Hr. exact Hr. }
  intros r. apply lt_at. intros c n (k' & Hk & Hr). assert (k' = k) as -> by (destruct Hh as [_ [? _]]; congruence).
  assert (Hok : ok c n) by (destruct r; apply Hr).
  assert (Hrej' : forall m, lt (fun c' n' => c' = c /\ n' = n) (connect_failed connection k m (Error (HostError m)))
    (fun b c n => b = true /\ ok c n /\ phase c = Open /\ begun c n) failing).
  { intros m. eapply lt_pre; [apply Hrej|]. by intros ?? [-> ->]. }
  destruct r as [p|]; [|apply Hrej']. destruct p as [r| | | | | |]; try apply Hrej'.
  destruct (Z.ltb_spec r 128); [|apply Hrej'].
  apply lt_now. intros t. eapply lt_bind with (M := fun _ c n => ok c n /\ phase c = Open /\ begun c n); [|intros []; by apply lt_ret].
  apply lt_mut. intros ?? [[-> ->] _]. cbn [modify].
  destruct (packet_read_held _ _ _ _ _ _ _ _ _ _ _ Hh Hr) as (s' & j & [Hd He Hs Ha] & Hk' & Hio).
  assert (Hb : pending_read_buffer (mark_open t c) = pending_read_buffer c /\ pending_events (mark_open t c) = pending_events c
    /\ carrier (mark_open t c) = carrier c).
  { unfold mark_open, configure. cbn. by destruct (phase c). }
  destruct Hb as (Hb & Hv & Hc). split; [|split; [done|]].
  - eapply ok_step; [done|apply step_open|]. rewrite Hb. apply Hok.
  - exists k, s', r, ([f] ++ replicate j PING). split; [done|]. split; [|split; [by rewrite Hc|done]].
    split; [by rewrite Hb|by rewrite Hv|done|done].
Qed.

Lemma lt_or_connect_failed k m (P : C -> Net -> Prop) (Q : unit -> C -> Net -> Prop) :
  lt P m Q answered -> lt P (or_connect_failed connection k m) Q failing.
Proof.
  intros Hm c n HP. destruct (Hm c n HP) as (r & c1 & n1 & Hr & H1). unfold or_connect_failed. rewrite Hr.
  destruct r as [[]|e]; [by exists (Ok tt), c1, n1|]. destruct H1 as [[x ->] Ho].
  destruct (lt_connect_failed k (error_display x) (Error x) (fun (_ : unit) _ _ => False) I c1 n1 Ho) as (r & c2 & n2 & Hr2 & H2).
  exists r, c2, n2. split; [exact Hr2|]. destruct r; [done|]. by destruct H2 as [-> ?].
Qed.

Lemma configure_keeps c :
  pending_read_buffer (configure c) = pending_read_buffer c /\ pending_events (configure c) = pending_events c /\ carrier (configure c) = carrier c.
Proof. unfold configure. cbn. by destruct (phase c). Qed.

Lemma lt_open_new : lt ok
  (_ ← close_connection_carrier connection None;
   config ← connection_snapshot connection;
   k ← on_net (attach_new_carrier config);
   _ ← with_connection_state_mut connection (modify (attach_carrier k));
   packet ← of_outcome (encode_connect_packet config);
   _ ← or_connect_failed connection k (write_connection_packet connection packet);
   _ ← with_connection_state_mut connection (modify note_connect_sent);
   connack connection k)
  (fun b c n => b = true /\ ok c n /\ phase c = Open /\ begun c n) failing.
Proof.
  pose proof answered_failing as Haf.
  eapply lt_bind; [eapply lt_weaken; [apply lt_close_connection|done|done|auto]|]. intros [].
  eapply lt_bind; [eapply lt_weaken; [apply lt_snapshot|done|done|auto]|]. intros config.
  eapply lt_bind; [eapply lt_weaken; [apply (lt_of_nt (fun _ => True)), nt_attach|done|intros ? c n Ha; exact Ha|auto]|]. intros k. cbn beta.
  eapply lt_bind; [apply (lt_mut _ _ (fun _ c n => ok c n /\ exists s, held k s [] [] [] [] c n))|].
  { intros c n (Ho & _ & s & Hio & Hu & Hr & Hs). cbn [modify]. split.
    - eapply ok_step; [done|apply step_attach|constructor].
    - exists s. split; [|by split]. split; [rewrite Hr; constructor|done|done|done]. }
  intros []. eapply lt_bind; [apply lt_outcome; [by apply (encoders_no_panic config "" [] 0 false None "" 0 "")|]|].
  { intros e c n [Ho _]. by apply Haf, answered_error. }
  intros packet. apply lt_fact. intros Hp%connect_packet_head. apply lt_at. intros c n [Ho [s Hh]].
  eapply lt_bind; [apply lt_or_connect_failed, lt_write_packet, Ho|]. intros []. cbn beta.
  eapply lt_bind; [apply (lt_mut _ _ (fun _ c n => ok c n /\ exists s, held k s [] [] [packet] [] c n))|].
  { intros c' n' (Ho' & Hb' & k' & Hk' & [Hf _ Hio]). cbn [modify]. destruct (configure_keeps c') as (Hb & Hv & Hc).
    destruct Hh as [[Hd He Hs Ha] [Hk Hi]]. assert (k' = k) as -> by congruence.
    apply fixed_eq in Hf as (_ & Hk2 & He2 & _). rewrite Hi in Hio. destruct Hio as (s' & Hio & Hr & Hs' & _). split.
    - eapply ok_step; [done|apply step_connect_sent|]. unfold note_connect_sent. cbn. rewrite Hb. apply Ho'.
    - exists s'. split; [|split; [unfold note_connect_sent; cbn; congruence|done]].
      rewrite app_nil_r in Hr. unfold note_connect_sent. split; cbn.
      + by rewrite Hb, Hb', Hr.
      + rewrite Hv, He2. done.
      + rewrite Hs', Hs. done.
      + apply (filter_other [] packet). by rewrite Hp. }
  intros []. apply lt_at. intros c' n' [Ho' [s' Hh']]. by apply lt_connack with s' packet.
Qed.

Lemma lt_open c1 n1 : ok c1 n1 ->
  lt (fun c n => c = c1 /\ n = n1) (ensure_connection_open connection)
    (fun b c n => b = true /\ ok c n /\ phase c = Open /\ (phase c1 = Open -> c = c1 /\ n = n1) /\ (phase c1 ≠ Open -> begun c n))
    (fun e c n => failing e c n /\ phase c1 ≠ Open).
Proof.
  intros Ho. apply lt_state. intros c. apply lt_at. intros ?? [[-> ->] <-].
  destruct (decide (phase c1 = Open)) as [Hp|Hp].
  - rewrite Hp. apply lt_ret. intros ?? [-> ->]. by split_and!.
  - destruct (phase c1) eqn:Hq; try done.
    all: eapply lt_weaken; [apply lt_open_new|by intros ?? [-> ->]| |done]; intros b c n (? & ? & ? & ?); by split_and!.
Qed.

(** *** A packet nobody waits for *)

Lemma encode_puback_frame id : encode_puback_packet id = Ok (puback_frame id).
Proof. done. Qed.

Lemma puback_frame_ack id : is_puback (puback_frame id).
Proof. done. Qed.

(** The acknowledgement is sent first. *)
Lemma lt_acknowledge topic payload qos retain dup id c1 n1 : ok c1 n1 ->
  lt (fun c n => c = c1 /\ n = n1)
    (if qos =? 1 then
       match id with
       | None => host_error "mqtt qos1 publish is missing a packet id"
       | Some id => bytes ← of_outcome (encode_puback_packet id); write_connection_packet connection bytes
       end
     else mret tt)
    (fun _ c n => ok c n /\ pending_read_buffer c = pending_read_buffer c1 /\ fixed c = fixed c1 /\
       forall k, carrier c1 = Some k ->
         advance k c1 n1 c n [] (option_list (ack_of (Publish topic payload qos retain dup id)))) answered.
Proof.
  intros Ho. cbn [ack_of]. destruct (qos =? 1).
  - destruct id as [id|]; [|apply lt_throw; intros ?? [-> ->]; by apply answered_error].
    rewrite encode_puback_frame. cbn [of_outcome]. eapply lt_weaken; [by apply lt_write_packet|done| |done].
    intros [] c n (? & ? & k & Hk & Ha). split_and!; [done|done|apply Ha|]. intros k' Hk'. by assert (k' = k) as -> by congruence.
  - apply lt_ret. intros ?? [-> ->]. split_and!; [done|done|done|]. intros k _. destruct id; apply advance_refl.
Qed.

Definition handles (p : MqttIncomingPacket) (c1 : C) (n1 : Net) (c : C) (n : Net) : Prop :=
  forall k s ps handled frames delivered, held k s ps handled frames delivered c1 n1 ->
    exists s' frames', held k s' ps (handled ++ [p]) (frames ++ frames') delivered c n.

(** A packet that is neither a message nor owed an answer changes no history. *)
Lemma handles_quiet p c1 n c :
  event_of p = None -> ack_of p = None -> carrier c = carrier c1 -> pending_read_buffer c = pending_read_buffer c1 ->
  (pending_events c = pending_events c1 \/ exists r, pending_events c = pending_events c1 ++ [EvClosed r]) -> handles p c1 n c n.
Proof.
  intros Hev Hack Hc Hb Hq k s ps handled frames delivered [[Hd He Hs Ha] [Hk Hio]]. exists s, [].
  unfold published, owed in *. rewrite app_nil_r. split; [split|split; [by rewrite Hc|done]].
  - by rewrite Hb.
  - unfold published. rewrite omap_app. cbn. rewrite Hev, app_nil_r, <-He. destruct Hq as [->|[r ->]]; [done|].
    rewrite app_assoc, filter_app, (filter_cons_False is_publish (EvClosed r)) by (cbn; tauto). by rewrite app_nil_r.
  - done.
  - unfold owed. rewrite omap_app. cbn. by rewrite Hack, app_nil_r.
Qed.

Lemma lt_handle p c1 n1 : ok c1 n1 ->
  lt (fun c n => c = c1 /\ n = n1) (handle_unsolicited_packet connection p)
    (fun _ c n => ok c n /\ (unread c n <= unread c1 n1)%nat /\ keep_alive_secs c = keep_alive_secs c1 /\
       (phase c = phase c1 \/ phase c = Closed /\ pending_events c ≠ []) /\ handles p c1 n1 c n) answered.
Proof.
  intros Ho. destruct p as [r|topic payload qos retain dup id|id r|id r|id r| |r];
    try (apply lt_ret; intros ?? [-> ->]; split_and!; [done|done|done|by left|by apply handles_quiet; [..|left]]).
  - eapply lt_bind; [by apply (lt_acknowledge topic payload qos retain dup id)|]. intros []. apply lt_mut. intros c n (Ho' & Hb & Hf & Ha). cbn [modify].
    pose proof (fixed_eq _ _ Hf) as (Hp & Hk & He & Hka & _). split_and!; [by apply ok_events| |done|by left|].
    + unfold unread. cbn. rewrite Hb, Hk. destruct (carrier c1) as [k|] eqn:Hk1; [|done].
      pose proof (carrier_to_come_advance _ _ _ _ _ _ _ (Ha k eq_refl)). cbn in *. lia.
    + intros k s ps handled frames delivered [[Hd Hev Hs Hack] [Hk1 Hio]].
      destruct (Ha k Hk1) as [_ _ Hadv]. rewrite Hio in Hadv. destruct Hadv as (s' & Hio' & Hr & Hs' & _).
      exists s', (option_list (ack_of (Publish topic payload qos retain dup id))). split; [split|split; [cbn; congruence|done]]; cbn.
      * by rewrite Hr, app_nil_r, Hb.
      * rewrite He, app_assoc, filter_app, Hev. unfold published. by rewrite omap_app.
      * by rewrite Hs', Hs, concat_app.
      * rewrite filter_app, Hack. unfold owed. rewrite omap_app. f_equal. cbn. destruct id; [|done]. by destruct (qos =? 1).
  - apply lt_activity. intros t ?? [-> ->]. split_and!; [|done|done|by left|by apply handles_quiet; [..|left]].
    eapply ok_step; [done|apply step_ping_received|apply Ho].
  - eapply lt_bind; [apply (lt_mut _ _ (fun _ c n => c = mark_closed c1 /\ n = n1))|]; [by intros ?? [-> ->]|].
    intros []. apply lt_mut. intros ?? [-> ->]. cbn [modify]. split_and!; [|done|done|right|].
    + apply ok_events. eapply ok_step; [done|apply step_closed|apply Ho].
    + split; [done|]. cbn. by destruct (pending_events c1).
    + apply handles_quiet; [done..|]. right. cbn. eauto.
Qed.

(** *** Waiting for an answer *)

(** The packets up to an accepted one were handled. *)
Definition waited (accept : MqttIncomingPacket -> option (vm_result unit)) (c1 : C) (n1 : Net) (c : C) (n : Net) : Prop :=
  forall k s ps frames delivered, held k s ps ps frames delivered c1 n1 ->
    exists s' more p frames', held k s' (ps ++ more ++ [p]) (ps ++ more ++ [p]) (frames ++ frames') delivered c n /\
      accept p = Some (Ok tt).
Definition answers_only (accept : MqttIncomingPacket -> option (vm_result unit)) : Prop :=
  forall p r, accept p = Some r -> event_of p = None /\ ack_of p = None.

Lemma lt_wait_loop fuel accept message c1 n1 : answers_only accept -> ok c1 n1 -> (unread c1 n1 < fuel)%nat ->
  lt (fun c n => c = c1 /\ n = n1) (wait_loop fuel connection accept message)
    (fun _ c n => ok c n /\ waited accept c1 n1 c n /\ (phase c = phase c1 \/ phase c = Closed)) failing.
Proof.
  intros Hacc. revert c1 n1. induction fuel as [|fuel IH]; intros c1 n1 Ho Hf; [lia|]. cbn [wait_loop].
  eapply lt_bind; [eapply lt_weaken; [by apply (lt_read_next c1 n1 Ho)|done|intros ?? ? Hr; exact Hr|by intros e c n [? _]]|].
  intros r. apply lt_at. intros c n (k & Hk & Hr). destruct r as [p|].
  - pose proof (packet_read_unread _ _ _ _ _ _ Hk Hr) as (Hu & Hp & Hka & He). pose proof (proj1 Hr) as Hok.
    assert (Hheld : forall k0 s ps frames delivered, held k0 s ps ps frames delivered c1 n1 ->
      exists s' j, held k0 s' (ps ++ [p]) ps (frames ++ replicate j PING) delivered c n).
    { intros k0 s ps frames delivered Hh. assert (k0 = k) as -> by (destruct Hh as [_ [? _]]; congruence). by eapply packet_read_held. }
    destruct (accept p) as [r|] eqn:Hap.
    + destruct r as [[]|e]; [|apply lt_throw; by intros ?? [-> ->]]. apply lt_ret. intros ?? [-> ->]. split_and!; [done| |by left].
      intros k0 s ps frames delivered Hh. destruct (Hheld _ _ _ _ _ Hh) as (s' & j & [Hd He' Hs Ha] & Hat).
      exists s', [], p, (replicate j PING). cbn. split; [|done]. destruct (Hacc _ _ Hap) as [Hev Hak].
      split; [split|done]; [done| |done|]; unfold published, owed; rewrite omap_app; cbn.
      * by rewrite Hev, app_nil_r.
      * by rewrite Hak, app_nil_r.
    + eapply lt_bind; [eapply lt_weaken; [by apply (lt_handle p c n Hok)|done|intros ?? ? Hh; exact Hh|intros ???; apply answered_failing]|].
      intros []. apply lt_at. intros c2 n2 (Ho2 & Hu2 & Hka2 & Hp2 & Hh2).
      eapply lt_weaken; [apply (IH c2 n2); [done|lia]|done| |done]. intros [] c3 n3 (Ho3 & Hw & Hp3). split_and!; [done| |naive_solver congruence].
      intros k0 s ps frames delivered Hh. destruct (Hheld _ _ _ _ _ Hh) as (s' & j & Hh').
      destruct (Hh2 _ _ _ _ _ _ Hh') as (s2 & f2 & Hh2'). destruct (Hw _ _ _ _ _ Hh2') as (s3 & more & q & f3 & Hh3 & Hq).
      exists s3, (p :: more), q, (replicate j PING ++ f2 ++ f3). rewrite <-!app_assoc in Hh3. cbn in *. split; [exact Hh3|done].
  - unfold terminal_connection_message.
    eapply lt_bind with (M := fun _ c n => ok c n); [|intros m; by apply lt_throw].
    apply lt_state. intros cc. apply lt_ret. intros ?? [[-> ->] _]. apply Hr.
Qed.

(** *** Requests *)

(** A frame was sent and, after it, packets that satisfy [answer] were read. *)
Definition exchanged (frame : list Z) (answer : list MqttIncomingPacket -> Prop) (c1 : C) (n1 : Net) (c : C) (n : Net) : Prop :=
  forall k s ps frames delivered, held k s ps ps frames delivered c1 n1 ->
    exists s' more frames', held k s' (ps ++ more) (ps ++ more) (frames ++ frame :: frames') delivered c n /\ answer more.

Definition still (c1 c : C) : Prop := phase c = phase c1 \/ phase c = Closed.

Lemma lt_packets_to_come c1 n1 :
  lt (fun c n => c = c1 /\ n = n1) (packets_to_come connection)
    (fun f c n => (c = c1 /\ n = n1) /\ f = unread c1 n1) (fun _ _ _ => False).
Proof.
  apply lt_state. intros c. apply lt_get. intros c2 n2. apply lt_ret.
  intros ?? [[[[-> ->] <-] <-] <-]. split; [done|]. by rewrite net_at.
Qed.

Lemma lt_wait_for accept message c1 n1 : answers_only accept -> ok c1 n1 ->
  lt (fun c n => c = c1 /\ n = n1) (wait_for connection accept message)
    (fun _ c n => ok c n /\ waited accept c1 n1 c n /\ still c1 c) failing.
Proof.
  intros Hacc Ho. eapply lt_bind; [eapply lt_weaken; [apply (lt_packets_to_come c1 n1)|done|intros ?? ? Hb; exact Hb|by intros ? ? ? []]|]. intros f. apply lt_fact. intros ->.
  apply lt_wait_loop; [done|done|lia].
Qed.

Lemma lt_send frame c1 n1 : ok c1 n1 -> head frame ≠ Some 64 ->
  lt (fun c n => c = c1 /\ n = n1) (write_connection_packet connection frame)
    (fun _ c n => ok c n /\ still c1 c /\ exchanged frame (fun more => more = []) c1 n1 c n) failing.
Proof.
  intros Ho Hh. eapply lt_weaken; [by apply lt_write_packet|done| |intros ???; apply answered_failing].
  intros [] c n (Ho' & Hb & k & Hk & [Hf _ Hadv]). apply fixed_eq in Hf as (Hp & Hk' & He & _). split_and!; [done|by left|].
  intros k' s ps frames delivered [[Hd Hev Hs Ha] [Hk1 Hio]]. assert (k' = k) as -> by congruence.
  rewrite Hio in Hadv. destruct Hadv as (s' & Hio' & Hr & Hs' & _). exists s', [], []. rewrite app_nil_r. split; [|done].
  split; [split|split; [congruence|done]].
  - by rewrite Hr, app_nil_r, Hb.
  - by rewrite He.
  - by rewrite Hs', Hs, concat_app.
  - by rewrite filter_other.
Qed.

Lemma lt_request frame accept message c1 n1 : answers_only accept -> ok c1 n1 -> head frame ≠ Some 64 ->
  lt (fun c n => c = c1 /\ n = n1) (_ ← write_connection_packet connection frame; wait_for connection accept message)
    (fun _ c n => ok c n /\ still c1 c /\ exchanged frame (fun more => exists p, p ∈ more /\ accept p = Some (Ok tt)) c1 n1 c n) failing.
Proof.
  intros Hacc Ho Hh. eapply lt_bind; [by apply lt_send|]. intros []. apply lt_at. intros c n (Ho' & Hs & Hx).
  eapply lt_weaken; [by apply lt_wait_for|done| |done]. intros [] c2 n2 (Ho2 & Hw & Hs2).
  split_and!; [done|unfold still in *; naive_solver congruence|].
  intros k s ps frames delivered Hd. destruct (Hx _ _ _ _ _ Hd) as (s1 & m1 & f1 & Hd1 & ->). rewrite app_nil_r in Hd1.
  destruct (Hw _ _ _ _ _ Hd1) as (s2 & more & p & f2 & Hd2 & Hp). rewrite <-app_assoc in Hd2.
  exists s2, (more ++ [p]), (f1 ++ f2). split; [exact Hd2|]. exists p. split; [|done]. set_solver.
Qed.

Lemma puback_answers id : answers_only (puback_answer id).
Proof. intros p r. by destruct p. Qed.
Lemma suback_answers id : answers_only (suback_answer id).
Proof. intros p r. by destruct p. Qed.
Lemma unsuback_answers id : answers_only (unsuback_answer id).
Proof. intros p r. by destruct p. Qed.

Lemma codes_accepted what codes : Some (codes_answer what codes) = Some (Ok tt) -> Forall (fun code => code < 128) codes.
Proof.
  unfold codes_answer. destruct (existsb _ _) eqn:He; [done|]. intros _. apply Forall_forall. intros x Hx.
  rewrite <-not_true_iff_false, existsb_exists in He. destruct (Z.ltb_spec x 128); [done|]. destruct He. exists x.
  split; [by apply list_elem_of_In|by apply Z.leb_le].
Qed.

Lemma lt_fresh_packet_id c1 n1 : ok c1 n1 ->
  lt (fun c n => c = c1 /\ n = n1) (fresh_packet_id connection)
    (fun id c n => c = (next_packet_id c1).2 /\ n = n1 /\ id = (next_packet_id c1).1) failing.
Proof. intros Ho. apply lt_mut. intros ?? [-> ->]. done. Qed.
Lemma packet_id_ok c n : ok c n -> ok (next_packet_id c).2 n.
Proof. intros Ho. eapply ok_step; [done|apply step_packet_id|apply Ho]. Qed.

Lemma publish_packet_head topic payload qos retain id f :
  qos = 0 \/ qos = 1 -> encode_publish_packet topic payload qos retain id = Ok f -> head f ≠ Some 64.
Proof. intros Hq (t & _ & Hf)%bind_Ok. apply fixed_packet_head in Hf. rewrite Hf. by destruct retain, Hq as [-> | ->]. Qed.
Lemma subscribe_packet_head topic qos id f : encode_subscribe_packet topic qos id = Ok f -> head f ≠ Some 64.
Proof. intros (t & _ & Hf)%bind_Ok. apply fixed_packet_head in Hf. by rewrite Hf. Qed.
Lemma unsubscribe_packet_head topic id f : encode_unsubscribe_packet topic id = Ok f -> head f ≠ Some 64.
Proof. intros (t & _ & Hf)%bind_Ok. apply fixed_packet_head in Hf. by rewrite Hf. Qed.

(** The state a request is made in: the open connection, or one just opened. *)
Definition opened (c1 : C) (n1 : Net) (c2 : C) (n2 : Net) : Prop :=
  ok c2 n2 /\ phase c2 = Open /\ (phase c1 = Open -> c2 = c1 /\ n2 = n1) /\ (phase c1 ≠ Open -> begun c2 n2).
Definition requested (frame_is : list Z -> Prop) (answer : list MqttIncomingPacket -> Prop) (c1 : C) (n1 : Net) (c : C) (n : Net) : Prop :=
  exists c2 n2 frame, opened c1 n1 c2 n2 /\ frame_is frame /\ exchanged frame answer c2 n2 c n.
Definition open_or_closed (c : C) : Prop := phase c = Open \/ phase c = Closed.

Lemma lt_opened c1 n1 : ok c1 n1 ->
  lt (fun c n => c = c1 /\ n = n1) (ensure_connection_open connection) (fun b c n => b = true /\ opened c1 n1 c n) failing.
Proof.
  intros Ho. eapply lt_weaken; [by apply lt_open|done| |by intros e c n [? _]]. intros b c n (? & ? & ? & ? & ?). by split_and!.
Qed.

Lemma exchanged_id frame answer c2 n2 c n : exchanged frame answer (next_packet_id c2).2 n2 c n -> exchanged frame answer c2 n2 c n.
Proof.
  intros Hx k s ps frames delivered [[Hd He Hs Ha] Hat]. destruct (Hx k s ps frames delivered) as (s' & more & f' & Hr); [|by exists s', more, f'].
  by split.
Qed.
Lemma exchanged_weaken frame (P Q : list MqttIncomingPacket -> Prop) c2 n2 c n :
  (forall more, P more -> Q more) -> exchanged frame P c2 n2 c n -> exchanged frame Q c2 n2 c n.
Proof. intros HPQ Hx k s ps frames delivered Hh. destruct (Hx _ _ _ _ _ Hh) as (s' & more & f' & ? & ?). exists s', more, f'. auto. Qed.

Lemma failing_error x c n : ok c n -> failing (Error x) c n.
Proof. done. Qed.

Lemma still_open c2 c : still c2 c -> phase c2 = Open -> open_or_closed c.
Proof. unfold still, open_or_closed. intuition congruence. Qed.

Lemma lt_publish topic payload qos retain c1 n1 : ok c1 n1 ->
  lt (fun c n => c = c1 /\ n = n1) (publish_payload connection topic payload qos retain)
    (fun _ c n => ok c n /\ open_or_closed c /\ exists id, requested
       (fun frame => encode_publish_packet topic payload qos retain (if qos =? 0 then None else Some id) = Ok frame)
       (fun more => qos = 1 -> exists r, PubAck id r ∈ more /\ r < 128) c1 n1 c n) failing.
Proof.
  intros Ho. unfold publish_payload. destruct (is_empty topic); [apply lt_throw; by intros ?? [-> ->]|].
  eapply lt_bind; [by apply lt_opened|]. intros b. apply lt_at. intros c2 n2 (-> & Hop). pose proof Hop as (Ho2 & Hp2 & _).
  eapply lt_bind; [apply lt_or_error; by intros e ?? [-> ->]|]. intros q. apply lt_fact. intros Hq.
  assert (q = qos /\ (qos = 0 \/ qos = 1)) as [-> Hqos].
  { unfold parse_qos in Hq. destruct (Z.eqb_spec qos 0); [injection Hq as <-; auto|].
    destruct (Z.eqb_spec qos 1); [injection Hq as <-; auto|]. by destruct (qos =? 2). }
  clear Hq. pose proof (fun id => proj1 (proj2 (encoders_no_panic
    (MkConnectConfig Mqtt "" 0 "" None None 0 true) topic payload qos retain id "" 0 ""))) as Hnp.
  destruct (Z.eqb_spec qos 0) as [->|Hq0].
  - eapply lt_bind; [by apply (lt_ret _ _ (fun o c n => o = None /\ c = c2 /\ n = n2))|]. intros o. apply lt_at. intros ?? (-> & -> & ->).
    eapply lt_bind; [apply lt_outcome; [apply Hnp|by intros e ?? [-> ->]]|]. intros frame. apply lt_fact. intros Hfr.
    eapply lt_bind; [by eapply lt_send, publish_packet_head|]. intros [].
    eapply lt_bind; [apply lt_skip|]. intros []. apply lt_ret. intros c n (? & Hst & Hx). split_and!; [done|by eapply still_open|].
    exists 0, c2, n2, frame. split_and!; [done..|]. by eapply exchanged_weaken; [|exact Hx].
  - eapply lt_bind; [eapply lt_bind; [by apply lt_fresh_packet_id|]; intros id; apply (lt_ret _ _ (fun o c n => exists id, o = Some id /\ ok c n /\ c = (next_packet_id c2).2 /\ n = n2))|].
    { intros c n (-> & -> & ->). eexists. split_and!; [done| |done..]. by apply packet_id_ok. }
    intros o. apply lt_at. intros c3 ? (id & -> & Ho3 & -> & ->).
    eapply lt_bind; [apply lt_outcome; [apply Hnp|by intros e ?? [-> ->]]|]. intros frame. apply lt_fact. intros Hfr.
    pose proof (lt_request frame (puback_answer id) "mqtt connection closed while waiting for puback" _ _ (puback_answers id) Ho3 (publish_packet_head _ _ _ _ _ _ Hqos Hfr)) as Hreq.
    apply lt_assoc. eapply lt_bind; [exact Hreq|]. intros []. apply lt_ret. intros c n (? & Hst & Hx).
    split_and!; [done|by eapply still_open|]. exists id, c2, n2, frame. split_and!; [done..|].
    apply exchanged_id. eapply exchanged_weaken; [|exact Hx]. intros more (p & Hp & Ha) _. destruct p as [| |id' r| | | |]; try done.
    cbn in Ha. destruct (Z.eqb_spec id' id) as [->|]; [|done]. destruct (Z.leb_spec 128 r); [done|]. by exists r.
Qed.

(** A request whose frame is made with a fresh identifier. *)
Lemma lt_identified (encode : Z -> outcome (list Z)) (accept : Z -> MqttIncomingPacket -> option (vm_result unit)) message c2 n2 :
  ok c2 n2 -> phase c2 = Open -> (forall id, answers_only (accept id)) ->
  (forall id, no_panic (encode id)) -> (forall id f, encode id = Ok f -> head f ≠ Some 64) ->
  lt (fun c n => c = c2 /\ n = n2)
    (packet_id ← fresh_packet_id connection;
     bytes ← of_outcome (encode packet_id);
     _ ← write_connection_packet connection bytes;
     _ ← wait_for connection (accept packet_id) message;
     mret true)
    (fun _ c n => ok c n /\ open_or_closed c /\ exists id frame, encode id = Ok frame /\
       exchanged frame (fun more => exists p, p ∈ more /\ accept id p = Some (Ok tt)) c2 n2 c n) failing.
Proof.
  intros Ho Hp Hacc Hnp Hhd. eapply lt_bind; [by apply lt_fresh_packet_id|]. intros id. apply lt_at. intros ?? (-> & -> & ->).
  pose proof (packet_id_ok _ _ Ho) as Ho'.
  eapply lt_bind; [apply lt_outcome; [apply Hnp|by intros e ?? [-> ->]]|]. intros frame. apply lt_fact. intros Hfr.
  apply lt_assoc. eapply lt_bind; [by eapply (lt_request frame (accept _) message); [apply Hacc| |eapply Hhd]|].
  intros []. apply lt_ret. intros c n (? & Hst & Hx). split_and!; [done|by eapply still_open|].
  eexists _, frame. split; [done|]. by apply exchanged_id.
Qed.

Lemma lt_subscribe filter qos c1 n1 : ok c1 n1 ->
  lt (fun c n => c = c1 /\ n = n1) (subscribe_filter connection filter qos)
    (fun _ c n => ok c n /\ open_or_closed c /\ exists id, requested
       (fun frame => encode_subscribe_packet filter qos id = Ok frame)
       (fun more => exists codes, SubAck id codes ∈ more /\ Forall (fun code => code < 128) codes) c1 n1 c n) failing.
Proof.
  intros Ho. unfold subscribe_filter. destruct (is_empty filter); [apply lt_throw; by intros ?? [-> ->]|].
  eapply lt_bind; [by apply lt_opened|]. intros b. apply lt_at. intros c2 n2 (-> & Hop). pose proof Hop as (Ho2 & Hp2 & _).
  eapply lt_bind; [apply lt_or_error; by intros e ?? [-> ->]|]. intros q. apply lt_fact. intros Hq.
  assert (q = qos) as ->.
  { unfold parse_qos in Hq. destruct (Z.eqb_spec qos 0); [congruence|]. destruct (Z.eqb_spec qos 1); [congruence|]. by destruct (qos =? 2). }
  eapply lt_weaken; [apply (lt_identified (encode_subscribe_packet filter qos) suback_answer _ c2 n2 Ho2 Hp2 suback_answers)|done| |done].
  - intros id. apply (encoders_no_panic (MkConnectConfig Mqtt "" 0 "" None None 0 true) "" [] qos false None filter id "").
  - intros id f. apply subscribe_packet_head.
  - intros ? c n (? & ? & id & frame & Hfr & Hx). split_and!; [done..|]. exists id, c2, n2, frame. split_and!; [done..|].
    eapply exchanged_weaken; [|exact Hx]. intros more (p & Hp & Ha). destruct p as [| | |id' codes| | |]; try done.
    cbn in Ha. destruct (Z.eqb_spec id' id) as [->|]; [|done]. exists codes. split; [done|by apply codes_accepted in Ha].
Qed.

Lemma lt_unsubscribe filter c1 n1 : ok c1 n1 ->
  lt (fun c n => c = c1 /\ n = n1) (unsubscribe_filter connection filter)
    (fun _ c n => ok c n /\ open_or_closed c /\ exists id, requested
       (fun frame => encode_unsubscribe_packet filter id = Ok frame)
       (fun more => exists codes, UnsubAck id codes ∈ more /\ Forall (fun code => code < 128) codes) c1 n1 c n) failing.
Proof.
  intros Ho. unfold unsubscribe_filter. destruct (is_empty filter); [apply lt_throw; by intros ?? [-> ->]|].
  eapply lt_bind; [by apply lt_opened|]. intros b. apply lt_at. intros c2 n2 (-> & Hop). pose proof Hop as (Ho2 & Hp2 & _).
  eapply lt_weaken; [apply (lt_identified (encode_unsubscribe_packet filter) unsuback_answer _ c2 n2 Ho2 Hp2 unsuback_answers)|done| |done].
  - intros id. apply (encoders_no_panic (MkConnectConfig Mqtt "" 0 "" None None 0 true) "" [] 0 false None filter id "").
  - intros id f. apply unsubscribe_packet_head.
  - intros ? c n (? & ? & id & frame & Hfr & Hx). split_and!; [done..|]. exists id, c2, n2, frame. split_and!; [done..|].
    eapply exchanged_weaken; [|exact Hx]. intros more (p & Hp & Ha). destruct p as [| | | |id' codes| |]; try done.
    cbn in Ha. destruct (Z.eqb_spec id' id) as [->|]; [|done]. exists codes. split; [done|by apply codes_accepted in Ha].
Qed.

(** *** Events *)

Definition event_read (e : MqttEvent) (c1 : C) (n1 : Net) (c : C) (n : Net) : Prop :=
  forall k s ps frames delivered, held k s ps ps frames delivered c1 n1 ->
    exists s' more frames', session k s' (ps ++ more) (frames ++ frames') (delivered ++ [e]) c n.

(** The wait for an event ends: keep-alive is in force or an event is queued. *)
Definition attended (c : C) : Prop := ~ unattended c \/ pending_events c ≠ [].
Definition event_fails (c1 : C) (e : ended) (c : C) (n : Net) : Prop := failing e c n /\ (attended c1 -> e ≠ Hangs).

Lemma answered_event c1 e c n : answered e c n -> event_fails c1 e c n.
Proof. by intros [[x ->] ?]. Qed.

Definition popped (c1 : C) (o : option MqttEvent) (c : C) : Prop :=
  match o with
  | Some e => exists events, pending_events c1 = e :: events /\ c = c1 <| pending_events := events |>
  | None => pending_events c1 = [] /\ c = c1
  end.
Lemma lt_pop c1 n1 R :
  lt (fun c n => c = c1 /\ n = n1) (pop_queued_event connection) (fun o c n => popped c1 o c /\ n = n1) R.
Proof.
  apply lt_mut. intros ?? [-> ->]. unfold mbind, eff_bind. cbn. destruct (pending_events c1) as [|e events] eqn:He; cbn.
  - done.
  - split; [|done]. by exists events.
Qed.

Lemma popped_session k s ps frames delivered e c1 n c :
  session k s ps frames delivered c1 n -> popped c1 (Some e) c -> session k s ps frames (delivered ++ [e]) c n.
Proof.
  intros [[Hd He Hs Ha] Hat] (events & Hev & ->). split; [|exact Hat]. split; [done| |done|done].
  cbn. rewrite <-app_assoc. cbn. by rewrite <-Hev.
Qed.

Definition terminal (c : C) (e : MqttEvent) : Prop :=
  ~ is_publish e /\ (phase c = Failed \/ phase c = Closed).
Lemma lt_terminal c1 n1 R :
  lt (fun c n => c = c1 /\ n = n1) (terminal_connection_event connection)
    (fun o c n => c = c1 /\ n = n1 /\ match o with Some e => terminal c1 e | None => phase c1 ≠ Failed /\ phase c1 ≠ Closed end) R.
Proof.
  apply lt_state. intros c. apply lt_ret. intros ?? [[-> ->] <-]. unfold terminal.
  destruct (phase c1) eqn:Hp; cbn; split_and!; auto; done.
Qed.
Lemma terminal_session k s ps frames delivered e c n c1 :
  session k s ps frames delivered c n -> terminal c1 e -> session k s ps frames (delivered ++ [e]) c n.
Proof.
  intros [[Hd He Hs Ha] Hat] [Hnp _]. split; [|done]. split; [done| |done|done].
  rewrite <-He, <-app_assoc, !filter_app. f_equal. cbn [app]. by rewrite filter_cons_False.
Qed.

Lemma held_session k s ps frames delivered c n :
  held k s ps ps frames delivered c n -> open_or_closed c -> session k s ps frames delivered c n.
Proof. intros [Hh Ha] Hp. split; [done|]. by left. Qed.

Lemma lt_event_loop fuel c1 n1 : ok c1 n1 -> open_or_closed c1 -> (unread c1 n1 < fuel)%nat ->
  lt (fun c n => c = c1 /\ n = n1) (event_loop fuel connection)
    (fun e c n => ok c n /\ event_read e c1 n1 c n) (event_fails c1).
Proof.
  revert c1 n1. induction fuel as [|fuel IH]; intros c1 n1 Ho Hoc Hf; [lia|]. cbn [event_loop].
  eapply lt_bind; [apply lt_pop|]. intros [e|]; apply lt_at; intros c n [Hpop ->].
  { apply lt_ret. intros ?? [-> ->]. split.
    - destruct Hpop as (events & _ & ->). by apply ok_events.
    - intros k s ps frames delivered Hh. exists s, [], []. rewrite !app_nil_r.
      eapply popped_session; [by eapply held_session|done]. }
  destruct Hpop as [Hev ->].
  eapply lt_bind; [eapply lt_weaken; [by apply (lt_read_next c1 n1 Ho)|done|intros ?? ? Hr; exact Hr|]|].
  { intros e c n [Hfail Hh]. split; [done|]. intros [Hatt|Hatt] He; [by apply Hatt, Hh|by rewrite Hev in Hatt]. }
  intros r. apply lt_at. intros c n (k & Hk & Hr). destruct r as [p|].
  - pose proof (packet_read_unread _ _ _ _ _ _ Hk Hr) as (Hu & Hp & Hka & He). pose proof (proj1 Hr) as Hok.
    eapply lt_bind; [eapply lt_weaken; [by apply (lt_handle p c n Hok)|done|intros ?? ? Hh; exact Hh|intros ???; apply answered_event]|].
    intros []. apply lt_at. intros c2 n2 (Ho2 & Hu2 & Hka2 & Hp2 & Hh2).
    assert (Hoc2 : open_or_closed c2) by (unfold open_or_closed in *; intuition congruence).
    eapply lt_weaken; [apply (IH c2 n2); [done|done|lia]|done| |].
    + intros e c3 n3 [Ho3 Hr3]. split; [done|]. intros k0 s ps frames delivered Hh.
      assert (k0 = k) as -> by (destruct Hh as [_ [? _]]; congruence).
      destruct (packet_read_held _ _ _ _ _ _ _ _ _ _ _ Hh Hr) as (s' & j & Hh').
      destruct (Hh2 _ _ _ _ _ _ Hh') as (s2 & f2 & Hh2'). destruct (Hr3 _ _ _ _ _ Hh2') as (s3 & more & f3 & Hs3).
      exists s3, (p :: more), (replicate j PING ++ f2 ++ f3). rewrite <-!app_assoc in Hs3. exact Hs3.
    + intros e c3 n3 [Hfail Hatt]. split; [done|]. intros Ha. apply Hatt. destruct Ha as [Ha|Ha]; [|by rewrite Hev in Ha].
      unfold attended, unattended in *. destruct Hp2 as [Hp2|[_ Hp2]]; [left|by right]. by rewrite Hp2, Hka2, Hp, Hka.
  - eapply lt_bind; [apply lt_terminal|]. intros [e|]; apply lt_at; intros ?? (-> & -> & Ht).
    + apply lt_ret. intros ?? [-> ->]. split; [apply Hr|]. intros k0 s ps frames delivered Hh.
      assert (k0 = k) as -> by (destruct Hh as [_ [? _]]; congruence).
      destruct (session_over_held _ _ _ _ _ _ _ _ _ Hh Hr) as (s' & j & Hs'). exists s', [], (replicate j PING).
      rewrite app_nil_r. by eapply terminal_session.
    + destruct Hr as (_ & _ & got & j & _ & [(? & _)|(? & _)]); naive_solver.
Qed.

(** Reading an event waits for ever only on an open connection without
    keep-alive, or while a new connection is being accepted. *)
Definition read_event_fails (c1 : C) (e : ended) (c : C) (n : Net) : Prop :=
  failing e c n /\ (e = Hangs -> phase c1 = Open -> keep_alive_secs c1 = 0).

Lemma lt_read_event c1 n1 : ok c1 n1 ->
  lt (fun c n => c = c1 /\ n = n1) (read_next_event connection)
    (fun e c n => ok c n /\ forall k s ps frames delivered, session k s ps frames delivered c1 n1 ->
       exists s' more frames', session k s' (ps ++ more) (frames ++ frames') (delivered ++ [e]) c n) (read_event_fails c1).
Proof.
  intros Ho. eapply lt_bind; [apply lt_pop|]. intros [e|]; apply lt_at; intros c n [Hpop ->].
  { apply lt_ret. intros ?? [-> ->]. split.
    - destruct Hpop as (events & _ & ->). by apply ok_events.
    - intros k s ps frames delivered Hh. exists s, [], []. rewrite !app_nil_r. by eapply popped_session. }
  destruct Hpop as [Hev ->].
  eapply lt_bind; [apply lt_terminal|]. intros [e|]; apply lt_at; intros ?? (-> & -> & Ht).
  { apply lt_ret. intros ?? [-> ->]. split; [done|]. intros k s ps frames delivered Hh.
    exists s, [], []. rewrite !app_nil_r. by eapply terminal_session. }
  destruct Ht as [Hnf Hnc].
  eapply lt_bind; [eapply lt_weaken; [by apply lt_open|done|intros ?? ? Hb; exact Hb|]|].
  { by intros e c n [? ?]. }
  intros b. apply lt_at. intros c2 n2 (-> & Ho2 & Hp2 & Hsame & Hnew).
  eapply lt_bind; [eapply lt_weaken; [apply (lt_packets_to_come c2 n2)|done|intros ?? ? Hb; exact Hb|by intros ? ? ? []]|]. intros f. apply lt_fact. intros ->. eapply lt_weaken; [apply (lt_event_loop _ c2 n2); [done|by left|lia]|done| |].
  - intros e c n [Ho3 Hr]. split; [done|]. intros k s ps frames delivered [Hh [[Hoc Hat]|(_ & Hph & _)]]; [|done].
    destruct Hoc as [Hop|]; [|done]. destruct (Hsame Hop) as [-> ->]. by apply (Hr k s).
  - intros e c n [Hfail Hatt]. split; [done|]. intros -> Hop. destruct (Hsame Hop) as [-> ->].
    destruct (decide (keep_alive_secs c1 = 0)) as [|Hk]; [done|]. exfalso. apply Hatt; [|done]. left. by intros [|].
Qed.

(** *** The other calls *)

Lemma lt_disconnect code text : lt ok (connection_disconnect connection code text) (fun _ c n => ok c n) answered.
Proof.
  unfold connection_disconnect. destruct (_ || _); [apply lt_throw; by intros; apply answered_error|].
  apply lt_state. intros c0. apply lt_at. intros ?? [Ho ->].
  eapply lt_bind with (M := fun _ c n => ok c n).
  { destruct (carrier c0); [|apply lt_ret; by intros ?? [-> ->]].
    eapply lt_bind; [apply lt_outcome; [|intros e ?? [-> ->]; by apply answered_error]|].
    - apply (encoders_no_panic (MkConnectConfig Mqtt "" 0 "" None None 0 true) "" [] 0 false None "" code text).
    - intros packet. apply lt_fact. intros _. intros ?? [-> ->].
      destruct (lt_write_packet packet c0 _ Ho c0 _ (conj eq_refl eq_refl)) as (r & c & n & Hr & Hq). unfold attempt. rewrite Hr.
      destruct r as [[]|e]; [exists (Ok (Ok tt)), c, n; split; [done|apply Hq]|].
      destruct Hq as [[x ->] Hok]. by exists (Ok (Err x)), c, n. }
  intros r. eapply lt_bind; [apply lt_close_connection|]. intros [].
  eapply lt_bind; [apply (lt_mut _ _ (fun _ c n => ok c n))|].
  { intros c n Ho'. eapply ok_step; [done|apply step_closed|apply Ho']. }
  intros []. eapply lt_weaken; [apply (lt_or_error ok)|done| |done]; [intros; by apply answered_error|by intros ??? [? _]].
Qed.

Lemma lt_configure f (P : Prop) : (forall c, P -> mqtt_step c (f c)) -> (forall c, pending_read_buffer (f c) = pending_read_buffer c) -> P ->
  lt ok (with_configurable_connection_state_mut connection (modify f)) (fun _ c n => ok c n) answered.
Proof.
  intros Hf Hb HP. apply lt_mut. intros c n Ho. unfold mbind, eff_bind. cbn.
  destruct (phase c); cbn; try (by apply answered_error); (eapply ok_step; [done|by apply Hf|rewrite Hb; apply Ho]).
Qed.
End local.

End MqttSession.
