(* ===== verification/MqttCalls.v ===== *)
(** Properties of the MQTT host calls, on any sequence of them: they keep to
    their connection, end and never panic, hand every message the broker
    publishes to the program once and in order, and acknowledge it; a request
    that succeeds was answered; a broker that stays silent is found out. *)

From S2P Require Import Prelude Bytes Effects TransportState TlsFlow TlsConfig HttpExchange Sockets MqttModel MqttCodec MqttUpstream MqttSession.

Module MqttCalls.
Import MqttModel MqttCodec Sockets MqttUpstream MqttSession.
Import HttpExchange (AuthorityCrate).
Import TlsConfig (TlsCrate).

(** ** Any sequence of calls *)

Inductive request :=
| IsPresent | GetPhase | Connect | ReadEvent
| SetScheme (value : string) | SetTarget (host : string) (port : Z) | SetClientId (value : string)
| SetUsername (value : string) | SetPassword (value : string) | SetKeepAlive (secs : Z) | SetCleanStart (enabled : bool)
| DisconnectCall (reason_code : Z) (reason_text : string)
| PublishCall (topic : string) (payload : list Z) (qos : Z) (retain : bool)
| SubscribeCall (filter : string) (qos : Z) | UnsubscribeCall (filter : string).

Inductive reply := NoValue | Flag (b : bool) | Text (s : string) | Event (e : MqttEvent).

Section calls.
Context `{NW : Network} `{AC : AuthorityCrate} `{TX : Texts}.

Definition serve (connection : Z) (r : request) : call reply :=
  match r with
  | IsPresent => b ← connection_is_present connection; mret (Flag b)
  | GetPhase => s ← connection_get_phase connection; mret (Text s)
  | Connect => b ← ensure_connection_open connection; mret (Flag b)
  | ReadEvent => e ← read_next_event connection; mret (Event e)
  | SetScheme v => _ ← connection_set_scheme connection v; mret NoValue
  | SetTarget h p => _ ← connection_set_target connection h p; mret NoValue
  | SetClientId v => _ ← connection_set_client_id connection v; mret NoValue
  | SetUsername v => _ ← connection_set_username connection v; mret NoValue
  | SetPassword v => _ ← connection_set_password connection v; mret NoValue
  | SetKeepAlive v => _ ← connection_set_keep_alive_secs connection v; mret NoValue
  | SetCleanStart v => _ ← connection_set_clean_start connection v; mret NoValue
  | DisconnectCall c t => _ ← connection_disconnect connection c t; mret NoValue
  | PublishCall t p q r => b ← publish_payload connection t p q r; mret (Flag b)
  | SubscribeCall f q => b ← subscribe_filter connection f q; mret (Flag b)
  | UnsubscribeCall f => b ← unsubscribe_filter connection f; mret (Flag b)
  end.

Context `{NL : !NetworkLaws}.
Context (connection : Z) (w0 : World).

Lemma lt_value {A} (P : C -> Net -> Prop) (m : call A) (f : A -> reply) (Q : reply -> C -> Net -> Prop) R :
  lt connection w0 P m (fun a => Q (f a)) R -> lt connection w0 P (a ← m; mret (f a)) Q R.
Proof. intros Hm. eapply lt_bind; [exact Hm|]. intros a. by apply lt_ret. Qed.

Lemma lt_configured f : (forall c, mqtt_step c (f c)) -> (forall c, pending_read_buffer (f c) = pending_read_buffer c) ->
  lt connection w0 ok (with_configurable_connection_state_mut connection (modify f)) (fun _ c n => ok c n) failing.
Proof.
  intros Hf Hb. eapply lt_weaken; [by apply (lt_configure _ _ f True); auto|done|done|intros ???; apply answered_failing].
Qed.

Lemma lt_serve r : lt connection w0 ok (serve connection r) (fun _ c n => ok c n) failing.
Proof.
  assert (Hcb : forall c, pending_read_buffer (configure c) = pending_read_buffer c) by apply configure_keeps.
  assert (Hcfg : forall m : call unit, lt connection w0 ok m (fun _ c n => ok c n) failing ->
    lt connection w0 ok (_ ← m; mret NoValue) (fun _ c n => ok c n) failing).
  { intros m Hm. apply (lt_value _ m (fun _ => NoValue)). exact Hm. }
  destruct r; cbn [serve].
  - apply (lt_value _ _ Flag). apply lt_state. intros c0. apply lt_ret. by intros ?? [? _].
  - apply (lt_value _ _ Text). apply lt_state. intros c0. apply lt_ret. by intros ?? [? _].
  - apply (lt_value _ _ Flag). apply lt_at. intros c n Ho. eapply lt_weaken; [by apply lt_open|done|by intros ??? (_ & ? & _)|by intros ??? [? _]].
  - apply (lt_value _ _ Event). apply lt_at. intros c n Ho. eapply lt_weaken; [by apply lt_read_event|done|by intros ??? [? _]|by intros ??? [? _]].
  - apply Hcfg. eapply lt_bind; [apply (lt_or_error _ _ ok); by intros|]. intros v. apply lt_fact. intros _. apply lt_configured.
    + intros c. apply step_set_scheme.
    + intros c. unfold set_scheme. cbn. destruct (MqttModel.port _); cbn; apply Hcb.
  - apply Hcfg. eapply lt_bind; [apply (lt_or_error _ _ ok); by intros|]. intros [[a h] p]. apply lt_fact. intros _. apply lt_configured.
    + intros c. apply step_set_target.
    + apply Hcb.
  - apply Hcfg, lt_configured; [intros; apply step_set_client_id|apply Hcb].
  - apply Hcfg, lt_configured; [intros; apply step_set_username|apply Hcb].
  - apply Hcfg, lt_configured; [intros; apply step_set_password|apply Hcb].
  - apply Hcfg. unfold connection_set_keep_alive_secs. destruct (_ || _) eqn:Hs; [by apply lt_throw|].
    apply orb_false_iff in Hs as [Hs1%Z.ltb_ge Hs2%Z.ltb_ge]. apply lt_configured; [|apply Hcb].
    intros c. apply step_set_keep_alive. unfold in_u16, U16_MAX in *. lia.
  - apply Hcfg, lt_configured; [intros; apply step_set_clean_start|apply Hcb].
  - apply Hcfg. eapply lt_weaken; [apply lt_disconnect|done|done|intros ???; apply answered_failing].
  - apply (lt_value _ _ Flag). apply lt_at. intros c n Ho. eapply lt_weaken; [by apply lt_publish|done|by intros ??? [? _]|done].
  - apply (lt_value _ _ Flag). apply lt_at. intros c n Ho. eapply lt_weaken; [by apply lt_subscribe|done|by intros ??? [? _]|done].
  - apply (lt_value _ _ Flag). apply lt_at. intros c n Ho. eapply lt_weaken; [by apply lt_unsubscribe|done|by intros ??? [? _]|done].
Qed.
End calls.

(** ** Worlds *)

(** What a program can do to the MQTT part of its context, and time. *)
Inductive action :=
| NewConnection
| On (connection : Z) (r : request)
| Wait (nanoseconds : Z).

Record world_ok (w : World) : Prop := {
  ok_states h c : state_of h w = Some c -> mqtt_inv c /\ is_u8s c.(pending_read_buffer);
  ok_net : net_ok w.(net);
  ok_next : FIRST_DYNAMIC_MQTT_CONNECTION_HANDLE <= w.(registry).(next_mqtt_connection_handle) <= HttpExchange.I64_MAX;
  ok_handles h : is_Some (w.(registry).(mqtt_connections) !! h) ->
    FIRST_DYNAMIC_MQTT_CONNECTION_HANDLE <= h < w.(registry).(next_mqtt_connection_handle);
}.

Section worlds.
Context `{NW : Network} `{NL : !NetworkLaws} `{AC : AuthorityCrate} `{TX : Texts}.

Definition perform (a : action) : call (option reply) :=
  match a with
  | NewConnection => _ ← allocate_mqtt_connection_handle; mret None
  | On connection r => a ← serve connection r; mret (Some a)
  | Wait t => _ ← modify (fun w => w <| net := w.(net) <| clock := w.(net).(clock) + Z.max 0 t |> |>); mret None
  end.
Fixpoint run (actions : list action) (w : World) : list (result ended (option reply)) * World :=
  match actions with
  | [] => ([], w)
  | a :: actions => let '(r, w) := perform a w in let '(rs, w) := run actions w in (r :: rs, w)
  end.

Lemma decode_missing connection w :
  state_of (handle_of connection) w = None -> exists m, decode_connection connection w = (Err (Error (HostError m)), w).
Proof.
  unfold decode_connection, mqtt_connection_exists, handle_of.
  destruct (connection =? DEFAULT_UPSTREAM_MQTT_CONNECTION_HANDLE); [done|]. cbn. intros Hn.
  unfold mbind, eff_bind. cbn. rewrite Hn, bool_decide_false by (by intros [? ?]). cbn. eauto.
Qed.

(** On a handle that is none, a call is an error and changes nothing. *)
Definition fails_at {A} (m : call A) (w : World) : Prop := exists x, m w = (Err (Error x), w).
Lemma fails_bind {A B} (m : call A) (f : A -> call B) w : fails_at m w -> fails_at (m ≫= f) w.
Proof. intros [x Hm]. exists x. unfold mbind, eff_bind. by rewrite Hm. Qed.
Lemma fails_decode connection w : state_of (handle_of connection) w = None -> fails_at (decode_connection connection) w.
Proof. intros [m Hm]%decode_missing. by eexists. Qed.
Lemma fails_after {A B} (r : vm_result A) (f : A -> call B) w : (forall a, fails_at (f a) w) -> fails_at (or_error r ≫= f) w.
Proof. intros Hf. destruct r as [a|e]; [apply Hf|by exists e]. Qed.
Lemma fails_error {A} m w : fails_at (host_error (A:=A) m) w.
Proof. by eexists. Qed.

Lemma serve_missing connection r w : state_of (handle_of connection) w = None -> fails_at (serve connection r) w.
Proof.
  intros Hn. pose proof (fails_decode connection w Hn) as Hd.
  assert (Hmut : forall T (m : eff VmError C T), fails_at (with_connection_state_mut connection m) w) by (intros; by apply fails_bind).
  assert (Hcfg : forall m : eff VmError C unit, fails_at (with_configurable_connection_state_mut connection m) w) by (intros; apply Hmut).
  assert (Hen : fails_at (ensure_connection_open connection) w) by by apply fails_bind.
  destruct r; apply fails_bind.
  - by apply fails_bind.
  - by apply fails_bind.
  - exact Hen.
  - apply fails_bind, Hmut.
  - apply fails_after. intros v. apply Hcfg.
  - apply fails_after. intros [[? ?] ?]. apply Hcfg.
  - apply Hcfg.
  - apply Hcfg.
  - apply Hcfg.
  - unfold connection_set_keep_alive_secs. destruct (_ || _); [apply fails_error|apply Hcfg].
  - apply Hcfg.
  - unfold connection_disconnect. destruct (_ || _); [apply fails_error|by apply fails_bind].
  - unfold publish_payload. destruct (is_empty _); [apply fails_error|by apply fails_bind].
  - unfold subscribe_filter. destruct (is_empty _); [apply fails_error|by apply fails_bind].
  - unfold unsubscribe_filter. destruct (is_empty _); [apply fails_error|by apply fails_bind].
Qed.

(** What a call may change, and how it may end. *)
Definition well_served (connection : Z) {A} (w : World) (r : result ended A) (w' : World) : Prop :=
  world_ok w' /\ (forall h, h ≠ handle_of connection -> state_of h w' = state_of h w) /\
  match r with Ok _ => True | Err e => fine e end.

Lemma state_of_other h c w h' : h' ≠ h -> state_of h' (set_state h c w) = state_of h' w.
Proof. destruct h, h'; cbn; try done. intros Hne. apply lookup_insert_ne. congruence. Qed.

Lemma world_ok_at connection c w c' n' : world_ok w -> state_of (handle_of connection) w = Some c -> ok c' n' -> world_ok (at_ connection w c' n').
Proof.
  intros [Hs Hn Hx Hh] Hc [Ho Hn']. assert (Hsz : forall h, h ≠ handle_of connection -> state_of h (at_ connection w c' n') = state_of h w).
  { intros h Hne. unfold at_. rewrite state_of_other by done. by destruct h. }
  split.
  - intros h c2 Hc2. destruct (decide (h = handle_of connection)) as [->|Hne].
    + rewrite state_at in Hc2. by injection Hc2 as <-.
    + rewrite Hsz in Hc2 by done. by eapply Hs.
  - by rewrite net_at.
  - unfold at_. destruct (handle_of connection); done.
  - unfold at_. destruct (handle_of connection) as [|k] eqn:Hk; [done|]. cbn. intros h [c2 Hc2].
    apply Hh. destruct (decide (h = k)) as [->|]; [by exists c|]. rewrite lookup_insert_ne in Hc2 by done. by exists c2.
Qed.

Lemma serve_well connection r w : world_ok w -> let '(a, w') := serve connection r w in well_served connection w a w'.
Proof.
  intros Hw. destruct (state_of (handle_of connection) w) as [c|] eqn:Hc.
  - destruct (lt_serve connection w r c w.(net)) as (a & c' & n' & Hr & Hq); [split; [by apply (ok_states w Hw (handle_of connection))|apply Hw]|].
    rewrite <-(at_world connection w w c eq_refl Hc) in Hr. rewrite Hr.
    assert (Hok : ok c' n') by (destruct a; [exact Hq|apply Hq]). split_and!.
    + by eapply world_ok_at.
    + intros h Hne. unfold at_. rewrite state_of_other by done. by destruct h.
    + destruct a; [done|apply Hq].
  - destruct (serve_missing connection r w Hc) as [x ->]. by split_and!.
Qed.
Lemma allocate_well w : world_ok w -> let '(r, w') := perform NewConnection w in world_ok w' /\
  match r with Ok _ | Err (Error _) | Err Hangs => True | Err Panics | Err OutOfFuel => False end.
Proof.
  intros [Hs Hn Hx Hh]. cbn. unfold allocate_mqtt_connection_handle, mbind, eff_bind. cbn.
  destruct (Z.eqb_spec (next_mqtt_connection_handle (registry w)) HttpExchange.I64_MAX); [by split|]. cbn. split; [|done].
  split; cbn; [|done|lia|].
  - intros h c. destruct h as [|h]; [by apply (Hs DefaultUpstream)|]. cbn. rewrite lookup_insert_Some.
    intros [[<- <-]|[_ Hc]]; [by split; [apply mqtt_inv_default|constructor]|by apply (Hs (Dynamic h))].
  - intros h [c Hc]. apply lookup_insert_Some in Hc as [[<- <-]|[_ Hc]]; [lia|].
    assert (is_Some (mqtt_connections (registry w) !! h)) as Hsome by eauto. apply Hh in Hsome. lia.
Qed.

(** C9. Whatever a program does with MQTT connections, one call after the
    other and at any times, every call ends with a value, with an error for the
    program, or waits for a peer that stays silent: none panics, the loops end
    with what the peer sent, and packets are decoded within their bounds.  All
    the while every connection is in a consistent state and handles are fresh. *)
Theorem mqtt_calls_end actions w :
  world_ok w -> let '(results, w') := run actions w in
    world_ok w' /\ Forall (fun r => match r with Ok _ | Err (Error _) | Err Hangs => True | Err Panics | Err OutOfFuel => False end) results.
Proof.
  revert w. induction actions as [|a actions IH]; intros w Hw; [by split|]. cbn [run].
  assert (Ha : let '(r, w') := perform a w in world_ok w' /\
    match r with Ok _ | Err (Error _) | Err Hangs => True | Err Panics | Err OutOfFuel => False end).
  { destruct a as [|connection r|t]; cbn [perform].
    - by apply allocate_well.
    - pose proof (serve_well connection r w Hw) as Hs. unfold mbind, eff_bind.
      destruct (serve connection r w) as [[a|e] w']; destruct Hs as (Hw' & _ & He); [done|]. by destruct e.
    - split; [|done]. by destruct Hw. }
  destruct (perform a w) as [r w1]. destruct Ha as [Hw1 Hr]. specialize (IH w1 Hw1).
  destruct (run actions w1) as [rs w2]. destruct IH as [Hw2 Hrs]. by split; [|constructor].
Qed.

(** A call on one connection leaves every other connection as it is, and a
    call on a handle that was never allocated is an error that changes nothing. *)
Theorem mqtt_call_isolated connection r w h :
  world_ok w -> h ≠ handle_of connection -> state_of h (serve connection r w).2 = state_of h w.
Proof.
  intros Hw Hh. pose proof (serve_well connection r w Hw) as Hs. destruct (serve connection r w) as [a w']. by apply Hs.
Qed.


(** ** Sessions *)

Definition event_in (a : reply) : list MqttEvent := match a with Event e => [e] | _ => [] end.

(** A step of a session: it goes on, and the reply hands over its event. *)
Definition goes_on (a : reply) (c1 : C) (n1 : Net) (c : C) (n : Net) : Prop :=
  forall k s ps frames delivered, session k s ps frames delivered c1 n1 ->
    exists s' more frames', session k s' (ps ++ more) (frames ++ frames') (delivered ++ event_in a) c n.

Lemma goes_on_same a c1 n1 : event_in a = [] -> goes_on a c1 n1 c1 n1.
Proof. intros He k s ps frames delivered Hs. exists s, [], []. by rewrite He, !app_nil_r. Qed.

Lemma session_open k s ps frames delivered c n : phase c = Open -> session k s ps frames delivered c n -> held k s ps ps frames delivered c n.
Proof. intros Hp [Hh [[_ Ha]|(_ & Hf & _)]]; [done|congruence]. Qed.

Lemma requested_goes_on frame_is answer b c1 n1 c n :
  phase c1 = Open -> open_or_closed c -> requested frame_is answer c1 n1 c n -> goes_on (Flag b) c1 n1 c n.
Proof.
  intros Hp Hoc (c2 & n2 & frame & (_ & _ & Hsame & _) & _ & Hx) k s ps frames delivered Hs. destruct (Hsame Hp) as [-> ->].
  destruct (Hx _ _ _ _ _ (session_open _ _ _ _ _ _ _ Hp Hs)) as (s' & more & f' & Hh & _). exists s', more, (frame :: f').
  cbn. rewrite app_nil_r. by apply held_session.
Qed.

Definition may_fail (e : ended) (c : C) (n : Net) : Prop := True.

Lemma lt_refused connection w0 (f : C -> C) a c1 n1 : phase c1 = Open ->
  lt connection w0 (fun c n => c = c1 /\ n = n1) (with_configurable_connection_state_mut connection (modify f))
    (fun _ c n => goes_on a c1 n1 c n) may_fail.
Proof. intros Hp. apply lt_mut. intros ?? [-> ->]. unfold mbind, eff_bind. cbn. by rewrite Hp. Qed.

Lemma lt_serve_session connection w0 r c1 n1 :
  ok c1 n1 -> (r = ReadEvent \/ phase c1 = Open) -> (forall code text, r ≠ DisconnectCall code text) ->
  lt connection w0 (fun c n => c = c1 /\ n = n1) (serve connection r) (fun a c n => goes_on a c1 n1 c n) may_fail.
Proof.
  intros Ho Hp Hd.
  assert (Hcfg : forall m : call unit, (phase c1 = Open -> lt connection w0 (fun c n => c = c1 /\ n = n1) m (fun _ c n => goes_on NoValue c1 n1 c n) may_fail) ->
    r ≠ ReadEvent -> lt connection w0 (fun c n => c = c1 /\ n = n1) (_ ← m; mret NoValue) (fun a c n => goes_on a c1 n1 c n) may_fail).
  { intros m Hm Hr. apply (lt_value connection w0 _ m (fun _ => NoValue)), Hm. by destruct Hp. }
  destruct r; cbn [serve]; try (apply Hcfg; [|done]; intros Hop); try (by apply lt_refused).
  - apply (lt_value _ _ _ _ Flag). apply lt_state. intros c0. apply lt_ret. intros ?? [[-> ->] _]. by apply goes_on_same.
  - apply (lt_value _ _ _ _ Text). apply lt_state. intros c0. apply lt_ret. intros ?? [[-> ->] _]. by apply goes_on_same.
  - apply (lt_value _ _ _ _ Flag). eapply lt_weaken; [by apply lt_open|done| |done].
    intros b c n (_ & _ & _ & Hs & _). destruct Hp as [|Hp]; [done|]. destruct (Hs Hp) as [-> ->]. by apply goes_on_same.
  - apply (lt_value _ _ _ _ Event). eapply lt_weaken; [by apply lt_read_event|done| |done]. intros e c n [_ Hs]. exact Hs.
  - eapply lt_bind; [apply (lt_or_error _ _ (fun c n => c = c1 /\ n = n1)); done|]. intros v. apply lt_fact. intros _. by apply lt_refused.
  - eapply lt_bind; [apply (lt_or_error _ _ (fun c n => c = c1 /\ n = n1)); done|]. intros [[? ?] ?]. apply lt_fact. intros _. by apply lt_refused.
  - unfold connection_set_keep_alive_secs. destruct (_ || _); [by apply lt_throw|by apply lt_refused].
  - by destruct (Hd reason_code reason_text).
  - apply (lt_value _ _ _ _ Flag). eapply lt_weaken; [by apply lt_publish|done| |done].
    intros b c n (_ & Hoc & id & Hr). destruct Hp as [|Hp]; [done|]. by eapply requested_goes_on.
  - apply (lt_value _ _ _ _ Flag). eapply lt_weaken; [by apply lt_subscribe|done| |done].
    intros b c n (_ & Hoc & id & Hr). destruct Hp as [|Hp]; [done|]. by eapply requested_goes_on.
  - apply (lt_value _ _ _ _ Flag). eapply lt_weaken; [by apply lt_unsubscribe|done| |done].
    intros b c n (_ & Hoc & id & Hr). destruct Hp as [|Hp]; [done|]. by eapply requested_goes_on.
Qed.

Lemma serve_session connection r w c a w' :
  world_ok w -> state_of (handle_of connection) w = Some c -> (r = ReadEvent \/ phase c = Open) ->
  (forall code text, r ≠ DisconnectCall code text) -> serve connection r w = (Ok a, w') ->
  exists c', state_of (handle_of connection) w' = Some c' /\ goes_on a c w.(net) c' w'.(net).
Proof.
  intros Hw Hc Hp Hd Ha.
  destruct (lt_serve_session connection w r c w.(net)) with (c := c) (n := w.(net)) as (a' & c' & n' & Hr & Hq);
    [split; [by apply (ok_states w Hw (handle_of connection))|apply Hw]|done|done|done|].
  rewrite <-(at_world connection w w c eq_refl Hc), Ha in Hr. injection Hr as <- ->. exists c'. by rewrite state_at, net_at.
Qed.

(** The program talks on an open connection: it makes calls that succeed, and
    lets time pass.  Reading events is also possible after the connection ended. *)
Inductive talk (connection : Z) : World -> list reply -> World -> Prop :=
| talk_end w : talk connection w [] w
| talk_call r a w w1 rs w2 c :
    state_of (handle_of connection) w = Some c -> r = ReadEvent \/ phase c = Open ->
    (forall code text, r ≠ DisconnectCall code text) -> serve connection r w = (Ok a, w1) ->
    talk connection w1 rs w2 -> talk connection w (a :: rs) w2
| talk_wait t w rs w2 :
    talk connection (w <| net := w.(net) <| clock := w.(net).(clock) + Z.max 0 t |> |>) rs w2 -> talk connection w rs w2.

Lemma session_clock k s ps frames delivered c n t :
  session k s ps frames delivered c n -> session k s ps frames delivered c (n <| clock := t |>).
Proof. intros [Hh [[Hp [Hk Hio]]|Hd]]; (split; [done|]); [left|by right]. split; [done|]. split; [done|by rewrite carrier_ios_clock]. Qed.

Lemma talk_session connection w rs w' : talk connection w rs w' -> world_ok w ->
  forall c k s ps frames delivered, state_of (handle_of connection) w = Some c -> session k s ps frames delivered c w.(net) ->
    exists c' s' more frames', state_of (handle_of connection) w' = Some c' /\
      session k s' (ps ++ more) (frames ++ frames') (delivered ++ (rs ≫= event_in)) c' w'.(net).
Proof.
  induction 1 as [w|r a w w1 rs w2 c0 Hc0 Hp Hd Ha _ IH|t w rs w2 _ IH]; intros Hw c k s ps frames delivered Hc Hs.
  - exists c, s, [], []. by rewrite !app_nil_r.
  - assert (c0 = c) as -> by congruence. destruct (serve_session connection r w c a w1 Hw Hc Hp Hd Ha) as (c1 & Hc1 & Hg).
    destruct (Hg _ _ _ _ _ Hs) as (s1 & m1 & f1 & Hs1).
    pose proof (serve_well connection r w Hw) as Hwell. rewrite Ha in Hwell.
    destruct (IH (proj1 Hwell) _ _ _ _ _ _ Hc1 Hs1) as (c2 & s2 & m2 & f2 & Hc2 & Hs2).
    exists c2, s2, (m1 ++ m2), (f1 ++ f2). cbn. by rewrite <-!app_assoc in Hs2.
  - refine (IH _ c k s ps frames delivered _ _); [by destruct Hw|by destruct (handle_of connection)|by apply session_clock].
Qed.


(** A frame was sent on the connection's stream, and of the packets that were
    read after it some satisfy [answer]. *)
Definition accepted_on (connection : Z) (frame_is : list Z -> Prop) (answer : list MqttIncomingPacket -> Prop) (w' : World) : Prop :=
  exists c k s before after rest frames frame frames', state_of (handle_of connection) w' = Some c /\ attached k s c w'.(net) /\
    decodes s.(received) (before ++ after) rest /\ s.(sent) = concat (frames ++ frame :: frames') /\
    frame_is frame /\ answer after.
Definition talking (connection : Z) (w : World) : Prop := forall c, state_of (handle_of connection) w = Some c -> phase c = Open ->
  exists k s ps frames delivered, session k s ps frames delivered c w.(net).

Lemma requested_accepted connection frame_is answer w c c' n' :
  state_of (handle_of connection) w = Some c -> talking connection w -> requested frame_is answer c w.(net) c' n' ->
  accepted_on connection frame_is answer (at_ connection w c' n').
Proof.
  intros Hc Ht (c2 & n2 & frame & (_ & _ & Hsame & Hnew) & Hf & Hx).
  assert (Hheld : exists k s ps frames delivered, held k s ps ps frames delivered c2 n2).
  { destruct (decide (phase c = Open)) as [Hp|Hp].
    - destruct (Hsame Hp) as [-> ->]. destruct (Ht c Hc Hp) as (k & s & ps & frames & delivered & Hs).
      exists k, s, ps, frames, delivered. by apply session_open.
    - destruct (Hnew Hp) as (k & s & r & frames & _ & Hh). eauto 10. }
  destruct Hheld as (k & s & ps & frames & delivered & Hh). destruct (Hx _ _ _ _ _ Hh) as (s' & more & f' & [[Hd He Hs Ha] Hat] & Hans).
  exists c', k, s', ps, more, (pending_read_buffer c'), frames, frame, f'. rewrite net_at, state_at. by split_and!.
Qed.


(** ** A broker that stays silent *)

Section silence.
Context (connection : Z) (w0 : World).
Let at_c := at_ connection w0.

Lemma mut_run {T} (mutate : eff VmError C T) c n :
  with_connection_state_mut connection mutate (at_c c n) =
  (match (mutate c).1 with Ok a => Ok a | Err e => Err (Error e) end, at_c (mutate c).2 n).
Proof.
  unfold with_connection_state_mut, mbind, eff_bind, at_c. rewrite decode_at. cbn. rewrite state_at.
  destruct (mutate c) as [r c']. cbn. rewrite set_state_at. by destruct r.
Qed.
Lemma on_net_run {A} (m : networking A) c n : on_net m (at_c c n) = ((m n).1, at_c c (m n).2).
Proof. unfold on_net, zoom, at_c. rewrite net_at. destruct (m n). by rewrite set_net_at. Qed.
Lemma now_run {A} (f : Z -> call A) c n : (instant_now ≫= f) (at_c c n) = f (clock n) (at_c c n).
Proof. unfold instant_now, mbind, eff_bind, at_c. cbn. by rewrite net_at. Qed.
Lemma bind_run {A B} (m : call A) (f : A -> call B) w a w' : m w = (Ok a, w') -> (m ≫= f) w = f a w'.
Proof. intros Hm. unfold mbind, eff_bind. by rewrite Hm. Qed.

Lemma wait_run c n : keep_alive_read_wait connection (at_c c n) =
  (Ok ((fun t => MkWait t (ping_response_pending c)) <$> next_keep_alive_wait (clock n) c), at_c c n).
Proof. unfold keep_alive_read_wait. by rewrite now_run, mut_run. Qed.

(** A stream that is silent and takes what is written. *)
Definition quiet (s : Stream) : Prop := s.(incoming) = [] /\ Forall (eq None) s.(outcomes).

Lemma quiet_u8 s : quiet s -> stream_u8 s.
Proof. intros [Hi _]. unfold stream_u8. rewrite Hi. constructor. Qed.

Lemma write_quiet bytes s : quiet s -> exists s', write_all bytes s = (Ok tt, s') /\ quiet s' /\ s'.(sent) = s.(sent) ++ bytes.
Proof.
  intros [Hi Ho]. unfold write_all. destruct (outcomes s) as [|o r] eqn:E; [|apply Forall_cons in Ho as [<- Ho]];
    eexists; (split; [reflexivity|]); by repeat split.
Qed.
Lemma flush_quiet s : quiet s -> exists s', flush s = (Ok tt, s') /\ quiet s' /\ s'.(sent) = s.(sent).
Proof.
  intros [Hi Ho]. unfold flush. destruct (outcomes s) as [|o r] eqn:E; [|apply Forall_cons in Ho as [<- Ho]];
    eexists; (split; [reflexivity|]); by repeat split.
Qed.

Definition on_quiet (k : MqttCarrierAttachment) (s : Stream) (c : C) (n : Net) : Prop :=
  carrier c = Some k /\ carrier_ios k n = Some (Some s) /\ quiet s.

Lemma write_run k s bytes n : carrier_ios k n = Some (Some s) -> quiet s ->
  exists s', write_carrier_bytes k bytes n = (Ok tt, set_carrier_io k (Some s') n) /\ quiet s' /\ s'.(sent) = s.(sent) ++ bytes.
Proof.
  intros Hio Hq. destruct (write_quiet bytes s Hq) as (s1 & Hw & Hq1 & Hs1). destruct (flush_quiet s1 Hq1) as (s2 & Hf & Hq2 & Hs2).
  exists s2. split; [|split; [done|congruence]].
  unfold write_carrier_bytes, carrier_stream, mbind, eff_bind. cbn [get_state]. rewrite Hio. cbn [mret eff_ret]. rewrite Hw.
  cbn [modify or_host_error mret eff_ret]. rewrite Hf. cbn [modify or_host_error mret eff_ret]. by rewrite set_carrier_io_twice.
Qed.

Lemma ping_run k s c n : on_quiet k s c n ->
  exists s' n', write_connection_ping_request connection (at_c c n) = (Ok tt, at_c (note_ping_request_sent n.(clock) c) n') /\
    carrier_ios k n' = Some (Some s') /\ quiet s' /\ s'.(sent) = s.(sent) ++ PING /\ n'.(clock) = n.(clock) /\
    (net_ok n -> net_ok n').
Proof.
  intros (Hk & Hio & Hq). destruct (write_run k s PING n Hio Hq) as (s' & Hw & Hq' & Hs').
  exists s', (set_carrier_io k (Some s') n). split;
    [|rewrite set_carrier_io_same; split_and!; [done|done|done|by destruct k|intros; apply net_ok_set; [done|by apply quiet_u8]]].
  unfold write_connection_ping_request, active_connection_carrier.
  erewrite bind_run; [|rewrite mut_run; unfold mbind, eff_bind; cbn; rewrite Hk; reflexivity].
  rewrite (bind_run _ _ _ PING (at_c c n)) by reflexivity.
  erewrite bind_run; [|rewrite on_net_run, Hw; reflexivity].
  unfold note_connection_ping_request. rewrite now_run, mut_run. by destruct k.
Qed.

Lemma read_silent_run k s d n : carrier_ios k n = Some (Some s) -> quiet s ->
  read_carrier_chunk k 4096 (Some d) n = (Ok TimedOut, set_carrier_io k (Some s) n <| clock := clock n + d |>).
Proof.
  intros Hio [Hi _]. unfold read_carrier_chunk, carrier_stream, mbind, eff_bind. cbn [get_state]. rewrite Hio. cbn [mret eff_ret].
  unfold read. by rewrite Hi.
Qed.

Lemma expired_run k s c n buffer : net_ok n -> on_quiet k s c n ->
  exists c' n', keep_alive_expired connection buffer (at_c c n) = (Ok None, at_c c' n') /\
    phase c' = Failed /\ failure_message c' = Some KEEP_ALIVE_EXPIRED /\ pending_events c' = pending_events c /\
    carrier c' = None /\ last n'.(dropped) = Some s /\ n'.(clock) = n.(clock).
Proof.
  intros Hn (Hk & Hio & _). destruct (close_carrier_spec k (Some KEEP_ALIVE_EXPIRED) n Hn) as (n' & Hcl & _ & [_ Ht] & Hd).
  set (c1 := mark_failed KEEP_ALIVE_EXPIRED (c <| pending_read_buffer := buffer |>)).
  exists (c1 <| carrier := None |>), n'. split; [|rewrite Hd, Hio, last_snoc; by split_and!].
  unfold keep_alive_expired. rewrite (bind_run _ _ _ tt (at_c c1 n)) by by rewrite mut_run.
  rewrite (bind_run _ _ _ tt (at_c (c1 <| carrier := None |>) n')); [done|].
  unfold close_connection_carrier, take_connection_carrier.
  rewrite (bind_run _ _ _ (Some k) (at_c (c1 <| carrier := None |>) n)); [by rewrite on_net_run, Hcl|].
  rewrite mut_run. unfold mbind, eff_bind. cbn. by rewrite Hk.
Qed.

(** One round of the reading loop without a word from the peer: the time to
    wait passes. *)
Lemma silent_round f k s c n buffer d :
  on_quiet k s c n -> decode_packet buffer = Ok None -> next_keep_alive_wait (clock n) c = Some d -> 0 <= d -> net_ok n ->
  exists n', on_quiet k s c n' /\ n'.(clock) = n.(clock) + d /\ net_ok n' /\
    read_packet_loop (S f) connection k buffer (at_c c n) =
    (if ping_response_pending c then keep_alive_expired connection buffer
     else _ ← write_connection_ping_request connection; read_packet_loop f connection k buffer) (at_c c n').
Proof.
  intros Hq Hd Hw Hd0 Hn. pose proof Hq as (Hk & Hio & Hqs).
  cbn [read_packet_loop]. rewrite Hd. cbn [of_outcome].
  destruct (Z.eqb_spec d 0) as [->|Hne].
  - exists n. split_and!; [done|lia|done|]. rewrite (bind_run _ _ _ None (at_c c n)) by done. cbn iota.
    erewrite bind_run; [|rewrite wait_run, Hw; reflexivity]. cbn. by destruct (ping_response_pending c).
  - exists (set_carrier_io k (Some s) n <| clock := clock n + d |>). split_and!.
    + split_and!; [done|by rewrite carrier_ios_clock, set_carrier_io_same|done].
    + done.
    + apply net_ok_clock, net_ok_set; [done|by apply quiet_u8].
    + rewrite (bind_run _ _ _ None (at_c c n)) by done. cbn iota.
      erewrite bind_run; [|rewrite wait_run, Hw; reflexivity]. cbn [fmap option_fmap option_map timeout]. rewrite (proj2 (Z.eqb_neq d 0)) by done.
      erewrite bind_run; [|rewrite wait_run, Hw; reflexivity]. cbn [fmap option_fmap option_map timeout].
      erewrite bind_run; [|rewrite on_net_run, (read_silent_run _ _ _ _ Hio Hqs); reflexivity]. cbn. by destruct (ping_response_pending c).
Qed.

Lemma silent_loop k s c n buffer t :
  on_quiet k s c n -> decode_packet buffer = Ok None -> net_ok n -> phase c = Open -> 0 < keep_alive_secs c ->
  last_activity_at c = Some t -> t <= clock n ->
  exists c' n' s', read_packet_loop 2 connection k buffer (at_c c n) = (Ok None, at_c c' n') /\
    phase c' = Failed /\ failure_message c' = Some KEEP_ALIVE_EXPIRED /\ pending_events c' = pending_events c /\
    carrier c' = None /\ last n'.(dropped) = Some s' /\
    s'.(sent) = s.(sent) ++ (if ping_response_pending c then [] else PING) /\
    n'.(clock) = Z.max (clock n) (t + keep_alive_secs c * nanos_per_sec)
      + (if ping_response_pending c then 0 else keep_alive_secs c * nanos_per_sec).
Proof.
  intros Hq Hd Hn Hp Hka Ht Hle. unfold nanos_per_sec in *.
  assert (Hw : next_keep_alive_wait (clock n) c = Some (Z.max 0 (keep_alive_secs c * 1000000000 - (clock n - t)))).
  { unfold next_keep_alive_wait. rewrite bool_decide_true, (proj2 (Z.eqb_neq _ 0)), Ht by (done || lia). cbn. do 2 f_equal. unfold nanos_per_sec. lia. }
  destruct (silent_round 1 k s c n buffer _ Hq Hd Hw ltac:(lia) Hn) as (n1 & Hq1 & Hc1 & Hn1 & ->).
  destruct (ping_response_pending c) eqn:Hping.
  - destruct (expired_run k s c n1 buffer Hn1 Hq1) as (c' & n' & Hr & ? & ? & ? & ? & ? & Hcl). exists c', n', s.
    rewrite app_nil_r. split_and!; (done || lia).
  - destruct (ping_run k s c n1 Hq1) as (s2 & n2 & Hr2 & Hio2 & Hqs2 & Hs2 & Hc2 & Hn2). specialize (Hn2 Hn1).
    rewrite (bind_run _ _ _ _ _ Hr2).
    set (c2 := note_ping_request_sent (clock n1) c) in *.
    assert (Hq2 : on_quiet k s2 c2 n2) by (split_and!; [apply Hq1|done|done]).
    assert (Hw2 : next_keep_alive_wait (clock n2) c2 = Some (keep_alive_secs c * 1000000000)).
    { unfold next_keep_alive_wait. cbn. rewrite bool_decide_true, (proj2 (Z.eqb_neq _ 0)) by (done || lia). cbn. do 2 f_equal. unfold nanos_per_sec. lia. }
    destruct (silent_round 0 k s2 c2 n2 buffer _ Hq2 Hd Hw2 ltac:(lia) Hn2) as (n3 & Hq3 & Hc3 & Hn3 & ->).
    destruct (expired_run k s2 c2 n3 buffer Hn3 Hq3) as (c' & n' & Hr & ? & ? & ? & ? & ? & Hcl). exists c', n', s2.
    split_and!; (done || lia).
Qed.

Lemma view_run {A} (f : C -> call A) c n :
  (h ← decode_connection connection; state ← connection_state h; f state) (at_c c n) = f c (at_c c n).
Proof. unfold connection_state, mbind, eff_bind, at_c. rewrite decode_at. cbn. by rewrite state_at. Qed.
Lemma pop_run c n : pending_events c = [] -> pop_queued_event connection (at_c c n) = (Ok None, at_c c n).
Proof. intros He. unfold pop_queued_event. rewrite mut_run. unfold mbind, eff_bind. cbn. by rewrite He. Qed.
Lemma read_next_run k c n : carrier c = Some k -> carrier_to_come k n = 0%nat ->
  read_next_packet connection (at_c c n) =
  read_packet_loop 2 connection k c.(pending_read_buffer) (at_c (c <| pending_read_buffer := [] |>) n).
Proof.
  intros Hk Hc. unfold read_next_packet, take_read_buffer.
  rewrite (bind_run _ _ _ (k, pending_read_buffer c) (at_c (c <| pending_read_buffer := [] |>) n)).
  - unfold mbind, eff_bind, at_c. cbn. by rewrite net_at, Hc.
  - rewrite mut_run. unfold mbind, eff_bind. cbn. by rewrite Hk.
Qed.

Lemma read_event_run c n c' n' m :
  pending_events c = [] -> phase c = Open -> read_next_packet connection (at_c c n) = (Ok None, at_c c' n') ->
  phase c' = Failed -> failure_message c' = Some m -> read_next_event connection (at_c c n) = (Ok (EvFailed m), at_c c' n').
Proof.
  intros He Hp Hr Hp' Hm. unfold read_next_event. rewrite (bind_run _ _ _ _ _ (pop_run c n He)). cbn iota.
  rewrite (bind_run _ _ _ None (at_c c n)) by (unfold terminal_connection_event; rewrite view_run, Hp; done).
  rewrite (bind_run _ _ _ true (at_c c n)) by (unfold ensure_connection_open; rewrite view_run, Hp; done).
  erewrite bind_run; [|unfold packets_to_come; rewrite view_run; unfold mbind, eff_bind; cbn; reflexivity].
  rewrite Nat.add_comm. cbn [Nat.add event_loop].
  rewrite (bind_run _ _ _ _ _ (pop_run c n He)). cbn iota. rewrite (bind_run _ _ _ _ _ Hr).
  rewrite (bind_run _ _ _ (Some (EvFailed m)) (at_c c' n')); [done|].
  unfold terminal_connection_event. by rewrite view_run, Hp', Hm.
Qed.
End silence.

(** C25. A broker that says nothing more is found out while the program waits
    for an event on an open connection with keep-alive: one ping is sent when
    the interval since the last activity ends, unless one is unanswered already,
    and when a further interval has passed the program is told that the
    connection failed and its stream has been dropped. *)
Theorem mqtt_silent_broker_found_out connection w c k s t :
  world_ok w -> state_of (handle_of connection) w = Some c ->
  phase c = Open -> 0 < keep_alive_secs c -> pending_events c = [] -> decode_packet c.(pending_read_buffer) = Ok None ->
  last_activity_at c = Some t -> t <= w.(net).(clock) ->
  carrier c = Some k -> carrier_ios k w.(net) = Some (Some s) -> quiet s ->
  let interval := keep_alive_secs c * nanos_per_sec in
  exists w' c' s', serve connection ReadEvent w = (Ok (Event (EvFailed KEEP_ALIVE_EXPIRED)), w') /\
    state_of (handle_of connection) w' = Some c' /\ phase c' = Failed /\ carrier c' = None /\ last w'.(net).(dropped) = Some s' /\
    s'.(sent) = s.(sent) ++ (if ping_response_pending c then [] else PING) /\
    w'.(net).(clock) = Z.max w.(net).(clock) (t + interval) + (if ping_response_pending c then 0 else interval).
Proof.
  intros Hw Hc Hp Hka He Hd Ht Hle Hk Hio Hq interval. pose proof (at_world connection w w c eq_refl Hc) as Hat.
  destruct (silent_loop connection w k s (c <| pending_read_buffer := [] |>) w.(net) c.(pending_read_buffer) t)
    as (c' & n' & s' & Hr & Hp' & Hm & _ & Hk' & Hd' & Hs' & Hcl); try done; [apply Hw|].
  exists (at_ connection w c' n'), c', s'. rewrite state_at, net_at. split_and!; try done.
  rewrite Hat at 1. cbn [serve].
  rewrite (bind_run _ _ _ (EvFailed KEEP_ALIVE_EXPIRED) (at_ connection w c' n')); [done|].
  apply read_event_run; [done|done| |done|done].
  rewrite (read_next_run connection w k c w.(net) Hk); [done|]. unfold carrier_to_come. rewrite Hio. destruct Hq as [Hi _].
  unfold to_come. by rewrite Hi.
Qed.
End worlds.

(** ** Examples *)

#[local] Existing Instance TlsConfig.text_pems.

(** The n-th connection that is made sees the n-th script; opening one makes
    four calls of the outside. *)
Definition scripted (scripts : list (list (Z * arrival))) : Network := {|
  SocketAddr := string; ServerName := string; is_ipv4 := fun _ => true; addr_str := id; parse_addr := Ok;
  lookup_host := fun _ a => Ok [a]; new_socket := fun _ _ => Ok tt; bind := fun _ _ => Ok tt;
  connect := fun k a => match scripts !! (k / 4)%nat with
    | Some incoming => Ok (MkStream incoming [] [] [], Ok "here", Ok a) | None => Err "refused" end;
  server_name := Ok; tls_connect := fun _ _ _ _ => Err "no tls"; new_uuid := fun _ => "uuid";
|}.
Lemma scripted_laws scripts : Forall (Forall arrival_u8) scripts -> @NetworkLaws _ (scripted scripts).
Proof.
  intros Hu. split.
  - cbn -[Nat.div]. intros i a s local peer. destruct (scripts !! (i / 4)%nat) as [inc|] eqn:E; [|done]. intros [= <- _ _].
    split; [|done]. unfold stream_u8. cbn [incoming]. by eapply (Forall_lookup_1 _ _ _ _ Hu E).
  - done.
Qed.

#[local] Instance any_authority : AuthorityCrate := {|
  HttpExchange.Authority := string; HttpExchange.parse_authority := Some; HttpExchange.authority_str := id;
  HttpExchange.authority_host := fun _ => "broker"; HttpExchange.port_u16 := fun _ => None;
|}.
#[local] Instance plain_texts : Texts := {|
  debug_packet := fun _ => "packet"; error_display := fun e => match e with HostError m => m | TypeMismatch m => m end;
|}.

Definition no_net : Net := MkNet Handles.FIRST_DYNAMIC_TCP_STREAM_HANDLE ∅ ∅ ∅ ∅ 0 0 [].
Definition start : World := MkWorld default_registry no_net.
Lemma start_ok : world_ok start.
Proof.
  split; [|done|done|by intros h [? [=]]]. intros [|h] c; cbn; [intros [= <-]; by split; [apply mqtt_inv_default|constructor]|done].
Qed.
Definition default_connection : Z := DEFAULT_UPSTREAM_MQTT_CONNECTION_HANDLE.

(** The calls in order on the default connection. *)
Definition calls (scripts : list (list (Z * arrival))) (rs : list request) : list (result ended (option reply)) * World :=
  run (NW := scripted scripts) (On default_connection <$> rs) start.

Definition CONNACK : arrival := Data 32 [3; 0; 0; 0].
Definition broker_talks : list (Z * arrival) :=
  [(0, CONNACK); (5, Data 50 [7; 0; 1; 116]); (6, Data 0 [5; 0; 120; 64; 2; 0; 1]); (9, Data 48 [5; 0; 1; 116; 0; 121])].

Definition configured (scripts : list (list (Z * arrival))) : World := (calls scripts [SetTarget "broker" 1883]).2.

Example talks_in_order :
  (calls [broker_talks] [SetTarget "broker" 1883; Connect; PublishCall "u" [1] 1 false; ReadEvent; ReadEvent; GetPhase]).1 =
  [Ok (Some NoValue); Ok (Some (Flag true)); Ok (Some (Flag true)); Ok (Some (Event (EvPublish "t" [120] 1 false false)));
   Ok (Some (Event (EvPublish "t" [121] 0 false false))); Ok (Some (Text "open"))].
Proof. vm_compute. reflexivity. Qed.

(** Findings. *)

Definition target : request := SetTarget "broker" 1883.
Definition publish (topic : list Z) (payload : Z) : list Z := [48; 5; 0; 1] ++ topic ++ [0; payload].
Definition sends (l : list Z) : arrival := match l with b :: l => Data b l | [] => Eof end.
Definition secs (n : Z) : Z := n * nanos_per_sec.

(** A packet the decoder refuses is an error of the call that met it, but the
    connection stays open, and what was read with it is gone: the message "y" is
    never handed over, though the one after it is. *)
Theorem refused_packet_loses_others :
  (calls [[(0, CONNACK); (1, sends ([52; 7; 0; 1; 116; 0; 5; 0; 120] ++ publish [116] 121)); (2, sends (publish [116] 122))]]
     [target; Connect; ReadEvent; GetPhase; ReadEvent]).1 =
  [Ok (Some NoValue); Ok (Some (Flag true)); Err (Error (HostError "mqtt qos 2 is not supported in this milestone"));
   Ok (Some (Text "open")); Ok (Some (Event (EvPublish "t" [122] 0 false false)))].
Proof. vm_compute. reflexivity. Qed.

(** Messages that are queued when the broker disconnects are dropped by the
    next request, which opens a new connection: "x" is never handed over. *)
Theorem reopening_drops_messages :
  (calls [[(0, CONNACK); (1, sends (publish [116] 120 ++ [224; 0] ++ [64; 2; 0; 1]))]; [(2, CONNACK); (3, sends (publish [116] 121))]]
     [target; Connect; PublishCall "u" [1] 1 false; GetPhase; PublishCall "u" [2] 0 false; ReadEvent]).1 =
  [Ok (Some NoValue); Ok (Some (Flag true)); Ok (Some (Flag true)); Ok (Some (Text "closed")); Ok (Some (Flag true));
   Ok (Some (Event (EvPublish "t" [121] 0 false false)))].
Proof. vm_compute. reflexivity. Qed.

(** A program that only receives sends no ping while messages keep coming: with
    a keep-alive of 10 seconds nothing but CONNECT was sent in 27 seconds. *)
Theorem receiving_sends_no_ping :
  let '(results, w) := calls [[(0, CONNACK); (secs 9, sends (publish [116] 120)); (secs 18, sends (publish [116] 121));
      (secs 27, sends (publish [116] 122))]] [target; SetKeepAlive 10; Connect; ReadEvent; ReadEvent; ReadEvent] in
  w.(net).(clock) = secs 27 /\
  match w.(net).(tcp_stream_ios) !! Handles.FIRST_DYNAMIC_TCP_STREAM_HANDLE with Some (Some s) => Ok s.(sent) | _ => fail "" end
  = encode_connect_packet (MkConnectConfig Mqtt "broker" 1883 "pd-edge-uuid" None None 10 true).
Proof. vm_compute. split; reflexivity. Qed.

(** A broker that accepts the TCP connection and says nothing is waited for
    without a limit; so is one that disconnects the client while a publish waits
    for its acknowledgement and keeps the TCP connection. *)
Theorem waits_without_limit :
  (calls [[]] [target; Connect]).1 = [Ok (Some NoValue); Err Hangs] /\
  (calls [[(0, CONNACK); (1, sends [224; 0])]] [target; Connect; PublishCall "u" [1] 1 false]).1
  = [Ok (Some NoValue); Ok (Some (Flag true)); Err Hangs].
Proof. vm_compute. split; reflexivity. Qed.

(** ** Witnesses *)

Lemma u8_check (l : list Z) : forallb (fun b => (0 <=? b) && (b <? 256)) l = true -> is_u8s l.
Proof.
  intros Hf. apply Forall_forall. intros b Hb. rewrite forallb_forall in Hf. specialize (Hf b). rewrite <-list_elem_of_In in Hf.
  specialize (Hf Hb). apply andb_true_iff in Hf as [?%Z.leb_le ?%Z.ltb_lt]. done.
Qed.

Definition silent_laws : @NetworkLaws _ (scripted [[]]) := scripted_laws [[]] ltac:(repeat constructor).
Lemma talks_laws : @NetworkLaws _ (scripted [broker_talks]).
Proof.
  apply scripted_laws. constructor; [|constructor]. repeat (apply Forall_cons; split; [by apply u8_check|]). constructor.
Qed.

Lemma mqtt_calls_end_witness :
  let '(results, w') := run (NW := scripted [[]]) (On default_connection <$> [target; Connect]) start in
  world_ok w' /\ Forall (fun r => match r with Ok _ | Err (Error _) | Err Hangs => True | Err Panics | Err OutOfFuel => False end) results.
Proof.
  pose proof (mqtt_calls_end (NL := silent_laws) (On default_connection <$> [target; Connect]) start start_ok) as Hend.
  exact Hend.
Defined.

Lemma mqtt_call_isolated_witness :
  state_of (Dynamic 5) (serve (NW := scripted [[]]) default_connection target start).2 = state_of (Dynamic 5) start.
Proof. by apply (mqtt_call_isolated (NL := silent_laws) default_connection target start (Dynamic 5) start_ok). Defined.

Section talk_example.
#[local] Instance talks : Network := scripted [broker_talks].
#[local] Existing Instance talks_laws.

(** The worlds of [talks_in_order]. *)
Definition next (r : request) (w : World) : World := (serve default_connection r w).2.
Definition talk0 : World := next target start.
Definition talk1 : World := next Connect talk0.
Definition published_call : request := PublishCall "u" [1] 1 false.
Definition talk2 : World := next published_call talk1.
Definition talk3 : World := next ReadEvent talk2.
Definition talk4 : World := next ReadEvent talk3.

Lemma next_ok r w : world_ok w -> world_ok (next r w).
Proof. intros Hw. pose proof (serve_well default_connection r w Hw) as H. unfold next. by destruct (serve default_connection r w); apply H. Qed.
Lemma next_run r w w' a : w' = next r w -> (serve default_connection r w).1 = Ok a -> serve default_connection r w = (Ok a, w').
Proof. intros ->. unfold next. destruct (serve default_connection r w). by intros [= ->]. Qed.
Definition state_in (w : World) : MqttConnectionState := w.(registry).(default_upstream_mqtt).
Lemma state_in_eq w : state_of (handle_of default_connection) w = Some (state_in w).
Proof. done. Qed.

Lemma talk_example : talk default_connection talk1
  [Flag true; Event (EvPublish "t" [120] 1 false false); Event (EvPublish "t" [121] 0 false false)] talk4.
Proof.
  assert (H1 : (serve default_connection published_call talk1).1 = Ok (Flag true)) by (vm_compute; reflexivity).
  assert (H2 : (serve default_connection ReadEvent talk2).1 = Ok (Event (EvPublish "t" [120] 1 false false))) by (vm_compute; reflexivity).
  assert (H3 : (serve default_connection ReadEvent talk3).1 = Ok (Event (EvPublish "t" [121] 0 false false))) by (vm_compute; reflexivity).
  assert (Hp : phase (state_in talk1) = Open) by (vm_compute; reflexivity).
  apply (next_run _ _ talk2) in H1; [|unfold talk2; reflexivity]. apply (next_run _ _ talk3) in H2; [|unfold talk3; reflexivity].
  apply (next_run _ _ talk4) in H3; [|unfold talk4; reflexivity].
  apply (talk_call _ published_call _ _ talk2 _ _ _ (state_in_eq talk1)); [by right|done|exact H1|].
  apply (talk_call _ ReadEvent _ _ talk3 _ _ _ (state_in_eq talk2)); [by left|done|exact H2|].
  apply (talk_call _ ReadEvent _ _ talk4 _ _ _ (state_in_eq talk3)); [by left|done|exact H3|apply talk_end].
Qed.


Definition talk5 : World := next published_call talk0.

End talk_example.

Section silence_example.
#[local] Instance accepts : Network := scripted [[(0, CONNACK)]].
Lemma accepts_laws : @NetworkLaws _ (scripted [[(0, CONNACK)]]).
Proof.
  apply scripted_laws. constructor; [|constructor]. repeat (apply Forall_cons; split; [by apply u8_check|]). constructor.
Qed.
#[local] Existing Instance accepts_laws.

Definition after_serve (r : request) (w : World) : World := (serve default_connection r w).2.
Definition silent_world : World := after_serve Connect (after_serve (SetKeepAlive 10) (after_serve target start)).
Definition silent_stream : Stream :=
  match silent_world.(net).(tcp_stream_ios) !! Handles.FIRST_DYNAMIC_TCP_STREAM_HANDLE with Some (Some s) => s | _ => MkStream [] [] [] [] end.

Lemma mqtt_silent_broker_found_out_witness : exists w',
  serve default_connection ReadEvent silent_world = (Ok (Event (EvFailed KEEP_ALIVE_EXPIRED)), w') /\ w'.(net).(clock) = secs 20.
Proof.
  assert (Hw : world_ok silent_world).
  { assert (Hs : forall r w, world_ok w -> world_ok (after_serve r w)).
    { intros r w Hw. pose proof (serve_well default_connection r w Hw) as H. unfold after_serve. by destruct (serve default_connection r w); apply H. }
    apply Hs, Hs, Hs, start_ok. }
  set (c := state_in silent_world).
  assert (Hc : phase c = Open /\ keep_alive_secs c = 10 /\ pending_events c = [] /\ pending_read_buffer c = [] /\
    last_activity_at c = Some 0 /\ clock (net silent_world) = 0 /\ carrier c = Some (Tcp Handles.FIRST_DYNAMIC_TCP_STREAM_HANDLE) /\
    ping_response_pending c = false) by (vm_compute; repeat split; reflexivity).
  assert (Hs : carrier_ios (Tcp Handles.FIRST_DYNAMIC_TCP_STREAM_HANDLE) silent_world.(net) = Some (Some silent_stream)) by (vm_compute; reflexivity).
  assert (Hq : incoming silent_stream = [] /\ outcomes silent_stream = []) by (vm_compute; split; reflexivity).
  pose proof (state_in_eq silent_world) as Hst. fold c in Hst.
  destruct Hc as (Hp & Hk & He & Hb & Hl & Ht & Hcar & Hping). destruct Hq as [Hi Ho].
  assert (Hqs : quiet silent_stream) by (split; [exact Hi|rewrite Ho; constructor]).
  assert (Hka : 0 < keep_alive_secs c) by (rewrite Hk; reflexivity).
  assert (Hd : decode_packet (pending_read_buffer c) = Ok None) by (rewrite Hb; reflexivity).
  assert (Hle : 0 <= clock (net silent_world)) by (rewrite Ht; reflexivity).
  destruct (mqtt_silent_broker_found_out default_connection silent_world c _ silent_stream 0 Hw Hst Hp Hka He Hd Hl Hle Hcar Hs Hqs)
    as (w' & c' & s' & Hr & _ & _ & _ & _ & _ & Hcl).
  exists w'. split; [exact Hr|]. rewrite Hcl, Ht, Hk, Hping. reflexivity.
Defined.
End silence_example.

End MqttCalls.
