(* ===== verification/UdpSockets.v ===== *)
(** Model of [src/abi_impl/transport/udp.rs]: the host calls on UDP sockets.  A
    socket is connected by the first call that needs it; what the network does
    is a parameter, and the state has logs of the datagrams that were sent and
    taken, which the theorems speak of. *)

From S2P Require Import Prelude Bytes Effects TransportState HttpExchange TlsConfig Sockets.

Module UdpSockets.
Import Handles Sockets.
Import UdpSocket (UdpSocketState).
Import HttpExchange (AuthorityCrate).
Import TlsConfig (TlsCrate).

Definition DEFAULT_UPSTREAM_UDP_SOCKET_HANDLE : Z := 1.
Definition FIRST_DYNAMIC_UDP_SOCKET_HANDLE : Z := 2.

(** A connected socket of the operating system: the peer it is connected to,
    what still arrives on it, datagram by datagram, and how its sends end. *)
Record Datagrams := MkDatagrams {
  connection : nat;  (** the call of the network that connected it *)
  remote : string;
  arriving : list (result string (list Z));
  send_ends : list (option string);
}.
#[export] Instance eta_datagrams : Eta Datagrams := fun d =>
  MkDatagrams d.(connection) d.(remote) d.(arriving) d.(send_ends).

(** Binding, connecting (with what will arrive, and how sends end) and asking
    for the local address; the resolver is that of [Network]. *)
Class UdpNetwork `{Network} := {
  udp_bind : nat -> string -> result string unit;
  udp_connect : nat -> SocketAddr -> result string (list (result string (list Z)) * list (option string));
  udp_local_addr : nat -> result string SocketAddr;
}.

(** The UDP part of [TransportState] in [http/state.rs]. *)
Record Udp := MkUdp {
  default_upstream_udp_socket : UdpSocketState;
  default_upstream_udp_io : option Datagrams;
  next_udp_socket_handle : Z;
  udp_sockets : gmap Z UdpSocketState;
  udp_socket_ios : gmap Z Datagrams;
  outside_calls : nat;
  wire : list (string * list Z);                 (** the datagrams sent, with their destination *)
  heard : list (nat * result string (list Z));   (** what was taken, whole, with its connection *)
}.
#[export] Instance eta_udp : Eta Udp := fun u =>
  MkUdp u.(default_upstream_udp_socket) u.(default_upstream_udp_io) u.(next_udp_socket_handle)
    u.(udp_sockets) u.(udp_socket_ios) u.(outside_calls) u.(wire) u.(heard).

Definition initial : Udp :=
  MkUdp UdpSocket.default_socket None FIRST_DYNAMIC_UDP_SOCKET_HANDLE ∅ ∅ 0 [] [].

Inductive UdpSocketHandle := Downstream | DefaultUpstream | Dynamic (handle : Z).
#[export] Instance UdpSocketHandle_eq_dec : EqDecision UdpSocketHandle.
Proof. solve_decision. Defined.

Definition calling (A : Type) : Type := eff ended Udp A.

(** ** The tables *)

Definition state_of (h : UdpSocketHandle) (w : Udp) : option UdpSocketState :=
  match h with
  | Downstream => Some UdpSocket.default_socket
  | DefaultUpstream => Some w.(default_upstream_udp_socket)
  | Dynamic h => w.(udp_sockets) !! h
  end.
Definition io_of (h : UdpSocketHandle) (w : Udp) : option Datagrams :=
  match h with
  | Downstream => None
  | DefaultUpstream => w.(default_upstream_udp_io)
  | Dynamic h => w.(udp_socket_ios) !! h
  end.
Definition set_state (h : UdpSocketHandle) (s : UdpSocketState) (w : Udp) : Udp :=
  match h with
  | Downstream => w
  | DefaultUpstream => w <| default_upstream_udp_socket := s |>
  | Dynamic h => w <| udp_sockets := <[h := s]> w.(udp_sockets) |>
  end.
Definition set_io (h : UdpSocketHandle) (io : option Datagrams) (w : Udp) : Udp :=
  match h with
  | Downstream => w
  | DefaultUpstream => w <| default_upstream_udp_io := io |>
  | Dynamic h => w <| udp_socket_ios := partial_alter (fun _ => io) h w.(udp_socket_ios) |>
  end.

Definition outside {A} (f : nat -> A) : calling (nat * A) := fun w =>
  (Ok (w.(outside_calls), f w.(outside_calls)), w <| outside_calls := S w.(outside_calls) |>).

Definition allocate_udp_socket_handle : calling Z :=
  w ← get_state;
  let handle := w.(next_udp_socket_handle) in
  if handle =? HttpExchange.I64_MAX then host_error "udp socket handle space exhausted"
  else
    _ ← modify (fun w => w <| next_udp_socket_handle := handle + 1 |>
                           <| udp_sockets := <[handle := UdpSocket.default_socket]> w.(udp_sockets) |>);
    mret handle.

Definition udp_socket_exists (handle : Z) (w : Udp) : bool :=
  if handle =? DEFAULT_UPSTREAM_UDP_SOCKET_HANDLE then true
  else bool_decide (is_Some (w.(udp_sockets) !! handle)).

Definition decode_socket (socket : Z) : calling UdpSocketHandle :=
  match decode_udp_socket_handle socket with
  | Some UdpDownstream => mret Downstream
  | Some UdpDefaultUpstream => mret DefaultUpstream
  | None =>
      w ← get_state;
      if udp_socket_exists socket w then mret (Dynamic socket)
      else host_error ("invalid udp socket handle " +:+ dec socket +:+
             "; reserved handles are 0 (downstream), 1 (default upstream), and allocated handles start at 2")
  end.

Definition udp_socket_operation_on_downstream : VmError :=
  HostError "downstream UDP sockets are unavailable in the current one-shot HTTP runtime".

(** [usize] has 64 bits. *)
Definition parse_positive_chunk_size (max_bytes : Z) : vm_result nat :=
  if max_bytes <=? 0
  then Err (HostError ("udp recv size must be positive, got " +:+ dec max_bytes))
  else Ok (Z.to_nat max_bytes).

Definition socket_state (h : UdpSocketHandle) : calling UdpSocketState :=
  w ← get_state;
  match state_of h w with Some s => mret s | None => throw Panics end.

Definition with_mutable_udp_socket_state {T} (socket : Z)
    (mutate : eff VmError (UdpSocketState * option Datagrams) T) : calling T :=
  h ← decode_socket socket;
  match h with
  | Downstream => throw (Error udp_socket_operation_on_downstream)
  | _ =>
      w ← get_state;
      match state_of h w with
      | None => throw Panics
      | Some s =>
          let '(r, (s, io)) := mutate (s, io_of h w) in
          _ ← modify (set_state h s);
          _ ← modify (set_io h io);
          or_error r
      end
  end.

Definition clear_udp_socket_io (h : UdpSocketHandle) : calling unit := modify (set_io h None).

Definition active_udp_socket_io (h : UdpSocketHandle) : calling (option Datagrams) :=
  w ← get_state; mret (io_of h w).

(** [if let Some(state) = udp_sockets.get_mut(&handle)] *)
Definition update_state (h : UdpSocketHandle) (f : UdpSocketState -> UdpSocketState) (w : Udp) : Udp :=
  match state_of h w with Some s => set_state h (f s) w | None => w end.

Definition store_connected_udp_socket (h : UdpSocketHandle) (io : Datagrams) (local_addr peer_addr : string) : calling unit :=
  _ ← modify (update_state h (UdpSocket.mark_connected local_addr peer_addr));
  modify (set_io h (Some io)).
Definition store_failed_udp_socket (h : UdpSocketHandle) (message : string) : calling unit :=
  _ ← modify (update_state h (UdpSocket.mark_failed message));
  modify (set_io h None).

Section calls.
Context `{UN : UdpNetwork} `{AC : AuthorityCrate} `{VA : Values} `{ET : ErrorText} `{B64 : Base64}.

(** ** Connecting *)

Definition bind_addr (state : UdpSocketState) (peer : SocketAddr) : string :=
  match UdpSocket.bind_address state with
  | Some address => address
  | None => if is_ipv4 peer then "0.0.0.0:0" else "[::]:0"
  end.

(** The connected socket, here its handle, is in the tables afterwards. *)
Definition ensure_udp_socket_connected (socket : Z) : calling UdpSocketHandle :=
  h ← decode_socket socket;
  io ← active_udp_socket_io h;
  match io with
  | Some _ => mret h
  | None =>
      state ← socket_state h;
      target ← or_error (ok_or (HostError "udp target is unavailable before udp::socket::set_target") (UdpSocket.target state));
      '(_, resolved) ← outside (fun i => lookup_host i target);
      resolved ← or_host_error resolved (fun err => "failed to resolve udp target '" +:+ target +:+ "': " +:+ err);
      peer ← or_error (ok_or (HostError ("udp target '" +:+ target +:+ "' resolved to no addresses")) (head resolved));
      let address := bind_addr state peer in
      '(_, bound) ← outside (fun i => udp_bind i address);
      _ ← or_host_error bound (fun err => "failed to bind udp socket '" +:+ address +:+ "': " +:+ err);
      '(i, connected) ← outside (fun i => udp_connect i peer);
      '(script, ends) ← or_host_error connected (fun err => "failed to connect udp socket to " +:+ addr_str peer +:+ ": " +:+ err);
      '(_, local) ← outside udp_local_addr;
      local ← or_host_error local (fun err => "failed to read udp local address: " +:+ err);
      _ ← store_connected_udp_socket h (MkDatagrams i (addr_str peer) script ends) (addr_str local) (addr_str peer);
      mret h
  end.

(** [inspect_err] of [socket_connect] and [socket_send_text] *)
Definition or_store_failed {A} (socket : Z) (m : calling A) : calling A := fun w =>
  match m w with
  | (Err (Error e), w) =>
      match decode_socket socket w with
      | (Ok h, w) => match store_failed_udp_socket h (error_text e) w with (_, w) => (Err (Error e), w) end
      | (Err _, w) => (Err (Error e), w)
      end
  | r => r
  end.

(** [io.send(bytes)]: a datagram is sent whole or not at all. *)
Definition send (h : UdpSocketHandle) (bytes : list Z) : calling Z :=
  w ← get_state;
  match io_of h w with
  | None => throw Panics
  | Some io =>
      _ ← modify (set_io h (Some (io <| send_ends := tail io.(send_ends) |>)));
      match head io.(send_ends) with
      | Some (Some err) => host_error ("failed to send udp datagram: " +:+ err)
      | _ => _ ← modify (fun w => w <| wire := w.(wire) ++ [(io.(remote), bytes)] |>); mret (len bytes)
      end
  end.

(** [io.recv(&mut buffer)] and [buffer.truncate(received)]: the next datagram as
    far as it fits into the buffer. *)
Definition recv (h : UdpSocketHandle) (max_bytes : nat) : calling (list Z) :=
  w ← get_state;
  match io_of h w with
  | None => throw Panics
  | Some io =>
      match io.(arriving) with
      | [] => throw Hangs
      | arrival :: rest =>
          _ ← modify (set_io h (Some (io <| arriving := rest |>)));
          _ ← modify (fun w => w <| heard := w.(heard) ++ [(io.(connection), arrival)] |>);
          datagram ← or_host_error arrival (fun err => "failed to receive udp datagram: " +:+ err);
          mret (take max_bytes datagram)
      end
  end.

(** ** The host calls *)

Definition socket_new : calling Z := allocate_udp_socket_handle.
Definition socket_downstream : calling Z := mret (udp_handle UdpDownstream).
Definition socket_default_upstream : calling Z := mret DEFAULT_UPSTREAM_UDP_SOCKET_HANDLE.

Definition socket_is_present (socket : Z) : calling bool :=
  h ← decode_socket socket;
  match h with
  | Downstream => mret false
  | _ => s ← socket_state h; mret (UdpSocket.is_present s)
  end.

Definition socket_bind (socket : Z) (local_addr : string) : calling unit :=
  _ ← decode_socket socket;
  with_mutable_udp_socket_state socket
    (modify (fun '(state, _) => (UdpSocket.set_bind_address local_addr state, None))).

Definition socket_set_target (socket : Z) (host : string) (port : Z) : calling unit :=
  '(authority, normalized_host, normalized_port) ← or_error (format_socket_authority host port "udp");
  _ ← decode_socket socket;
  with_mutable_udp_socket_state socket
    (modify (fun '(state, _) => (UdpSocket.set_target authority normalized_host normalized_port state, None))).

Definition socket_connect (socket : Z) : calling bool :=
  _ ← or_store_failed socket (ensure_udp_socket_connected socket);
  mret true.

(** [socket_get_phase], [socket_get_local_addr] and [socket_get_peer_addr] *)
Definition socket_text (socket : Z) (downstream : string) (f : UdpSocketState -> string) : calling string :=
  h ← decode_socket socket;
  match h with
  | Downstream => mret downstream
  | _ => s ← socket_state h; mret (f s)
  end.
Definition socket_get_phase (socket : Z) : calling string :=
  socket_text socket "inactive" (fun s => UdpSocket.as_str (UdpSocket.phase s)).
Definition socket_get_local_addr (socket : Z) : calling string := socket_text socket "" UdpSocket.local_address.
Definition socket_get_peer_addr (socket : Z) : calling string := socket_text socket "" UdpSocket.peer_address.

Definition socket_send_text (socket : Z) (text : string) : calling Z :=
  h ← or_store_failed socket (ensure_udp_socket_connected socket);
  send h (bytes_of_string text).

Definition socket_send_binary_base64 (socket : Z) (payload : string) : calling Z :=
  bytes ← or_host_error (base64_decode payload) (fun err => "udp binary payload must be base64 encoded: " +:+ err);
  h ← ensure_udp_socket_connected socket;
  send h bytes.

Definition socket_send_binary (socket : Z) (payload : Value) : calling Z :=
  bytes ← or_error (value_to_bytes payload);
  h ← ensure_udp_socket_connected socket;
  send h bytes.

Definition socket_recv (socket max_bytes : Z) : calling (list Z) :=
  max_bytes ← or_error (parse_positive_chunk_size max_bytes);
  h ← ensure_udp_socket_connected socket;
  recv h max_bytes.
Definition socket_recv_text (socket max_bytes : Z) : calling string :=
  buffer ← socket_recv socket max_bytes; mret (from_utf8_lossy buffer).
Definition socket_recv_binary_base64 (socket max_bytes : Z) : calling string :=
  buffer ← socket_recv socket max_bytes; mret (base64_encode buffer).
Definition socket_recv_binary (socket max_bytes : Z) : calling (list Z) := socket_recv socket max_bytes.

Definition socket_close (socket : Z) : calling unit :=
  h ← decode_socket socket;
  _ ← clear_udp_socket_io h;
  with_mutable_udp_socket_state socket (modify (fun '(state, io) => (UdpSocket.mark_closed state, io))).

End calls.
End UdpSockets.
