(* ===== verification/UdpCalls.v ===== *)
(** Properties of the UDP host calls, on any sequence of them: a datagram is
    sent whole, once, to the peer its socket reports; what arrives is handed
    over datagram by datagram and in order; calls on one socket leave the others
    alone, and none panics. *)

From S2P Require Import Prelude Bytes Effects TransportState HttpExchange TlsConfig Sockets UdpSockets.

Module UdpCalls.
Import Handles Sockets UdpSockets.
Import UdpSocket (UdpSocketState).
Import HttpExchange (AuthorityCrate).

(** ** Any sequence of calls *)

Section calls.
Context `{UN : UdpNetwork} `{AC : AuthorityCrate} `{VA : Values} `{ET : ErrorText} `{B64 : Base64}.

Inductive request :=
| IsPresent | Bind (local_addr : string) | SetTarget (host : string) (port : Z) | Connect
| GetPhase | GetLocalAddr | GetPeerAddr | Close
| SendText (text : string) | SendBinary (payload : Value) | SendBinaryBase64 (payload : string)
| RecvText (max_bytes : Z) | RecvBinary (max_bytes : Z) | RecvBinaryBase64 (max_bytes : Z).

Inductive reply := NoValue | Flag (b : bool) | Text (s : string) | Count (n : Z) | Received (bytes : list Z).

Definition serve (socket : Z) (q : request) : calling reply :=
  match q with
  | IsPresent => Flag <$> socket_is_present socket
  | Bind a => (fun _ => NoValue) <$> socket_bind socket a
  | SetTarget h p => (fun _ => NoValue) <$> socket_set_target socket h p
  | Connect => Flag <$> socket_connect socket
  | GetPhase => Text <$> socket_get_phase socket
  | GetLocalAddr => Text <$> socket_get_local_addr socket
  | GetPeerAddr => Text <$> socket_get_peer_addr socket
  | Close => (fun _ => NoValue) <$> socket_close socket
  | SendText t => Count <$> socket_send_text socket t
  | SendBinary v => Count <$> socket_send_binary socket v
  | SendBinaryBase64 s => Count <$> socket_send_binary_base64 socket s
  | RecvText n => Text <$> socket_recv_text socket n
  | RecvBinary n => Received <$> socket_recv_binary socket n
  | RecvBinaryBase64 n => Text <$> socket_recv_binary_base64 socket n
  end.

(** The datagram a call sends, and what a call answers to one it receives. *)
Definition payload_of (q : request) : option (list Z) :=
  match q with
  | SendText t => Some (bytes_of_string t)
  | SendBinary v => as_bytes v
  | SendBinaryBase64 s => match base64_decode s with Ok b => Some b | Err _ => None end
  | _ => None
  end.
Definition answer_to (q : request) (datagram : list Z) : option reply :=
  match q with
  | RecvText n => Some (Text (from_utf8_lossy (take (Z.to_nat n) datagram)))
  | RecvBinary n => Some (Received (take (Z.to_nat n) datagram))
  | RecvBinaryBase64 n => Some (Text (base64_encode (take (Z.to_nat n) datagram)))
  | _ => None
  end.
Definition receives (q : request) : bool :=
  match q with RecvText _ | RecvBinary _ | RecvBinaryBase64 _ => true | _ => false end.

Inductive action := New | On (socket : Z) (q : request).
Definition perform (a : action) : calling reply :=
  match a with New => Count <$> socket_new | On socket q => serve socket q end.

(** A call, how it ended, and the state after it. *)
Definition step : Type := action * result ended reply * Udp.
Fixpoint run (actions : list action) (w : Udp) : list step * Udp :=
  match actions with
  | [] => ([], w)
  | a :: actions =>
      let '(r, w) := perform a w in
      let '(steps, w') := run actions w in ((a, r, w) :: steps, w')
  end.

Definition handle_of (socket : Z) : UdpSocketHandle :=
  if socket =? 0 then Downstream else if socket =? 1 then DefaultUpstream else Dynamic socket.

(** The address [get_peer_addr] reports. *)
Definition reported_peer (h : UdpSocketHandle) (w : Udp) : string :=
  match state_of h w with Some s => UdpSocket.peer_address s | None => "" end.

(** What a step sent, and what it received, as the program sees it. *)
Definition sent_by (s : step) : list (string * list Z) :=
  match s with
  | (On socket q, Ok _, w) =>
      match payload_of q with Some p => [(reported_peer (handle_of socket) w, p)] | None => [] end
  | _ => []
  end.
Definition received_by (s : step) : list (request * reply) :=
  match s with (On _ q, Ok a, _) => if receives q then [(q, a)] else [] | _ => [] end.

(** The datagrams of a log of receptions. *)
Definition datagrams (l : list (nat * result string (list Z))) : list (list Z) :=
  omap (fun e => match e.2 with Ok d => Some d | Err _ => None end) l.
Definition heard_on (i : nat) (w : Udp) : list (result string (list Z)) :=
  (filter (fun e => e.1 = i) w.(heard)).*2.

(** A call ends; only one that receives may wait for a peer that stays silent.
    One that sends answers the length of the datagram. *)
Definition ends_well (s : step) : Prop :=
  match s with
  | (On _ q, Ok a, _) => forall p, payload_of q = Some p -> a = Count (len p)
  | (a, Err Hangs, _) => exists socket q, a = On socket q /\ receives q = true
  | (_, Err Panics, _) | (_, Err OutOfFuel, _) => False
  | _ => True
  end.

(** ** The invariant *)

Record io_ok (w : Udp) (h : UdpSocketHandle) (io : Datagrams) : Prop := {
  io_state : exists s local, state_of h w = Some s /\ UdpSocket.phase s = UdpSocket.Connected /\
    SocketAddress.local_address_ (UdpSocket.core s) = Some local /\
    SocketAddress.peer_address_ (UdpSocket.core s) = Some (remote io);
  io_script : exists peer script ends, udp_connect (connection io) peer = Ok (script, ends) /\
    remote io = addr_str peer /\ script = heard_on (connection io) w ++ arriving io;
  io_past : (connection io < outside_calls w)%nat;
}.

Record ok (w : Udp) : Prop := {
  ok_io h io : io_of h w = Some io -> io_ok w h io;
  ok_distinct h h' io io' : io_of h w = Some io -> io_of h' w = Some io' -> connection io = connection io' -> h = h';
  ok_heard i : heard_on i w ≠ [] -> (i < outside_calls w)%nat /\
    exists peer script ends, udp_connect i peer = Ok (script, ends) /\ heard_on i w `prefix_of` script;
  ok_next : FIRST_DYNAMIC_UDP_SOCKET_HANDLE <= next_udp_socket_handle w <= HttpExchange.I64_MAX;
  ok_handles h : is_Some (udp_sockets w !! h) -> FIRST_DYNAMIC_UDP_SOCKET_HANDLE <= h < next_udp_socket_handle w;
}.

(** From [w0] to [w], by calls on [h] that sent and took these datagrams. *)
Record acts (h : UdpSocketHandle) (w0 w : Udp) (sent : list (string * list Z)) (took : list (nat * result string (list Z))) : Prop := {
  acts_ok : ok w;
  acts_others h' : h' ≠ h -> state_of h' w = state_of h' w0 /\ io_of h' w = io_of h' w0;
  acts_wire : wire w = wire w0 ++ sent;
  acts_heard : heard w = heard w0 ++ took;
  acts_next : next_udp_socket_handle w = next_udp_socket_handle w0;
}.

Lemma acts_refl h w : ok w -> acts h w w [] [].
Proof. intros Hw. split; rewrite ?app_nil_r; auto. Qed.
Lemma acts_trans h w0 w1 w2 s1 s2 t1 t2 :
  acts h w0 w1 s1 t1 -> acts h w1 w2 s2 t2 -> acts h w0 w2 (s1 ++ s2) (t1 ++ t2).
Proof.
  intros [? O1 W1 H1 N1] [? O2 W2 H2 N2]. split; [done| |by rewrite W2, W1, app_assoc|by rewrite H2, H1, app_assoc|congruence].
  intros h' Hh. destruct (O1 h' Hh), (O2 h' Hh). split; congruence.
Qed.

(** *** Looking up *)

Lemma state_of_set_state h h' s w : h ≠ Downstream -> state_of h' (set_state h s w) = if decide (h = h') then Some s else state_of h' w.
Proof. destruct h, h'; intros ?; cbn; try done; case_decide; simplify_eq; by rewrite ?lookup_insert_eq, ?lookup_insert_ne by congruence. Qed.
Lemma io_set_io h h' io w : h ≠ Downstream -> io_of h' (set_io h io w) = if decide (h = h') then io else io_of h' w.
Proof. destruct h, h'; intros ?; cbn; try done; case_decide; simplify_eq; by rewrite ?lookup_partial_alter_eq, ?lookup_partial_alter_ne by congruence. Qed.
Lemma io_of_set_state h h' s w : io_of h' (set_state h s w) = io_of h' w.
Proof. by destruct h, h'. Qed.
Lemma state_of_set_io h h' io w : state_of h' (set_io h io w) = state_of h' w.
Proof. by destruct h, h'. Qed.

Lemma set_keeps h s io w :
  let w' := set_io h io (set_state h s w) in
  wire w' = wire w /\ heard w' = heard w /\ outside_calls w' = outside_calls w /\ next_udp_socket_handle w' = next_udp_socket_handle w.
Proof. by destruct h. Qed.

(** What an entry [io] of the table, for a socket with state [s], must be. *)
Record fits (w : Udp) (h : UdpSocketHandle) (s : UdpSocketState) (io : Datagrams) : Prop := {
  fit_phase : UdpSocket.phase s = UdpSocket.Connected;
  fit_local : exists local, SocketAddress.local_address_ (UdpSocket.core s) = Some local;
  fit_peer : SocketAddress.peer_address_ (UdpSocket.core s) = Some (remote io);
  fit_script : exists peer script ends, udp_connect (connection io) peer = Ok (script, ends) /\
    remote io = addr_str peer /\ script = heard_on (connection io) w ++ arriving io;
  fit_past : (connection io < outside_calls w)%nat;
  fit_own h' io' : h' ≠ h -> io_of h' w = Some io' -> connection io' ≠ connection io;
}.

Lemma fits_io w h s io : ok w -> io_of h w = Some io -> state_of h w = Some s -> fits w h s io.
Proof.
  intros Hw Hio Hs. destruct (ok_io w Hw h io Hio) as [(s' & l & Hs' & ? & ? & ?) ? ?].
  assert (s' = s) as -> by congruence. split; eauto. intros h' io' Hn Hio' Hc. by destruct Hn; eapply ok_distinct.
Qed.

Lemma acts_put h s io w0 w sent took :
  acts h w0 w sent took -> h ≠ Downstream -> is_Some (state_of h w) -> (forall d, io = Some d -> fits w h s d) ->
  acts h w0 (set_io h io (set_state h s w)) sent took.
Proof.
  intros [Hw Ho Hwire Hheard Hn] Hd Hs Hf.
  destruct (set_keeps h s io w) as (E1 & E2 & E3 & E4). set (w' := set_io _ _ _) in *.
  assert (Hst : forall h', state_of h' w' = if decide (h = h') then Some s else state_of h' w).
  { intros h'. unfold w'. by rewrite state_of_set_io, state_of_set_state. }
  assert (Hio : forall h', io_of h' w' = if decide (h = h') then io else io_of h' w).
  { intros h'. unfold w'. rewrite io_set_io by done. by rewrite io_of_set_state. }
  assert (Hh : forall i, heard_on i w' = heard_on i w) by (intros i; unfold heard_on; by rewrite E2).
  split; [split|..]; rewrite ?E1, ?E2, ?E3, ?E4; try done.
  - intros h' d. rewrite Hio. case_decide as He; [subst h'|].
    + intros ->. destruct (Hf d eq_refl) as [? [l ?] ? Hsc ? ?]. split; rewrite ?Hh, ?E3; [|done|done].
      exists s, l. rewrite Hst, decide_True by done. done.
    + intros Hd'. destruct (ok_io w Hw h' d Hd') as [(s' & l & ?) ? ?]. split; rewrite ?Hh, ?E3; [|done|done].
      exists s', l. by rewrite Hst, decide_False.
  - intros h1 h2 d1 d2. rewrite !Hio. repeat case_decide; subst; intros I1 I2 Hc; try done.
    + exfalso. by eapply (fit_own _ _ _ _ (Hf d1 I1)); [|exact I2|done].
    + exfalso. by eapply (fit_own _ _ _ _ (Hf d2 I2)); [|exact I1|].
    + by eapply ok_distinct.
  - intros i. rewrite Hh. by apply ok_heard.
  - by apply ok_next.
  - intros h'. specialize (Hst (Dynamic h')). cbn [state_of] in Hst. rewrite Hst. case_decide as He; [subst h|].
    + intros _. by apply (ok_handles w Hw).
    + by apply (ok_handles w Hw).
  - intros h' Hne. rewrite Hst, Hio, !decide_False by done. by apply Ho.
Qed.

(** *** What the pieces do *)

(** A call that was refused; one that fails at its socket. *)
Definition refused (h : UdpSocketHandle) (w0 : Udp) (e : ended) (w : Udp) : Prop :=
  (exists x, e = Error x) /\ acts h w0 w [] [].

Section one.
Context (socket : Z) (w0 : Udp).
Abbreviation h := (handle_of socket).
Abbreviation quiet := (fun w => acts h w0 w [] []).

Lemma refuses e w : quiet w -> refused h w0 (Error e) w.
Proof. split; [by eexists|done]. Qed.
Hint Resolve refuses : core.

Lemma triple_decode_socket (P : Udp -> Prop) :
  triple P (decode_socket socket) (fun h' w => (P w /\ is_Some (state_of h w)) /\ h' = h) (fun e w => (exists x, e = Error x) /\ P w).
Proof.
  intros w Hw. unfold decode_socket, decode_udp_socket_handle, UDP_SOCKET_DOWNSTREAM, UDP_SOCKET_DEFAULT_UPSTREAM, handle_of.
  destruct (socket =? 0); [by repeat split|]. destruct (socket =? 1) eqn:E1; [by repeat split|]. cbn.
  unfold udp_socket_exists, DEFAULT_UPSTREAM_UDP_SOCKET_HANDLE. unfold mbind, eff_bind. cbn. rewrite E1. destruct (bool_decide_reflect (is_Some (udp_sockets w !! socket))); cbn; [done|by split; [eexists|]].
Qed.

Lemma triple_put f io sent took :
  triple (E:=ended) (fun w => acts h w0 w sent took /\ h ≠ Downstream /\ exists s, state_of h w = Some s /\ forall d, io = Some d -> fits w h (f s) d)
    (_ ← modify (update_state h f); modify (set_io h io)) (fun _ w => acts h w0 w sent took /\ io_of h w = io) (fun _ _ => False).
Proof.
  intros w (Hw & Hd & s & Hs & Hf). unfold mbind, eff_bind. cbn. unfold update_state. rewrite Hs. split.
  - by apply acts_put.
  - by rewrite io_set_io, decide_True.
Qed.

Lemma triple_outside {A} (f : nat -> A) (P : Udp -> Prop) (R : ended -> Udp -> Prop) :
  triple (fun w => quiet w /\ P w) (outside f)
    (fun r w => quiet w /\ r.2 = f r.1 /\ (r.1 < outside_calls w)%nat /\
       (forall h' io, io_of h' w = Some io -> (connection io < r.1)%nat) /\ heard_on r.1 w = [] /\
       exists w1, P w1 /\ state_of h w = state_of h w1 /\ io_of h w = io_of h w1) R.
Proof.
  intros w [[Hw Ho Hwire Hheard Hn] HP]. cbn. split; [|split; [done|split; [lia|split; [|split]]]].
  - split; try done. destruct Hw as [K1 K2 K3 K4 K5]. split; try done.
    + intros h' io Hio. destruct (K1 h' io) as [? ? ?]; [by destruct h'|]. split; [by destruct h'|done|cbn; lia].
    + intros i Hi. destruct (K3 i Hi). cbn. split; [lia|done].
  - intros h' io Hio. apply (ok_io w Hw h'). by destruct h'.
  - destruct (decide (heard_on (outside_calls w) w = [])) as [|Hne]; [done|]. destruct (ok_heard w Hw _ Hne). lia.
  - exists w. split; [done|]. by destruct h.
Qed.

Lemma match_other {A} (x : UdpSocketHandle) (a b : A) :
  x ≠ Downstream -> match x with Downstream => a | _ => b end = b.
Proof. by destruct x. Qed.

(** Configuring and closing: the socket's state changes and it has no
    connection afterwards. *)
Lemma triple_change f :
  (forall s d, (f (s, d)).2 = None \/ (f (s, d)).2 = d) ->
  triple (fun w => quiet w /\ ((forall s d, (f (s, d)).2 = None) \/ io_of h w = None))
    (with_mutable_udp_socket_state socket (modify f)) (fun _ => quiet) (refused h w0).
Proof.
  intros Hf. unfold with_mutable_udp_socket_state. eapply triple_bind.
  { eapply triple_weaken; [apply triple_decode_socket|intros w Hw; exact Hw|intros h' w Hw; exact Hw|]. by intros e w [? [? ?]]. }
  intros h' w (((Hw & Hio) & s & Hs) & ->).
  destruct (decide (h = Downstream)) as [Hd|Hd]; [rewrite Hd in *; by split; [eexists|]|]. rewrite match_other by done.
  unfold mbind, eff_bind. cbn. rewrite Hs. cbn. destruct (f (s, io_of h w)) as [s' io] eqn:Ef. cbn.
  apply acts_put; [done|done|by eexists|].
  assert (io = None) as ->; [|done]. destruct Hio as [Hio|Hio].
  - specialize (Hio s (io_of h w)). by rewrite Ef in Hio.
  - destruct (Hf s (io_of h w)); rewrite Ef in *; cbn in *; congruence.
Qed.

(** The state and the entry of the handle, while nothing else happens. *)
Definition here (s : UdpSocketState) (w : Udp) : Prop := acts h w0 w [] [] /\ state_of h w = Some s /\ io_of h w = None.

(** The call of the network by this number connected no socket. *)
Definition unused (i : nat) (w : Udp) : Prop :=
  (i < outside_calls w)%nat /\ (forall h' io, io_of h' w = Some io -> (connection io ≠ i)%nat) /\ heard_on i w = [].

Lemma triple_outside_here {A} s (f : nat -> A) (R : ended -> Udp -> Prop) :
  triple (here s) (outside f) (fun r w => (here s w /\ unused r.1 w) /\ r.2 = f r.1) R.
Proof.
  eapply triple_weaken; [apply (triple_outside f (fun w => state_of h w = Some s /\ io_of h w = None))|..]; [done| |done].
  intros r w (? & ? & ? & Hio & ? & w1 & [??] & ? & ?). unfold here, unused. split_and!; try congruence; try done.
  intros h' io Hi. specialize (Hio h' io Hi). lia.
Qed.

Lemma triple_outside_unused {A} s i (f : nat -> A) (R : ended -> Udp -> Prop) :
  triple (fun w => here s w /\ unused i w) (outside f) (fun _ w => here s w /\ unused i w) R.
Proof.
  intros w [Hh [Hi [Hio Hn]]]. pose proof (triple_outside_here s f R w Hh) as Ho. cbn in Ho |- *.
  split; [apply Ho|]. split; [cbn; lia|]. split; [|done]. intros h' io Hio'. apply (Hio h'). by destruct h'.
Qed.

Lemma triple_active (P : Udp -> Prop) (R : ended -> Udp -> Prop) :
  triple P (active_udp_socket_io h) (fun io w => P w /\ io_of h w = io) R.
Proof. by intros w Hw. Qed.
Lemma triple_state (P : Udp -> Prop) (R : ended -> Udp -> Prop) :
  triple (fun w => P w /\ is_Some (state_of h w)) (socket_state h) (fun s w => P w /\ state_of h w = Some s) R.
Proof. intros w [Hw [s Hs]]. unfold socket_state, mbind, eff_bind. cbn. by rewrite Hs. Qed.

Lemma here_refused s e w : here s w -> refused h w0 (Error e) w.
Proof. intros [? _]. by apply refuses. Qed.

Lemma triple_ensure :
  triple quiet (ensure_udp_socket_connected socket) (fun h' w => (quiet w /\ exists io, io_of h w = Some io) /\ h' = h) (refused h w0).
Proof.
  unfold ensure_udp_socket_connected. eapply triple_bind; [apply triple_decode_socket|].
  intros h'. apply triple_fact. intros ->.
  eapply triple_bind; [apply triple_active|]. intros [io|].
  { apply triple_ret. intros w [[Hw _] Hio]. by eauto. }
  eapply triple_bind; [eapply triple_weaken; [apply (triple_state (fun w => quiet w /\ io_of h w = None))| |done|done]; by intros w [[? ?] ?]|].
  intros s. apply (triple_weaken _ (here s) _ _ (fun h' w => (quiet w /\ exists io, io_of h w = Some io) /\ h' = h) _ (refused h w0)); [|by intros w [[? ?] ?]|done|done].
  eapply triple_bind; [apply triple_or_error; intros e w; apply here_refused|].
  intros t. apply triple_fact. intros Ht.
  eapply triple_bind; [apply triple_outside_here|]. intros [i1 resolved].
  eapply triple_bind.
  { eapply triple_weaken; [apply (triple_or_host_error (here s) (refused h w0)); intros e w; apply here_refused|by intros w [[? _] _]|done|done]. }
  intros addresses. apply triple_fact. intros _.
  eapply triple_bind; [apply triple_or_error; intros e w; apply here_refused|].
  intros peer. apply triple_fact. intros _.
  eapply triple_bind; [apply triple_outside_here|]. intros [i2 bound].
  eapply triple_bind.
  { eapply triple_weaken; [apply (triple_or_host_error (here s) (refused h w0)); intros e w; apply here_refused|by intros w [[? _] _]|done|done]. }
  intros []. apply triple_fact. intros _.
  eapply triple_bind; [apply triple_outside_here|]. intros [i connected]. apply triple_fact. cbn [fst snd]. intros ->.
  eapply triple_bind; [apply triple_or_host_error; intros e w [? _]; by apply (here_refused s)|].
  intros [script ends]. apply triple_fact. intros Hc.
  eapply triple_bind; [apply triple_outside_unused|]. intros [i3 local].
  eapply triple_bind; [apply triple_or_host_error; intros e w [? _]; by apply (here_refused s)|].
  intros laddr. apply triple_fact. intros _.
  eapply (triple_bind _ _ _ (fun _ w => quiet w /\ io_of h w = Some (MkDatagrams i (addr_str peer) script ends))).
  - eapply triple_weaken; [apply (triple_put _ (Some (MkDatagrams i (addr_str peer) script ends)) [] [])| |intros [] w Hw; exact Hw|done].
    intros w [(Hw & Hs & Hn) (Hi & Hio & Hh)]. split; [done|]. split; [intros Hd; rewrite Hd in Hs; cbn in Hs; injection Hs as <-; discriminate Ht|].
    exists s. split; [done|]. intros d [= <-]. split; cbn; eauto.
    exists peer, script, ends. by rewrite Hh.
  - intros []. apply triple_ret. intros w [? ?]. eauto.
Qed.

Lemma set_state_id h' s w : state_of h' w = Some s -> set_state h' s w = w.
Proof.
  destruct w, h'; cbn; intros Hs; simplify_eq; [done|done|]. unfold set_field. cbn. by rewrite insert_id.
Qed.
Lemma io_not_downstream h' w io : io_of h' w = Some io -> h' ≠ Downstream.
Proof. by destruct h'. Qed.

Lemma acts_io io io' w sent took :
  acts h w0 w sent took -> io_of h w = Some io -> connection io' = connection io -> remote io' = remote io -> arriving io' = arriving io ->
  acts h w0 (set_io h (Some io') w) sent took.
Proof.
  intros Hw Hio Hc Hr Ha. pose proof (ok_io w (acts_ok _ _ _ _ _ Hw) h io Hio) as [(s & l & Hs & _) _ _].
  rewrite <-(set_state_id h s w Hs). apply acts_put; [done|by eapply io_not_downstream|by eexists|].
  intros d [= <-]. destruct (fits_io w h s io (acts_ok _ _ _ _ _ Hw) Hio Hs). split; rewrite ?Hc, ?Hr, ?Ha; done.
Qed.

Lemma triple_send bytes :
  triple (fun w => quiet w /\ exists io, io_of h w = Some io) (send h bytes)
    (fun n w => acts h w0 w [(reported_peer h w, bytes)] [] /\ n = len bytes) (refused h w0).
Proof.
  intros w [Hw [io Hio]]. unfold send, mbind, eff_bind. cbn. rewrite Hio. cbn.
  set (io' := io <| send_ends := tail (send_ends io) |>).
  assert (Ha : acts h w0 (set_io h (Some io') w) [] []) by (by eapply acts_io).
  assert (Hio' : io_of h (set_io h (Some io') w) = Some io').
  { rewrite io_set_io by (by eapply io_not_downstream). by rewrite decide_True. }
  set (w1 := set_io h (Some io') w) in *. clearbody w1.
  destruct (ok_io _ (acts_ok _ _ _ _ _ Ha) h io' Hio') as [(s & l & Hs & _ & _ & Hp) _ _].
  assert (Hr : reported_peer h (w1 <| wire := wire w1 ++ [(remote io, bytes)] |>) = remote io).
  { unfold reported_peer. replace (state_of h _) with (Some s) by (rewrite <-Hs; by destruct h).
    unfold UdpSocket.peer_address, SocketAddress.peer_address. by rewrite Hp. }
  assert (Hok : acts h w0 (w1 <| wire := wire w1 ++ [(remote io, bytes)] |>) [(remote io, bytes)] []).
  { destruct Ha as [[K1 K2 K3 K4 K5] Ho Hw' ? ?]. split; [split; try done| |cbn; by rewrite Hw', app_nil_r|done|done].
    - intros h' d Hd. destruct (K1 h' d) as [? ? ?]; [by destruct h'|]. split; [by destruct h'|done|done].
    - intros h' Hn. destruct (Ho h' Hn). by destruct h'. }
  destruct (head (send_ends io)) as [[e|]|]; [by apply refuses| |]; (split; [|done]); by rewrite Hr.
Qed.

Lemma heard_on_app w w' c a i : heard w' = heard w ++ [(c, a)] -> heard_on i w' = heard_on i w ++ (if decide (c = i) then [a] else []).
Proof. intros Hh. unfold heard_on. rewrite Hh, filter_app, fmap_app. f_equal. rewrite filter_cons. cbn. by case_decide. Qed.

Lemma acts_took io a rest w w1 :
  acts h w0 w [] [] -> io_of h w = Some io -> arriving io = a :: rest ->
  w1 = set_io h (Some (io <| arriving := rest |>)) w ->
  acts h w0 (w1 <| heard := heard w1 ++ [(connection io, a)] |>) [] [(connection io, a)].
Proof.
  intros [Hw Ho Hwire Hheard Hn] Hio Ha Ew.
  assert (Hst : forall h', state_of h' w1 = state_of h' w) by (intros h'; by rewrite Ew, state_of_set_io).
  assert (Hios : forall h', io_of h' w1 = if decide (h = h') then Some (io <| arriving := rest |>) else io_of h' w).
  { intros h'. rewrite Ew, io_set_io; [done|by eapply io_not_downstream]. }
  assert (Hk : wire w1 = wire w /\ heard w1 = heard w /\ outside_calls w1 = outside_calls w /\
    next_udp_socket_handle w1 = next_udp_socket_handle w /\ udp_sockets w1 = udp_sockets w) by (subst w1; by destruct h).
  clear Ew. destruct Hk as (E1 & E2 & E3 & E4 & E5).
  set (w2 := w1 <| heard := heard w1 ++ [(connection io, a)] |>).
  assert (Hst2 : forall h', state_of h' w2 = state_of h' w) by (intros h'; rewrite <-Hst; by destruct h').
  assert (Hio2 : forall h', io_of h' w2 = if decide (h = h') then Some (io <| arriving := rest |>) else io_of h' w).
  { intros h'. rewrite <-Hios; by destruct h'. }
  assert (Hh2 : forall i, heard_on i w2 = heard_on i w ++ (if decide (connection io = i) then [a] else [])).
  { intros i. apply heard_on_app. cbn. by rewrite E2. }
  destruct (ok_io w Hw h io Hio) as [Hs0 (peer & script & ends & Hc & Hr & Hsc) Hp].
  split; [split|..]; try (cbn; congruence).
  - intros h' d. rewrite Hio2. case_decide as He; [subst h'; intros [= <-]|]; [|intros Hd].
    + split; [|exists peer, script, ends|cbn; by rewrite E3].
      * destruct Hs0 as (s & l & Hs & Hs0). exists s, l. by rewrite Hst2.
      * change (connection (io <| arriving := rest |>)) with (connection io). split; [done|]. split; [done|].
        by rewrite Hh2, decide_True, <-app_assoc, Hsc, Ha.
    + destruct (ok_io w Hw h' d Hd) as [(s & l & Hs & Hs1) (peer1 & script1 & ends1 & Hc1 & Hr1 & Hsc1) Hp1].
      split; [exists s, l; by rewrite Hst2|exists peer1, script1, ends1|cbn; by rewrite E3].
      rewrite Hh2, decide_False, app_nil_r; [done|]. intros Hcc. apply He. by eapply ok_distinct.
  - intros h1 h2 d1 d2. rewrite !Hio2. repeat case_decide; subst; intros I1 I2 Hcc; simplify_eq; try done.
    + by eapply (ok_distinct w Hw _ _ io).
    + by eapply (ok_distinct w Hw _ _ _ io).
    + by eapply (ok_distinct w Hw).
  - intros i. rewrite Hh2. cbn. rewrite E3. case_decide as He; [subst i|].
    + intros _. split; [done|]. exists peer, script, ends. split; [done|].
      exists rest. by rewrite Hsc, Ha, <-app_assoc.
    + rewrite app_nil_r. by apply ok_heard.
  - cbn. rewrite E4. by apply ok_next.
  - intros h'. cbn. rewrite E4, E5. by apply ok_handles.
  - intros h' Hne. rewrite Hst2, Hio2, decide_False by done. by apply Ho.
  - cbn. by rewrite E2, Hheard, app_nil_r.
Qed.

Lemma triple_recv max_bytes :
  triple (fun w => quiet w /\ exists io, io_of h w = Some io) (recv h max_bytes)
    (fun d w => exists c whole, acts h w0 w [] [(c, Ok whole)] /\ d = take max_bytes whole)
    (fun e w => (e = Hangs \/ exists x, e = Error x) /\ exists took, acts h w0 w [] took /\ datagrams took = []).
Proof.
  intros w [Hw [io Hio]]. unfold recv, mbind, eff_bind. cbn. rewrite Hio.
  destruct (arriving io) as [|a rest] eqn:Ha; [split; [by left|by exists []]|].
  pose proof (acts_took io a rest w _ Hw Hio Ha eq_refl) as Hok.
  set (w1 := set_io h _ w) in *. clearbody w1. cbn. destruct a as [whole|e]; cbn.
  - by exists (connection io), whole.
  - split; [right; by eexists|]. by eexists.
Qed.

Lemma triple_or_store_failed {A} (m : calling A) Q :
  triple quiet m Q (refused h w0) -> triple quiet (or_store_failed socket m) Q (refused h w0).
Proof.
  intros Hm w Hw. unfold or_store_failed. specialize (Hm w Hw). destruct (m w) as [[a|e] w1]; [done|].
  destruct Hm as [[x ->] Hw1]. pose proof (triple_decode_socket quiet w1 Hw1) as Hd.
  destruct (decode_socket socket w1) as [[h'|e] w2]; cbn in *.
  - destruct Hd as [[Hw2 [s Hs]] ->]. split; [by eexists|].
    destruct (decide (h = Downstream)) as [Hd|Hd].
    { unfold update_state. rewrite Hs, Hd. by rewrite Hd in *. }
    unfold update_state. rewrite Hs. by apply acts_put.
  - destruct Hd as [_ Hw2]. split; [by eexists|done].
Qed.

(** What a call answers for what it sent and took. *)
Definition answered (q : request) (a : reply) (w : Udp) : Prop :=
  exists took, acts h w0 w (match payload_of q with Some p => [(reported_peer h w, p)] | None => [] end) took /\
    (if receives q then exists c whole, took = [(c, Ok whole)] /\ answer_to q whole = Some a else took = []) /\
    (forall p, payload_of q = Some p -> a = Count (len p)).
Definition failed (q : request) (e : ended) (w : Udp) : Prop :=
  ((exists x, e = Error x) \/ e = Hangs /\ receives q = true) /\ exists took, acts h w0 w [] took /\ datagrams took = [].

Lemma refused_failed q e w : refused h w0 e w -> failed q e w.
Proof. intros [? ?]. split; [by left|by exists []]. Qed.

Lemma triple_plain {A} (m : calling A) f q :
  triple quiet m (fun _ => quiet) (refused h w0) -> payload_of q = None -> receives q = false ->
  triple quiet (f <$> m) (answered q) (failed q).
Proof.
  intros Hm Hp Hr. apply triple_fmap. eapply triple_weaken; [exact Hm|done| |by intros; apply refused_failed].
  intros a w Hw. exists []. by rewrite Hp, Hr.
Qed.

Lemma triple_sent (m : calling UdpSocketHandle) q p :
  triple quiet m (fun h' w => (quiet w /\ exists io, io_of h w = Some io) /\ h' = h) (refused h w0) ->
  payload_of q = Some p -> receives q = false ->
  triple quiet (Count <$> (h' ← m; send h' p)) (answered q) (failed q).
Proof.
  intros Hm Hp Hr. apply triple_fmap. eapply triple_bind.
  { eapply triple_weaken; [exact Hm|done|intros h' w Hw; exact Hw|by intros; apply refused_failed]. }
  intros h'. apply triple_fact. intros ->.
  eapply triple_weaken; [apply triple_send|done| |by intros; apply refused_failed].
  intros n w [Hw ->]. exists []. rewrite Hp, Hr. split; [done|]. split; [done|]. by intros ? [= <-].
Qed.

Lemma triple_socket_recv n q : receives q = true ->
  triple quiet (socket_recv socket n)
    (fun d w => exists c whole, acts h w0 w [] [(c, Ok whole)] /\ d = take (Z.to_nat n) whole) (failed q).
Proof.
  intros Hr. unfold socket_recv. eapply triple_bind.
  { eapply triple_weaken; [apply (triple_or_error quiet (refused h w0)); intros e w; apply refuses|done|done|by intros; apply refused_failed]. }
  intros k. apply triple_fact. intros Hk.
  assert (k = Z.to_nat n) as ->.
  { unfold parse_positive_chunk_size in Hk. by destruct (n <=? 0); simplify_eq. }
  eapply triple_bind.
  { eapply triple_weaken; [apply triple_ensure|done|intros h' w Hw; exact Hw|by intros; apply refused_failed]. }
  intros h'. apply triple_fact. intros ->.
  eapply triple_weaken; [apply triple_recv|done|done|].
  intros e w [He Ht]. split; [|done]. destruct He; [right; by split|by left].
Qed.

Lemma triple_received {A} (m : calling A) (g : A -> reply) q :
  (forall a w, (exists c whole, acts h w0 w [] [(c, Ok whole)] /\ Some (g a) = answer_to q whole) -> answered q (g a) w) ->
  triple quiet m (fun a w => exists c whole, acts h w0 w [] [(c, Ok whole)] /\ Some (g a) = answer_to q whole) (failed q) ->
  triple quiet (g <$> m) (answered q) (failed q).
Proof. intros Ha Hm. apply triple_fmap. by eapply triple_weaken; [exact Hm|done| |done]. Qed.
Lemma answered_received q a w : payload_of q = None -> receives q = true ->
  (exists c whole, acts h w0 w [] [(c, Ok whole)] /\ Some a = answer_to q whole) -> answered q a w.
Proof. intros Hp Hr (c & whole & Hw & Ha). exists [(c, Ok whole)]. rewrite Hp, Hr. split; [done|]. split; [by eauto|done]. Qed.

Lemma triple_clear :
  triple (fun w => quiet w /\ is_Some (state_of h w)) (clear_udp_socket_io h) (fun _ w => quiet w /\ io_of h w = None) (refused h w0).
Proof.
  intros w [Hw [s Hs]]. cbn. destruct (decide (h = Downstream)) as [Hd|Hd]; [by rewrite Hd in *|].
  rewrite io_set_io, decide_True by done. split; [|done]. rewrite <-(set_state_id h s w Hs) at 1. by apply acts_put.
Qed.

Lemma triple_look {A} (k : UdpSocketHandle -> calling A) :
  (forall w, triple (fun w' => quiet w' /\ is_Some (state_of h w') /\ w' = w) (k h) (fun _ => quiet) (refused h w0)) ->
  triple quiet (h' ← decode_socket socket; k h') (fun _ => quiet) (refused h w0).
Proof.
  intros Hk. eapply triple_bind; [apply triple_decode_socket|]. intros h'. apply triple_fact. intros ->.
  intros w [Hw Hs]. by apply (Hk w).
Qed.

Lemma triple_text d f : triple quiet (socket_text socket d f) (fun _ => quiet) (refused h w0).
Proof.
  apply triple_look. intros w1. destruct (decide (h = Downstream)) as [->|Hd]; [by intros w (? & _)|].
  rewrite match_other by done. eapply triple_bind; [eapply triple_weaken; [apply (triple_state quiet)|by intros w (? & ? & _)|done|done]|].
  intros s. apply triple_ret. by intros w [? _].
Qed.

Lemma triple_serve q : triple quiet (serve socket q) (answered q) (failed q).
Proof.
  destruct q; cbn [serve].
  - apply triple_plain; [|done..]. apply triple_look. intros w1.
    destruct (decide (h = Downstream)) as [->|Hd]; [by intros w (? & _)|].
    rewrite match_other by done. eapply triple_bind; [eapply triple_weaken; [apply (triple_state quiet)|by intros w (? & ? & _)|done|done]|].
    intros s. apply triple_ret. by intros w [? _].
  - apply triple_plain; [|done..]. apply triple_look. intros w1.
    eapply triple_weaken; [apply triple_change; by left|intros w (? & _); split; [done|by left]|done|done].
  - apply triple_plain; [|done..]. unfold socket_set_target.
    eapply triple_bind; [apply triple_or_error, refuses|]. intros [[a n] p]. apply triple_fact. intros _.
    apply triple_look. intros w1.
    eapply triple_weaken; [apply triple_change; by left|intros w (? & _); split; [done|by left]|done|done].
  - apply triple_plain; [|done..]. unfold socket_connect. eapply triple_bind; [apply triple_or_store_failed, triple_ensure|].
    intros h'. apply triple_ret. by intros w [[? _] _].
  - apply triple_plain; [|done..]. apply triple_text.
  - apply triple_plain; [|done..]. apply triple_text.
  - apply triple_plain; [|done..]. apply triple_text.
  - apply triple_plain; [|done..]. apply triple_look. intros w1.
    eapply (triple_bind _ _ _ (fun _ w => quiet w /\ io_of h w = None)).
    + eapply triple_weaken; [apply triple_clear|by intros w (? & ? & _)|done|done].
    + intros []. eapply triple_weaken; [apply triple_change; by right|intros w [??]; split; [done|by right]|done|done].
  - by apply triple_sent; [apply triple_or_store_failed, triple_ensure|..].
  - unfold socket_send_binary, value_to_bytes. destruct (as_bytes payload) as [p|] eqn:Hp; [|intros w Hw; by apply refused_failed, refuses].
    apply (triple_sent _ (SendBinary payload) p); [apply triple_ensure|done..].
  - unfold socket_send_binary_base64. destruct (base64_decode payload) as [p|e] eqn:Hp; [|intros w Hw; by apply refused_failed, refuses].
    apply (triple_sent _ (SendBinaryBase64 payload) p); [apply triple_ensure|cbn; by rewrite Hp|done].
  - apply triple_received; [intros; by apply answered_received|].
    eapply triple_bind; [by apply triple_socket_recv|]. intros d. apply triple_ret. intros w (c & whole & Hw & ->). by exists c, whole.
  - apply triple_received; [intros; by apply answered_received|].
    eapply triple_weaken; [apply (triple_socket_recv max_bytes (RecvBinary max_bytes)); done|done| |done]. intros d w (c & whole & Hw & ->). by exists c, whole.
  - apply triple_received; [intros; by apply answered_received|].
    eapply triple_bind; [by apply triple_socket_recv|]. intros d. apply triple_ret. intros w (c & whole & Hw & ->). by exists c, whole.
Qed.

End one.


(** ** Runs *)

Definition answers (qa : request * reply) (datagram : list Z) : Prop := answer_to qa.1 datagram = Some qa.2.

Lemma new_ok w : ok w -> let '(r, w') := socket_new w in
  ok w' /\ wire w' = wire w /\ heard w' = heard w /\ (forall e, r = Err e -> exists x, e = Error x).
Proof.
  intros Hw. unfold socket_new, allocate_udp_socket_handle, mbind, eff_bind. cbn.
  destruct (next_udp_socket_handle w =? HttpExchange.I64_MAX) eqn:Hn; cbn.
  { split_and!; [done..|]. intros e [= <-]. by eexists. }
  apply Z.eqb_neq in Hn. split_and!; [|done..].
  destruct Hw as [K1 K2 K3 K4 K5]. split; try done; cbn.
  - intros h io Hio. destruct (K1 h io) as [(s & l & Hs & Hrest) ? ?]; [by destruct h|]. split; [|done..].
    exists s, l. split; [|done]. destruct h as [| |h]; [done|done|]. cbn in Hs |- *.
    rewrite lookup_insert_ne; [done|]. specialize (K5 h (mk_is_Some _ _ Hs)). lia.
  - unfold HttpExchange.I64_MAX in *. lia.
  - intros h. destruct (decide (h = next_udp_socket_handle w)) as [->|Hne]; [intros _; lia|].
    rewrite lookup_insert_ne by done. intros Hh. specialize (K5 h Hh). lia.
Qed.

Lemma perform_ok a w : ok w -> let '(r, w') := perform a w in
  ok w' /\ wire w' = wire w ++ sent_by (a, r, w') /\
  (exists took, heard w' = heard w ++ took /\ Forall2 answers (received_by (a, r, w')) (datagrams took)) /\
  ends_well (a, r, w').
Proof.
  intros Hw. destruct a as [|socket q]; cbn [perform].
  - pose proof (new_ok w Hw) as Hn. unfold fmap, eff_fmap. destruct (socket_new w) as [[n|e] w'].
    + destruct Hn as (? & -> & -> & _). split; [done|]. rewrite app_nil_r. split; [done|]. split; [|done].
      exists []. by rewrite app_nil_r.
    + destruct Hn as (? & -> & -> & He). destruct (He e eq_refl) as [x ->]. split; [done|]. rewrite app_nil_r. split; [done|].
      split; [|done]. exists []. by rewrite app_nil_r.
  - pose proof (triple_serve socket w q w (acts_refl _ w Hw)) as Hs. destruct (serve socket q w) as [[a|e] w'].
    + destruct Hs as (took & [Hok _ Hwire Hheard _] & Ht & Hc). split; [done|]. split; [done|]. split; [|done].
      exists took. split; [done|]. cbn. destruct (receives q); [|by subst took].
      destruct Ht as (c & whole & -> & Ha). by repeat constructor.
    + destruct Hs as (He & took & [Hok _ Hwire Hheard _] & Ht). split; [done|].
      split; [by destruct e|]. split; [exists took; by rewrite Ht|].
      destruct He as [[x ->]|[-> Hr]]; [done|by exists socket, q].
Qed.

Lemma datagrams_app l k : datagrams (l ++ k) = datagrams l ++ datagrams k.
Proof. apply omap_app. Qed.

Lemma run_well actions w : ok w -> let '(steps, w') := run actions w in
  ok w' /\ wire w' = wire w ++ concat (sent_by <$> steps) /\
  (exists took, heard w' = heard w ++ took /\ Forall2 answers (concat (received_by <$> steps)) (datagrams took)) /\
  Forall ends_well steps.
Proof.
  revert w; induction actions as [|a actions IH]; intros w Hw; cbn.
  { rewrite app_nil_r. split_and!; [done..| |done]. exists []. by rewrite app_nil_r. }
  pose proof (perform_ok a w Hw) as Hp. destruct (perform a w) as [r w1].
  destruct Hp as (Hw1 & Hwire & (took & Hheard & Ht) & He). specialize (IH w1 Hw1).
  destruct (run actions w1) as [steps w2]. destruct IH as (Hw2 & Hwire2 & (took2 & Hheard2 & Ht2) & He2).
  split; [done|]. split; [by rewrite Hwire2, Hwire, <-app_assoc|]. split; [|by constructor].
  exists (took ++ took2). split; [by rewrite Hheard2, Hheard, app_assoc|].
  rewrite datagrams_app. by apply Forall2_app.
Qed.

Lemma initial_well : ok initial.
Proof.
  split; try done.
  - by intros [].
  - by intros [].
  - intros h [s Hs]. done.
Qed.

(** C17. Whatever calls a program makes on UDP sockets, with any answers of the
    network: the datagrams on the wire are exactly those of the sends that
    succeeded, in their order, each whole, once and to the peer its socket
    reports at that moment; the answers of the calls that receive are, in order,
    the datagrams that were taken, each cut to the size asked for; on every
    connection the taken datagrams are the first that arrived, none skipped; and
    every call ends without a panic, except that one which receives may wait. *)
Theorem udp_datagrams_whole actions :
  let '(steps, w) := run actions initial in
  wire w = concat (sent_by <$> steps) /\
  Forall2 answers (concat (received_by <$> steps)) (datagrams (heard w)) /\
  (forall i, heard_on i w ≠ [] -> exists peer script ends, udp_connect i peer = Ok (script, ends) /\ heard_on i w `prefix_of` script) /\
  Forall ends_well steps.
Proof.
  pose proof (run_well actions initial initial_well) as Hr. destruct (run actions initial) as [steps w].
  destruct Hr as (Hw & Hwire & (took & Hheard & Ht) & He). split; [done|]. split; [by rewrite Hheard|].
  split; [|done]. intros i Hi. by destruct (ok_heard w Hw i Hi) as [_ Hp].
Qed.

(** In any state that calls lead to, a call on one socket leaves all others, with
    their connections, as they were. *)
Theorem udp_calls_isolated actions socket q h' :
  h' ≠ handle_of socket ->
  let w := (run actions initial).2 in
  let w' := (serve socket q w).2 in
  state_of h' w' = state_of h' w /\ io_of h' w' = io_of h' w.
Proof.
  intros Hh. pose proof (run_well actions initial initial_well) as Hr. destruct (run actions initial) as [steps w].
  destruct Hr as (Hw & _). cbn. pose proof (triple_serve socket w q w (acts_refl _ w Hw)) as Hs.
  destruct (serve socket q w) as [[a|e] w'].
  - destruct Hs as (took & [_ Ho _ _ _] & _). by apply Ho.
  - destruct Hs as (_ & took & [_ Ho _ _ _] & _). by apply Ho.
Qed.

End calls.

(** ** What the calls do not say *)

#[local] Existing Instance TlsConfig.text_pems.

Definition quiet_udp (known : string -> bool) : @UdpNetwork _ (quiet_network known) :=
  Build_UdpNetwork _ (quiet_network known) (fun _ _ => Ok tt) (fun _ _ => Ok ([], [])) (fun _ => Ok "here:9").
#[local] Instance any_authority : AuthorityCrate := {|
  HttpExchange.Authority := string; HttpExchange.parse_authority := Some; HttpExchange.authority_str := id;
  HttpExchange.authority_host := fun _ => "peer"; HttpExchange.port_u16 := fun _ => None;
|}.
#[local] Instance byte_values : Values := {| Value := list Z; as_bytes := Some |}.
#[local] Instance plain_error : ErrorText := fun e => match e with HostError m => m | TypeMismatch m => m end.
#[local] Instance plain_base64 : Base64 := {| base64_encode := string_of_bytes; base64_decode := fun s => Ok (bytes_of_string s) |}.

(** The answers to calls on the default socket. *)
Definition answers_of (known : string -> bool) (qs : list request) : list (result ended reply) :=
  (fun s => s.1.2) <$> (run (UN := quiet_udp known) (On DEFAULT_UPSTREAM_UDP_SOCKET_HANDLE <$> qs) initial).1.

(** After a [bind] the socket has no connection, and still says it has. *)
Theorem bind_keeps_connected :
  answers_of (fun _ => true) [SetTarget "peer" 53; Connect; Bind "127.0.0.1:7"; GetPhase; GetLocalAddr] =
  [Ok NoValue; Ok (Flag true); Ok NoValue; Ok (Text "connected"); Ok (Text "")].
Proof. vm_compute. reflexivity. Qed.

(** A closed socket is connected again by the next call that sends. *)
Theorem closed_socket_sends :
  answers_of (fun _ => true) [SetTarget "peer" 53; Close; GetPhase; SendText "hi"; GetPhase] =
  [Ok NoValue; Ok NoValue; Ok (Text "closed"); Ok (Count 2); Ok (Text "connected")].
Proof. vm_compute. reflexivity. Qed.

(** A target that cannot be resolved fails the socket when text is sent, and
    leaves it configured when bytes are. *)
Theorem failure_depends_on_call :
  let unknown := Err (Error (HostError "failed to resolve udp target 'peer:53': unknown host")) in
  answers_of (fun _ => false) [SetTarget "peer" 53; SendBinary [104; 105]; GetPhase; SendText "hi"; GetPhase] =
  [Ok NoValue; unknown; Ok (Text "configured"); unknown; Ok (Text "failed")].
Proof. vm_compute. reflexivity. Qed.

End UdpCalls.
