(* ===== verification/TcpStreams.v ===== *)
(** Model of [src/abi_impl/transport/tcp.rs]: the host calls on TCP streams.  A
    handle is one of three things: the downstream, which is a raw stream (TCP, or
    the plaintext of TLS) or else the HTTP request and response; a socket of the
    program's own, connected by the first call that needs it; or an HTTP
    exchange.  The HTTP side is an interface ([HttpSide]). *)

From S2P Require Import Prelude Bytes Effects TransportState TlsFlow TlsConfig HttpExchange Sockets.

Module TcpStreams.
Import Handles Sockets.
Import TcpFlow (TcpFlowState).
Import TcpSocket (TcpSocketState, TcpSocketPhase).
Import TlsFlow (TlsFlowState).
Import TlsConfig (TlsCrate, PreparedConfig).
Import HttpExchange (AuthorityCrate, HttpExchangeTransportState, peer_addr, attached_transport, tcp_flow, AttachedTcp, AttachedTls).

#[local] Existing Instances HttpExchange.eta_transport TcpSocket.TcpSocketPhase_eq_dec.

(** ** The HTTP side *)

(** What the HTTP context of a request offers to the calls on streams: the flows
    of the downstream and of the default upstream, the transports of the
    exchanges, and the bodies read and written as streams. *)
Class HttpSide (Http : Type) := {
  tcp_dag : TcpStreamRef -> Http -> TcpFlowState;
  set_tcp_dag : TcpStreamRef -> TcpFlowState -> Http -> Http;
  tls_dag : TlsSessionRef -> Http -> TlsFlowState;
  set_tls_dag : TlsSessionRef -> TlsFlowState -> Http -> Http;
  exchange_transport : Z -> Http -> option HttpExchangeTransportState;
  set_exchange_transport : Z -> HttpExchangeTransportState -> Http -> Http;
  read_request_body_next_chunk : nat -> eff ended Http (list Z);
  request_body_eof : eff ended Http bool;
  append_response_output_body_bytes : list Z -> eff ended Http unit;
  append_outbound_exchange_body_bytes : Z -> list Z -> eff ended Http unit;
  read_outbound_exchange_response_next_chunk : Z -> nat -> eff ended Http (list Z);
  outbound_exchange_response_eof : Z -> eff ended Http bool;
}.

Section calls.
Context `{NW : Network} `{AC : AuthorityCrate} `{VA : Values} `{ET : ErrorText} {Http : Type} `{HS : HttpSide Http}.

(** ** The state *)

(** [DownstreamTlsServerStart]: a handshake that has seen the client's hello. *)
Record DownstreamTlsServerStart := MkStart {
  client_hello_server_name : option string;
  client_hello_alpn : list (list Z);
  start : Stream;
}.

(** The fields of [lock_transport()] the calls use; the flows are the HTTP
    side's. *)
Record World := MkWorld {
  net : Net;
  http : Http;
  downstream_tcp_io : option SharedIo;
  downstream_tls_io : option SharedIo;
  downstream_preread_buffer : list Z;
  downstream_read_eof : bool;
  downstream_local_addr : option SocketAddr;
  downstream_peer_addr : option SocketAddr;
  downstream_tls_server_start : option DownstreamTlsServerStart;
  downstream_tls_server_config : option PreparedConfig;
  downstream_transport_accessed : bool;
}.
#[export] Instance eta_world : Eta World := fun w =>
  MkWorld w.(net) w.(http) w.(downstream_tcp_io) w.(downstream_tls_io) w.(downstream_preread_buffer) w.(downstream_read_eof)
    w.(downstream_local_addr) w.(downstream_peer_addr) w.(downstream_tls_server_start) w.(downstream_tls_server_config)
    w.(downstream_transport_accessed).

Definition call (A : Type) : Type := eff ended World A.
Definition on_net {A} (m : networking A) : call A := zoom net (fun n w => w <| net := n |>) m.
Definition on_http {A} (m : eff ended Http A) : call A := zoom http (fun h w => w <| http := h |>) m.

Definition update_flow (r : TcpStreamRef) (f : TcpFlowState -> TcpFlowState) (w : World) : World :=
  w <| http := set_tcp_dag r (f (tcp_dag r w.(http))) w.(http) |>.
Definition update_tls (r : TlsSessionRef) (f : TlsFlowState -> TlsFlowState) (w : World) : World :=
  w <| http := set_tls_dag r (f (tls_dag r w.(http))) w.(http) |>.

Inductive TcpStreamHandle := Reserved (r : TcpStreamRef) | Dynamic (handle : Z) | OutboundExchange (handle : Z).

(** Where a shared stream is kept. *)
Inductive slot := DownstreamTcp | DownstreamTls | DynamicIo (handle : Z).
Definition io_of (s : slot) (w : World) : option SharedIo :=
  match s with
  | DownstreamTcp => w.(downstream_tcp_io)
  | DownstreamTls => w.(downstream_tls_io)
  | DynamicIo h => w.(net).(tcp_stream_ios) !! h
  end.
Definition set_io (s : slot) (io : option SharedIo) (w : World) : World :=
  match s with
  | DownstreamTcp => w <| downstream_tcp_io := io |>
  | DownstreamTls => w <| downstream_tls_io := io |>
  | DynamicIo h => w <| net := w.(net) <| tcp_stream_ios := partial_alter (fun _ => io) h w.(net).(tcp_stream_ios) |> |>
  end.

(** ** Handles *)

Definition note_downstream_transport_access : call unit := modify (fun w => w <| downstream_transport_accessed := true |>).
Definition tcp_stream_exists (stream : Z) (w : World) : bool := bool_decide (is_Some (w.(net).(tcp_streams) !! stream)).
Definition outbound_exchange_exists (stream : Z) (w : World) : bool := bool_decide (is_Some (exchange_transport stream w.(http))).

Definition decode_stream (stream : Z) : call TcpStreamHandle :=
  match decode_tcp_stream_handle stream with
  | Some r => _ ← match r with TcpDownstream => note_downstream_transport_access | _ => mret tt end; mret (Reserved r)
  | None =>
      w ← get_state;
      if tcp_stream_exists stream w then mret (Dynamic stream)
      else if outbound_exchange_exists stream w then mret (OutboundExchange stream)
      else host_error ("invalid tcp stream handle " +:+ dec stream +:+
             "; use 0/1 for reserved handles, tcp::stream::new() for dynamic sockets, or an outbound exchange handle")
  end.

(** [usize] has 64 bits. *)
Definition decode_chunk_size (max_bytes : Z) : vm_result nat :=
  if max_bytes <=? 0
  then Err (HostError ("tcp::stream::read max_bytes must be positive, got " +:+ dec max_bytes))
  else Ok (Z.to_nat max_bytes).

Definition mutable_dynamic_tcp_stream_only : VmError :=
  HostError "this tcp operation only supports dynamic sockets returned by tcp::stream::new()".

Definition with_mutable_dynamic_tcp_socket_state {T} (stream : Z)
    (mutate : eff VmError (TcpSocketState * option SharedIo) T) : call T :=
  d ← decode_stream stream;
  match d with
  | Dynamic handle =>
      w ← get_state;
      match w.(net).(tcp_streams) !! handle with
      | None => throw Panics
      | Some state =>
          let '(r, (state, io)) := mutate (state, io_of (DynamicIo handle) w) in
          _ ← modify (fun w => w <| net := w.(net) <| tcp_streams := <[handle := state]> w.(net).(tcp_streams) |> |>);
          _ ← modify (set_io (DynamicIo handle) io);
          or_error r
      end
  | _ => throw (Error mutable_dynamic_tcp_stream_only)
  end.

Definition dynamic_tcp_socket_state (handle : Z) : call TcpSocketState :=
  w ← get_state;
  match w.(net).(tcp_streams) !! handle with
  | Some state => mret state
  | None => host_error ("unknown dynamic tcp stream handle " +:+ dec handle)
  end.

Definition outbound_http_peer_addr (w : World) (handle : Z) : option string :=
  transport ← exchange_transport handle w.(http);
  match peer_addr transport ≫= non_empty with
  | Some addr => Some addr
  | None =>
      stream ← match attached_transport transport with
               | Some (AttachedTcp stream) | Some (AttachedTls stream) => Some stream
               | None => None
               end;
      state ← w.(net).(tcp_streams) !! stream;
      non_empty (TcpSocket.peer_address state)
  end.

(** ** The downstream *)

Definition attached_downstream_eof (w : World) : bool :=
  w.(downstream_read_eof) && bool_decide (w.(downstream_preread_buffer) = []).

Definition mark_attached_downstream_failed (message : string) (w : World) : World :=
  let w := update_flow TcpDownstream (TcpFlow.mark_failed message) w in
  let w := if TlsFlow.present (tls_dag TlsDownstream w.(http)) || bool_decide (is_Some w.(downstream_tls_server_start))
           then update_tls TlsDownstream TlsFlow.mark_failed w else w in
  w <| downstream_tls_server_start := None |> <| downstream_tls_io := None |>
    <| downstream_preread_buffer := [] |> <| downstream_tcp_io := None |>.

Definition or_mark_failed {A} (m : call A) : call A := fun w =>
  match m w with
  | (Err (Error e), w) => (Err (Error e), mark_attached_downstream_failed (error_text e) w)
  | r => r
  end.

Definition take_downstream_preread_bytes (max_bytes : nat) : call (list Z) := fun w =>
  (Ok (take max_bytes w.(downstream_preread_buffer)),
   w <| downstream_preread_buffer := drop max_bytes w.(downstream_preread_buffer) |>).
Definition preview_downstream_preread_bytes (max_bytes : nat) (w : World) : list Z :=
  take max_bytes w.(downstream_preread_buffer).
Definition append_downstream_preread_bytes (bytes : list Z) (w : World) : World :=
  w <| downstream_preread_buffer := w.(downstream_preread_buffer) ++ bytes |>.

(** [stream_io.read(&mut buffer)] and [buffer.truncate(read)] on the stream of a
    slot, which is locked and may be empty. *)
Definition read_io (s : slot) (unavailable : string) (failed : string -> string) (max_bytes : nat) : call (list Z) :=
  w ← get_state;
  match io_of s w with
  | Some (Some io) =>
      let '(r, now, io) := read max_bytes None w.(net).(clock) io in
      _ ← modify (set_io s (Some (Some io)));
      _ ← modify (fun w => w <| net := w.(net) <| clock := now |> |>);
      match r with
      | ReadBytes bytes => mret bytes
      | ReadFailed e => host_error (failed e)
      | ReadElapsed | ReadNever => throw Hangs
      end
  | _ => host_error unavailable
  end.
(** [write_all] and [flush] *)
Definition write_io (s : slot) (unavailable what : string) (bytes : list Z) : call unit :=
  w ← get_state;
  match io_of s w with
  | Some (Some io) =>
      let '(r, io) := write_all bytes io in
      _ ← modify (set_io s (Some (Some io)));
      _ ← or_host_error r (fun err => what +:+ " write failed: " +:+ err);
      let '(r, io) := flush io in
      _ ← modify (set_io s (Some (Some io)));
      or_host_error r (fun err => what +:+ " flush failed: " +:+ err)
  | _ => host_error unavailable
  end.

(** The two kinds of an attached downstream, with their texts. *)
Definition downstream_unavailable (s : slot) : string :=
  match s with
  | DownstreamTls => "downstream tls plaintext transport is unavailable"
  | _ => "downstream tcp transport is unavailable"
  end.
Definition downstream_what (s : slot) : string :=
  match s with DownstreamTls => "downstream tls" | _ => "downstream tcp" end.

(** [read_attached_downstream_tcp] and [read_attached_downstream_tls] *)
Definition read_attached_downstream (s : slot) (max_bytes : nat) : call (list Z) :=
  bytes ← read_io s (downstream_unavailable s) (fun err => downstream_what s +:+ " read failed: " +:+ err) max_bytes;
  _ ← modify (fun w => w <| downstream_read_eof := bool_decide (bytes = []) |>);
  mret bytes.

Definition read_attached_downstream_with_preread (s : slot) (max_bytes : nat) : call (list Z) :=
  chunk ← take_downstream_preread_bytes max_bytes;
  if bool_decide (length chunk < max_bytes)%nat
  then suffix ← read_attached_downstream s (max_bytes - length chunk); mret (chunk ++ suffix)
  else mret chunk.

Definition peek_attached_downstream (s : slot) (max_bytes : nat) : call (list Z) :=
  w ← get_state;
  let current := preview_downstream_preread_bytes max_bytes w in
  if bool_decide (max_bytes <= length current)%nat || attached_downstream_eof w then mret current
  else
    suffix ← read_attached_downstream s (max_bytes - length current);
    _ ← modify (append_downstream_preread_bytes suffix);
    mret (current ++ suffix).

Definition write_attached_downstream (s : slot) (bytes : list Z) : call unit :=
  write_io s (downstream_unavailable s) (downstream_what s) bytes.

(** Which stream the downstream handle stands for: the plaintext of TLS, the raw
    one, none while a handshake is pending, and else the HTTP request. *)
Inductive downstream_kind := Raw (s : slot) | Pending | Buffered.
Definition downstream_now (w : World) : downstream_kind :=
  match w.(downstream_tls_io) with
  | Some _ => Raw DownstreamTls
  | None =>
      match w.(downstream_tcp_io) with
      | Some _ => Raw DownstreamTcp
      | None => if bool_decide (is_Some w.(downstream_tls_server_start)) then Pending else Buffered
      end
  end.
Definition pending_handshake (before : string) : string :=
  "downstream tcp stream is pending tls handshake; call tls::session::handshake " +:+ before.

(** ** Dynamic sockets *)

Definition store_connected_dynamic_tcp_stream (handle : Z) (io : Stream) (local_addr peer_addr : string) : call unit :=
  _ ← on_net (update_socket handle (TcpSocket.mark_connected local_addr peer_addr));
  modify (set_io (DynamicIo handle) (Some (Some io))).
Definition mark_dynamic_tcp_stream_failed (handle : Z) (message : string) : call unit :=
  _ ← on_net (update_socket handle (TcpSocket.mark_failed message));
  modify (set_io (DynamicIo handle) None).
Definition mark_dynamic_tcp_stream_eof (handle : Z) : call unit := on_net (update_socket handle TcpSocket.mark_read_eof).
Definition clear_dynamic_tcp_stream_eof (handle : Z) : call unit := on_net (update_socket handle TcpSocket.clear_read_eof).

(** [note_stream_read] and [note_stream_write] *)
Definition note_stream (note : TcpFlowState -> TcpFlowState) (stream : TcpStreamHandle) : call unit :=
  match stream with
  | Reserved r => modify (update_flow r note)
  | OutboundExchange handle =>
      w ← get_state;
      match exchange_transport handle w.(http) with
      | None => throw Panics
      | Some t => modify (fun w => w <| http := set_exchange_transport handle (t <| tcp_flow := note (tcp_flow t) |>) w.(http) |>)
      end
  | Dynamic _ => mret tt
  end.

(** The phases in which a socket is not to be connected. *)
Definition phase_refusal (phase : TcpSocketPhase) : option string :=
  match phase with
  | TcpSocket.UpgradedTls => Some " is already owned by the tls DAG"
  | TcpSocket.AttachedMqtt => Some " is already attached to an mqtt session"
  | TcpSocket.AttachedHttp => Some " is already attached to an http exchange"
  | TcpSocket.AttachedProxy => Some " is already attached to a proxy tunnel"
  | TcpSocket.Closed => Some " is closed"
  | TcpSocket.Failed => Some " is failed"
  | TcpSocket.Inactive | TcpSocket.Bound | TcpSocket.Configured | TcpSocket.Connected => None
  end.
Definition dynamic_handle (handle : Z) : string := "dynamic tcp stream handle " +:+ dec handle.

(** The loop over the resolved addresses. *)
Fixpoint connect_any (handle : Z) (bind_address : option string) (resolved : list SocketAddr) (last_error : option string) : call unit :=
  match resolved with
  | [] =>
      let message := default "no resolved tcp target addresses were usable" last_error in
      _ ← mark_dynamic_tcp_stream_failed handle message;
      host_error ("failed to connect tcp stream handle " +:+ dec handle +:+ ": " +:+ message)
  | peer :: resolved =>
      socket ← on_net (outside (fun i => new_socket i (is_ipv4 peer)));
      _ ← or_host_error socket (fun err => "failed to create tcp socket: " +:+ err);
      usable ← match bind_address with
               | None => mret true
               | Some address =>
                   local ← or_host_error (parse_addr address) (fun err => "invalid tcp bind address '" +:+ address +:+ "': " +:+ err);
                   if negb (Bool.eqb (is_ipv4 local) (is_ipv4 peer)) then mret false
                   else
                     bound ← on_net (outside (fun i => bind i local));
                     _ ← or_host_error bound (fun err => "failed to bind tcp socket to " +:+ addr_str local +:+ ": " +:+ err);
                     mret true
               end;
      if (usable : bool) then
        answer ← on_net (outside (fun i => connect i peer));
        match answer with
        | Ok (io, local, peer) =>
            local ← or_host_error local (fun err => "failed to read local tcp addr: " +:+ err);
            peer ← or_host_error peer (fun err => "failed to read peer tcp addr: " +:+ err);
            store_connected_dynamic_tcp_stream handle io (addr_str local) (addr_str peer)
        | Err err => connect_any handle bind_address resolved (Some err)
        end
      else connect_any handle bind_address resolved
             (Some ("tcp bind address family does not match resolved peer " +:+ addr_str peer))
  end.

(** The connected stream is in the tables afterwards. *)
Definition ensure_dynamic_tcp_stream_connected (stream : Z) : call unit :=
  d ← decode_stream stream;
  match d with
  | Dynamic handle =>
      w ← get_state;
      match io_of (DynamicIo handle) w with
      | Some _ => mret tt
      | None =>
          state ← dynamic_tcp_socket_state handle;
          match phase_refusal (TcpSocket.phase state) with
          | Some message => host_error (dynamic_handle handle +:+ message)
          | None =>
              target ← or_error (ok_or (HostError (dynamic_handle handle +:+ " has no target; call tcp::stream::set_target first"))
                                  (TcpSocket.target state));
              resolved ← on_net (outside (fun i => lookup_host i target));
              resolved ← or_host_error resolved (fun err => "failed to resolve tcp target '" +:+ target +:+ "': " +:+ err);
              connect_any handle (TcpSocket.bind_address state) resolved None
          end
      end
  | _ => throw (Error mutable_dynamic_tcp_stream_only)
  end.

Definition no_active_transport (handle : Z) : string := dynamic_handle handle +:+ " has no active transport".

(** ** Reading *)

(** The reads of [stream_read] and [read_stream_binary_chunk]. *)
Definition read_stream_binary_chunk (stream : TcpStreamHandle) (max_bytes : nat) : call (list Z) :=
  match stream with
  | Reserved TcpDownstream =>
      w ← get_state;
      match downstream_now w with
      | Raw s => or_mark_failed (read_attached_downstream_with_preread s max_bytes)
      | Pending => host_error (pending_handshake "or close the stream")
      | Buffered => on_http (read_request_body_next_chunk max_bytes)
      end
  | Reserved TcpDefaultUpstream =>
      on_http (read_outbound_exchange_response_next_chunk HttpExchange.DEFAULT_UPSTREAM_EXCHANGE_HANDLE max_bytes)
  | OutboundExchange handle => on_http (read_outbound_exchange_response_next_chunk handle max_bytes)
  | Dynamic handle =>
      _ ← ensure_dynamic_tcp_stream_connected handle;
      bytes ← read_io (DynamicIo handle) (no_active_transport handle) (fun err => "tcp read failed: " +:+ err) max_bytes;
      _ ← (if bool_decide (bytes = []) then mark_dynamic_tcp_stream_eof handle else clear_dynamic_tcp_stream_eof handle);
      mret bytes
  end.

Definition stream_read_binary (stream max_bytes : Z) : call (list Z) :=
  stream ← decode_stream stream;
  max_bytes ← or_error (decode_chunk_size max_bytes);
  _ ← note_stream TcpFlow.note_read stream;
  read_stream_binary_chunk stream max_bytes.
Definition stream_read (stream max_bytes : Z) : call string :=
  chunk ← stream_read_binary stream max_bytes; mret (from_utf8_lossy chunk).

Fixpoint read_exact_loop (fuel want : nat) (stream : TcpStreamHandle) (out : list Z) : call (list Z) :=
  if bool_decide (want <= length out)%nat then mret out
  else
    match fuel with
    | O => throw OutOfFuel
    | S fuel =>
        chunk ← read_stream_binary_chunk stream (want - length out);
        if bool_decide (chunk = []) then
          host_error ("tcp::stream::read_exact_binary reached eof after " +:+ dec (len out) +:+ " of " +:+ dec (Z.of_nat want) +:+ " bytes")
        else read_exact_loop fuel want stream (out ++ chunk)
    end.
(** Every round adds a byte. *)
Definition stream_read_exact_binary (stream byte_count : Z) : call (list Z) :=
  if byte_count <? 0 then
    host_error ("tcp::stream::read_exact_binary byte_count must be non-negative, got " +:+ dec byte_count)
  else
    let want := Z.to_nat byte_count in
    stream ← decode_stream stream;
    _ ← note_stream TcpFlow.note_read stream;
    read_exact_loop want want stream [].

(** [stream_peek] and [stream_peek_binary], up to the name in their texts. *)
Definition peek_chunk (name : string) (stream max_bytes : Z) : call (list Z) :=
  stream ← decode_stream stream;
  max_bytes ← or_error (decode_chunk_size max_bytes);
  match stream with
  | Reserved TcpDownstream =>
      w ← get_state;
      match downstream_now w with
      | Raw s => or_mark_failed (peek_attached_downstream s max_bytes)
      | Pending => host_error (pending_handshake "or close the stream")
      | Buffered => host_error (name +:+ " on downstream requires an attached raw downstream tcp or tls plaintext transport")
      end
  | Dynamic _ => host_error (name +:+ " currently supports only the reserved downstream handle")
  | Reserved TcpDefaultUpstream | OutboundExchange _ => host_error (name +:+ " is unavailable for buffered HTTP stream handles")
  end.
Definition stream_peek (stream max_bytes : Z) : call string :=
  chunk ← peek_chunk "tcp::stream::peek" stream max_bytes; mret (from_utf8_lossy chunk).
Definition stream_peek_binary (stream max_bytes : Z) : call (list Z) := peek_chunk "tcp::stream::peek_binary" stream max_bytes.

Definition stream_eof (stream : Z) : call bool :=
  d ← decode_stream stream;
  match d with
  | Reserved TcpDownstream =>
      w ← get_state;
      match downstream_now w with
      | Raw _ | Pending => mret (attached_downstream_eof w)
      | Buffered => on_http request_body_eof
      end
  | Reserved TcpDefaultUpstream => on_http (outbound_exchange_response_eof HttpExchange.DEFAULT_UPSTREAM_EXCHANGE_HANDLE)
  | OutboundExchange handle => on_http (outbound_exchange_response_eof handle)
  | Dynamic handle =>
      state ← dynamic_tcp_socket_state handle;
      mret (bool_decide (TcpSocket.phase state = TcpSocket.Closed) || TcpSocket.read_eof state)
  end.

(** ** Writing *)

Definition write_bytes (stream : Z) (bytes : list Z) : call Z :=
  d ← decode_stream stream;
  _ ← note_stream TcpFlow.note_write d;
  _ ← match d with
      | Reserved TcpDownstream =>
          w ← get_state;
          match downstream_now w with
          | Raw s => or_mark_failed (write_attached_downstream s bytes)
          | Pending => host_error (pending_handshake "before writing plaintext")
          | Buffered => on_http (append_response_output_body_bytes bytes)
          end
      | Reserved TcpDefaultUpstream => on_http (append_outbound_exchange_body_bytes (tcp_handle TcpDefaultUpstream) bytes)
      | OutboundExchange handle => on_http (append_outbound_exchange_body_bytes handle bytes)
      | Dynamic handle =>
          _ ← ensure_dynamic_tcp_stream_connected handle;
          _ ← write_io (DynamicIo handle) (no_active_transport handle) "tcp" bytes;
          clear_dynamic_tcp_stream_eof handle
      end;
  mret (len bytes).
Definition stream_write (stream : Z) (text : string) : call Z := write_bytes stream (bytes_of_string text).
Definition stream_write_binary (stream : Z) (payload : Value) : call Z :=
  bytes ← or_error (value_to_bytes payload); write_bytes stream bytes.

(** ** The other calls *)

Definition stream_downstream : call Z := _ ← note_downstream_transport_access; mret (tcp_handle TcpDownstream).
Definition stream_default_upstream : call Z := mret (tcp_handle TcpDefaultUpstream).
Definition stream_new : call Z := on_net allocate_tcp_stream_handle.

Definition stream_is_present (stream : Z) : call bool :=
  d ← decode_stream stream;
  match d with
  | Reserved _ | OutboundExchange _ => mret true
  | Dynamic handle => state ← dynamic_tcp_socket_state handle; mret (TcpSocket.is_present state)
  end.

Definition stream_bind (stream : Z) (local_addr : string) : call unit :=
  with_mutable_dynamic_tcp_socket_state stream (modify (fun '(state, _) => (TcpSocket.set_bind_address local_addr state, None))).
Definition stream_set_target (stream : Z) (host : string) (port : Z) : call unit :=
  '(target, normalized_host, normalized_port) ← or_error (format_socket_authority host port "tcp");
  with_mutable_dynamic_tcp_socket_state stream
    (modify (fun '(state, _) => (TcpSocket.set_target target normalized_host normalized_port state, None))).
Definition stream_connect (stream : Z) : call bool := _ ← ensure_dynamic_tcp_stream_connected stream; mret true.

Definition stream_get_phase (stream : Z) : call string :=
  d ← decode_stream stream;
  w ← get_state;
  match d with
  | Reserved r => mret (TcpFlow.phase_label (tcp_dag r w.(http)))
  | OutboundExchange handle =>
      match exchange_transport handle w.(http) with
      | None => throw Panics
      | Some t => mret (TcpFlow.phase_label (tcp_flow t))
      end
  | Dynamic handle => state ← dynamic_tcp_socket_state handle; mret (TcpSocket.as_str (TcpSocket.phase state))
  end.

Definition address_text (a : option SocketAddr) : string := default "" (addr_str <$> a).
Definition stream_get_local_addr (stream : Z) : call string :=
  d ← decode_stream stream;
  match d with
  | Reserved TcpDownstream => w ← get_state; mret (address_text w.(downstream_local_addr))
  | Dynamic handle => state ← dynamic_tcp_socket_state handle; mret (TcpSocket.local_address state)
  | _ => mret ""
  end.
Definition stream_get_peer_addr (stream : Z) : call string :=
  d ← decode_stream stream;
  w ← get_state;
  match d with
  | Reserved TcpDownstream => mret (address_text w.(downstream_peer_addr))
  | Reserved TcpDefaultUpstream => mret (default "" (outbound_http_peer_addr w HttpExchange.DEFAULT_UPSTREAM_EXCHANGE_HANDLE))
  | OutboundExchange handle => mret (default "" (outbound_http_peer_addr w handle))
  | Dynamic handle => state ← dynamic_tcp_socket_state handle; mret (TcpSocket.peer_address state)
  end.

(** Closing the downstream shuts its streams down, TLS first. *)
Definition close_downstream (w : World) : World :=
  let gone io := match io with Some (Some s) => [s] | _ => [] end in
  let streams := gone w.(downstream_tls_io) ++ gone w.(downstream_tcp_io) in
  let w := w <| downstream_tcp_io := None |> <| downstream_tls_io := None |> <| downstream_preread_buffer := [] |>
             <| downstream_tls_server_start := None |> in
  let w := if TlsFlow.present (tls_dag TlsDownstream w.(http)) then update_tls TlsDownstream TlsFlow.mark_closed w else w in
  let w := update_flow TcpDownstream TcpFlow.mark_closed (w <| downstream_read_eof := true |>) in
  w <| net := w.(net) <| dropped := w.(net).(dropped) ++ streams |> |>.

Definition stream_close (stream : Z) : call unit :=
  d ← decode_stream stream;
  match d with
  | Reserved TcpDownstream => modify close_downstream
  | Reserved _ | OutboundExchange _ => throw (Error mutable_dynamic_tcp_stream_only)
  | Dynamic _ => with_mutable_dynamic_tcp_socket_state stream (modify (fun '(state, _) => (TcpSocket.mark_closed state, None)))
  end.

End calls.
Arguments World {_ _} _.
End TcpStreams.
