(* ===== verification/TcpCalls.v ===== *)
(** Properties of the TCP host calls.  An open stream, of the downstream or of a
    socket of the program's own, is a pipe: the bytes that are still to be read
    and those that were written.  Every call moves the pipe of its handle as its
    name says and leaves all other pipes alone. *)

From S2P Require Import Prelude Bytes Effects TransportState TlsFlow TlsConfig HttpExchange Sockets TcpStreams.

Module TcpCalls.
Import Handles Sockets TcpStreams.
Import TcpFlow (TcpFlowState).
Import TcpSocket (TcpSocketState, TcpSocketPhase).
Import TlsFlow (TlsFlowState).
Import TlsConfig (TlsCrate, PreparedConfig).
Import HttpExchange (AuthorityCrate).

#[local] Existing Instances HttpExchange.eta_transport TcpSocket.TcpSocketPhase_eq_dec.

(** ** Pipes *)

(** The bytes a peer will have sent when it is done. *)
Fixpoint data_of (l : list (Z * arrival)) : list Z :=
  match l with
  | [] => []
  | (_, Data b more) :: l => b :: more ++ data_of l
  | (_, ReadError _) :: l => data_of l
  | (_, Eof) :: _ => []
  end.

Record pipe := MkPipe { unread : list Z; written : list Z }.

Lemma read_data max now s : (0 < max)%nat ->
  let '(r, now', s') := read max None now s in
  sent s' = sent s /\
  match r with
  | ReadBytes l => data_of (incoming s) = l ++ data_of (incoming s') /\ (length l <= max)%nat /\ (l = [] -> data_of (incoming s) = [])
  | ReadFailed _ => data_of (incoming s') = data_of (incoming s)
  | ReadElapsed => False
  | ReadNever => s' = s
  end.
Proof.
  intros Hmax. unfold read. destruct s as [inc o rc sn]. cbn [incoming].
  destruct inc as [|[at_ a] rest]; [done|]. destruct a as [b l|e|]; cbn [incoming sent set_field]; [|done|].
  - split; [done|]. destruct max as [|max]; [lia|]. cbn [take drop].
    split_and!; [|cbn; rewrite length_take; lia|done].
    destruct (drop max l) as [|c k] eqn:E; cbn.
    + by rewrite take_ge by (rewrite <-(take_drop max l), E, length_app, length_take; cbn; lia).
    + change (c :: k ++ data_of rest) with ((c :: k) ++ data_of rest). by rewrite <-E, app_assoc, take_drop.
  - split_and!; [done|done|cbn; lia|done].
Qed.

(** ** Requests *)

Section calls.
Context `{NW : Network} `{NL : !NetworkLaws} `{AC : AuthorityCrate} `{VA : Values} `{ET : ErrorText} {Http : Type} `{HS : HttpSide Http}.
Abbreviation world := (World Http).

Inductive request :=
| IsPresent | Bind (local_addr : string) | SetTarget (host : string) (port : Z) | Connect
| GetPhase | GetLocalAddr | GetPeerAddr | AtEof | Close
| Read (max_bytes : Z) | ReadBinary (max_bytes : Z) | ReadExact (byte_count : Z)
| Peek (max_bytes : Z) | PeekBinary (max_bytes : Z)
| Write (text : string) | WriteBinary (payload : Value).

Inductive reply := NoValue | Flag (b : bool) | Text (s : string) | Count (n : Z) | Bytes (l : list Z).

Definition serve (stream : Z) (q : request) : call reply :=
  match q with
  | IsPresent => Flag <$> stream_is_present stream
  | Bind a => (fun _ => NoValue) <$> stream_bind stream a
  | SetTarget h p => (fun _ => NoValue) <$> stream_set_target stream h p
  | Connect => Flag <$> stream_connect stream
  | GetPhase => Text <$> stream_get_phase stream
  | GetLocalAddr => Text <$> stream_get_local_addr stream
  | GetPeerAddr => Text <$> stream_get_peer_addr stream
  | AtEof => Flag <$> stream_eof stream
  | Close => (fun _ => NoValue) <$> stream_close stream
  | Read n => Text <$> stream_read stream n
  | ReadBinary n => Bytes <$> stream_read_binary stream n
  | ReadExact n => Bytes <$> stream_read_exact_binary stream n
  | Peek n => Text <$> stream_peek stream n
  | PeekBinary n => Bytes <$> stream_peek_binary stream n
  | Write t => Count <$> stream_write stream t
  | WriteBinary v => Count <$> stream_write_binary stream v
  end.

(** What a call reads, looks at or writes. *)
Definition reads (q : request) : option (Z * (list Z -> reply)) :=
  match q with
  | Read n => Some (n, fun c => Text (from_utf8_lossy c))
  | ReadBinary n => Some (n, Bytes)
  | _ => None
  end.
Definition peeks (q : request) : option (Z * (list Z -> reply)) :=
  match q with
  | Peek n => Some (n, fun c => Text (from_utf8_lossy c))
  | PeekBinary n => Some (n, Bytes)
  | _ => None
  end.
Definition writes (q : request) : option (list Z) :=
  match q with Write t => Some (bytes_of_string t) | WriteBinary v => as_bytes v | _ => None end.
Definition resets (q : request) : bool :=
  match q with Bind _ | SetTarget _ _ | Close => true | _ => false end.
Definition looks (q : request) : bool :=
  match q with IsPresent | Connect | GetPhase | GetLocalAddr | GetPeerAddr => true | _ => false end.

(** How a call that ends with [r] moves the pipe of its handle; [None] is a
    handle without an open stream. *)
Inductive moves (q : request) (r : result ended reply) : option pipe -> option pipe -> Prop :=
| moves_opened d o : moves q r (Some (MkPipe d [])) o -> moves q r None o
| moves_absent : moves q r None None
| moves_looked p : looks q = true -> moves q r (Some p) (Some p)
| moves_read n f c rest p :
    reads q = Some (n, f) -> r = Ok (f c) -> len c <= n -> (c = [] -> rest = []) -> p.(unread) = c ++ rest ->
    moves q r (Some p) (Some (MkPipe rest p.(written)))
| moves_exact n c rest p :
    q = ReadExact n -> r = Ok (Bytes c) -> len c = n -> p.(unread) = c ++ rest ->
    moves q r (Some p) (Some (MkPipe rest p.(written)))
| moves_peeked n f c rest p :
    peeks q = Some (n, f) -> r = Ok (f c) -> len c <= n -> (c = [] -> rest = []) -> p.(unread) = c ++ rest ->
    moves q r (Some p) (Some p)
| moves_eof b p : q = AtEof -> r = Ok (Flag b) -> (b = true -> p.(unread) = []) -> moves q r (Some p) (Some p)
| moves_written l p :
    writes q = Some l -> r = Ok (Count (len l)) -> moves q r (Some p) (Some (MkPipe p.(unread) (p.(written) ++ l)))
| moves_refused e p : r = Err (Error e) -> moves q r (Some p) (Some p)
| moves_partly_written e l part p :
    r = Err (Error e) -> writes q = Some l -> part `prefix_of` l ->
    moves q r (Some p) (Some (MkPipe p.(unread) (p.(written) ++ part)))
| moves_lost e n lost rest p :
    r = Err (Error e) -> q = ReadExact n -> p.(unread) = lost ++ rest -> moves q r (Some p) (Some (MkPipe rest p.(written)))
| moves_failed e p : r = Err (Error e) -> moves q r (Some p) None
| moves_reset p : resets q = true -> moves q r (Some p) None
| moves_waits p o : r = Err Hangs -> moves q r (Some p) o.

(** The pipe of a handle. *)
Definition pipe_of (before : list Z) (io : option SharedIo) : option pipe :=
  match io with
  | Some (Some s) => Some (MkPipe (before ++ data_of s.(incoming)) s.(sent))
  | _ => None
  end.
Definition stream_at (stream : Z) (w : world) : option pipe :=
  match decode_tcp_stream_handle stream with
  | Some TcpDownstream =>
      match downstream_now w with Raw s => pipe_of w.(downstream_preread_buffer) (io_of s w) | _ => None end
  | Some TcpDefaultUpstream => None
  | None => pipe_of [] (io_of (DynamicIo stream) w)
  end.

(** ** The invariant *)

(** The end of a stream is noted only when it was reached. *)
Definition eof_true (eof : bool) (io : option SharedIo) : Prop :=
  match io with Some (Some s) => eof = true -> data_of s.(incoming) = [] | _ => True end.
Definition seems_over (st : TcpSocketState) : bool := bool_decide (TcpSocket.phase st = TcpSocket.Closed) || TcpSocket.read_eof st.
Definition dynamic_ok (h : Z) (w : world) : Prop :=
  match w.(net).(tcp_streams) !! h with
  | Some st => eof_true (seems_over st) (io_of (DynamicIo h) w)
  | None => io_of (DynamicIo h) w = None
  end.
Definition downstream_ok (w : world) : Prop :=
  match downstream_now w with Raw s => eof_true w.(downstream_read_eof) (io_of s w) | _ => True end.
Definition ok (w : world) : Prop := downstream_ok w /\ forall h, dynamic_ok h w.

(** What a call on one handle leaves alone. *)
Definition same_dynamic (w0 w : world) (h : Z) : Prop :=
  w.(net).(tcp_streams) !! h = w0.(net).(tcp_streams) !! h /\ io_of (DynamicIo h) w = io_of (DynamicIo h) w0.
Definition same_downstream (w0 w : world) : Prop :=
  w.(downstream_tcp_io) = w0.(downstream_tcp_io) /\ w.(downstream_tls_io) = w0.(downstream_tls_io) /\
  w.(downstream_preread_buffer) = w0.(downstream_preread_buffer) /\ w.(downstream_read_eof) = w0.(downstream_read_eof) /\
  w.(downstream_tls_server_start) = w0.(downstream_tls_server_start).

Lemma same_downstream_now w0 w : same_downstream w0 w -> downstream_now w = downstream_now w0.
Proof. intros (H1 & H2 & H3 & H4 & H5). unfold downstream_now. by rewrite H1, H2, H5. Qed.
Lemma same_downstream_io w0 w s : same_downstream w0 w -> downstream_now w0 = Raw s -> io_of s w = io_of s w0.
Proof.
  intros (H1 & H2 & _). unfold downstream_now. destruct s; [done|done|].
  destruct (downstream_tls_io w0); [done|]. destruct (downstream_tcp_io w0); [done|]. by case_bool_decide.
Qed.
Lemma same_downstream_ok w0 w : same_downstream w0 w -> downstream_ok w0 -> downstream_ok w.
Proof.
  intros Hs. pose proof Hs as (_ & _ & _ & He & _). unfold downstream_ok. rewrite (same_downstream_now _ _ Hs).
  destruct (downstream_now w0) eqn:Hn; [|done..]. by rewrite He, (same_downstream_io _ _ _ Hs Hn).
Qed.
Lemma same_dynamic_ok w0 w h : same_dynamic w0 w h -> dynamic_ok h w0 -> dynamic_ok h w.
Proof. intros [H1 H2]. unfold dynamic_ok. by rewrite H1, H2. Qed.
Lemma same_dynamic_refl w h : same_dynamic w w h.
Proof. done. Qed.
Lemma same_downstream_refl w : same_downstream w w.
Proof. done. Qed.

(** ** One call *)

#[local] Instance slot_eq_dec : EqDecision slot.
Proof. solve_decision. Defined.

Lemma io_of_set_io s s' io (w : world) : io_of s' (set_io s io w) = if decide (s = s') then io else io_of s' w.
Proof.
  destruct s, s'; cbn; try done; case_decide; simplify_eq; try done;
    by rewrite ?lookup_partial_alter_eq, ?lookup_partial_alter_ne by congruence.
Qed.

Lemma set_io_twice s a b (w : world) : set_io s b (set_io s a w) = set_io s b w.
Proof. destruct w, s; cbn; try done. unfold set_field. cbn. by rewrite partial_alter_partial_alter_eq. Qed.

Definition tick (now : Z) (w : world) : world := w <| net := w.(net) <| clock := now |> |>.

Lemma read_io_run s unavailable failed n (w : world) io : (0 < n)%nat -> io_of s w = Some (Some io) ->
  exists r now io', read_io s unavailable failed n w = (r, tick now (set_io s (Some (Some io')) w)) /\
    match r with
    | Ok c => sent io' = sent io /\ data_of (incoming io) = c ++ data_of (incoming io') /\ (length c <= n)%nat /\
        (c = [] -> data_of (incoming io) = [])
    | Err x => (x = Hangs \/ exists e, x = Error e) /\ sent io' = sent io /\ data_of (incoming io') = data_of (incoming io)
    end.
Proof.
  intros Hn Hio. unfold read_io, mbind, eff_bind. cbn -[read]. rewrite Hio.
  pose proof (read_data n (clock (net w)) io Hn) as Hr. destruct (read n None (clock (net w)) io) as [[r now] io'].
  destruct Hr as [Hs Hr]. destruct r; cbn; [| |done|]; eexists _, now, io'; (split; [done|]).
  - by destruct Hr as (? & ? & ?).
  - split_and!; [right; by eexists|done..].
  - subst io'. split_and!; [by left|done..].
Qed.

Lemma write_io_run s unavailable what l (w : world) io : io_of s w = Some (Some io) ->
  exists r io' part, write_io s unavailable what l w = (r, set_io s (Some (Some io')) w) /\
    incoming io' = incoming io /\ sent io' = sent io ++ part /\ part `prefix_of` l /\
    match r with Ok _ => part = l | Err x => exists e, x = Error e end.
Proof.
  intros Hio. unfold write_io, mbind, eff_bind. cbn -[write_all flush]. rewrite Hio.
  unfold write_all. destruct (outcomes io) as [|[[k e]|] o] eqn:Ho; cbn -[flush].
  - unfold flush. cbn. eexists _, _, l. rewrite set_io_twice. split; [done|]. by split_and!.
  - eexists _, _, (take k l). split; [done|]. split_and!; [done|done|apply prefix_take|by eexists].
  - unfold flush. cbn. destruct o as [|[[k e]|] o]; cbn; eexists _, _, l; rewrite set_io_twice; split; try done; split_and!; try done.
    by eexists.
Qed.

Definition sane (x : ended) : Prop := x = Hangs \/ exists e, x = Error e.

Section one.
Context (stream : Z) (w0 : world).

(** Nothing but this handle's own things has changed. *)
Definition framed (w : world) : Prop :=
  (forall h, h ≠ stream -> same_dynamic w0 w h) /\ (stream ≠ TCP_STREAM_DOWNSTREAM -> same_downstream w0 w).

(** What is to be shown of a call. *)
Record final (q : request) (r : result ended reply) (w : world) : Prop := {
  fin_framed : framed w;
  fin_downstream : downstream_ok w;
  fin_dynamic : dynamic_ok stream w;
  fin_moves : moves q r (stream_at stream w0) (stream_at stream w);
  fin_sane : is_Some (stream_at stream w0) \/
      decode_tcp_stream_handle stream = None /\ is_Some (w0.(net).(tcp_streams) !! stream) ->
    match r with Err x => sane x | Ok _ => True end;
}.

Definition quiet (w : world) : Prop := (forall h, same_dynamic w0 w h) /\ same_downstream w0 w.

Lemma quiet_refl : quiet w0.
Proof. done. Qed.

Lemma quiet_stream_at h w : quiet w -> stream_at h w = stream_at h w0.
Proof.
  intros [Hd Hs]. unfold stream_at. destruct (decode_tcp_stream_handle h) as [[|]|]; [|done|].
  - rewrite (same_downstream_now _ _ Hs). destruct (downstream_now w0) eqn:Hn; [|done..].
    rewrite (same_downstream_io _ _ _ Hs Hn). by destruct Hs as (_ & _ & -> & _).
  - by destruct (Hd h) as [_ ->].
Qed.

Context (Hok : ok w0).

Lemma quiet_final q r w :
  quiet w -> moves q r (stream_at stream w0) (stream_at stream w0) ->
  (is_Some (stream_at stream w0) \/ decode_tcp_stream_handle stream = None /\ is_Some (w0.(net).(tcp_streams) !! stream) ->
     match r with Err x => sane x | Ok _ => True end) ->
  final q r w.
Proof.
  intros Hq Hm Hs. pose proof (quiet_stream_at stream w Hq) as He. destruct Hq as [Hd Hds]. split; [by split| | |by rewrite He|done].
  - eapply same_downstream_ok; [done|apply Hok].
  - eapply same_dynamic_ok; [done|apply Hok].
Qed.
Lemma quiet_refused q e w : quiet w -> final q (Err (Error e)) w.
Proof.
  intros Hq. apply quiet_final; [done| |intros _; right; by eexists].
  destruct (stream_at stream w0); [by eapply moves_refused|apply moves_absent].
Qed.
Lemma quiet_looked q a w : looks q = true -> quiet w -> final q (Ok a) w.
Proof.
  intros Hl Hq. apply quiet_final; [done| |done].
  destruct (stream_at stream w0); [by apply moves_looked|apply moves_absent].
Qed.

(** *** Handles *)

Definition kind (d : TcpStreamHandle) : Prop :=
  match d with
  | Reserved r => decode_tcp_stream_handle stream = Some r
  | Dynamic h => h = stream /\ decode_tcp_stream_handle stream = None /\ is_Some (w0.(net).(tcp_streams) !! stream)
  | OutboundExchange h => h = stream /\ decode_tcp_stream_handle stream = None /\ w0.(net).(tcp_streams) !! stream = None
  end.

Lemma triple_decode :
  triple (eq w0) (decode_stream stream)
    (fun d w => (quiet w /\ (forall h, d = OutboundExchange h -> is_Some (exchange_transport h w.(http)))) /\ kind d)
    (fun e w => quiet w /\ exists m, e = Error m).
Proof.
  intros w <-. unfold decode_stream. destruct (decode_tcp_stream_handle stream) as [[|]|] eqn:Hd; [by split_and!..|].
  unfold mbind, eff_bind. cbn. unfold tcp_stream_exists, outbound_exchange_exists.
  destruct (bool_decide_reflect (is_Some (tcp_streams (net w0) !! stream))) as [Ht|Ht]; cbn; [by split_and!|].
  destruct (bool_decide_reflect (is_Some (exchange_transport stream (http w0)))) as [He|He]; cbn.
  - split; [split; [apply quiet_refl|by intros h [= <-]]|]. split_and!; [done..|]. by apply eq_None_not_Some.
  - split; [apply quiet_refl|]. by eexists.
Qed.

Lemma quiet_http {A} (m : eff ended Http A) : triple quiet (on_http m) (fun _ => quiet) (fun _ => quiet).
Proof. intros w Hw. unfold on_http, zoom. by destruct (m (http w)) as [[a|e] h]. Qed.

(** A handle of the HTTP side alone. *)
Definition buffered : Prop := stream_at stream w0 = None /\ (decode_tcp_stream_handle stream = None -> w0.(net).(tcp_streams) !! stream = None).
Lemma buffered_final q r w : buffered -> quiet w -> final q r w.
Proof.
  intros [Hn Hd] Hq. apply quiet_final; [done..| |].
  - rewrite Hn. apply moves_absent.
  - intros [[? Hs]|[Hk [? Hs]]]; [by rewrite Hn in Hs|]. by rewrite (Hd Hk) in Hs.
Qed.

(** *** A read, piece by piece *)

Definition held (w : world) : Prop := framed w /\ downstream_ok w /\ dynamic_ok stream w.

(** The pipe the call works on: the open one, or that of a new connection. *)
Definition starts (p : pipe) : Prop := stream_at stream w0 = Some p \/ stream_at stream w0 = None /\ p.(written) = [].
Lemma moves_starts q r p o : starts p -> moves q r (Some p) o -> moves q r (stream_at stream w0) o.
Proof. intros [->|[-> Hp]]; [done|]. destruct p as [d wr]. cbn in Hp. subst wr. apply moves_opened. Qed.

(** [out] was taken from the front of the pipe. *)
Definition took (out : list Z) (w : world) : Prop :=
  held w /\ exists p rest, starts p /\ p.(unread) = out ++ rest /\ stream_at stream w = Some (MkPipe rest p.(written)).
(** Open, or not yet touched. *)
Definition openable (out : list Z) (w : world) : Prop := took out w \/ out = [] /\ quiet w.
Definition broke (out : list Z) (x : ended) (w : world) : Prop :=
  held w /\ sane x /\ (x = Hangs \/ took out w \/ stream_at stream w = None).

Definition at_end (w : world) : Prop := exists wr, stream_at stream w = Some (MkPipe [] wr).

Lemma quiet_held w : quiet w -> held w.
Proof.
  intros [Hd Hs]. split_and!; [by split|by eapply same_downstream_ok; [|apply Hok]|eapply same_dynamic_ok; [done|apply Hok]].
Qed.
Lemma quiet_took w : quiet w -> is_Some (stream_at stream w0) -> took [] w.
Proof.
  intros Hq [[rest wr] Hp]. split; [by apply quiet_held|]. exists (MkPipe rest wr), rest.
  rewrite (quiet_stream_at _ _ Hq). by split_and!; [left| |].
Qed.

Lemma broke_final q x w : broke [] x w -> final q (Err x) w.
Proof.
  intros ((Hf & Hd & Hy) & Hs & Hx). split; [done..| |done].
  destruct Hx as [->|[Ht|Hn]].
  - destruct (stream_at stream w0) as [p|]; [by apply moves_waits|].
    destruct (stream_at stream w) as [p'|]; [|apply moves_absent].
    apply (moves_opened _ _ []). by apply moves_waits.
  - destruct Ht as (_ & p & rest & Hp & Hu & ->). eapply moves_starts; [done|]. cbn in Hu. rewrite <-Hu. destruct p as [d wr].
    destruct Hs as [->|[e ->]]; [by apply moves_waits|by eapply moves_refused].
  - rewrite Hn. destruct (stream_at stream w0) as [p|]; [|apply moves_absent].
    destruct Hs as [->|[e ->]]; [by apply moves_waits|by eapply moves_failed].
Qed.

Lemma took_read_final q n f c w :
  reads q = Some (n, f) -> took c w -> len c <= n -> (c = [] -> at_end w) -> final q (Ok (f c)) w.
Proof.
  intros Hq [(Hf & Hd & Hy) (p & rest & Hp & Hu & Ha)] Hl He. split; [done..| |done].
  rewrite Ha. eapply moves_starts; [done|]. eapply moves_read; try done.
  intros Hc. destruct (He Hc) as [wr Hw]. congruence.
Qed.

(** *** Reading, from either kind of stream *)

Section reading.
Context (d : TcpStreamHandle) (Hkind : forall d', kind d' -> d' = d) (Hd : forall h, d ≠ OutboundExchange h).
Context (Hchunk : forall out n, (0 < n)%nat -> triple (openable out) (read_stream_binary_chunk d n)
  (fun c w => took (out ++ c) w /\ (length c <= n)%nat /\ (c = [] -> at_end w)) (broke out)).

Lemma triple_decoded : triple (eq w0) (decode_stream stream) (fun d' w => quiet w /\ d' = d) (fun x w => quiet w /\ exists e, x = Error e).
Proof. eapply triple_weaken; [apply triple_decode|done|intros d' w [[? _] ?]; auto|done]. Qed.
Lemma triple_note note (R : ended -> world -> Prop) : triple quiet (note_stream note d) (fun _ => quiet) R.
Proof. clear Hchunk Hkind. intros w Hw. destruct d as [r|h|h]; [done|done|by destruct (Hd h)]. Qed.

Lemma triple_read q n f : reads q = Some (n, f) ->
  triple (eq w0) (stream_read_binary stream n) (fun c => final q (Ok (f c))) (fun x => final q (Err x)).
Proof.
  intros Hq. unfold stream_read_binary. eapply triple_bind.
  { eapply triple_weaken; [apply triple_decoded|done|intros d' w Hw; exact Hw|]. intros x w [Hw [e ->]]. by apply quiet_refused. }
  intros d'. apply triple_fact. intros ->. eapply triple_bind.
  { apply (triple_or_error quiet (fun x => final q (Err x))). intros e w. apply quiet_refused. }
  intros k. apply triple_fact. intros Hk. unfold decode_chunk_size in Hk. destruct (Z.leb_spec n 0); simplify_eq.
  eapply triple_bind; [apply triple_note|]. intros []. eapply triple_weaken; [apply (Hchunk [] (Z.to_nat n)); lia|by right| |].
  - intros c w (Ht & Hl & Hc). cbn in Ht. eapply took_read_final; try done. unfold len. lia.
  - intros x w. apply broke_final.
Qed.

Lemma exact_loop fuel want out :
  (length out <= want)%nat -> (want <= fuel + length out)%nat ->
  triple (openable out) (read_exact_loop fuel want d out) (fun c w => openable c w /\ length c = want) (fun x w => exists lost, broke lost x w).
Proof.
  revert out; induction fuel as [|fuel IH]; intros out Hl Hf; cbn [read_exact_loop].
  - rewrite bool_decide_true by lia. apply triple_ret. intros w Hw. split; [done|lia].
  - case_bool_decide as Hc; [apply triple_ret; intros w Hw; split; [done|lia]|].
    eapply triple_bind; [eapply triple_weaken; [apply (Hchunk out (want - length out)); lia|done|intros c w Hw; exact Hw|by intros; eexists]|].
    intros c. case_bool_decide as He.
    + apply triple_host_error. intros w (Ht & _). exists (out ++ c). split; [apply Ht|]. split; [right; by eexists|]. right. by left.
    + apply (triple_weaken _ (fun w => openable (out ++ c) w /\ (length c <= want - length out)%nat) _ _
        (fun c w => openable c w /\ length c = want) _ (fun x w => exists lost, broke lost x w)); [|intros w (? & ? & _); split; [by left|done]|done|done].
      apply triple_fact. intros Hlc. assert (0 < length c)%nat by (destruct c; [done|cbn; lia]).
      apply IH; rewrite length_app; lia.
Qed.

Lemma triple_read_exact n :
  triple (eq w0) (stream_read_exact_binary stream n) (fun c => final (ReadExact n) (Ok (Bytes c))) (fun x => final (ReadExact n) (Err x)).
Proof.
  unfold stream_read_exact_binary. destruct (Z.ltb_spec n 0).
  { apply triple_host_error. intros w <-. apply quiet_refused, quiet_refl. }
  eapply triple_bind.
  { eapply triple_weaken; [apply triple_decoded|done|intros d' w Hw; exact Hw|]. intros x w [Hw [e ->]]. by apply quiet_refused. }
  intros d'. apply triple_fact. intros ->. eapply triple_bind; [apply triple_note|]. intros [].
  eapply triple_weaken; [apply (exact_loop (Z.to_nat n) (Z.to_nat n) []); cbn; lia|by right| |].
  - intros c w [Ho Hl]. assert (Hc : took c w \/ quiet w /\ stream_at stream w0 = None).
    { destruct Ho as [|[-> Hq]]; [by left|]. destruct (stream_at stream w0) eqn:E0; [left; apply quiet_took; by rewrite ?E0|by right]. }
    destruct Hc as [[(Hf & Hds & Hy) (p & rest & Hp & Hu & Ha)]|[Hq Hn]].
    + split; [done..| |done]. rewrite Ha. eapply moves_starts; [done|]. eapply moves_exact; try done. unfold len. lia.
    + apply quiet_final; [done| |done]. rewrite Hn. apply moves_absent.
  - intros x w [lost ((Hf & Hds & Hy) & Hs & Hx)]. split; [done..| |done].
    destruct Hx as [->|[Ht|Hn]].
    + destruct (stream_at stream w0); [by apply moves_waits|]. destruct (stream_at stream w); [|apply moves_absent].
      apply (moves_opened _ _ []). by apply moves_waits.
    + destruct Ht as (_ & p & rest & Hp & Hu & ->). eapply moves_starts; [done|].
      destruct Hs as [->|[e ->]]; [by apply moves_waits|by eapply moves_lost].
    + rewrite Hn. destruct (stream_at stream w0); [|apply moves_absent].
      destruct Hs as [->|[e ->]]; [by apply moves_waits|by eapply moves_failed].
Qed.

End reading.

(** *** Sockets of the program *)

Section dynamic.
Context (Hkind : decode_tcp_stream_handle stream = None).

(** The state of the socket and its stream. *)
Record dy (st : TcpSocketState) (io : option SharedIo) (w : world) : Prop := {
  dy_framed : framed w;
  dy_state : w.(net).(tcp_streams) !! stream = Some st;
  dy_io : io_of (DynamicIo stream) w = io;
}.

Lemma not_downstream : stream ≠ TCP_STREAM_DOWNSTREAM.
Proof. intros ->. discriminate Hkind. Qed.

Lemma dy_stream_at st io w : dy st io w -> stream_at stream w = pipe_of [] io.
Proof. intros [_ _ Hio]. unfold stream_at. by rewrite Hkind, Hio. Qed.
Lemma dy_final q r st io w :
  dy st io w -> eof_true (seems_over st) io -> moves q r (stream_at stream w0) (pipe_of [] io) ->
  match r with Err x => sane x | Ok _ => True end -> final q r w.
Proof.
  intros Hw He Hm Hs. pose proof (dy_stream_at _ _ _ Hw) as Ha. destruct Hw as [Hf Hst Hio]. split; [done| | |by rewrite Ha|done].
  - destruct Hf as [_ Hf]. eapply same_downstream_ok; [apply Hf, not_downstream|apply Hok].
  - unfold dynamic_ok. by rewrite Hst, Hio.
Qed.

Lemma dy_update st io f (R : ended -> world -> Prop) :
  triple (dy st io) (on_net (update_socket stream f)) (fun _ => dy (f st) io) R.
Proof.
  intros w [[Hf1 Hf2] Hst Hio]. cbn. split; [split| |done].
  - intros h Hh. destruct (Hf1 h Hh) as [Hs Hi]. split; [|done]. cbn. by rewrite lookup_alter_ne.
  - done.
  - cbn. by rewrite lookup_alter_eq, Hst.
Qed.
Lemma dy_set_io st io io' (R : ended -> world -> Prop) :
  triple (dy st io) (modify (set_io (DynamicIo stream) io')) (fun _ => dy st io') R.
Proof.
  intros w [[Hf1 Hf2] Hst Hio]. cbn. split; [split| |].
  - intros h Hh. destruct (Hf1 h Hh) as [Hs Hi]. split; [done|]. cbn in Hi |- *. by rewrite lookup_partial_alter_ne.
  - done.
  - done.
  - cbn. by rewrite lookup_partial_alter_eq.
Qed.
Lemma dy_outside {A} st io (f : nat -> A) (R : ended -> world -> Prop) :
  triple (dy st io) (on_net (outside f)) (fun a w => dy st io w /\ exists i, a = f i) R.
Proof. intros w [Hf Hst Hio]. cbn. split; [by split|by eexists]. Qed.
Lemma dy_state_of st io (R : ended -> world -> Prop) :
  triple (dy st io) (dynamic_tcp_socket_state stream) (fun st' w => dy st io w /\ st' = st) R.
Proof. intros w [Hf Hst Hio]. unfold dynamic_tcp_socket_state, mbind, eff_bind. cbn. rewrite Hst. by split. Qed.

(** Refused or failed, with nothing open. *)
Definition dy_failed (x : ended) (w : world) : Prop := (exists e, x = Error e) /\ exists st, dy st None w.
Lemma failed_here st e w : dy st None w -> dy_failed (Error e) w.
Proof. intros Hw. split; by eexists. Qed.

(** A socket that was just connected. *)
Definition dy_new (w : world) : Prop :=
  exists st s, dy st (Some (Some s)) w /\ seems_over st = false /\ sent s = [].

Lemma dy_store st io local peer :
  sent io = [] ->
  triple (dy st None) (store_connected_dynamic_tcp_stream stream io local peer) (fun _ => dy_new) dy_failed.
Proof.
  intros Hs. unfold store_connected_dynamic_tcp_stream. eapply triple_bind; [apply dy_update|]. intros [].
  eapply triple_weaken; [apply dy_set_io|done| |done]. intros [] w Hw. by eexists _, io.
Qed.

Lemma dy_connect_any st b resolved last_error :
  triple (dy st None) (connect_any stream b resolved last_error) (fun _ => dy_new) dy_failed.
Proof.
  revert last_error. induction resolved as [|peer resolved IH]; intros last_error; cbn [connect_any].
  { eapply (triple_bind _ _ _ (fun _ w => exists st', dy st' None w)).
    - unfold mark_dynamic_tcp_stream_failed. eapply triple_bind; [apply dy_update|]. intros [].
      eapply triple_weaken; [apply dy_set_io|done|intros [] w Hw; by eexists|done].
    - intros []. apply triple_host_error. intros w [st' Hw]. by eapply failed_here. }
  eapply triple_bind; [apply dy_outside|]. intros socket. apply triple_fact. intros _.
  eapply triple_bind; [apply triple_or_host_error; intros e w; apply failed_here|]. intros []. apply triple_fact. intros _.
  eapply (triple_bind _ _ _ (fun _ => dy st None)).
  { destruct b as [a|]; [|by apply triple_ret].
    eapply triple_bind; [apply triple_or_host_error; intros e w; apply failed_here|]. intros local. apply triple_fact. intros _.
    destruct (negb _); [by apply triple_ret|].
    eapply triple_bind; [apply dy_outside|]. intros bound. apply triple_fact. intros _.
    eapply triple_bind; [apply triple_or_host_error; intros e w; apply failed_here|]. intros []. apply triple_fact. intros _.
    by apply triple_ret. }
  intros [|]; [|apply IH].
  eapply triple_bind; [apply dy_outside|]. intros answer. apply triple_fact. intros [i Hi].
  destruct answer as [[[io local] peer']|err]; [|apply IH].
  eapply triple_bind; [apply triple_or_host_error; intros e w; apply failed_here|]. intros laddr. apply triple_fact. intros _.
  eapply triple_bind; [apply triple_or_host_error; intros e w; apply failed_here|]. intros paddr. apply triple_fact. intros _.
  apply dy_store. symmetry in Hi. by destruct (connect_fresh _ _ _ _ _ Hi) as (_ & _ & ->).
Qed.

(** After connecting there is the stream that was there, or a new one. *)
Definition opened (st0 : TcpSocketState) (io0 : option SharedIo) (w : world) : Prop :=
  (is_Some io0 /\ dy st0 io0 w) \/ (io0 = None /\ dy_new w).
Definition open_failed (io0 : option SharedIo) (x : ended) (w : world) : Prop := io0 = None /\ dy_failed x w.

Lemma dy_decode st io (R : ended -> world -> Prop) :
  triple (dy st io) (decode_stream stream) (fun d w => dy st io w /\ d = Dynamic stream) R.
Proof.
  intros w Hw. pose proof Hw as [_ Hst _]. unfold decode_stream. rewrite Hkind. unfold mbind, eff_bind. cbn.
  unfold tcp_stream_exists. rewrite bool_decide_true by (by eexists). done.
Qed.

Lemma dy_get st io (R : ended -> world -> Prop) :
  triple (dy st io) get_state (fun w1 w => dy st io w /\ io_of (DynamicIo stream) w1 = io) R.
Proof. intros w Hw. split; [done|apply Hw]. Qed.

Lemma dy_ensure st io :
  triple (dy st io) (ensure_dynamic_tcp_stream_connected stream) (fun _ => opened st io) (open_failed io).
Proof.
  unfold ensure_dynamic_tcp_stream_connected. eapply triple_bind; [apply dy_decode|]. intros d. apply triple_fact. intros ->.
  eapply triple_bind; [apply dy_get|]. intros w1. apply triple_fact. intros Hio. rewrite Hio. destruct io as [io|].
  { apply triple_ret. by left. }
  eapply (triple_weaken _ _ _ _ (fun _ => dy_new) _ dy_failed); [|intros w Hw; exact Hw|by right|by split].
  eapply triple_bind; [apply dy_state_of|]. intros st'. apply triple_fact. intros ->.
  destruct (phase_refusal _); [apply triple_host_error; intros w; apply failed_here|].
  eapply triple_bind; [apply triple_or_error; intros e w; apply failed_here|]. intros target. apply triple_fact. intros _.
  eapply triple_bind; [apply dy_outside|]. intros resolved. apply triple_fact. intros _.
  eapply triple_bind; [apply triple_or_host_error; intros e w; apply failed_here|]. intros addrs. apply triple_fact. intros _.
  apply dy_connect_any.
Qed.

(** Reading from and writing to the stream of the socket. *)
Lemma dy_put st io io' now w : dy st io w -> dy st io' (tick now (set_io (DynamicIo stream) io' w)).
Proof. intros Hw. pose proof (dy_set_io st io io' (fun _ _ => False) w Hw) as [[Hf1 Hf2] Hst Hio]. by split; [split|..]. Qed.

Lemma dy_read_io st io unavailable failed n : (0 < n)%nat ->
  triple (dy st (Some (Some io))) (read_io (DynamicIo stream) unavailable failed n)
    (fun c w => exists io', dy st (Some (Some io')) w /\ sent io' = sent io /\
       data_of (incoming io) = c ++ data_of (incoming io') /\ (length c <= n)%nat /\ (c = [] -> data_of (incoming io) = []))
    (fun x w => sane x /\ exists io', dy st (Some (Some io')) w /\ sent io' = sent io /\ data_of (incoming io') = data_of (incoming io)).
Proof.
  intros Hn w Hw. destruct (read_io_run (DynamicIo stream) unavailable failed n w io Hn (dy_io _ _ _ Hw)) as (r & now & io' & -> & Hr).
  pose proof (dy_put _ _ (Some (Some io')) now _ Hw) as Hw'. destruct r as [c|x]; [by exists io'|].
  destruct Hr as (Hx & ? & ?). split; [done|]. by exists io'.
Qed.

Lemma dy_write_io st io unavailable what l :
  triple (dy st (Some (Some io))) (write_io (DynamicIo stream) unavailable what l)
    (fun _ w => exists io', dy st (Some (Some io')) w /\ incoming io' = incoming io /\ sent io' = sent io ++ l)
    (fun x w => (exists e, x = Error e) /\ exists io' part, dy st (Some (Some io')) w /\ incoming io' = incoming io /\
       part `prefix_of` l /\ sent io' = sent io ++ part).
Proof.
  intros w Hw. destruct (write_io_run (DynamicIo stream) unavailable what l w io (dy_io _ _ _ Hw)) as (r & io' & part & -> & Hi & Hs & Hp & Hr).
  pose proof (dy_set_io st _ (Some (Some io')) (fun _ _ => False) w Hw) as Hw'. cbn in Hw'. destruct r as [[]|x].
  - exists io'. subst part. by split_and!.
  - split; [done|]. by exists io', part.
Qed.

Context (st0 : TcpSocketState) (Hst0 : w0.(net).(tcp_streams) !! stream = Some st0).

Lemma dy_held st io w : dy st io w -> eof_true (seems_over st) io -> held w.
Proof.
  intros [Hf Hst Hio] He. split_and!; [done| |].
  - destruct Hf as [_ Hf]. eapply same_downstream_ok; [apply Hf, not_downstream|apply Hok].
  - unfold dynamic_ok. by rewrite Hst, Hio.
Qed.
Lemma quiet_dy w : quiet w -> dy st0 (io_of (DynamicIo stream) w0) w.
Proof.
  intros [Hd Hs]. destruct (Hd stream) as [H1 H2]. split; [by split|by rewrite H1|done].
Qed.
Lemma start_eof : eof_true (seems_over st0) (io_of (DynamicIo stream) w0).
Proof. destruct Hok as [_ Hd]. specialize (Hd stream). unfold dynamic_ok in Hd. by rewrite Hst0 in Hd. Qed.

Lemma took_dy out w : took out w -> exists st io p, dy st (Some (Some io)) w /\ eof_true (seems_over st) (Some (Some io)) /\
  starts p /\ p.(unread) = out ++ data_of (incoming io) /\ sent io = p.(written).
Proof.
  intros [(Hf & Hd & Hy) (p & rest & Hp & Hu & Ha)]. unfold stream_at in Ha. rewrite Hkind in Ha.
  unfold dynamic_ok in Hy. destruct (io_of (DynamicIo stream) w) as [[io|]|] eqn:Hio; [|done..]. cbn in Ha. injection Ha as <- Hw.
  destruct (tcp_streams (net w) !! stream) as [st|] eqn:Hst; [|done]. by exists st, io, p.
Qed.
Lemma dy_took out st io p w : dy st (Some (Some io)) w -> eof_true (seems_over st) (Some (Some io)) ->
  starts p -> p.(unread) = out ++ data_of (incoming io) -> sent io = p.(written) -> took out w.
Proof.
  intros Hw He Hp Hu Hs. split; [by eapply dy_held|]. exists p, (data_of (incoming io)). split_and!; [done..|].
  rewrite (dy_stream_at _ _ _ Hw). cbn. by rewrite Hs.
Qed.

(** Open, or taken by someone else. *)
Definition open_now (out : list Z) (w : world) : Prop := took out w \/ dy st0 (Some None) w /\ stream_at stream w0 = None.

Lemma dy_open out :
  triple (openable out) (ensure_dynamic_tcp_stream_connected stream) (fun _ => open_now out) (broke out).
Proof.
  intros w [Ht|[-> Hq]].
  - destruct (took_dy _ _ Ht) as (st & io & p & Hw & He & Hp & Hu & Hs).
    pose proof (dy_ensure _ _ w Hw) as Hr. destruct (ensure_dynamic_tcp_stream_connected stream w) as [[[]|x] w1].
    + destruct Hr as [[_ Hr]|[Hr _]]; [|done]. left. by eapply dy_took.
    + by destruct Hr as [Hr _].
  - pose proof (quiet_dy w Hq) as Hw. pose proof start_eof as He. pose proof (dy_stream_at _ _ _ (quiet_dy w0 quiet_refl)) as E0.
    pose proof (dy_ensure _ _ w Hw) as Hr. destruct (ensure_dynamic_tcp_stream_connected stream w) as [[[]|x] w1].
    + destruct Hr as [[[io Hio] Hr]|[Hio (st & s & Hr & Heof & Hs)]].
      * rewrite Hio in Hr, He, E0. destruct io as [io|]; [left|right; by rewrite E0].
        eapply (dy_took [] _ _ (MkPipe (data_of (incoming io)) (sent io))); try done. by left.
      * rewrite Hio in E0. left. eapply (dy_took [] _ _ (MkPipe (data_of (incoming s)) (sent s))); try done.
        -- cbn. by rewrite Heof.
        -- right. by split.
    + destruct Hr as [Hio [[e ->] [st Hr]]]. rewrite Hio in E0. split; [by eapply dy_held|]. split; [right; by eexists|].
      right. right. by rewrite (dy_stream_at _ _ _ Hr).
Qed.

Lemma taken_broke out e w : dy st0 (Some None) w -> broke out (Error e) w.
Proof.
  intros Hw. split; [by eapply dy_held|]. split; [right; by eexists|]. right. right. by rewrite (dy_stream_at _ _ _ Hw).
Qed.

Lemma dy_chunk out n : (0 < n)%nat ->
  triple (openable out) (read_stream_binary_chunk (Dynamic stream) n)
    (fun c w => took (out ++ c) w /\ (length c <= n)%nat /\ (c = [] -> at_end w)) (broke out).
Proof.
  intros Hn. cbn [read_stream_binary_chunk]. eapply triple_bind; [apply dy_open|]. intros []. apply triple_or.
  2: { intros w [Hw _]. unfold read_io, mbind, eff_bind. cbn -[read io_of]. rewrite (dy_io _ _ _ Hw). by apply taken_broke. }
  apply (triple_weaken _ (fun w => exists x : TcpSocketState * Stream * pipe, dy x.1.1 (Some (Some x.1.2)) w /\
    (eof_true (seems_over x.1.1) (Some (Some x.1.2)) /\
     starts x.2 /\ x.2.(unread) = out ++ data_of (incoming x.1.2) /\ sent x.1.2 = x.2.(written))) _ _
    (fun c w => took (out ++ c) w /\ (length c <= n)%nat /\ (c = [] -> at_end w)) _ (broke out)); [|intros w Ht|done|done].
  2: { destruct (took_dy _ _ Ht) as (st & io & p & Hw & He & Hp & Hu & Hs). by exists (st, io, p). }
  apply triple_ex. intros [[st io] p]. apply triple_fact. cbn [fst snd]. intros (He & Hp & Hu & Hs).
  eapply (triple_bind _ _ _ (fun c w => exists io', dy st (Some (Some io')) w /\ (sent io' = sent io /\
       data_of (incoming io) = c ++ data_of (incoming io') /\ (length c <= n)%nat /\ (c = [] -> data_of (incoming io) = [])))).
  { eapply triple_weaken; [by apply dy_read_io|done|by intros c w (io' & ? & ?); eexists|].
    intros x w (Hx & io' & Hw & Hs' & Hd). split; [eapply dy_held; [done|by cbn in *; rewrite Hd]|]. split; [done|].
    right. left. eapply (dy_took out st io' p); try done; [by cbn in *; rewrite Hd|by rewrite Hd|congruence]. }
  intros c. apply triple_ex. intros io'. apply triple_fact. intros (Hs' & Hd & Hl & Hc).
  assert (Hend : c = [] -> data_of (incoming io') = []) by (intros Hc'; specialize (Hc Hc'); rewrite Hd in Hc; by apply app_eq_nil in Hc as [_ ?]).
  eapply (triple_bind _ _ _ (fun _ w => exists st', dy st' (Some (Some io')) w /\ eof_true (seems_over st') (Some (Some io')))).
  { case_bool_decide as Hc'; (eapply triple_weaken; [apply dy_update|done|intros [] w Hw; eexists; split; [exact Hw|]|done]); cbn in He |- *.
    - intros _. by apply Hend.
    - unfold seems_over in He |- *. cbn. rewrite orb_false_r. intros Hph. rewrite Hph in He. specialize (He eq_refl). rewrite Hd in He.
      by apply app_eq_nil in He as [_ ?]. }
  intros []. apply triple_ret. intros w (st' & Hw & Heof). split; [|split; [done|]].
  - eapply (dy_took _ st' io' p); try done; [by rewrite <-app_assoc, <-Hd|congruence].
  - intros Hc'. exists (sent io'). rewrite (dy_stream_at _ _ _ Hw). cbn. by rewrite Hend.
Qed.

Lemma dynamic_kind d : kind d -> d = Dynamic stream.
Proof.
  destruct d as [r|h|h]; cbn.
  - by rewrite Hkind.
  - by intros [-> _].
  - intros (_ & _ & Hn). by rewrite Hst0 in Hn.
Qed.
Lemma dynamic_not_exchange h : Dynamic stream ≠ OutboundExchange h.
Proof. done. Qed.

Lemma dy_decoded : triple (eq w0) (decode_stream stream) (fun d w => quiet w /\ d = Dynamic stream) (fun x w => quiet w /\ exists e, x = Error e).
Proof. apply triple_decoded, dynamic_kind. Qed.

(** Looking at the state changes nothing. *)
Lemma dy_looked {A} (f : TcpSocketState -> A) : triple quiet (state ← dynamic_tcp_socket_state stream; mret (f state)) (fun _ => quiet) (fun _ _ => False).
Proof.
  intros w Hw. pose proof Hw as [Hd _]. destruct (Hd stream) as [Hs _].
  unfold dynamic_tcp_socket_state, mbind, eff_bind. cbn. by rewrite Hs, Hst0.
Qed.

Lemma dy_change q a f : resets q = true -> (forall st io, (f (st, io)).2 = None) ->
  triple quiet (with_mutable_dynamic_tcp_socket_state stream (modify f)) (fun _ => final q (Ok a)) (fun x => final q (Err x)).
Proof.
  intros Hq Hf. unfold with_mutable_dynamic_tcp_socket_state. eapply triple_bind.
  { eapply triple_weaken; [apply (dy_decode st0 (io_of (DynamicIo stream) w0) (fun _ _ => False))|apply quiet_dy|intros d w Hw; exact Hw|done]. }
  intros d. apply triple_fact. intros ->. intros w [[Hf1 Hf2] Hst Hio].
  unfold mbind, eff_bind. cbn -[set_io io_of]. rewrite Hst. cbn -[set_io io_of].
  specialize (Hf st0 (io_of (DynamicIo stream) w)). destruct (f _) as [st io]. cbn in Hf. subst io. cbn -[set_io].
  set (w1 := w <| net := _ |>).
  assert (Hw1 : dy st (io_of (DynamicIo stream) w0) w1).
  { split; [split|cbn; by rewrite lookup_insert_eq|done]; [|done].
    intros h Hh. destruct (Hf1 h Hh) as [Hs Hi]. split; [|done]. cbn. by rewrite lookup_insert_ne. }
  pose proof (dy_set_io st _ None (fun _ _ => False) w1 Hw1) as Hw2. cbn -[set_io] in Hw2.
  eapply dy_final; [exact Hw2|done| |done]. cbn. destruct (stream_at stream w0); [by apply moves_reset|apply moves_absent].
Qed.

Lemma dy_write q l : writes q = Some l ->
  triple (eq w0) (write_bytes stream l) (fun n => final q (Ok (Count n))) (fun x => final q (Err x)).
Proof.
  intros Hq. unfold write_bytes. eapply triple_bind.
  { eapply triple_weaken; [apply dy_decoded|done|intros d w Hw; exact Hw|]. intros x w [Hw [e ->]]. by apply quiet_refused. }
  intros d. apply triple_fact. intros ->.
  eapply triple_bind; [apply (triple_note _ dynamic_not_exchange)|]. intros [].
  eapply (triple_bind _ _ _ (fun _ => final q (Ok (Count (len l))))); [|intros []; by apply triple_ret].
  eapply (triple_bind _ _ _ (fun _ => open_now [])).
  { eapply triple_weaken; [apply (dy_open [])|by right|done|intros x w; apply broke_final]. }
  intros []. apply triple_or.
  2: { intros w [Hw _]. unfold write_io, mbind, eff_bind. cbn -[write_all flush io_of]. rewrite (dy_io _ _ _ Hw). cbn.
       by eapply broke_final, taken_broke. }
  intros w Ht. destruct (took_dy _ _ Ht) as (st & io & p & Hw & He & Hp & Hu & Hs). cbn in Hu.
  unfold mbind, eff_bind. pose proof (dy_write_io st io (no_active_transport stream) "tcp" l w Hw) as Hr.
  assert (Epipe : forall io', incoming io' = incoming io -> forall part, sent io' = sent io ++ part ->
    pipe_of [] (Some (Some io')) = Some (MkPipe (unread p) (written p ++ part))).
  { intros io' Hi part Hp'. cbn. by rewrite Hi, Hp', Hu, Hs. }
  destruct (write_io _ _ _ _ w) as [[[]|x] w1].
  - destruct Hr as (io' & Hw1 & Hi & Hs1).
    pose proof (dy_update st (Some (Some io')) TcpSocket.clear_read_eof (fun _ _ => False) w1 Hw1) as Hw2.
    unfold clear_dynamic_tcp_stream_eof. destruct (on_net _ w1) as [[[]|x] w2]; [|done].
    eapply dy_final; [exact Hw2| | |done].
    + cbn. rewrite Hi. unfold seems_over. cbn. rewrite orb_false_r. intros Hph. apply He. unfold seems_over. by rewrite Hph.
    + rewrite (Epipe _ Hi _ Hs1). eapply moves_starts; [done|]. by eapply moves_written.
  - destruct Hr as ([e ->] & io' & part & Hw1 & Hi & Hpre & Hs1).
    eapply dy_final; [exact Hw1|by cbn; rewrite Hi| |right; by eexists].
    rewrite (Epipe _ Hi _ Hs1). eapply moves_starts; [done|]. by eapply moves_partly_written.
Qed.

Lemma dy_look {A} q (f : TcpSocketState -> A) (g : A -> reply) : looks q = true ->
  triple quiet (state ← dynamic_tcp_socket_state stream; mret (f state)) (fun a => final q (Ok (g a))) (fun x => final q (Err x)).
Proof.
  intros Hl. eapply triple_weaken; [apply (dy_looked f)|done| |done]. intros a w. by apply quiet_looked.
Qed.

(** The calls that start by decoding the handle. *)
Lemma dy_after {A} q (g : A -> reply) (k : TcpStreamHandle -> call A) :
  triple quiet (k (Dynamic stream)) (fun a => final q (Ok (g a))) (fun x => final q (Err x)) ->
  triple (eq w0) (d ← decode_stream stream; k d) (fun a => final q (Ok (g a))) (fun x => final q (Err x)).
Proof.
  intros Hk. eapply triple_bind.
  { eapply triple_weaken; [apply dy_decoded|done|intros d w Hw; exact Hw|]. intros x w [Hw [e ->]]. by apply quiet_refused. }
  intros d. apply triple_fact. by intros ->.
Qed.

Lemma dy_eof : triple (eq w0) (stream_eof stream) (fun b => final AtEof (Ok (Flag b))) (fun x => final AtEof (Err x)).
Proof.
  apply (dy_after AtEof Flag). intros w Hw. pose proof Hw as [Hd _]. destruct (Hd stream) as [Hs _].
  unfold dynamic_tcp_socket_state, mbind, eff_bind. cbn. rewrite Hs, Hst0. cbn.
  apply quiet_final; [done| |done]. pose proof start_eof as He. unfold stream_at. rewrite Hkind.
  destruct (io_of (DynamicIo stream) w0) as [[io|]|]; [|apply moves_absent..].
  eapply moves_eof; [done..|]. exact He.
Qed.

Lemma dy_connect : triple (eq w0) (stream_connect stream) (fun b => final Connect (Ok (Flag b))) (fun x => final Connect (Err x)).
Proof.
  unfold stream_connect. eapply (triple_bind _ _ _ (fun _ => open_now [])).
  { eapply triple_weaken; [apply (dy_open [])|intros w <-; right; by split|done|intros x w; apply broke_final]. }
  intros []. apply triple_ret. intros w [Ht|[Hw Hn]].
  - destruct Ht as [(Hf & Hd & Hy) (p & rest & Hp & Hu & Ha)]. split; [done..| |done]. rewrite Ha. eapply moves_starts; [done|].
    cbn in Hu. rewrite <-Hu. destruct p. by apply moves_looked.
  - eapply dy_final; [done|done| |done]. rewrite Hn. apply moves_absent.
Qed.

Lemma triple_done {A} q (g : A -> reply) (m : call A) :
  triple (eq w0) m (fun a => final q (Ok (g a))) (fun x => final q (Err x)) ->
  triple (eq w0) (g <$> m) (fun a => final q (Ok a)) (fun x => final q (Err x)).
Proof. intros Hm. apply triple_fmap. exact Hm. Qed.

Lemma quiet_fails {A} q e Q : triple (eq w0) (throw (A:=A) (Error e)) Q (fun x => final q (Err x)).
Proof. apply triple_throw. intros w <-. apply quiet_refused, quiet_refl. Qed.

Lemma dy_peek q name n :
  triple (eq w0) (peek_chunk name stream n) (fun _ _ => False) (fun x => final q (Err x)).
Proof.
  unfold peek_chunk. eapply triple_bind.
  { eapply triple_weaken; [apply dy_decoded|done|intros d w Hw; exact Hw|]. intros x w [Hw [e ->]]. by apply quiet_refused. }
  intros d. apply triple_fact. intros ->. eapply triple_bind.
  { apply (triple_or_error quiet (fun x => final q (Err x))). intros e w. apply quiet_refused. }
  intros k. apply triple_fact. intros _. apply triple_host_error. intros w. apply quiet_refused.
Qed.

Lemma dy_serve q : triple (eq w0) (serve stream q) (fun a => final q (Ok a)) (fun x => final q (Err x)).
Proof.
  destruct q; apply triple_done.
  - apply (dy_after IsPresent Flag). by apply (dy_look _ TcpSocket.is_present).
  - intros w <-. by apply (dy_change _ NoValue).
  - unfold stream_set_target. destruct (format_socket_authority _ _ _) as [[[t n] p]|e]; [|apply quiet_fails].
    intros w <-. by apply (dy_change _ NoValue).
  - apply dy_connect.
  - apply (dy_after GetPhase Text). intros w. by apply (dy_look GetPhase (fun st => TcpSocket.as_str (TcpSocket.phase st)) Text).
  - apply (dy_after GetLocalAddr Text). by apply (dy_look _ TcpSocket.local_address).
  - apply (dy_after GetPeerAddr Text). intros w. by apply (dy_look GetPeerAddr TcpSocket.peer_address Text).
  - apply dy_eof.
  - apply (dy_after Close (fun _ => NoValue)). by apply (dy_change _ NoValue).
  - eapply triple_bind; [by apply (triple_read _ dynamic_kind dynamic_not_exchange dy_chunk (Read max_bytes))|]. intros c. by apply triple_ret.
  - apply (triple_read _ dynamic_kind dynamic_not_exchange dy_chunk (ReadBinary max_bytes)). done.
  - apply (triple_read_exact _ dynamic_kind dynamic_not_exchange dy_chunk).
  - unfold stream_peek. eapply triple_bind; [apply dy_peek|]. intros c. by apply triple_ret.
  - eapply triple_weaken; [apply (dy_peek (PeekBinary max_bytes) "tcp::stream::peek_binary")|done|done|done].
  - by apply dy_write.
  - unfold stream_write_binary, value_to_bytes. destruct (as_bytes payload) as [l|] eqn:Hl; [|apply quiet_fails].
    by apply (dy_write (WriteBinary payload)).
Qed.


End dynamic.

(** *** The downstream *)

Section downstream.
Context (Hkind : decode_tcp_stream_handle stream = Some TcpDownstream).

Lemma is_downstream : stream = TCP_STREAM_DOWNSTREAM.
Proof.
  unfold decode_tcp_stream_handle in Hkind. destruct (Z.eqb_spec stream TCP_STREAM_DOWNSTREAM); [done|].
  by destruct (stream =? TCP_STREAM_DEFAULT_UPSTREAM).
Qed.

Record dn (s : slot) (io : Stream) (pre : list Z) (w : world) : Prop := {
  dn_others h : h ≠ stream -> same_dynamic w0 w h;
  dn_dynamic : dynamic_ok stream w;
  dn_now : downstream_now w = Raw s;
  dn_io : io_of s w = Some (Some io);
  dn_preread : w.(downstream_preread_buffer) = pre;
  dn_eof : w.(downstream_read_eof) = true -> data_of (incoming io) = [];
}.

Lemma raw_slot (w : world) s : downstream_now w = Raw s -> s = DownstreamTls \/ s = DownstreamTcp.
Proof.
  unfold downstream_now. destruct (downstream_tls_io w); [intros [= <-]; by left|].
  destruct (downstream_tcp_io w); [intros [= <-]; by right|]. by case_bool_decide.
Qed.

Lemma dn_held s io pre w : dn s io pre w -> held w.
Proof.
  intros [Ho Hd Hn Hio Hp He]. split_and!; [|by unfold downstream_ok; rewrite Hn, Hio|done].
  split; [done|]. by rewrite is_downstream.
Qed.
Lemma dn_stream_at s io pre w : dn s io pre w -> stream_at stream w = Some (MkPipe (pre ++ data_of (incoming io)) (sent io)).
Proof. intros [Ho Hd Hn Hio Hp He]. unfold stream_at. by rewrite Hkind, Hn, Hio, Hp. Qed.

Lemma took_dn out w : took out w -> exists s io pre p, dn s io pre w /\
  starts p /\ p.(unread) = out ++ pre ++ data_of (incoming io) /\ sent io = p.(written).
Proof.
  intros [([Hf _] & Hd & Hy) (p & rest & Hp & Hu & Ha)]. unfold stream_at in Ha. rewrite Hkind in Ha. unfold downstream_ok in Hd.
  destruct (downstream_now w) as [s| |] eqn:Hn; [|done..].
  destruct (io_of s w) as [[io|]|] eqn:Hio; [|done..]. cbn in Ha. injection Ha as <- Hw.
  by exists s, io, (downstream_preread_buffer w), p.
Qed.
Lemma dn_took out s io pre p w : dn s io pre w -> starts p -> p.(unread) = out ++ pre ++ data_of (incoming io) ->
  sent io = p.(written) -> took out w.
Proof.
  intros Hw Hp Hu Hs. split; [by eapply dn_held|]. exists p, (pre ++ data_of (incoming io)). split_and!; [done..|].
  rewrite (dn_stream_at _ _ _ _ Hw). by rewrite Hs.
Qed.

Lemma dn_put s io pre io' now w :
  dn s io pre w -> (w.(downstream_read_eof) = true -> data_of (incoming io') = []) ->
  dn s io' pre (tick now (set_io s (Some (Some io')) w)).
Proof.
  intros [Ho Hd Hn Hio Hp He] He'. destruct (raw_slot w s Hn) as [-> | ->]; (split; try done).
  unfold downstream_now in Hn |- *. cbn. by destruct (downstream_tls_io w).
Qed.

(** A call on the attached stream, before its errors detach it. *)
Definition hurt (x : ended) (w : world) : Prop := held w /\ sane x.

Lemma detached_held (w w' : world) : held w -> (forall h, same_dynamic w w' h) -> downstream_now w' = Buffered -> held w'.
Proof.
  intros ([Hf _] & Hd & Hy) Hs Hn. split_and!.
  - split; [|by rewrite is_downstream]. intros h Hh. destruct (Hf h Hh) as [H1 H2], (Hs h) as [H3 H4]. split; congruence.
  - unfold downstream_ok. by rewrite Hn.
  - by eapply same_dynamic_ok.
Qed.
Lemma mark_failed_shape message (w : world) :
  downstream_now (mark_attached_downstream_failed message w) = Buffered /\ forall h, same_dynamic w (mark_attached_downstream_failed message w) h.
Proof. unfold mark_attached_downstream_failed. by destruct (_ || _). Qed.

Lemma triple_or_mark_failed {A} (P : world -> Prop) (m : call A) Q out :
  triple P m Q hurt -> triple P (or_mark_failed m) Q (broke out).
Proof.
  intros Hm w Hw. unfold or_mark_failed. specialize (Hm w Hw). destruct (m w) as [[a|x] w1]; [done|]. destruct Hm as [Hh Hs].
  destruct Hs as [->|[e ->]]; [split; [done|]; split; [by left|by left]|].
  destruct (mark_failed_shape (error_text e) w1) as [Hn Hd].
  split; [by eapply detached_held|]. split; [right; by eexists|]. right. right. unfold stream_at. by rewrite Hkind, Hn.
Qed.

Lemma dn_read_attached s io pre n : (0 < n)%nat ->
  triple (dn s io pre) (read_attached_downstream s n)
    (fun c w => exists io', dn s io' pre w /\ sent io' = sent io /\ data_of (incoming io) = c ++ data_of (incoming io') /\
       (length c <= n)%nat /\ (c = [] -> data_of (incoming io) = []))
    hurt.
Proof.
  intros Hn w Hw. unfold read_attached_downstream, mbind, eff_bind.
  destruct (read_io_run s (downstream_unavailable s) (fun err => downstream_what s +:+ " read failed: " +:+ err) n w io Hn (dn_io _ _ _ _ Hw))
    as (r & now & io' & -> & Hr). destruct r as [c|x].
  - destruct Hr as (Hs & Hd & Hl & Hc). exists io'. split; [|done].
    assert (Hw' : dn s io' pre (tick now (set_io s (Some (Some io')) w))).
    { eapply dn_put; [done|]. intros He. pose proof (dn_eof _ _ _ _ Hw He) as H1. rewrite Hd in H1. by apply app_eq_nil in H1 as [_ ?]. }
    destruct Hw' as [Ho Hy Hnow Hio Hp _]. destruct (raw_slot _ s Hnow) as [-> | ->]; (split; try done).
    all: cbn; case_bool_decide as Hc'; [|done]; intros _; specialize (Hc Hc'); rewrite Hd in Hc; by apply app_eq_nil in Hc as [_ ?].
  - destruct Hr as (Hx & Hs & Hd). split; [|done]. eapply dn_held, dn_put; [done|]. rewrite Hd. apply (dn_eof _ _ _ _ Hw).
Qed.

Lemma dn_with_preread s io pre n : (0 < n)%nat ->
  triple (dn s io pre) (read_attached_downstream_with_preread s n)
    (fun c w => exists io' pre', dn s io' pre' w /\ sent io' = sent io /\
       pre ++ data_of (incoming io) = c ++ pre' ++ data_of (incoming io') /\
       (length c <= n)%nat /\ (c = [] -> pre' ++ data_of (incoming io') = []))
    hurt.
Proof.
  intros Hn. unfold read_attached_downstream_with_preread.
  eapply (triple_bind _ _ _ (fun c w => dn s io (drop n pre) w /\ c = take n pre)).
  { intros w [Ho Hd Hnow Hio Hp He]. cbn. rewrite Hp. split; [|done]. split; try done; by destruct (raw_slot w s Hnow) as [-> | ->]. }
  intros c. apply triple_fact. intros ->. case_bool_decide as Hl; rewrite length_take in Hl.
  - assert (length pre < n)%nat by lia. rewrite drop_ge, take_ge by lia.
    eapply triple_bind; [apply dn_read_attached; lia|]. intros c. apply triple_ret. intros w (io' & Hw & Hs & Hd & Hlc & Hc).
    exists io', []. split; [done|]. split; [done|]. rewrite Hd, app_assoc. split; [done|]. split; [rewrite length_app; lia|].
    intros [-> ->]%app_eq_nil. specialize (Hc eq_refl). cbn in Hd |- *. congruence.
  - apply triple_ret. intros w Hw. exists io, (drop n pre). split; [done|]. split; [done|].
    rewrite app_assoc, take_drop. split; [done|]. rewrite length_take. split; [lia|].
    intros Ht%(f_equal length). rewrite length_take in Ht. cbn in Ht. lia.
Qed.

Context (Hopen : is_Some (stream_at stream w0)).

Lemma openable_took out w : openable out w -> took out w.
Proof. intros [Ht|[-> Hq]]; [done|by apply quiet_took]. Qed.

(** From the stream that is open, whichever it is. *)
Lemma triple_attached {A} out (k : slot -> call A) (pending buffered_ : call A) Q R :
  (forall s io pre p, starts p -> p.(unread) = out ++ pre ++ data_of (incoming io) -> sent io = p.(written) ->
     triple (dn s io pre) (k s) Q R) ->
  triple (openable out) (w ← get_state; match downstream_now w with Raw s => k s | Pending => pending | Buffered => buffered_ end) Q R.
Proof.
  intros Hk w Hw%openable_took. destruct (took_dn _ _ Hw) as (s & io & pre & p & Hdn & Hp & Hu & Hs).
  unfold mbind, eff_bind. cbn. rewrite (dn_now _ _ _ _ Hdn). by eapply Hk.
Qed.

Lemma dn_chunk out n : (0 < n)%nat ->
  triple (openable out) (read_stream_binary_chunk (Reserved TcpDownstream) n)
    (fun c w => took (out ++ c) w /\ (length c <= n)%nat /\ (c = [] -> at_end w)) (broke out).
Proof.
  intros Hn. cbn [read_stream_binary_chunk]. apply triple_attached. intros s io pre p Hp Hu Hs.
  apply triple_or_mark_failed. eapply triple_weaken; [by apply dn_with_preread|done| |done].
  intros c w (io' & pre' & Hw & Hs' & Hd & Hl & Hc). split; [|split; [done|]].
  - eapply dn_took; try done; [by rewrite Hu, Hd, app_assoc|congruence].
  - intros Hc'. exists (sent io'). by rewrite (dn_stream_at _ _ _ _ Hw), (Hc Hc').
Qed.

Lemma dn_kind d : kind d -> d = Reserved TcpDownstream.
Proof. destruct d as [r|h|h]; cbn; [rewrite Hkind; by intros [= <-]|by intros (_ & ? & _); rewrite Hkind in *..]. Qed.

Lemma dn_after {A} q (g : A -> reply) (k : TcpStreamHandle -> call A) :
  triple quiet (k (Reserved TcpDownstream)) (fun a => final q (Ok (g a))) (fun x => final q (Err x)) ->
  triple (eq w0) (d ← decode_stream stream; k d) (fun a => final q (Ok (g a))) (fun x => final q (Err x)).
Proof.
  intros Hk. eapply triple_bind.
  { eapply triple_weaken; [apply triple_decoded, dn_kind|done|intros d w Hw; exact Hw|]. intros x w [Hw [e ->]]. by apply quiet_refused. }
  intros d. apply triple_fact. by intros ->.
Qed.

Lemma dn_set_preread s io pre pre' w : dn s io pre w -> dn s io pre' (w <| downstream_preread_buffer := pre' |>).
Proof. intros [Ho Hd Hn Hio Hp He]. split; try done; by destruct (raw_slot w s Hn) as [-> | ->]. Qed.

Lemma dn_peek_more s io pre n : (length pre < n)%nat ->
  triple (dn s io pre)
    (suffix ← read_attached_downstream s (n - length pre); _ ← modify (append_downstream_preread_bytes suffix); mret (pre ++ suffix))
    (fun c w => exists io' pre' rest, dn s io' pre' w /\ sent io' = sent io /\
       pre ++ data_of (incoming io) = pre' ++ data_of (incoming io') /\ pre ++ data_of (incoming io) = c ++ rest /\
       (length c <= n)%nat /\ (c = [] -> rest = []))
    hurt.
Proof.
  intros Hn. eapply triple_bind; [apply dn_read_attached; lia|]. intros c w (io' & Hw & Hs & Hd & Hl & Hc).
  unfold mbind, eff_bind. cbn. exists io', (pre ++ c), (data_of (incoming io')). split_and!; try done.
  - unfold append_downstream_preread_bytes. rewrite (dn_preread _ _ _ _ Hw). by eapply dn_set_preread.
  - by rewrite Hd, app_assoc.
  - by rewrite Hd, app_assoc.
  - rewrite length_app. lia.
  - intros [_ ->]%app_eq_nil. specialize (Hc eq_refl). by rewrite Hd in Hc.
Qed.

Lemma dn_peeked s io pre n : (0 < n)%nat ->
  triple (dn s io pre) (peek_attached_downstream s n)
    (fun c w => exists io' pre' rest, dn s io' pre' w /\ sent io' = sent io /\
       pre ++ data_of (incoming io) = pre' ++ data_of (incoming io') /\ pre ++ data_of (incoming io) = c ++ rest /\
       (length c <= n)%nat /\ (c = [] -> rest = []))
    hurt.
Proof.
  intros Hn. unfold peek_attached_downstream. intros w Hw. unfold mbind at 1, eff_bind at 1. cbn.
  unfold preview_downstream_preread_bytes, attached_downstream_eof. rewrite (dn_preread _ _ _ _ Hw).
  assert (Hstay : (take n pre = [] -> data_of (incoming io) = []) -> exists io' pre' rest, dn s io' pre' w /\ sent io' = sent io /\
       pre ++ data_of (incoming io) = pre' ++ data_of (incoming io') /\ pre ++ data_of (incoming io) = take n pre ++ rest /\
       (length (take n pre) <= n)%nat /\ (take n pre = [] -> rest = [])).
  { intros Ht. exists io, pre, (drop n pre ++ data_of (incoming io)). rewrite app_assoc, take_drop. split_and!; try done.
    - rewrite length_take. lia.
    - intros Hc. rewrite (Ht Hc), app_nil_r. destruct pre; [by rewrite drop_nil|]. destruct n; [lia|done]. }
  destruct (bool_decide (n <= length (take n pre))%nat || _) eqn:Hb.
  { apply Hstay. intros Hc. apply orb_true_iff in Hb as [Hb|Hb].
    - apply bool_decide_eq_true in Hb. rewrite Hc in Hb. cbn in Hb. lia.
    - apply andb_true_iff in Hb as [He _]. by apply (dn_eof _ _ _ _ Hw). }
  clear Hstay. apply orb_false_iff in Hb as [Hb%bool_decide_eq_false _]. rewrite length_take in Hb.
  assert (length pre < n)%nat by lia. rewrite take_ge by lia. by apply dn_peek_more.
Qed.

Lemma triple_peek q name n f : peeks q = Some (n, f) ->
  triple (eq w0) (peek_chunk name stream n) (fun c => final q (Ok (f c))) (fun x => final q (Err x)).
Proof.
  intros Hq. unfold peek_chunk. apply (dn_after q f). eapply triple_bind.
  { apply (triple_or_error quiet (fun x => final q (Err x))). intros e w. apply quiet_refused. }
  intros k. apply triple_fact. intros Hk. unfold decode_chunk_size in Hk. destruct (Z.leb_spec n 0); simplify_eq.
  apply (triple_weaken _ (openable []) _ _ (fun c => final q (Ok (f c))) _ (broke [])); [|by right|done|intros x w; apply broke_final].
  apply triple_attached. intros s io pre p Hp Hu Hs. apply triple_or_mark_failed.
  eapply triple_weaken; [apply dn_peeked; lia|done| |done].
  intros c w (io' & pre' & rest & Hw & Hs' & Hd & Hr & Hl & Hc). destruct (dn_held _ _ _ _ Hw) as (Hf & Hds & Hy).
  split; [done..| |done]. rewrite (dn_stream_at _ _ _ _ Hw), <-Hd, Hs', Hs. cbn in Hu. rewrite <-Hu. eapply moves_starts; [done|].
  replace (MkPipe (unread p) (written p)) with p by (by destruct p).
  eapply moves_peeked; try done; [unfold len; lia|by rewrite Hu].
Qed.

Lemma dn_write q l : writes q = Some l ->
  triple (eq w0) (write_bytes stream l) (fun n => final q (Ok (Count n))) (fun x => final q (Err x)).
Proof.
  intros Hq. unfold write_bytes. apply (dn_after q Count).
  eapply triple_bind; [apply triple_note; done|]. intros [].
  eapply (triple_bind _ _ _ (fun _ => final q (Ok (Count (len l))))); [|intros []; by apply triple_ret].
  apply (triple_weaken _ (openable []) _ _ (fun _ => final q (Ok (Count (len l)))) _ (broke [])); [|by right|done|intros x w; apply broke_final].
  apply triple_attached. intros s io pre p Hp Hu Hs. apply triple_or_mark_failed. intros w Hw.
  unfold write_attached_downstream.
  destruct (write_io_run s (downstream_unavailable s) (downstream_what s) l w io (dn_io _ _ _ _ Hw)) as (r & io' & part & -> & Hi & Hs1 & Hpre & Hr).
  assert (Hw' : dn s io' pre (set_io s (Some (Some io')) w)).
  { pose proof (dn_put s io pre io' (clock (net w)) w Hw) as Hd. rewrite Hi in Hd. specialize (Hd (dn_eof _ _ _ _ Hw)).
    destruct Hd as [Ho Hy Hn Hio Hp' He]. split; try done; destruct (raw_slot _ s Hn) as [-> | ->]; done. }
  destruct r as [[]|x].
  - subst part. destruct (dn_held _ _ _ _ Hw') as (Hf & Hds & Hy). split; [done..| |done].
    rewrite (dn_stream_at _ _ _ _ Hw'), Hi, Hs1, Hs. cbn in Hu. rewrite <-Hu. eapply moves_starts; [done|]. by eapply moves_written.
  - split; [by eapply dn_held|]. right. destruct Hr as [e ->]. by eexists.
Qed.

Lemma dn_eof_call : triple (eq w0) (stream_eof stream) (fun b => final AtEof (Ok (Flag b))) (fun x => final AtEof (Err x)).
Proof.
  apply (dn_after AtEof Flag). intros w Hw. pose proof (quiet_took w Hw Hopen) as Ht.
  destruct (took_dn _ _ Ht) as (s & io & pre & p & Hdn & Hp & Hu & Hs). unfold mbind, eff_bind. cbn. rewrite (dn_now _ _ _ _ Hdn). cbn.
  apply quiet_final; [done| |done]. eapply moves_starts; [done|].
  rewrite <-(quiet_stream_at stream w Hw), (dn_stream_at _ _ _ _ Hdn), Hs. cbn in Hu. rewrite <-Hu.
  replace (MkPipe (unread p) (written p)) with p by (by destruct p).
  eapply moves_eof; [done..|]. unfold attached_downstream_eof. rewrite andb_true_iff, bool_decide_eq_true, (dn_preread _ _ _ _ Hdn).
  intros [He ->]. rewrite Hu. cbn. by apply (dn_eof _ _ _ _ Hdn).
Qed.

Lemma dn_close : triple (eq w0) (stream_close stream) (fun _ => final Close (Ok NoValue)) (fun x => final Close (Err x)).
Proof.
  apply (dn_after Close (fun _ => NoValue)). intros w Hw. cbn.
  assert (Hn : downstream_now (close_downstream w) = Buffered) by (unfold close_downstream; by destruct (TlsFlow.present _)).
  assert (Hd : forall h, same_dynamic w (close_downstream w) h) by (intros h; unfold close_downstream; by destruct (TlsFlow.present _)).
  destruct (detached_held w _ (quiet_held _ Hw) Hd Hn) as (Hf & Hds & Hy). split; [done..| |done].
  assert (Ha : stream_at stream (close_downstream w) = None) by (unfold stream_at; by rewrite Hkind, Hn).
  rewrite Ha. destruct Hopen as [p ->]. by apply moves_reset.
Qed.

Lemma dn_looked {A} q (g : A -> reply) (k : call A) : looks q = true ->
  triple quiet k (fun _ => quiet) (fun _ _ => False) -> triple quiet k (fun a => final q (Ok (g a))) (fun x => final q (Err x)).
Proof. intros Hl Hk. eapply triple_weaken; [exact Hk|done| |done]. intros a w. by apply quiet_looked. Qed.

Lemma dn_only_dynamic {A} q (m : eff VmError (TcpSocketState * option SharedIo) A) Q :
  triple (eq w0) (with_mutable_dynamic_tcp_socket_state stream m) Q (fun x => final q (Err x)).
Proof.
  unfold with_mutable_dynamic_tcp_socket_state. eapply triple_bind.
  { eapply triple_weaken; [apply triple_decoded, dn_kind|done|intros d w Hw; exact Hw|]. intros x w [Hw [e ->]]. by apply quiet_refused. }
  intros d. apply triple_fact. intros ->. apply triple_throw. intros w. apply quiet_refused.
Qed.

Lemma dn_serve q : triple (eq w0) (serve stream q) (fun a => final q (Ok a)) (fun x => final q (Err x)).
Proof.
  assert (Hd : forall h, Reserved TcpDownstream ≠ OutboundExchange h) by done.
  destruct q; apply triple_done.
  - apply (dn_after IsPresent Flag), dn_looked; [done|]. by apply triple_ret.
  - apply dn_only_dynamic.
  - unfold stream_set_target. destruct (format_socket_authority _ _ _) as [[[t n] p]|e]; [|apply quiet_fails]. apply (dn_only_dynamic (SetTarget host port)).
  - unfold stream_connect. eapply (triple_bind _ _ _ (fun _ _ => False)); [|intros []; by apply triple_ret].
    unfold ensure_dynamic_tcp_stream_connected. eapply triple_bind.
    { eapply triple_weaken; [apply triple_decoded, dn_kind|done|intros d w Hw; exact Hw|]. intros x w [Hw [e ->]]. by apply quiet_refused. }
    intros d. apply triple_fact. intros ->. apply triple_throw. intros w. apply quiet_refused.
  - apply (dn_after GetPhase Text), dn_looked; [done|]. by intros w Hw.
  - apply (dn_after GetLocalAddr Text), dn_looked; [done|]. by intros w Hw.
  - apply (dn_after GetPeerAddr Text), dn_looked; [done|]. by intros w Hw.
  - apply dn_eof_call.
  - apply dn_close.
  - eapply triple_bind; [by apply (triple_read _ dn_kind Hd dn_chunk (Read max_bytes))|]. intros c. by apply triple_ret.
  - by apply (triple_read _ dn_kind Hd dn_chunk (ReadBinary max_bytes)).
  - apply (triple_read_exact _ dn_kind Hd dn_chunk).
  - eapply triple_bind; [by apply (triple_peek (Peek max_bytes))|]. intros c. by apply triple_ret.
  - by apply (triple_peek (PeekBinary max_bytes)).
  - by apply dn_write.
  - unfold stream_write_binary, value_to_bytes. destruct (as_bytes payload) as [l|] eqn:Hl; [|apply quiet_fails].
    by apply (dn_write (WriteBinary payload)).
Qed.

End downstream.

(** *** Handles without a stream *)

Section absent.
Context (Habsent : stream_at stream w0 = None).
Context (Hnone : decode_tcp_stream_handle stream = None -> w0.(net).(tcp_streams) !! stream = None).

(** Still without one; what the HTTP side does to itself does not matter. *)
Definition gone (w : world) : Prop :=
  held w /\ stream_at stream w = None /\ (decode_tcp_stream_handle stream = None -> w.(net).(tcp_streams) !! stream = None).

Lemma gone_final q r w : gone w -> final q r w.
Proof.
  intros ((Hf & Hd & Hy) & Hn & _). split; [done..| |].
  - rewrite Habsent, Hn. apply moves_absent.
  - rewrite Habsent. intros [[? [=]]|[Hk [? Hs]]]. by rewrite (Hnone Hk) in Hs.
Qed.
Lemma gone_start : gone w0.
Proof. split; [apply quiet_held, quiet_refl|done]. Qed.

Lemma gone_http {A} (m : eff ended Http A) : keeps gone (on_http m).
Proof. intros w Hw. unfold on_http, zoom. by destruct (m (http w)) as [[a|e] h]. Qed.
Lemma gone_flow r f : keeps (E:=ended) gone (modify (update_flow r f)).
Proof. by intros w Hw. Qed.
Lemma gone_note note d : keeps gone (note_stream note d).
Proof.
  intros w Hw. destruct d as [r|h|h]; cbn; [done|done|]. unfold mbind, eff_bind. cbn. by destruct (exchange_transport h (http w)).
Qed.

Lemma gone_decode {A} (k : TcpStreamHandle -> call A) :
  (forall d, (forall h, d ≠ Dynamic h) -> (forall r, d = Reserved r -> decode_tcp_stream_handle stream = Some r) -> keeps gone (k d)) ->
  keeps gone (d ← decode_stream stream; k d).
Proof.
  intros Hk w Hw. unfold decode_stream. destruct (decode_tcp_stream_handle stream) as [[|]|] eqn:Hd.
  - apply Hk; [done|by intros r [= <-]|exact Hw].
  - apply Hk; [done|by intros r [= <-]|exact Hw].
  - unfold mbind, eff_bind. cbn. unfold tcp_stream_exists. destruct Hw as (Hh & Hn & Hs). rewrite (Hs Hd).
    rewrite bool_decide_false by (by intros [? ?]). cbn.
    destruct (outbound_exchange_exists stream w); cbn; [apply Hk; done|done].
Qed.

Lemma gone_mutable {A} (m : eff VmError (TcpSocketState * option SharedIo) A) : keeps gone (with_mutable_dynamic_tcp_socket_state stream m).
Proof. apply gone_decode. intros [r|h|h] Hd _; [apply keeps_throw|by destruct (Hd h)|apply keeps_throw]. Qed.

Lemma gone_io s (w : world) : gone w -> decode_tcp_stream_handle stream = Some TcpDownstream -> downstream_now w = Raw s -> io_of s w = Some None.
Proof.
  intros (_ & Hn & _) Hk Hnow. unfold stream_at in Hn. rewrite Hk, Hnow in Hn.
  destruct (io_of s w) as [[io|]|] eqn:Hio; [done|done|]. exfalso. clear Hn.
  unfold downstream_now in Hnow. destruct (downstream_tls_io w) eqn:Ht; [injection Hnow as <-; cbn in Hio; congruence|].
  destruct (downstream_tcp_io w) eqn:Hc; [injection Hnow as <-; cbn in Hio; congruence|]. by case_bool_decide.
Qed.

Section raw.
Context (Hdown : decode_tcp_stream_handle stream = Some TcpDownstream) (s : slot).

(** A downstream that is attached, with its stream in use elsewhere. *)
Definition rawgone (w : world) : Prop := gone w /\ downstream_now w = Raw s /\ io_of s w = Some None.

Lemma rawgone_read_io unavailable failed n (w : world) : rawgone w -> read_io s unavailable failed n w = (Err (Error (HostError unavailable)), w).
Proof. intros (_ & _ & Hio). unfold read_io, mbind, eff_bind. cbn -[io_of]. by rewrite Hio. Qed.
Lemma rawgone_write_io unavailable what l (w : world) : rawgone w -> write_io s unavailable what l w = (Err (Error (HostError unavailable)), w).
Proof. intros (_ & _ & Hio). unfold write_io, mbind, eff_bind. cbn -[io_of]. by rewrite Hio. Qed.

Lemma rawgone_attached n : keeps rawgone (read_attached_downstream s n).
Proof.
  intros w Hw. unfold read_attached_downstream, mbind, eff_bind. by rewrite rawgone_read_io.
Qed.
Lemma rawgone_preread l w : rawgone w -> rawgone (w <| downstream_preread_buffer := l |>).
Proof.
  intros (((Hf & Hd & Hy) & Hn & Hs) & Hnow & Hio).
  assert (Hio' : io_of s (w <| downstream_preread_buffer := l |>) = Some None) by (by destruct (raw_slot w s Hnow) as [-> | ->]).
  split; [|by split]. split; [split; [|split; [|done]]|split; [|done]].
  - split; [apply Hf|]. intros Hne. by rewrite (is_downstream Hdown) in Hne.
  - unfold downstream_ok. change (downstream_now (w <| downstream_preread_buffer := l |>)) with (downstream_now w). by rewrite Hnow, Hio'.
  - unfold stream_at. rewrite Hdown. change (downstream_now (w <| downstream_preread_buffer := l |>)) with (downstream_now w). by rewrite Hnow, Hio'.
Qed.
Lemma rawgone_modify f : (forall w : world, f w = w <| downstream_preread_buffer := downstream_preread_buffer (f w) |>) -> keeps (E:=ended) rawgone (modify f).
Proof. intros Hf w Hw. cbn. rewrite Hf. by apply rawgone_preread. Qed.

Lemma rawgone_with_preread n : keeps rawgone (read_attached_downstream_with_preread s n).
Proof.
  apply keeps_bind; [intros w Hw; by apply rawgone_preread|]. intros c. case_bool_decide; [|apply keeps_ret].
  apply keeps_bind; [apply rawgone_attached|]. intros d. apply keeps_ret.
Qed.
Lemma rawgone_peek n : keeps rawgone (peek_attached_downstream s n).
Proof.
  apply keeps_bind; [apply keeps_get|]. intros w. cbv zeta.
  destruct (bool_decide (n <= length (preview_downstream_preread_bytes n w))%nat || attached_downstream_eof w); [apply keeps_ret|].
  apply keeps_bind; [apply rawgone_attached|]. intros c. apply keeps_bind; [|intros []; apply keeps_ret].
  intros w' Hw. by apply rawgone_preread.
Qed.
Lemma rawgone_write l : keeps rawgone (write_attached_downstream s l).
Proof. intros w Hw. unfold write_attached_downstream. by rewrite rawgone_write_io. Qed.

Lemma gone_mark_failed {A} (m : call A) (w : world) : keeps rawgone m -> rawgone w -> gone (or_mark_failed m w).2.
Proof.
  intros Hm Hw. specialize (Hm w Hw). unfold or_mark_failed. destruct (m w) as [[a|x] w1]; [apply Hm|].
  cbn in Hm. destruct x as [e| | |]; [|apply Hm..]. destruct Hm as ((Hh & Hn & Hs) & Hnow & Hio). cbn.
  destruct (mark_failed_shape (error_text e) w1) as [Hn1 Hd].
  split; [by eapply (detached_held Hdown)|]. split; [|by rewrite Hdown]. unfold stream_at. by rewrite Hdown, Hn1.
Qed.
End raw.

Lemma gone_attached {A} (k : slot -> call A) (pending buffered_ : call A) :
  decode_tcp_stream_handle stream = Some TcpDownstream ->
  (forall s, exists m, k s = or_mark_failed m /\ keeps (rawgone s) m) -> keeps gone pending -> keeps gone buffered_ ->
  keeps gone (w ← get_state; match downstream_now w with Raw s => k s | Pending => pending | Buffered => buffered_ end).
Proof.
  intros Hk Hraw Hp Hb w Hw. unfold mbind, eff_bind. cbn. destruct (downstream_now w) as [s| |] eqn:Hn; [|by apply Hp|by apply Hb].
  destruct (Hraw s) as (m & -> & Hm). apply (gone_mark_failed Hk s); [done|]. split; [done|]. split; [done|by apply gone_io].
Qed.

Lemma gone_or_error {A} (r : vm_result A) : keeps gone (or_error r).
Proof. destruct r; [apply keeps_ret|apply keeps_throw]. Qed.

Lemma gone_chunk d n : (forall h, d ≠ Dynamic h) -> (forall r, d = Reserved r -> decode_tcp_stream_handle stream = Some r) ->
  keeps gone (read_stream_binary_chunk d n).
Proof.
  intros Hd Hr. destruct d as [[|]|h|h]; [|apply gone_http|by destruct (Hd h)|apply gone_http].
  apply gone_attached; [by apply Hr| |apply keeps_throw|apply gone_http].
  intros s. eexists. split; [done|]. apply rawgone_with_preread. by apply Hr.
Qed.

Lemma gone_read_binary n : keeps gone (stream_read_binary stream n).
Proof.
  apply gone_decode. intros d Hd Hr. apply keeps_bind; [apply gone_or_error|]. intros k.
  apply keeps_bind; [apply gone_note|]. intros []. by apply gone_chunk.
Qed.
Lemma gone_exact_loop fuel want d out : (forall h, d ≠ Dynamic h) -> (forall r, d = Reserved r -> decode_tcp_stream_handle stream = Some r) ->
  keeps gone (read_exact_loop fuel want d out).
Proof.
  intros Hd Hr. revert out; induction fuel as [|fuel IH]; intros out; cbn [read_exact_loop]; case_bool_decide; try apply keeps_ret; [apply keeps_throw|].
  apply keeps_bind; [by apply gone_chunk|]. intros c. case_bool_decide; [apply keeps_throw|apply IH].
Qed.
Lemma gone_peek name n : keeps gone (peek_chunk name stream n).
Proof.
  apply gone_decode. intros d Hd Hr. apply keeps_bind; [apply gone_or_error|]. intros k.
  destruct d as [[|]|h|h]; try apply keeps_throw.
  apply gone_attached; [by apply Hr| |apply keeps_throw|apply keeps_throw].
  intros s. eexists. split; [done|]. apply rawgone_peek. by apply Hr.
Qed.
Lemma gone_write l : keeps gone (write_bytes stream l).
Proof.
  apply gone_decode. intros d Hd Hr. apply keeps_bind; [apply gone_note|]. intros [].
  apply keeps_bind; [|intros []; apply keeps_ret].
  destruct d as [[|]|h|h]; [|apply gone_http|by destruct (Hd h)|apply gone_http].
  apply gone_attached; [by apply Hr| |apply keeps_throw|apply gone_http].
  intros s. eexists. split; [done|]. apply rawgone_write.
Qed.
Lemma gone_eof : keeps gone (stream_eof stream).
Proof.
  apply gone_decode. intros d Hd Hr. destruct d as [[|]|h|h]; [|apply gone_http|by destruct (Hd h)|apply gone_http].
  apply keeps_bind; [apply keeps_get|]. intros w. destruct (downstream_now w); [apply keeps_ret..|apply gone_http].
Qed.
Lemma gone_close : keeps gone (stream_close stream).
Proof.
  apply gone_decode. intros d Hd Hr. destruct d as [[|]|h|h]; [|apply keeps_throw|by destruct (Hd h)|apply keeps_throw].
  specialize (Hr _ eq_refl). intros w (Hh & Hn & Hs). cbn.
  assert (Hn' : downstream_now (close_downstream w) = Buffered) by (unfold close_downstream; by destruct (TlsFlow.present _)).
  assert (Hd' : forall h, same_dynamic w (close_downstream w) h) by (intros h; unfold close_downstream; by destruct (TlsFlow.present _)).
  split; [by eapply (detached_held Hr)|]. split; [|by rewrite Hr]. unfold stream_at. by rewrite Hr, Hn'.
Qed.
Lemma gone_ensure : keeps gone (ensure_dynamic_tcp_stream_connected stream).
Proof. apply gone_decode. intros d Hd _. destruct d as [r|h|h]; [apply keeps_throw|by destruct (Hd h)|apply keeps_throw]. Qed.

Lemma keeps_fmap {A B} (P : world -> Prop) (m : call A) (f : A -> B) : keeps P m -> keeps P (f <$> m).
Proof. intros Hm w Hw. unfold fmap, eff_fmap. specialize (Hm w Hw). by destruct (m w) as [[a|e] w1]. Qed.

Lemma gone_serve q : keeps gone (serve stream q).
Proof.
  destruct q; apply keeps_fmap.
  - apply gone_decode. intros [r|h|h] Hd _; [apply keeps_ret|by destruct (Hd h)|apply keeps_ret].
  - apply gone_mutable.
  - apply keeps_bind; [apply gone_or_error|]. intros [[a n] p]. apply gone_mutable.
  - apply keeps_bind; [apply gone_ensure|]. intros []. apply keeps_ret.
  - apply gone_decode. intros d Hd _. apply keeps_bind; [apply keeps_get|]. intros w.
    destruct d as [r|h|h]; [apply keeps_ret|by destruct (Hd h)|destruct (exchange_transport h (http w)); [apply keeps_ret|apply keeps_throw]].
  - apply gone_decode. intros [[|]|h|h] Hd _; [|apply keeps_ret|by destruct (Hd h)|apply keeps_ret].
    apply keeps_bind; [apply keeps_get|]. intros w. apply keeps_ret.
  - apply gone_decode. intros d Hd _. apply keeps_bind; [apply keeps_get|]. intros w.
    destruct d as [[|]|h|h]; [apply keeps_ret..|by destruct (Hd h)|apply keeps_ret].
  - apply gone_eof.
  - apply gone_close.
  - apply keeps_bind; [apply gone_read_binary|]. intros c. apply keeps_ret.
  - apply gone_read_binary.
  - unfold stream_read_exact_binary. destruct (_ <? 0); [apply keeps_throw|].
    apply gone_decode. intros d Hd Hr. apply keeps_bind; [apply gone_note|]. intros []. by apply gone_exact_loop.
  - apply keeps_bind; [apply gone_peek|]. intros c. apply keeps_ret.
  - apply gone_peek.
  - apply gone_write.
  - apply keeps_bind; [apply gone_or_error|]. intros l. apply gone_write.
Qed.

End absent.

End one.

(** ** The theorems *)

Lemma serve_final stream q w0 : ok w0 -> let '(r, w) := serve stream q w0 in final stream w0 q r w.
Proof.
  intros Hok.
  assert (Hgo : triple (eq w0) (serve stream q) (fun a => final stream w0 q (Ok a)) (fun x => final stream w0 q (Err x)) ->
    let '(r, w) := serve stream q w0 in final stream w0 q r w).
  { intros Ht. specialize (Ht w0 eq_refl). by destruct (serve stream q w0) as [[a|x] w]. }
  assert (Hgone : stream_at stream w0 = None -> (decode_tcp_stream_handle stream = None -> w0.(net).(tcp_streams) !! stream = None) ->
    let '(r, w) := serve stream q w0 in final stream w0 q r w).
  { intros Ha Hn. assert (Hg : gone stream w0 (serve stream q w0).2) by (apply gone_serve; [done..|by apply gone_start]).
    destruct (serve stream q w0) as [r w]. by apply gone_final. }
  destruct (decode_tcp_stream_handle stream) as [[|]|] eqn:Hk.
  - destruct (stream_at stream w0) eqn:Ha; [|by apply Hgone]. apply Hgo, dn_serve; rewrite ?Ha; done.
  - apply Hgone; [|done]. unfold stream_at. by rewrite Hk.
  - destruct (tcp_streams (net w0) !! stream) as [st|] eqn:Hs; [by eapply Hgo, dy_serve|].
    apply Hgone; [|done]. destruct Hok as [_ Hd]. specialize (Hd stream). unfold dynamic_ok in Hd. rewrite Hs in Hd.
    unfold stream_at. by rewrite Hk, Hd.
Qed.

Lemma same_stream_at stream w0 w h : framed stream w0 w -> h ≠ stream -> stream_at h w = stream_at h w0.
Proof.
  intros [Hd Hs] Hh. unfold stream_at. destruct (decode_tcp_stream_handle h) as [[|]|] eqn:Hk; [|done|].
  - assert (Hs' : same_downstream w0 w).
    { apply Hs. intros ->. apply Hh. unfold decode_tcp_stream_handle in Hk.
      destruct (Z.eqb_spec h TCP_STREAM_DOWNSTREAM); [done|]. by destruct (h =? TCP_STREAM_DEFAULT_UPSTREAM). }
    rewrite (same_downstream_now _ _ Hs'). destruct (downstream_now w0) eqn:Hn; [|done..].
    rewrite (same_downstream_io _ _ _ Hs' Hn). by destruct Hs' as (_ & _ & -> & _).
  - by destruct (Hd h Hh) as [_ ->].
Qed.

Lemma call_moves stream q w : ok w ->
  let '(r, w') := serve stream q w in
  ok w' /\ moves q r (stream_at stream w) (stream_at stream w') /\
  (forall other, other ≠ stream -> stream_at other w' = stream_at other w) /\
  (is_Some (stream_at stream w) \/ decode_tcp_stream_handle stream = None /\ is_Some (w.(net).(tcp_streams) !! stream) ->
   match r with Ok _ => True | Err x => x = Hangs \/ exists e, x = Error e end).
Proof.
  intros Hok. pose proof (serve_final stream q w Hok) as Hf. destruct (serve stream q w) as [r w'].
  destruct Hf as [Hf Hd Hy Hm Hs]. split; [|split; [done|split]].
  - split; [done|]. intros h. destruct (decide (h = stream)) as [->|Hh]; [done|].
    destruct Hf as [Hf _]. eapply same_dynamic_ok; [by apply Hf|apply Hok].
  - intros other Ho. by eapply same_stream_at.
  - intros Ho. specialize (Hs Ho). by destruct r.
Qed.


(** *** Calls in sequence *)

Fixpoint calls (stream : Z) (qs : list request) (w : world) : list (request * result ended reply) * world :=
  match qs with
  | [] => ([], w)
  | q :: qs =>
      let '(r, w) := serve stream q w in
      let '(rs, w) := calls stream qs w in ((q, r) :: rs, w)
  end.

Definition handed_over (c : request * result ended reply) : list Z :=
  match c with (ReadBinary _, Ok (Bytes l)) | (ReadExact _, Ok (Bytes l)) => l | _ => [] end.
Definition handed_on (c : request * result ended reply) : list Z :=
  match c with (q, Ok _) => default [] (writes q) | _ => [] end.
(** Reads of text show their bytes only up to invalid UTF-8. *)
Definition exact (q : request) : bool := match q with Read _ => false | _ => negb (resets q) end.

Lemma moves_exactly q a p o : exact q = true -> moves q (Ok a) (Some p) o ->
  exists p', o = Some p' /\ p.(unread) = handed_over (q, Ok a) ++ p'.(unread) /\ p'.(written) = p.(written) ++ handed_on (q, Ok a).
Proof.
  intros Hq Hm. inversion Hm; subst; try done; cbn -[writes].
  - exists p. by destruct q; rewrite ?app_nil_r.
  - exists (MkPipe rest (written p)). destruct q; simplify_eq/=; try done. by rewrite app_nil_r.
  - simplify_eq/=. exists (MkPipe rest (written p)). by rewrite app_nil_r.
  - exists p. by destruct q; simplify_eq/=; rewrite ?app_nil_r.
  - simplify_eq/=. exists p. by rewrite app_nil_r.
  - simplify_eq/=. eexists. split; [done|]. cbn. destruct q; simplify_eq/=; try done. split; [done|].
    match goal with Hl : as_bytes _ = Some _ |- _ => by rewrite Hl end.
  - by destruct q.
Qed.

(** Of a sequence of calls on an open stream that all succeed, with any number
    of peeks, tests and writes between: the bytes its reads hand over, in their
    order, and then those that are still to be read, are the bytes that were to
    be read, each once; and what was written is what the writes were given, in
    their order. *)
Theorem tcp_stream_in_order stream qs w p :
  ok w -> stream_at stream w = Some p -> Forall (fun q => exact q = true) qs ->
  let '(rs, w') := calls stream qs w in
  Forall (fun c => is_Ok c.2 = true) rs ->
  exists p', stream_at stream w' = Some p' /\
    p.(unread) = concat (handed_over <$> rs) ++ p'.(unread) /\ p'.(written) = p.(written) ++ concat (handed_on <$> rs).
Proof.
  intros Hok Hp Hqs. revert w p Hok Hp. induction Hqs as [|q qs Hq Hqs IH]; intros w p Hok Hp; cbn.
  { intros _. exists p. by rewrite app_nil_r. }
  pose proof (call_moves stream q w Hok) as Hm. destruct (serve stream q w) as [r w1].
  destruct Hm as (Hok1 & Hm & _). specialize (IH w1). destruct (calls stream qs w1) as [rs w'].
  intros [Hr Hrs]%Forall_cons. destruct r as [a|x]; [|done]. rewrite Hp in Hm.
  destruct (moves_exactly _ _ _ _ Hq Hm) as (p1 & Hp1 & Hu & Hw).
  destruct (IH p1 Hok1 Hp1 Hrs) as (p' & Hp' & Hu' & Hw'). exists p'. split; [done|].
  cbn. by rewrite Hu, Hu', Hw', Hw, !app_assoc.
Qed.

(** A program that writes to the downstream after closing it is told that its
    bytes were written; they go to the HTTP response. *)
Theorem closed_downstream_takes_writes l w :
  let w1 := close_downstream w in
  write_bytes TCP_STREAM_DOWNSTREAM l w1 =
  (_ ← on_http (append_response_output_body_bytes l); mret (len l))
    (update_flow TcpDownstream TcpFlow.note_write (w1 <| downstream_transport_accessed := true |>)).
Proof.
  unfold close_downstream. cbv zeta. by destruct (TlsFlow.present _).
Qed.

End calls.

(** ** Examples *)

#[local] Existing Instance TlsConfig.text_pems.
#[local] Existing Instance HttpExchange.one_authority.
#[local] Instance offline : Network := quiet_network (fun _ => false).
#[local] Instance offline_laws : NetworkLaws := quiet_network_laws (fun _ => false).
#[local] Instance byte_values : Values := {| Value := list Z; as_bytes := Some |}.
#[local] Instance plain_error : ErrorText := fun e => match e with HostError m => m | TypeMismatch m => m end.

(** A raw connection, with no request and no exchanges. *)
Record Flows := MkFlows { tcp_flows : TcpStreamRef -> TcpFlowState; tls_flows : TlsSessionRef -> TlsFlowState }.
#[local] Instance raw_context : HttpSide Flows := {|
  tcp_dag r f := f.(tcp_flows) r;
  set_tcp_dag r flow f := MkFlows (fun r' => match r, r' with TcpDownstream, TcpDownstream | TcpDefaultUpstream, TcpDefaultUpstream => flow | _, _ => f.(tcp_flows) r' end) f.(tls_flows);
  tls_dag r f := f.(tls_flows) r;
  set_tls_dag r flow f := MkFlows f.(tcp_flows) (fun r' => match r, r' with TlsDownstream, TlsDownstream | TlsDefaultUpstream, TlsDefaultUpstream => flow | _, _ => f.(tls_flows) r' end);
  exchange_transport _ _ := None;
  set_exchange_transport _ _ f := f;
  read_request_body_next_chunk _ := mret [];
  request_body_eof := mret true;
  append_response_output_body_bytes _ := mret tt;
  append_outbound_exchange_body_bytes _ _ := throw Panics;
  read_outbound_exchange_response_next_chunk _ _ := throw Panics;
  outbound_exchange_response_eof _ := throw Panics;
|}.

Definition no_net : Net := MkNet FIRST_DYNAMIC_TCP_STREAM_HANDLE ∅ ∅ ∅ ∅ 0 0 [].
(** A connection on which this arrives, with one socket of the program's own. *)
Definition connection (incoming : list (Z * arrival)) : World Flows :=
  MkWorld (no_net <| tcp_streams := {[ 7 := TcpSocket.mark_connected "a" "b" TcpSocket.default_socket ]} |>
                  <| tcp_stream_ios := {[ 7 := Some (MkStream incoming [] [] []) ]} |>)
    (MkFlows (fun _ => TcpFlow.downstream_ready) (fun _ => TlsFlow.default_flow))
    (Some (Some (MkStream incoming [] [] []))) None [] false None None None None false.
Lemma connection_ok incoming : ok (connection incoming).
Proof.
  split; [done|]. intros h. unfold dynamic_ok. cbn.
  destruct (decide (h = 7)) as [->|Hh]; [by rewrite !lookup_singleton_eq|by rewrite !lookup_singleton_ne].
Qed.

Definition two_pieces : list (Z * arrival) := [(0, Data 104 [105; 33]); (5, Data 63 []); (9, Eof)].


Definition reader : list request := [PeekBinary 2; ReadBinary 2; Write "ok"; AtEof; ReadExact 2].
Lemma tcp_stream_in_order_witness :
  let '(rs, w') := calls TCP_STREAM_DOWNSTREAM reader (connection two_pieces) in
  exists p', stream_at TCP_STREAM_DOWNSTREAM w' = Some p' /\
    [104; 105; 33; 63] = concat (handed_over <$> rs) ++ p'.(unread) /\ p'.(written) = concat (handed_on <$> rs).
Proof.
  pose proof (tcp_stream_in_order TCP_STREAM_DOWNSTREAM reader (connection two_pieces) (MkPipe [104; 105; 33; 63] [])
    (connection_ok two_pieces) ltac:(vm_compute; reflexivity) ltac:(repeat constructor)) as H.
  assert (Hr : Forall (fun c => is_Ok c.2 = true) (calls TCP_STREAM_DOWNSTREAM reader (connection two_pieces)).1)
    by (vm_compute; repeat constructor).
  destruct (calls TCP_STREAM_DOWNSTREAM reader (connection two_pieces)) as [rs w']. exact (H Hr).
Defined.

Definition answers_of (stream : Z) (qs : list request) (incoming : list (Z * arrival)) : list (result ended reply) :=
  snd <$> (calls stream qs (connection incoming)).1.

(** Three bytes have arrived and the peer is silent.  A read of up to eight gives
    them; after a peek at them it waits, though they are there; and if it fails
    in the end they are lost. *)
Theorem peeked_bytes_held_back :
  let there := [(0, Data 1 [2; 3])] in
  answers_of TCP_STREAM_DOWNSTREAM [ReadBinary 8] there = [Ok (Bytes [1; 2; 3])] /\
  answers_of TCP_STREAM_DOWNSTREAM [PeekBinary 3; ReadBinary 8] there = [Ok (Bytes [1; 2; 3]); Err Hangs] /\
  answers_of TCP_STREAM_DOWNSTREAM [PeekBinary 3; ReadBinary 8; GetPhase] (there ++ [(9, ReadError "reset")]) =
  [Ok (Bytes [1; 2; 3]); Err (Error (HostError "downstream tcp read failed: reset")); Ok (Text "failed")].
Proof. split_and!; vm_compute; reflexivity. Qed.

(** A read that fails closes the downstream, and leaves a socket of the program
    connected. *)
Theorem failed_read_keeps_socket :
  answers_of 7 [ReadBinary 8; GetPhase; Write "more"] [(0, ReadError "reset")] =
  [Err (Error (HostError "tcp read failed: reset")); Ok (Text "connected"); Ok (Count 4)].
Proof. vm_compute. reflexivity. Qed.

End TcpCalls.
