(* ===== verification/TlsSessions.v ===== *)
(** Model of the host calls of [src/abi_impl/transport/tls.rs].  A session
    handle is the downstream, a socket of the program's own, or an HTTP exchange.
    A session is configured, then shaken hands with; rustls is a parameter.  The
    configurations of the downstream server and their resumption state are kept
    in caches that other connections share. *)

From S2P Require Import Prelude Bytes Effects LruStore ShardedStore TransportState TlsFlow HttpVersions HttpExchange TlsConfig Sockets TcpStreams.

Module TlsSessions.
Import Handles Sockets TcpStreams.
Import Sharded (ShardedRwLruStore).
Import Replay (ReplayPrefixedIo).
Import HttpVersion (HttpUpstreamScheme, scheme_as_str).
Import TlsFlow (TlsFlowState, TlsProtocolVersion, TlsSessionCacheKey, CachedTlsSession, DownstreamTlsResumptionKey,
  DownstreamTlsConfigurationKey, CachedDownstreamTlsConfiguration).
Import TlsConfig (TlsCrate, PreparedConfig, DownstreamTlsResumptionState).
Import HttpExchange (AuthorityCrate, HttpExchangeTransportState, tls_flow).

#[local] Existing Instances HttpExchange.eta_transport TlsFlow.TlsSessionCacheKey_eq_dec TlsFlow.TlsSessionCacheKey_countable
  TlsFlow.DownstreamTlsResumptionKey_eq_dec TlsFlow.DownstreamTlsResumptionKey_countable
  TlsFlow.DownstreamTlsConfigurationKey_eq_dec TlsFlow.DownstreamTlsConfigurationKey_countable.

(** ** What the calls use *)

(** The exchanges of the HTTP side. *)
Class TlsHttpSide (Http : Type) := {
  (** scheme, host and port of an exchange's request *)
  exchange_target : Z -> Http -> option (HttpUpstreamScheme * option string * option Z);
  upstream_response_available : Http -> bool;
  outbound_exchange_response_available : Z -> Http -> bool;
  websocket_connection_mode : Z -> Http -> bool;
  ensure_outbound_websocket_connection_open : Z -> eff ended Http unit;
  ensure_outbound_exchange_response_started : Z -> eff ended Http unit;
}.

(** rustls as a server, and the hashes of the cache keys.  The first argument is
    the number of calls made outside before. *)
Class TlsServer `{Network} := {
  (** [LazyConfigAcceptor]: the server name and the protocols of the client's
      hello, or the error with what [take_io] gives back *)
  observe_client_hello : nat -> ReplayPrefixedIo Stream ->
    result (string * option (ReplayPrefixedIo Stream)) (option string * list (list Z) * Stream);
  (** the stream of plain text, whether the session was resumed, the negotiated
      protocol and the peer's first certificate *)
  into_stream : nat -> PreparedConfig -> Stream -> result string (Stream * bool * option (list Z) * option (list Z));
  new_ticketer : nat -> result string unit;
  hash_pem : string -> Z;
  hash_session_key : TlsSessionCacheKey -> N;
  hash_resumption_key : DownstreamTlsResumptionKey -> N;
  hash_configuration_key : DownstreamTlsConfigurationKey -> N;
}.

(** ** Texts *)

(** [str::replace] with nothing. *)
Fixpoint without (pat : list Z) (skip : nat) (l : list Z) : list Z :=
  match l with
  | [] => []
  | b :: l =>
      match skip with
      | S skip => without pat skip l
      | O => if bool_decide (pat `prefix_of` b :: l) then without pat (length pat - 1) l else b :: without pat 0 l
      end
  end.
Definition remove_all (pat s : string) : string := string_of_bytes (without (bytes_of_string pat) 0 (bytes_of_string s)).
Definition replace_char (a b : Z) (s : string) : string :=
  string_of_bytes ((fun c => if c =? a then b else c) <$> bytes_of_string s).

Definition parse_tls_version_label (label : string) : vm_result TlsProtocolVersion :=
  let normalized := remove_all " " (replace_char 95 46 (remove_all "tls" (remove_all "tlsv" (to_ascii_lowercase (trim label))))) in
  if decide (normalized = "1.0") then Ok TlsFlow.Tls1_0
  else if decide (normalized = "1.1") then Ok TlsFlow.Tls1_1
  else if decide (normalized = "1.2") then Ok TlsFlow.Tls1_2
  else if decide (normalized = "1.3") then Ok TlsFlow.Tls1_3
  else Err (HostError ("unsupported TLS version '" +:+ label +:+ "'; expected one of 1.0, 1.1, 1.2, 1.3")).

Definition parse_alpn_list (raw : string) : vm_result (list string) :=
  if is_empty (trim raw) then Ok []
  else
    match filter (fun value => value ≠ "") (trim <$> split_on 44 raw) with
    | [] => Err (HostError "tls::session::set_alpn requires at least one non-empty protocol")
    | protocols => Ok protocols
    end.

Example version_labels :
  parse_tls_version_label <$> [" TLSv1_2 "; "tls 1.3"; "1.1"] = [Ok TlsFlow.Tls1_2; Ok TlsFlow.Tls1_3; Ok TlsFlow.Tls1_1].
Proof. vm_compute. reflexivity. Qed.
Example alpn_lists : parse_alpn_list <$> ["h2, http/1.1"; "  "; " , "] =
  [Ok ["h2"; "http/1.1"]; Ok []; Err (HostError "tls::session::set_alpn requires at least one non-empty protocol")].
Proof. vm_compute. reflexivity. Qed.

Section calls.
Context `{NW : Network} `{TS : !TlsServer} `{AC : AuthorityCrate} `{VA : Values} `{ET : ErrorText} `{B64 : Base64}.
Context {Http : Type} `{HS : HttpSide Http} `{TH : !TlsHttpSide Http}.
Abbreviation world := (World Http).

(** ** The state *)

(** The transport of a request, the services it shares with others, and a log of
    the handshakes with clients: the flow and the configuration of each. *)
Record Tls := MkTls {
  transport : world;
  tls_session_cache : option (ShardedRwLruStore TlsSessionCacheKey CachedTlsSession);
  downstream_tls_resumption_cache : option (ShardedRwLruStore DownstreamTlsResumptionKey DownstreamTlsResumptionState);
  downstream_tls_resumption_entries : nat;
  downstream_tls_configuration_cache :
    option (ShardedRwLruStore DownstreamTlsConfigurationKey (CachedDownstreamTlsConfiguration PreparedConfig));
  served : list (TlsFlowState * PreparedConfig);
}.
#[export] Instance eta_tls : Eta Tls := fun t =>
  MkTls t.(transport) t.(tls_session_cache) t.(downstream_tls_resumption_cache) t.(downstream_tls_resumption_entries)
    t.(downstream_tls_configuration_cache) t.(served).

Definition calling (A : Type) : Type := eff ended Tls A.
Definition on_transport {A} (m : TcpStreams.call A) : calling A := zoom transport (fun w t => t <| transport := w |>) m.
Definition change (f : world -> world) : calling unit := on_transport (modify f).
Definition look {A} (f : world -> A) : calling A := t ← get_state; mret (f t.(transport)).
Definition outside {A} (f : nat -> A) : calling (nat * A) := on_transport (on_net (fun n =>
  (Ok (n.(outside_calls), f n.(outside_calls)), n <| outside_calls := S n.(outside_calls) |>))).

(** Indexing the shards of a cache may panic. *)
Definition or_panic_at {A} (o : option A) : calling A := match o with Some a => mret a | None => throw Panics end.

(** ** Sessions *)

Inductive TlsSessionHandle := Reserved (r : TlsSessionRef) | Dynamic (handle : Z) | OutboundExchange (handle : Z).

Definition decode_session (session : Z) : calling TlsSessionHandle :=
  match decode_tls_session_handle session with
  | Some r => _ ← match r with TlsDownstream => on_transport note_downstream_transport_access | _ => mret tt end; mret (Reserved r)
  | None =>
      w ← look id;
      if tcp_stream_exists session w then mret (Dynamic session)
      else if outbound_exchange_exists session w then mret (OutboundExchange session)
      else host_error ("invalid tls session handle " +:+ dec session +:+
             "; use 0/1 for reserved sessions, a dynamic tcp handle from tcp::stream::new(), or an outbound exchange handle")
  end.

Definition session_flow (session : TlsSessionHandle) : calling TlsFlowState :=
  w ← look id;
  match session with
  | OutboundExchange handle => or_panic_at (tls_flow <$> exchange_transport handle w.(http))
  | Dynamic handle => mret (default TlsFlow.for_dynamic_socket (w.(net).(dynamic_tls_sessions) !! handle))
  | Reserved r => mret (tls_dag r w.(http))
  end.

(** [dynamic_tls_sessions.get_or_insert_with(handle, for_dynamic_socket)] and a
    change of what it gives. *)
Definition update_or_insert (handle : Z) (f : TlsFlowState -> TlsFlowState) (w : world) : world :=
  w <| net := w.(net) <| dynamic_tls_sessions :=
    <[handle := f (default TlsFlow.for_dynamic_socket (w.(net).(dynamic_tls_sessions) !! handle))]> w.(net).(dynamic_tls_sessions) |> |>.
Definition update_dynamic (handle : Z) (f : TlsFlowState -> TlsFlowState) : calling unit :=
  on_transport (on_net (update_tls_session handle f)).
Definition update_tcp (handle : Z) (f : TcpSocket.TcpSocketState -> TcpSocket.TcpSocketState) : calling unit :=
  on_transport (on_net (update_socket handle f)).
(** Whether there is such an exchange, whose flow is changed. *)
Definition update_exchange (handle : Z) (f : TlsFlowState -> TlsFlowState) : calling bool := fun t =>
  match exchange_transport handle t.(transport).(http) with
  | None => (Ok false, t)
  | Some x =>
      (Ok true, t <| transport := t.(transport) <| http := set_exchange_transport handle (x <| tls_flow := f (tls_flow x) |>) t.(transport).(http) |> |>)
  end.

(** The target of a session that is an exchange. *)
Definition session_target (session : TlsSessionHandle) : calling (option (HttpUpstreamScheme * option string * option Z * TlsFlowState)) :=
  w ← look id;
  match session with
  | Reserved TlsDownstream | Dynamic _ => mret None
  | Reserved TlsDefaultUpstream =>
      '(scheme, host, port) ← or_panic_at (exchange_target HttpExchange.DEFAULT_UPSTREAM_EXCHANGE_HANDLE w.(http));
      mret (Some (scheme, host, port, tls_dag TlsDefaultUpstream w.(http)))
  | OutboundExchange handle =>
      mret ('(scheme, host, port) ← exchange_target handle w.(http);
            t ← exchange_transport handle w.(http); Some (scheme, host, port, tls_flow t))
  end.

Definition apply_cached_session (session : TlsSessionHandle) : calling bool :=
  t ← get_state;
  match t.(tls_session_cache) with
  | None => mret false
  | Some cache =>
      target ← session_target session;
      let key := '(scheme, host, port, flow) ← target; host ← host; port ← port;
                 TlsFlow.tls_session_cache_key HttpExchange.host_of hash_pem (scheme_as_str scheme) host port flow in
      match key with
      | None => mret false
      | Some key =>
          cached ← or_panic_at (Sharded.peek_cloned hash_session_key cache key);
          match cached, session with
          | Some cached, Reserved TlsDefaultUpstream =>
              _ ← change (update_tls TlsDefaultUpstream (TlsFlow.mark_session_reused cached)); mret true
          | Some cached, OutboundExchange handle => update_exchange handle (TlsFlow.mark_session_reused cached)
          | _, _ => mret false
          end
      end
  end.

(** ** Configuration *)

Definition downstream_tls_session_is_configurable (w : world) : bool :=
  (bool_decide (is_Some w.(downstream_tcp_io)) || bool_decide (is_Some w.(downstream_tls_server_start)))
  && negb (TlsFlow.handshake_complete (tls_dag TlsDownstream w.(http))).

(** None of the changes fails. *)
Definition with_configurable_session_mut (session : Z) (mutate : TlsFlowState -> TlsFlowState) : calling unit :=
  d ← decode_session session;
  w ← look id;
  match d with
  | Reserved TlsDownstream =>
      if negb (downstream_tls_session_is_configurable w)
      then host_error "downstream tls session is read-only in the current runtime state"
      else change (fun w => update_tls TlsDownstream mutate w <| downstream_tls_server_config := None |>)
  | Reserved TlsDefaultUpstream =>
      if upstream_response_available w.(http)
      then host_error "default upstream tls session is read-only after the exchange has started"
      else change (update_tls TlsDefaultUpstream mutate)
  | Dynamic handle =>
      _ ← change (update_or_insert handle id);
      flow ← session_flow d;
      if TlsFlow.handshake_complete flow || bool_decide (is_Some (w.(net).(dynamic_tls_session_ios) !! handle))
      then host_error ("dynamic tls session handle " +:+ dec handle +:+ " is read-only after the handshake completes")
      else change (update_or_insert handle mutate)
  | OutboundExchange handle =>
      if outbound_exchange_response_available handle w.(http)
      then host_error ("tls session handle " +:+ dec handle +:+ " is read-only after the exchange has started")
      else found ← update_exchange handle mutate; if (found : bool) then mret tt else throw Panics
  end.

Definition session_set_alpn (session : Z) (protocols : string) : calling unit :=
  protocols ← or_error (parse_alpn_list protocols);
  with_configurable_session_mut session (TlsFlow.set_desired_alpn protocols).
Definition session_set_verify (session : Z) (verify : bool) : calling unit :=
  with_configurable_session_mut session (TlsFlow.set_verify_peer verify).
Definition session_set_verify_hostname (session : Z) (verify : bool) : calling unit :=
  with_configurable_session_mut session (TlsFlow.set_verify_hostname verify).
Definition session_set_trusted_certificate (session : Z) (certificate_pem : string) : calling unit :=
  with_configurable_session_mut session (TlsFlow.set_trusted_certificate_pem certificate_pem).
Definition session_set_client_certificate (session : Z) (certificate_pem : string) : calling unit :=
  with_configurable_session_mut session (TlsFlow.set_client_certificate_pem certificate_pem).
Definition session_set_client_private_key (session : Z) (private_key_pem : string) : calling unit :=
  with_configurable_session_mut session (TlsFlow.set_client_private_key_pem private_key_pem).
Definition session_set_server_certificate (session : Z) (certificate_pem : string) : calling unit :=
  with_configurable_session_mut session (TlsFlow.set_server_certificate_pem certificate_pem).
Definition session_set_server_private_key (session : Z) (private_key_pem : string) : calling unit :=
  with_configurable_session_mut session (TlsFlow.set_server_private_key_pem private_key_pem).
Definition session_set_sni (session : Z) (enabled : bool) : calling unit :=
  with_configurable_session_mut session (TlsFlow.set_sni_enabled enabled).
Definition session_set_min_version (session : Z) (version : string) : calling unit :=
  version ← or_error (parse_tls_version_label version);
  with_configurable_session_mut session (TlsFlow.set_min_version (Some version)).
Definition session_set_max_version (session : Z) (version : string) : calling unit :=
  version ← or_error (parse_tls_version_label version);
  with_configurable_session_mut session (TlsFlow.set_max_version (Some version)).

(** ** The caches of the downstream server *)

Definition downstream_tls_resumption_state (flow : TlsFlowState) : calling (option DownstreamTlsResumptionState) :=
  t ← get_state;
  match t.(downstream_tls_resumption_cache) with
  | None => mret None
  | Some cache =>
      if decide (t.(downstream_tls_resumption_entries) = 0%nat) then mret None
      else
        match TlsFlow.downstream_tls_resumption_key hash_pem flow with
        | None => mret None
        | Some key =>
            existing ← or_panic_at (Sharded.peek_cloned hash_resumption_key cache key);
            match existing with
            | Some existing => mret (Some existing)
            | None =>
                '(i, ticketer) ← outside new_ticketer;
                _ ← or_host_error ticketer (fun err => "failed to initialize downstream tls session tickets: " +:+ err);
                let state := TlsConfig.MkResumption key i in
                '(_, cache) ← or_panic_at (Sharded.insert hash_resumption_key cache key state);
                _ ← modify (fun t => t <| downstream_tls_resumption_cache := Some cache |>);
                mret (Some state)
            end
        end
  end.

Definition cached_downstream_configuration (start : DownstreamTlsServerStart) : calling (option (CachedDownstreamTlsConfiguration PreparedConfig)) :=
  t ← get_state;
  match t.(downstream_tls_configuration_cache) with
  | None => mret None
  | Some cache =>
      or_panic_at (Sharded.peek_cloned hash_configuration_key cache
        (TlsFlow.downstream_tls_configuration_key start.(client_hello_server_name) start.(client_hello_alpn)))
  end.

Definition build_downstream_server_config (flow : TlsFlowState) : calling PreparedConfig :=
  config ← or_host_error (TlsConfig.build_downstream_server_config flow) id;
  resumption ← downstream_tls_resumption_state flow;
  mret (config, resumption).

Definition cached_configuration (flow : TlsFlowState) (config : PreparedConfig) : CachedDownstreamTlsConfiguration PreparedConfig :=
  TlsFlow.MkCachedConfiguration (TlsFlow.desired_alpn flow) (TlsFlow.verify_peer flow) (TlsFlow.trusted_certificate_pem flow)
    (TlsFlow.server_certificate_pem flow) (TlsFlow.server_private_key_pem flow) (TlsFlow.min_version flow)
    (TlsFlow.max_version flow) config.
Definition cache_downstream_server_config (key : DownstreamTlsConfigurationKey) (flow : TlsFlowState) (config : PreparedConfig) : calling unit :=
  t ← get_state;
  match t.(downstream_tls_configuration_cache) with
  | None => mret tt
  | Some cache =>
      '(_, cache) ← or_panic_at (Sharded.insert hash_configuration_key cache key (cached_configuration flow config));
      modify (fun t => t <| downstream_tls_configuration_cache := Some cache |>)
  end.

(** ** Starting a session *)

Definition take_dynamic_tcp_stream_for_tls (handle : Z) : calling Stream :=
  w ← look id;
  match w.(net).(tcp_stream_ios) !! handle with
  | None => host_error (dynamic_handle handle +:+ " must be connected before starting tls")
  | Some io =>
      _ ← change (TcpStreams.set_io (DynamicIo handle) None);
      match io with
      | None => host_error (dynamic_handle handle +:+ " is already in use")
      | Some stream => mret stream
      end
  end.

(** The hello of the client was seen, or not. *)
Definition hello_seen (start : DownstreamTlsServerStart) : calling unit :=
  cached ← cached_downstream_configuration start;
  change (fun w =>
    update_tls TlsDownstream (fun flow =>
      let flow := TlsFlow.observe_downstream_client_hello start.(client_hello_server_name) flow in
      match cached with Some cached => TlsFlow.restore_downstream_configuration cached flow | None => flow end) w
    <| downstream_tls_server_config := TlsFlow.cc_server_config <$> cached |>
    <| downstream_tls_server_start := Some start |>).
Definition hello_failed (err : string) (io : option (ReplayPrefixedIo Stream)) : calling unit :=
  _ ← match io with
      | Some io =>
          let '(prefix, raw_stream) := Replay.into_parts io in
          change (fun w => w <| downstream_tcp_io := Some (Some raw_stream) |> <| downstream_preread_buffer := prefix |>)
      | None => mret tt
      end;
  host_error ("failed to observe downstream tls client hello: " +:+ err).

Definition downstream_from_socket : calling unit :=
  w ← look id;
  let pending_or_open := bool_decide (is_Some w.(downstream_tls_server_start)) || bool_decide (is_Some w.(downstream_tls_io))
    || negb (bool_decide (is_Some w.(downstream_tcp_io))) && TlsFlow.present (tls_dag TlsDownstream w.(http)) in
  if pending_or_open then mret tt
  else
    match w.(downstream_tcp_io) with
    | None => host_error "downstream tls session requires an attached downstream tcp transport"
    | Some raw_io =>
        let preread := w.(downstream_preread_buffer) in
        _ ← change (fun w => w <| downstream_tcp_io := None |> <| downstream_preread_buffer := [] |>);
        match raw_io with
        | None => host_error "downstream tcp transport is already in use"
        | Some tcp_stream =>
            '(_, r) ← outside (fun i => observe_client_hello i (Replay.new preread tcp_stream));
            match r with
            | Ok (server_name, alpn, stream) => hello_seen (MkStart server_name alpn stream)
            | Err (err, io) => hello_failed err io
            end
        end
    end.

Definition session_from_socket (stream : Z) : calling Z :=
  session ← decode_session stream;
  match session with
  | Reserved TlsDownstream => _ ← downstream_from_socket; mret (tls_handle TlsDownstream)
  | Reserved r => mret (tls_handle r)
  | Dynamic handle =>
      w ← look id;
      let observe flow := match w.(net).(tcp_streams) !! handle ≫= TcpSocket.target_host with
                          | Some host => TlsFlow.observe_socket_target HttpExchange.host_of host flow
                          | None => flow
                          end in
      _ ← change (update_or_insert handle observe);
      mret handle
  | OutboundExchange handle => mret handle
  end.

(** ** The handshake *)

Definition alpn_mismatch (flow : TlsFlowState) (negotiated : option string) : string :=
  "tls ALPN mismatch: requested [" +:+ String.concat ", " (TlsFlow.desired_alpn flow) +:+ "], negotiated " +:+ default "none" negotiated.

(** What the flow of a program's own socket learns from its handshake. *)
Definition learn (certificate : option (list Z)) (flow : TlsFlowState) : TlsFlowState :=
  let flow := TlsFlow.note_server_certificate_received certificate (TlsFlow.note_server_hello_received flow) in
  if TlsFlow.verify_peer flow && TlsFlow.verify_hostname flow
  then TlsFlow.note_server_certificate_verified flow else TlsFlow.note_verification_skipped flow.

Definition dynamic_connected (handle : Z) (tls_stream : Stream) (alpn : option (list Z)) (certificate : option (list Z)) : calling unit :=
  let negotiated := from_utf8_lossy <$> alpn in
  _ ← update_dynamic handle (learn certificate);
  w ← look id;
  _ ← match w.(net).(dynamic_tls_sessions) !! handle with
      | None => mret tt
      | Some flow =>
          if TlsFlow.accepts_negotiated_alpn negotiated flow
          then update_dynamic handle (TlsFlow.mark_handshake_complete negotiated)
          else _ ← update_dynamic handle TlsFlow.mark_failed; host_error (alpn_mismatch flow negotiated)
      end;
  _ ← update_tcp handle TcpSocket.mark_upgraded_tls;
  change (fun w => w <| net := w.(net) <| dynamic_tls_session_ios := <[handle := Some tls_stream]> w.(net).(dynamic_tls_session_ios) |> |>).

Definition dynamic_handshake (handle : Z) : calling unit :=
  flow ← session_flow (Dynamic handle);
  let peer_name := default "" (TlsFlow.peer_name flow) in
  if is_empty peer_name then
    host_error ("dynamic tls session handle " +:+ dec handle +:+
      " has no peer name; attach it to an http exchange with a target before calling tls::session::handshake")
  else
    name ← or_host_error (server_name peer_name) (fun err =>
      "invalid tls peer name '" +:+ peer_name +:+ "' for dynamic session " +:+ dec handle +:+ ": " +:+ err);
    _ ← change (update_or_insert handle (fun flow => TlsFlow.note_client_hello_sent (TlsFlow.note_handshake_prepared flow)));
    tcp_stream ← take_dynamic_tcp_stream_for_tls handle;
    config ← or_host_error (TlsConfig.build_dynamic_client_config flow) id;
    '(_, connected) ← outside (fun i => tls_connect i config name tcp_stream);
    match connected with
    | Ok (tls_stream, alpn, certificate) => dynamic_connected handle tls_stream alpn certificate
    | Err err =>
        _ ← update_dynamic handle TlsFlow.mark_failed;
        _ ← update_tcp handle (TcpSocket.mark_failed ("tls handshake failed: " +:+ err));
        host_error ("dynamic tls handshake failed for handle " +:+ dec handle +:+ ": " +:+ err)
    end.

Definition learn_downstream (resumed : bool) (certificate : option (list Z)) (flow : TlsFlowState) : TlsFlowState :=
  let flow := if resumed then TlsFlow.note_handshake_resumed flow else flow in
  let flow := TlsFlow.note_server_certificate_received certificate (TlsFlow.note_server_hello_received flow) in
  if TlsFlow.verify_peer flow && bool_decide (is_Some (TlsFlow.trusted_certificate_pem flow))
  then TlsFlow.note_server_certificate_verified flow else TlsFlow.note_verification_skipped flow.

Definition downstream_handshake : calling unit :=
  w ← look id;
  match w.(downstream_tls_server_start) with
  | None => host_error "downstream tls session has no pending client hello; call tls::session::from_socket on the downstream tcp stream first"
  | Some start =>
      let prepared := w.(downstream_tls_server_config) in
      _ ← change (fun w => w <| downstream_tls_server_start := None |> <| downstream_tls_server_config := None |>);
      flow ← session_flow (Reserved TlsDownstream);
      config ← match prepared with Some config => mret config | None => build_downstream_server_config flow end;
      let key := TlsFlow.downstream_tls_configuration_key start.(client_hello_server_name) start.(client_hello_alpn) in
      _ ← modify (fun t => t <| served := t.(served) ++ [(flow, config)] |>);
      '(_, r) ← outside (fun i => into_stream i config start.(TcpStreams.start));
      match r with
      | Ok (tls_stream, resumed, alpn, certificate) =>
          let negotiated := from_utf8_lossy <$> alpn in
          _ ← change (fun w => update_tls TlsDownstream (learn_downstream resumed certificate)
                                 (update_flow TcpDownstream TcpFlow.mark_connected w <| downstream_read_eof := false |>));
          flow' ← session_flow (Reserved TlsDownstream);
          if TlsFlow.accepts_negotiated_alpn negotiated flow' then
            _ ← change (fun w => update_tls TlsDownstream (TlsFlow.mark_handshake_complete negotiated) w
                                   <| downstream_tls_io := Some (Some tls_stream) |>);
            cache_downstream_server_config key flow config
          else
            _ ← change (update_tls TlsDownstream TlsFlow.mark_failed);
            host_error ("downstream " +:+ alpn_mismatch flow' negotiated)
      | Err err =>
          _ ← change (fun w => update_tls TlsDownstream TlsFlow.mark_failed
                                 (update_flow TcpDownstream (TcpFlow.mark_failed ("downstream tls handshake failed: " +:+ err)) w));
          host_error ("downstream tls handshake failed: " +:+ err)
      end
  end.

(** A session that is an exchange shakes hands when the exchange starts. *)
Definition exchange_handshake (handle : Z) : calling unit :=
  w ← look id;
  on_transport (on_http (if websocket_connection_mode handle w.(http)
                         then ensure_outbound_websocket_connection_open handle
                         else ensure_outbound_exchange_response_started handle)).

Definition session_handshake (session : Z) : calling bool :=
  session ← decode_session session;
  flow ← session_flow session;
  if negb (TlsFlow.present flow) then mret false
  else if TlsFlow.handshake_complete flow then mret true
  else
    applied ← apply_cached_session session;
    if (applied : bool) then mret true
    else
      _ ← match session with
          | Reserved TlsDefaultUpstream => exchange_handshake HttpExchange.DEFAULT_UPSTREAM_EXCHANGE_HANDLE
          | OutboundExchange handle => exchange_handshake handle
          | Dynamic handle => dynamic_handshake handle
          | Reserved TlsDownstream => downstream_handshake
          end;
      flow ← session_flow session;
      mret (TlsFlow.handshake_complete flow).

(** ** Looking at a session *)

Definition session_look {A} (session : Z) (f : TlsFlowState -> A) : calling A :=
  session ← decode_session session; flow ← session_flow session; mret (f flow).
Definition session_is_present (session : Z) : calling bool := session_look session TlsFlow.present.
Definition session_needs_configuration (session : Z) : calling bool := session_look session TlsFlow.needs_configuration.
Definition session_get_peer_name (session : Z) : calling string := session_look session (fun f => default "" (TlsFlow.peer_name f)).
Definition session_get_server_name (session : Z) : calling string := session_look session (fun f => default "" (TlsFlow.server_name f)).
Definition session_get_alpn (session : Z) : calling string := session_look session (fun f => default "" (TlsFlow.alpn f)).
Definition session_get_phase (session : Z) : calling string := session_look session TlsFlow.phase_label.
Definition session_get_peer_certificate (session : Z) : calling string :=
  session_look session (fun f => default "" (base64_encode <$> TlsFlow.peer_certificate_der f)).
Definition session_is_session_reused (session : Z) : calling bool := session_look session TlsFlow.is_session_reused.

End calls.
Arguments Tls {_ _} _.
End TlsSessions.
