(* ===== verification/TlsCalls.v ===== *)
(** Properties of the TLS host calls: whatever a program calls on sessions and
    streams, and whatever other connections do to the shared caches, a session
    that is ready was shaken hands with under the configuration it has. *)

From S2P Require Import Prelude Bytes Effects LruStore ShardedStore TransportState TlsFlow HttpVersions HttpExchange TlsConfig Sockets TcpStreams TcpCalls TlsSessions.

Module TlsCalls.
Import Handles Sockets TcpStreams TlsSessions.
Import Sharded (ShardedRwLruStore).
Import TlsFlow (TlsFlowState, CachedDownstreamTlsConfiguration, DownstreamTlsResumptionKey).
Import TcpFlow (TcpFlowState).
Import TlsConfig (TlsCrate, ServerConfig, PreparedConfig, DownstreamTlsResumptionState, made_for).
Import HttpExchange (AuthorityCrate, HttpExchangeTransportState).

#[local] Existing Instances HttpExchange.eta_transport TlsFlow.TlsSessionCacheKey_eq_dec TlsFlow.TlsSessionCacheKey_countable
  TlsFlow.DownstreamTlsResumptionKey_eq_dec TlsFlow.DownstreamTlsResumptionKey_countable
  TlsFlow.DownstreamTlsConfigurationKey_eq_dec TlsFlow.DownstreamTlsConfigurationKey_countable.

(** ** The settings a handshake depends on *)

Definition server_settings (f : TlsFlowState) :=
  (TlsFlow.present f, TlsFlow.desired_alpn f, TlsFlow.verify_peer f, TlsFlow.trusted_certificate_pem f,
   TlsFlow.server_certificate_pem f, TlsFlow.server_private_key_pem f, TlsFlow.min_version f, TlsFlow.max_version f).
Definition client_settings (f : TlsFlowState) :=
  (TlsFlow.desired_alpn f, TlsFlow.verify_peer f, TlsFlow.verify_hostname f, TlsFlow.sni_enabled f, TlsFlow.trusted_certificate_pem f,
   (TlsFlow.client_certificate_pem f, TlsFlow.client_private_key_pem f), (TlsFlow.min_version f, TlsFlow.max_version f)).

Section settings.
Context `{TC : TlsCrate} (hash_pem : string -> Z).

Lemma server_config_settings f f' : server_settings f = server_settings f' ->
  TlsConfig.build_downstream_server_config f = TlsConfig.build_downstream_server_config f' /\
  TlsFlow.downstream_tls_resumption_key hash_pem f = TlsFlow.downstream_tls_resumption_key hash_pem f'.
Proof.
  destruct f, f'. unfold server_settings. cbn. intros [=]. subst. by split.
Qed.
Lemma client_config_settings f f' : client_settings f = client_settings f' ->
  TlsConfig.build_dynamic_client_config f = TlsConfig.build_dynamic_client_config f'.
Proof. destruct f, f'. unfold client_settings. cbn. intros [=]. by subst. Qed.

Lemma handshake_settings f f' : TlsFlow.handshake_step f f' ->
  server_settings f' = server_settings f /\ client_settings f' = client_settings f.
Proof.
  intros Hs%TlsFlow.handshake_step_settings. unfold TlsFlow.tls_settings in Hs. injection Hs as Hs.
  unfold server_settings, client_settings. split; congruence.
Qed.
End settings.

(** ** TCP calls leave TLS alone *)

Create HintDb untouched.

Definition keeps_downstream {Http A} `{HttpSide Http} (m : eff ended Http A) : Prop :=
  forall h, tls_dag TlsDownstream (m h).2 = tls_dag TlsDownstream h.

(** What the HTTP side does to itself does not touch the flow of the downstream. *)
Class TlsHttpLaws (Http : Type) `{HttpSide Http} `{TlsHttpSide Http} := {
  tls_set_get r f h : tls_dag r (set_tls_dag r f h) = f;
  tls_set_other r r' f h : r ≠ r' -> tls_dag r' (set_tls_dag r f h) = tls_dag r' h;
  tls_set_tcp r r' f h : tls_dag r' (set_tcp_dag r f h) = tls_dag r' h;
  tls_set_exchange n t h : tls_dag TlsDownstream (set_exchange_transport n t h) = tls_dag TlsDownstream h;
  tls_read_request n : keeps_downstream (read_request_body_next_chunk n);
  tls_request_eof : keeps_downstream request_body_eof;
  tls_append_response l : keeps_downstream (append_response_output_body_bytes l);
  tls_append_request n l : keeps_downstream (append_outbound_exchange_body_bytes n l);
  tls_read_response n k : keeps_downstream (read_outbound_exchange_response_next_chunk n k);
  tls_response_eof n : keeps_downstream (outbound_exchange_response_eof n);
  tls_open_websocket n : keeps_downstream (ensure_outbound_websocket_connection_open n);
  tls_start_response n : keeps_downstream (ensure_outbound_exchange_response_started n);
}.

Section frame.
Context `{NW : Network} `{AC : AuthorityCrate} `{VA : Values} `{ET : ErrorText} {Http : Type}
  `{HS : HttpSide Http} `{TH : !TlsHttpSide Http} `{HL : !TlsHttpLaws Http}.
Abbreviation world := (World Http).

(** What the theorems on sessions speak of. *)
Definition tls_part (w : world) :=
  (w.(net).(dynamic_tls_sessions), w.(net).(dynamic_tls_session_ios), w.(downstream_tls_server_config),
   server_settings (tls_dag TlsDownstream w.(http))).

Definition untouched {A} (m : TcpStreams.call A) : Prop := forall p, keeps (fun w => tls_part w = p) m.

Lemma untouched_bind {A B} (m : TcpStreams.call A) (f : A -> TcpStreams.call B) :
  untouched m -> (forall a, untouched (f a)) -> untouched (m ≫= f).
Proof. intros Hm Hf p. apply keeps_bind; [apply Hm|]. intros a. apply Hf. Qed.
Lemma untouched_ret {A} (a : A) : untouched (mret a).
Proof. intros p. apply keeps_ret. Qed.
Lemma untouched_throw {A} e : untouched (throw (A:=A) e).
Proof. intros p. apply keeps_throw. Qed.
Lemma untouched_get : untouched get_state.
Proof. intros p. apply keeps_get. Qed.
Lemma untouched_modify f : (forall w, tls_part (f w) = tls_part w) -> untouched (modify f).
Proof. intros Hf p w Hw. cbn. by rewrite Hf. Qed.
Lemma untouched_fmap {A B} (m : TcpStreams.call A) (f : A -> B) : untouched m -> untouched (f <$> m).
Proof. intros Hm p. by apply TcpCalls.keeps_fmap. Qed.
Lemma untouched_or_error {A} (r : vm_result A) : untouched (or_error r).
Proof. destruct r; [apply untouched_ret|apply untouched_throw]. Qed.
Lemma untouched_or_host_error {A} (r : result string A) f : untouched (or_host_error r f).
Proof. destruct r; [apply untouched_ret|apply untouched_throw]. Qed.
Lemma untouched_host_error {A} s : untouched (host_error (A:=A) s).
Proof. apply untouched_throw. Qed.
Lemma untouched_http {A} (m : eff ended Http A) : keeps_downstream m -> untouched (on_http m).
Proof.
  intros Hm p w Hw. unfold on_http, zoom. specialize (Hm (http w)). destruct (m (http w)) as [r h]. cbn in *.
  unfold tls_part in *. cbn. by rewrite Hm.
Qed.
Lemma untouched_net {A} (m : networking A) :
  (forall n, let n' := (m n).2 in n'.(dynamic_tls_sessions) = n.(dynamic_tls_sessions) /\ n'.(dynamic_tls_session_ios) = n.(dynamic_tls_session_ios)) ->
  untouched (on_net m).
Proof.
  intros Hm p w Hw. unfold on_net, zoom. specialize (Hm (net w)). destruct (m (net w)) as [r n]. cbn in *.
  destruct Hm as [H1 H2]. unfold tls_part in *. cbn. by rewrite H1, H2.
Qed.
Lemma tls_part_set_io s io (w : world) : tls_part (TcpStreams.set_io s io w) = tls_part w.
Proof. by destruct s. Qed.
Lemma untouched_update_flow r f : untouched (modify (update_flow r f)).
Proof. apply untouched_modify. intros w. unfold tls_part. cbn. by rewrite tls_set_tcp. Qed.

(** Descends into a call, up to the parts named in its hints. *)
Ltac walk := repeat
  first [ apply untouched_ret | apply untouched_throw | apply untouched_get | apply untouched_host_error
        | apply untouched_or_error | apply untouched_or_host_error | apply untouched_update_flow
        | apply untouched_bind | apply untouched_fmap | progress intros | progress cbv zeta | solve [eauto with untouched]
        | match goal with |- untouched (match ?x with _ => _ end) => destruct x end
        | apply untouched_net; intros; by split
        | apply untouched_modify; intros; first [reflexivity|by rewrite tls_part_set_io] ].

Lemma untouched_note note d : untouched (note_stream note d).
Proof.
  destruct d as [r|h|h]; walk. apply untouched_modify. intros w. unfold tls_part. cbn. by rewrite tls_set_exchange.
Qed.
Lemma untouched_access : untouched note_downstream_transport_access.
Proof. by apply untouched_modify. Qed.
Lemma untouched_decode stream : untouched (decode_stream stream).
Proof. unfold decode_stream. walk; apply untouched_access. Qed.
Hint Resolve untouched_note untouched_decode : untouched.

Lemma untouched_mark_failed {A} (m : TcpStreams.call A) : untouched m -> untouched (or_mark_failed m).
Proof.
  intros Hm p w Hw. specialize (Hm p w Hw). unfold or_mark_failed. destruct (m w) as [[a|[e| | |]] w1]; try done.
  cbn in *. rewrite <-Hm. unfold mark_attached_downstream_failed, tls_part.
  destruct (_ || _); cbn; rewrite ?tls_set_get, tls_set_tcp; [|done].
  by rewrite (proj1 (handshake_settings _ _ (TlsFlow.hs_failed _))).
Qed.
Lemma untouched_read_io s unavailable failed n : untouched (read_io s unavailable failed n).
Proof. unfold read_io. walk. Qed.
Lemma untouched_write_io s unavailable what l : untouched (write_io s unavailable what l).
Proof. unfold write_io. walk. Qed.
Lemma untouched_attached s n : untouched (read_attached_downstream s n).
Proof. unfold read_attached_downstream. walk; apply untouched_read_io. Qed.
Lemma untouched_with_preread s n : untouched (read_attached_downstream_with_preread s n).
Proof.
  unfold read_attached_downstream_with_preread. walk; first [apply untouched_attached|by intros p w Hw].
Qed.
Lemma untouched_peek_attached s n : untouched (peek_attached_downstream s n).
Proof. unfold peek_attached_downstream. walk; apply untouched_attached. Qed.
Lemma untouched_dynamic_state h : untouched (dynamic_tcp_socket_state h).
Proof. unfold dynamic_tcp_socket_state. walk. Qed.
Hint Resolve untouched_mark_failed untouched_read_io untouched_write_io untouched_attached untouched_with_preread
  untouched_peek_attached untouched_dynamic_state : untouched.

Lemma untouched_outside {A} (f : nat -> A) : untouched (on_net (Sockets.outside f)).
Proof. apply untouched_net. intros n. by split. Qed.
Lemma untouched_update_socket h f : untouched (on_net (update_socket h f)).
Proof. apply untouched_net. intros n. by split. Qed.
Hint Resolve untouched_outside untouched_update_socket : untouched.
Lemma untouched_connect_any h b resolved e : untouched (connect_any h b resolved e).
Proof.
  revert e; induction resolved as [|peer resolved IH]; intros e; cbn [connect_any];
    unfold mark_dynamic_tcp_stream_failed, store_connected_dynamic_tcp_stream; walk.
Qed.
Hint Resolve untouched_connect_any : untouched.
Lemma untouched_ensure stream : untouched (ensure_dynamic_tcp_stream_connected stream).
Proof. unfold ensure_dynamic_tcp_stream_connected. walk. Qed.
Lemma untouched_mutable {A} stream (m : eff VmError (TcpSocket.TcpSocketState * option SharedIo) A) :
  untouched (with_mutable_dynamic_tcp_socket_state stream m).
Proof.
  unfold with_mutable_dynamic_tcp_socket_state. walk.
Qed.
Lemma untouched_chunk d n : untouched (read_stream_binary_chunk d n).
Proof.
  unfold read_stream_binary_chunk, mark_dynamic_tcp_stream_eof, clear_dynamic_tcp_stream_eof.
  walk; first [apply untouched_ensure|apply untouched_http; first [apply tls_read_request|apply tls_read_response]].
Qed.
Hint Resolve untouched_ensure untouched_mutable untouched_chunk : untouched.
Lemma untouched_exact_loop fuel want d out : untouched (read_exact_loop fuel want d out).
Proof. revert out; induction fuel as [|fuel IH]; intros out; cbn [read_exact_loop]; walk. Qed.
Hint Resolve untouched_exact_loop : untouched.
Lemma untouched_close : untouched (modify close_downstream).
Proof.
  apply untouched_modify. intros w. unfold close_downstream, tls_part. cbn.
  destruct (TlsFlow.present _) eqn:Hp; cbn; rewrite tls_set_tcp; [|done].
  by rewrite tls_set_get, (proj1 (handshake_settings _ _ (TlsFlow.hs_closed _))).
Qed.
Hint Resolve untouched_close : untouched.

(** No TCP call changes what the theorems on sessions speak of. *)
Lemma tcp_serve_untouched stream q : untouched (TcpCalls.serve stream q).
Proof.
  destruct q; cbn [TcpCalls.serve];
    unfold stream_is_present, stream_bind, stream_set_target, stream_connect, stream_get_phase, stream_get_local_addr,
      stream_get_peer_addr, stream_eof, stream_close, stream_read, stream_read_binary, stream_read_exact_binary, stream_peek,
      stream_peek_binary, peek_chunk, stream_write, stream_write_binary, write_bytes, clear_dynamic_tcp_stream_eof;
    walk; apply untouched_http; first [apply tls_request_eof|apply tls_response_eof|apply tls_append_response|apply tls_append_request].
Qed.

End frame.

(** ** The invariant *)

Section sessions.
Context `{NW : Network} `{TS : !TlsServer} `{AC : AuthorityCrate} `{VA : Values} `{ET : ErrorText} `{B64 : Base64}.
Context {Http : Type} `{HS : HttpSide Http} `{TH : !TlsHttpSide Http} `{HL : !TlsHttpLaws Http}.
Abbreviation tls := (Tls Http).

(** The configuration is the one that is built of the flow, and its resumption
    state was made for flows like this one. *)
Definition prepared_for (flow : TlsFlowState) (c : PreparedConfig) : Prop :=
  TlsConfig.build_downstream_server_config flow = Ok c.1 /\
  forall r, c.2 = Some r -> TlsFlow.downstream_tls_resumption_key hash_pem flow = Some (made_for r).

Record caches_ok (t : tls) : Prop := {
  resumption_ok cache k r : downstream_tls_resumption_cache t = Some cache ->
    Sharded.peek_cloned hash_resumption_key cache k = Some (Some r) -> made_for r = k;
  configuration_ok cache k c : downstream_tls_configuration_cache t = Some cache ->
    Sharded.peek_cloned hash_configuration_key cache k = Some (Some c) ->
    forall flow, TlsFlow.present flow = true -> prepared_for (TlsFlow.restore_downstream_configuration c flow) (TlsFlow.cc_server_config c);
}.

(** The stream of plain text came out of a handshake under the configuration of
    the flow; while the flow says it is complete, with the peer it names, and
    with what it says of the answer. *)
Definition shaken (flow : TlsFlowState) (s : Stream) : Prop := exists i config name s0 alpn certificate,
  TlsConfig.build_dynamic_client_config flow = Ok config /\
  tls_connect i config name s0 = Ok (s, alpn, certificate) /\
  TlsFlow.accepts_negotiated_alpn (from_utf8_lossy <$> alpn) flow = true /\
  (TlsFlow.handshake_complete flow = true ->
     server_name (default "" (TlsFlow.peer_name flow)) = Ok name /\    TlsFlow.alpn flow = from_utf8_lossy <$> alpn /\ TlsFlow.peer_certificate_der flow = certificate).

Definition sessions (t : tls) : gmap Z TlsFlowState := t.(transport).(net).(dynamic_tls_sessions).
Definition session_ios (t : tls) : gmap Z SharedIo := t.(transport).(net).(dynamic_tls_session_ios).
Definition downstream_flow (t : tls) : TlsFlowState := tls_dag TlsDownstream t.(transport).(http).

Record ok (t : tls) : Prop := {
  ok_caches : caches_ok t;
  ok_shaken h io : session_ios t !! h = Some io -> exists flow s, sessions t !! h = Some flow /\ io = Some s /\ shaken flow s;
  ok_ready h flow : sessions t !! h = Some flow -> TlsFlow.handshake_complete flow = true -> is_Some (session_ios t !! h);
  ok_prepared c : t.(transport).(downstream_tls_server_config) = Some c -> prepared_for (downstream_flow t) c;
  ok_served : Forall (fun fc => prepared_for fc.1 fc.2) t.(served);
}.

Lemma prepared_for_settings f f' c : server_settings f = server_settings f' -> prepared_for f c -> prepared_for f' c.
Proof.
  intros Hs [Hb Hr]. destruct (server_config_settings hash_pem f f' Hs) as [Eb Ek]. split; [by rewrite <-Eb|]. intros r. rewrite <-Ek. apply Hr.
Qed.
Lemma shaken_settings f f' s : client_settings f = client_settings f' ->
  (TlsFlow.handshake_complete f' = true -> TlsFlow.handshake_complete f = true /\ TlsFlow.peer_name f' = TlsFlow.peer_name f /\
     TlsFlow.alpn f' = TlsFlow.alpn f /\ TlsFlow.peer_certificate_der f' = TlsFlow.peer_certificate_der f) ->
  shaken f s -> shaken f' s.
Proof.
  intros Hs Hc (i & config & name & s0 & alpn & cert & Hb & Hconn & Ha & Hd). exists i, config, name, s0, alpn, cert.
  split_and!; [by rewrite <-(client_config_settings f f' Hs)|done| |].
  - rewrite <-Ha. unfold TlsFlow.accepts_negotiated_alpn. unfold client_settings in Hs. by injection Hs as ->.
  - intros H'. destruct (Hc H') as (H0 & -> & -> & ->). by apply Hd.
Qed.

Lemma ok_change f t : ok t -> tls_part (f t.(transport)) = tls_part t.(transport) -> ok (t <| transport := f t.(transport) |>).
Proof.
  intros [K1 K2 K3 K4 K5] Hp. unfold tls_part in Hp. injection Hp as E1 E2 E3 E4 E5 E6 E7 E8 E9 E10 E11.
  split; unfold sessions, session_ios, downstream_flow in *; cbn; rewrite ?E1, ?E2, ?E3; [by destruct K1|done|done| |done].
  intros c Hc. eapply prepared_for_settings; [|by apply K4]. unfold server_settings. congruence.
Qed.
(** Calls that change nothing the invariant speaks of. *)
Definition calm {A} (m : calling A) : Prop := forall p, keeps (fun t : tls => ok t /\ tls_part t.(transport) = p) m.

Lemma calm_keeps {A} (m : calling A) : calm m -> keeps ok m.
Proof. intros Hm t Ht. by apply (Hm (tls_part (transport t)) t). Qed.
Lemma calm_bind {A B} (m : calling A) (f : A -> calling B) : calm m -> (forall a, calm (f a)) -> calm (m ≫= f).
Proof. intros Hm Hf p. apply keeps_bind; [apply Hm|]. intros a. apply Hf. Qed.
Lemma calm_ret {A} (a : A) : calm (mret a).
Proof. intros p. apply keeps_ret. Qed.
Lemma calm_throw {A} e : calm (throw (A:=A) e).
Proof. intros p. apply keeps_throw. Qed.
Lemma calm_get : calm get_state.
Proof. intros p. apply keeps_get. Qed.
Lemma calm_on_transport {A} (m : TcpStreams.call A) : untouched m -> calm (on_transport m).
Proof.
  intros Hm p t [Ht Hp]. unfold on_transport, zoom. specialize (Hm p (transport t) Hp).
  destruct (m (transport t)) as [r w] eqn:E. cbn in *. split; [|done]. apply (ok_change (fun _ => w)); congruence.
Qed.
Lemma calm_change f : (forall w : World Http, tls_part (f w) = tls_part w) -> calm (change f).
Proof. intros Hf. by apply calm_on_transport, untouched_modify. Qed.
Lemma calm_look {A} (f : World Http -> A) : calm (look f).
Proof. by intros p t Ht. Qed.
Lemma calm_or_panic_at {A} (o : option A) : calm (or_panic_at o).
Proof. by destruct o; intros p t Ht. Qed.
Lemma calm_outside {A} (f : nat -> A) : calm (TlsSessions.outside (Http := Http) f).
Proof. apply calm_on_transport, untouched_net. by intros n. Qed.
Lemma calm_or_host_error {A} (r : result string A) f : calm (or_host_error r f).
Proof. by destruct r; intros p t Ht. Qed.
Lemma calm_or_error {A} (r : vm_result A) : calm (or_error r).
Proof. by destruct r; intros p t Ht. Qed.

Ltac stroll := repeat
  first [ apply calm_ret | apply calm_throw | apply calm_get | apply calm_look | apply calm_or_panic_at | apply calm_outside
        | apply calm_or_error | apply calm_or_host_error | apply calm_bind | progress intros | progress cbv zeta
        | match goal with |- calm (match ?x with _ => _ end) => destruct x end
        | solve [eauto with untouched] ].

Lemma calm_decode session : calm (decode_session session).
Proof. unfold decode_session. stroll. apply calm_on_transport, untouched_access. Qed.
Lemma calm_flow session : calm (session_flow session).
Proof. unfold session_flow. stroll. Qed.
#[local] Hint Resolve calm_decode calm_flow : untouched.

Lemma tls_part_default f (w : World Http) : tls_part (update_tls TlsDefaultUpstream f w) = tls_part w.
Proof. unfold tls_part. cbn. by rewrite tls_set_other. Qed.
Lemma calm_update_exchange h f : calm (update_exchange (Http := Http) h f).
Proof.
  intros p t [Ht Hp]. unfold update_exchange. destruct (exchange_transport h (http (transport t))) as [x|]; cbn; [|done].
  assert (Hw : tls_part (transport t <| http := set_exchange_transport h (x <| HttpExchange.tls_flow := f (HttpExchange.tls_flow x) |>) (http (transport t)) |>) = tls_part (transport t)).
  { unfold tls_part. cbn. by rewrite tls_set_exchange. }
  split; [|by rewrite Hw]. by apply (ok_change (fun w => _)).
Qed.

Lemma calm_apply_cached session : calm (apply_cached_session session).
Proof.
  unfold apply_cached_session, session_target. stroll; first [apply calm_update_exchange|apply calm_change, tls_part_default].
Qed.

(** *** The program's own sessions *)

Definition flow_at (h : Z) (t : tls) : TlsFlowState := default TlsFlow.for_dynamic_socket (sessions t !! h).
Definition put_flow (h : Z) (flow : TlsFlowState) (t : tls) : tls :=
  t <| transport := t.(transport) <| net := t.(transport).(net) <| dynamic_tls_sessions := <[h := flow]> (sessions t) |> |> |>.

Lemma ok_put h flow t : ok t -> (forall s, session_ios t !! h = Some (Some s) -> shaken flow s) ->
  (TlsFlow.handshake_complete flow = true -> is_Some (session_ios t !! h)) -> ok (put_flow h flow t).
Proof.
  intros [K1 K2 K3 K4 K5] Hs Hr. split; unfold sessions, session_ios, downstream_flow in *; cbn; try done; [by destruct K1| |].
  - intros k io Hk. destruct (K2 k io Hk) as (f & s & Hf & -> & Hsh). destruct (decide (k = h)) as [->|Hne].
    + exists flow, s. rewrite lookup_insert_eq. eauto.
    + exists f, s. by rewrite lookup_insert_ne.
  - intros k f. destruct (decide (k = h)) as [->|Hne]; [rewrite lookup_insert_eq; intros [= <-]; apply Hr|].
    rewrite lookup_insert_ne by done. apply K3.
Qed.

Lemma ready_here h t : ok t -> TlsFlow.handshake_complete (flow_at h t) = true -> is_Some (session_ios t !! h).
Proof.
  intros Ht. unfold flow_at. destruct (sessions t !! h) as [f|] eqn:Hf; cbn; [|done]. by apply (ok_ready t Ht).
Qed.
Lemma shaken_here h t s : ok t -> session_ios t !! h = Some (Some s) -> shaken (flow_at h t) s.
Proof. intros Ht Hs. destruct (ok_shaken t Ht h _ Hs) as (f & s' & Hf & [= <-] & Hsh). unfold flow_at. by rewrite Hf. Qed.

(** A change that keeps the settings and does not make the flow complete. *)
Definition humble (f : TlsFlowState -> TlsFlowState) : Prop := forall flow,
  client_settings (f flow) = client_settings flow /\
  (TlsFlow.handshake_complete (f flow) = true -> f flow = flow).
Lemma ok_put_humble h f t : humble f -> ok t -> ok (put_flow h (f (flow_at h t)) t).
Proof.
  intros Hf Ht. destruct (Hf (flow_at h t)) as [Hs Hc]. apply ok_put; [done| |].
  - intros s Hio. apply (shaken_settings (flow_at h t)); [exact (eq_sym Hs)| |by apply shaken_here].
    intros Hd. rewrite (Hc Hd) in Hd |- *. done.
  - intros Hd. rewrite (Hc Hd) in Hd. by apply ready_here.
Qed.

Lemma change_update_or_insert h f : change (Http := Http) (update_or_insert h f) = fun t => (Ok tt, put_flow h (f (flow_at h t)) t).
Proof. done. Qed.
Lemma alter_at {A} (f : A -> A) (k : Z) (m : gmap Z A) x : m !! k = Some x -> alter f k m = <[k := f x]> m.
Proof.
  intros Hx. apply map_eq. intros j. destruct (decide (j = k)) as [->|]; [by rewrite lookup_alter_eq, Hx, lookup_insert_eq|].
  by rewrite lookup_alter_ne, lookup_insert_ne.
Qed.
Lemma update_dynamic_run h f flow (t : tls) : sessions t !! h = Some flow ->
  update_dynamic h f t = (Ok tt, put_flow h (f flow) t).
Proof.
  intros Hf. unfold update_dynamic, on_transport, on_net, update_tls_session, zoom, modify, put_flow. cbn.
  unfold sessions in *. by rewrite (alter_at _ _ _ _ Hf).
Qed.

Lemma humble_id : humble id.
Proof. by intros flow. Qed.
Lemma humble_observe host : humble (TlsFlow.observe_socket_target HttpExchange.host_of host).
Proof. intros flow. unfold TlsFlow.observe_socket_target. by destruct flow. Qed.
Lemma humble_failed : humble TlsFlow.mark_failed.
Proof. intros flow. unfold TlsFlow.mark_failed. destruct flow as [[] ?]; cbn; by split. Qed.
Lemma humble_prepared : humble (fun flow => TlsFlow.note_client_hello_sent (TlsFlow.note_handshake_prepared flow)).
Proof.
  intros flow. unfold TlsFlow.note_client_hello_sent, TlsFlow.note_handshake_prepared. destruct flow as [[] ?]; cbn; by split.
Qed.

(** *** Configuring a session *)

(** A change of the downstream's flow, with the configuration prepared for it. *)
Lemma ok_downstream (t : tls) f config (w' : World Http) :
  ok t -> w'.(net).(dynamic_tls_sessions) = sessions t -> w'.(net).(dynamic_tls_session_ios) = session_ios t ->
  w'.(downstream_tls_server_config) = config -> server_settings (tls_dag TlsDownstream w'.(http)) = server_settings f ->
  (forall c, config = Some c -> prepared_for f c) -> ok (t <| transport := w' |>).
Proof.
  intros [K1 K2 K3 K4 K5] E1 E2 E3 Es Hc. split; unfold sessions, session_ios, downstream_flow in *; cbn; rewrite ?E1, ?E2, ?E3;
    [by destruct K1|done|done| |done].
  intros c Hcc. by eapply prepared_for_settings, Hc.
Qed.

Lemma keeps_looking {A B} (f : World Http -> A) (k : A -> calling (Http := Http) B) :
  (forall t, ok t -> ok (k (f t.(transport)) t).2) -> keeps ok (a ← look f; k a).
Proof. intros Hk t Ht. by apply Hk. Qed.

Lemma keeps_configurable session mutate :
  (forall f, TlsFlow.handshake_complete (mutate f) = TlsFlow.handshake_complete f) ->
  keeps ok (with_configurable_session_mut (Http := Http) session mutate).
Proof.
  intros Hm. apply keeps_bind; [apply calm_keeps, calm_decode|]. intros d. apply keeps_looking. intros t Ht.
  destruct d as [[|]|h|h].
  - destruct (negb (downstream_tls_session_is_configurable (id (transport t)))); [done|]. by eapply ok_downstream.
  - destruct (upstream_response_available (http (id (transport t)))); [done|]. by apply (calm_keeps _ (calm_change _ (tls_part_default mutate))).
  - rewrite !change_update_or_insert. unfold session_flow, look, mbind, eff_bind. cbn -[put_flow flow_at id]. cbn [id].
    pose proof (ok_put_humble h id t humble_id Ht) as Ht1. cbn [id] in Ht1. set (t1 := put_flow h (flow_at h t) t) in *.
    assert (Hf : dynamic_tls_sessions (net (transport t1)) !! h = Some (flow_at h t)) by (cbn; by rewrite lookup_insert_eq).
    rewrite Hf. cbn -[put_flow flow_at].
    destruct (TlsFlow.handshake_complete (flow_at h t)) eqn:Hc; [done|]. case_bool_decide as Hio; [done|]. cbn [orb].
    assert (Hf1 : flow_at h t1 = flow_at h t) by (unfold flow_at at 1, sessions; by rewrite Hf).
    apply ok_put; [done| |].
    + intros s Hs. destruct Hio. by exists (Some s).
    + by rewrite Hf1, Hm, Hc.
  - destruct (outbound_exchange_response_available h (http (id (transport t)))); [done|].
    pose proof (calm_keeps _ (calm_update_exchange h mutate) t Ht) as Hq. unfold mbind, eff_bind.
    by destruct (update_exchange h mutate t) as [[[]|] t'].
Qed.

(** *** Starting a session *)

Lemma keeps_hello_seen start : keeps ok (hello_seen (Http := Http) start).
Proof.
  intros t Ht. unfold hello_seen, cached_downstream_configuration, mbind, eff_bind. cbn.
  set (name := client_hello_server_name start).
  assert (Hgo : forall cached, (forall c, cached = Some c -> forall flow, TlsFlow.present flow = true ->
      prepared_for (TlsFlow.restore_downstream_configuration c flow) (TlsFlow.cc_server_config c)) ->
    ok (change (fun w => update_tls TlsDownstream (fun flow => let flow := TlsFlow.observe_downstream_client_hello name flow in
          match cached with Some cached => TlsFlow.restore_downstream_configuration cached flow | None => flow end) w
          <| downstream_tls_server_config := TlsFlow.cc_server_config <$> cached |> <| downstream_tls_server_start := Some start |>) t).2).
  { intros cached Hc. unfold change, on_transport, zoom, modify. cbn [snd fst].
    set (flow := match cached with Some c => TlsFlow.restore_downstream_configuration c (TlsFlow.observe_downstream_client_hello name (downstream_flow t))
                 | None => TlsFlow.observe_downstream_client_hello name (downstream_flow t) end).
    eapply (ok_downstream t flow); [done|done|done|done| |].
    - cbn. rewrite tls_set_get. by destruct cached.
    - cbn. intros c. destruct cached as [cached|]; [|done]. intros [= <-]. by apply Hc. }
  destruct (downstream_tls_configuration_cache t) as [cache|] eqn:Ecache; cbn -[change].
  - destruct (Sharded.peek_cloned _ _ _) as [cached|] eqn:Hp; cbn -[change]; [|done].
    apply Hgo. intros c ->. by apply (configuration_ok t (ok_caches t Ht) cache _ c Ecache Hp).
  - by apply (Hgo None).
Qed.

Lemma keeps_from_socket stream : keeps ok (session_from_socket (Http := Http) stream).
Proof.
  apply keeps_bind; [apply calm_keeps, calm_decode|]. intros [[|]|h|h].
  - apply keeps_bind; [|intros []; apply keeps_ret]. apply keeps_bind; [apply calm_keeps, calm_look|]. intros w. cbv zeta.
    destruct (_ || _); [apply keeps_ret|]. destruct (downstream_tcp_io w) as [[s|]|]; [| |apply keeps_throw].
    + apply keeps_bind; [by apply calm_keeps, calm_change|]. intros []. apply keeps_bind; [apply calm_keeps, calm_outside|].
      intros [i [[[name alpn] io]|[err io]]]; [apply keeps_hello_seen|]. apply keeps_bind; [|intros []; apply keeps_throw].
      destruct io as [io|]; [|apply keeps_ret]. destruct (Replay.into_parts io). by apply calm_keeps, calm_change.
    + apply keeps_bind; [by apply calm_keeps, calm_change|]. intros []. apply keeps_throw.
  - apply keeps_ret.
  - apply keeps_bind; [apply calm_keeps, calm_look|]. intros w. cbv zeta.
    apply keeps_bind; [|intros []; apply keeps_ret]. intros t Ht. rewrite change_update_or_insert. cbn.
    destruct (_ ≫= _) as [host|]; [by apply (ok_put_humble h _ t (humble_observe host))|by apply (ok_put_humble h id t humble_id)].
  - apply keeps_ret.
Qed.

(** *** The handshake of a session of the program's own *)

(** From a good state with this part, the call ends in a good state. *)
Definition from p {A} (m : calling A) : Prop := forall t : tls, ok t -> tls_part t.(transport) = p -> ok (m t).2.

Lemma from_keeps p {A} (m : calling A) : keeps ok m -> from p m.
Proof. intros Hm t Ht _. by apply Hm. Qed.
Lemma from_quiet p {A B} (m : calling A) (k : A -> calling B) : calm m -> (forall a, from p (k a)) -> from p (m ≫= k).
Proof.
  intros Hm Hk t Ht Hp. unfold mbind, eff_bind. destruct (Hm p t (conj Ht Hp)) as [Ht1 Hp1].
  destruct (m t) as [[a|e] t1]; [by apply Hk|done].
Qed.
Lemma from_or_host_error p {A B} (r : result string A) f (k : A -> calling B) :
  (forall a, r = Ok a -> from p (k a)) -> from p (or_host_error r f ≫= k).
Proof. intros Hk. destruct r as [a|e]; [by apply Hk|]. by intros t Ht Hp. Qed.
Lemma from_outside p {A B} (f : nat -> A) (k : nat * A -> calling B) :
  (forall i, from p (k (i, f i))) -> from p (TlsSessions.outside f ≫= k).
Proof.
  intros Hk t Ht Hp. unfold mbind, eff_bind. destruct (calm_outside f p t (conj Ht Hp)) as [Ht1 Hp1]. cbn in *. by apply Hk.
Qed.

Lemma ok_put_incomplete h flow t : ok t -> client_settings flow = client_settings (flow_at h t) ->
  TlsFlow.handshake_complete flow = false -> ok (put_flow h flow t).
Proof.
  intros Ht Hs Hc. apply ok_put; [done| |by rewrite Hc].
  intros s Hio. apply (shaken_settings (flow_at h t)); [by rewrite Hs|by rewrite Hc|by apply shaken_here].
Qed.

Lemma ok_opened h flow s (t : tls) w' : ok t -> shaken flow s ->
  w'.(net).(dynamic_tls_sessions) = <[h := flow]> (sessions t) -> w'.(net).(dynamic_tls_session_ios) = <[h := Some s]> (session_ios t) ->
  w'.(downstream_tls_server_config) = t.(transport).(downstream_tls_server_config) -> w'.(http) = t.(transport).(http) ->
  ok (t <| transport := w' |>).
Proof.
  intros [K1 K2 K3 K4 K5] Hs E1 E2 E3 E4. split; unfold sessions, session_ios, downstream_flow in *; cbn;
    rewrite ?E1, ?E2, ?E3, ?E4; [by destruct K1| | |done|done].
  - intros k io. destruct (decide (k = h)) as [->|Hne]; [rewrite !lookup_insert_eq; intros [= <-]; eauto|].
    rewrite !lookup_insert_ne by done. apply K2.
  - intros k f. destruct (decide (k = h)) as [->|Hne]; [by rewrite !lookup_insert_eq|]. rewrite !lookup_insert_ne by done. apply K3.
Qed.

(** What a flow learns leaves its settings and its peer alone. *)
Lemma learn_settings certificate flow : let flow' := learn certificate flow in
  client_settings flow' = client_settings flow /\ TlsFlow.handshake_complete flow' = TlsFlow.handshake_complete flow /\
  TlsFlow.present flow' = TlsFlow.present flow /\ TlsFlow.peer_name flow' = TlsFlow.peer_name flow /\
  (TlsFlow.present flow = true -> TlsFlow.peer_certificate_der flow' = certificate).
Proof.
  unfold learn, TlsFlow.note_server_certificate_received, TlsFlow.note_server_hello_received,
    TlsFlow.note_server_certificate_verified, TlsFlow.note_verification_skipped.
  destruct flow as [[] ? ? ? ? ? ? ? ? ? [] []]; cbn; by split_and!.
Qed.
Lemma complete_settings negotiated flow : let flow' := TlsFlow.mark_handshake_complete negotiated flow in
  client_settings flow' = client_settings flow /\ TlsFlow.peer_name flow' = TlsFlow.peer_name flow /\
  TlsFlow.peer_certificate_der flow' = TlsFlow.peer_certificate_der flow /\
  (TlsFlow.handshake_complete flow = false -> TlsFlow.handshake_complete flow' = true ->
     TlsFlow.present flow = true /\ TlsFlow.alpn flow' = negotiated).
Proof. unfold TlsFlow.mark_handshake_complete. destruct flow as [[] ? ? []]; cbn; split_and!; try done; congruence. Qed.

Lemma run_bind {A B} (m : calling (Http := Http) A) (k : A -> calling B) t a t' : m t = (Ok a, t') -> (m ≫= k) t = k a t'.
Proof. intros Hm. unfold mbind, eff_bind. by rewrite Hm. Qed.
Lemma bind_look {A B} (f : World Http -> A) (k : A -> calling (Http := Http) B) t : (look f ≫= k) t = k (f t.(transport)) t.
Proof. done. Qed.

Lemma dynamic_connected_ok h flow i config name s0 s alpn certificate t :
  ok t -> sessions t !! h = Some flow -> TlsFlow.handshake_complete flow = false ->
  TlsConfig.build_dynamic_client_config flow = Ok config -> tls_connect i config name s0 = Ok (s, alpn, certificate) ->
  server_name (default "" (TlsFlow.peer_name flow)) = Ok name -> ok (dynamic_connected h s alpn certificate t).2.
Proof.
  intros Ht Hf Hc Hb Hconn Hname. destruct (learn_settings certificate flow) as (Ls & Lc & Lp & Ln & Ld).
  set (learned := learn certificate flow) in *. set (negotiated := from_utf8_lossy <$> alpn).
  assert (Hat : flow_at h t = flow) by (unfold flow_at; by rewrite Hf).
  unfold dynamic_connected. rewrite (run_bind _ _ _ _ _ (update_dynamic_run h _ _ _ Hf)). fold learned.
  set (t1 := put_flow h learned t).
  assert (Ht1 : ok t1) by (apply ok_put_incomplete; rewrite ?Hat; congruence).
  assert (Hf1 : sessions t1 !! h = Some learned) by (unfold t1, sessions; cbn; apply lookup_insert_eq).
  rewrite bind_look. unfold sessions in Hf1. cbn [id]. rewrite Hf1. fold negotiated.
  destruct (TlsFlow.accepts_negotiated_alpn negotiated learned) eqn:Ha.
  - rewrite (run_bind _ _ _ _ _ (update_dynamic_run h _ _ _ Hf1)). destruct (complete_settings negotiated learned) as (Cs & Cn & Cd & Cc).
    set (done_ := TlsFlow.mark_handshake_complete negotiated learned) in *. eapply (ok_opened h done_ s t1); [done| |done|done|done|done].
    exists i, config, name, s0, alpn, certificate. split_and!; [by rewrite <-Hb; apply client_config_settings; congruence|done| |].
    + fold negotiated. rewrite <-Ha. unfold TlsFlow.accepts_negotiated_alpn. unfold client_settings in Cs. by injection Cs as ->.
    + intros Hd. destruct (Cc ltac:(congruence) Hd) as [Hp ->]. rewrite Cn, Cd, Ln, Ld by congruence. done.
  - unfold mbind at 1, eff_bind at 1. rewrite (run_bind _ _ _ _ _ (update_dynamic_run h _ _ _ Hf1)).
    replace learned with (flow_at h t1) by (unfold flow_at, sessions; by rewrite Hf1). by apply ok_put_humble, Ht1; apply humble_failed.
Qed.

Lemma keeps_update_dynamic h f : humble f -> keeps ok (update_dynamic (Http := Http) h f).
Proof.
  intros Hf t Ht. destruct (sessions t !! h) as [flow|] eqn:Hs.
  - rewrite (update_dynamic_run h f flow) by done. replace flow with (flow_at h t) by (unfold flow_at; by rewrite Hs). by apply ok_put_humble.
  - unfold update_dynamic, on_transport, on_net, update_tls_session, zoom, modify. cbn. apply (ok_change (fun w => _)); [done|].
    unfold tls_part. cbn. replace (alter f h (dynamic_tls_sessions (net (transport t)))) with (dynamic_tls_sessions (net (transport t))); [done|].
    apply map_eq. intros k. destruct (decide (k = h)) as [->|]; [|by rewrite lookup_alter_ne]. unfold sessions in Hs. by rewrite lookup_alter_eq, Hs.
Qed.

Lemma calm_take h : calm (take_dynamic_tcp_stream_for_tls (Http := Http) h).
Proof. unfold take_dynamic_tcp_stream_for_tls. stroll. apply calm_change. intros w. apply tls_part_set_io. Qed.

Lemma dynamic_handshake_ok h t : ok t -> TlsFlow.handshake_complete (flow_at h t) = false -> ok (dynamic_handshake h t).2.
Proof.
  intros Ht Hc. unfold dynamic_handshake. change (session_flow (Dynamic h)) with (look (fun w : World Http => default TlsFlow.for_dynamic_socket (dynamic_tls_sessions (net w) !! h))).
  rewrite bind_look. change (default TlsFlow.for_dynamic_socket _) with (flow_at h t). set (flow := flow_at h t) in *.
  destruct (is_empty _); [done|]. destruct (server_name _) as [name|] eqn:Hname; [|done].
  set (ready := TlsFlow.note_client_hello_sent (TlsFlow.note_handshake_prepared flow)).
  rewrite (run_bind _ _ t name t eq_refl), change_update_or_insert, (run_bind _ _ t tt (put_flow h ready t) eq_refl).
  pose proof (ok_put_humble h _ t humble_prepared Ht) as Ht1. change (put_flow h _ t) with (put_flow h ready t) in Ht1.
  set (t1 := put_flow h ready t) in *.
  assert (Hready : client_settings ready = client_settings flow /\ TlsFlow.handshake_complete ready = false /\ TlsFlow.peer_name ready = TlsFlow.peer_name flow).
  { destruct (humble_prepared flow) as [Hs Hr]. fold ready in Hs, Hr. split; [done|]. split.
    - destruct (TlsFlow.handshake_complete ready) eqn:E; [|done]. rewrite (Hr eq_refl) in E. congruence.
    - unfold ready, TlsFlow.note_client_hello_sent, TlsFlow.note_handshake_prepared. by destruct flow as [[] ?]. }
  destruct Hready as (Hs & Hr & Hn). apply (from_quiet (tls_part (transport t1))); [apply calm_take| |done|done]. intros tcp_stream.
  apply from_or_host_error. intros config Hb. apply from_outside. intros i.
  destruct (tls_connect i config name tcp_stream) as [[[s alpn] certificate]|err] eqn:Hconn.
  - intros t2 Ht2 Hp. eapply (dynamic_connected_ok h ready); [done| |done| |done|by rewrite Hn].
    + unfold tls_part in Hp. injection Hp as E _. unfold sessions. rewrite E. unfold t1. cbn. apply lookup_insert_eq.
    + rewrite <-Hb. by apply client_config_settings.
  - apply from_keeps, keeps_bind; [apply keeps_update_dynamic, humble_failed|]. intros [].
    apply keeps_bind; [apply calm_keeps, calm_on_transport, untouched_net; by intros n|]. intros []. apply keeps_throw.
Qed.

(** *** The handshake with a client *)

(** Good states in which the part is [p]. *)
Definition good p (t : tls) : Prop := ok t /\ tls_part t.(transport) = p.
Lemma good_quiet p {A} (m : calling A) : calm m -> triple (good p) m (fun _ => good p) (fun _ => ok).
Proof. intros Hm t Ht. specialize (Hm p t Ht). destruct (m t) as [[a|e] t']; [done|]. by destruct Hm. Qed.

Lemma ends_ok (P : tls -> Prop) {A} (m : calling A) t : triple P m (fun _ => ok) (fun _ => ok) -> P t -> ok (m t).2.
Proof. intros Hm Ht. specialize (Hm t Ht). by destruct (m t) as [[a|e] t']. Qed.

Lemma triple_from p {A} (m : calling A) : from p m -> triple (good p) m (fun _ => ok) (fun _ => ok).
Proof. intros Hm t [Ht Hp]. specialize (Hm t Ht Hp). by destruct (m t) as [[a|e] t']. Qed.

Lemma ok_resumption_cache cache (t : tls) :
  ok t -> (forall k r, Sharded.peek_cloned hash_resumption_key cache k = Some (Some r) -> made_for r = k) ->
  ok (t <| downstream_tls_resumption_cache := Some cache |>).
Proof. intros [[K1 K1'] K2 K3 K4 K5] Hc. split; try done. split; [|done]. cbn. intros c k r [= <-]. apply Hc. Qed.
Lemma ok_configuration_cache cache (t : tls) :
  ok t -> (forall k c, Sharded.peek_cloned hash_configuration_key cache k = Some (Some c) ->
    forall flow, TlsFlow.present flow = true -> prepared_for (TlsFlow.restore_downstream_configuration c flow) (TlsFlow.cc_server_config c)) ->
  ok (t <| downstream_tls_configuration_cache := Some cache |>).
Proof. intros [[K1 K1'] K2 K3 K4 K5] Hc. split; try done. split; [done|]. cbn. intros c k r [= <-]. apply Hc. Qed.

Lemma good_resumption p flow : triple (good p) (downstream_tls_resumption_state (Http := Http) flow)
  (fun o t => good p t /\ forall r, o = Some r -> TlsFlow.downstream_tls_resumption_key hash_pem flow = Some (made_for r)) (fun _ => ok).
Proof.
  intros t0 [Ht Hp]. unfold downstream_tls_resumption_state. unfold mbind at 1, eff_bind at 1. cbn [get_state].
  destruct (downstream_tls_resumption_cache t0) as [cache|] eqn:Hcache; [|done]. case_decide; [done|].
  destruct (TlsFlow.downstream_tls_resumption_key hash_pem flow) as [key|] eqn:Hkey; [|done].
  destruct (Sharded.peek_cloned hash_resumption_key cache key) as [[existing|]|] eqn:Hpeek; [| |done].
  - split; [done|]. intros r [= <-]. f_equal. symmetry. by apply (resumption_ok t0 (ok_caches t0 Ht) cache key).
  - change (or_panic_at (Some None) ≫= ?k) with (k None). cbv beta iota.
    destruct (calm_outside new_ticketer p t0 (conj Ht Hp)) as [Ht1 Hp1].
    unfold mbind at 1, eff_bind at 1. destruct (TlsSessions.outside new_ticketer t0) as [[[i ticketer]|e] t1] eqn:Ho; [|done].
    cbn in Ht1, Hp1. destruct ticketer as [[]|err]; [|done]. change (or_host_error (Ok tt) ?f ≫= ?k) with (k tt). cbv beta zeta.
    destruct (Sharded.insert hash_resumption_key cache key (TlsConfig.MkResumption key i)) as [[previous cache']|] eqn:Hins; [|done].
    cbn. split; [split; [|done]|by intros r [= <-]].
    apply ok_resumption_cache; [done|]. intros k r Hk.
    destruct (Sharded.insert_peek _ _ _ _ _ _ _ _ Hins Hk) as [[-> ->]|Hk']; [done|].
    by apply (resumption_ok t0 (ok_caches t0 Ht) cache).
Qed.

Lemma good_build p flow : triple (good p) (build_downstream_server_config (Http := Http) flow)
  (fun c t => good p t /\ prepared_for flow c) (fun _ => ok).
Proof.
  unfold build_downstream_server_config. destruct (TlsConfig.build_downstream_server_config flow) as [config|e] eqn:Hb; [|by intros t [Ht _]].
  change (or_host_error (Ok config) id ≫= ?k) with (k config). eapply triple_bind; [apply good_resumption|]. intros o. apply triple_ret.
  intros t [Ht Ho]. by split.
Qed.

Lemma ok_serve flow config (t : tls) : ok t -> prepared_for flow config -> ok (t <| served := t.(served) ++ [(flow, config)] |>).
Proof. intros [[K1 K1'] K2 K3 K4 K5] Hc. split; try done. cbn. apply Forall_app. by split; [|constructor]. Qed.

(** While no configuration is prepared, the flow of the downstream may change. *)
Definition unprepared (t : tls) : Prop := ok t /\ t.(transport).(downstream_tls_server_config) = None.
Lemma unprepared_change f :
  (forall w : World Http, (f w).(net) = w.(net) /\ (f w).(downstream_tls_server_config) = w.(downstream_tls_server_config)) ->
  triple unprepared (change f) (fun _ => unprepared) (fun _ _ => False).
Proof.
  intros Hf t [Ht Hn]. cbn. destruct (Hf (transport t)) as [En Ec]. split; [|cbn; congruence].
  apply (ok_downstream t (tls_dag TlsDownstream (http (f (transport t)))) None); [done|by rewrite En|by rewrite En|congruence|done|done].
Qed.

Lemma keeps_cache_config key flow config : TlsFlow.present flow = true -> prepared_for flow config ->
  keeps ok (cache_downstream_server_config (Http := Http) key flow config).
Proof.
  intros Hpr Hc t Ht. unfold cache_downstream_server_config. unfold mbind at 1, eff_bind at 1. cbn [get_state].
  destruct (downstream_tls_configuration_cache t) as [cache|] eqn:Hcache; [|done].
  destruct (Sharded.insert hash_configuration_key cache key (cached_configuration flow config)) as [[previous cache']|] eqn:Hins; [|done].
  cbn. apply ok_configuration_cache; [done|]. intros k c Hk f Hf.
  destruct (Sharded.insert_peek _ _ _ _ _ _ _ _ Hins Hk) as [[-> ->]|Hk']; [|by apply (configuration_ok t (ok_caches t Ht) cache k)].
  eapply prepared_for_settings; [|done]. unfold server_settings. cbn. congruence.
Qed.

Lemma downstream_handshake_ok t : ok t -> TlsFlow.present (downstream_flow t) = true -> ok (downstream_handshake t).2.
Proof.
  intros Ht Hpr. unfold downstream_handshake. rewrite bind_look. cbn [id].
  destruct (downstream_tls_server_start (transport t)) as [start|]; [|done]. cbv zeta.
  set (w1 := transport t <| downstream_tls_server_start := None |> <| downstream_tls_server_config := None |>).
  rewrite (run_bind _ _ t tt (t <| transport := w1 |>) eq_refl). set (t1 := t <| transport := w1 |>).
  assert (Ht1 : ok t1) by (by eapply ok_downstream).
  change (session_flow (Reserved TlsDownstream)) with (look (fun w : World Http => tls_dag TlsDownstream (http w))). rewrite bind_look.
  change (tls_dag TlsDownstream (http (transport t1))) with (downstream_flow t). set (flow := downstream_flow t) in *.
  assert (Hconfig : triple (good (tls_part (transport t1)))
    (match downstream_tls_server_config (transport t) with Some config => mret config | None => build_downstream_server_config flow end)
    (fun c t => good (tls_part (transport t1)) t /\ prepared_for flow c) (fun _ => ok)).
  { destruct (downstream_tls_server_config (transport t)) as [c|] eqn:Hc; [|apply good_build].
    apply triple_ret. intros t' Ht'. split; [done|]. by apply (ok_prepared t Ht). }
  apply (ends_ok (good (tls_part (transport t1)))); [|done].
  eapply triple_bind; [exact Hconfig|]. intros config. apply triple_fact. intros Hc.
  eapply (triple_bind _ _ _ (fun _ => unprepared)).
  { apply triple_modify. intros t' [Ht' Hp']. split; [by apply ok_serve|]. unfold tls_part in Hp'. by injection Hp'. }
  intros []. eapply (triple_bind _ _ _ (fun _ => unprepared)).
  { intros t' [Ht' Hn']. destruct (calm_outside (fun i => into_stream i config (TcpStreams.start start)) _ t' (conj Ht' eq_refl)). by split. }
  intros [i [[[[s resumed] alpn] certificate]|err]].
  - cbv zeta. eapply (triple_bind _ _ _ (fun _ => unprepared)); [eapply triple_weaken; [by apply unprepared_change|done..]|]. intros [].
    change (session_flow (Reserved TlsDownstream)) with (look (fun w : World Http => tls_dag TlsDownstream (http w))).
    eapply (triple_bind _ _ _ (fun _ => unprepared)); [by intros t' Ht'|]. intros flow'. destruct (TlsFlow.accepts_negotiated_alpn _ flow').
    + eapply (triple_bind _ _ _ (fun _ => unprepared)); [eapply triple_weaken; [by apply unprepared_change|done..]|]. intros [] t' [Ht' _].
      pose proof (keeps_cache_config (TlsFlow.downstream_tls_configuration_key (client_hello_server_name start) (client_hello_alpn start)) _ _ Hpr Hc t' Ht') as Hk. by destruct (cache_downstream_server_config _ _ _ t') as [[]?].
    + eapply (triple_bind _ _ _ (fun _ => unprepared)); [eapply triple_weaken; [by apply unprepared_change|done..]|]. intros []. apply triple_throw. by intros t' [Ht' _].
  - eapply (triple_bind _ _ _ (fun _ => unprepared)); [eapply triple_weaken; [by apply unprepared_change|done..]|]. intros []. apply triple_throw. by intros t' [Ht' _].
Qed.

Lemma calm_exchange_handshake h : calm (exchange_handshake (Http := Http) h).
Proof.
  unfold exchange_handshake. apply calm_bind; [apply calm_look|]. intros w. apply calm_on_transport, untouched_http.
  destruct (websocket_connection_mode h (http w)); [apply tls_open_websocket|apply tls_start_response].
Qed.

Lemma session_flow_same d (t : tls) : (session_flow d t).2 = t.
Proof.
  destruct d as [r|h|h]; [done|done|]. unfold session_flow. rewrite bind_look.
  by destruct (HttpExchange.tls_flow <$> exchange_transport h (http (id (transport t)))).
Qed.

Lemma keeps_handshake session : keeps ok (session_handshake (Http := Http) session).
Proof.
  apply keeps_bind; [apply calm_keeps, calm_decode|]. intros d t Ht.
  unfold mbind at 1, eff_bind at 1. destruct (calm_flow d _ t (conj Ht eq_refl)) as [Ht0 _].
  pose proof (session_flow_same d t) as Hsame.
  destruct (session_flow d t) as [[flow|e] t0] eqn:Hflow; [|done]. cbn in Hsame. subst t0. clear Ht0.
  destruct (TlsFlow.present flow) eqn:Hp; [|done]. destruct (TlsFlow.handshake_complete flow) eqn:Hc; [done|]. cbn [negb].
  apply (ends_ok (good (tls_part (transport t)))); [|done].
  eapply triple_bind; [apply good_quiet, calm_apply_cached|]. intros [|]; [apply triple_ret; by intros ? [? _]|].
  eapply (triple_bind _ _ _ (fun _ => ok)).
  - apply triple_from. intros t1 Ht1 Hp1.
    unfold tls_part in Hp1. injection Hp1 as E1 E2 E3 E4. destruct d as [[|]|h|h].
    + apply downstream_handshake_ok; [done|]. unfold downstream_flow. rewrite E4. by injection Hflow as <-.
    + by apply (calm_keeps _ (calm_exchange_handshake _)).
    + apply dynamic_handshake_ok; [done|]. unfold flow_at, sessions. rewrite E1. by injection Hflow as <-.
    + by apply (calm_keeps _ (calm_exchange_handshake _)).
  - intros []. apply (triple_bind _ _ _ (fun _ => ok)); [|intros f; apply triple_ret; done].
    intros t1 Ht1. pose proof (calm_keeps _ (calm_flow d) t1 Ht1) as Hk. by destruct (session_flow d t1) as [[a|e] t2].
Qed.

(** ** Runs *)

Inductive request :=
| FromSocket | Handshake
| SetAlpn (protocols : string) | SetVerify (verify : bool) | SetVerifyHostname (verify : bool) | SetSni (enabled : bool)
| SetTrustedCertificate (pem : string) | SetClientCertificate (pem : string) | SetClientPrivateKey (pem : string)
| SetServerCertificate (pem : string) | SetServerPrivateKey (pem : string) | SetMinVersion (version : string) | SetMaxVersion (version : string)
| IsPresent | NeedsConfiguration | GetPeerName | GetServerName | GetAlpn | GetPhase | GetPeerCertificate | IsSessionReused.

Inductive reply := NoValue | Flag (b : bool) | Text (s : string) | Handle (h : Z).

Definition serve (session : Z) (q : request) : calling (Http := Http) reply :=
  let no_value m := (fun _ : unit => NoValue) <$> m in
  match q with
  | FromSocket => Handle <$> session_from_socket session
  | Handshake => Flag <$> session_handshake session
  | SetAlpn protocols => no_value (session_set_alpn session protocols)
  | SetVerify verify => no_value (session_set_verify session verify)
  | SetVerifyHostname verify => no_value (session_set_verify_hostname session verify)
  | SetSni enabled => no_value (session_set_sni session enabled)
  | SetTrustedCertificate pem => no_value (session_set_trusted_certificate session pem)
  | SetClientCertificate pem => no_value (session_set_client_certificate session pem)
  | SetClientPrivateKey pem => no_value (session_set_client_private_key session pem)
  | SetServerCertificate pem => no_value (session_set_server_certificate session pem)
  | SetServerPrivateKey pem => no_value (session_set_server_private_key session pem)
  | SetMinVersion version => no_value (session_set_min_version session version)
  | SetMaxVersion version => no_value (session_set_max_version session version)
  | IsPresent => Flag <$> session_is_present session
  | NeedsConfiguration => Flag <$> session_needs_configuration session
  | GetPeerName => Text <$> session_get_peer_name session
  | GetServerName => Text <$> session_get_server_name session
  | GetAlpn => Text <$> session_get_alpn session
  | GetPhase => Text <$> session_get_phase session
  | GetPeerCertificate => Text <$> session_get_peer_certificate session
  | IsSessionReused => Flag <$> session_is_session_reused session
  end.

Lemma keeps_map {A B} (P : tls -> Prop) (m : calling A) (f : A -> B) : keeps P m -> keeps P (f <$> m).
Proof. intros Hm t Ht. unfold fmap, eff_fmap. specialize (Hm t Ht). by destruct (m t) as [[a|e] t1]. Qed.

Lemma keeps_session_look {A} session (f : TlsFlowState -> A) : keeps ok (session_look (Http := Http) session f).
Proof. apply calm_keeps. unfold session_look. stroll. Qed.

Lemma keeps_serve session q : keeps ok (serve session q).
Proof.
  destruct q; apply keeps_map; try apply keeps_session_look;
    first [apply keeps_from_socket|apply keeps_handshake
          |apply keeps_bind; [apply calm_keeps, calm_or_error|]; intros; by apply keeps_configurable
          |apply keeps_configurable; try done].
  intros f. unfold TlsFlow.set_sni_enabled. destruct enabled; cbn; [by destruct (TlsFlow.present f)|done].
Qed.

(** What may happen: calls of the program on sessions and on streams, and other
    connections that use the shared caches. *)
Inductive event := OnSession (session : Z) (q : request) | OnStream (stream : Z) (q : TcpCalls.request) | Elsewhere.
Definition happens (e : event) (t t' : tls) : Prop :=
  match e with
  | OnSession session q => t' = (serve session q t).2
  | OnStream stream q => t' = (on_transport (TcpCalls.serve stream q) t).2
  | Elsewhere => t'.(transport) = t.(transport) /\ t'.(served) = t.(served) /\ caches_ok t'
  end.
Definition step (t t' : tls) : Prop := exists e, happens e t t'.

Lemma happens_ok t t' : step t t' -> ok t -> ok t'.
Proof.
  intros [[session q|stream q|] Hstep] Ht.
  - rewrite Hstep. by apply keeps_serve.
  - rewrite Hstep. by apply (calm_keeps _ (calm_on_transport _ (tcp_serve_untouched stream q))).
  - destruct Hstep as (Ew & Es & Hc). destruct Ht as [K1 K2 K3 K4 K5]. unfold sessions, session_ios, downstream_flow in *.
    split; unfold sessions, session_ios, downstream_flow; rewrite ?Ew, ?Es; done.
Qed.

(** The start of a request: no session has been shaken hands with. *)
Record fresh (t : tls) : Prop := {
  fresh_ios : session_ios t = ∅;
  fresh_sessions h flow : sessions t !! h = Some flow -> TlsFlow.handshake_complete flow = false;
  fresh_config : t.(transport).(downstream_tls_server_config) = None;
  fresh_served : t.(served) = [];
  fresh_caches : caches_ok t;
}.

Lemma runs_ok t0 t : fresh t0 -> rtc step t0 t -> ok t.
Proof.
  intros [F1 F2 F3 F4 F5] Hr. assert (H0 : ok t0).
  { split; [done| | | |by rewrite F4].
    - intros h io. by rewrite F1, lookup_empty.
    - intros h flow Hf Hc. by rewrite (F2 h flow Hf) in Hc.
    - by rewrite F3. }
  clear F1 F2 F3 F4 F5. induction Hr as [|t1 t2 t3 Hs _ IH]; [done|]. by eapply IH, happens_ok.
Qed.



End sessions.

(** ** Examples *)

#[local] Existing Instances TlsConfig.text_pems TcpCalls.byte_values TcpCalls.plain_error TcpCalls.raw_context.
#[local] Instance any_authority : AuthorityCrate := {|
  HttpExchange.Authority := string; HttpExchange.parse_authority := Some; HttpExchange.authority_str := id;
  HttpExchange.authority_host := fun s => s; HttpExchange.port_u16 := fun _ => None;
|}.
#[local] Instance plain_base64 : Base64 := {| base64_encode := string_of_bytes; base64_decode := fun s => Ok (bytes_of_string s) |}.

(** Every connection succeeds and is silent; every server picks the first
    protocol it is offered. *)
#[local] Instance wired : Network := {|
  SocketAddr := string; ServerName := string; is_ipv4 := fun _ => true; addr_str := id; parse_addr := Ok;
  lookup_host := fun _ a => Ok [a]; new_socket := fun _ _ => Ok tt; bind := fun _ _ => Ok tt;
  connect := fun _ a => Ok (MkStream [] [] [] [], Ok "here", Ok a); server_name := Ok;
  tls_connect := fun _ config _ s => Ok (s, head config.(TlsConfig.alpn_protocols), Some [48]); new_uuid := fun _ => "uuid";
|}.
(** A hello starts with 22; what does not is given back without the record's
    head, which was read. *)
#[local] Instance acceptor : TlsServer := {|
  observe_client_hello := fun _ io => match Replay.poll_read (fun _ s => (None, s)) 5 io with
    | (Some (22 :: _), io) => Ok (Some "site", [], Replay.inner io)
    | (_, io) => Err ("not tls", Some io) end;
  into_stream := fun _ _ s => Ok (s, false, None, None);
  new_ticketer := fun _ => Ok tt;
  hash_pem := fun s => str_len s; hash_session_key := fun _ => 0%N; hash_resumption_key := fun _ => 0%N; hash_configuration_key := fun _ => 0%N;
|}.
#[local] Instance no_exchanges : TlsHttpSide TcpCalls.Flows := {|
  exchange_target _ _ := None; upstream_response_available _ := false; outbound_exchange_response_available _ _ := false;
  websocket_connection_mode _ _ := false; ensure_outbound_websocket_connection_open _ := throw Panics;
  ensure_outbound_exchange_response_started _ := throw Panics;
|}.
#[local] Instance raw_laws : TlsHttpLaws TcpCalls.Flows.
Proof. split; try done; intros []; try done; by intros []. Qed.

(** A connection on which some bytes were peeked at, with a socket of the
    program's own, and caches. *)
Definition arrived (peeked : list Z) : Tls TcpCalls.Flows :=
  MkTls (MkWorld (TcpCalls.no_net <| tcp_streams := {[ 7 := TcpSocket.set_target "peer:1" "peer" 1 TcpSocket.default_socket ]} |>)
           (TcpCalls.MkFlows (fun _ => TcpFlow.downstream_ready) (fun _ => TlsFlow.default_flow))
           (Some (Some (MkStream [] [] [] []))) None peeked false None None None None false)
    None (Some (Sharded.new 4)) 4 (Some (Sharded.new 4)) [].

Lemma new_cache_empty {K V} `{Countable K} (k : K) : Sharded.peek_cloned (V := V) (fun _ => 0%N) (Sharded.new 4) k = Some None.
Proof. reflexivity. Qed.

Lemma arrived_fresh peeked : fresh (arrived peeked).
Proof.
  split; try done. split; cbn.
  - intros cache k r [= <-]. by rewrite new_cache_empty.
  - intros cache k c [= <-]. by rewrite new_cache_empty.
Qed.

Inductive call_ := Session (session : Z) (q : request) | OfStream (stream : Z) (q : TcpCalls.request).
Definition ask (c : call_) : calling (reply + TcpCalls.reply) :=
  match c with
  | Session session q => inl <$> serve session q
  | OfStream stream q => inr <$> on_transport (TcpCalls.serve stream q)
  end.
Fixpoint asked (cs : list call_) (t : Tls TcpCalls.Flows) : list (result ended (reply + TcpCalls.reply)) * Tls TcpCalls.Flows :=
  match cs with
  | [] => ([], t)
  | c :: cs => let '(r, t) := ask c t in let '(rs, t) := asked cs t in (r :: rs, t)
  end.

Lemma asked_steps cs t : rtc step t (asked cs t).2.
Proof.
  revert t; induction cs as [|c cs IH]; intros t; [done|]. cbn. destruct (ask c t) as [r t1] eqn:E.
  specialize (IH t1). destruct (asked cs t1) as [rs t2]. eapply rtc_l; [|done].
  destruct c as [session q|stream q]; cbn in E; unfold fmap, eff_fmap in E.
  - exists (OnSession session q). cbn. by destruct (serve session q t) as [[a|e] t']; injection E as _ <-.
  - exists (OnStream stream q). cbn. by destruct (on_transport (TcpCalls.serve stream q) t) as [[a|e] t']; injection E as _ <-.
Qed.

Definition upgrade : list call_ :=
  [OfStream 7 TcpCalls.Connect; Session 7 FromSocket; Session 7 (SetAlpn "h2"); Session 7 (SetVerifyHostname false); Session 7 Handshake;
   Session 7 (SetVerify true); Session 7 GetAlpn].


Definition accept : list call_ := [Session 0 (SetTrustedCertificate "clients"); Session 0 FromSocket; Session 0 (SetServerCertificate "mine");
  Session 0 (SetServerPrivateKey "key"); Session 0 Handshake].


(** *** What the calls do not say *)

Definition answers (cs : list call_) (peeked : list Z) : list (result ended (reply + TcpCalls.reply)) := (asked cs (arrived peeked)).1.

(** What a program sets before the hello of the client is seen is replaced by
    the configuration another connection left for the same hello. *)
Definition later (t : Tls TcpCalls.Flows) : Tls TcpCalls.Flows :=
  t <| transport := transport (arrived [22; 3; 1; 0; 0]) |>.
Theorem settings_before_hello_replaced :
  let first := (asked accept (arrived [22; 3; 1; 0; 0])).2 in
  let '(_, t) := asked [Session 0 (SetServerCertificate "new"); Session 0 (SetServerPrivateKey "new key"); Session 0 FromSocket; Session 0 Handshake] (later first) in
  (fun c => TlsConfig.identity c.2.1) <$> t.(served) = [(["mine"], "key"); (["mine"], "key")].
Proof. vm_compute. reflexivity. Qed.

(** A handshake whose configuration cannot be built drops the connection and
    leaves the socket connected: the next write goes to the same peer over a new
    connection, in plain text. *)
Theorem failed_upgrade_goes_on_in_plain_text :
  answers [OfStream 7 TcpCalls.Connect; Session 7 FromSocket; Session 7 (SetMaxVersion "1.1"); Session 7 Handshake;
           OfStream 7 TcpCalls.GetPhase; OfStream 7 (TcpCalls.Write "secret")] [] =
  [Ok (inr (TcpCalls.Flag true)); Ok (inl (Handle 7)); Ok (inl NoValue);
   Err (Error (HostError "manual tls transport only supports TLS 1.2 or newer"));
   Ok (inr (TcpCalls.Text "connected")); Ok (inr (TcpCalls.Count 6))].
Proof. vm_compute. reflexivity. Qed.

(** Asking for the session of a socket again forgets that it is established. *)
Theorem from_socket_forgets_handshake :
  answers [OfStream 7 TcpCalls.Connect; Session 7 FromSocket; Session 7 Handshake; Session 7 FromSocket; Session 7 GetPhase; Session 7 Handshake] [] =
  [Ok (inr (TcpCalls.Flag true)); Ok (inl (Handle 7)); Ok (inl (Flag true)); Ok (inl (Handle 7)); Ok (inl (Text "configured"));
   Err (Error (HostError "dynamic tcp stream handle 7 must be connected before starting tls"))].
Proof. vm_compute. reflexivity. Qed.

(** A client that does not speak TLS gets its stream back without the bytes that
    were read to find out. *)
Theorem failed_hello_loses_bytes :
  answers [OfStream 0 (TcpCalls.PeekBinary 6); Session 0 FromSocket; OfStream 0 (TcpCalls.PeekBinary 1)] [71; 69; 84; 32; 47; 32] =
  [Ok (inr (TcpCalls.Bytes [71; 69; 84; 32; 47; 32])); Err (Error (HostError "failed to observe downstream tls client hello: not tls"));
   Ok (inr (TcpCalls.Bytes [32]))].
Proof. vm_compute. reflexivity. Qed.

End TlsCalls.
