(* ===== verification/WebSocketSessions.v ===== *)
(** Model of [src/abi_impl/websocket/connection.rs]: the host calls on websocket
    connections.  A handle is the downstream, whose request or raw transport is
    upgraded, or an HTTP exchange, whose target is connected by the first call
    that needs it.  Every call but the closing and looking ones opens a
    connection that is not open.  tokio-tungstenite is a parameter; frames are
    those of [WebSocketState]. *)

From S2P Require Import Prelude Bytes Effects TransportState TlsFlow HttpVersions HttpHeaders Http1ResponseWriter DownstreamResponse WebSocketState HttpExchange TlsConfig Sockets.

Module WebSocketSessions.
Import HttpHeaders.
Import HttpExchange (AuthorityCrate, parse_authority, Context, registry, transports, request_head, head_headers,
  has_whitespace, exchanges, HttpOutboundExchangeState, request, transport, websocket_dag, HttpExchangeTransportState, tcp_flow, tls_flow,
  HttpOutboundRequestNode, path, query, headers).
Import WebSocketState (WebSocketConnectionState, WebSocketUpstreamScheme, OutboundWebSocketIoState, read_next_frame, FText, FBinary).
Import Replay (ReplayPrefixedIo).
Import Sockets (SharedIo, Values, Value, value_to_bytes, ErrorText, error_text, Base64, base64_encode, base64_decode).

#[local] Existing Instances HttpExchange.eta_transport HttpExchange.eta_exchange HttpExchange.eta_context HttpExchange.eta_request HttpExchange.eta_head
  WebSocketState.eta_io.

(** ** tokio-tungstenite *)

(** The first argument is the number of calls made before: keys are random.  A
    server's handshake calls back between the request it read and the response
    it writes. *)
Class WebSocketCrate (M : Type) := {
  (** [IntoClientRequest] of a URL: the headers of the request *)
  into_client_request : nat -> string -> result string M;
  (** the stream and the headers of the response *)
  connect_async : nat -> string -> M -> result string (WebSocketState.Stream * M);
  Accepting : Type;
  (** the headers of the request and of the response *)
  read_upgrade : nat -> ReplayPrefixedIo Sockets.Stream -> result string (M * M * Accepting);
  write_upgrade : nat -> Accepting -> M -> result string WebSocketState.Stream;
}.

Definition DOWNSTREAM_CONNECTION_HANDLE : Z := 0.
Definition DEFAULT_UPSTREAM : Z := HttpExchange.DEFAULT_UPSTREAM_EXCHANGE_HANDLE.

Inductive WebSocketHandle := Downstream | DefaultUpstream | OutboundExchange (handle : Z).

Definition parse_subprotocols (raw : string) : vm_result (list string) :=
  if is_empty (trim raw) then Ok []
  else
    match filter (fun value => value ≠ "") (trim <$> split_on 44 raw) with
    | [] => Err (HostError "websocket::connection::set_subprotocols requires at least one non-empty protocol")
    | protocols => Ok protocols
    end.

(** [strip_prefix('[')] and then [strip_suffix(']')] *)
Definition bare (host : string) : string :=
  match bytes_of_string host with
  | 91 :: l => match rev l with 93 :: r => string_of_bytes (rev r) | _ => host end
  | _ => host
  end.

Definition websocket_host_header (host : string) (port : Z) : string :=
  if HttpVersion.contains 58 host then "[" +:+ host +:+ "]:" +:+ dec port else host +:+ ":" +:+ dec port.

Definition format_websocket_authority `{AuthorityCrate} (host : string) (port : Z) : vm_result (string * Z) :=
  let err m := Err (HostError m) in
  let bad_port := err ("websocket target port must be between 1 and 65535, got " +:+ dec port) in
  if is_empty host || has_whitespace (bytes_of_string host)
  then err ("websocket target host must be non-empty and contain no whitespace, got '" +:+ host +:+ "'")
  else if (port <? 0) || (U16_MAX <? port) then bad_port
  else if port =? 0 then bad_port
  else
    match parse_authority (websocket_host_header (bare host) port) with
    | None => err ("invalid websocket target host='" +:+ host +:+ "' port=" +:+ dec port)
    | Some _ => Ok (bare host, port)
    end.

Definition normalize_websocket_path (path : string) : vm_result string :=
  let path := if is_empty path then "/" else path in
  let l := bytes_of_string path in
  if negb (bool_decide (head l = Some 47)) || has_whitespace l
  then Err (HostError ("websocket path must start with '/' and contain no whitespace, got '" +:+ path +:+ "'"))
  else Ok path.

(** [trim_start_matches('?')] *)
Fixpoint strip_question_marks (l : list Z) : list Z :=
  match l with 63 :: l => strip_question_marks l | _ => l end.
Definition normalize_websocket_query (query : string) : vm_result string :=
  let l := bytes_of_string query in
  if has_whitespace l || HttpVersion.contains 35 query
  then Err (HostError ("websocket query must contain no whitespace or fragments, got '" +:+ query +:+ "'"))
  else Ok (string_of_bytes (strip_question_marks l)).

(** With the value of the host header. *)
Definition build_websocket_url (scheme : WebSocketUpstreamScheme) (host : string) (port : Z) (path query : string)
    : vm_result (string * option string) :=
  path ← normalize_websocket_path path;
  query ← normalize_websocket_query query;
  let authority := websocket_host_header host port in
  let url := WebSocketState.scheme_as_str scheme +:+ "://" +:+ authority +:+ path in
  Ok (if is_empty query then url else url +:+ "?" +:+ query, Some authority).

Example a_websocket_url :
  build_websocket_url WebSocketState.Wss "::1" 9 "" "??a=b" = Ok ("wss://[::1]:9/?a=b", Some "[::1]:9").
Proof. vm_compute. reflexivity. Qed.
Example bare_hosts : bare <$> ["[::1]"; "[::1"; "example.com"] = ["::1"; "[::1"; "example.com"].
Proof. vm_compute. reflexivity. Qed.

(** ** Base64 payloads *)

Section base64.
Context `{B64 : Base64}.

Definition send_binary_base64 (payload : string) (s : OutboundWebSocketIoState) : vm_result Z * OutboundWebSocketIoState :=
  match base64_decode payload with
  | Err err => (Err (HostError ("websocket binary payload must be base64 encoded: " +:+ err)), s)
  | Ok bytes => WebSocketState.send_binary_bytes bytes s
  end.
Definition read_binary_base64 (s : OutboundWebSocketIoState) : vm_result (option string) * OutboundWebSocketIoState :=
  match read_next_frame s with
  | (Ok (Some (FBinary b)), s) => (Ok (Some (base64_encode b)), s)
  | (Ok (Some (FText _)), s) =>
      (Err (HostError "next websocket frame is text; call websocket::connection::read_text"), s)
  | (Ok None, s) => (Ok None, s)
  | (Err e, s) => (Err e, s)
  end.
End base64.

Section calls.
Context {M : Type} `{HM : HeaderMap M} `{HMM : !HeaderMapMut M} `{HC : HttpCrate} `{AC : AuthorityCrate}.
Context `{WC : !WebSocketCrate M} `{VA : Values} `{ET : ErrorText} `{B64 : Base64}.
Context {B : Type}.
Abbreviation exchange := (HttpOutboundExchangeState (M := M) (B := B)).

(** ** The state *)

(** The exchanges and flows of a request, the websocket and the raw transports of
    its downstream, and the open streams. *)
Record World := MkWorld {
  context : Context (M := M) (B := B);
  downstream_websocket : WebSocketConnectionState;
  downstream_websocket_initialized : bool;
  downstream_tcp_io : option SharedIo;
  downstream_tls_io : option SharedIo;
  downstream_preread_buffer : list Z;
  downstream_tls_server_start : bool;   (** there is one *)
  ios : gmap positive OutboundWebSocketIoState;
  outside_calls : nat;
}.
#[export] Instance eta_world : Eta World := fun w =>
  MkWorld w.(context) w.(downstream_websocket) w.(downstream_websocket_initialized) w.(downstream_tcp_io) w.(downstream_tls_io)
    w.(downstream_preread_buffer) w.(downstream_tls_server_start) w.(ios) w.(outside_calls).

Definition calling (A : Type) : Type := eff fault World A.
Definition on_context {A} (m : eff fault Context A) : calling A := zoom context (fun c w => w <| context := c |>) m.
Definition outside {A} (f : nat -> A) : calling A := fun w =>
  (Ok (f w.(outside_calls)), w <| outside_calls := S w.(outside_calls) |>).
Definition error {A} (message : string) : calling A := throw (Fail (HostError message)).
Definition or_error {A} (r : vm_result A) : calling A := lift (HttpExchange.host_error r).

(** [with_downstream_websocket_mut]; the websocket is made of the request's
    headers when it is first asked for. *)
Definition ensure_downstream_websocket_initialized : calling unit :=
  modify (fun w =>
    if w.(downstream_websocket_initialized) then w
    else
      let h := w.(context).(request_head) in
      let '(m, lazy) := HttpHeaders.headers h.(head_headers) in
      w <| context := w.(context) <| request_head := h <| head_headers := lazy |> |> |>
        <| downstream_websocket := WebSocketState.for_http_request m |> <| downstream_websocket_initialized := true |>).
Definition get_downstream_websocket : calling WebSocketConnectionState :=
  _ ← ensure_downstream_websocket_initialized; w ← get_state; mret w.(downstream_websocket).
Definition with_downstream_websocket_mut (f : WebSocketConnectionState -> WebSocketConnectionState) : calling unit :=
  _ ← ensure_downstream_websocket_initialized;
  modify (fun w => w <| downstream_websocket := f w.(downstream_websocket) |>).

Definition unknown_handle (connection : Z) : fault := Fail (HostError ("unknown websocket handle " +:+ dec connection)).
(** [exchanges.get_mut(&connection)] and a change of what it gives. *)
Definition on_exchange (connection : Z) (missing : fault) (f : exchange -> exchange) : calling unit :=
  on_context (HttpExchange.with_exchange connection missing (modify f)).
Definition if_exchange (connection : Z) (f : exchange -> exchange) : calling unit :=
  g ← on_context HttpExchange.lock_exchanges;
  match g.(exchanges) !! connection with
  | Some _ => on_exchange connection Panic f
  | None => mret tt
  end.
Definition on_websocket (f : WebSocketConnectionState -> WebSocketConnectionState) (e : exchange) : exchange := e <| websocket_dag := f e.(websocket_dag) |>.

Definition decode_connection (connection : Z) : calling WebSocketHandle :=
  if connection =? DOWNSTREAM_CONNECTION_HANDLE then mret Downstream
  else if connection =? DEFAULT_UPSTREAM then mret DefaultUpstream
  else
    known ← on_context (HttpExchange.outbound_exchange_exists connection);
    if known : bool then mret (OutboundExchange connection)
    else error ("invalid websocket connection handle " +:+ dec connection +:+
           "; reserved handles are 0 (downstream), 1 (default upstream), and allocated handles start at 2").

Definition connection_state (connection : WebSocketHandle) : calling WebSocketConnectionState :=
  let of_exchange handle :=
    g ← on_context HttpExchange.lock_exchanges;
    match g.(exchanges) !! handle with Some e => mret e.(websocket_dag) | None => throw Panic end in
  match connection with
  | Downstream => get_downstream_websocket
  | DefaultUpstream => of_exchange DEFAULT_UPSTREAM
  | OutboundExchange handle => of_exchange handle
  end.

(** ** Preparing a connection *)

(** The parts of an exchange, and the flows of the default upstream, which are
    not its own. *)
Record Parts := MkParts {
  p_request : HttpOutboundRequestNode (M := M);
  p_tcp : TcpFlow.TcpFlowState;
  p_tls : TlsFlow.TlsFlowState;
  p_websocket : WebSocketConnectionState;
}.
#[export] Instance eta_parts : Eta Parts := fun p => MkParts p.(p_request) p.(p_tcp) p.(p_tls) p.(p_websocket).

Definition with_outbound_connection_mut (connection : Z) (mutate : Parts -> Parts) : calling unit :=
  if connection =? DEFAULT_UPSTREAM then
    known ← on_context (HttpExchange.outbound_exchange_exists connection);
    if negb known then throw (unknown_handle connection)
    else
      t ← on_context HttpExchange.lock_transport;
      p ← on_context (HttpExchange.with_exchange connection (unknown_handle connection) (fun e =>
            let p := mutate (MkParts e.(request) (TcpFlow.default_upstream t.(HttpExchange.tcp_dag))
                       (TlsFlow.default_upstream t.(HttpExchange.tls_dag)) e.(websocket_dag)) in
            (Ok p, e <| request := p.(p_request) |> <| websocket_dag := p.(p_websocket) |>)));
      on_context (HttpExchange.set_transport (fun t =>
        HttpExchange.on_default_tls (fun _ => p.(p_tls)) (HttpExchange.on_default_tcp (fun _ => p.(p_tcp)) t)))
  else
    on_exchange connection (unknown_handle connection) (fun e =>
      let p := mutate (MkParts e.(request) e.(transport).(tcp_flow) e.(transport).(tls_flow) e.(websocket_dag)) in
      e <| request := p.(p_request) |> <| websocket_dag := p.(p_websocket) |>
        <| transport := e.(transport) <| tcp_flow := p.(p_tcp) |> <| tls_flow := p.(p_tls) |> |>).

Definition prepare_outbound_socket_target (connection : Z) (host : string) (port : Z) : calling unit :=
  '(host, port) ← or_error (format_websocket_authority host port);
  with_outbound_connection_mut connection (fun p =>
    let websocket := WebSocketState.set_target_host_port host port p.(p_websocket) in
    p <| p_websocket := websocket |> <| p_tcp := TcpFlow.configure p.(p_tcp) |>
      <| p_tls := TlsFlow.observe_target_parts (WebSocketState.uses_tls (WebSocketState.target_scheme websocket)) (Some host) p.(p_tls) |>).

Definition prepare_outbound_scheme (connection : Z) (scheme : string) : calling unit :=
  scheme ← or_error (WebSocketState.scheme_parse scheme);
  with_outbound_connection_mut connection (fun p =>
    let websocket := WebSocketState.set_target_scheme scheme p.(p_websocket) in
    p <| p_websocket := websocket |>
      <| p_tls := TlsFlow.observe_target_parts (WebSocketState.uses_tls scheme) (WebSocketState.target_host websocket) p.(p_tls) |>).

Definition prepare (f : HttpOutboundRequestNode (M := M) -> HttpOutboundRequestNode (M := M)) (p : Parts) : Parts :=
  p <| p_request := f p.(p_request) |> <| p_websocket := WebSocketState.prepare_outbound p.(p_websocket) |>.

Definition prepare_outbound_path (connection : Z) (p : string) : calling unit :=
  p ← or_error (normalize_websocket_path p);
  with_outbound_connection_mut connection (prepare (fun r => r <| path := p |>)).
Definition prepare_outbound_query (connection : Z) (q : string) : calling unit :=
  q ← or_error (normalize_websocket_query q);
  with_outbound_connection_mut connection (prepare (fun r => r <| query := q |>)).
Definition prepare_outbound_header (connection : Z) (name value : string) : calling unit :=
  '(n, v) ← or_error (DownstreamResponse.parse_header name value);
  with_outbound_connection_mut connection (prepare (fun r => r <| headers := hm_insert n v r.(headers) |>)).

Record PreparedOutboundWebSocket := MkPrepared {
  url : string;
  host_header : option string;
  prepared_headers : M;
  tls_present : bool;
  tls_requires_custom_client : bool;
  prepared_subprotocols : list string;
}.

Definition no_target : VmError := HostError "websocket target is unavailable before websocket::connection::set_target".

(** Of the request, the TLS flow and the websocket of a connection. *)
Definition prepared_of (r : HttpOutboundRequestNode (M := M)) (tls : TlsFlow.TlsFlowState) (websocket : WebSocketConnectionState)
    : vm_result PreparedOutboundWebSocket :=
  host ← ok_or no_target (WebSocketState.target_host websocket);
  port ← ok_or no_target (WebSocketState.target_port websocket);
  '(url, host_header) ← build_websocket_url (WebSocketState.target_scheme websocket) host port r.(path) r.(query);
  Ok (MkPrepared url host_header r.(headers) (TlsFlow.present tls) (TlsFlow.requires_custom_client tls)
        (WebSocketState.requested_subprotocols websocket)).

Definition prepared_outbound_websocket (connection : Z) : calling PreparedOutboundWebSocket :=
  g ← on_context HttpExchange.lock_exchanges;
  match g.(exchanges) !! connection with
  | None => throw (unknown_handle connection)
  | Some e =>
      tls ← if connection =? DEFAULT_UPSTREAM
            then t ← on_context HttpExchange.lock_transport; mret (TlsFlow.default_upstream t.(HttpExchange.tls_dag))
            else mret e.(transport).(tls_flow);
      or_error (prepared_of e.(request) tls e.(websocket_dag))
  end.

(** ** Noting how a handshake ends *)

Definition handshaken (f : TlsFlow.TlsFlowState) : TlsFlow.TlsFlowState :=
  if TlsFlow.present f then
    TlsFlow.mark_handshake_complete (Some "http/1.1") (TlsFlow.note_server_certificate_verified
      (TlsFlow.note_server_certificate_received None (TlsFlow.note_server_hello_received
        (TlsFlow.note_client_hello_sent (TlsFlow.note_handshake_prepared f)))))
  else f.
Definition handshake_failed (f : TlsFlow.TlsFlowState) : TlsFlow.TlsFlowState :=
  if TlsFlow.present f then TlsFlow.mark_failed f else f.

Definition on_downstream_tcp (f : TcpFlow.TcpFlowState -> TcpFlow.TcpFlowState) (t : HttpExchange.TransportState) : HttpExchange.TransportState :=
  let d := t.(HttpExchange.tcp_dag) in
  HttpExchange.MkTransportState (TcpFlow.MkDag (f (TcpFlow.downstream d)) (TcpFlow.default_upstream d)) t.(HttpExchange.tls_dag)
    t.(HttpExchange.downstream_request_seed) t.(HttpExchange.transport_initialized) t.(HttpExchange.tcp_streams)
    t.(HttpExchange.dynamic_tls_sessions).
Definition on_downstream_tls (f : TlsFlow.TlsFlowState -> TlsFlow.TlsFlowState) (t : HttpExchange.TransportState) : HttpExchange.TransportState :=
  let d := t.(HttpExchange.tls_dag) in
  HttpExchange.MkTransportState t.(HttpExchange.tcp_dag) (TlsFlow.MkDag (f (TlsFlow.downstream d)) (TlsFlow.default_upstream d))
    t.(HttpExchange.downstream_request_seed) t.(HttpExchange.transport_initialized) t.(HttpExchange.tcp_streams)
    t.(HttpExchange.dynamic_tls_sessions).

Definition store_connected_websocket (connection : Z) (io : positive) (protocol : option string) : calling unit :=
  let opened := WebSocketState.mark_open io protocol in
  if connection =? DOWNSTREAM_CONNECTION_HANDLE then
    _ ← on_context (HttpExchange.set_transport (on_downstream_tcp TcpFlow.mark_connected));
    with_downstream_websocket_mut opened
  else if connection =? DEFAULT_UPSTREAM then
    _ ← on_context (HttpExchange.set_transport (fun t =>
          HttpExchange.on_default_tls handshaken (HttpExchange.on_default_tcp TcpFlow.mark_connected t)));
    on_exchange DEFAULT_UPSTREAM Panic (on_websocket opened)
  else
    on_exchange connection (unknown_handle connection) (fun e =>
      on_websocket opened (e <| transport := e.(transport) <| tcp_flow := TcpFlow.mark_connected e.(transport).(tcp_flow) |>
                                               <| tls_flow := handshaken e.(transport).(tls_flow) |> |>)).

Definition store_failed_websocket (connection : Z) (message : string) : calling unit :=
  let failed := WebSocketState.mark_failed message in
  if connection =? DOWNSTREAM_CONNECTION_HANDLE then
    _ ← on_context (HttpExchange.set_transport (fun t =>
          on_downstream_tls handshake_failed (on_downstream_tcp (TcpFlow.mark_failed message) t)));
    with_downstream_websocket_mut failed
  else if connection =? DEFAULT_UPSTREAM then
    _ ← on_context (HttpExchange.set_transport (HttpExchange.on_default_tls handshake_failed));
    on_exchange DEFAULT_UPSTREAM Panic (on_websocket failed)
  else
    on_exchange connection (unknown_handle connection) (fun e =>
      on_websocket failed (e <| transport := e.(transport) <| tls_flow := handshake_failed e.(transport).(tls_flow) |> |>)).

Definition note_websocket_handshake_started (connection : Z) : calling unit :=
  if connection =? DOWNSTREAM_CONNECTION_HANDLE then with_downstream_websocket_mut WebSocketState.note_handshake_started
  else with_outbound_connection_mut connection (fun p =>
         p <| p_websocket := WebSocketState.note_handshake_started p.(p_websocket) |>).

(** [let _ = store_failed_websocket(..)], and then the error. *)
Definition failing {A} (connection : Z) (message : string) (e : fault) : calling A := fun w =>
  let '(r, w) := store_failed_websocket connection message w in
  match r with
  | Err Panic => (Err Panic, w)
  | _ => (Err e, w)
  end.

Definition or_store_failed {A} (connection : Z) (m : calling A) : calling A := fun w =>
  match m w with
  | (Err (Fail err), w) => failing connection (error_text err) (Fail err) w
  | r => r
  end.

(** [Arc::new(Mutex::new(OutboundWebSocketIoState::new_..(stream)))] *)
Definition new_io (stream : WebSocketState.Stream) : calling positive := fun w =>
  let io := fresh (dom w.(ios)) in
  (Ok io, w <| ios := <[io := WebSocketState.new_client stream]> w.(ios) |>).

(** ** The downstream *)

Definition websocket_operation_on_downstream : VmError :=
  HostError "downstream websocket sessions are not yet executable in the current one-shot HTTP runtime; only outbound websocket handles support frame IO".

(** The lock on the transport is taken, which seeds the flows. *)
Definition transport_look {A} (f : World -> A) : calling A :=
  _ ← on_context HttpExchange.lock_transport; w ← get_state; mret (f w).
Definition transport_change (f : World -> World) : calling unit := _ ← on_context HttpExchange.lock_transport; modify f.

Definition downstream_websocket_transport_available : calling bool :=
  transport_look (fun w => bool_decide (is_Some w.(downstream_tcp_io)) || bool_decide (is_Some w.(downstream_tls_io))).

(** [ReplayPrefixedIo::new(preread, stream)] of either transport. *)
Definition take_downstream_websocket_transport : calling (ReplayPrefixedIo Sockets.Stream) :=
  w ← transport_look id;
  _ ← transport_change (fun w => w <| downstream_tls_io := None |> <| downstream_preread_buffer := [] |>);
  match w.(downstream_tls_io) with
  | Some (Some stream) => mret (Replay.new w.(downstream_preread_buffer) stream)
  | Some None => error "downstream tls plaintext transport is already in use"
  | None =>
      starting ← transport_look downstream_tls_server_start;
      if starting : bool
      then error "downstream websocket accept requires plaintext transport; complete tls::session::handshake first"
      else
        w ← transport_look id;
        _ ← transport_change (fun w => w <| downstream_tcp_io := None |> <| downstream_preread_buffer := [] |>);
        match w.(downstream_tcp_io) with
        | None => throw (Fail websocket_operation_on_downstream)
        | Some None => error "downstream tcp transport is already in use"
        | Some (Some stream) => mret (Replay.new w.(downstream_preread_buffer) stream)
        end
  end.

Definition pick_downstream_subprotocol (request : M) (configured : list string) : option string :=
  match configured with
  | [] => None
  | _ =>
      value ← get request "sec-websocket-protocol" ≫= to_str;
      head (filter (fun protocol => protocol ∈ configured) (trim <$> split_on 44 value))
  end.

(** What the callback makes of the request and the response. *)
Definition answer_upgrade (configured : list string) (request response : M) : M * option string :=
  let selected := pick_downstream_subprotocol request configured in
  (match selected ≫= header_value_str with
   | Some value => hm_insert "sec-websocket-protocol" value response
   | None => response
   end, selected).

Definition accept_downstream_websocket : calling (positive * option string) :=
  websocket ← get_downstream_websocket;
  let configured := WebSocketState.requested_subprotocols websocket in
  stream ← take_downstream_websocket_transport;
  let failed err := error ("downstream websocket accept failed: " +:+ err) in
  read ← outside (fun i => read_upgrade i stream);
  match read with
  | Err err => failed err
  | Ok (request, response, accepting) =>
      let '(response, selected) := answer_upgrade configured request response in
      written ← outside (fun i => write_upgrade i accepting response);
      match written with
      | Err err => failed err
      | Ok stream => io ← new_io stream; mret (io, selected)
      end
  end.

Definition websocket_connection_mode (connection : Z) : calling bool := fun w =>
  match (handle ← decode_connection connection; connection_state handle) w with
  | (Ok state, w) => (Ok (WebSocketState.is_websocket_mode state), w)
  | (Err (Fail _), w) => (Ok false, w)
  | (Err Panic, w) => (Err Panic, w)
  end.

Definition state_of (connection : Z) : calling WebSocketConnectionState :=
  handle ← decode_connection connection; connection_state handle.

Definition protocol_of (state : WebSocketConnectionState) : string :=
  default "" (WebSocketState.negotiated_subprotocol state).
Definition websocket_negotiated_subprotocol (connection : Z) : calling (option string) :=
  state ← state_of connection;
  mret (if is_empty (protocol_of state) then None else Some (protocol_of state)).

(** Nobody holds the lock on a stream between calls. *)
Definition unlocked (w : World) : WebSocketState.heap := pair false <$> w.(ios).

Definition refresh_connection_close_state (connection : Z) : calling unit :=
  w ← get_state;
  let refresh := WebSocketState.refresh_close_state (unlocked w) in
  if connection =? DOWNSTREAM_CONNECTION_HANDLE then with_downstream_websocket_mut refresh
  else if_exchange connection (on_websocket refresh).

(** ** Opening a connection *)

(** The headers of the handshake: tungstenite's own, the host, those of the
    request that may be set, and the protocols asked for. *)
Definition own_header (name : string) : bool :=
  bool_decide (name = "host") || bool_decide (name = "content-length") || Http1ResponseWriter.is_hop_by_hop_header name
  || existsb (fun k => bool_decide (name = k)) ["sec-websocket-key"; "sec-websocket-version"; "sec-websocket-extensions"].

Definition with_host (p : PreparedOutboundWebSocket) (hs : M) : vm_result M :=
  match p.(host_header) with
  | None => Ok hs
  | Some host =>
      value ← ok_or (HostError ("invalid host header '" +:+ host +:+ "'")) (header_value_str host);
      Ok (hm_insert "host" value hs)
  end.
Definition with_request_headers (p : PreparedOutboundWebSocket) (hs : M) : M :=
  foldl (fun hs e => if own_header e.1 then hs else hm_insert e.1 e.2 hs) hs (hm_iter p.(prepared_headers)).
Definition with_subprotocols (p : PreparedOutboundWebSocket) (hs : M) : vm_result M :=
  if bool_decide (p.(prepared_subprotocols) = []) || contains_key hs "sec-websocket-protocol" then Ok hs
  else
    let raw := String.concat ", " p.(prepared_subprotocols) in
    value ← ok_or (HostError ("invalid websocket subprotocol list '" +:+ raw +:+ "'")) (header_value_str raw);
    Ok (hm_insert "sec-websocket-protocol" value hs).

Definition accept_downstream (connection : Z) : calling unit :=
  state ← connection_state Downstream;
  if WebSocketState.is_open state then mret tt
  else
    available ← downstream_websocket_transport_available;
    if negb available then throw (Fail websocket_operation_on_downstream)
    else
      _ ← note_websocket_handshake_started connection;
      '(io, protocol) ← or_store_failed connection accept_downstream_websocket;
      store_connected_websocket connection io protocol.

Definition custom_settings (connection : Z) : string :=
  "websocket connection handle " +:+ dec connection +:+
  " cannot apply custom TLS session settings yet; websocket TLS currently supports only the default verifier/client configuration".

Definition connect_outbound (connection : Z) : calling unit :=
  prepared ← prepared_outbound_websocket connection;
  if prepared.(tls_present) && prepared.(tls_requires_custom_client)
  then failing connection (custom_settings connection) (Fail (HostError (custom_settings connection)))
  else
    let fails message := failing connection message (Fail (HostError message)) in
    _ ← note_websocket_handshake_started connection;
    hs ← outside (fun i => into_client_request i prepared.(url));
    match hs with
    | Err err => fails ("failed to create websocket handshake request: " +:+ err)
    | Ok hs =>
        hs ← or_error (with_host prepared hs);
        hs ← or_error (with_subprotocols prepared (with_request_headers prepared hs));
        connected ← outside (fun i => connect_async i prepared.(url) hs);
        match connected with
        | Err err => fails ("websocket connection handle " +:+ dec connection +:+ " failed to connect: " +:+ err)
        | Ok (stream, response) =>
            let protocol := get response "sec-websocket-protocol" ≫= to_str in
            io ← new_io stream;
            store_connected_websocket connection io protocol
        end
    end.

Definition outbound_exchange_response_available (handle : Z) : calling bool :=
  g ← on_context HttpExchange.lock_exchanges;
  mret (default false (HttpExchange.response_ready <$> g.(exchanges) !! handle)).

Definition ensure_outbound_websocket_connection_open (connection : Z) : calling unit :=
  started ← if connection =? DOWNSTREAM_CONNECTION_HANDLE then mret false
            else outbound_exchange_response_available connection;
  if started : bool
  then error ("websocket connection handle " +:+ dec connection +:+
         " cannot enter websocket mode after the HTTP response has started")
  else
    handle ← decode_connection connection;
    match handle with
    | Downstream => accept_downstream connection
    | handle =>
        state ← connection_state handle;
        if WebSocketState.is_open state then mret tt else connect_outbound connection
    end.

(** ** Messages *)

Definition websocket_io (connection : Z) : calling positive :=
  state ← state_of connection;
  match WebSocketState.io state with
  | Some io => mret io
  | None => error ("websocket connection handle " +:+ dec connection +:+ " is not open")
  end.

(** [io.lock().await], and a call on what it guards. *)
Definition on_io {A} (io : positive) (m : OutboundWebSocketIoState -> vm_result A * OutboundWebSocketIoState) : calling A := fun w =>
  match w.(ios) !! io with
  | None => (Err Panic, w)
  | Some s => let '(r, s) := m s in (HttpExchange.host_error r, w <| ios := <[io := s]> w.(ios) |>)
  end.

(** The first part of every call that moves messages, and the call. *)
Definition on_open {A} (connection : Z) (m : OutboundWebSocketIoState -> vm_result A * OutboundWebSocketIoState) : calling A :=
  _ ← ensure_outbound_websocket_connection_open connection;
  io ← websocket_io connection;
  on_io io m.
Definition on_open_reading {A} (connection : Z) (m : OutboundWebSocketIoState -> vm_result A * OutboundWebSocketIoState) : calling A :=
  r ← on_open connection m;
  _ ← refresh_connection_close_state connection;
  mret r.

Definition validate_outbound_websocket_binary_connection (connection : Z) : calling unit :=
  handle ← decode_connection connection;
  match handle with
  | Downstream =>
      available ← downstream_websocket_transport_available;
      if available : bool then mret tt
      else
        state ← get_downstream_websocket;
        if WebSocketState.is_open state then mret tt else throw (Fail websocket_operation_on_downstream)
  | _ => mret tt
  end.

Definition write_websocket_binary_bytes (connection : Z) (payload : list Z) : calling Z :=
  _ ← validate_outbound_websocket_binary_connection connection;
  on_open connection (WebSocketState.send_binary_bytes payload).
Definition read_websocket_binary_bytes (connection : Z) : calling (option (list Z)) :=
  _ ← validate_outbound_websocket_binary_connection connection;
  on_open_reading connection WebSocketState.read_binary_bytes.

(** [eof] of a copy of the state. *)
Definition eof_of (connection : Z) : calling bool :=
  state ← state_of connection; w ← get_state; mret (WebSocketState.eof (unlocked w) state).1.
Definition websocket_binary_eof (connection : Z) : calling bool :=
  _ ← validate_outbound_websocket_binary_connection connection; eof_of connection.

(** The default exchange is expected to exist. *)
Definition on_connection (connection : Z) (f : WebSocketConnectionState -> WebSocketConnectionState) : calling unit :=
  if connection =? DOWNSTREAM_CONNECTION_HANDLE then with_downstream_websocket_mut f
  else if connection =? DEFAULT_UPSTREAM then on_exchange connection Panic (on_websocket f)
  else if_exchange connection (on_websocket f).
Definition note_closing (connection : Z) : calling unit :=
  _ ← on_context HttpExchange.lock_exchanges; on_connection connection WebSocketState.note_closing.
(** The last part of both ways to close: what the stream recorded is kept. *)
Definition close_io (connection : Z) (io : positive) (code : Z) (reason : string) : calling unit :=
  '(c, r) ← on_io io (fun s =>
    let '(r, s) := WebSocketState.close code reason s in
    ((fun _ => (WebSocketState.io_close_code s, WebSocketState.io_close_reason s)) <$> r, s));
  on_connection connection (WebSocketState.mark_closed c r).

Definition close_websocket_binary_stream (connection : Z) : calling unit :=
  ended ← websocket_binary_eof connection;
  if ended : bool then mret tt
  else
    _ ← ensure_outbound_websocket_connection_open connection;
    _ ← note_closing connection;
    io ← websocket_io connection;
    close_io connection io 1000 "proxy-write-complete".

(** ** The host calls *)

Definition connection_new : calling Z := on_context HttpExchange.allocate_outbound_exchange_handle.

Definition connection_is_present (connection : Z) : calling bool :=
  handle ← decode_connection connection;
  state ← connection_state handle;
  match handle with
  | Downstream =>
      if WebSocketState.present state then mret true else downstream_websocket_transport_available
  | _ => mret (WebSocketState.present state)
  end.

(** The calls that the downstream refuses. *)
Definition upstream_only (connection : Z) (m : calling unit) : calling unit :=
  handle ← decode_connection connection;
  match handle with Downstream => throw (Fail websocket_operation_on_downstream) | _ => m end.
Definition connection_set_target (connection : Z) (host : string) (port : Z) : calling unit :=
  upstream_only connection (prepare_outbound_socket_target connection host port).
Definition connection_set_scheme (connection : Z) (scheme : string) : calling unit :=
  upstream_only connection (prepare_outbound_scheme connection scheme).
Definition connection_set_path (connection : Z) (path : string) : calling unit :=
  upstream_only connection (prepare_outbound_path connection path).
Definition connection_set_query (connection : Z) (query : string) : calling unit :=
  upstream_only connection (prepare_outbound_query connection query).
Definition connection_set_header (connection : Z) (name value : string) : calling unit :=
  upstream_only connection (prepare_outbound_header connection name value).

Definition connection_set_subprotocols (connection : Z) (protocols : string) : calling unit :=
  protocols ← or_error (parse_subprotocols protocols);
  handle ← decode_connection connection;
  match handle with
  | Downstream =>
      available ← downstream_websocket_transport_available;
      if negb available then throw (Fail websocket_operation_on_downstream)
      else with_downstream_websocket_mut (WebSocketState.set_requested_subprotocols protocols)
  | _ => with_outbound_connection_mut connection (fun p =>
           p <| p_websocket := WebSocketState.set_requested_subprotocols protocols p.(p_websocket) |>)
  end.

Definition connection_connect (connection : Z) : calling bool :=
  _ ← ensure_outbound_websocket_connection_open connection; mret true.
(** Of a copy of the state. *)
Definition connection_get_phase (connection : Z) : calling string :=
  state ← state_of connection;
  w ← get_state;
  mret (WebSocketState.phase_as_str (WebSocketState.phase (WebSocketState.refresh_close_state (unlocked w) state))).
Definition connection_get_subprotocol (connection : Z) : calling string := protocol_of <$> state_of connection.
Definition connection_send_text (connection : Z) (text : string) : calling Z := on_open connection (WebSocketState.send_text text).
Definition connection_read_text (connection : Z) : calling string :=
  default "" <$> on_open_reading connection WebSocketState.read_text.
Definition connection_send_binary_base64 (connection : Z) (payload : string) : calling Z :=
  on_open connection (send_binary_base64 payload).
Definition connection_send_binary (connection : Z) (payload : Value) : calling Z :=
  bytes ← or_error (value_to_bytes payload);
  on_open connection (WebSocketState.send_binary_bytes bytes).
Definition connection_read_binary_base64 (connection : Z) : calling string :=
  default "" <$> on_open_reading connection read_binary_base64.
Definition connection_read_binary (connection : Z) : calling (list Z) :=
  default [] <$> on_open_reading connection WebSocketState.read_binary_bytes.
Definition connection_eof (connection : Z) : calling bool := eof_of connection.

Definition connection_close (connection : Z) (code : Z) (reason : string) : calling unit :=
  _ ← ensure_outbound_websocket_connection_open connection;
  if (code <? 0) || (U16_MAX <? code)
  then error ("websocket close code must be in the u16 range, got " +:+ dec code)
  else
    io ← websocket_io connection;
    _ ← note_closing connection;
    close_io connection io code reason.

End calls.
End WebSocketSessions.
