(* ===== verification/WebSocketCalls.v ===== *)
(** Properties of the websocket host calls: whatever a program calls on its
    connections, each message that arrived is handed over once and in order, on
    the connection it arrived on; and a connection to an upstream is opened with
    the request that was prepared. *)

From S2P Require Import Prelude Bytes Effects TransportState TlsFlow HttpVersions HttpHeaders Http1ResponseWriter DownstreamResponse WebSocketState HttpExchange TlsConfig Sockets WebSocketSessions.

Module WebSocketCalls.
Import HttpHeaders WebSocketSessions.
Import HttpExchange (AuthorityCrate, Context, registry, transports, request_head, head_headers, exchanges, seed_exchanges, seed_transport,
  HttpOutboundExchangeState, request, transport, websocket_dag, HttpOutboundRequestNode, path, query, headers).
Import WebSocketState (WebSocketConnectionState, OutboundWebSocketIoState, OutboundWebSocketFrame, FText, FBinary, Message,
  Text, Binary, Pong, Close, MkClose, frame_of, incoming, sent, stream, new_client, io).
Import Sockets (Values, Value, as_bytes, ErrorText, Base64, base64_encode, base64_decode).

#[local] Existing Instances HttpExchange.eta_transport HttpExchange.eta_exchange HttpExchange.eta_context HttpExchange.eta_request
  HttpExchange.eta_head HttpExchange.eta_registry WebSocketState.eta_io WebSocketState.eta_ws.
#[local] Arguments seed_exchanges : simpl never.
#[local] Arguments seed_transport : simpl never.

Create HintDb rests.

Section calls.
Context {M : Type} `{HM : HeaderMap M} `{HMM : !HeaderMapMut M} `{HC : HttpCrate} `{AC : AuthorityCrate}.
Context `{WC : !WebSocketCrate M} `{VA : Values} `{ET : ErrorText} `{B64 : Base64}.
Context {B : Type}.
Abbreviation exchange := (HttpOutboundExchangeState (M := M) (B := B)).
Abbreviation world := (World (M := M) (B := B)).
Abbreviation calling := (WebSocketSessions.calling (M := M) (B := B)).

(** ** Which connection holds which stream *)

Definition upstream (c : Z) (w : world) : option exchange := (seed_exchanges w.(context).(registry)).(exchanges) !! c.
Definition holds (c : Z) (w : world) : option positive :=
  if c =? 0 then if w.(downstream_websocket_initialized) then io w.(downstream_websocket) else None
  else upstream c w ≫= fun e => io e.(websocket_dag).

(** A computation that leaves the streams alone; who holds them changes only to
    what is allowed. *)
Definition rested (allow : Z -> option positive -> Prop) (w w' : world) : Prop :=
  ios w' = ios w /\ forall k, holds k w' = holds k w \/ allow k (holds k w').
Definition rests (allow : Z -> option positive -> Prop) {A} (m : calling A) : Prop := forall w, rested allow w (m w).2.

(** Nobody lets go; only the connection [c] does; it may also take the stream [l]. *)
Definition nobody : Z -> option positive -> Prop := fun _ _ => False.
Definition lets_go (c : Z) : Z -> option positive -> Prop := fun k o => k = c /\ o = None.
Definition takes (c : Z) (l : positive) : Z -> option positive -> Prop := fun k o => k = c /\ (o = None \/ o = Some l).

Lemma rested_trans P w1 w2 w3 : rested P w1 w2 -> rested P w2 w3 -> rested P w1 w3.
Proof.
  intros [H1 H2] [H3 H4]. split; [congruence|]. intros k. destruct (H4 k) as [->|]; [apply H2|by right].
Qed.
Lemma rested_weaken (P Q : Z -> option positive -> Prop) w w' : (forall k o, P k o -> Q k o) -> rested P w w' -> rested Q w w'.
Proof. intros HPQ [H1 H2]. split; [done|]. intros k. destruct (H2 k); eauto. Qed.

Section rests.
Context (P : Z -> option positive -> Prop).

Lemma rests_same {A} (m : calling A) :
  (forall w, ios (m w).2 = ios w /\ forall k, holds k (m w).2 = holds k w) -> rests P m.
Proof. intros Hm w. destruct (Hm w) as [H1 H2]. split; [done|]. intros k. by left. Qed.
Lemma rests_ret {A} (a : A) : rests P (mret a).
Proof. by apply rests_same. Qed.
Lemma rests_throw {A} e : rests P (throw (A:=A) e).
Proof. by apply rests_same. Qed.
Lemma rests_error {A} s : rests P (error (A:=A) s).
Proof. apply rests_throw. Qed.
Lemma rests_get : rests P get_state.
Proof. by apply rests_same. Qed.
Lemma rests_or_error {A} (r : vm_result A) : rests P (or_error r).
Proof. by apply rests_same. Qed.
Lemma rests_bind {A A'} (m : calling A) (f : A -> calling A') : rests P m -> (forall a, rests P (f a)) -> rests P (m ≫= f).
Proof.
  intros Hm Hf w. unfold mbind, eff_bind. specialize (Hm w). destruct (m w) as [[a|e] w1]; [|done]. cbn in *.
  by eapply rested_trans, Hf.
Qed.
Lemma rests_fmap {A A'} (m : calling A) (f : A -> A') : rests P m -> rests P (f <$> m).
Proof. intros Hm w. specialize (Hm w). unfold fmap, eff_fmap. by destruct (m w) as [[a|e] w1]. Qed.
Lemma rests_outside {A} (f : nat -> A) : rests P (outside f).
Proof. by apply rests_same. Qed.

(** A computation on the exchanges and flows. *)
Lemma rests_context {A} (m : eff fault (Context (M := M) (B := B)) A) :
  (forall x, let x' := (m x).2 in forall k,
     let at_ x := (seed_exchanges x.(registry)).(exchanges) !! k ≫= fun e => io e.(websocket_dag) in
     at_ x' = at_ x \/ P k (at_ x')) -> rests P (on_context m).
Proof.
  intros Hm w. unfold on_context, zoom. specialize (Hm w.(context)). destruct (m (context w)) as [r x]. cbn in *.
  split; [done|]. intros k. unfold holds, upstream. cbn. destruct (k =? 0); [by left|]. apply Hm.
Qed.
Lemma rests_seeding {A} (m : eff fault (Context (M := M) (B := B)) A) :
  (forall x, seed_exchanges (m x).2.(registry) = seed_exchanges x.(registry)) -> rests P (on_context m).
Proof. intros Hm. apply rests_context. intros x x' k at_. left. unfold at_, x'. by rewrite Hm. Qed.
Lemma rests_lock_exchanges : rests P (on_context HttpExchange.lock_exchanges).
Proof. apply rests_seeding. intros x. apply HttpExchange.seed_exchanges_idemp. Qed.
Lemma rests_exists k : rests P (on_context (HttpExchange.outbound_exchange_exists k)).
Proof. apply rests_seeding. intros x. apply HttpExchange.seed_exchanges_idemp. Qed.
Lemma rests_lock_transport : rests P (on_context HttpExchange.lock_transport).
Proof. by apply rests_seeding. Qed.
Lemma rests_set_transport f : rests P (on_context (HttpExchange.set_transport f)).
Proof. by apply rests_seeding. Qed.

Lemma seeded_insert (g : HttpExchange.ExchangeRegistry (M := M) (B := B)) k e :
  seed_exchanges (seed_exchanges g <| exchanges := <[k := e]> (seed_exchanges g).(exchanges) |>)
  = seed_exchanges g <| exchanges := <[k := e]> (seed_exchanges g).(exchanges) |>.
Proof. apply HttpExchange.seed_initialized. cbn. apply HttpExchange.seeded_initialized. Qed.

Lemma rests_with_exchange {A} k missing (m : eff fault exchange A) :
  (forall e, io (websocket_dag (m e).2) = io (websocket_dag e) \/ P k (io (websocket_dag (m e).2))) ->
  rests P (on_context (HttpExchange.with_exchange k missing m)).
Proof.
  intros Hm. apply rests_context. intros x x' j at_. unfold x', at_. rewrite HttpExchange.with_exchange_run. cbn.
  destruct (exchanges (seed_exchanges (registry x)) !! k) as [e|] eqn:He; cbn; [|left; by rewrite HttpExchange.seed_exchanges_idemp].
  rewrite seeded_insert. cbn. destruct (decide (j = k)) as [->|Hj]; [|left; by rewrite lookup_insert_ne].
  rewrite lookup_insert_eq, He. apply Hm.
Qed.
Lemma rests_exchange k missing f :
  (forall e, io (websocket_dag (f e)) = io (websocket_dag e) \/ P k (io (websocket_dag (f e)))) ->
  rests P (on_exchange k missing f).
Proof. intros Hf. by apply rests_with_exchange. Qed.
Lemma rests_if_exchange k f :
  (forall s, io (f s) = io s \/ P k (io (f s))) -> rests P (if_exchange k (on_websocket f)).
Proof.
  intros Hf. unfold if_exchange. apply rests_bind; [apply rests_lock_exchanges|]. intros g.
  destruct (_ !! _); [|apply rests_ret]. apply rests_exchange. intros e. apply Hf.
Qed.

Lemma initial_io (m : M) : io (WebSocketState.for_http_request m) = None.
Proof. unfold WebSocketState.for_http_request. by destruct (negb _). Qed.
Lemma rests_initialized : rests P ensure_downstream_websocket_initialized.
Proof.
  apply rests_same. intros w. unfold ensure_downstream_websocket_initialized, modify. cbn.
  destruct (downstream_websocket_initialized w) eqn:Hi; [done|]. destruct (HttpHeaders.headers _) as [m lazy]. cbn. split; [done|].
  intros k. unfold holds, upstream. cbn. rewrite Hi. destruct (k =? 0); [apply initial_io|done].
Qed.
Lemma initialized_after (w : world) : downstream_websocket_initialized (ensure_downstream_websocket_initialized w).2 = true.
Proof.
  unfold ensure_downstream_websocket_initialized. cbn. destruct (downstream_websocket_initialized w) eqn:?; [done|].
  by destruct (HttpHeaders.headers _).
Qed.
Lemma rests_downstream f : (forall s, io (f s) = io s \/ P 0 (io (f s))) -> rests P (with_downstream_websocket_mut f).
Proof.
  intros Hf w. apply (rested_trans _ _ _ _ (rests_initialized w)). pose proof (initialized_after w) as Hi.
  change (with_downstream_websocket_mut f w) with
    (let w := (ensure_downstream_websocket_initialized w).2 in (Ok (E := fault) tt, w <| downstream_websocket := f (downstream_websocket w) |>)).
  generalize dependent (ensure_downstream_websocket_initialized w).2. cbn. intros w1 Hi.
  split; [done|]. intros k. unfold holds. cbn. rewrite Hi. destruct (k =? 0) eqn:Hk; [|by left].
  apply Z.eqb_eq in Hk as ->. apply Hf.
Qed.
End rests.

(** Descends into a computation, up to the parts that are named. *)
Ltac walk := repeat
  first [ apply rests_ret | apply rests_throw | apply rests_error | apply rests_get | apply rests_or_error | apply rests_outside
        | apply rests_lock_exchanges | apply rests_exists | apply rests_lock_transport | apply rests_set_transport
        | apply rests_initialized | progress intros | progress cbv zeta | solve [eauto with rests]
        | match goal with |- rests _ (mbind _ _) => apply rests_bind | |- rests _ (fmap _ _) => apply rests_fmap end
        | match goal with |- rests _ (match ?x with _ => _ end) => destruct x end ].

Lemma rests_outbound P c mutate :
  (forall p, io (p_websocket (mutate p)) = io (p_websocket p) \/ P c (io (p_websocket (mutate p)))) ->
  rests P (with_outbound_connection_mut c mutate).
Proof.
  intros Hm. unfold with_outbound_connection_mut. walk.
  - apply rests_with_exchange. intros e. apply (Hm (MkParts _ _ _ _)).
  - apply rests_exchange. intros e. apply (Hm (MkParts _ _ _ _)).
Qed.

Lemma rests_on_connection P c f : (forall s, io (f s) = io s \/ P c (io (f s))) -> rests P (on_connection c f).
Proof.
  intros Hf. unfold on_connection. destruct (c =? DOWNSTREAM_CONNECTION_HANDLE) eqn:Hc.
  - apply Z.eqb_eq in Hc as ->. by apply rests_downstream.
  - destruct (c =? DEFAULT_UPSTREAM); [|by apply rests_if_exchange]. apply rests_exchange. intros e. apply Hf.
Qed.

Lemma rests_decode P c : rests P (decode_connection c).
Proof. unfold decode_connection. walk. Qed.
Lemma rests_get_downstream P : rests P get_downstream_websocket.
Proof. unfold get_downstream_websocket. walk. Qed.
#[local] Hint Resolve rests_decode rests_get_downstream : rests.
Lemma rests_connection_state P h : rests P (connection_state h).
Proof. unfold connection_state. walk. Qed.
#[local] Hint Resolve rests_connection_state : rests.
Lemma rests_state_of P c : rests P (state_of c).
Proof. unfold state_of. walk. Qed.
#[local] Hint Resolve rests_state_of : rests.
Lemma rests_websocket_io P c : rests P (websocket_io c).
Proof. unfold websocket_io. walk. Qed.
Lemma rests_look P {A} (f : world -> A) : rests P (transport_look f).
Proof. unfold transport_look. walk. Qed.
Lemma rests_available P : rests P downstream_websocket_transport_available.
Proof. apply rests_look. Qed.
#[local] Hint Resolve rests_websocket_io rests_look rests_available : rests.
Lemma rests_validate P c : rests P (validate_outbound_websocket_binary_connection c).
Proof. unfold validate_outbound_websocket_binary_connection. walk. Qed.
Lemma rests_eof_of P c : rests P (eof_of c).
Proof. unfold eof_of. walk. Qed.
Lemma rests_prepared P c : rests P (prepared_outbound_websocket c).
Proof. unfold prepared_outbound_websocket. walk. Qed.
Lemma rests_response_available P c : rests P (outbound_exchange_response_available c).
Proof. unfold outbound_exchange_response_available. walk. Qed.
Lemma rests_take P : rests P take_downstream_websocket_transport.
Proof. unfold take_downstream_websocket_transport, transport_change. walk; by apply rests_same. Qed.

Lemma prepared_io s : io (WebSocketState.prepare_outbound s) = io s.
Proof. unfold WebSocketState.prepare_outbound. cbn. by destruct (WebSocketState.phase s). Qed.
Lemma closing_io s : io (WebSocketState.note_closing s) = io s.
Proof. unfold WebSocketState.note_closing. by destruct (bool_decide _). Qed.
Lemma refresh_io h s : io (WebSocketState.refresh_close_state h s) = io s.
Proof.
  unfold WebSocketState.refresh_close_state. destruct (io s) eqn:E; [|done]. destruct (WebSocketState.try_lock _ _) as [x|]; [|done].
  by destruct (WebSocketState.io_eof x).
Qed.
#[local] Hint Resolve rests_validate rests_eof_of rests_prepared rests_response_available rests_take : rests.

(** Preparing a connection keeps its stream. *)
Lemma rests_prepare P c f : rests P (with_outbound_connection_mut c (prepare f)).
Proof. apply rests_outbound. intros p. left. apply prepared_io. Qed.
Lemma rests_upstream_only P c m : rests P m -> rests P (upstream_only c m).
Proof. intros Hm. unfold upstream_only. walk. Qed.
Lemma rests_set_target P c host port : rests P (connection_set_target c host port).
Proof.
  apply rests_upstream_only. unfold prepare_outbound_socket_target. walk. apply rests_outbound. intros p. left. apply prepared_io.
Qed.
Lemma rests_set_scheme P c scheme : rests P (connection_set_scheme c scheme).
Proof.
  apply rests_upstream_only. unfold prepare_outbound_scheme. walk. apply rests_outbound. intros p. left. apply prepared_io.
Qed.
Lemma rests_set_path P c path : rests P (connection_set_path c path).
Proof. apply rests_upstream_only. unfold prepare_outbound_path. walk. apply rests_prepare. Qed.
Lemma rests_set_query P c query : rests P (connection_set_query c query).
Proof. apply rests_upstream_only. unfold prepare_outbound_query. walk. apply rests_prepare. Qed.
Lemma rests_set_header P c name value : rests P (connection_set_header c name value).
Proof. apply rests_upstream_only. unfold prepare_outbound_header. walk. apply rests_prepare. Qed.
Lemma rests_set_subprotocols P c protocols : rests P (connection_set_subprotocols c protocols).
Proof.
  unfold connection_set_subprotocols. walk; first [apply rests_downstream; intros s|apply rests_outbound; intros p]; left; apply prepared_io.
Qed.
Lemma rests_is_present P c : rests P (connection_is_present c).
Proof. unfold connection_is_present. walk. Qed.
Lemma rests_get_phase P c : rests P (connection_get_phase c).
Proof. unfold connection_get_phase. walk. Qed.
Lemma rests_get_subprotocol P c : rests P (connection_get_subprotocol c).
Proof. unfold connection_get_subprotocol. walk. Qed.
Lemma rests_note_closing P c : rests P (note_closing c).
Proof. unfold note_closing. walk. apply rests_on_connection. intros s. left. apply closing_io. Qed.
Lemma rests_refresh P c : rests P (refresh_connection_close_state c).
Proof.
  unfold refresh_connection_close_state. walk; first [apply rests_downstream|apply rests_if_exchange]; intros s; left; apply refresh_io.
Qed.

(** ** Opening a connection *)

Lemma rests_started c : rests (lets_go c) (note_websocket_handshake_started c).
Proof.
  unfold note_websocket_handshake_started. destruct (c =? DOWNSTREAM_CONNECTION_HANDLE) eqn:Hc.
  - apply Z.eqb_eq in Hc as ->. apply rests_downstream. intros s. by right.
  - apply rests_outbound. intros p. by right.
Qed.
Lemma rests_store_failed c message : rests (lets_go c) (store_failed_websocket c message).
Proof.
  unfold store_failed_websocket. destruct (c =? DOWNSTREAM_CONNECTION_HANDLE) eqn:Hc.
  - apply Z.eqb_eq in Hc as ->. walk. apply rests_downstream. intros s. by right.
  - destruct (c =? DEFAULT_UPSTREAM) eqn:Hd; [apply Z.eqb_eq in Hd as ->|]; walk; apply rests_exchange; intros e; by right.
Qed.
Lemma rests_store_connected c l protocol : rests (takes c l) (store_connected_websocket c l protocol).
Proof.
  assert (Ht : takes c l c (Some l)) by (split; [done|by right]).
  unfold store_connected_websocket. destruct (c =? DOWNSTREAM_CONNECTION_HANDLE) eqn:Hc.
  - apply Z.eqb_eq in Hc as ->. walk. apply rests_downstream. intros s. by right.
  - destruct (c =? DEFAULT_UPSTREAM) eqn:Hd; [apply Z.eqb_eq in Hd as ->|]; walk; apply rests_exchange; intros e; by right.
Qed.
Lemma rests_failing {A} c message e : rests (lets_go c) (failing (A := A) c message e).
Proof.
  intros w. unfold failing. pose proof (rests_store_failed c message w) as H.
  destruct (store_failed_websocket c message w) as [[a|[e'|]] w1]; exact H.
Qed.

(** A stream the crate handed over. *)
Definition came (s : WebSocketState.Stream) : Prop :=
  (exists i url hs response, connect_async i url hs = Ok (s, response)) \/ exists i accepting hs, write_upgrade i accepting hs = Ok s.

(** Such a stream joins the others. *)
Definition joins (l : positive) (w w' : world) : Prop := exists s,
  came s /\ ios w !! l = None /\ ios w' = <[l := new_client s]> (ios w).
(** The connection [c] takes a stream, or not. *)
Definition opens (c : Z) (w w' : world) : Prop :=
  rested (lets_go c) w w' \/ exists l, joins l w w' /\ forall k, holds k w' = holds k w \/ takes c l k (holds k w').

Lemma rested_opens c w1 w2 w3 : rested (lets_go c) w1 w2 -> opens c w2 w3 -> opens c w1 w3.
Proof.
  intros H12 [H23|(l & (s & Hs & Hl & Hi) & Hh)]; [left; by eapply rested_trans|]. right. exists l. split.
  - exists s. destruct H12 as [E _]. by rewrite <-E.
  - intros k. destruct (Hh k) as [->|]; [|by right]. destruct H12 as [_ H12]. destruct (H12 k) as [|[? ?]]; [by left|].
    right. split; [done|by left].
Qed.
Lemma opens_bind {A A'} c (m : calling A) (f : A -> calling A') w : rests (lets_go c) m ->
  (forall a w, opens c w (f a w).2) -> opens c w ((m ≫= f) w).2.
Proof.
  intros Hm Hf. specialize (Hm w). unfold mbind, eff_bind. destruct (m w) as [[a|e] w1]; [|by left].
  by eapply rested_opens, Hf.
Qed.

Lemma joins_from l (w1 w2 w3 : world) : ios w2 = ios w1 -> joins l w2 w3 -> joins l w1 w3.
Proof. intros E (s & Hs & Hl & Hi). exists s. by rewrite <-E. Qed.
Lemma new_io_run (s : WebSocketState.Stream) (w : world) : came s ->
  exists l, new_io s w = (Ok l, w <| ios := <[l := new_client s]> (ios w) |>) /\ joins l w (new_io s w).2.
Proof.
  intros Hs. exists (fresh (dom (ios w))). split; [done|]. exists s. split_and!; [done| |done].
  apply not_elem_of_dom, is_fresh.
Qed.
Lemma opens_joined c l protocol w1 w2 : joins l w1 w2 -> (forall k, holds k w2 = holds k w1) ->
  opens c w1 (store_connected_websocket c l protocol w2).2.
Proof.
  intros (s & Hs & Hl & Hi) Hh. destruct (rests_store_connected c l protocol w2) as [H1 H2]. right. exists l. split.
  - exists s. by rewrite H1.
  - intros k. rewrite <-Hh. apply H2.
Qed.

Lemma accept_brings w : match accept_downstream_websocket w with
  | (Ok (l, _), w') => joins l w w' /\ forall k, holds k w' = holds k w
  | (Err _, w') => rested nobody w w'
  end.
Proof.
  unfold accept_downstream_websocket. unfold mbind at 1, eff_bind at 1.
  pose proof (rests_get_downstream nobody w) as H1. destruct (get_downstream_websocket w) as [[ws|e] w1]; [|done].
  unfold mbind at 1, eff_bind at 1. pose proof (rests_take nobody w1) as H2.
  destruct (take_downstream_websocket_transport w1) as [[stream|e] w2]; [|by eapply rested_trans].
  pose proof (rested_trans _ _ _ _ H1 H2) as H. clear H1 H2.
  unfold mbind at 1, eff_bind at 1, outside at 1. cbn.
  destruct (read_upgrade _ _) as [[[request response] accepting]|err]; [|exact H].
  unfold outside, mbind at 1, eff_bind at 1.
  destruct (write_upgrade _ _ _) as [stream'|err] eqn:Hw; [|exact H].
  set (w3 := w2 <| outside_calls := _ |> <| outside_calls := _ |>).
  destruct (new_io_run stream' w3) as (l & E & Hj); [right; by eexists _, _, _|]. unfold mbind, eff_bind. rewrite E in *.
  destruct H as [H1 H2]. split; [by apply (joins_from _ _ w3)|]. intros k. by destruct (H2 k) as [<-|[]].
Qed.

Lemma opens_accept c w : opens c w (accept_downstream c w).2.
Proof.
  unfold accept_downstream. apply opens_bind; [walk|]. intros state w1.
  destruct (WebSocketState.is_open state); [left; by apply rests_ret|]. apply opens_bind; [walk|]. intros available w2.
  destruct (negb available); [left; by apply rests_throw|]. apply opens_bind; [apply rests_started|]. intros _ w3.
  unfold or_store_failed, mbind, eff_bind. pose proof (accept_brings w3) as H.
  destruct (accept_downstream_websocket w3) as [[[l protocol]|[e|]] w4].
  - destruct H as [Hj Hh]. by apply opens_joined.
  - pose proof (rests_failing (A := positive * option string) c (Sockets.error_text e) (Fail e) w4) as Hf.
    destruct (failing _ _ _ w4) as [[[l protocol]|e'] w5] eqn:E; left.
    + unfold failing in E. by destruct (store_failed_websocket _ _ _) as [[|[]] ?].
    + eapply rested_trans; [|exact Hf]. by eapply rested_weaken; [|exact H].
  - left. by eapply rested_weaken; [|exact H].
Qed.

Lemma opens_connect c w : opens c w (connect_outbound c w).2.
Proof.
  unfold connect_outbound. apply opens_bind; [walk|]. intros p w1.
  destruct (tls_present p && tls_requires_custom_client p); [left; apply rests_failing|].
  apply opens_bind; [apply rests_started|]. intros _ w2. apply opens_bind; [walk|]. intros [hs|err] w3; [|left; apply rests_failing].
  apply opens_bind; [walk|]. intros hs1 w4. apply opens_bind; [walk|]. intros hs2 w5.
  unfold outside, mbind at 1, eff_bind at 1. cbn. destruct (connect_async _ _ _) as [[s response]|err] eqn:Hc.
  - set (w6 := w5 <| outside_calls := _ |>). change (opens c w5 ?x) with (opens c w6 x).
    destruct (new_io_run s w6) as (l & E & Hj); [left; by eexists _, _, _, _|]. unfold mbind, eff_bind. rewrite E in *. by apply opens_joined.
  - left. apply (rested_trans _ _ (w5 <| outside_calls := S (outside_calls w5) |>)); [|apply rests_failing].
    split; [done|]. by left.
Qed.

Lemma opens_ensure c w : opens c w (ensure_outbound_websocket_connection_open c w).2.
Proof.
  unfold ensure_outbound_websocket_connection_open. apply opens_bind; [destruct (_ =? _); walk|]. intros started w1.
  destruct started; [left; apply rests_error|].
  apply opens_bind; [walk|]. intros handle w2.
  assert (Hup : opens c w2 ((state ← connection_state handle; if WebSocketState.is_open state then mret tt else connect_outbound c) w2).2).
  { apply opens_bind; [walk|]. intros state w3. destruct (WebSocketState.is_open state); [left; by apply rests_ret|apply opens_connect]. }
  destruct handle; [apply opens_accept|done..].
Qed.

(** ** Messages *)

(** The data frames that arrive, and what is sent besides the answers to pings. *)
Definition frames (arrivals : list (result string Message)) : list OutboundWebSocketFrame :=
  omap (fun r => match r with Ok m => frame_of m | Err _ => None end) arrivals.
Definition pong (m : Message) : bool := match m with Pong _ => true | _ => false end.
Definition payloads (l : list Message) : list Message := filter (fun m => pong m = false) l.

(** A frame that was taken was handed over, or refused because of its kind. *)
Definition handed (x : option OutboundWebSocketFrame) (f : OutboundWebSocketFrame) : Prop := x = None \/ x = Some f.

(** What moves through a stream: the frames that are taken, and what is sent. *)
Definition passes (s : OutboundWebSocketIoState) (got : list (option OutboundWebSocketFrame)) (put : list Message)
    (s' : OutboundWebSocketIoState) : Prop :=
  (exists taken, frames s.(stream).(incoming) = taken ++ frames s'.(stream).(incoming) /\ Forall2 handed got taken)
  /\ payloads s'.(stream).(sent) = payloads s.(stream).(sent) ++ put.

Lemma passes_nothing s s' : frames s'.(stream).(incoming) = frames s.(stream).(incoming) ->
  payloads s'.(stream).(sent) = payloads s.(stream).(sent) -> passes s [] [] s'.
Proof. intros H1 H2. split; [exists []; split; [done|constructor]|by rewrite H2, app_nil_r]. Qed.
Lemma passes_trans s1 s2 s3 g1 g2 p1 p2 : passes s1 g1 p1 s2 -> passes s2 g2 p2 s3 -> passes s1 (g1 ++ g2) (p1 ++ p2) s3.
Proof.
  intros [(t1 & E1 & H1) P1] [(t2 & E2 & H2) P2]. split.
  - exists (t1 ++ t2). rewrite E1, E2, app_assoc. split; [done|by apply Forall2_app].
  - by rewrite P2, P1, app_assoc.
Qed.

Lemma send_passes m s : let '(r, s') := WebSocketState.send m s in
  match r with Ok _ => passes s [] (payloads [m]) s' | Err _ => passes s [] [] s' end.
Proof.
  unfold WebSocketState.send. destruct (WebSocketState.outcomes (stream s)) as [|[[]|e] o];
    (split; [exists []; split; [done|constructor]|]); cbn -[payloads]; unfold payloads; rewrite ?filter_app, ?app_nil_r; done.
Qed.

Lemma read_loop_passes inc s : s.(stream).(incoming) = inc -> let '(r, s') := WebSocketState.read_loop inc s in
  match r with
  | Ok (Some f) => forall x, handed x f -> passes s [x] [] s'
  | _ => passes s [] [] s'
  end.
Proof.
  revert s. induction inc as [|[m|e] inc IH]; intros s Hs; cbn [WebSocketState.read_loop].
  - by apply passes_nothing; [rewrite Hs|].
  - set (s1 := s <| stream := stream s <| incoming := inc |> |>).
    assert (Htake : forall f x, frame_of m = Some f -> handed x f -> passes s [x] [] s1).
    { intros f x Hf Hx. split; [|cbn; by rewrite app_nil_r]. exists [f]. rewrite Hs. unfold frames. cbn. rewrite Hf.
      split; [done|]. by apply Forall2_cons. }
    assert (Hskip : frame_of m = None -> passes s [] [] s1).
    { intros Hf. apply passes_nothing; [|done]. rewrite Hs. unfold frames. cbn. by rewrite Hf. }
    assert (Hgo : frame_of m = None -> forall s2, passes s1 [] [] s2 -> s2.(stream).(incoming) = inc ->
      let '(r, s') := WebSocketState.read_loop inc s2 in
      match r with Ok (Some f) => forall x, handed x f -> passes s [x] [] s' | _ => passes s [] [] s' end).
    { intros Hf s2 H12 H2. specialize (IH s2 H2). destruct (WebSocketState.read_loop inc s2) as [r s'].
      pose proof (passes_trans _ _ _ _ _ _ _ (Hskip Hf) H12) as H. cbn in H.
      destruct r as [[f|]|e]; [intros x Hx; by apply (passes_trans _ _ _ [] [x] [] [] H), IH|by apply (passes_trans _ _ _ [] [] [] [] H)..]. }
    destruct m as [t|b|p|p|f|].
    + intros x. by apply Htake.
    + intros x. by apply Htake.
    + pose proof (send_passes (Pong p) s1) as Hp. destruct (WebSocketState.send (Pong p) s1) as [[[]|e] s2] eqn:E.
      * apply Hgo; [done|exact Hp|]. unfold WebSocketState.send in E. by destruct (WebSocketState.outcomes _) as [|[[]|] ?]; simplify_eq.
      * by apply (passes_trans _ _ _ [] [] [] [] (Hskip eq_refl)).
    + apply Hgo; [done|by apply passes_nothing|done].
    + specialize (Hskip eq_refl). by destruct f.
    + apply Hgo; [done|by apply passes_nothing|done].
  - apply passes_nothing; [|done]. by rewrite Hs.
Qed.

(** ** The calls of a program *)

(** The host calls, and the ones the copy loops of proxies make. *)
Inductive ask :=
| NewConnection
| IsPresent
| SetTarget (host : string) (port : Z)
| SetScheme (scheme : string)
| SetPath (p : string)
| SetQuery (q : string)
| SetHeader (name value : string)
| SetSubprotocols (protocols : string)
| Connect
| GetPhase
| GetSubprotocol
| SendText (text : string)
| ReadText
| SendBinaryBase64 (payload : string)
| SendBinary (payload : Value)
| ReadBinaryBase64
| ReadBinary
| GetEof
| CloseWith (code : Z) (reason : string)
| WriteBytes (payload : list Z)
| ReadBytes
| BinaryEof
| CloseStream.

Inductive answer :=
| ADone
| AHandle (connection : Z)
| ABool (b : bool)
| AText (text : string)
| ACount (n : Z)
| ABytes (bytes : list Z)
| AMaybe (bytes : option (list Z)).

Definition serve (c : Z) (q : ask) : calling answer :=
  let done (m : calling unit) := (fun _ => ADone) <$> m in
  match q with
  | NewConnection => AHandle <$> connection_new
  | IsPresent => ABool <$> connection_is_present c
  | SetTarget host port => done (connection_set_target c host port)
  | SetScheme scheme => done (connection_set_scheme c scheme)
  | SetPath p => done (connection_set_path c p)
  | SetQuery q => done (connection_set_query c q)
  | SetHeader name value => done (connection_set_header c name value)
  | SetSubprotocols protocols => done (connection_set_subprotocols c protocols)
  | Connect => ABool <$> connection_connect c
  | GetPhase => AText <$> connection_get_phase c
  | GetSubprotocol => AText <$> connection_get_subprotocol c
  | SendText text => ACount <$> connection_send_text c text
  | ReadText => AText <$> connection_read_text c
  | SendBinaryBase64 payload => ACount <$> connection_send_binary_base64 c payload
  | SendBinary payload => ACount <$> connection_send_binary c payload
  | ReadBinaryBase64 => AText <$> connection_read_binary_base64 c
  | ReadBinary => ABytes <$> connection_read_binary c
  | GetEof => ABool <$> connection_eof c
  | CloseWith code reason => done (connection_close c code reason)
  | WriteBytes payload => ACount <$> write_websocket_binary_bytes c payload
  | ReadBytes => AMaybe <$> read_websocket_binary_bytes c
  | BinaryEof => ABool <$> websocket_binary_eof c
  | CloseStream => done (close_websocket_binary_stream c)
  end.

(** The error for a frame of the other kind. *)
Definition wrong_kind (q : ask) : option string :=
  match q with
  | ReadText => Some "next websocket frame is binary; call websocket::connection::read_binary"
  | ReadBinaryBase64 => Some "next websocket frame is text; call websocket::connection::read_text"
  | ReadBinary | ReadBytes => Some "next websocket frame is text; binary byte-stream mode requires binary frames"
  | _ => None
  end.

(** What a call took and sent, by its answer.  An empty message and the end of
    the stream have the same answer in three of the reads. *)
Definition moved (q : ask) (r : outcome answer) (got : list (option OutboundWebSocketFrame)) (put : list Message) : Prop :=
  match r with
  | Err e =>
      put = [] /\ (got = [] \/ got = [None] /\ exists m, wrong_kind q = Some m /\ e = Fail (HostError m))
  | Ok a =>
      match q, a with
      | SendText text, _ => got = [] /\ put = [Text text]
      | SendBinaryBase64 payload, _ => got = [] /\ exists l, base64_decode payload = Ok l /\ put = [Binary l]
      | SendBinary payload, _ => got = [] /\ exists l, as_bytes payload = Some l /\ put = [Binary l]
      | WriteBytes l, _ => got = [] /\ put = [Binary l]
      | CloseWith code reason, _ => got = [] /\ put = [Close (Some (MkClose code reason))]
      | CloseStream, _ => got = [] /\ (put = [] \/ put = [Close (Some (MkClose 1000 "proxy-write-complete"))])
      | ReadText, AText t => put = [] /\ (got = [Some (FText t)] \/ t = "" /\ got = [])
      | ReadBinaryBase64, AText t => put = [] /\ ((exists l, t = base64_encode l /\ got = [Some (FBinary l)]) \/ t = "" /\ got = [])
      | ReadBinary, ABytes l => put = [] /\ (got = [Some (FBinary l)] \/ l = [] /\ got = [])
      | ReadBytes, AMaybe x => put = [] /\ got = match x with Some l => [Some (FBinary l)] | None => [] end
      | _, _ => got = [] /\ put = []
      end
  end.

(** What a call does to the streams: its connection may be opened, and then
    something moves through the stream that the connection holds. *)
Definition moves_through (c : Z) (w1 w' : world) (l : positive) (got : list (option OutboundWebSocketFrame)) (put : list Message) : Prop :=
  exists s s', holds c w1 = Some l /\ ios w1 !! l = Some s /\ passes s got put s' /\ ios w' = <[l := s']> (ios w1)
    /\ forall k, holds k w' = holds k w1.
Definition stays (c : Z) (q : ask) (w : world) (r : outcome answer) (w' : world) : Prop :=
  rested nobody w w' /\ moved q r [] [] \/ exists l got put, moves_through c w w' l got put /\ moved q r got put.
Definition effect (c : Z) (q : ask) (w : world) (r : outcome answer) (w' : world) : Prop :=
  exists w1, opens c w w1 /\ stays c q w1 r w'.

Lemma moved_err q e : moved q (Err e) [] [].
Proof. split; [done|by left]. Qed.
Hint Resolve moved_err : rests.
Lemma opens_refl c w : opens c w w.
Proof. left. split; [done|]. by left. Qed.
Lemma rested_lets_go c w w' : rested nobody w w' -> rested (lets_go c) w w'.
Proof. by apply rested_weaken. Qed.

Lemma effect_opens c q w r w' : opens c w w' -> moved q r [] [] -> effect c q w r w'.
Proof. intros Ho Hm. exists w'. split; [done|]. left. split; [split; [done|by left]|done]. Qed.
Lemma effect_rests c q (m : calling answer) w : rests (lets_go c) m -> moved q (m w).1 [] [] -> effect c q w (m w).1 (m w).2.
Proof. intros Hr. apply effect_opens. left. apply Hr. Qed.
Lemma effect_after c q {A} (m : calling A) (f : A -> calling answer) w : rests (lets_go c) m ->
  (forall a w, effect c q w (f a w).1 (f a w).2) -> effect c q w ((m ≫= f) w).1 ((m ≫= f) w).2.
Proof.
  intros Hm Hf. specialize (Hm w). unfold mbind, eff_bind. destruct (m w) as [[a|e] w1].
  - destruct (Hf a w1) as (w2 & Ho & H). exists w2. split; [by eapply rested_opens|done].
  - apply effect_opens; [by left|apply moved_err].
Qed.

(** The state that a handle gives is that of the stream it holds. *)
Definition known (c : Z) (w : world) : Prop := c = 0 \/ is_Some (upstream c w).
Lemma get_downstream_run (w : world) : exists w1, get_downstream_websocket w = (Ok (downstream_websocket w1), w1)
  /\ downstream_websocket_initialized w1 = true /\ rested nobody w w1.
Proof.
  exists (ensure_downstream_websocket_initialized w).2. split; [done|]. split; [apply initialized_after|apply rests_initialized].
Qed.
Lemma rested_nobody w w' k : rested nobody w w' -> holds k w' = holds k w.
Proof. intros [_ H]. by destruct (H k) as [|[]]. Qed.

Lemma exchange_state_run k (w : world) : k ≠ 0 ->
  let '(r, w') := connection_state (OutboundExchange k) w in
  match r with
  | Ok s => io s = holds k w' /\ is_Some (upstream k w')
  | Err e => e = Panic /\ upstream k w' = None
  end.
Proof.
  intros Hk. unfold connection_state, on_context, HttpExchange.lock_exchanges, zoom, mbind, eff_bind, modify, get_state. cbn.
  destruct (exchanges _ !! k) as [e|] eqn:He; cbn; unfold holds, upstream; cbn; rewrite HttpExchange.seed_exchanges_idemp, He; [|done].
  rewrite (proj2 (Z.eqb_neq k 0) Hk). by split.
Qed.
Lemma state_of_run c (w : world) : let '(r, w') := state_of c w in
  forall s, r = Ok s -> io s = holds c w' /\ known c w'.
Proof.
  unfold state_of, decode_connection. destruct (c =? DOWNSTREAM_CONNECTION_HANDLE) eqn:Hc.
  { apply Z.eqb_eq in Hc as ->. unfold mbind, eff_bind. cbn [mret eff_ret connection_state].
    destruct (get_downstream_run w) as (w1 & -> & Hi & _). intros s [= <-]. split; [|by left].
    unfold holds. cbn. by rewrite Hi. }
  apply Z.eqb_neq in Hc. assert (Hgo : forall k w, k = c -> let '(r, w') := connection_state (OutboundExchange k) w in
    forall s, r = Ok s -> io s = holds c w' /\ known c w').
  { intros k w0 ->. pose proof (exchange_state_run c w0 Hc) as H. destruct (connection_state _ w0) as [[s|e] w1]; [|done].
    intros s' [= <-]. destruct H. split; [done|by right]. }
  destruct (c =? DEFAULT_UPSTREAM) eqn:Hd.
  { apply Z.eqb_eq in Hd as ->. by apply (Hgo DEFAULT_UPSTREAM w). }
  unfold mbind, eff_bind. destruct (on_context _ w) as [[[]|e] w1]; cbn [mret eff_ret]; [by apply (Hgo c w1)|done..].
Qed.

Lemma websocket_io_run c (w : world) : let '(r, w') := websocket_io c w in
  rested nobody w w' /\ forall l, r = Ok l -> holds c w' = Some l /\ known c w'.
Proof.
  pose proof (rests_websocket_io nobody c w) as Hr. unfold websocket_io in *. unfold mbind, eff_bind in *.
  pose proof (state_of_run c w) as Hs. destruct (state_of c w) as [[s|e] w1]; [|done].
  destruct (Hs s eq_refl) as [Hio Hk]. destruct (io s) as [l|] eqn:E; split; try done.
  intros l' [= <-]. by rewrite <-Hio.
Qed.

(** A change of the connection's state that comes after. *)
Definition follows (c : Z) {A} (m : calling A) : Prop := forall w, known c w -> rested nobody w (m w).2 /\ exists a, (m w).1 = Ok a.

Lemma exchange_run c missing (f : exchange -> exchange) (w : world) : is_Some (upstream c w) -> (on_exchange c missing f w).1 = Ok tt.
Proof.
  intros [e He]. unfold on_exchange, on_context, zoom. rewrite HttpExchange.with_exchange_run. cbn. unfold upstream in He. by rewrite He.
Qed.
Lemma known_lock c (w : world) : upstream c (on_context HttpExchange.lock_exchanges w).2 = upstream c w.
Proof. exact (f_equal (fun g => exchanges g !! c) (HttpExchange.seed_exchanges_idemp (registry (context w)))). Qed.
Lemma if_exchange_run c (f : exchange -> exchange) (w : world) : (if_exchange c f w).1 = Ok tt.
Proof.
  unfold if_exchange, mbind, eff_bind. change (on_context HttpExchange.lock_exchanges w) with
    (Ok (E := fault) (seed_exchanges (registry (context w))), (on_context HttpExchange.lock_exchanges w).2).
  cbn beta iota. destruct (exchanges _ !! c) as [e|] eqn:He; [|done]. apply exchange_run. rewrite known_lock. unfold upstream. by rewrite He.
Qed.

Lemma on_connection_run c f (w : world) : known c w -> (on_connection c f w).1 = Ok tt.
Proof.
  intros Hk. unfold on_connection. destruct (c =? DOWNSTREAM_CONNECTION_HANDLE) eqn:Hc; [done|].
  destruct (c =? DEFAULT_UPSTREAM); [|apply if_exchange_run]. apply exchange_run.
  destruct Hk as [->|]; [done|done].
Qed.
Lemma follows_connection c f : (forall s, io (f s) = io s) -> follows c (on_connection c f).
Proof.
  intros Hf w Hk. split; [|eexists; by apply on_connection_run]. apply rests_on_connection. intros s. by left.
Qed.
Lemma refresh_run c (w : world) : (refresh_connection_close_state c w).1 = Ok tt.
Proof.
  unfold refresh_connection_close_state, mbind, eff_bind, get_state. cbn beta iota zeta.
  destruct (c =? DOWNSTREAM_CONNECTION_HANDLE); [done|apply if_exchange_run].
Qed.
Lemma follows_refresh c : follows c (refresh_connection_close_state c).
Proof. intros w _. split; [apply rests_refresh|eexists; apply refresh_run]. Qed.

Definition io_moves {A} (q : ask) (conv : A -> answer) (m : OutboundWebSocketIoState -> vm_result A * OutboundWebSocketIoState) : Prop :=
  forall s, let '(r, s') := m s in exists got put, passes s got put s' /\
    match r with Ok a => moved q (Ok (conv a)) got put | Err e => moved q (Err (Fail e)) got put end.

(** A call on the stream that [c] holds, and what follows. *)
Lemma stays_on_io {A A'} c q conv (m : OutboundWebSocketIoState -> vm_result A * OutboundWebSocketIoState) l
    (after : A -> calling A') (fin : A' -> answer) (w : world) :
  io_moves q conv m -> holds c w = Some l -> known c w ->
  (forall a, follows c (after a)) -> (forall a w b, (after a w).1 = Ok b -> fin b = conv a) ->
  let x := (fin <$> (on_io l m ≫= after)) w in stays c q w x.1 x.2.
Proof.
  intros Hm Hl Hk Ha Hfin. unfold fmap, eff_fmap, mbind, eff_bind, on_io. cbv zeta. destruct (ios w !! l) as [s|] eqn:Hs.
  2:{ left. split; [split; [done|by left]|apply moved_err]. }
  specialize (Hm s). destruct (m s) as [r s'] eqn:Em. destruct Hm as (got & put & Hp & Hmv).
  set (w1 := w <| ios := <[l:=s']> (ios w) |>). right. exists l, got, put.
  destruct r as [a|e]; cbn [HttpExchange.host_error].
  - destruct (Ha a w1 Hk) as [Hr [b Hb]]. specialize (Hfin a w1 b Hb). destruct (after a w1) as [r w2]. cbn in Hb, Hr. subst r. cbn.
    rewrite Hfin. split; [|done]. exists s, s'. split_and!; [done..|by destruct Hr|]. intros k. by rewrite (rested_nobody _ _ k Hr).
  - split; [|done]. by exists s, s'.
Qed.

Lemma stays_rested c q w1 w2 r w3 : rested nobody w1 w2 -> stays c q w2 r w3 -> stays c q w1 r w3.
Proof.
  intros Hr [[H Hm]|(l & got & put & (s & s' & Hl & Hs & Hp & Hi & Hh) & Hm)].
  - left. split; [by eapply rested_trans|done].
  - right. exists l, got, put. split; [|done]. exists s, s'. destruct Hr as [Ei Hr].
    split_and!; [by destruct (Hr c) as [<-|[]]|by rewrite <-Ei|done|by rewrite <-Ei|]. intros k. destruct (Hr k) as [<-|[]]. apply Hh.
Qed.

Lemma run_first {A0 A A' A''} (n : calling A0) (g : A0 -> calling A) (after : A -> calling A') (fin : A' -> A'') (w : world) :
  (fin <$> ((n ≫= g) ≫= after)) w =
  match n w with (Ok a, w) => (fin <$> (g a ≫= after)) w | (Err e, w) => (Err e, w) end.
Proof. unfold fmap, eff_fmap, mbind, eff_bind. by destruct (n w) as [[a|e] w1]. Qed.

Lemma stays_on_stream {A A'} c q conv (m : OutboundWebSocketIoState -> vm_result A * OutboundWebSocketIoState)
    (after : A -> calling A') (fin : A' -> answer) (w : world) :
  io_moves q conv m -> (forall a, follows c (after a)) -> (forall a w b, (after a w).1 = Ok b -> fin b = conv a) ->
  let x := (fin <$> ((websocket_io c ≫= fun l => on_io l m) ≫= after)) w in stays c q w x.1 x.2.
Proof.
  intros Hm Ha Hfin. pose proof (websocket_io_run c w) as Hw. rewrite run_first. destruct (websocket_io c w) as [[l|e] w1].
  - destruct Hw as [Hr Hw]. destruct (Hw l eq_refl) as [Hl Hk]. eapply stays_rested; [exact Hr|].
    exact (stays_on_io c q conv m l after fin w1 Hm Hl Hk Ha Hfin).
  - left. destruct Hw. split; [done|apply moved_err].
Qed.

Lemma effect_on_open {A A'} c q conv (m : OutboundWebSocketIoState -> vm_result A * OutboundWebSocketIoState)
    (after : A -> calling A') (fin : A' -> answer) (w : world) :
  io_moves q conv m -> (forall a, follows c (after a)) -> (forall a w b, (after a w).1 = Ok b -> fin b = conv a) ->
  let x := (fin <$> (on_open c m ≫= after)) w in effect c q w x.1 x.2.
Proof.
  intros Hm Ha Hfin. pose proof (opens_ensure c w) as Ho. unfold on_open. rewrite run_first. destruct (ensure_outbound_websocket_connection_open c w) as [[[]|e] w1].
  - exists w1. split; [done|]. exact (stays_on_stream c q conv m after fin w1 Hm Ha Hfin).
  - apply effect_opens; [exact Ho|apply moved_err].
Qed.

(** Reads, which refresh the state, and writes, which do not. *)
Lemma effect_reading {A} c q (fin : A -> answer) (m : OutboundWebSocketIoState -> vm_result A * OutboundWebSocketIoState) (w : world) :
  io_moves q fin m -> let x := (fin <$> on_open_reading c m) w in effect c q w x.1 x.2.
Proof.
  intros Hm. unfold on_open_reading. apply (effect_on_open c q fin); [done| |].
  - intros a w1 Hk. unfold mbind, eff_bind. destruct (follows_refresh c w1 Hk) as [H1 [b Hb]].
    destruct (refresh_connection_close_state c w1) as [r w2]. cbn in Hb. subst r. cbn in *. split; [done|by exists a].
  - intros a w1 b. unfold mbind, eff_bind. destruct (refresh_connection_close_state c w1) as [[[]|e] w2]; cbn; [by intros [= ->]|done].
Qed.
Lemma effect_writing {A} c q (fin : A -> answer) (m : OutboundWebSocketIoState -> vm_result A * OutboundWebSocketIoState) (w : world) :
  io_moves q fin m -> let x := (fin <$> on_open c m) w in effect c q w x.1 x.2.
Proof.
  intros Hm. pose proof (effect_on_open c q fin m mret fin w Hm) as H. cbv zeta in *.
  assert (E : (fin <$> (on_open c m ≫= mret)) w = (fin <$> on_open c m) w).
  { unfold fmap, eff_fmap, mbind, eff_bind, mret, eff_ret. by destruct (on_open c m w) as [[]]. }
  rewrite E in H. apply H; [|by intros a w1 b [= ->]]. intros a w1 _. split; [split; [done|by left]|by exists a].
Qed.

(** *** What the calls on a stream move *)

Lemma sends_text text : io_moves (SendText text) ACount (WebSocketState.send_text text).
Proof.
  intros s. unfold WebSocketState.send_text, WebSocketState.or_host_error. pose proof (send_passes (Text text) s) as H.
  destruct (WebSocketState.send _ s) as [[[]|e] s']; eexists _, _; (split; [exact H|]); [done|apply moved_err].
Qed.
Lemma sends_bytes q l : (forall n, moved q (Ok (ACount n)) [] [Binary l]) -> io_moves q ACount (WebSocketState.send_binary_bytes l).
Proof.
  intros Hq s. unfold WebSocketState.send_binary_bytes, WebSocketState.or_host_error. pose proof (send_passes (Binary l) s) as H.
  destruct (WebSocketState.send _ s) as [[[]|e] s']; eexists _, _; (split; [exact H|]); [apply Hq|apply moved_err].
Qed.
Lemma sends_base64 payload : io_moves (SendBinaryBase64 payload) ACount (send_binary_base64 payload).
Proof.
  intros s. unfold send_binary_base64. destruct (base64_decode payload) as [l|e] eqn:E.
  - pose proof (sends_bytes (SendBinaryBase64 payload) l) as H. apply H. intros n. split; [done|by exists l].
  - exists [], []. split; [by apply passes_nothing|apply moved_err].
Qed.

(** A reader gives [Ok] with what it was handed, or refuses it. *)
Lemma reads {A} q conv (m : OutboundWebSocketIoState -> vm_result A * OutboundWebSocketIoState)
    (take : OutboundWebSocketFrame -> option A) (none : A) message :
  wrong_kind q = Some message -> (forall f a, take f = Some a -> moved q (Ok (conv a)) [Some f] []) ->
  moved q (Ok (conv none)) [] [] ->
  (forall s, m s = match WebSocketState.read_next_frame s with
    | (Ok (Some f), s) => (match take f with Some a => Ok a | None => Err (HostError message) end, s)
    | (Ok None, s) => (Ok none, s)
    | (Err e, s) => (Err e, s)
    end) -> io_moves q conv m.
Proof.
  intros Hq Ht Hn Hm s. rewrite Hm. pose proof (read_loop_passes (incoming (stream s)) s eq_refl) as H.
  unfold WebSocketState.read_next_frame. destruct (WebSocketState.read_loop _ s) as [[[f|]|e] s'].
  - destruct (take f) as [a|] eqn:E.
    + exists [Some f], []. split; [apply H; by right|by apply Ht].
    + exists [None], []. split; [apply H; by left|]. split; [done|]. right. split; [done|by exists message].
  - by exists [], [].
  - exists [], []. split; [done|apply moved_err].
Qed.

Lemma reads_text : io_moves ReadText (fun x => AText (default "" x)) WebSocketState.read_text.
Proof.
  eapply (reads _ _ _ (fun f => match f with FText t => Some (Some t) | _ => None end) None); [done| | |].
  - intros [t|l] a [= <-]. split; [done|by left].
  - split; [done|by right].
  - intros s. unfold WebSocketState.read_text. by destruct (WebSocketState.read_next_frame s) as [[[[]|]|] ?].
Qed.
Lemma reads_base64 : io_moves ReadBinaryBase64 (fun x => AText (default "" x)) read_binary_base64.
Proof.
  eapply (reads _ _ _ (fun f => match f with FBinary l => Some (Some (base64_encode l)) | _ => None end) None); [done| | |].
  - intros [t|l] a [= <-]. split; [done|]. left. by exists l.
  - split; [done|by right].
  - intros s. unfold read_binary_base64. by destruct (WebSocketState.read_next_frame s) as [[[[]|]|] ?].
Qed.
Lemma reads_bytes q conv : wrong_kind q = wrong_kind ReadBytes -> (forall l, moved q (Ok (conv (Some l))) [Some (FBinary l)] []) ->
  moved q (Ok (conv None)) [] [] -> io_moves q conv WebSocketState.read_binary_bytes.
Proof.
  intros Hq Hs Hn. eapply (reads _ _ _ (fun f => match f with FBinary l => Some (Some l) | _ => None end) None); [exact Hq| |done|].
  - intros [t|l] a [= <-]. apply Hs.
  - intros s. unfold WebSocketState.read_binary_bytes. by destruct (WebSocketState.read_next_frame s) as [[[[]|]|] ?].
Qed.

Lemma fmap_twice {A A' A''} (f : A' -> A'') (g : A -> A') (m : calling A) (w : world) :
  (f <$> (g <$> m)) w = ((fun a => f (g a)) <$> m) w.
Proof. unfold fmap, eff_fmap. by destruct (m w) as [[a|e] w1]. Qed.

(** *** Closing *)

Lemma closes q c code reason : (forall a, moved q (Ok a) [] [Close (Some (MkClose code reason))]) ->
  io_moves q (fun _ => c) (fun s =>
    let '(r, s) := WebSocketState.close code reason s in
    ((fun _ => (WebSocketState.io_close_code s, WebSocketState.io_close_reason s)) <$> r, s)).
Proof.
  intros Hq s. unfold WebSocketState.close. pose proof (send_passes (Close (Some (MkClose code reason))) s) as H.
  destruct (WebSocketState.send _ s) as [[[]|e] s']; cbn.
  - eexists _, _. split; [|apply Hq]. exact H.
  - eexists _, _. split; [exact H|apply moved_err].
Qed.
Lemma stays_close c q l code reason (w : world) : (forall a, moved q (Ok a) [] [Close (Some (MkClose code reason))]) ->
  holds c w = Some l -> known c w ->
  let x := ((fun _ => ADone) <$> close_io c l code reason) w in stays c q w x.1 x.2.
Proof.
  intros Hq Hl Hk. unfold close_io. pose proof (closes q ADone code reason Hq) as Hm.
  refine (stays_on_io c q (fun _ => ADone) _ l (fun x => let '(cc, r) := x in on_connection c (WebSocketState.mark_closed cc r))
    (fun _ => ADone) w Hm Hl Hk _ _); [|done].
  intros [cc r]. by apply follows_connection.
Qed.
Lemma holds_known c l (w : world) : holds c w = Some l -> known c w.
Proof.
  unfold holds, known. destruct (c =? 0) eqn:Hc; [left; by apply Z.eqb_eq|]. destruct (upstream c w) as [e|]; [by right|done].
Qed.

Lemma fmap_bind {A A' A''} (m : calling A) (f : A -> calling A') (g : A' -> A'') (w : world) :
  (g <$> (m ≫= f)) w = (m ≫= (fun a => g <$> f a)) w.
Proof. unfold fmap, eff_fmap, mbind, eff_bind. by destruct (m w) as [[a|e] w1]. Qed.

Lemma effect_close c code reason (w : world) :
  let x := ((fun _ => ADone) <$> connection_close c code reason) w in effect c (CloseWith code reason) w x.1 x.2.
Proof.
  unfold connection_close. rewrite fmap_bind. unfold mbind, eff_bind. pose proof (opens_ensure c w) as Ho.
  destruct (ensure_outbound_websocket_connection_open c w) as [[[]|e] w1]; [|apply effect_opens; [exact Ho|apply moved_err]].
  destruct (_ || _); [apply effect_opens; [exact Ho|apply moved_err]|].
  exists w1. split; [done|]. unfold fmap, eff_fmap. pose proof (websocket_io_run c w1) as Hw.
  destruct (websocket_io c w1) as [[l|e] w2]; [|left; split; [apply Hw|apply moved_err]].
  destruct Hw as [Hr Hw]. destruct (Hw l eq_refl) as [Hl _]. eapply stays_rested; [exact Hr|].
  pose proof (rests_note_closing nobody c w2) as Hn. destruct (note_closing c w2) as [[[]|e] w3]; [|left; split; [exact Hn|apply moved_err]].
  cbn in Hn. pose proof (rested_nobody _ _ c Hn) as Hl3. rewrite Hl in Hl3. eapply stays_rested; [exact Hn|].
  apply (stays_close c (CloseWith code reason) l code reason w3); [by intros []|done|by eapply holds_known].
Qed.

Lemma effect_close_stream c (w : world) :
  let x := ((fun _ => ADone) <$> close_websocket_binary_stream c) w in effect c CloseStream w x.1 x.2.
Proof.
  unfold close_websocket_binary_stream. rewrite fmap_bind. apply effect_after.
  { unfold websocket_binary_eof. walk. }
  intros [|] w0; [apply effect_opens; [apply opens_refl|split; [done|by left]]|].
  rewrite fmap_bind. unfold mbind, eff_bind. pose proof (opens_ensure c w0) as Ho.
  destruct (ensure_outbound_websocket_connection_open c w0) as [[[]|e] w1]; [|apply effect_opens; [exact Ho|apply moved_err]].
  exists w1. split; [done|]. unfold fmap, eff_fmap.
  pose proof (rests_note_closing nobody c w1) as Hn. destruct (note_closing c w1) as [[[]|e] w2]; [|left; split; [exact Hn|apply moved_err]].
  eapply stays_rested; [exact Hn|]. pose proof (websocket_io_run c w2) as Hw.
  destruct (websocket_io c w2) as [[l|e] w3]; [|left; split; [apply Hw|apply moved_err]].
  destruct Hw as [Hr Hw]. destruct (Hw l eq_refl) as [Hl Hk]. eapply stays_rested; [exact Hr|].
  apply (stays_close c CloseStream l 1000 "proxy-write-complete" w3); [|done..]. intros []; (split; [done|by right]).
Qed.

Lemma effect_of {A} c q (m : calling A) (conv : A -> answer) (w : world) : rests (lets_go c) m ->
  (forall a, moved q (Ok (conv a)) [] []) -> effect c q w ((conv <$> m) w).1 ((conv <$> m) w).2.
Proof.
  intros Hr Hq. apply effect_rests; [by apply rests_fmap|]. unfold fmap, eff_fmap. destruct (m w) as [[a|e] w1]; [apply Hq|apply moved_err].
Qed.

Lemma serve_effect c q (w : world) : q ≠ NewConnection -> effect c q w (serve c q w).1 (serve c q w).2.
Proof.
  intros Hq.
  assert (Hopen : forall A (m : calling A) (conv : A -> answer), (forall w, opens c w (m w).2) -> (forall a, moved q (Ok (conv a)) [] []) ->
    effect c q w ((conv <$> m) w).1 ((conv <$> m) w).2).
  { intros A m conv Ho Hm. apply effect_opens; unfold fmap, eff_fmap; specialize (Ho w); destruct (m w) as [[a|e] w1]; [done|done|apply Hm|apply moved_err]. }
  destruct q; cbn [serve]; try done;
    try (apply effect_of; [|by intros []]; first [apply rests_is_present|apply rests_set_target|apply rests_set_scheme|apply rests_set_path
      |apply rests_set_query|apply rests_set_header|apply rests_set_subprotocols|apply rests_get_phase|apply rests_get_subprotocol|apply rests_eof_of]).
  - apply Hopen; [|done]. intros w0. unfold connection_connect, mbind, eff_bind. pose proof (opens_ensure c w0) as H.
    by destruct (ensure_outbound_websocket_connection_open c w0) as [[[]|e] w1].
  - by apply (effect_writing c (SendText text) ACount), sends_text.
  - unfold connection_read_text. rewrite fmap_twice. apply effect_reading, reads_text.
  - apply effect_writing, sends_base64.
  - unfold connection_send_binary. rewrite fmap_bind. unfold or_error, mbind, eff_bind, lift.
    destruct (Sockets.value_to_bytes payload) as [l|e] eqn:E; cbn [HttpExchange.host_error]; [|apply effect_opens; [apply opens_refl|apply moved_err]].
    apply effect_writing, sends_bytes. intros n. split; [done|]. exists l. split; [|done].
    unfold Sockets.value_to_bytes, ok_or in E. by destruct (as_bytes payload) as [l'|]; [injection E as ->|].
  - unfold connection_read_binary_base64. rewrite fmap_twice. apply effect_reading, reads_base64.
  - unfold connection_read_binary. rewrite fmap_twice. apply effect_reading, reads_bytes; [done| |by split; [|right]].
    intros l. split; [done|by left].
  - apply effect_close.
  - unfold write_websocket_binary_bytes. rewrite fmap_bind. apply effect_after; [apply rests_validate|]. intros _ w0.
    by apply effect_writing, sends_bytes.
  - unfold read_websocket_binary_bytes. rewrite fmap_bind. apply effect_after; [apply rests_validate|]. intros _ w0.
    by apply effect_reading, reads_bytes.
  - apply effect_of; [|by intros []]. unfold websocket_binary_eof. walk.
  - apply effect_close_stream.
Qed.

Lemma new_effect c (w : world) : exists d, rested (lets_go d) w (serve c NewConnection w).2.
Proof.
  set (g := seed_exchanges (registry (context w))). exists (HttpExchange.next_outbound_exchange_handle g).
  unfold serve, fmap, eff_fmap, connection_new, on_context, zoom, HttpExchange.allocate_outbound_exchange_handle,
    HttpExchange.lock_exchanges, mbind, eff_bind, modify, get_state. cbn. fold g.
  destruct (_ =? _); cbn.
  - split; [done|]. intros k. left. unfold holds, upstream. cbn. unfold g. by rewrite HttpExchange.seed_exchanges_idemp.
  - split; [done|]. intros k. unfold holds, upstream, lets_go. cbn. fold g.
    rewrite HttpExchange.seed_initialized by apply HttpExchange.seeded_initialized. cbn.
    destruct (decide (k = HttpExchange.next_outbound_exchange_handle g)) as [->|Hk]; [|rewrite lookup_insert_ne by done; by left].
    rewrite lookup_insert_eq. cbn. destruct (_ =? 0); [by left|by right].
Qed.

(** ** Every sequence of calls *)

Record entry := MkEntry {
  on_ : Z;
  asked : ask;
  answered : outcome answer;
  through : option positive;   (** the stream that something moved through *)
  got : list (option OutboundWebSocketFrame);
  put : list Message;
}.
Definition accounted (e : entry) : Prop :=
  moved e.(asked) e.(answered) e.(got) e.(put) /\ (e.(through) = None -> e.(got) = [] /\ e.(put) = []).

(** What moved through one stream. *)
Definition entries (l : positive) (account : list entry) : list entry := filter (fun e => e.(through) = Some l) account.
Definition all_got (l : positive) (account : list entry) : list (option OutboundWebSocketFrame) := entries l account ≫= got.
Definition all_put (l : positive) (account : list entry) : list Message := entries l account ≫= put.

(** The rest of the program and other tasks, who leave the websockets alone. *)
Definition elsewhere (w w' : world) : Prop := ios w' = ios w /\ forall k, holds k w' = holds k w.

Inductive runs (w0 : world) : list (Z * ask * outcome answer) -> world -> Prop :=
| runs_nil : runs w0 [] w0
| runs_call calls w c q : runs w0 calls w -> runs w0 (calls ++ [(c, q, (serve c q w).1)]) (serve c q w).2
| runs_elsewhere calls w w' : runs w0 calls w -> elsewhere w w' -> runs w0 calls w'.

Record books (account : list entry) (w : world) : Prop := {
  held_known c l : holds c w = Some l -> is_Some (ios w !! l);
  held_once c c' l : holds c w = Some l -> holds c' w = Some l -> c = c';
  entry_known e l : e ∈ account -> through e = Some l -> is_Some (ios w !! l) /\ forall c, holds c w = Some l -> c = on_ e;
  entry_once e e' l : e ∈ account -> e' ∈ account -> through e = Some l -> through e' = Some l -> on_ e = on_ e';
  balance l s : ios w !! l = Some s -> exists s0, came s0 /\ passes (new_client s0) (all_got l account) (all_put l account) s;
  all_accounted : Forall accounted account;
}.

Lemma books_rested account w w' c : rested (lets_go c) w w' -> books account w -> books account w'.
Proof.
  intros [Ei Hh] [K1 K2 K3 K4 K5 K6].
  assert (Hback : forall k l, holds k w' = Some l -> holds k w = Some l) by (intros k l Hk; destruct (Hh k) as [<-|[_ E]]; congruence).
  split; rewrite ?Ei; [eauto|eauto| |done|done|done].
  intros e l He Hl. destruct (K3 e l He Hl) as [H1 H2]. split; [done|]. eauto.
Qed.
Lemma entries_none l account : (forall e, e ∈ account -> through e ≠ Some l) -> entries l account = [].
Proof.
  induction account as [|e account IH]; intros H; [done|]. unfold entries. rewrite filter_cons_False by (apply H; by left).
  apply IH. intros e' He'. apply H. by right.
Qed.
Lemma books_joined account w w' c l : joins l w w' -> (forall k, holds k w' = holds k w \/ takes c l k (holds k w')) ->
  books account w -> books account w'.
Proof.
  intros (s & Hs & Hl & Ei) Hh [K1 K2 K3 K4 K5 K6].
  assert (Hne : forall c' l', holds c' w = Some l' -> l' ≠ l) by (intros c' l' H ->; destruct (K1 _ _ H); congruence).
  assert (Hback : forall k l', holds k w' = Some l' -> holds k w = Some l' \/ k = c /\ l' = l).
  { intros k l' Hk. destruct (Hh k) as [<-|[-> [E|E]]]; [by left|congruence|right; split; congruence]. }
  split; rewrite ?Ei.
  - intros k l' Hk. destruct (decide (l' = l)) as [->|]; [rewrite lookup_insert_eq; eauto|]. rewrite lookup_insert_ne by done.
    destruct (Hback k l' Hk) as [|[_ ?]]; [by eauto|done].
  - intros k k' l' H H'. destruct (Hback k l' H) as [H1|[E1 E2]], (Hback k' l' H') as [H2|[E3 E4]];
      [by eauto|exfalso; by apply (Hne _ _ H1)|exfalso; by apply (Hne _ _ H2)|congruence].
  - intros e l' He Hl'. destruct (K3 e l' He Hl') as [[x Hx] H2]. assert (l' ≠ l) by congruence. rewrite lookup_insert_ne by done.
    split; [eauto|]. intros k Hk. destruct (Hback k l' Hk) as [|[_ ?]]; [by eauto|done].
  - done.
  - intros l' s'. destruct (decide (l' = l)) as [->|]; [|rewrite lookup_insert_ne by done; apply K5].
    rewrite lookup_insert_eq. intros [= <-]. exists s. split; [done|]. unfold all_got, all_put.
    rewrite entries_none; [by apply passes_nothing|]. intros e He Hl'. destruct (K3 e l He Hl') as [[x Hx] _]. congruence.
  - done.
Qed.
Lemma books_opens account w w' c : opens c w w' -> books account w -> books account w'.
Proof. intros [H|(l & Hj & Hh)]; [by eapply books_rested|by eapply books_joined]. Qed.

Lemma entries_app l a1 a2 : entries l (a1 ++ a2) = entries l a1 ++ entries l a2.
Proof. apply filter_app. Qed.

(** A new entry through no stream, and one through the stream of its connection. *)
Lemma books_quiet account w c q r : moved q r [] [] -> books account w -> books (account ++ [MkEntry c q r None [] []]) w.
Proof.
  intros Hm [K1 K2 K3 K4 K5 K6].
  assert (Hin : forall e l, e ∈ account ++ [MkEntry c q r None [] []] -> through e = Some l -> e ∈ account).
  { intros e l [He|He]%elem_of_app Hl; [done|]. apply list_elem_of_singleton in He. by subst e. }
  assert (He : forall l, entries l (account ++ [MkEntry c q r None [] []]) = entries l account).
  { intros l. rewrite entries_app. unfold entries at 2. rewrite filter_cons_False by done. by rewrite filter_nil, app_nil_r. }
  split; [done|done|eauto|eauto 6| |].
  - intros l s Hs. unfold all_got, all_put. rewrite He. by apply K5.
  - apply Forall_app. split; [done|]. by repeat constructor.
Qed.
Lemma books_moved account w w' c q r l g p : moves_through c w w' l g p -> moved q r g p ->
  books account w -> books (account ++ [MkEntry c q r (Some l) g p]) w'.
Proof.
  intros (s & s' & Hl & Hs & Hp & Ei & Hh) Hm [K1 K2 K3 K4 K5 K6].
  assert (Hkeep : forall l', is_Some (ios w !! l') -> is_Some (ios w' !! l')).
  { intros l' H. rewrite Ei. destruct (decide (l' = l)) as [->|]; [by rewrite lookup_insert_eq|by rewrite lookup_insert_ne]. }
  assert (Hcon : forall e, e ∈ account -> through e = Some l -> c = on_ e) by (intros e He Ht; by apply (proj2 (K3 e l He Ht))).
  split.
  - intros k l'. rewrite Hh. intros H. eauto.
  - intros k k' l'. rewrite !Hh. eauto.
  - intros e l' [He|He]%elem_of_app Hl'.
    + destruct (K3 e l' He Hl') as [H1 H2]. split; [by apply Hkeep|]. intros k. rewrite Hh. apply H2.
    + apply list_elem_of_singleton in He as ->. cbn in *. injection Hl' as <-. split; [apply Hkeep; eauto|].
      intros k. rewrite Hh. intros H. by apply (K2 k c l).
  - assert (Hon : forall e l', e ∈ account ++ [MkEntry c q r (Some l) g p] -> through e = Some l' ->
      e ∈ account \/ l' = l /\ on_ e = c).
    { intros e l' [He|He]%elem_of_app; [by left|]. apply list_elem_of_singleton in He as ->. cbn. intros [= <-]. by right. }
    intros e e' l' He He' H H'. destruct (Hon e l' He H) as [H1|[E1 E2]], (Hon e' l' He' H') as [H2|[E3 E4]]; [by eauto|..|congruence]; subst l'; [rewrite E4; symmetry|rewrite E2]; by apply Hcon.
  - intros l' x. rewrite Ei. unfold all_got, all_put. rewrite entries_app, !bind_app. destruct (decide (l' = l)) as [->|Hne].
    + rewrite lookup_insert_eq. intros [= <-]. destruct (K5 l s Hs) as (s0 & H0 & Hp0). exists s0. split; [done|].
      unfold entries at 2 4. rewrite filter_cons_True by done. rewrite filter_nil. cbn. rewrite !app_nil_r. by eapply passes_trans.
    + rewrite lookup_insert_ne by done. intros Hx. destruct (K5 l' x Hx) as (s0 & H0 & Hp0). exists s0. split; [done|].
      unfold entries at 2 4. rewrite filter_cons_False by (cbn; congruence). rewrite filter_nil. cbn. by rewrite !app_nil_r.
  - apply Forall_app. split; [done|]. by repeat constructor.
Qed.

Definition report (e : entry) : Z * ask * outcome answer := (on_ e, asked e, answered e).

Lemma runs_books w0 calls w : ios w0 = ∅ -> (forall c, holds c w0 = None) -> runs w0 calls w ->
  exists account, report <$> account = calls /\ books account w.
Proof.
  intros Hi Hh. induction 1 as [|calls w c q _ (account & Ha & Hb)|calls w w' _ (account & Ha & Hb) Hel].
  - exists []. split; [done|]. split; rewrite ?Hi; try done; try (by intros ? ? ?%elem_of_nil); try (by intros ? ? ? ?%elem_of_nil).
    + intros k l. by rewrite Hh.
    + intros k k' l. by rewrite Hh.
  - assert (q = NewConnection \/ q ≠ NewConnection) as [->|Hq] by (destruct q; first [by left|by right]).
    + destruct (new_effect c w) as [d Hd]. exists (account ++ [MkEntry c NewConnection (serve c NewConnection w).1 None [] []]).
      split; [by rewrite fmap_app, Ha|]. apply books_quiet; [|by eapply books_rested].
      destruct (serve c NewConnection w) as [[a|e] w1]; [by destruct a|apply moved_err].
    + destruct (serve_effect c q w Hq) as (w1 & Ho & Hs). pose proof (books_opens _ _ _ _ Ho Hb) as Hb1.
      destruct Hs as [[Hr Hm]|(l & g & p & Hp & Hm)].
      * exists (account ++ [MkEntry c q (serve c q w).1 None [] []]). split; [by rewrite fmap_app, Ha|].
        apply books_quiet; [done|]. apply (books_rested account w1 _ c); [by apply rested_lets_go|done].
      * exists (account ++ [MkEntry c q (serve c q w).1 (Some l) g p]). split; [by rewrite fmap_app, Ha|]. by eapply books_moved.
  - exists account. split; [done|]. destruct Hel as [E1 E2]. apply (books_rested account w w' 0); [split; [done|by left]|done].
Qed.

(** C15. Messages keep their connection and their order: in every run of calls on
    any number of websocket connections, from a start without open streams and
    whatever else the program does in between, the calls can be accounted for so
    that each stream belongs to one connection, the data frames that arrived on it
    are those that were handed over or refused because of their kind, in order and
    each once, and then those still to come, and what was sent on it, besides
    answers to pings, is exactly what the calls that succeeded sent, in order. *)
Theorem websocket_messages_in_order w0 calls w :
  ios w0 = ∅ -> (forall c, holds c w0 = None) -> runs w0 calls w ->
  exists account, report <$> account = calls /\ Forall accounted account /\
    (forall e e' l, e ∈ account -> e' ∈ account -> through e = Some l -> through e' = Some l -> on_ e = on_ e') /\
    (forall c c' l, holds c w = Some l -> holds c' w = Some l -> c = c') /\
    forall l s, ios w !! l = Some s -> exists s0 taken, came s0 /\
      frames s0.(incoming) = taken ++ frames s.(stream).(incoming) /\ Forall2 handed (all_got l account) taken /\
      payloads s.(stream).(sent) = payloads s0.(sent) ++ all_put l account.
Proof.
  intros Hi Hh Hr. destruct (runs_books w0 calls w Hi Hh Hr) as (account & Ha & [K1 K2 K3 K4 K5 K6]).
  exists account. split_and!; [done..|]. intros l s Hs. destruct (K5 l s Hs) as (s0 & H0 & (taken & E & Hf) & Hp).
  by exists s0, taken.
Qed.

(** ** The request of a handshake *)

Section handshake.
Context `{HL : !HeaderMapLaws M} `{HML : !HeaderMapMutLaws M} `{HCL : !HttpCrateLaws}.

(** The values of a header of the handshake, of what tungstenite wrote. *)
Definition sent_header (authority : string) (program : M) (protocols : list string) (own : M) (k : string) : list (list Z) :=
  if bool_decide (k = "host") then [bytes_of_string authority]
  else if own_header k then hm_get_all own k
  else match last (hm_get_all program k) with
       | Some v => [v]
       | None => if bool_decide (k = "sec-websocket-protocol") && negb (bool_decide (protocols = [])) && bool_decide (hm_get_all own k = [])
                 then [bytes_of_string (String.concat ", " protocols)] else hm_get_all own k
       end.

Lemma request_headers_spec p (hs : M) k : hm_get_all (with_request_headers p hs) k =
  if own_header k then hm_get_all hs k
  else match last (hm_get_all p.(prepared_headers) k) with Some v => [v] | None => hm_get_all hs k end.
Proof.
  unfold with_request_headers. rewrite <-(iter_get_all (prepared_headers p) k). generalize (hm_iter (prepared_headers p)) as l.
  intros l. induction l as [|[n v] l IH] using rev_ind; [by destruct (own_header k)|].
  rewrite foldl_app, filter_app, fmap_app, filter_cons, filter_nil. cbn [foldl fst snd]. destruct (decide (n = k)) as [->|Hn].
  - destruct (own_header k); [exact IH|]. rewrite get_all_insert, bool_decide_true by done. cbn. by rewrite last_snoc.
  - cbn [fmap list_fmap]. rewrite app_nil_r. destruct (own_header n); [exact IH|]. by rewrite get_all_insert, bool_decide_false.
Qed.

Lemma handshake_spec p authority own hs0 hs : p.(host_header) = Some authority ->
  with_host p own = Ok hs0 -> with_subprotocols p (with_request_headers p hs0) = Ok hs ->
  forall k, hm_get_all hs k = sent_header authority p.(prepared_headers) p.(prepared_subprotocols) own k.
Proof.
  intros Hp H0 H1 k. unfold with_host in H0. rewrite Hp in H0.
  destruct (header_value_str authority) as [v|] eqn:Ha; [|done]. cbn in H0. injection H0 as <-.
  apply header_value_str_same in Ha as ->.
  assert (Hr : hm_get_all (with_request_headers p (hm_insert "host" (bytes_of_string authority) own)) k =
    if bool_decide (k = "host") then [bytes_of_string authority]
    else if own_header k then hm_get_all own k
    else match last (hm_get_all p.(prepared_headers) k) with Some v => [v] | None => hm_get_all own k end).
  { rewrite request_headers_spec, get_all_insert. destruct (decide (k = "host")) as [->|Hk]; [done|].
    by rewrite (bool_decide_false ("host" = k)), (bool_decide_false (k = "host")). }
  unfold with_subprotocols in H1. unfold sent_header. destruct (bool_decide (prepared_subprotocols p = [])) eqn:Hn.
  { cbn in H1. injection H1 as <-. by rewrite Hr, andb_false_r. }
  cbn [orb negb] in *. rewrite andb_true_r. set (m := with_request_headers p _) in *.
  assert (Hc : contains_key m "sec-websocket-protocol" = negb (bool_decide (hm_get_all m "sec-websocket-protocol" = []))) by done.
  destruct (decide (k = "sec-websocket-protocol")) as [->|Hk].
  - change (bool_decide ("sec-websocket-protocol" = "host")) with false in *. change (own_header "sec-websocket-protocol") with false in *.
    change (bool_decide ("sec-websocket-protocol" = "sec-websocket-protocol")) with true.
    cbn [andb] in *. rewrite Hr in Hc. rewrite Hc in H1. destruct (last _) as [v|].
    { injection H1 as <-. exact Hr. }
    destruct (bool_decide (hm_get_all own _ = [])); cbn in H1; [|by injection H1 as <-].
    destruct (header_value_str _) as [v|] eqn:Hv; [|done]. injection H1 as <-. apply header_value_str_same in Hv as ->.
    by rewrite get_all_insert.
  - rewrite (bool_decide_false (k = "sec-websocket-protocol")) by done. cbn [andb].
    assert (hm_get_all hs k = hm_get_all m k) as ->; [|exact Hr].
    destruct (contains_key m _); [by injection H1 as <-|].
    destruct (header_value_str _) as [v|]; [|done]. injection H1 as <-. by rewrite get_all_insert, bool_decide_false.
Qed.
End handshake.

(** ** Opening a connection to an upstream *)

(** The TLS flow of an exchange. *)
Definition flow (c : Z) (w : world) : TlsFlow.TlsFlowState :=
  if c =? DEFAULT_UPSTREAM then TlsFlow.default_upstream (HttpExchange.tls_dag (seed_transport w.(context).(transports)))
  else default TlsFlow.default_flow (HttpExchange.tls_flow ∘ transport <$> upstream c w).

(** What is known of an exchange in a state: its request, websocket and flow. *)
Record at_ (c : Z) (r : HttpOutboundRequestNode (M := M)) (ws : WebSocketConnectionState) (tls : TlsFlow.TlsFlowState)
    (started : bool) (w : world) : Prop := {
  at_upstream : exists e, upstream c w = Some e /\ request e = r /\ websocket_dag e = ws /\ HttpExchange.response_ready e = started;
  at_flow : flow c w = tls;
}.
(** The other exchanges are as they were; so are the streams and the count of calls. *)
Definition aside (c : Z) (w w' : world) : Prop :=
  ios w' = ios w /\ outside_calls w' = outside_calls w /\ forall k, k ≠ c -> upstream k w' = upstream k w.

Lemma aside_trans c w1 w2 w3 : aside c w1 w2 -> aside c w2 w3 -> aside c w1 w3.
Proof. intros (H1 & H2 & H3) (H4 & H5 & H6). split_and!; [congruence..|]. intros k Hk. by rewrite H6, H3. Qed.

Definition lands {A} (c : Z) (m : calling A) (w : world) (a : A) r ws tls started : Prop :=
  exists w', m w = (Ok a, w') /\ at_ c r ws tls started w' /\ aside c w w'.

Lemma lands_lock c (w : world) r ws tls started : at_ c r ws tls started w ->
  exists g, lands c (on_context HttpExchange.lock_exchanges) w g r ws tls started /\ g.(exchanges) !! c = upstream c w.
Proof.
  intros [(e & He & Hr) Hf]. exists (seed_exchanges (registry (context w))). split; [|done].
  eexists. split; [done|]. pose proof (fun k => known_lock k w) as Hk. split; [split|].
  - exists e. split; [|done]. rewrite <-He. exact (Hk c).
  - rewrite <-Hf. unfold flow. destruct (c =? DEFAULT_UPSTREAM); [done|]. by rewrite <-(Hk c).
  - split_and!; [done..|]. intros k _. exact (Hk k).
Qed.
Lemma lands_with {A} c missing (m : eff fault exchange A) a (w : world) r ws tls started e e' :
  upstream c w = Some e -> m e = (Ok a, e') -> ((c =? DEFAULT_UPSTREAM) = true -> flow c w = tls) ->
  ((c =? DEFAULT_UPSTREAM) = false -> HttpExchange.tls_flow (transport e') = tls) ->
  request e' = r -> websocket_dag e' = ws -> HttpExchange.response_ready e' = started ->
  lands c (on_context (HttpExchange.with_exchange c missing m)) w a r ws tls started.
Proof.
  intros He Hm Hd Ht Hr Hw Hs. unfold lands, on_context, zoom. rewrite HttpExchange.with_exchange_run. cbn.
  unfold upstream in He. rewrite He, Hm. cbn. eexists. split; [done|].
  assert (Hup : forall k, upstream k (w <| context := context w <| registry :=
      (seed_exchanges (registry (context w)) <| exchanges := <[c:=e']> (exchanges (seed_exchanges (registry (context w)))) |>) |> |>)
     = <[c:=e']> (exchanges (seed_exchanges (registry (context w)))) !! k) by (intros k; unfold upstream; cbn; by rewrite seeded_insert).
  split; [split|].
  - exists e'. split; [|done]. by rewrite Hup, lookup_insert_eq.
  - unfold flow in *. destruct (c =? DEFAULT_UPSTREAM); [by apply Hd|]. rewrite Hup, lookup_insert_eq. by apply Ht.
  - split_and!; [done..|]. intros k Hk. rewrite Hup. by rewrite lookup_insert_ne.
Qed.
Lemma lands_exchange c missing f (w : world) r ws tls started e :
  upstream c w = Some e -> ((c =? DEFAULT_UPSTREAM) = true -> flow c w = tls) ->
  ((c =? DEFAULT_UPSTREAM) = false -> HttpExchange.tls_flow (transport (f e)) = tls) ->
  request (f e) = r -> websocket_dag (f e) = ws -> HttpExchange.response_ready (f e) = started ->
  lands c (on_exchange c missing f) w tt r ws tls started.
Proof. intros He. by eapply lands_with. Qed.
Lemma lands_transport c f (w : world) r ws tls started : at_ c r ws tls started w ->
  HttpExchange.transport_initialized (f (seed_transport (transports (context w)))) = true ->
  lands c (on_context (HttpExchange.set_transport f)) w tt r ws
    (if c =? DEFAULT_UPSTREAM then TlsFlow.default_upstream (HttpExchange.tls_dag (f (seed_transport (transports (context w))))) else tls) started.
Proof.
  intros [He Hf] Hi. eexists. split; [done|]. split; [split|].
  - exact He.
  - unfold flow in *. cbn. destruct (c =? DEFAULT_UPSTREAM); [|done]. unfold seed_transport at 1. by rewrite Hi.
  - by split_and!.
Qed.
Lemma seed_transport_initialized t : HttpExchange.transport_initialized (seed_transport t) = true.
Proof. unfold seed_transport. by destruct (HttpExchange.transport_initialized t) eqn:?. Qed.

(** A computation that only locks. *)
Lemma lands_calm {A} c (m : calling A) (w : world) a w' r ws tls started : at_ c r ws tls started w -> m w = (Ok a, w') ->
  aside c w w' -> upstream c w' = upstream c w -> seed_transport (transports (context w')) = seed_transport (transports (context w)) ->
  lands c m w a r ws tls started.
Proof.
  intros [He Hf] E Ha Hu Ht. exists w'. split; [done|]. split; [split; [by rewrite Hu|]|done].
  rewrite <-Hf. unfold flow. by rewrite Hu, Ht.
Qed.
Lemma lands_exists c k (w : world) r ws tls started : at_ c r ws tls started w ->
  lands c (on_context (HttpExchange.outbound_exchange_exists k)) w (bool_decide (is_Some (upstream k w))) r ws tls started.
Proof.
  intros H. eapply lands_calm; [done|reflexivity|..]; [|exact (known_lock c w)|done].
  split_and!; [done..|]. intros j _. exact (known_lock j w).
Qed.
Lemma lands_lock_transport c (w : world) r ws tls started : at_ c r ws tls started w ->
  lands c (on_context HttpExchange.lock_transport) w (seed_transport (transports (context w))) r ws tls started.
Proof.
  intros H. eapply lands_calm; [done|reflexivity|..]; [by split_and!|done|apply HttpExchange.seed_transport_idemp].
Qed.

(** Two computations, one after the other. *)
Lemma lands_then {A A'} c (m : calling A) (f : A -> calling A') w a b r ws tls started r' ws' tls' started' :
  lands c m w a r ws tls started -> (forall w, at_ c r ws tls started w -> lands c (f a) w b r' ws' tls' started') ->
  lands c (m ≫= f) w b r' ws' tls' started'.
Proof.
  intros (w1 & E & Ha & Hs) Hf. destruct (Hf w1 Ha) as (w2 & E2 & Ha2 & Hs2). exists w2.
  split; [|split; [done|by eapply aside_trans]]. unfold mbind, eff_bind. by rewrite E.
Qed.

Lemma lands_websocket c g (w : world) r ws tls started : at_ c r ws tls started w ->
  lands c (with_outbound_connection_mut c (fun p => p <| p_websocket := g p.(p_websocket) |>)) w tt r (g ws) tls started.
Proof.
  intros H. unfold with_outbound_connection_mut. destruct (c =? DEFAULT_UPSTREAM) eqn:Hc.
  - eapply lands_then; [by apply lands_exists|]. pose proof H as [(e & He & _) _]. rewrite He, bool_decide_true by done. cbn [negb].
    clear e He w H. intros w H. eapply lands_then; [by apply lands_lock_transport|].
    set (t := seed_transport (transports (context w))). assert (Ht : TlsFlow.default_upstream (HttpExchange.tls_dag t) = tls).
    { rewrite <-(at_flow _ _ _ _ _ _ H). unfold flow. by rewrite Hc. }
    clearbody t. clear w H. intros w H. pose proof H as [(e & He & Er & Ew & Es) Hf].
    eapply lands_then; [eapply lands_with; [exact He|reflexivity|by intros _|congruence|exact Er|exact (f_equal g Ew)|exact Es]|].
    intros w' H'. pose proof (lands_transport c (fun t' => HttpExchange.on_default_tls (fun _ => TlsFlow.default_upstream (HttpExchange.tls_dag t))
      (HttpExchange.on_default_tcp (fun _ => TcpFlow.default_upstream (HttpExchange.tcp_dag t)) t')) w' _ _ _ _ H') as Hl.
    rewrite Hc in Hl. cbn in Hl. rewrite Ht in Hl. cbn. rewrite Ht. apply Hl. apply seed_transport_initialized.
  - pose proof H as [(e & He & Er & Ew & Es) Hf]. eapply lands_exchange; [exact He|congruence| |exact Er|exact (f_equal g Ew)|exact Es].
    intros _. rewrite <-Hf. unfold flow. by rewrite Hc, He.
Qed.

Lemma lands_started c (w : world) r ws tls started : c ≠ 0 -> at_ c r ws tls started w ->
  lands c (note_websocket_handshake_started c) w tt r (WebSocketState.note_handshake_started ws) tls started.
Proof.
  intros Hc H. unfold note_websocket_handshake_started. replace (c =? DOWNSTREAM_CONNECTION_HANDLE) with false by (symmetry; by apply Z.eqb_neq).
  by apply lands_websocket.
Qed.
Lemma prepared_run c (w : world) r ws tls started : at_ c r ws tls started w ->
  exists w', prepared_outbound_websocket c w = (HttpExchange.host_error (prepared_of r tls ws), w') /\ at_ c r ws tls started w' /\ aside c w w'.
Proof.
  intros H. destruct (lands_lock c w _ _ _ _ H) as (g & Hl & Hg). unfold prepared_outbound_websocket.
  destruct Hl as (w1 & E1 & H1 & Hs1). unfold mbind at 1, eff_bind at 1. rewrite E1.
  pose proof H as [(e & He & Er & Ew & _) _]. rewrite Hg, He. destruct (c =? DEFAULT_UPSTREAM) eqn:Hc.
  - pose proof (lands_lock_transport c w1 _ _ _ _ H1) as (w2 & E2 & H2 & Hs2). unfold mbind, eff_bind. rewrite E2. cbn [mret eff_ret].
    exists w2. split; [|split; [done|by eapply aside_trans]]. unfold or_error, lift. rewrite <-(at_flow _ _ _ _ _ _ H1), Er, Ew.
    unfold flow. by rewrite Hc.
  - exists w1. split; [|done]. unfold mbind, eff_bind, or_error, lift. cbn [mret eff_ret].
    rewrite <-(at_flow _ _ _ _ _ _ H), Er, Ew. unfold flow. by rewrite Hc, He.
Qed.
Lemma lands_failing {A} c message e (w : world) r ws tls started : c ≠ 0 -> at_ c r ws tls started w ->
  exists w', failing (A := A) c message e w = (Err e, w') /\ at_ c r (WebSocketState.mark_failed message ws) (handshake_failed tls) started w' /\ aside c w w'.
Proof.
  intros Hc H. assert (Hs : lands c (store_failed_websocket c message) w tt r (WebSocketState.mark_failed message ws) (handshake_failed tls) started).
  { unfold store_failed_websocket. replace (c =? DOWNSTREAM_CONNECTION_HANDLE) with false by (symmetry; by apply Z.eqb_neq).
    destruct (c =? DEFAULT_UPSTREAM) eqn:Hd.
    - apply Z.eqb_eq in Hd as ->. eapply lands_then.
      + by apply lands_transport, seed_transport_initialized.
      + intros w1 H1. pose proof H1 as [(e1 & He & Er & Ew & Es) Hf]. eapply lands_exchange; [exact He| |done|exact Er|by rewrite <-Ew|exact Es].
        intros _. rewrite Hf. cbn. by rewrite <-(at_flow _ _ _ _ _ _ H).
    - pose proof H as [(e1 & He & Er & Ew & Es) Hf]. eapply lands_exchange; [exact He|congruence| |exact Er|by rewrite <-Ew|exact Es].
      intros _. cbn. rewrite <-Hf. unfold flow. by rewrite Hd, He. }
  destruct Hs as (w' & E & H'). exists w'. split; [|done]. unfold failing. by rewrite E.
Qed.
Lemma lands_connected c l protocol (w : world) r ws tls started : c ≠ 0 -> at_ c r ws tls started w ->
  lands c (store_connected_websocket c l protocol) w tt r (WebSocketState.mark_open l protocol ws) (handshaken tls) started.
Proof.
  intros Hc H. unfold store_connected_websocket. replace (c =? DOWNSTREAM_CONNECTION_HANDLE) with false by (symmetry; by apply Z.eqb_neq).
  destruct (c =? DEFAULT_UPSTREAM) eqn:Hd.
  - apply Z.eqb_eq in Hd as ->. eapply lands_then; [by apply lands_transport, seed_transport_initialized|].
    intros w1 H1. pose proof H1 as [(e1 & He & Er & Ew & Es) Hf]. eapply lands_exchange; [exact He| |done|exact Er|by rewrite <-Ew|exact Es].
    intros _. rewrite Hf. cbn. by rewrite <-(at_flow _ _ _ _ _ _ H).
  - pose proof H as [(e1 & He & Er & Ew & Es) Hf]. eapply lands_exchange; [exact He|congruence| |exact Er|by rewrite <-Ew|exact Es].
    intros _. cbn. rewrite <-Hf. unfold flow. by rewrite Hd, He.
Qed.

(** The headers of the whole handshake. *)
Definition handshake_of (p : PreparedOutboundWebSocket) (own : M) : vm_result M :=
  hs ← with_host p own; with_subprotocols p (with_request_headers p hs).

(** Where an attempt to connect ends: the connection was refused before anything
    was noted, failed, was left in its handshake, or is open. *)
Inductive attempt (w : world) (r : HttpOutboundRequestNode (M := M)) (ws : WebSocketConnectionState) (tls : TlsFlow.TlsFlowState)
    (c : Z) : outcome unit -> world -> Prop :=
| refused e w' : prepared_of r tls ws = Err e -> at_ c r ws tls false w' -> aside c w w' -> attempt w r ws tls c (Err (Fail e)) w'
| customised p m w' : prepared_of r tls ws = Ok p -> p.(tls_present) && p.(tls_requires_custom_client) = true ->
    at_ c r (WebSocketState.mark_failed m ws) (handshake_failed tls) false w' -> aside c w w' ->
    attempt w r ws tls c (Err (Fail (HostError m))) w'
| failed m w' : at_ c r (WebSocketState.mark_failed m (WebSocketState.note_handshake_started ws)) (handshake_failed tls) false w' ->
    ios w' = ios w -> (forall k, k ≠ c -> upstream k w' = upstream k w) -> attempt w r ws tls c (Err (Fail (HostError m))) w'
| left_started p own e w' : prepared_of r tls ws = Ok p -> into_client_request (outside_calls w) p.(url) = Ok own -> handshake_of p own = Err e ->
    at_ c r (WebSocketState.note_handshake_started ws) tls false w' ->
    ios w' = ios w -> (forall k, k ≠ c -> upstream k w' = upstream k w) -> attempt w r ws tls c (Err (Fail e)) w'
| opened p own hs stream response l w' : prepared_of r tls ws = Ok p -> p.(tls_present) && p.(tls_requires_custom_client) = false ->
    into_client_request (outside_calls w) p.(url) = Ok own -> handshake_of p own = Ok hs ->
    connect_async (S (outside_calls w)) p.(url) hs = Ok (stream, response) ->
    ios w !! l = None -> ios w' = <[l := new_client stream]> (ios w) ->
    at_ c r (WebSocketState.mark_open l (get response "sec-websocket-protocol" ≫= to_str) (WebSocketState.note_handshake_started ws))
      (handshaken tls) false w' ->
    (forall k, k ≠ c -> upstream k w' = upstream k w) -> attempt w r ws tls c (Ok tt) w'.

Lemma calling_run {A A'} (m : calling A) (f : A -> calling A') (w : world) :
  (m ≫= f) w = match m w with (Ok a, w) => f a w | (Err e, w) => (Err e, w) end.
Proof. done. Qed.
Lemma connect_attempt c (w : world) r ws tls : c ≠ 0 -> at_ c r ws tls false w ->
  let '(x, w') := connect_outbound c w in attempt w r ws tls c x w'.
Proof.
  intros Hc H. destruct (prepared_run c w _ _ _ _ H) as (w1 & E1 & H1 & A1). unfold connect_outbound.
  rewrite calling_run, E1. destruct (prepared_of r tls ws) as [p|e] eqn:Ep; cbn [HttpExchange.host_error]; [|by eapply refused].
  destruct (tls_present p && tls_requires_custom_client p) eqn:Ecu.
  { destruct (lands_failing (A := unit) c (custom_settings c) (Fail (HostError (custom_settings c))) w1 _ _ _ _ Hc H1) as (w2 & -> & H2 & A2).
    eapply customised; [done..|by eapply aside_trans]. }
  destruct (lands_started c w1 _ _ _ _ Hc H1) as (w2 & E2 & H2 & A2). rewrite calling_run, E2.
  pose proof (aside_trans _ _ _ _ A1 A2) as (I2 & O2 & U2). clear A1 A2 E1 E2 H H1 w1.
  assert (Hat : forall w3, context w3 = context w2 -> at_ c r (WebSocketState.note_handshake_started ws) tls false w3 /\
    forall k, k ≠ c -> upstream k w3 = upstream k w).
  { intros w3 C3. split; [|intros k Hk; rewrite <-U2 by done; unfold upstream; by rewrite C3].
    destruct H2 as [Hu Hf]. split; [unfold upstream in *; by rewrite C3|]. unfold flow, upstream in *. by rewrite C3. }
  assert (Hfail : forall m w3, ios w3 = ios w2 -> context w3 = context w2 ->
    let '(x, w') := failing (A := unit) c m (Fail (HostError m)) w3 in attempt w r ws tls c x w').
  { intros m w3 I3 C3. destruct (Hat w3 C3) as [H3 U3].
    destruct (lands_failing (A := unit) c m (Fail (HostError m)) w3 _ _ _ _ Hc H3) as (w4 & -> & H4 & (I4 & _ & U4)).
    apply failed; [done|by cbn; congruence|]. intros k Hk. by rewrite U4, U3. }
  rewrite calling_run. unfold outside at 1. rewrite O2. set (w3 := w2 <| outside_calls := S (outside_calls w) |>).
  destruct (Hat w3 eq_refl) as [H3 U3].
  destruct (into_client_request (outside_calls w) (url p)) as [own|err] eqn:Eo; [|by apply Hfail].
  rewrite calling_run. unfold or_error at 1, lift at 1.
  destruct (with_host p own) as [hs0|e] eqn:Eh; cbn [HttpExchange.host_error].
  2:{ eapply left_started; [done|done|by unfold handshake_of; rewrite Eh|exact H3|done|exact U3]. }
  rewrite calling_run. unfold or_error at 1, lift at 1.
  destruct (with_subprotocols p (with_request_headers p hs0)) as [hs|e] eqn:Es; cbn [HttpExchange.host_error].
  2:{ eapply left_started; [done|done|by unfold handshake_of; rewrite Eh; cbn; rewrite Es|exact H3|done|exact U3]. }
  rewrite calling_run. unfold outside at 1.
  assert (Hhs : handshake_of p own = Ok hs) by (unfold handshake_of; rewrite Eh; exact Es).
  change (outside_calls w3) with (S (outside_calls w)).
  destruct (connect_async (S (outside_calls w)) (url p) hs) as [[stream response]|err] eqn:Econ; [|by apply Hfail].
  rewrite calling_run. set (w5 := w3 <| outside_calls := _ |>).
  destruct (Hat w5 eq_refl) as [H5 U5].
  destruct (new_io_run stream w5) as (l & En & (s' & _ & Hl & Hi)); [left; by eexists _, _, _, _|]. rewrite En in *.
  set (w6 := w5 <| ios := _ |>). destruct (lands_connected c l (get response "sec-websocket-protocol" ≫= to_str) w6 r
    (WebSocketState.note_handshake_started ws) tls false Hc) as (w7 & E7 & H7 & (I7 & O7 & U7)).
  { destruct (Hat w6 eq_refl) as [H6 _]. exact H6. }
  rewrite E7. eapply opened; [done..| | |exact H7|].
  - rewrite <-I2. exact Hl.
  - rewrite I7, <-I2. done.
  - intros k Hk. rewrite U7 by done. apply (Hat w6 eq_refl). done.
Qed.

Lemma attempt_from c (w w1 : world) r ws tls x w' : aside c w w1 -> attempt w1 r ws tls c x w' -> attempt w r ws tls c x w'.
Proof.
  intros A H. pose proof A as (I & O & U). destruct H.
  - eapply refused; [done..|by eapply aside_trans].
  - eapply customised; [done..|by eapply aside_trans].
  - eapply failed; [done|congruence|]. intros k Hk. rewrite <-U; auto.
  - eapply left_started; [done|by rewrite <-O|done|done|congruence|]. intros k Hk. rewrite <-U; auto.
  - eapply opened; [done|done|by rewrite <-O|done|by rewrite <-O|by rewrite <-I|by rewrite <-I|done|]. intros k Hk. rewrite <-U; auto.
Qed.
Lemma attempt_after {A} c (m : calling A) (f : A -> calling unit) (w : world) a r ws tls :
  lands c m w a r ws tls false -> (forall w1, at_ c r ws tls false w1 -> let '(x, w') := f a w1 in attempt w1 r ws tls c x w') ->
  let '(x, w') := (m ≫= f) w in attempt w r ws tls c x w'.
Proof.
  intros (w1 & E & H1 & A1) Hf. rewrite calling_run, E. specialize (Hf w1 H1). destruct (f a w1) as [x w']. by eapply attempt_from.
Qed.

Lemma lands_state c k (w : world) r ws tls started : at_ c r ws tls started w -> k = DefaultUpstream /\ c = DEFAULT_UPSTREAM \/ k = OutboundExchange c ->
  lands c (connection_state k) w ws r ws tls started.
Proof.
  intros H Hk. destruct (lands_lock c w _ _ _ _ H) as (g & (w1 & E & H1 & A1) & Hg). exists w1. split; [|done].
  pose proof H as [(e & He & _ & <- & _) _]. rewrite He in Hg.
  destruct Hk as [[-> ->]| ->]; unfold connection_state; rewrite calling_run, E, Hg; done.
Qed.

Lemma ensure_attempt c (w : world) r ws tls : c ≠ 0 -> at_ c r ws tls false w -> WebSocketState.is_open ws = false ->
  let '(x, w') := ensure_outbound_websocket_connection_open c w in attempt w r ws tls c x w'.
Proof.
  intros Hc H Ho. unfold ensure_outbound_websocket_connection_open. replace (c =? DOWNSTREAM_CONNECTION_HANDLE) with false by (symmetry; by apply Z.eqb_neq).
  eapply attempt_after with (a := false).
  { destruct (lands_lock c w _ _ _ _ H) as (g & (w1 & E & H1 & A1) & Hg). exists w1. split; [|done].
    pose proof H as [(e & He & _ & _ & Hs) _]. unfold outbound_exchange_response_available. rewrite calling_run, E, Hg, He. cbn.
    unfold mret, eff_ret. by rewrite Hs. }
  clear w H. intros w H. assert (Hgo : forall k w, at_ c r ws tls false w -> k = DefaultUpstream /\ c = DEFAULT_UPSTREAM \/ k = OutboundExchange c ->
    let '(x, w') := (state ← connection_state k; if WebSocketState.is_open state then mret tt else connect_outbound c) w in attempt w r ws tls c x w').
  { intros k w0 H0 Hk. eapply attempt_after; [by apply lands_state|]. intros w1 H1. rewrite Ho. by apply connect_attempt. }
  unfold decode_connection. replace (c =? DOWNSTREAM_CONNECTION_HANDLE) with false by (symmetry; by apply Z.eqb_neq).
  destruct (c =? DEFAULT_UPSTREAM) eqn:Hd.
  - apply Z.eqb_eq in Hd. apply (Hgo DefaultUpstream w H). by left.
  - apply (attempt_after c _ _ w (OutboundExchange c)); [|intros w1 H1; apply (Hgo (OutboundExchange c) w1 H1); by right].
    destruct (lands_exists c c w _ _ _ _ H) as (w1 & E & H1 & A1). exists w1. split; [|done]. rewrite calling_run, E.
    pose proof H as [(e & He & _) _]. by rewrite He, bool_decide_true.
Qed.

Section opening.
Context `{HL : !HeaderMapLaws M} `{HML : !HeaderMapMutLaws M} `{HCL : !HttpCrateLaws}.

(** C16. Opening a websocket to an upstream ends in one of five ways, each leaving
    other exchanges and all open streams alone: refused without a target, refused
    for TLS settings that could not be applied, failed with the error noted, left
    in its handshake by a header that cannot be written, or open on a new stream
    that is the answer to one request, at the URL of the target, scheme, path and
    query that were set, with the protocol of its response.  That request has the
    target as its host, tungstenite's own values for the headers of the handshake
    and of the connection, the program's last value for every other header, and the
    protocols asked for unless the program wrote that header itself. *)
Theorem upstream_websocket_opened c (w : world) e :
  c ≠ 0 -> upstream c w = Some e -> HttpExchange.response_ready e = false -> WebSocketState.is_open (websocket_dag e) = false ->
  (let '(x, w') := ensure_outbound_websocket_connection_open c w in attempt w (request e) (websocket_dag e) (flow c w) c x w') /\
  forall p own hs, prepared_of (request e) (flow c w) (websocket_dag e) = Ok p -> handshake_of p own = Ok hs ->
    exists host port, WebSocketState.target_host (websocket_dag e) = Some host /\ WebSocketState.target_port (websocket_dag e) = Some port /\
    build_websocket_url (WebSocketState.target_scheme (websocket_dag e)) host port (request e).(path) (request e).(query)
      = Ok (p.(url), Some (websocket_host_header host port)) /\
    forall k, hm_get_all hs k = sent_header (websocket_host_header host port) (headers (request e))
      (WebSocketState.requested_subprotocols (websocket_dag e)) own k.
Proof.
  intros Hc He Hr Ho. split.
  { apply ensure_attempt; [done| |done]. split; [by exists e|done]. }
  intros p own hs Hp Hh. unfold prepared_of, ok_or in Hp.
  destruct (WebSocketState.target_host (websocket_dag e)) as [host|] eqn:E1; [|done].
  destruct (WebSocketState.target_port (websocket_dag e)) as [port|] eqn:E2; [|done]. cbn in Hp.
  destruct (build_websocket_url _ host port _ _) as [[u hh]|] eqn:Eb; [|done]. cbn in Hp. injection Hp as <-.
  assert (hh = Some (websocket_host_header host port)) as ->.
  { unfold build_websocket_url in Eb. apply bind_Ok in Eb as (? & _ & Eb). by apply bind_Ok in Eb as (? & _ & [= _ <-]). }
  exists host, port. split_and!; [done..|]. intros k. unfold handshake_of in Hh. apply bind_Ok in Hh as (hs0 & H0 & H1).
  pose proof (fun Hp => handshake_spec _ (websocket_host_header host port) own hs0 hs Hp H0 H1 k) as Hk. by rewrite Hk.
Qed.
End opening.
End calls.

(** ** Examples *)

#[local] Instance every_authority : AuthorityCrate := {|
  HttpExchange.Authority := string; HttpExchange.parse_authority := Some; HttpExchange.authority_str := id;
  HttpExchange.authority_host := fun s => s; HttpExchange.port_u16 := fun _ => None;
|}.
#[local] Instance only_bytes : Values := {| Value := list Z; as_bytes := Some |}.
#[local] Instance messages_only : ErrorText := fun e => match e with HostError m => m | TypeMismatch m => m end.
#[local] Instance as_it_is : Base64 := {| base64_encode := string_of_bytes; base64_decode := fun s => Ok (bytes_of_string s) |}.

(** A peer that greets, sends bytes, and closes; a client that does not start
    with a request is refused. *)
Abbreviation hmap := (list (string * list Z)).
#[local] Instance greeting : WebSocketCrate hmap := {|
  into_client_request := fun i url => Ok [("host", bytes_of_string url); ("sec-websocket-key", [Z.of_nat i])];
  connect_async := fun _ url hs => Ok (WebSocketState.MkStream
    [Ok (WebSocketState.Ping [1]); Ok (Text "hi"); Ok (Binary [7]); Ok (Close (Some (MkClose 1000 "bye")))] [] [], []);
  Accepting := unit;
  read_upgrade := fun _ io => if bool_decide (head (Replay.prefix io) = Some 71) then Ok ([], [], tt) else Err "not a request";
  write_upgrade := fun _ _ _ => Ok (WebSocketState.MkStream [] [] []);
|}.

Definition start (peeked : list Z) : World (M := hmap) (B := unit) :=
  MkWorld (HttpExchange.initial HttpExchange.get_head HttpExchange.no_transports false) WebSocketState.default_state false
    (Some (Some (Sockets.MkStream [] [] [] []))) None peeked false ∅ 0.

Fixpoint all_served (cs : list (Z * ask)) (w : World (M := hmap) (B := unit)) : list (outcome answer) * World (M := hmap) (B := unit) :=
  match cs with
  | [] => ([], w)
  | (c, q) :: cs => let '(r, w) := serve c q w in let '(rs, w) := all_served cs w in (r :: rs, w)
  end.
Definition told (cs : list (Z * ask)) : list (outcome answer) := (all_served cs (start [])).1.

Lemma all_served_runs w0 calls cs w : runs w0 calls w -> exists calls', runs w0 calls' (all_served cs w).2.
Proof.
  revert calls w. induction cs as [|[c q] cs IH]; intros calls w Hr; [by exists calls|]. cbn.
  pose proof (runs_call w0 calls w c q Hr) as H. destruct (serve c q w) as [r w1]. cbn in H.
  destruct (IH _ _ H) as [calls' H']. exists calls'. by destruct (all_served cs w1).
Qed.

Definition greeted : list (Z * ask) := [(0, NewConnection); (2, SetTarget "peer" 80); (2, ReadText); (2, SendText "hello")].

Lemma start_holds peeked c : holds c (start peeked) = None.
Proof.
  unfold holds. destruct (c =? 0); [done|]. unfold upstream, seed_exchanges, start. cbn.
  destruct (decide (c = 1)) as [->|Hc]; [by rewrite lookup_insert_eq|by rewrite lookup_insert_ne].
Qed.

Lemma websocket_messages_in_order_witness :
  told greeted = [Ok (AHandle 2); Ok ADone; Ok (AText "hi"); Ok (ACount 5)] /\
  exists account s, Forall accounted account /\ ios (all_served greeted (start [])).2 !! 1%positive = Some s /\
    s.(stream).(sent) = [Pong [1]; Text "hello"] /\ all_put 1 account = [Text "hello"].
Proof.
  destruct (all_served_runs (start []) [] greeted (start []) (runs_nil _)) as [calls Hr].
  destruct (websocket_messages_in_order (start []) calls _ eq_refl (start_holds []) Hr) as (account & _ & Ha & _ & _ & Hs).
  split; [vm_compute; reflexivity|].
  assert (Hi : exists s, ios (all_served greeted (start [])).2 !! 1%positive = Some s /\ s.(stream).(sent) = [Pong [1]; Text "hello"])
    by (vm_compute; eexists; split; reflexivity).
  destruct Hi as (s & Hi & E). exists account, s. split; [exact Ha|]. split; [exact Hi|]. split; [exact E|].
  destruct (Hs _ _ Hi) as (s0 & _ & H0 & _ & _ & Hp). rewrite E in Hp.
  assert (E0 : s0.(sent) = []) by (destruct H0 as [(? & ? & ? & ? & [= <-])|(? & ? & ? & [= <-])]; reflexivity).
  rewrite E0 in Hp. symmetry. exact Hp.
Defined.

(** The default exchange, prepared by a program. *)
Definition prepared (cs : list (Z * ask)) : World (M := hmap) (B := unit) := (all_served cs (start [])).2.
Definition asking : list (Z * ask) :=
  [(1, SetTarget "peer" 80); (1, SetPath "/chat"); (1, SetHeader "Connection" "close"); (1, SetHeader "origin" "me"); (1, SetSubprotocols "chat, news")].

Lemma upstream_websocket_opened_witness :
  exists w', ensure_outbound_websocket_connection_open 1 (prepared asking) = (Ok tt, w') /\
  exists hs, forall k, hm_get_all hs k = sent_header "peer:80" [("connection", bytes_of_string "close"); ("origin", bytes_of_string "me")] ["chat"; "news"]
    [("host", bytes_of_string "ws://peer:80/chat"); ("sec-websocket-key", [0])] k.
Proof.
  set (w := prepared asking).
  assert (He : exists e, upstream 1 w = Some e /\ HttpExchange.response_ready e = false /\ WebSocketState.is_open (websocket_dag e) = false /\
    headers (request e) = [("connection", bytes_of_string "close"); ("origin", bytes_of_string "me")] /\
    WebSocketState.requested_subprotocols (websocket_dag e) = ["chat"; "news"] /\
    WebSocketState.target_host (websocket_dag e) = Some "peer" /\ WebSocketState.target_port (websocket_dag e) = Some 80 /\
    WebSocketState.target_scheme (websocket_dag e) = WebSocketState.Ws /\ path (request e) = "/chat" /\ query (request e) = "")
    by (vm_compute; eexists; repeat split; reflexivity).
  destruct He as (e & He & Hr & Ho & Eh & Es & E1 & E2 & E3 & E4 & E5).
  destruct (upstream_websocket_opened 1 w e ltac:(done) He Hr Ho) as [H1 H2].
  destruct (ensure_outbound_websocket_connection_open 1 w) as [x w'] eqn:E.
  assert (Ex : x = Ok tt) by (change x with (x, w').1; rewrite <-E; vm_compute; reflexivity). subst x.
  exists w'. split; [reflexivity|]. inversion H1 as [| | | |p own hs stream response l w'' Hp Hcu Hown Hhs]; subst.
  exists hs. intros k. destruct (H2 p own hs Hp Hhs) as (host & port & F1 & F2 & F3 & F4). rewrite E1 in F1. injection F1 as <-.
  rewrite E2 in F2. injection F2 as <-. rewrite E3, E4, E5 in F3.
  assert (Eu : Ok (url p, Some (websocket_host_header "peer" 80)) = Ok (E := VmError) ("ws://peer:80/chat", Some "peer:80"))
    by (rewrite <-F3; vm_compute; reflexivity).
  injection Eu as Eu.
  rewrite F4, Eh, Es. rewrite Eu in Hown. vm_compute in Hown. injection Hown as <-.
  change (websocket_host_header "peer" 80) with "peer:80". reflexivity.
Defined.

(** *** What the calls do not say *)

(** Bytes peeked at on a downstream without TLS are dropped when its websocket is
    accepted: the handshake does not see the start of the request. *)
Theorem peeked_bytes_lost peeked :
  (take_downstream_websocket_transport (start peeked)).1 = Ok (Replay.new [] (Sockets.MkStream [] [] [] [])).
Proof. reflexivity. Qed.

(** A message of the other kind is consumed by the call that refuses it. *)
Theorem refused_message_lost :
  told [(1, SetTarget "peer" 80); (1, ReadText); (1, ReadText); (1, ReadBinary); (1, GetPhase)] =
  [Ok ADone; Ok (AText "hi"); Err (Fail (HostError "next websocket frame is binary; call websocket::connection::read_binary"));
   Ok (ABytes []); Ok (AText "closed")].
Proof. vm_compute. reflexivity. Qed.

(** Reading on after the peer closed, or closing then, connects again. *)
Theorem closed_websocket_reopens :
  let '(rs, w) := all_served [(1, SetTarget "peer" 80); (1, ReadText); (1, ReadBinary); (1, ReadText); (1, GetPhase); (1, ReadText)] (start []) in
  rs = [Ok ADone; Ok (AText "hi"); Ok (ABytes [7]); Ok (AText ""); Ok (AText "closed"); Ok (AText "hi")] /\ size (ios w) = 2%nat /\
  let '(rs, w) := all_served [(1, ReadBinary); (1, ReadText); (1, CloseWith 1000 "")] w in
  rs = [Ok (ABytes [7]); Ok (AText ""); Ok ADone] /\ size (ios w) = 3%nat.
Proof. vm_compute. repeat split. Qed.

(** A header that cannot be written leaves the connection in its handshake. *)
Theorem handshake_left_started :
  told [(1, SetTarget "peer" 80); (1, SetSubprotocols (string_of_bytes [1])); (1, Connect); (1, GetPhase)] =
  [Ok ADone; Ok ADone; Err (Fail (HostError ("invalid websocket subprotocol list '" +:+ string_of_bytes [1] +:+ "'"))); Ok (AText "handshake-started")].
Proof. vm_compute. reflexivity. Qed.

(** A header set for the websocket of the default upstream is lost when the
    request head is made explicit by a header set for its HTTP request. *)
Theorem websocket_header_forgotten :
  let w := prepared [(1, SetHeader "authorization" "token")] in
  let w' := (on_context (HttpExchange.set_exchange_header 1 "x" "y") w).2 in
  (fun e => get (headers (request e)) "authorization") <$> upstream 1 w = Some (Some (bytes_of_string "token")) /\
  (fun e => get (headers (request e)) "authorization") <$> upstream 1 w' = Some None.
Proof. vm_compute. by split. Qed.

(** The path of a websocket may hold what its query may not, and a fragment there
    takes the query with it. *)
Theorem path_with_fragment :
  normalize_websocket_query "a#b" = Err (HostError "websocket query must contain no whitespace or fragments, got 'a#b'") /\
  HttpExchange.is_valid_request_path "/a#b" = false /\
  build_websocket_url WebSocketState.Ws "h" 80 "/a#b" "token=1" = Ok ("ws://h:80/a#b?token=1", Some "h:80").
Proof. vm_compute. by split_and!. Qed.

(** Of a header the program's request repeats, only the last value is sent. *)
Theorem repeated_websocket_header_lost :
  with_request_headers (MkPrepared "" None [("cookie", [97]); ("cookie", [98])] false false []) ([] : hmap) = [("cookie", [98])].
Proof. vm_compute. reflexivity. Qed.

End WebSocketCalls.
