(* ===== verification/ProxyStreams.v ===== *)
(** Model of [src/abi_impl/proxy.rs]: byte streams that a program wraps around
    bodies, sockets, sessions and websockets, the copy in one direction
    ([proxy::pipe]), the relay in both ([proxy::forward]) and the pairs that are
    handed over to tunnels.  The two directions of a relay are tasks that a
    schedule polls in any order; a read that waits keeps the lock of its stream. *)

From S2P Require Import Prelude Bytes Effects TransportState TlsFlow HttpVersions HttpExchange TlsConfig Sockets TcpStreams TlsSessions WebSocketState.

Module ProxyStreams.
Import Handles Sockets TcpStreams.
Import TlsFlow (TlsFlowState).
Import TcpSocket (TcpSocketState).
Import TlsConfig (TlsCrate).
Import WebSocketState (WebSocketConnectionState, OutboundWebSocketIoState, CloseFrame).
Import TlsSessions (TlsHttpSide, outbound_exchange_response_available, ensure_outbound_websocket_connection_open,
  ensure_outbound_exchange_response_started).
Import HttpExchange (AuthorityCrate, HttpExchangeTransportState, tls_flow).

#[local] Existing Instances HttpExchange.eta_transport WebSocketState.eta_io WebSocketState.eta_stream.

(** What the streams use of the HTTP side besides the interfaces of the TCP and
    the TLS calls. *)
Class ProxyHttpSide (Http : Type) := {
  request_is_connect : Http -> bool;
  downstream_websocket_is_present : eff ended Http bool;
  with_downstream_websocket_mut : (WebSocketConnectionState -> WebSocketConnectionState) -> eff ended Http unit;
  validate_outbound_websocket_binary_connection : Z -> eff ended Http unit;
  websocket_negotiated_subprotocol : Z -> eff ended Http (option string);
  read_websocket_binary_bytes : Z -> eff ended Http (option (list Z));
  write_websocket_binary_bytes : Z -> list Z -> eff ended Http unit;
  close_websocket_binary_stream : Z -> eff ended Http unit;
  start_native_default_upstream_http_forward_response : eff ended Http bool;
}.

(** ** Streams *)

Inductive ProxyByteStreamEndpoint :=
| HttpDownstream
| DownstreamConnect
| DownstreamWebSocketBinary
| HttpExchange (exchange : Z)
| DynamicTcp (handle : Z)
| DynamicTls (handle : Z)
| WebSocketBinary (connection : Z).
#[export] Instance endpoint_eq_dec : EqDecision ProxyByteStreamEndpoint.
Proof. solve_decision. Defined.

Definition RESERVED_HTTP_DOWNSTREAM_PROXY_STREAM_HANDLE : Z := -1.
Definition RESERVED_DOWNSTREAM_CONNECT_PROXY_STREAM_HANDLE : Z := -2.
Definition RESERVED_DEFAULT_UPSTREAM_PROXY_STREAM_HANDLE : Z := -3.
Definition FIRST_PROXY_STREAM_HANDLE : Z := 4096.
Definition default_upstream : Z := HttpExchange.DEFAULT_UPSTREAM_EXCHANGE_HANDLE.

(** Who waits for [write_close_notify] looks at [write_closed]. *)
Record ProxyByteStreamState := MkProxyStream {
  endpoint : ProxyByteStreamEndpoint;
  write_observed : bool;
  write_closed : bool;
}.
#[export] Instance eta_proxy_stream : Eta ProxyByteStreamState := fun s =>
  MkProxyStream s.(endpoint) s.(write_observed) s.(write_closed).
Definition new (e : ProxyByteStreamEndpoint) : ProxyByteStreamState := MkProxyStream e false false.

Inductive ProxyReadStep := Chunk (bytes : list Z) | AtEof | WaitingForWriteClose | Blocked.

Definition unknown_proxy_stream_handle (handle : Z) : VmError :=
  HostError ("unknown proxy byte-stream handle " +:+ dec handle).

Definition reserved_proxy_stream_handle (e : ProxyByteStreamEndpoint) : option Z :=
  match e with
  | HttpDownstream => Some RESERVED_HTTP_DOWNSTREAM_PROXY_STREAM_HANDLE
  | DownstreamConnect => Some RESERVED_DOWNSTREAM_CONNECT_PROXY_STREAM_HANDLE
  | HttpExchange exchange => if exchange =? default_upstream then Some RESERVED_DEFAULT_UPSTREAM_PROXY_STREAM_HANDLE else None
  | _ => None
  end.
Definition reserved_proxy_stream_endpoint (handle : Z) : option ProxyByteStreamEndpoint :=
  if handle =? RESERVED_HTTP_DOWNSTREAM_PROXY_STREAM_HANDLE then Some HttpDownstream
  else if handle =? RESERVED_DOWNSTREAM_CONNECT_PROXY_STREAM_HANDLE then Some DownstreamConnect
  else if handle =? RESERVED_DEFAULT_UPSTREAM_PROXY_STREAM_HANDLE then Some (HttpExchange default_upstream)
  else None.

(** [usize] has 64 bits. *)
Definition decode_chunk_size (max_bytes : Z) : vm_result nat :=
  if max_bytes <=? 0 then Err (HostError ("proxy chunk size must be positive, got " +:+ dec max_bytes))
  else Ok (Z.to_nat max_bytes).

(** The two kinds of streams of the program's own, with their texts. *)
Inductive kind := Tcp | Tls.
#[export] Instance kind_eq_dec : EqDecision kind.
Proof. solve_decision. Defined.
Definition what (k : kind) : string := match k with Tcp => "proxy tcp" | Tls => "proxy tls plaintext" end.
Definition named (k : kind) (handle : Z) : string :=
  match k with Tcp => "dynamic tcp stream handle " | Tls => "dynamic tls session handle " end +:+ dec handle.
Definition no_active_transport (k : kind) (handle : Z) : string :=
  named k handle +:+ match k with Tcp => " has no active transport" | Tls => " has no active plaintext transport" end.

(** [downstream_post_response_plan]: what is left to do after the response. *)
Inductive DownstreamConnectTunnelTarget := MkTarget (k : kind) (handle : Z) (stream : Stream).
Inductive DownstreamPostResponsePlan :=
| ConnectTunnel (target : DownstreamConnectTunnelTarget)
| WebSocketTunnel (connection : Z) (selected_subprotocol : option string).

Section streams.
Context `{NW : Network} {Http : Type} `{HS : HttpSide Http} `{TH : !TlsHttpSide Http} `{PH : !ProxyHttpSide Http}.
Abbreviation world := (World Http).

(** The transport of a request, the table of streams, what follows the response,
    whether the downstream can be upgraded, and a log of the streams whose write
    side was shut down. *)
Record Proxy := MkProxy {
  transport : world;
  next_proxy_stream_handle : Z;
  proxy_stream_handles : gmap Z ProxyByteStreamState;
  post_response_plan : option DownstreamPostResponsePlan;
  downstream_http1_upgrade : bool;
  shut_down : list (kind * Z);
}.
#[export] Instance eta_proxy : Eta Proxy := fun p =>
  MkProxy p.(transport) p.(next_proxy_stream_handle) p.(proxy_stream_handles) p.(post_response_plan)
    p.(downstream_http1_upgrade) p.(shut_down).

Definition calling (A : Type) : Type := eff ended Proxy A.
Definition on_transport {A} (m : TcpStreams.call A) : calling A := zoom transport (fun w p => p <| transport := w |>) m.
Definition on_side {A} (m : eff ended Http A) : calling A := on_transport (on_http m).
Definition on_tables {A} (m : networking A) : calling A := on_transport (on_net m).
Definition side : calling Http := p ← get_state; mret p.(transport).(http).

(** *** The table *)

Definition allocate_proxy_stream_handle (e : ProxyByteStreamEndpoint) : calling Z :=
  p ← get_state;
  let handle := p.(next_proxy_stream_handle) in
  if handle =? HttpExchange.I64_MAX then host_error "proxy byte-stream handle space exhausted"
  else
    _ ← modify (fun p => p <| next_proxy_stream_handle := handle + 1 |>
                           <| proxy_stream_handles := <[handle := new e]> p.(proxy_stream_handles) |>);
    mret handle.

(** The state of a handle, which a reserved one has from the start. *)
Definition stream_state (p : Proxy) (handle : Z) : option ProxyByteStreamState :=
  match p.(proxy_stream_handles) !! handle with
  | Some s => Some s
  | None => new <$> reserved_proxy_stream_endpoint handle
  end.
(** [ensure_proxy_stream_state_mut] and a change of what it gives. *)
Definition update_stream (handle : Z) (f : ProxyByteStreamState -> ProxyByteStreamState) : calling unit :=
  p ← get_state;
  match stream_state p handle with
  | Some s => modify (fun p => p <| proxy_stream_handles := <[handle := f s]> p.(proxy_stream_handles) |>)
  | None => throw (Error (unknown_proxy_stream_handle handle))
  end.
Definition proxy_stream_state (handle : Z) : calling ProxyByteStreamState :=
  p ← get_state; or_error (ok_or (unknown_proxy_stream_handle handle) (stream_state p handle)).

Definition prepare_proxy_stream_write (handle : Z) : calling ProxyByteStreamEndpoint :=
  _ ← update_stream handle id;
  s ← proxy_stream_state handle;
  if s.(write_closed) then host_error ("proxy byte-stream handle " +:+ dec handle +:+ " is write-closed")
  else _ ← update_stream handle (fun s => s <| write_observed := true |>); mret s.(endpoint).
Definition mark_proxy_stream_write_closed (handle : Z) : calling ProxyByteStreamEndpoint :=
  _ ← update_stream handle (fun s => s <| write_closed := true |>);
  endpoint <$> proxy_stream_state handle.
Definition proxy_stream_write_closed (handle : Z) : calling bool := write_closed <$> proxy_stream_state handle.

Definition downstream_proxy_endpoint : calling ProxyByteStreamEndpoint :=
  h ← side;
  if request_is_connect h then mret DownstreamConnect
  else present ← on_side downstream_websocket_is_present; mret (if present : bool then DownstreamWebSocketBinary else HttpDownstream).

(** *** Streams of the program's own *)

Definition ios (k : kind) (w : world) : gmap Z SharedIo :=
  match k with Tcp => w.(net).(tcp_stream_ios) | Tls => w.(net).(dynamic_tls_session_ios) end.
Definition set_ios (k : kind) (handle : Z) (io : option SharedIo) (w : world) : world :=
  let f := partial_alter (fun _ => io) handle in
  match k with
  | Tcp => w <| net := w.(net) <| tcp_stream_ios := f w.(net).(tcp_stream_ios) |> |>
  | Tls => w <| net := w.(net) <| dynamic_tls_session_ios := f w.(net).(dynamic_tls_session_ios) |> |>
  end.
Definition put (k : kind) (handle : Z) (io : option SharedIo) : calling unit := on_transport (modify (set_ios k handle io)).

(** [dynamic_tcp_proxy_io] and [dynamic_tls_proxy_io], and what is in the lock. *)
Definition dynamic_proxy_io (k : kind) (handle : Z) : calling Stream :=
  p ← get_state;
  match ios k p.(transport) !! handle with
  | Some (Some stream) => mret stream
  | _ => host_error (no_active_transport k handle)
  end.

Definition mark_dynamic_tcp_proxy_read_eof (handle : Z) : calling unit := on_tables (update_socket handle TcpSocket.mark_read_eof).
Definition clear_dynamic_tcp_proxy_read_eof (handle : Z) : calling unit := on_tables (update_socket handle TcpSocket.clear_read_eof).
(** [mark_dynamic_tcp_proxy_failed] and [mark_dynamic_tls_proxy_failed] *)
Definition mark_dynamic_proxy_failed (k : kind) (handle : Z) (message : string) : calling unit :=
  _ ← on_tables (update_socket handle (TcpSocket.mark_failed message));
  _ ← match k with Tcp => mret tt | Tls => on_tables (update_tls_session handle TlsFlow.mark_failed) end;
  put k handle None.

(** [map_err(|err| { ... })?] of the reads and writes. *)
Definition or_mark_failed (k : kind) (handle : Z) (doing : string) (r : result string unit) : calling unit :=
  match r with
  | Ok _ => mret tt
  | Err err =>
      let message := what k +:+ " " +:+ doing +:+ " failed: " +:+ err in
      _ ← mark_dynamic_proxy_failed k handle message; host_error message
  end.

(** Reading from the stream, as long as [limit] says: [None] is a read that has
    to wait longer. *)
Definition dynamic_read (limit : option Z) (k : kind) (handle : Z) (max_bytes : nat) : calling (option ProxyReadStep) :=
  stream ← dynamic_proxy_io k handle;
  p ← get_state;
  let '(r, now, stream) := read max_bytes limit p.(transport).(net).(clock) stream in
  _ ← put k handle (Some (Some stream));
  _ ← on_tables (modify (fun n => n <| clock := now |>));
  match r with
  | ReadBytes bytes =>
      _ ← (if bool_decide (bytes = []) then mark_dynamic_tcp_proxy_read_eof handle else clear_dynamic_tcp_proxy_read_eof handle);
      mret (Some (if bool_decide (bytes = []) then AtEof else Chunk bytes))
  | ReadFailed err => _ ← or_mark_failed k handle "read" (Err err); mret None
  | ReadElapsed | ReadNever => mret None
  end.
Definition dynamic_write (k : kind) (handle : Z) (bytes : list Z) : calling unit :=
  stream ← dynamic_proxy_io k handle;
  let '(r, stream) := write_all bytes stream in
  _ ← put k handle (Some (Some stream));
  _ ← or_mark_failed k handle "write" r;
  let '(r, stream) := flush stream in
  _ ← put k handle (Some (Some stream));
  _ ← or_mark_failed k handle "flush" r;
  clear_dynamic_tcp_proxy_read_eof handle.
(** Shutting down the write side ends like a flush.  A stream that is not in its
    lock is passed over. *)
Definition dynamic_shutdown (k : kind) (handle : Z) : calling unit :=
  p ← get_state;
  match ios k p.(transport) !! handle with
  | None => host_error (no_active_transport k handle)
  | Some None => mret tt
  | Some (Some stream) =>
      let '(r, stream) := flush stream in
      _ ← put k handle (Some (Some stream));
      _ ← or_mark_failed k handle "shutdown" r;
      modify (fun p => p <| shut_down := p.(shut_down) ++ [(k, handle)] |>)
  end.

(** *** From handles of the other calls *)

Definition endpoint_from_tcp_stream (stream : Z) : calling ProxyByteStreamEndpoint :=
  match decode_tcp_stream_handle stream with
  | Some TcpDownstream => downstream_proxy_endpoint
  | Some TcpDefaultUpstream => mret (HttpExchange default_upstream)
  | None =>
      p ← get_state;
      if tcp_stream_exists stream p.(transport) then mret (DynamicTcp stream)
      else if outbound_exchange_exists stream p.(transport) then mret (HttpExchange stream)
      else host_error ("invalid tcp stream handle " +:+ dec stream +:+
             "; expected 0 (downstream), 1 (default upstream), a connected dynamic tcp handle, or an allocated outbound exchange handle")
  end.

(** [outbound_exchange_tls_flow] *)
Definition outbound_exchange_tls_flow (w : world) (handle : Z) : vm_result TlsFlowState :=
  if handle =? default_upstream then Ok (tls_dag TlsDefaultUpstream w.(http))
  else ok_or (HostError ("unknown outbound exchange handle " +:+ dec handle)) (tls_flow <$> exchange_transport handle w.(http)).
Definition tls_present_for_endpoint (w : world) (e : ProxyByteStreamEndpoint) : vm_result bool :=
  match e with
  | HttpDownstream | DownstreamConnect => Ok (TlsFlow.present (tls_dag TlsDownstream w.(http)))
  | HttpExchange handle => TlsFlow.present <$> outbound_exchange_tls_flow w handle
  | DynamicTls handle =>
      ok_or (HostError ("dynamic tls session handle " +:+ dec handle +:+ " is unavailable for proxy transport"))
        (TlsFlow.present <$> w.(net).(dynamic_tls_sessions) !! handle)
  | DownstreamWebSocketBinary | DynamicTcp _ | WebSocketBinary _ => Ok false
  end.
Definition endpoint_from_tls_plaintext (session : Z) : calling ProxyByteStreamEndpoint :=
  e ← match decode_tls_session_handle session with
      | Some TlsDownstream => downstream_proxy_endpoint
      | Some TlsDefaultUpstream => mret (HttpExchange default_upstream)
      | None =>
          p ← get_state;
          if tcp_stream_exists session p.(transport) then mret (DynamicTls session)
          else if outbound_exchange_exists session p.(transport) then mret (HttpExchange session)
          else host_error ("invalid tls session handle " +:+ dec session +:+
                 "; expected 0 (downstream), 1 (default upstream), a connected dynamic tls handle, or an allocated outbound exchange handle")
      end;
  p ← get_state;
  present ← or_error (tls_present_for_endpoint p.(transport) e);
  if (present : bool) then mret e
  else host_error ("tls plaintext stream is unavailable for handle " +:+ dec session +:+ " before a TLS session is present").

Definition endpoint_from_websocket_binary (connection : Z) : calling ProxyByteStreamEndpoint :=
  _ ← on_side (validate_outbound_websocket_binary_connection connection);
  p ← get_state;
  if negb (connection =? default_upstream) && negb (outbound_exchange_exists connection p.(transport))
  then host_error ("invalid websocket connection handle " +:+ dec connection +:+
         "; expected 1 (default upstream) or an allocated outbound exchange handle")
  else mret (WebSocketBinary connection).

(** ** Reading, writing and closing *)

Definition only_forwarded (tunnels : string) : string := "downstream " +:+ tunnels +:+ " tunnels are only available through proxy::forward".

Definition proxy_stream_read_step (limit : option Z) (handle : Z) (max_bytes : nat) : calling (option ProxyReadStep) :=
  stream ← proxy_stream_state handle;
  match stream.(endpoint) with
  | HttpDownstream =>
      chunk ← on_side (read_request_body_next_chunk max_bytes);
      mret (Some (if bool_decide (chunk = []) then AtEof else Chunk chunk))
  | DownstreamConnect => host_error (only_forwarded "connect")
  | DownstreamWebSocketBinary => host_error (only_forwarded "websocket")
  | HttpExchange exchange =>
      h ← side;
      if negb (outbound_exchange_response_available exchange h) && stream.(write_observed) && negb stream.(write_closed)
      then mret (Some WaitingForWriteClose)
      else
        chunk ← on_side (read_outbound_exchange_response_next_chunk exchange max_bytes);
        if bool_decide (chunk = []) then
          eof ← on_side (outbound_exchange_response_eof exchange);
          mret (Some (if eof : bool then AtEof else Blocked))
        else mret (Some (Chunk chunk))
  | DynamicTcp dynamic => dynamic_read limit Tcp dynamic max_bytes
  | DynamicTls dynamic => dynamic_read limit Tls dynamic max_bytes
  | WebSocketBinary connection =>
      message ← on_side (read_websocket_binary_bytes connection);
      mret (Some (match message with Some bytes => Chunk bytes | None => AtEof end))
  end.

(** The part of [proxy_stream_write_bytes] after the handle was looked up. *)
Definition write_to (e : ProxyByteStreamEndpoint) (bytes : list Z) : calling unit :=
  match e with
  | HttpDownstream => on_side (append_response_output_body_bytes bytes)
  | DownstreamConnect => host_error (only_forwarded "connect")
  | DownstreamWebSocketBinary => host_error (only_forwarded "websocket")
  | HttpExchange exchange => on_side (append_outbound_exchange_body_bytes exchange bytes)
  | DynamicTcp dynamic => dynamic_write Tcp dynamic bytes
  | DynamicTls dynamic => dynamic_write Tls dynamic bytes
  | WebSocketBinary connection => on_side (write_websocket_binary_bytes connection bytes)
  end.
Definition proxy_stream_write_bytes (handle : Z) (bytes : list Z) : calling unit :=
  if bool_decide (bytes = []) then mret tt
  else e ← prepare_proxy_stream_write handle; write_to e bytes.

(** The part of [proxy_stream_close_write] after the handle was looked up. *)
Definition close_to (e : ProxyByteStreamEndpoint) : calling unit :=
  match e with
  | DynamicTcp dynamic => dynamic_shutdown Tcp dynamic
  | DynamicTls dynamic => dynamic_shutdown Tls dynamic
  | WebSocketBinary connection => on_side (close_websocket_binary_stream connection)
  | HttpDownstream | DownstreamConnect | DownstreamWebSocketBinary | HttpExchange _ => mret tt
  end.
Definition proxy_stream_close_write (handle : Z) : calling unit :=
  e ← mark_proxy_stream_write_closed handle; close_to e.

(** ** Pairs that are handed over *)

(** [take_dynamic_tcp_connect_target] and [take_dynamic_tls_connect_target] *)
Definition take_dynamic_connect_target (k : kind) (handle : Z) : calling DownstreamConnectTunnelTarget :=
  p ← get_state;
  match p.(transport).(net).(tcp_streams) !! handle with
  | None => host_error (named k handle +:+ " is unavailable for proxy tunnel attachment")
  | Some _ =>
      _ ← on_tables (update_socket handle TcpSocket.mark_proxy_attached);
      match ios k p.(transport) !! handle with
      | None => host_error (no_active_transport k handle)
      | Some io =>
          _ ← put k handle None;
          match io with
          | None => host_error (named k handle +:+ " is already in use")
          | Some stream => mret (MkTarget k handle stream)
          end
      end
  end.

Definition schedule_downstream_post_response_plan (plan : DownstreamPostResponsePlan) : calling unit :=
  p ← get_state;
  match p.(post_response_plan) with
  | Some _ => host_error "downstream post-response transport plan is already scheduled"
  | None => modify (fun p => p <| post_response_plan := Some plan |>)
  end.
Definition require_upgrade (tunnel : string) : calling unit :=
  p ← get_state;
  if p.(downstream_http1_upgrade) then mret tt
  else host_error ("downstream " +:+ tunnel +:+ " tunnel requires an upgrade-capable HTTP/1.1 downstream connection").

Definition endpoint_of (handle : Z) : calling ProxyByteStreamEndpoint := endpoint <$> proxy_stream_state handle.

Definition schedule_downstream_connect_tunnel (left right : Z) : calling (option string) :=
  l ← endpoint_of left;
  r ← endpoint_of right;
  target ← match l, r with
           | DownstreamConnect, DynamicTcp handle | DynamicTcp handle, DownstreamConnect =>
               Some <$> take_dynamic_connect_target Tcp handle
           | DownstreamConnect, DynamicTls handle | DynamicTls handle, DownstreamConnect =>
               Some <$> take_dynamic_connect_target Tls handle
           | DownstreamConnect, _ | _, DownstreamConnect =>
               host_error ("downstream connect tunnels currently require a connected dynamic tcp::stream or tls::session " +:+
                 "peer wrapped with proxy::stream::from_tcp/from_tls_plaintext")
           | _, _ => mret None
           end;
  match target with
  | None => mret None
  | Some target =>
      _ ← require_upgrade "connect";
      _ ← schedule_downstream_post_response_plan (ConnectTunnel target);
      mret (Some "upgraded")
  end.

Definition schedule_downstream_websocket_tunnel (left right : Z) : calling (option string) :=
  l ← endpoint_of left;
  r ← endpoint_of right;
  connection ← match l, r with
               | DownstreamWebSocketBinary, WebSocketBinary connection | WebSocketBinary connection, DownstreamWebSocketBinary =>
                   mret (Some connection)
               | DownstreamWebSocketBinary, _ | _, DownstreamWebSocketBinary =>
                   host_error ("downstream websocket tunnels currently require a websocket connection wrapped with " +:+
                     "proxy::stream::from_websocket_binary")
               | _, _ => mret None
               end;
  match connection with
  | None => mret None
  | Some connection =>
      _ ← on_side (ensure_outbound_websocket_connection_open connection);
      selected_subprotocol ← on_side (websocket_negotiated_subprotocol connection);
      _ ← on_side (with_downstream_websocket_mut WebSocketState.note_handshake_started);
      _ ← require_upgrade "websocket";
      _ ← schedule_downstream_post_response_plan (WebSocketTunnel connection selected_subprotocol);
      mret (Some "upgraded")
  end.

Definition schedule_default_upstream_http_forward (left right : Z) : calling (option string) :=
  l ← proxy_stream_state left;
  r ← proxy_stream_state right;
  let is_default_http_forward :=
    match l.(endpoint), r.(endpoint) with
    | HttpDownstream, HttpExchange exchange | HttpExchange exchange, HttpDownstream =>
        (exchange =? default_upstream) && negb l.(write_observed) && negb r.(write_observed)
    | _, _ => false
    end in
  if negb is_default_http_forward then mret None
  else
    native ← on_side start_native_default_upstream_http_forward_response;
    _ ← (if (native : bool) then mret tt else on_side (ensure_outbound_exchange_response_started default_upstream));
    mret (Some "forwarded").

Definition try_native_forward (left right : Z) : calling (option string) :=
  status ← schedule_downstream_connect_tunnel left right;
  match status with
  | Some status => mret (Some status)
  | None =>
      status ← schedule_downstream_websocket_tunnel left right;
      match status with
      | Some status => mret (Some status)
      | None => schedule_default_upstream_http_forward left right
      end
  end.

(** ** One direction *)

(** Nobody else closes the write side while a single direction waits for it. *)
Definition wait_for_proxy_stream_write_close (handle : Z) : calling unit :=
  _ ← update_stream handle id;
  closed ← proxy_stream_write_closed handle;
  if (closed : bool) then mret tt else throw Hangs.

(** A source is read until its end; a blocked one is asked again at once. *)
Fixpoint drive_pipe_direction (fuel : nat) (source destination : Z) (max_bytes : nat) : calling unit :=
  match fuel with
  | O => throw OutOfFuel
  | S fuel =>
      r ← proxy_stream_read_step None source max_bytes;
      match r with
      | None => throw Hangs
      | Some AtEof => proxy_stream_close_write destination
      | Some (Chunk chunk) =>
          _ ← proxy_stream_write_bytes destination chunk;
          drive_pipe_direction fuel source destination max_bytes
      | Some WaitingForWriteClose =>
          _ ← wait_for_proxy_stream_write_close source;
          drive_pipe_direction fuel source destination max_bytes
      | Some Blocked => drive_pipe_direction fuel source destination max_bytes
      end
  end.

Definition drive_pipe (fuel : nat) (source destination : Z) (max_bytes : nat) : calling string :=
  s ← proxy_stream_state source;
  h ← side;
  let waits := match s.(endpoint) with
               | HttpExchange exchange =>
                   negb (outbound_exchange_response_available exchange h) && s.(write_observed) && negb s.(write_closed)
               | _ => false
               end in
  if waits then
    host_error ("proxy byte-stream handle " +:+ dec source +:+ " cannot be piped yet because its read side is waiting for its " +:+
      "write side to close; use proxy::forward or finish writing before piping from it")
  else _ ← drive_pipe_direction fuel source destination max_bytes; mret "eof".

(** ** Both directions *)

(** Where a direction is.  [Reads true] is a read that waits, with the lock of
    its stream; [Stuck] waits for something that never comes. *)
Inductive point :=
| Reads (polled : bool)
| Writes (chunk : list Z)
| WritesTo (e : ProxyByteStreamEndpoint) (chunk : list Z)
| Closes
| ClosesTo (e : ProxyByteStreamEndpoint)
| Waits
| Stuck
| Done.
Record Task := MkTask { source : Z; destination : Z; at_point : point }.
#[export] Instance eta_task : Eta Task := fun t => MkTask t.(source) t.(destination) t.(at_point).

Definition lock_of (e : ProxyByteStreamEndpoint) : option (kind * Z) :=
  match e with DynamicTcp h => Some (Tcp, h) | DynamicTls h => Some (Tls, h) | _ => None end.
(** The lock that a direction holds between two polls. *)
Definition held (p : Proxy) (t : Task) : option (kind * Z) :=
  match t.(at_point) with
  | Reads true => s ← stream_state p t.(source); lock_of s.(endpoint)
  | _ => None
  end.
Definition locked (p : Proxy) (other : Task) (e : ProxyByteStreamEndpoint) : bool :=
  match lock_of e with Some l => bool_decide (held p other = Some l) | None => false end.

(** A call that never returns. *)
Definition or_stuck (t : Task) (m : calling Task) : calling Task := fun p =>
  match m p with (Err Hangs, p) => (Ok (t <| at_point := Stuck |>), p) | r => r end.

(** One direction runs to its next [await] while the other one is at [other]. *)
Definition poll_direction (other : Task) (max_bytes : nat) (t : Task) : calling Task :=
  let go n := mret (t <| at_point := n |>) in
  or_stuck t (
    p ← get_state;
    match t.(at_point) with
    | Done | Stuck => mret t
    | Reads polled =>
        s ← proxy_stream_state t.(source);
        if negb polled && locked p other s.(endpoint) then mret t
        else
          r ← proxy_stream_read_step (Some 0) t.(source) max_bytes;
          go (match r with
              | None => Reads true
              | Some AtEof => Closes
              | Some (Chunk chunk) => if bool_decide (chunk = []) then Reads false else Writes chunk
              | Some WaitingForWriteClose => Waits
              | Some Blocked => Reads false
              end)
    | Writes chunk => e ← prepare_proxy_stream_write t.(destination); go (WritesTo e chunk)
    | WritesTo e chunk => if locked p other e then mret t else _ ← write_to e chunk; go (Reads false)
    | Closes => e ← mark_proxy_stream_write_closed t.(destination); go (ClosesTo e)
    | ClosesTo e => if locked p other e then mret t else _ ← close_to e; go Done
    | Waits =>
        _ ← update_stream t.(source) id;
        closed ← proxy_stream_write_closed t.(source);
        if (closed : bool) then go (Reads false) else mret t
    end).

(** What happens while a relay runs. *)
Inductive event := PollLeft | PollRight | Tick (nanoseconds : N).
Definition react (max_bytes : nat) (e : event) (ts : Task * Task) : calling (Task * Task) :=
  let '(l, r) := ts in
  match e with
  | PollLeft => l ← poll_direction r max_bytes l; mret (l, r)
  | PollRight => r ← poll_direction l max_bytes r; mret (l, r)
  | Tick d => _ ← on_tables (modify (fun n => n <| clock := n.(clock) + Z.of_N d |>)); mret ts
  end.
Fixpoint relay (max_bytes : nat) (events : list event) (ts : Task * Task) : calling (Task * Task) :=
  match events with
  | [] => mret ts
  | e :: events => ts ← react max_bytes e ts; relay max_bytes events ts
  end.

Definition direction (source destination : Z) : Task := MkTask source destination (Reads false).

(** A relay that is not over when the schedule ends goes on. *)
Definition drive_forward (events : list event) (left right : Z) (max_bytes : nat) : calling string :=
  status ← try_native_forward left right;
  match status with
  | Some status => mret status
  | None =>
      '(l, r) ← relay max_bytes events (direction left right, direction right left);
      match l.(at_point), r.(at_point) with
      | Done, Done => mret "closed"
      | _, _ => throw OutOfFuel
      end
  end.

(** ** After the response: the tunnels of [src/abi_impl/http/state.rs] *)

Definition update_downstream (tcp : TcpFlow.TcpFlowState -> TcpFlow.TcpFlowState) (tls : TlsFlowState -> TlsFlowState) : calling unit :=
  on_transport (modify (fun w => update_tls TlsDownstream tls (update_flow TcpDownstream tcp w))).

(** [DownstreamConnectTunnelPlan::mark_closed] and [mark_failed] *)
Definition mark_tunnel_closed (k : kind) (handle : Z) : calling unit :=
  _ ← update_downstream TcpFlow.mark_closed TlsFlow.mark_closed;
  _ ← on_tables (update_socket handle TcpSocket.mark_closed);
  match k with Tcp => mret tt | Tls => on_tables (update_tls_session handle TlsFlow.mark_closed) end.
Definition mark_tunnel_failed (k : kind) (handle : Z) (message : string) : calling unit :=
  _ ← update_downstream (TcpFlow.mark_failed message) TlsFlow.mark_failed;
  _ ← on_tables (update_socket handle (TcpSocket.mark_failed message));
  match k with Tcp => mret tt | Tls => on_tables (update_tls_session handle TlsFlow.mark_failed) end.

(** [upgrade.take().await?] and [upgraded.await]: none if the upgrade was taken. *)
Definition take_upgrade {A} (upgrade : option (result string A)) (failed : string -> calling A) : calling A :=
  match upgrade with
  | None => host_error "downstream http/1 upgrade has already been consumed"
  | Some (Ok upgraded) => mret upgraded
  | Some (Err err) => failed err
  end.
(** [copy_bidirectional] is tokio's. *)
Definition run_connect_tunnel (copy_bidirectional : Stream -> Stream -> result string unit)
    (upgrade : option (result string Stream)) (target : DownstreamConnectTunnelTarget) : calling unit :=
  downstream ← take_upgrade upgrade (fun err => host_error ("downstream connect upgrade failed: " +:+ err));
  let '(MkTarget k handle stream) := target in
  match copy_bidirectional downstream stream with
  | Ok _ => mark_tunnel_closed k handle
  | Err err =>
      let message := "proxy connect tunnel failed: " +:+ err in
      _ ← mark_tunnel_failed k handle message; host_error message
  end.

(** [DownstreamWebSocketTunnelPlan::mark_closed] and [mark_failed] *)
Definition mark_websocket_closed (close_code : option Z) (close_reason : option string) : calling unit :=
  _ ← update_downstream TcpFlow.mark_closed TlsFlow.mark_closed;
  on_side (with_downstream_websocket_mut (WebSocketState.mark_closed close_code close_reason)).
Definition mark_websocket_failed (message : string) : calling unit :=
  _ ← update_downstream (TcpFlow.mark_failed message) TlsFlow.mark_failed;
  on_side (with_downstream_websocket_mut (WebSocketState.mark_failed message)).
Definition fail_websocket {A} (message : string) : calling A := _ ← mark_websocket_failed message; host_error message.

(** [downstream_write.send(message).await.map_err(...)?] *)
Definition send_downstream (message : WebSocketState.Message) (failed : string) (io : OutboundWebSocketIoState)
    : calling OutboundWebSocketIoState :=
  match WebSocketState.send message io with
  | (Ok _, io) => mret io
  | (Err err, _) => fail_websocket (failed +:+ err)
  end.

(** The branches of [tokio::select!], in the order in which they become ready; a
    read that is not ready is dropped. *)
Inductive turn := FromDownstream | FromUpstream.
Definition unless_pending {A} (otherwise : A) (m : calling A) : calling A := fun p =>
  match m p with (Err Hangs, p) => (Ok otherwise, p) | r => r end.

Fixpoint websocket_tunnel (turns : list turn) (connection : Z) (io : OutboundWebSocketIoState) : calling OutboundWebSocketIoState :=
  match turns with
  | [] => throw OutOfFuel
  | FromDownstream :: turns =>
      let io' := io <| WebSocketState.stream := WebSocketState.stream io
                       <| WebSocketState.incoming := tail (WebSocketState.incoming (WebSocketState.stream io)) |> |> in
      match WebSocketState.incoming (WebSocketState.stream io) with
      | Ok (WebSocketState.Binary bytes) :: _ =>
          _ ← on_side (write_websocket_binary_bytes connection bytes);
          websocket_tunnel turns connection io'
      | Ok (WebSocketState.Ping payload) :: _ =>
          io' ← send_downstream (WebSocketState.Pong payload) "failed to reply to downstream websocket ping: " io';
          websocket_tunnel turns connection io'
      | Ok (WebSocketState.Pong _) :: _ | Ok WebSocketState.Frame :: _ => websocket_tunnel turns connection io'
      | Ok (WebSocketState.Close frame) :: _ =>
          _ ← on_side (close_websocket_binary_stream connection);
          _ ← mark_websocket_closed (WebSocketState.code <$> frame) (WebSocketState.reason <$> frame);
          mret (WebSocketState.send (WebSocketState.Close frame) io').2
      | Ok (WebSocketState.Text _) :: _ => fail_websocket "downstream websocket proxy tunnel only supports binary frames"
      | Err err :: _ => fail_websocket ("failed to read downstream websocket frame: " +:+ err)
      | [] =>
          _ ← on_side (close_websocket_binary_stream connection);
          _ ← mark_websocket_closed (Some 1000) (Some "downstream-closed");
          mret io'
      end
  | FromUpstream :: turns =>
      message ← unless_pending None (Some <$> on_side (read_websocket_binary_bytes connection));
      match message with
      | None => websocket_tunnel turns connection io
      | Some (Some bytes) =>
          io ← send_downstream (WebSocketState.Binary bytes) "failed to write downstream websocket frame: " io;
          websocket_tunnel turns connection io
      | Some None =>
          _ ← mark_websocket_closed (Some 1000) (Some "upstream-closed");
          mret (WebSocketState.send (WebSocketState.Close (Some (WebSocketState.MkClose 1000 "upstream-closed"))) io).2
      end
  end.
Definition run_websocket_tunnel (upgrade : option (result string WebSocketState.Stream)) (turns : list turn) (connection : Z)
    : calling OutboundWebSocketIoState :=
  websocket ← take_upgrade upgrade (fun err => fail_websocket ("downstream websocket upgrade failed: " +:+ err));
  websocket_tunnel turns connection (WebSocketState.new_client websocket).

(** ** The host calls *)

Definition handle_for (e : ProxyByteStreamEndpoint) : calling Z :=
  match reserved_proxy_stream_handle e with Some handle => mret handle | None => allocate_proxy_stream_handle e end.
Definition stream_downstream : calling Z := e ← downstream_proxy_endpoint; handle_for e.
Definition stream_exchange (exchange : Z) : calling Z :=
  p ← get_state;
  if negb (outbound_exchange_exists exchange p.(transport)) then host_error ("unknown outbound exchange handle " +:+ dec exchange)
  else handle_for (HttpExchange exchange).
Definition stream_from_tcp (stream : Z) : calling Z := e ← endpoint_from_tcp_stream stream; handle_for e.
Definition stream_from_tls_plaintext (session : Z) : calling Z := e ← endpoint_from_tls_plaintext session; handle_for e.
Definition stream_from_websocket_binary (connection : Z) : calling Z :=
  e ← endpoint_from_websocket_binary connection; allocate_proxy_stream_handle e.

Definition proxy_pipe (fuel : nat) (source destination max_bytes : Z) : calling string :=
  max_bytes ← or_error (decode_chunk_size max_bytes);
  drive_pipe fuel source destination max_bytes.
Definition proxy_forward (events : list event) (left right max_bytes : Z) : calling string :=
  max_bytes ← or_error (decode_chunk_size max_bytes);
  drive_forward events left right max_bytes.
Definition proxy_forward_native (left right : Z) : calling string :=
  status ← try_native_forward left right;
  or_error (ok_or (HostError ("proxy::forward_native supports only downstream CONNECT<->dynamic tcp/tls, downstream " +:+
    "websocket<->websocket, or downstream HTTP<->default upstream exchange native pairs; use proxy::forward for the " +:+
    "buffered fallback path")) status).

End streams.
End ProxyStreams.
