(* ===== verification/ProxyCalls.v ===== *)
(** Properties of proxying.  Between two streams of the program's own a pipe and
    a relay copy, in order and without loss; what a relay does not do is let one
    direction write to a stream while the other one waits to read from it. *)

From S2P Require Import Prelude Bytes Effects TransportState TlsFlow HttpVersions HttpExchange TlsConfig Sockets TcpStreams TcpCalls TlsSessions ProxyStreams.

Module ProxyCalls.
Import Handles Sockets TcpStreams ProxyStreams.
Import TlsConfig (TlsCrate).
Import TlsSessions (TlsHttpSide).
Import TcpCalls (data_of).

(** ** Handles *)

(** The reserved handles are those of the endpoints that have one. *)
Lemma reserved_endpoint_handle handle e :
  reserved_proxy_stream_endpoint handle = Some e <-> reserved_proxy_stream_handle e = Some handle.
Proof.
  unfold reserved_proxy_stream_endpoint, reserved_proxy_stream_handle,
    RESERVED_HTTP_DOWNSTREAM_PROXY_STREAM_HANDLE, RESERVED_DOWNSTREAM_CONNECT_PROXY_STREAM_HANDLE,
    RESERVED_DEFAULT_UPSTREAM_PROXY_STREAM_HANDLE.
  destruct (Z.eqb_spec handle (-1)); [|destruct (Z.eqb_spec handle (-2)); [|destruct (Z.eqb_spec handle (-3))]]; subst;
    destruct e as [| | |x|x|x|x]; try (destruct (Z.eqb_spec x default_upstream)); split; intros; simplify_eq/=; done.
Qed.

(** ** Reads and writes of one stream *)

Section one.
Context `{NW : Network} {Http : Type} `{HS : HttpSide Http} `{TH : !TlsHttpSide Http} `{PH : !ProxyHttpSide Http}.
Abbreviation proxy := (Proxy (Http := Http)).

(** A stream of the program's own, of either kind, and what is in its lock. *)
Definition carrier : Type := kind * Z.
Definition stream_of (c : carrier) (p : proxy) : option Stream := mjoin (ios c.1 p.(transport) !! c.2).

(** What does not concern the streams. *)
Definition rest (p : proxy) :=
  (p.(next_proxy_stream_handle), p.(proxy_stream_handles), p.(post_response_plan), p.(downstream_http1_upgrade)).
(** Only the stream [c] has changed, and perhaps what is noted of it. *)
Record only (c : carrier) (p p' : proxy) : Prop := {
  only_rest : rest p' = rest p;
  only_shut : p'.(shut_down) = p.(shut_down);
  only_streams d : d ≠ c -> stream_of d p' = stream_of d p;
}.

Lemma only_refl c p : only c p p.
Proof. done. Qed.
Lemma only_trans c p1 p2 p3 : only c p1 p2 -> only c p2 p3 -> only c p1 p3.
Proof. intros [H1 H2 H3] [H1' H2' H3']. split; [congruence..|]. intros d Hd. by rewrite H3', H3. Qed.

Definition now (p : proxy) : Z := p.(transport).(net).(clock).

Lemma stream_of_put c io p d : stream_of d (put c.1 c.2 io p).2 = if decide (d = c) then mjoin io else stream_of d p.
Proof.
  destruct c as [[] h], d as [[] g]; unfold stream_of, put, on_transport, zoom, modify; cbn;
    case_decide as Hd; simplify_eq/=; rewrite ?lookup_partial_alter_eq, ?lookup_partial_alter_ne by congruence; done.
Qed.
(** [m] succeeds, changes only [c], which ends up as [o], and takes no time. *)
Definition runs (c : carrier) (o : option Stream) (m : calling (Http := Http) unit) (p p' : proxy) : Prop :=
  m p = (Ok tt, p') /\ only c p p' /\ stream_of c p' = o /\ now p' = now p.

Lemma put_run c io p : exists p', runs c (mjoin io) (put c.1 c.2 io) p p'.
Proof.
  exists (put c.1 c.2 io p).2. split; [done|]. split_and!; [split| |].
  - by destruct c as [[]].
  - by destruct c as [[]].
  - intros d Hd. rewrite stream_of_put. by rewrite decide_False.
  - by rewrite stream_of_put, decide_True.
  - by destruct c as [[]].
Qed.

(** Notes on the sockets and sessions do not touch the streams. *)
Definition noted (m : calling (Http := Http) unit) : Prop := forall c p, exists p', runs c (stream_of c p) m p p'.
Lemma noted_socket handle f : noted (on_tables (update_socket handle f)).
Proof. intros c p. eexists. split; [done|]. split_and!; [split; [done|done|by intros [[] h]]|by destruct c as [[]]|done]. Qed.
Lemma noted_session handle f : noted (on_tables (update_tls_session handle f)).
Proof. intros c p. eexists. split; [done|]. split_and!; [split; [done|done|by intros [[] h]]|by destruct c as [[]]|done]. Qed.
Lemma noted_ret : noted (mret tt).
Proof. intros c p. by exists p. Qed.

Lemma moves_bind c o o' m1 m2 p p1 p2 : runs c o m1 p p1 -> runs c o' m2 p1 p2 -> runs c o' (_ ← m1; m2) p p2.
Proof.
  intros (E1 & H1 & _ & N1) (E2 & H2 & Hs & N2). unfold runs, mbind, eff_bind. rewrite E1, E2.
  split_and!; [done|by eapply only_trans|done|congruence].
Qed.

Lemma mark_failed_run c m p : exists p', runs c None (mark_dynamic_proxy_failed c.1 c.2 m) p p'.
Proof.
  destruct (noted_socket c.2 (TcpSocket.mark_failed m) c p) as [p1 H1].
  assert (Hn : noted (match c.1 with Tcp => mret tt | Tls => on_tables (update_tls_session c.2 TlsFlow.TlsFlow.mark_failed) end))
    by (destruct c.1; [apply noted_ret|apply noted_session]).
  destruct (Hn c p1) as [p2 H2]. destruct (put_run c None p2) as [p3 H3].
  exists p3. eapply moves_bind; [exact H1|]. by eapply moves_bind.
Qed.

(** An operation that fails closes the stream. *)
Lemma or_mark_failed_run c doing r p : r = Ok tt /\ or_mark_failed c.1 c.2 doing r p = (Ok tt, p) \/
  exists e p', or_mark_failed c.1 c.2 doing r p = (Err (Error e), p') /\ only c p p' /\ stream_of c p' = None /\ now p' = now p.
Proof.
  destruct r as [[]|err]; [by left|right]. cbn.
  destruct (mark_failed_run c (what c.1 +:+ " " +:+ doing +:+ " failed: " +:+ err) p) as (p' & E & Ho & Hs).
  eexists _, p'. unfold mbind, eff_bind. rewrite E. split; [done|]. by split.
Qed.

Lemma dynamic_io_run c p s : stream_of c p = Some s -> dynamic_proxy_io c.1 c.2 p = (Ok s, p).
Proof.
  unfold stream_of, dynamic_proxy_io, mbind, eff_bind. cbn. intros Hs. destruct (ios c.1 (transport p) !! c.2) as [[]|]; naive_solver.
Qed.

(** Nothing has arrived by the time [t]. *)
Definition silent_until (t : Z) (s : Stream) : Prop := match s.(incoming) with [] => True | (at_, _) :: _ => t < at_ end.

Lemma silent_before t T s : silent_until T s -> t <= T -> silent_until t s.
Proof. unfold silent_until. destruct (incoming s) as [|[at_ a] l]; [done|lia]. Qed.

(** The peer's side fails in the end. *)
Definition read_fails (s : Stream) : Prop := Exists (fun a => exists e, a.2 = ReadError e) s.(incoming).

(** How a read from [s] ends, and what is then in the lock. *)
Inductive read_ends (s : Stream) (limit : option Z) (t : Z) : read_end -> Stream -> Prop :=
| read_elapsed w : limit = Some w -> silent_until (t + w) s -> read_ends s limit t ReadElapsed s
| read_never : limit = None -> s.(incoming) = [] -> read_ends s limit t ReadNever s
| read_ended : data_of s.(incoming) = [] -> (forall w, limit = Some w -> ~ silent_until (t + w) s) -> read_ends s limit t (ReadBytes []) s
| read_chunk bytes s' : bytes ≠ [] -> data_of s.(incoming) = bytes ++ data_of s'.(incoming) ->
    s'.(sent) = s.(sent) -> s'.(outcomes) = s.(outcomes) -> (to_come s' < to_come s)%nat ->
    (forall w, limit = Some w -> ~ silent_until (t + w) s) -> (read_fails s' -> read_fails s) -> read_ends s limit t (ReadBytes bytes) s'
| read_failed e s' : (forall w, limit = Some w -> ~ silent_until (t + w) s) -> read_fails s -> read_ends s limit t (ReadFailed e) s'.

Lemma read_cases max limit t s : (0 < max)%nat -> (forall w, limit = Some w -> 0 <= w) ->
  let '(r, t', s') := read max limit t s in
  read_ends s limit t r s' /\ (forall w, limit = Some w -> t' <= t + w).
Proof.
  intros Hmax H0. pose proof (read_spec max limit t s Hmax) as Hr. unfold read in *.
  destruct s as [[|[at_ a] l] o rc sn]; cbn [incoming] in *.
  { destruct limit as [w|]; (split; [|by intros; simplify_eq; lia]); by econstructor. }
  destruct (match limit with Some w => _ | None => false end) eqn:Hw.
  { destruct limit as [w|]; [|done]. split; [|by intros; simplify_eq; lia]. specialize (H0 w eq_refl). eapply read_elapsed; [done|]. cbn [silent_until incoming]. lia. }
  assert (Hs : forall w, limit = Some w -> ~ silent_until (t + w) (MkStream ((at_, a) :: l) o rc sn)).
  { intros w ->. cbv beta iota in Hw. cbn [silent_until incoming]. lia. }
  assert (Ht : forall w, limit = Some w -> Z.max t at_ <= t + w) by (intros w ->; specialize (H0 w eq_refl); cbv beta iota in Hw; lia).
  destruct a as [b k|e|]; (split; [|done]).
  - cbn [sent outcomes received set_field incoming] in *. destruct max as [|max]; [lia|]. cbn [take drop] in *.
    destruct Hr as (_ & _ & _ & _ & Hc & _). apply read_chunk; [done| |done|done| |done|].
    + cbn. destruct (drop max k) eqn:E; cbn.
      * by rewrite take_ge by (rewrite <-(take_drop max k), E, length_app, length_take; cbn; lia).
      * change (z :: l0 ++ data_of l) with ((z :: l0) ++ data_of l). by rewrite <-E, app_assoc, take_drop.
    + cbn [length] in Hc. lia.
    + unfold read_fails. cbn. intros Hf. right. destruct (drop max k); [done|]. by apply Exists_cons in Hf as [[e He]|].
  - apply read_failed; [done|]. left. by eexists.
  - by apply read_ended.
Qed.

Lemma dynamic_read_run c s limit max p : (0 < max)%nat -> (forall w, limit = Some w -> 0 <= w) -> stream_of c p = Some s ->
  exists r p' e s', dynamic_read limit c.1 c.2 max p = (r, p') /\ only c p p' /\ read_ends s limit (now p) e s' /\
    (forall w, limit = Some w -> now p' <= now p + w) /\
    match e with
    | ReadElapsed | ReadNever => r = Ok None /\ stream_of c p' = Some s'
    | ReadBytes bytes => r = Ok (Some (if bool_decide (bytes = []) then AtEof else Chunk bytes)) /\ stream_of c p' = Some s'
    | ReadFailed _ => (exists x, r = Err (Error x)) /\ stream_of c p' = None
    end.
Proof.
  intros Hmax H0 Hs. pose proof (read_cases max limit (now p) s Hmax H0) as Hr.
  unfold dynamic_read, mbind, eff_bind. rewrite (dynamic_io_run _ _ _ Hs). cbn -[read put or_mark_failed]. fold (now p).
  destruct (read max limit (now p) s) as [[e t] s']. destruct Hr as [Hr Ht].
  destruct (put_run c (Some (Some s')) p) as (p1 & -> & Ho1 & Hs1 & _). cbn in Hs1.
  set (p2 := p1 <| transport := _ |>).
  assert (Ho2 : only c p p2).
  { destruct Ho1 as [R1 S1 O1]. split; [done|done|]. intros d Hd. rewrite <-(O1 d Hd). by destruct d as [[]]. }
  assert (Hs2 : stream_of c p2 = Some s') by (rewrite <-Hs1; by destruct c as [[]]).
  destruct e as [bytes|err| |].
  3, 4: by eexists _, p2, _, s'; split_and!.
  - assert (Hn : noted (if bool_decide (bytes = []) then mark_dynamic_tcp_proxy_read_eof c.2 else clear_dynamic_tcp_proxy_read_eof c.2))
      by (case_bool_decide; apply noted_socket).
    destruct (Hn c p2) as (p3 & -> & Ho3 & Hs3 & Hn3). eexists _, p3, _, s'. split; [done|].
    split_and!; [by eapply only_trans|done|by intros w Hw; rewrite Hn3; apply Ht|split; [done|by rewrite Hs3]].
  - destruct (or_mark_failed_run c "read" (Err err) p2) as [[? _]|(x & p3 & -> & Ho3 & Hs3 & Hn3)]; [done|].
    eexists _, p3, _, s'. split; [done|].
    split_and!; [by eapply only_trans|done|by intros w Hw; rewrite Hn3; apply Ht|split; [by eexists|done]].
Qed.

(** The outcomes a write and a flush leave. *)
Lemma write_all_outcomes bytes s : let '(r, s') := write_all bytes s in
  s'.(outcomes) = tail s.(outcomes) /\ (r = Ok tt \/ Exists is_Some s.(outcomes)).
Proof. unfold write_all. destruct (outcomes s) as [|[[k e]|] o] eqn:E; cbn; (split; [done|]); first [by left | right; constructor; by eexists]. Qed.
Lemma flush_outcomes s : let '(r, s') := flush s in
  s'.(outcomes) = tail s.(outcomes) /\ (r = Ok tt \/ Exists is_Some s.(outcomes)).
Proof. unfold flush. destruct (outcomes s) as [|[[k e]|] o] eqn:E; cbn; (split; [done|]); first [by left | right; constructor; by eexists]. Qed.
Lemma exists_tail (l : list (option (nat * string))) : Exists is_Some (tail l) -> Exists is_Some l.
Proof. destruct l; [done|]. by right. Qed.

Lemma dynamic_write_run c s bytes p : stream_of c p = Some s ->
  exists r p', dynamic_write c.1 c.2 bytes p = (r, p') /\ only c p p' /\ now p' = now p /\
    match r with
    | Ok _ => exists s', stream_of c p' = Some s' /\ s'.(incoming) = s.(incoming) /\ s'.(sent) = s.(sent) ++ bytes /\
        s'.(outcomes) = tail (tail s.(outcomes))
    | Err x => (exists e, x = Error e) /\ stream_of c p' = None /\ Exists is_Some s.(outcomes)
    end.
Proof.
  intros Hs. unfold dynamic_write, mbind, eff_bind. rewrite (dynamic_io_run _ _ _ Hs).
  pose proof (write_all_spec bytes s) as Hw. pose proof (write_all_outcomes bytes s) as Hx.
  destruct (write_all bytes s) as [r1 s1]. destruct Hw as (Hi1 & _ & Hb1), Hx as [Ho Hx].
  destruct (put_run c (Some (Some s1)) p) as (p1 & -> & Ho1 & Hs1 & Hn1).
  destruct (or_mark_failed_run c "write" r1 p1) as [[-> ->]|(e & p2 & Ef & Ho2 & Hs2 & Hn2)]; cycle 1.
  { destruct Hx as [->|Hx]; [done|]. rewrite Ef. eexists _, p2. split; [done|].
    split_and!; [by eapply only_trans|congruence|by eexists|done|done]. }
  specialize (Hb1 eq_refl). pose proof (flush_spec s1) as Hf. pose proof (flush_outcomes s1) as Hy.
  destruct (flush s1) as [r2 s2]. destruct Hf as (Hi2 & _ & Hb2), Hy as [Ho' Hy].
  destruct (put_run c (Some (Some s2)) p1) as (p2 & -> & Ho2 & Hs2 & Hn2).
  destruct (or_mark_failed_run c "flush" r2 p2) as [[-> ->]|(e & p3 & Ef & Ho3 & Hs3 & Hn3)]; cycle 1.
  { destruct Hy as [->|Hy]; [done|]. rewrite Ef. eexists _, p3. split; [done|].
    split_and!; [by do 2 (eapply only_trans; [done|])|congruence|by eexists|done|]. apply exists_tail. by rewrite <-Ho. }
  destruct (noted_socket c.2 TcpSocket.clear_read_eof c p2) as (p3 & Ep & Ho3 & Hs3 & Hn3).
  eexists _, p3. split; [exact Ep|]. split_and!; [by do 2 (eapply only_trans; [done|])|congruence|].
  exists s2. rewrite Hs3. split_and!; [done|congruence|congruence|congruence].
Qed.

Lemma dynamic_shutdown_run c s p : stream_of c p = Some s ->
  exists r p', dynamic_shutdown c.1 c.2 p = (r, p') /\ now p' = now p /\ rest p' = rest p /\
    (forall d, d ≠ c -> stream_of d p' = stream_of d p) /\
    match r with
    | Ok _ => exists s', stream_of c p' = Some s' /\ s'.(incoming) = s.(incoming) /\ s'.(sent) = s.(sent) /\
        p'.(shut_down) = p.(shut_down) ++ [c]
    | Err x => (exists e, x = Error e) /\ stream_of c p' = None /\ p'.(shut_down) = p.(shut_down) /\ Exists is_Some s.(outcomes)
    end.
Proof.
  intros Hs. unfold dynamic_shutdown, mbind, eff_bind. cbn [get_state].
  assert (Hio : ios c.1 (transport p) !! c.2 = Some (Some s)).
  { revert Hs. unfold stream_of. destruct (ios c.1 (transport p) !! c.2) as [[]|]; naive_solver. }
  unfold get_state. rewrite Hio. pose proof (flush_spec s) as Hf. pose proof (flush_outcomes s) as Hy.
  destruct (flush s) as [r2 s2]. destruct Hf as (Hi2 & _ & Hb2), Hy as [Ho' Hy].
  destruct (put_run c (Some (Some s2)) p) as (p2 & -> & [R2 S2 O2] & Hs2 & Hn2).
  destruct (or_mark_failed_run c "shutdown" r2 p2) as [[-> ->]|(e & p3 & Ef & [R3 S3 O3] & Hs3 & Hn3)].
  - eexists _, _. split; [done|]. split_and!; [done|done|intros d Hd; by rewrite <-(O2 d Hd)|].
    exists s2. split_and!; [exact Hs2|congruence|congruence|]. destruct c. cbn. by rewrite S2.
  - destruct Hy as [->|Hy]; [done|]. rewrite Ef. eexists _, p3. split; [done|].
    split_and!; [congruence..|intros d Hd; by rewrite (O3 d Hd), (O2 d Hd)|by eexists|congruence|congruence|done].
Qed.

(** ** One direction of a relay *)

Definition wraps (c : carrier) : ProxyByteStreamEndpoint := match c.1 with Tcp => DynamicTcp c.2 | Tls => DynamicTls c.2 end.
Definition carries (p : proxy) (handle : Z) (c : carrier) : Prop := endpoint <$> stream_state p handle = Some (wraps c).

Lemma carries_state p handle c : carries p handle c ->
  exists s, stream_state p handle = Some s /\ s.(endpoint) = wraps c /\ proxy_stream_state handle p = (Ok s, p).
Proof.
  unfold carries, proxy_stream_state, mbind, eff_bind. cbn. destruct (stream_state p handle) as [s|]; [|done].
  cbn. intros [= He]. by exists s.
Qed.
Lemma carries_rest p p' handle c : rest p' = rest p -> carries p handle c -> carries p' handle c.
Proof. intros Hr. unfold carries, stream_state. unfold rest in Hr. by injection Hr as _ -> _ _. Qed.
Lemma lock_of_wraps c : lock_of (wraps c) = Some c.
Proof. by destruct c as [[] h]. Qed.

(** The table of streams alone has changed, and no endpoint in it. *)
Definition tabled (p p' : proxy) : Prop :=
  (forall c, stream_of c p' = stream_of c p) /\ now p' = now p /\ p'.(shut_down) = p.(shut_down) /\
  forall handle, endpoint <$> stream_state p' handle = endpoint <$> stream_state p handle.

Lemma tabled_refl p : tabled p p.
Proof. done. Qed.
Lemma tabled_trans p1 p2 p3 : tabled p1 p2 -> tabled p2 p3 -> tabled p1 p3.
Proof. intros (H1 & H2 & H3 & H4) (H1' & H2' & H3' & H4'). split_and!; [intros c; by rewrite H1'|congruence..|intros h; by rewrite H4']. Qed.

Lemma update_stream_run handle f p s : (forall s, (f s).(endpoint) = s.(endpoint)) -> stream_state p handle = Some s ->
  exists p', update_stream handle f p = (Ok tt, p') /\ tabled p p' /\ stream_state p' handle = Some (f s).
Proof.
  intros Hf Hs. unfold update_stream, mbind, eff_bind. cbn. rewrite Hs. eexists. split; [done|].
  unfold tabled, stream_state. cbn. split; [|by rewrite lookup_insert_eq].
  split_and!; [by intros [[]]|done|done|]. intros h. destruct (decide (h = handle)) as [->|Hh].
  - rewrite lookup_insert_eq. unfold stream_state in Hs. cbn. rewrite Hf. destruct (_ !! handle); simplify_eq/=; [done|].
    by rewrite Hs.
  - by rewrite lookup_insert_ne.
Qed.

Lemma prepare_run handle c p : carries p handle c ->
  exists r p', prepare_proxy_stream_write handle p = (r, p') /\ tabled p p' /\
    match r with Ok e => e = wraps c | Err x => exists e, x = Error e end /\
    (write_closed <$> stream_state p handle = Some false -> is_Ok r = true /\ write_closed <$> stream_state p' handle = Some false).
Proof.
  intros Hc. destruct (carries_state _ _ _ Hc) as (s & Hs & He & _). unfold prepare_proxy_stream_write.
  destruct (update_stream_run handle id p s) as (p1 & E1 & H1 & Hs1); [done..|].
  unfold mbind at 1, eff_bind at 1. rewrite E1. unfold proxy_stream_state, mbind, eff_bind. cbn. rewrite Hs1. cbn.
  destruct (write_closed s) eqn:Hw.
  { eexists _, p1. split; [done|]. split; [done|]. split; [by eexists|]. rewrite Hs; cbn; congruence. }
  destruct (update_stream_run handle (fun s => s <| write_observed := true |>) p1 s) as (p2 & E2 & H2 & Hs2); [done..|].
  rewrite E2. eexists _, p2. split; [done|]. split; [by eapply tabled_trans|]. split; [done|]. by rewrite Hs2, <-Hw.
Qed.
Lemma mark_closed_run handle c p : carries p handle c ->
  exists p', mark_proxy_stream_write_closed handle p = (Ok (wraps c), p') /\ tabled p p'.
Proof.
  intros Hc. destruct (carries_state _ _ _ Hc) as (s & Hs & He & _). unfold mark_proxy_stream_write_closed.
  destruct (update_stream_run handle (fun s => s <| write_closed := true |>) p s) as (p1 & E1 & H1 & Hs1); [done..|].
  unfold mbind, eff_bind. rewrite E1. unfold proxy_stream_state, fmap, eff_fmap, mbind, eff_bind. cbn. rewrite Hs1. cbn.
  exists p1. by rewrite He.
Qed.

Lemma read_step_dynamic limit handle c max p : carries p handle c ->
  proxy_stream_read_step limit handle max p = dynamic_read limit c.1 c.2 max p.
Proof.
  intros Hc. destruct (carries_state _ _ _ Hc) as (s & _ & He & E). unfold proxy_stream_read_step, mbind, eff_bind.
  rewrite E, He. by destruct c as [[] h].
Qed.
Lemma write_to_dynamic c bytes : write_to (wraps c) bytes = dynamic_write c.1 c.2 bytes.
Proof. by destruct c as [[] h]. Qed.
Lemma close_to_dynamic c : close_to (wraps c) = dynamic_shutdown c.1 c.2.
Proof. by destruct c as [[] h]. Qed.

Definition in_flight (n : point) : list Z := match n with Writes chunk | WritesTo _ chunk => chunk | _ => [] end.

(** How far a direction from [c] to [d] has come: [S0] and [D0] are the streams it
    started with, [S] and [D] those of now. *)
Record going (d : carrier) (S0 D0 S D : Stream) (n : point) (shut : list carrier) : Prop := {
  going_moved : exists moved, D.(sent) = D0.(sent) ++ moved /\ data_of S0.(incoming) = moved ++ in_flight n ++ data_of S.(incoming);
  going_end : match n with Closes | ClosesTo _ | Done => data_of S.(incoming) = [] | _ => True end;
  going_done : n = Done -> d ∈ shut;
  going_point : match n with WritesTo e _ | ClosesTo e => e = wraps d | Waits | Stuck => False | _ => True end;
}.

(** What every poll leaves alone. *)
Record same (c d : carrier) (p p' : proxy) : Prop := {
  same_time : now p' <= now p;
  same_streams x : x ≠ c -> x ≠ d -> stream_of x p' = stream_of x p;
  same_endpoints handle : endpoint <$> stream_state p' handle = endpoint <$> stream_state p handle;
}.
Lemma same_carries c d p p' handle x : same c d p p' -> carries p handle x -> carries p' handle x.
Proof. intros [_ _ He]. unfold carries. by rewrite He. Qed.
Lemma only_same c d p p' : only d p p' \/ only c p p' -> now p' <= now p -> same c d p p'.
Proof.
  intros Ho Hn. assert (Hr : rest p' = rest p) by (by destruct Ho as [[]|[]]). split; [done| |].
  - intros x Hc Hd. destruct Ho as [[_ _ Ho]|[_ _ Ho]]; by apply Ho.
  - intros h. unfold stream_state. unfold rest in Hr. by injection Hr as _ -> _ _.
Qed.
Lemma tabled_same c d p p' : tabled p p' -> same c d p p'.
Proof. intros (Hs & Hn & _ & He). split; [lia|done|done]. Qed.

(** How a poll of a direction from [c] to [d] ends. *)
Inductive polled (c d : carrier) (S0 D0 S D : Stream) (t : Task) (p p' : proxy) : result ended Task -> Prop :=
| polled_on n S' D' : stream_of c p' = Some S' -> stream_of d p' = Some D' -> S'.(sent) = S.(sent) -> D'.(incoming) = D.(incoming) ->
    p.(shut_down) ⊆ p'.(shut_down) -> going d S0 D0 S' D' n p'.(shut_down) ->
    polled c d S0 D0 S D t p p' (Ok (t <| at_point := n |>))
| polled_failed e : stream_of c p' = None \/ stream_of c p' = Some S -> stream_of d p' = None \/ stream_of d p' = Some D ->
    polled c d S0 D0 S D t p p' (Err (Error e)).

Section poll.
Context (other : Task) (max : nat) (t : Task) (p : proxy) (c d : carrier) (S0 D0 S D : Stream).
Context (Hmax : (0 < max)%nat) (Hcd : c ≠ d) (Hsrc : carries p t.(source) c) (Hdst : carries p t.(destination) d).
Context (Hcs : stream_of c p = Some S)  (Hds : stream_of d p = Some D).

(** The end of a poll, and what holds of it if [d] is locked. *)
Definition outcome_of (r : result ended Task) (p' : proxy) : Prop :=
  same c d p p' /\ polled c d S0 D0 S D t p p' r /\ (held p other = Some d -> stream_of d p' = Some D).

Lemma poll_locked e : e = wraps d -> (exists chunk, t.(at_point) = WritesTo e chunk) \/ t.(at_point) = ClosesTo e ->
  held p other = Some d -> poll_direction other max t p = (Ok t, p).
Proof.
  intros -> Hn Hh. unfold poll_direction, or_stuck, mbind, eff_bind, locked. cbn [get_state]. unfold get_state.
  destruct Hn as [[chunk ->]| ->]; by rewrite lock_of_wraps, Hh, bool_decide_eq_true_2.
Qed.

Lemma polled_here : going d S0 D0 S D t.(at_point) p.(shut_down) -> outcome_of (Ok t) p.
Proof.
  intros Hg. split; [apply tabled_same, tabled_refl|]. split; [|done].
  replace t with (t <| at_point := t.(at_point) |>) at 2 by (by destruct t). by eapply polled_on.
Qed.

Context (Hgo : going d S0 D0 S D t.(at_point) p.(shut_down)).

Lemma poll_reads b : t.(at_point) = Reads b -> b = true \/ held p other ≠ Some c ->
  exists r p', poll_direction other max t p = (r, p') /\ outcome_of r p' /\
    (silent_until (now p) S -> r = Ok (t <| at_point := Reads true |>) /\ stream_of c p' = Some S).
Proof.
  intros Hn Hb. unfold poll_direction, or_stuck, mbind, eff_bind. unfold get_state. rewrite Hn.
  destruct (carries_state _ _ _ Hsrc) as (s & _ & He & ->). rewrite He.
  assert (negb b && locked p other (wraps c) = false) as ->.
  { unfold locked. rewrite lock_of_wraps. destruct Hb as [->|Hb]; [done|]. rewrite bool_decide_eq_false_2 by done. apply andb_false_r. }
  rewrite (read_step_dynamic _ _ _ _ _ Hsrc).
  destruct (dynamic_read_run c S (Some 0) max p) as (r & p' & e & S' & -> & Ho & Hr & Ht & Hm); [done|by intros w [= <-]|done|].
  specialize (Ht 0 eq_refl). assert (Hsame : same c d p p') by (apply only_same; [by right|lia]).
  assert (Hd' : stream_of d p' = Some D) by (by destruct Ho as [_ _ ->]).
  destruct Hgo as [(moved & Hmv & Hdt) _ _ _]. rewrite Hn in Hdt. cbn in Hdt.
  assert (Hon : forall n, going d S0 D0 S' D n p'.(shut_down) -> S'.(sent) = S.(sent) -> stream_of c p' = Some S' ->
    outcome_of (Ok (t <| at_point := n |>)) p').
  { intros n Hg Hst Hs'. split; [done|]. split; [|done]. eapply polled_on; [done|done|done|done| |done]. by destruct Ho as [_ ->]. }
  destruct Hr as [w [= <-] Hsi|Hf|Hend Hsi|bytes S' Hne Hdata Hst Hout Hc Hsi _|err S' Hsi _].
  - destruct Hm as [-> Hs']. eexists _, p'. split; [done|]. split; [|done]. apply Hon; [|done..].
    split; [by exists moved|done..].
  - done.
  - destruct Hm as [-> Hs']. eexists _, p'. split; [done|]. specialize (Hsi 0 eq_refl). rewrite Z.add_0_r in Hsi.
    split; [|done]. apply Hon; [|done..]. split; [by exists moved|done..].
  - destruct Hm as [-> Hs']. rewrite bool_decide_eq_false_2 by done. eexists _, p'. split; [done|].
    specialize (Hsi 0 eq_refl). rewrite Z.add_0_r in Hsi. split; [|done]. rewrite bool_decide_eq_false_2 by done.
    apply Hon; [|done..]. split; [|done..]. exists moved. split; [done|]. cbn. by rewrite Hdt, Hdata.
  - destruct Hm as [[x ->] Hs']. eexists _, p'. split; [done|]. specialize (Hsi 0 eq_refl). rewrite Z.add_0_r in Hsi.
    split; [|done]. split; [done|]. split; [|done]. apply polled_failed; [by left|by right].
Qed.

Lemma poll_rest : (forall b, t.(at_point) ≠ Reads b) ->
  exists r p', poll_direction other max t p = (r, p') /\ outcome_of r p'.
Proof.
  intros Hn. destruct (t.(at_point)) as [b|chunk|e chunk| |e| | |] eqn:Hpt; [by destruct (Hn b)|..].
  - (* the write is prepared *)
    destruct (prepare_run _ _ _ Hdst) as (r & p' & E & Htab & Hr & _).
    unfold poll_direction, or_stuck, mbind, eff_bind. unfold get_state. rewrite Hpt, E.
    pose proof Htab as (Hs' & _ & Hsh & _).
    destruct r as [e|x]; [subst e|destruct Hr as [e ->]]; eexists _, p'; (split; [done|]); (split; [by apply tabled_same|]); (split; [|by rewrite Hs']).
    + eapply polled_on; [by rewrite Hs'|by rewrite Hs'|done|done|by rewrite Hsh|].
      pose proof Hgo as [Hmv _ _ _]. split; [exact Hmv|done..].
    + apply polled_failed; right; by rewrite Hs'.
  - (* the write *)
    pose proof Hgo as [(moved & Hmv & Hdt) _ _ Hp]. cbn in Hdt. subst e.
    destruct (decide (held p other = Some d)) as [Hh|Hh].
    { eexists _, p. split; [eapply poll_locked; [done|by left; eexists|done]|]. apply polled_here. by rewrite Hpt. }
    unfold poll_direction, or_stuck, mbind, eff_bind, locked. unfold get_state. rewrite Hpt, lock_of_wraps, bool_decide_eq_false_2 by done.
    rewrite write_to_dynamic. destruct (dynamic_write_run d D chunk p Hds) as (r & p' & -> & Ho & Hnow & Hr).
    assert (Hc' : stream_of c p' = Some S) by (by destruct Ho as [_ _ ->]).
    assert (Hsame : same c d p p') by (apply only_same; [by left|lia]).
    destruct r as [[]|x].
    + destruct Hr as (D' & HD' & Hi & Hst & _). eexists _, p'. split; [done|]. split; [done|]. split; [|done].
      eapply polled_on; [done|done|done|done|by destruct Ho as [_ ->]|].
      split; [|done..]. exists (moved ++ chunk). cbn in Hdt |- *. by rewrite Hst, Hmv, Hdt, <-!app_assoc.
    + destruct Hr as ([e ->] & HD' & _). eexists _, p'. split; [done|]. split; [done|]. split; [|done].
      apply polled_failed; [by right|by left].
  - (* the end is marked *)
    destruct (mark_closed_run _ _ _ Hdst) as (p' & E & Htab). pose proof Htab as (Hs' & _ & Hsh & _).
    unfold poll_direction, or_stuck, mbind, eff_bind. unfold get_state. rewrite Hpt, E. eexists _, p'. split; [done|].
    split; [by apply tabled_same|]. split; [|by rewrite Hs'].
    eapply polled_on; [by rewrite Hs'|by rewrite Hs'|done|done|by rewrite Hsh|].
    pose proof Hgo as [Hmv He _ _]. by split.
  - (* the end *)
    pose proof Hgo as [Hmv He _ Hp]. subst e.
    destruct (decide (held p other = Some d)) as [Hh|Hh].
    { eexists _, p. split; [eapply poll_locked; [done|by right|done]|]. apply polled_here. by rewrite Hpt. }
    unfold poll_direction, or_stuck, mbind, eff_bind, locked. unfold get_state. rewrite Hpt, lock_of_wraps, bool_decide_eq_false_2 by done.
    rewrite close_to_dynamic. destruct (dynamic_shutdown_run d D p Hds) as (r & p' & -> & Hnow & Hrest & Ho & Hr).
    assert (Hc' : stream_of c p' = Some S) by (by rewrite Ho).
    assert (Hsame : same c d p p').
    { split; [lia|by intros; apply Ho|]. intros h. unfold stream_state. unfold rest in Hrest. by injection Hrest as _ -> _ _. }
    destruct r as [[]|x].
    + destruct Hr as (D' & HD' & Hi & Hst & Hsh). eexists _, p'. split; [done|]. split; [done|]. split; [|done].
      eapply polled_on; [done|done|done|done|rewrite Hsh; set_solver|].
      split; [|done|rewrite Hsh; set_solver|done]. cbn in Hmv |- *. by rewrite Hst.
    + destruct Hr as ([e ->] & HD' & _). eexists _, p'. split; [done|]. split; [done|]. split; [|done].
      apply polled_failed; [by right|by left].
  - by pose proof Hgo as [_ _ _ Hp].
  - by pose proof Hgo as [_ _ _ Hp].
  - eexists _, p. split; [|by apply polled_here; rewrite Hpt].
    unfold poll_direction, or_stuck, mbind, eff_bind. unfold get_state. by rewrite Hpt.
Qed.

Lemma poll_run : exists r p', poll_direction other max t p = (r, p') /\ outcome_of r p'.
Proof.
  assert ((exists b, t.(at_point) = Reads b) \/ forall b, t.(at_point) ≠ Reads b) as [[b Hpt]|Hpt]; [|destruct (decide (b = false /\ held p other = Some c)) as [[-> Hh]|Hh]|by apply poll_rest].
  { clear Hgo. destruct (at_point t); first [by left; eexists|by right]. }
  - eexists _, p. split; [|by apply polled_here].
    unfold poll_direction, or_stuck, mbind, eff_bind. unfold get_state. rewrite Hpt.
    destruct (carries_state _ _ _ Hsrc) as (s & _ & He & ->). rewrite He. unfold locked.
    by rewrite lock_of_wraps, bool_decide_eq_true_2.
  - destruct (poll_reads b Hpt) as (r & p' & ? & ? & _); [|by eauto].
    destruct b; [by left|right]. intros Hc. by apply Hh.
Qed.
End poll.

(** ** Both directions *)

(** What [B] was written since it was [B0] is what [A0] gave first. *)
Definition delivered (A0 B0 : Stream) (o : option Stream) : Prop :=
  forall B, o = Some B -> exists moved, moved `prefix_of` data_of A0.(incoming) /\ B.(sent) = B0.(sent) ++ moved.

Lemma going_delivered d S0 D0 S D n shut : going d S0 D0 S D n shut -> delivered S0 D0 (Some D).
Proof. intros [(moved & Hs & Hd) _ _ _] B [= <-]. exists moved. split; [|done]. rewrite Hd. by apply prefix_app_r. Qed.
Lemma delivered_either S0 D0 D o : delivered S0 D0 (Some D) -> o = None \/ o = Some D -> delivered S0 D0 o.
Proof. by intros Hd [->| ->]. Qed.
Lemma going_other d S0 D0 S D S' D' n shut shut' : going d S0 D0 S D n shut ->
  S'.(incoming) = S.(incoming) -> D'.(sent) = D.(sent) -> shut ⊆ shut' -> going d S0 D0 S' D' n shut'.
Proof. intros [Hm He Hd Hp] Hi Hs Hsh. split; [by rewrite Hi, Hs|by rewrite Hi| |done]. intros Hn. by apply Hsh, Hd. Qed.

Section relay.
Context (left right : Z) (a b : carrier) (A0 B0 : Stream) (max : nat) (Hab : a ≠ b) (Hmax : (0 < max)%nat).

Record relaying (l r : Task) (p : proxy) : Prop := {
  relaying_tasks : l = MkTask left right l.(at_point) /\ r = MkTask right left r.(at_point);
  relaying_left : carries p left a;
  relaying_right : carries p right b;
  relaying_streams : exists A B, stream_of a p = Some A /\ stream_of b p = Some B /\
    going b A0 B0 A B l.(at_point) p.(shut_down) /\ going a B0 A0 B A r.(at_point) p.(shut_down);
}.
Definition sound (p : proxy) : Prop := delivered A0 B0 (stream_of b p) /\ delivered B0 A0 (stream_of a p).

Lemma relaying_sound l r p : relaying l r p -> sound p.
Proof. intros [_ _ _ (A & B & HA & HB & Hl & Hr)]. split; [rewrite HB|rewrite HA]; by eapply going_delivered. Qed.

Lemma react_run e l r p : relaying l r p ->
  match react max e (l, r) p with
  | (Ok (l', r'), p') => relaying l' r' p'
  | (Err x, p') => sound p' /\ exists e, x = Error e
  end.
Proof.
  intros [[Hl Hr] Hcl Hcr (A & B & HA & HB & Hgl & Hgr)]. rewrite Hl, Hr. set (n := at_point l) in *. set (m := at_point r) in *.
  unfold react, mbind, eff_bind. destruct e.
  - destruct (poll_run (MkTask right left m) max (MkTask left right n) p a b A0 B0 A B) as (o & p' & -> & Hsame & Hp & _); [done..|].
    destruct Hp as [n' A' B' HA' HB' Hst Hi Hsh Hg|e He1 He2].
    + cbn. split; [done|by eapply same_carries..|]. exists A', B'. split_and!; [done..|]. by eapply going_other.
    + split; [|by eexists]. split; (eapply delivered_either; [|done]); by eapply going_delivered.
  - destruct (poll_run (MkTask left right n) max (MkTask right left m) p b a B0 A0 B A) as (o & p' & -> & Hsame & Hp & _); [done..|].
    destruct Hp as [m' B' A' HB' HA' Hst Hi Hsh Hg|e He1 He2].
    + cbn. split; [done|by eapply same_carries..|]. exists A', B'. split_and!; [done..| |done]. by eapply going_other.
    + split; [|by eexists]. split; (eapply delivered_either; [|done]); by eapply going_delivered.
  - cbn. split; [done|done|done|]. exists A, B. split_and!; [by destruct a as [[]]|by destruct b as [[]]|done|done].
Qed.

Lemma relay_run events l r p : relaying l r p ->
  match relay max events (l, r) p with
  | (Ok (l', r'), p') => relaying l' r' p'
  | (Err x, p') => sound p' /\ exists e, x = Error e
  end.
Proof.
  revert l r p. induction events as [|e events IH]; intros l r p Hp; [done|]. cbn [relay].
  pose proof (react_run e l r p Hp) as He. unfold mbind, eff_bind.
  destruct (react max e (l, r) p) as [[[l' r']|x] p']; [by apply IH|done].
Qed.

Lemma native_none p : carries p left a -> carries p right b -> try_native_forward left right p = (Ok None, p).
Proof.
  intros Hl Hr. destruct (carries_state _ _ _ Hl) as (s & _ & Hs & Es), (carries_state _ _ _ Hr) as (s' & _ & Hs' & Es').
  unfold try_native_forward, schedule_downstream_connect_tunnel, schedule_downstream_websocket_tunnel,
    schedule_default_upstream_http_forward, endpoint_of, fmap, eff_fmap, mbind, eff_bind.
  destruct a as [[] x], b as [[] y]; cbn in Hs, Hs'; repeat (rewrite ?Es, ?Es', ?Hs, ?Hs'; cbn); done.
Qed.
End relay.

(** ** A pipe *)

Section pipe.
Context (source destination : Z) (c d : carrier) (S0 D0 : Stream) (max : nat) (Hcd : c ≠ d) (Hmax : (0 < max)%nat).

Definition open (p : proxy) : Prop := write_closed <$> stream_state p destination = Some false.
(** A pipe between two chunks. *)
Record piping (S D : Stream) (p : proxy) : Prop := {
  piping_source : carries p source c;
  piping_destination : carries p destination d;
  piping_open : open p;
  piping_streams : stream_of c p = Some S /\ stream_of d p = Some D;
  piping_moved : exists moved, D.(sent) = D0.(sent) ++ moved /\ data_of S0.(incoming) = moved ++ data_of S.(incoming);
  piping_faults : (read_fails S -> read_fails S0) /\ (Exists is_Some D.(outcomes) -> Exists is_Some D0.(outcomes));
}.
(** How a pipe ends: with the end of its source, or because it fails, or waiting
    for a source that stays silent. *)
Definition piped (r : result ended unit) (p : proxy) : Prop :=
  delivered S0 D0 (stream_of d p) /\
  match r with
  | Ok _ => d ∈ p.(shut_down) /\ exists D, stream_of d p = Some D /\ D.(sent) = D0.(sent) ++ data_of S0.(incoming)
  | Err Hangs => exists S D, stream_of c p = Some S /\ stream_of d p = Some D /\
      S.(incoming) = [] /\ D.(sent) = D0.(sent) ++ data_of S0.(incoming)
  | Err (Error _) => read_fails S0 \/ Exists is_Some D0.(outcomes)
  | Err _ => False
  end.

Lemma piping_delivered S D p : piping S D p -> delivered S0 D0 (Some D).
Proof. intros [_ _ _ _ (moved & Hm & Hd) _] D' [= <-]. exists moved. split; [|done]. rewrite Hd. by apply prefix_app_r. Qed.

(** The end of the source is passed on. *)
Lemma pipe_end S D p : piping S D p -> data_of S.(incoming) = [] ->
  let '(r, p') := proxy_stream_close_write destination p in piped r p'.
Proof.
  intros Hp Hend. pose proof (piping_delivered _ _ _ Hp) as Hdel. destruct Hp as [_ Hdst _ [_ HD] (moved & Hm & Hd) [_ Hf]].
  unfold proxy_stream_close_write, mbind, eff_bind.
  destruct (mark_closed_run _ _ _ Hdst) as (p1 & -> & Hs1 & _ & Hsh1 & _). rewrite close_to_dynamic.
  destruct (dynamic_shutdown_run d D p1) as (r & p2 & -> & _ & _ & _ & Hr); [by rewrite Hs1|].
  unfold piped. destruct r as [[]|x].
  - destruct Hr as (D' & HD' & _ & Hst & Hsh). rewrite HD'. split; [|split; [rewrite Hsh; set_solver|]].
    + intros D2 [= <-]. rewrite Hst. by apply Hdel.
    + exists D'. split; [done|]. rewrite Hst, Hm, Hd, Hend. by rewrite app_nil_r.
  - destruct Hr as ([e ->] & HD' & _ & Hx). rewrite HD'. split; [done|]. right. by apply Hf.
Qed.

(** A chunk is passed on. *)
Lemma pipe_chunk S D S' p p1 bytes : piping S D p -> only c p p1 -> stream_of c p1 = Some S' -> bytes ≠ [] ->
  data_of S.(incoming) = bytes ++ data_of S'.(incoming) -> (read_fails S' -> read_fails S) ->
  match proxy_stream_write_bytes destination bytes p1 with
  | (Ok _, p2) => exists D', piping S' D' p2
  | (Err x, p2) => piped (Err x) p2
  end.
Proof.
  intros Hp Ho HS' Hne Hdata Hrf. pose proof (piping_delivered _ _ _ Hp) as Hdel.
  destruct Hp as [Hsrc Hdst Hop [HSc HD] (moved & Hm & Hd) [Hf1 Hf2]]. destruct Ho as [Hr1 Hsh1 Ho1].
  assert (Hop1 : open p1) by (unfold open, stream_state in *; unfold rest in Hr1; by injection Hr1 as _ -> _ _).
  unfold proxy_stream_write_bytes. rewrite bool_decide_eq_false_2 by done. unfold mbind, eff_bind.
  destruct (prepare_run destination d p1) as (r & p2 & -> & (Hs2 & _ & _ & He2) & Hr & Hop2); [by eapply carries_rest|].
  destruct (Hop2 Hop1) as [Hok Hop2']. destruct r as [e|]; [|done]. subst e. rewrite write_to_dynamic.
  assert (HD2 : stream_of d p2 = Some D) by (rewrite Hs2, Ho1; done).
  destruct (dynamic_write_run d D bytes p2 HD2) as (r & p3 & -> & [Hr3 Hsh3 Ho3] & _ & Hr). destruct r as [[]|x].
  - destruct Hr as (D' & HD' & Hi & Hst & Hout). exists D'.
    assert (Hcar : forall h x, carries p h x -> carries p3 h x).
    { intros h x Hh. eapply carries_rest; [done|]. unfold carries. rewrite He2. by eapply carries_rest. }
    split; [by apply Hcar|by apply Hcar| |split; [by rewrite Ho3, Hs2|done]| |].
    + unfold open, stream_state in *. unfold rest in Hr3. by injection Hr3 as _ -> _ _.
    + exists (moved ++ bytes). by rewrite Hst, Hm, Hd, Hdata, <-!app_assoc.
    + split; [by intros ?; apply Hf1, Hrf|]. intros He. apply Hf2. by do 2 apply exists_tail; rewrite <-Hout.
  - destruct Hr as ([e ->] & HD' & Hx). split; [by rewrite HD'|]. right. by apply Hf2.
Qed.

Lemma pipe_run fuel S D p : piping S D p -> (to_come S < fuel)%nat ->
  let '(r, p') := drive_pipe_direction fuel source destination max p in piped r p'.
Proof.
  revert S D p. induction fuel as [|fuel IH]; intros S D p Hp Hfuel; [lia|]. cbn [drive_pipe_direction].
  unfold mbind, eff_bind. pose proof Hp as [Hsrc Hdst Hop [HSc HD] _ [Hf _]]. rewrite (read_step_dynamic _ _ _ _ _ Hsrc).
  destruct (dynamic_read_run c S None max p) as (r & p1 & e & S' & -> & Ho & Hr & _ & Hm); [done..|].
  pose proof (piping_delivered _ _ _ Hp) as Hdel. assert (HD1 : stream_of d p1 = Some D) by (by destruct Ho as [_ _ ->]).
  destruct Hr as [w Hw|_ Hin|Hend _|bytes S' Hne Hdata Hst Hout Hc _ Hrf|err S' _ Hrf]; [done|..].
  - destruct Hm as [-> HS1]. split; [by rewrite HD1|]. exists S, D. split_and!; [done..|].
    destruct (piping_moved _ _ _ Hp) as (moved & -> & ->). rewrite Hin. by rewrite app_nil_r.
  - destruct Hm as [-> HS1]. apply (pipe_end S D p1); [|done]. destruct Hp. split; try done.
    + by eapply carries_rest; [apply Ho|].
    + by eapply carries_rest; [apply Ho|].
    + destruct Ho as [Hrest _ _]. unfold open, stream_state in *. unfold rest in Hrest. by injection Hrest as _ -> _ _.
  - destruct Hm as [-> HS1]. rewrite bool_decide_eq_false_2 by done.
    pose proof (pipe_chunk S D S' p p1 bytes Hp Ho HS1 Hne Hdata Hrf) as Hw.
    destruct (proxy_stream_write_bytes destination bytes p1) as [[[]|x] p2]; [|done].
    destruct Hw as [D' Hp']. apply (IH S' D' p2 Hp'). lia.
  - destruct Hm as [[x ->] _]. split; [by rewrite HD1|]. left. by apply Hf.
Qed.
End pipe.

(** ** The theorems *)


(** C12. A relay between two streams of the program's own never loses, repeats or
    reorders a byte, however its two directions interleave and whatever fails:
    each side has received a prefix of what the other one gave.  If it returns,
    each has received all of it, and both were shut down. *)
Theorem forward_relays (left right : Z) (a b : carrier) (A0 B0 : Stream) max events p :
  a ≠ b -> 0 < max -> carries p left a -> carries p right b -> stream_of a p = Some A0 -> stream_of b p = Some B0 ->
  let '(r, p') := proxy_forward events left right max p in
  delivered A0 B0 (stream_of b p') /\ delivered B0 A0 (stream_of a p') /\
  match r with
  | Ok status => status = "closed" /\ a ∈ p'.(shut_down) /\ b ∈ p'.(shut_down) /\
      exists A B, stream_of a p' = Some A /\ stream_of b p' = Some B /\
        B.(sent) = B0.(sent) ++ data_of A0.(incoming) /\ A.(sent) = A0.(sent) ++ data_of B0.(incoming)
  | Err OutOfFuel => True
  | Err x => exists e, x = Error e
  end.
Proof.
  intros Hab Hmax Hl Hr HA HB. unfold proxy_forward, drive_forward, ProxyStreams.decode_chunk_size, mbind, eff_bind.
  destruct (Z.leb_spec max 0); [lia|]. cbn [or_error mret eff_ret].
  rewrite (native_none left right a b Hab p) by done. assert (Hm : (0 < Z.to_nat max)%nat) by lia.
  assert (Hstart : relaying left right a b A0 B0 (direction left right) (direction right left) p).
  { split; [done..|]. exists A0, B0. split_and!; [done|done|..]; (split; [exists []; by rewrite ?app_nil_r|done..]). }
  pose proof (relay_run left right a b A0 B0 _ Hab Hm events _ _ _ Hstart) as Hrun.
  destruct (relay (Z.to_nat max) events _ p) as [[[l r]|x] p']; cycle 1.
  { destruct Hrun as [Hs [e ->]]. split; [apply Hs|]. split; [apply Hs|by eexists]. }
  pose proof (relaying_sound _ _ _ _ _ _ _ _ _ Hrun) as Hs.
  destruct Hrun as [_ _ _ (A & B & HA' & HB' & Hgl & Hgr)].
  destruct (at_point l) eqn:El; try (by destruct Hs). destruct (at_point r) eqn:Er; try (by destruct Hs).
  destruct Hgl as [(ma & Hma & Hda) Hea Hsa _], Hgr as [(mb & Hmb & Hdb) Heb Hsb _].
  destruct Hs as [Hs1 Hs2]. split; [done|]. split; [done|]. split; [done|]. split_and!; [by apply Hsb|by apply Hsa|]. exists A, B.
  cbn in Hda, Hdb, Hea, Heb. rewrite Hea in Hda. rewrite Heb in Hdb. rewrite !app_nil_r in *. by rewrite Hda, Hdb.
Qed.

(** *** What a relay does not do *)

Definition nanoseconds (e : event) : Z := match e with Tick d => Z.of_N d | _ => 0 end.
Definition duration (events : list event) : Z := foldr (fun e t => nanoseconds e + t) 0 events.
Lemma nanoseconds_pos e : 0 <= nanoseconds e.
Proof. destruct e; unfold nanoseconds; lia. Qed.
Lemma duration_pos events : 0 <= duration events.
Proof.
  induction events as [|e events IH]; [done|]. change (0 <= nanoseconds e + duration events). pose proof (nanoseconds_pos e). lia.
Qed.

Lemma held_reading p t c : t.(at_point) = Reads true -> carries p t.(source) c -> held p t = Some c.
Proof.
  intros Hn Hc. destruct (carries_state _ _ _ Hc) as (s & Hs & He & _). unfold held. rewrite Hn, Hs. cbn. by rewrite He, lock_of_wraps.
Qed.

Section silence.
Context (left right : Z) (a b : carrier) (A0 B0 : Stream) (max : nat) (Hab : a ≠ b) (Hmax : (0 < max)%nat).
(** The left side is being read. *)
Definition reading (l r : Task) (p : proxy) : Prop :=
  relaying left right a b A0 B0 l r p /\ l.(at_point) = Reads true /\ stream_of a p = Some A0.

Lemma reading_react T e l r p : reading l r p -> silent_until T A0 -> now p <= T ->
  match react max e (l, r) p with
  | (Ok (l', r'), p') => reading l' r' p' /\ now p' <= now p + nanoseconds e
  | (Err _, p') => stream_of a p' = Some A0
  end.
Proof.
  intros (Hrel & Hn & HA) Hsi Hnow. pose proof (react_run left right a b A0 B0 max Hab Hmax e l r p Hrel) as Hr.
  destruct Hrel as [[Hl Hr'] Hcl Hcr (A & B & HA' & HB & Hgl & Hgr)]. rewrite HA in HA'. injection HA' as <-.
  assert (Hsil : silent_until (now p) A0) by (eapply silent_before; [done|lia]).
  destruct l as [ls ld ln], r as [rs rd rn]. cbn [at_point] in *. injection Hl as -> ->. injection Hr' as -> ->. subst ln.
  unfold react, mbind, eff_bind in *. destruct e.
  - destruct (poll_reads (MkTask right left rn) max (MkTask left right (Reads true)) p a b A0 B0 A0 B Hmax Hab Hcl HA HB Hgl
      true eq_refl (or_introl eq_refl)) as (o & p' & E & ([Ht _ _] & _ & _) & Hq).
    rewrite E in Hr |- *. destruct (Hq Hsil) as [-> HA']. cbn in Hr |- *. split; [by split|lia].
  - destruct (poll_run (MkTask left right (Reads true)) max (MkTask right left rn) p b a B0 A0 B A0) as (o & p' & E & [Ht _ _] & _ & Hk); [done..|].
    rewrite E in Hr |- *. specialize (Hk (held_reading p (MkTask left right (Reads true)) a eq_refl Hcl)).
    destruct o as [r'|x]; [|done]. cbn in Hr |- *. split; [by split|lia].
  - cbn in Hr |- *. split; [|unfold now; cbn; lia]. split; [done|]. split; [done|]. rewrite <-HA. by destruct a as [[]].
Qed.

Lemma reading_relay T events l r p : reading l r p -> silent_until T A0 -> now p + duration events <= T ->
  stream_of a (relay max events (l, r) p).2 = Some A0.
Proof.
  revert l r p. induction events as [|e events IH]; intros l r p Hr Hsi Ht; [by destruct Hr as (_ & _ & ?)|]. cbn [relay].
  change (duration (e :: events)) with (nanoseconds e + duration events) in Ht.
  pose proof (duration_pos events). pose proof (nanoseconds_pos e).
  pose proof (reading_react T e l r p Hr Hsi ltac:(lia)) as Hs. unfold mbind, eff_bind.
  destruct (react max e (l, r) p) as [[[l' r']|x] p']; [|done]. destruct Hs as [Hs Hn]. apply IH; [done|done|lia].
Qed.
End silence.

(** While the left side sends nothing, nothing that arrives on the right is
    passed on to it: its read is under way, with the lock that the write needs. *)
Theorem silent_side_hears_nothing (left right : Z) (a b : carrier) (A0 B0 : Stream) max events p T :
  a ≠ b -> 0 < max -> carries p left a -> carries p right b -> stream_of a p = Some A0 -> stream_of b p = Some B0 ->
  silent_until T A0 -> now p + duration events <= T ->
  let '(r, p') := proxy_forward (PollLeft :: events) left right max p in stream_of a p' = Some A0.
Proof.
  intros Hab Hmax Hl Hr HA HB Hsi Ht. unfold proxy_forward, drive_forward, ProxyStreams.decode_chunk_size, mbind, eff_bind.
  destruct (Z.leb_spec max 0); [lia|]. cbn [or_error mret eff_ret].
  rewrite (native_none left right a b Hab p) by done. assert (Hm : (0 < Z.to_nat max)%nat) by lia.
  pose proof (duration_pos events).
  assert (Hsil : silent_until (now p) A0) by (eapply silent_before; [done|lia]).
  destruct (poll_reads (direction right left) (Z.to_nat max) (direction left right) p a b A0 B0 A0 B0 Hm Hab Hl HA HB
    ltac:(split; [exists []; by rewrite ?app_nil_r|done..]) false eq_refl ltac:(by right)) as (o & p1 & E & (Hsame & Hp & _) & Hq).
  destruct (Hq Hsil) as [-> HA1]. cbn [relay react]. unfold mbind, eff_bind. rewrite E. cbn [mret eff_ret].
  pose proof (reading_relay left right a b A0 B0 (Z.to_nat max) Hab Hm T events
    (direction left right <| at_point := Reads true |>) (direction right left) p1) as Hg.
  assert (Hread : reading left right a b A0 B0 (direction left right <| at_point := Reads true |>) (direction right left) p1).
  { inversion Hp as [n A B HA' HB' Hst Hi Hsh Hgo Heq|]. subst n. split; [|done]. split; [done|by eapply same_carries..|].
    rewrite HA1 in HA'. injection HA' as <-. exists A0, B. split_and!; [done|done|done|].
    split; [|done..]. exists []. rewrite app_nil_r. by rewrite Hi. }
  destruct Hsame as [Hnow _ _]. specialize (Hg Hread Hsi ltac:(lia)). revert Hg.
  destruct (relay _ _ _ p1) as [[[l r]|x] p2]; cbn; [|done]. intros Hg. by destruct (at_point l), (at_point r).
Qed.

(** *** Tunnels *)

Lemma take_target_run c s p : stream_of c p = Some s -> is_Some (p.(transport).(net).(tcp_streams) !! c.2) ->
  exists p', take_dynamic_connect_target c.1 c.2 p = (Ok (MkTarget c.1 c.2 s), p') /\ only c p p' /\ stream_of c p' = None /\
    p'.(transport).(net).(tcp_streams) = alter TcpSocket.mark_proxy_attached c.2 p.(transport).(net).(tcp_streams).
Proof.
  intros Hs [st Hst]. unfold take_dynamic_connect_target, mbind, eff_bind. unfold get_state. rewrite Hst.
  assert (Hio : ios c.1 (transport p) !! c.2 = Some (Some s)).
  { revert Hs. unfold stream_of. destruct (ios c.1 (transport p) !! c.2) as [[]|]; naive_solver. }
  destruct (noted_socket c.2 TcpSocket.mark_proxy_attached c p) as (p1 & E1 & Ho1 & Hs1 & _).
  assert (Hp1 : p1.(transport).(net).(tcp_streams) = alter TcpSocket.mark_proxy_attached c.2 p.(transport).(net).(tcp_streams)).
  { injection E1 as <-. done. }
  rewrite E1, Hio. destruct (put_run c None p1) as (p2 & E2 & Ho2 & Hs2 & _).
  assert (Hp2 : p2.(transport).(net).(tcp_streams) = p1.(transport).(net).(tcp_streams)) by (injection E2 as <-; by destruct c as [[]]).
  unfold SharedIo in *. cbv beta iota. rewrite E2. exists p2. split; [done|]. split; [by eapply only_trans|]. split; [done|congruence].
Qed.

Lemma connect_run left right c s p : endpoint <$> stream_state p left = Some DownstreamConnect -> carries p right c ->
  stream_of c p = Some s -> is_Some (p.(transport).(net).(tcp_streams) !! c.2) ->
  exists p', only c p p' /\ stream_of c p' = None /\
    p'.(transport).(net).(tcp_streams) = alter TcpSocket.mark_proxy_attached c.2 p.(transport).(net).(tcp_streams) /\
    schedule_downstream_connect_tunnel left right p =
    (_ ← require_upgrade "connect"; _ ← schedule_downstream_post_response_plan (ConnectTunnel (MkTarget c.1 c.2 s)); mret (Some "upgraded")) p'.
Proof.
  intros Hl Hr Hs Hst. destruct (take_target_run c s p Hs Hst) as (p' & Et & Ho & Hs' & Hst').
  exists p'. split; [done|]. split; [done|]. split; [done|].
  destruct (carries_state _ _ _ Hr) as (sr & _ & Her & Er).
  unfold schedule_downstream_connect_tunnel, endpoint_of, fmap, eff_fmap, mbind at 1 2 3, eff_bind at 1 2 3.
  unfold proxy_stream_state at 1, mbind at 1, eff_bind at 1. unfold get_state at 1.
  destruct (stream_state p left) as [sl|]; [|done]. cbn in Hl. injection Hl as Hl. cbn [ok_or or_error mret eff_ret]. rewrite Hl, Er, Her.
  destruct c as [[] h]; cbn in Et |- *; by rewrite Et.
Qed.

(** A CONNECT request is handed over with the stream its program connected, which
    the tables give up. *)
Theorem connect_tunnel_handed_over left right c s events max p : 0 < max ->
  endpoint <$> stream_state p left = Some DownstreamConnect -> carries p right c -> stream_of c p = Some s ->
  is_Some (p.(transport).(net).(tcp_streams) !! c.2) -> p.(downstream_http1_upgrade) = true -> p.(post_response_plan) = None ->
  let '(r, p') := proxy_forward events left right max p in
  r = Ok "upgraded" /\ p'.(post_response_plan) = Some (ConnectTunnel (MkTarget c.1 c.2 s)) /\ stream_of c p' = None /\
  p'.(transport).(net).(tcp_streams) = alter TcpSocket.mark_proxy_attached c.2 p.(transport).(net).(tcp_streams) /\
  forall d, d ≠ c -> stream_of d p' = stream_of d p.
Proof.
  intros Hmax Hl Hr Hs Hst Hup Hplan. destruct (connect_run left right c s p Hl Hr Hs Hst) as (p' & [Hrest _ Ho] & Hs' & Hst' & E).
  unfold proxy_forward, drive_forward, try_native_forward, ProxyStreams.decode_chunk_size, mbind, eff_bind in *.
  destruct (Z.leb_spec max 0); [lia|]. cbn [or_error mret eff_ret]. rewrite E.
  unfold rest in Hrest. injection Hrest as _ _ Hpl Hug. rewrite Hup in Hug. rewrite Hplan in Hpl.
  unfold require_upgrade, schedule_downstream_post_response_plan, mbind, eff_bind. unfold get_state. rewrite Hug. cbn. rewrite Hpl. cbn.
  split_and!; [done|done|rewrite <-Hs'; by destruct c as [[]]|done|]. intros d Hd. rewrite <-(Ho d Hd). by destruct d as [[]].
Qed.

(** If the downstream cannot be upgraded, or another tunnel is scheduled, the call
    fails and the stream is gone: neither the tables nor the plan have it. *)
Theorem refused_tunnel_loses_stream left right c s events max p : 0 < max ->
  endpoint <$> stream_state p left = Some DownstreamConnect -> carries p right c -> stream_of c p = Some s ->
  is_Some (p.(transport).(net).(tcp_streams) !! c.2) -> p.(downstream_http1_upgrade) = false \/ is_Some p.(post_response_plan) ->
  let '(r, p') := proxy_forward events left right max p in
  (exists message, r = Err (Error (HostError message))) /\ stream_of c p' = None /\ p'.(post_response_plan) = p.(post_response_plan).
Proof.
  intros Hmax Hl Hr Hs Hst Hno. destruct (connect_run left right c s p Hl Hr Hs Hst) as (p' & [Hrest _ Ho] & Hs' & Hst' & E).
  unfold proxy_forward, drive_forward, try_native_forward, ProxyStreams.decode_chunk_size, mbind, eff_bind in *.
  destruct (Z.leb_spec max 0); [lia|]. cbn [or_error mret eff_ret]. rewrite E.
  unfold rest in Hrest. injection Hrest as _ _ Hpl Hug.
  unfold require_upgrade, schedule_downstream_post_response_plan, mbind, eff_bind. unfold get_state. rewrite Hug.
  destruct (downstream_http1_upgrade p); cbn; [|by split_and!; [eexists| |]].
  destruct Hno as [|[plan Hplan]]; [done|]. rewrite Hpl, Hplan. cbn. split_and!; [by eexists|done|congruence].
Qed.
End one.

(** ** Examples *)

#[local] Existing Instance TlsConfig.text_pems.
#[local] Instance offline : Network := quiet_network (fun _ => false).

(** A request with one exchange of the program's own: what is left of its body,
    the response so far, the body given to the exchange, whether the exchange has
    started (it takes no more body then) and what is left of its response. *)
Record Toy := MkToy {
  request_body : list Z;
  response_body : list Z;
  exchange_body : list Z;
  started : bool;
  exchange_response : list Z;
}.
#[local] Instance eta_toy : Eta Toy := fun t =>
  MkToy t.(request_body) t.(response_body) t.(exchange_body) t.(started) t.(exchange_response).
#[local] Instance toy_context : HttpSide Toy := {|
  tcp_dag _ _ := TcpFlow.downstream_ready; set_tcp_dag _ _ t := t;
  tls_dag _ _ := TlsFlow.TlsFlow.default_flow; set_tls_dag _ _ t := t;
  exchange_transport n _ := if n =? 2 then Some HttpExchange.HttpExchange.default_transport else None; set_exchange_transport _ _ t := t;
  read_request_body_next_chunk n := t ← get_state; _ ← modify (fun t => t <| request_body := drop n t.(request_body) |>); mret (take n t.(request_body));
  request_body_eof := t ← get_state; mret (bool_decide (t.(request_body) = []));
  append_response_output_body_bytes l := modify (fun t => t <| response_body := t.(response_body) ++ l |>);
  append_outbound_exchange_body_bytes _ l :=
    t ← get_state;
    if t.(started) then host_error "read-only" else modify (fun t => t <| exchange_body := t.(exchange_body) ++ l |>);
  read_outbound_exchange_response_next_chunk _ n :=
    t ← get_state;
    _ ← modify (fun t => t <| started := true |> <| exchange_response := drop n t.(exchange_response) |>);
    mret (take n t.(exchange_response));
  outbound_exchange_response_eof _ := t ← get_state; mret (bool_decide (t.(exchange_response) = []));
|}.
#[local] Instance toy_exchange : TlsHttpSide Toy := {|
  TlsSessions.exchange_target _ _ := None; TlsSessions.upstream_response_available t := t.(started);
  TlsSessions.outbound_exchange_response_available _ t := t.(started); TlsSessions.websocket_connection_mode _ _ := false;
  TlsSessions.ensure_outbound_websocket_connection_open _ := throw Panics;
  TlsSessions.ensure_outbound_exchange_response_started _ := modify (fun t => t <| started := true |>);
|}.
#[local] Instance toy_side : ProxyHttpSide Toy := {|
  request_is_connect _ := false; downstream_websocket_is_present := mret false; with_downstream_websocket_mut _ := mret tt;
  validate_outbound_websocket_binary_connection _ := mret tt; websocket_negotiated_subprotocol _ := mret None;
  read_websocket_binary_bytes _ := throw Panics; write_websocket_binary_bytes _ _ := throw Panics;
  close_websocket_binary_stream _ := throw Panics; start_native_default_upstream_http_forward_response := mret false;
|}.

(** Two connected sockets, 7 and 8, and a request. *)
Definition proxying (left right : list (Z * arrival)) (body response : list Z) : Proxy (Http := Toy) :=
  let socket := TcpSocket.mark_connected "here" "there" TcpSocket.default_socket in
  let net := TcpCalls.no_net <| tcp_streams := {[ 7 := socket; 8 := socket ]} |>
               <| tcp_stream_ios := {[ 7 := Some (MkStream left [] [] []); 8 := Some (MkStream right [] [] []) ]} |> in
  MkProxy (MkWorld net (MkToy body [] [] false response) None None [] false None None None None false)
    FIRST_PROXY_STREAM_HANDLE ∅ None true [].
(** The program wraps both sockets. *)
Definition wrapped (left right : list (Z * arrival)) : Proxy :=
  ((_ ← stream_from_tcp 7; stream_from_tcp 8) (proxying left right [] [])).2.

Definition hello : list (Z * arrival) := [(0, Data 104 [101; 108; 108; 111]); (9, Eof)].
Lemma wrapped_carries l r : carries (wrapped l r) 4096 (Tcp, 7) /\ carries (wrapped l r) 4097 (Tcp, 8).
Proof. by split. Qed.


(** Both directions in turn. *)
Fixpoint in_turn (n : nat) : list event := match n with O => [] | S n => PollLeft :: PollRight :: in_turn n end.
Definition hey : list (Z * arrival) := [(0, Data 104 [101; 121]); (0, Eof)].
Definition now_hello : list (Z * arrival) := [(0, Data 104 [101; 108; 108; 111]); (0, Eof)].
Lemma forward_relays_witness :
  let '(r, p') := proxy_forward (in_turn 20) 4096 4097 2 (wrapped now_hello hey) in
  r = Ok "closed" /\ exists A B, stream_of (Tcp, 7) p' = Some A /\ stream_of (Tcp, 8) p' = Some B /\
    B.(sent) = [104; 101; 108; 108; 111] /\ A.(sent) = [104; 101; 121].
Proof.
  pose proof (forward_relays 4096 4097 (Tcp, 7) (Tcp, 8) (MkStream now_hello [] [] []) (MkStream hey [] [] []) 2 (in_turn 20) (wrapped now_hello hey)
    ltac:(discriminate) ltac:(lia) (proj1 (wrapped_carries _ _)) (proj2 (wrapped_carries _ _))
    ltac:(vm_compute; reflexivity) ltac:(vm_compute; reflexivity)) as H.
  destruct (proxy_forward (in_turn 20) 4096 4097 2 (wrapped now_hello hey)) as [r p'] eqn:E.
  assert (Er : r = Ok "closed") by (change r with (r, p').1; rewrite <-E; vm_compute; reflexivity).
  rewrite Er in H |- *. split; [reflexivity|]. destruct H as (_ & _ & _ & _ & _ & H). exact H.
Defined.

(** A client asks at once and keeps its connection open for a minute; the server
    answers after a second.  The answer does not reach the client before the
    minute is over. *)
Definition second : N := 1000000000.
Definition asking : list (Z * arrival) := [(0, Data 63 []); (60 * Z.of_N second, Eof)].
Definition answering : list (Z * arrival) := [(Z.of_N second, Data 33 [])].
Definition written_to (c : carrier) (p : Proxy (Http := Toy)) : option (list Z) := sent <$> stream_of c p.
Theorem answer_held_back :
  let p := wrapped asking answering in
  let at_time t := (proxy_forward (in_turn 20 ++ [Tick (2 * second)] ++ in_turn 20 ++ [Tick t] ++ in_turn 20) 4096 4097 64 p).2 in
  written_to (Tcp, 8) (at_time 0%N) = Some [63] /\
  written_to (Tcp, 7) (at_time (57 * second)%N) = Some [] /\ written_to (Tcp, 7) (at_time (58 * second)%N) = Some [33].
Proof. split_and!; vm_compute; reflexivity. Qed.

(** The two sides of a relay are not alike.  Each direction runs until it waits or
    yields, the left one first: with the exchange on the left its request is sent
    before the body was passed on, and the relay fails. *)
Theorem exchange_on_the_left :
  let p := (stream_exchange 2 (proxying [] [] [1; 2; 3] [4; 5])).2 in
  let downstream := RESERVED_HTTP_DOWNSTREAM_PROXY_STREAM_HANDLE in
  let events := [PollLeft; PollLeft; PollLeft; PollRight; PollRight; PollRight] ++ in_turn 20 in
  let side := fun r : result ended string * Proxy => (r.1, exchange_body r.2.(transport).(http), response_body r.2.(transport).(http)) in
  side (proxy_forward events downstream 4096 64 p) = (Ok "closed", [1; 2; 3], [4; 5]) /\
  side (proxy_forward events 4096 downstream 64 p) = (Err (Error (HostError "read-only")), [], [4; 5]).
Proof. split; vm_compute; reflexivity. Qed.

End ProxyCalls.
