(* ===== verification/VmRunner.v ===== *)
(** Model of [src/runtime/vm_runner.rs]: running a program on a vm that is new
    or was used before, in slices that a budget bounds, with the host context of
    its request in place; and of the slot of [src/abi_impl/mod.rs] through which
    host calls find that context.  The vm crate is a parameter ([VmCrate]). *)

From S2P Require Import Prelude.

Module VmRunner.

Inductive VmExecutionMode := Async | Threading.

Inductive VmInterruptConfig :=
| NoInterrupt
| Fuel (fuel_per_yield check_interval : Z)
| Epoch (ticks_per_slice check_interval : Z).

Record VmExecutionConfig := MkConfig {
  interrupt : VmInterruptConfig;
  execution_mode : VmExecutionMode;
  jit_enabled : bool;
  drop_contract_events_enabled : bool;
}.

Record VmDebugInvocation := MkDebug { attach_debugger : bool; force_threading : bool }.

Inductive VmExecutionError :=
| HostRegistration (e : VmError)
| Vm (e : VmError).

(** ** The vm crate *)

Inductive VmYieldReason := FuelExhausted | EpochReached | OtherReason.
Inductive VmStatus := Halted | Yielded | Waiting (op_id : Z).

(** The context host calls find: the request's, and its pending operations. *)
Record ActiveEdgeHostContext (Ctx Ops : Type) := MkActive { vm_context : Ctx; async_ops : Ops }.
Arguments MkActive {Ctx Ops}. Arguments vm_context {Ctx Ops}. Arguments async_ops {Ctx Ops}.

(** [V]: a vm; [X]: everything else a program can change. *)
Class VmCrate (V X Prog Ctx Ops : Type) := {
  new_shared : Prog -> V;
  set_drop_contract_events_enabled : bool -> V -> V;
  disable_jit : V -> V;                        (** [set_jit_config] with [enabled = false] *)
  set_async_bridge : Ops -> V -> result VmError unit * V;
  clear_async_bridge : V -> result VmError unit * V;
  clear_runtime_print_sink : V -> V;
  register_host_modules : Ctx -> Ops -> V -> result VmError unit * V;
  reset_for_reuse : V -> result VmError unit * V;
  poll_reset_for_reuse : V -> option (result VmError unit) * V;   (** [None]: pending *)
  clear_fuel : V -> V;
  set_fuel : Z -> V -> V;
  get_fuel : V -> option Z;
  recharge : Z -> V -> result VmError unit * V;
  set_fuel_check_interval : Z -> V -> result VmError unit * V;
  clear_epoch_deadline : V -> V;
  set_epoch_deadline : Z -> V -> result VmError unit * V;
  set_epoch_check_interval : Z -> V -> result VmError unit * V;
  last_yield_reason : V -> option VmYieldReason;
  (** what [run] finds in the slot of its thread *)
  run : option (ActiveEdgeHostContext Ctx Ops) -> V -> X -> result VmError VmStatus * V * X;
  run_vm_with_optional_debugger : option (ActiveEdgeHostContext Ctx Ops) -> Ctx -> V -> X -> result VmError VmStatus * V * X;
  await_waiting_host_op : V -> X -> result VmError unit * V * X;
}.

(** ** The pool *)

Definition VM_POOL_MAX_PER_BUCKET : nat := 256.

Record VmPoolBuckets (V : Type) := MkBuckets { baseline : list V; jit_disabled : list V }.
Arguments MkBuckets {V}. Arguments baseline {V}. Arguments jit_disabled {V}.
#[export] Instance eta_buckets V : Eta (VmPoolBuckets V) := fun b => MkBuckets b.(baseline) b.(jit_disabled).

(** A key is whether the jit is enabled; a bucket's last vm is at the head. *)
Definition bucket {V} (key : bool) (b : VmPoolBuckets V) : list V := if key then b.(baseline) else b.(jit_disabled).
Definition set_bucket {V} (key : bool) (l : list V) (b : VmPoolBuckets V) : VmPoolBuckets V :=
  if key then b <| baseline := l |> else b <| jit_disabled := l |>.

Definition take {V} (key : bool) (b : VmPoolBuckets V) : option V * VmPoolBuckets V :=
  match bucket key b with
  | [] => (None, b)
  | vm :: l => (Some vm, set_bucket key l b)
  end.
Definition put {V} (key : bool) (vm : V) (b : VmPoolBuckets V) : VmPoolBuckets V :=
  if (length (bucket key b) <? VM_POOL_MAX_PER_BUCKET)%nat then set_bucket key (vm :: bucket key b) b else b.

(** ** Running *)

Record VmRunnerStore (V Ctx Ops : Type) := MkStore { vm : V; data : ActiveEdgeHostContext Ctx Ops }.
Arguments MkStore {V Ctx Ops}. Arguments vm {V Ctx Ops}. Arguments data {V Ctx Ops}.
#[export] Instance eta_store V Ctx Ops : Eta (VmRunnerStore V Ctx Ops) := fun s => MkStore s.(vm) s.(data).

Record AcquiredVmRunnerStore (V Ctx Ops : Type) := MkAcquired { vm_store : VmRunnerStore V Ctx Ops; pool_key : option bool }.
Arguments MkAcquired {V Ctx Ops}. Arguments vm_store {V Ctx Ops}. Arguments pool_key {V Ctx Ops}.

Inductive ActiveVmInterrupt :=
| ActiveNone
| ActiveFuel (fuel_per_yield : Z)
| ActiveEpoch (ticks_per_slice : Z).

(** The counters of [VmExecutionProfile]; the times it keeps are not modelled. *)
Record VmExecutionProfile (V Ctx Ops : Type) := MkProfile {
  store : VmRunnerStore V Ctx Ops;
  waiting_host_count : Z;
  vm_yield_count : Z;
  vm_fuel_recharge_count : Z;
}.
Arguments MkProfile {V Ctx Ops}. Arguments store {V Ctx Ops}. Arguments waiting_host_count {V Ctx Ops}.
Arguments vm_yield_count {V Ctx Ops}. Arguments vm_fuel_recharge_count {V Ctx Ops}.
#[export] Instance eta_profile V Ctx Ops : Eta (VmExecutionProfile V Ctx Ops) := fun p =>
  MkProfile p.(store) p.(waiting_host_count) p.(vm_yield_count) p.(vm_fuel_recharge_count).

Definition U32_MAX : Z := 4294967295.
(** [u32::saturating_add(1)] *)
Definition saturating_succ (n : Z) : Z := Z.min (n + 1) U32_MAX.

Section runner.
Context {V X Prog Ctx Ops : Type} `{HV : VmCrate V X Prog Ctx Ops}.
Abbreviation Store := (VmRunnerStore V Ctx Ops).
Abbreviation Active := (ActiveEdgeHostContext Ctx Ops).
Abbreviation Profile := (VmExecutionProfile V Ctx Ops).

(** [.map_err(VmExecutionError::Vm)?] of a call on the vm. *)
Definition vm_call (r : result VmError unit * V) : result VmExecutionError V :=
  match r with (Ok _, v) => Ok v | (Err e, _) => Err (Vm e) end.

Definition new_vm_runner_store (program : Prog) (ctx : Ctx) (ops : Ops) (jit_enabled drop_contract_events_enabled : bool)
    : result VmExecutionError Store :=
  let v := set_drop_contract_events_enabled drop_contract_events_enabled (new_shared program) in
  let v := if jit_enabled then v else disable_jit v in
  v ← vm_call (set_async_bridge ops v);
  Ok (MkStore v (MkActive ctx ops)).

Definition register_host_modules_from_store (s : Store) : result VmExecutionError Store :=
  match register_host_modules s.(data).(vm_context) s.(data).(async_ops) s.(vm) with
  | (Ok _, v) => Ok (s <| vm := v |>)
  | (Err e, _) => Err (HostRegistration e)
  end.

(** [ops] are the new operations of this execution.  A failure drops the vm. *)
Definition acquire_vm_runner_store (program : Prog) (ctx : Ctx) (ops : Ops)
    (jit_enabled drop_contract_events_enabled pooling_enabled : bool) (b : VmPoolBuckets V)
    : result VmExecutionError (AcquiredVmRunnerStore V Ctx Ops) * VmPoolBuckets V :=
  let pool_key := if pooling_enabled then Some jit_enabled else None in
  let fresh b :=
    (s ← new_vm_runner_store program ctx ops jit_enabled drop_contract_events_enabled;
     s ← register_host_modules_from_store s;
     Ok (MkAcquired s pool_key), b) in
  match pool_key with
  | None => fresh b
  | Some key =>
      match take key b with
      | (None, b) => fresh b
      | (Some v, b) =>
          (v ← vm_call (set_async_bridge ops (set_drop_contract_events_enabled drop_contract_events_enabled v));
           Ok (MkAcquired (MkStore v (MkActive ctx ops)) (Some key)), b)
      end
  end.

Definition recycle_vm_runner_store (key : bool) (s : Store) (b : VmPoolBuckets V) : VmPoolBuckets V :=
  match reset_for_reuse s.(vm) with
  | (Err _, _) => b
  | (Ok _, v) =>
      match poll_reset_for_reuse v with
      | (Some (Ok _), v) =>
          match clear_async_bridge v with
          | (Err _, _) => b
          | (Ok _, v) => put key (clear_runtime_print_sink v) b
          end
      | _ => b
      end
  end.

Definition configure_vm_interrupt (s : Store) (c : VmExecutionConfig) : result VmExecutionError (ActiveVmInterrupt * Store) :=
  match c.(interrupt) with
  | NoInterrupt => Ok (ActiveNone, s <| vm := clear_epoch_deadline (clear_fuel s.(vm)) |>)
  | Fuel fuel_per_yield check_interval =>
      v ← vm_call (set_fuel_check_interval check_interval s.(vm));
      Ok (ActiveFuel fuel_per_yield, s <| vm := set_fuel fuel_per_yield v |>)
  | Epoch ticks_per_slice check_interval =>
      v ← vm_call (set_epoch_check_interval check_interval s.(vm));
      Ok (ActiveEpoch ticks_per_slice, s <| vm := v |>)
  end.

Definition arm_epoch_interrupt_if_enabled (s : Store) (i : ActiveVmInterrupt) (debugger_attached : bool)
    : result VmExecutionError Store :=
  match i with
  | ActiveEpoch ticks_per_slice =>
      if debugger_attached then Ok s
      else v ← vm_call (set_epoch_deadline ticks_per_slice s.(vm)); Ok (s <| vm := v |>)
  | _ => Ok s
  end.

(** Whether the fuel was recharged. *)
Definition handle_interrupt_yield (s : Store) (i : ActiveVmInterrupt) : result VmExecutionError (bool * Store) :=
  match i, last_yield_reason s.(vm) with
  | ActiveFuel fuel_per_yield, Some FuelExhausted =>
      if bool_decide (get_fuel s.(vm) = Some 0)
      then v ← vm_call (recharge fuel_per_yield s.(vm)); Ok (true, s <| vm := v |>)
      else Ok (false, s)
  | _, _ => Ok (false, s)
  end.

(** *** The slot of a thread *)

(** [enter_edge_host_context]: the slot, and what its guard puts back. *)
Definition enter_edge_host_context (a : Active) (slot : option Active) : option Active * option Active := (Some a, slot).
Definition drop_guard (previous : option Active) : option Active := previous.

(** One slice of a program: armed, run with its context in the slot of the
    thread, which has its own back afterwards. *)
Definition run_slice (i : ActiveVmInterrupt) (debug : VmDebugInvocation) (slot : option Active) (p : Profile) (x : X)
    : result VmExecutionError VmStatus * option Active * Profile * X :=
  match arm_epoch_interrupt_if_enabled p.(store) i debug.(attach_debugger) with
  | Err e => (Err e, slot, p, x)
  | Ok s =>
      let '(slot, guard) := enter_edge_host_context s.(data) slot in
      let '(r, v, x) :=
        if debug.(attach_debugger) then run_vm_with_optional_debugger slot s.(data).(vm_context) s.(vm) x
        else run slot s.(vm) x in
      let slot := drop_guard guard in
      (match r with Ok st => Ok st | Err e => Err (Vm e) end, slot, p <| store := s <| vm := v |> |>, x)
  end.

(** What a status leads to: [Ok true] when the program has halted. *)
Definition after_slice (i : ActiveVmInterrupt) (st : VmStatus) (p : Profile) (x : X)
    : result VmExecutionError (bool * Profile) * X :=
  match st with
  | Halted => (Ok (true, p), x)
  | Yielded =>
      let p := p <| vm_yield_count := saturating_succ p.(vm_yield_count) |> in
      match handle_interrupt_yield p.(store) i with
      | Err e => (Err e, x)
      | Ok (recharged, s) =>
          let p := p <| store := s |> in
          (Ok (false, if recharged then p <| vm_fuel_recharge_count := saturating_succ p.(vm_fuel_recharge_count) |> else p), x)
      end
  | Waiting _ =>
      let '(r, v, x) := await_waiting_host_op p.(store).(vm) x in
      match r with
      | Err e => (Err (Vm e), x)
      | Ok _ => (Ok (false, p <| store := p.(store) <| vm := v |> |>
                              <| waiting_host_count := saturating_succ p.(waiting_host_count) |>), x)
      end
  end.

(** The loop of [run_vm_async] and [run_vm_threading].  [slots]: what the slot
    of the thread holds at the start of each slice, with what other tasks did to
    the world since; [None]: the program has not ended when they have. *)
Fixpoint run_loop (i : ActiveVmInterrupt) (debug : VmDebugInvocation) (slots : list (option Active * (X -> X))) (p : Profile) (x : X)
    : option (result VmExecutionError Profile * X) :=
  match slots with
  | [] => None
  | (slot, others) :: slots =>
      match run_slice i debug slot p (others x) with
      | (Err e, _, _, x) => Some (Err e, x)
      | (Ok st, _, p, x) =>
          match after_slice i st p x with
          | (Err e, x) => Some (Err e, x)
          | (Ok (true, p), x) => Some (Ok p, x)
          | (Ok (false, p), x) => run_loop i debug slots p x
          end
      end
  end.

Definition default_with_store (s : Store) : Profile := MkProfile s 0 0 0.

Definition run_vm (s : Store) (debug : VmDebugInvocation) (c : VmExecutionConfig) (slots : list (option Active * (X -> X))) (x : X)
    : option (result VmExecutionError Profile * X) :=
  match configure_vm_interrupt s c with
  | Err e => Some (Err e, x)
  | Ok (i, s) => run_loop i debug slots (default_with_store s) x
  end.

(** The two modes run the same loop: one between awaits, one on a thread of its
    own, whose panic would be an error of the vm. *)
Definition run_vm_async := run_vm.
Definition run_vm_threading := run_vm.
Definition execution_mode_of (debug : VmDebugInvocation) (c : VmExecutionConfig) : VmExecutionMode :=
  if debug.(force_threading) then Threading else c.(execution_mode).

(** [execute_vm_with_context]; [pool_meanwhile]: what other executions do to the
    pool while this one runs.  A program that ends with an error takes its vm
    with it. *)
Definition execute_vm_with_context (program : Prog) (ctx : Ctx) (ops : Ops) (debug : VmDebugInvocation) (c : VmExecutionConfig)
    (pool_meanwhile : VmPoolBuckets V -> VmPoolBuckets V) (slots : list (option Active * (X -> X))) (b : VmPoolBuckets V) (x : X)
    : option (result VmExecutionError unit * VmPoolBuckets V * X) :=
  match acquire_vm_runner_store program ctx ops c.(jit_enabled) c.(drop_contract_events_enabled) (negb debug.(attach_debugger)) b with
  | (Err e, b) => Some (Err e, b, x)
  | (Ok (MkAcquired s key), b) =>
      '(r, x) ← match execution_mode_of debug c with
                | Async => run_vm_async s debug c slots x
                | Threading => run_vm_threading s debug c slots x
                end;
      let b := pool_meanwhile b in
      Some match r with
           | Err e => (Err e, b, x)
           | Ok p => (Ok tt, match key with Some key => recycle_vm_runner_store key p.(store) b | None => b end, x)
           end
  end.
End runner.

(** ** What the vm crate promises *)

(** What there is to see of a vm besides its budget. *)
Record View (Prog Ops Mem : Type) := MkView {
  program : Prog;
  memory : Mem;             (** globals, stack, the scope of the run *)
  bridge : option Ops;      (** the operations it waits on *)
  registered : bool;        (** the host modules *)
  jit : bool;
  drop_events : bool;
  print_sink : bool;
}.
Arguments MkView {Prog Ops Mem}. Arguments program {Prog Ops Mem}. Arguments memory {Prog Ops Mem}.
Arguments bridge {Prog Ops Mem}. Arguments registered {Prog Ops Mem}. Arguments jit {Prog Ops Mem}.
Arguments drop_events {Prog Ops Mem}. Arguments print_sink {Prog Ops Mem}.
#[export] Instance eta_view Prog Ops Mem : Eta (View Prog Ops Mem) := fun w =>
  MkView w.(program) w.(memory) w.(bridge) w.(registered) w.(jit) w.(drop_events) w.(print_sink).

(** Running changes the memory and the sink alone, a reset brings the memory of
    a new vm back, and setting a budget changes none of this. *)
Class VmLaws V X Prog Ctx Ops Mem `{VmCrate V X Prog Ctx Ops} := {
  view : V -> View Prog Ops Mem;
  initial : Prog -> Mem;
  default_jit : bool;
  default_drop : bool;
  view_new p : view (new_shared p) = MkView p (initial p) None false default_jit default_drop false;
  view_set_drop b v : view (set_drop_contract_events_enabled b v) = view v <| drop_events := b |>;
  view_disable_jit v : view (disable_jit v) = view v <| jit := false |>;
  view_set_bridge ops v v' : set_async_bridge ops v = (Ok tt, v') -> view v' = view v <| bridge := Some ops |>;
  view_clear_bridge v v' : clear_async_bridge v = (Ok tt, v') -> view v' = view v <| bridge := None |>;
  view_clear_sink v : view (clear_runtime_print_sink v) = view v <| print_sink := false |>;
  view_register ctx ops v v' : register_host_modules ctx ops v = (Ok tt, v') -> view v' = view v <| registered := true |>;
  view_reset v v1 v2 : reset_for_reuse v = (Ok tt, v1) -> poll_reset_for_reuse v1 = (Some (Ok tt), v2) ->
    view v2 = view v <| memory := initial (program (view v)) |>;
  view_clear_fuel v : view (clear_fuel v) = view v;
  view_set_fuel n v : view (set_fuel n v) = view v;
  view_recharge n v v' : recharge n v = (Ok tt, v') -> view v' = view v;
  view_fuel_interval n v v' : set_fuel_check_interval n v = (Ok tt, v') -> view v' = view v;
  view_clear_epoch v : view (clear_epoch_deadline v) = view v;
  view_set_epoch n v v' : set_epoch_deadline n v = (Ok tt, v') -> view v' = view v;
  view_epoch_interval n v v' : set_epoch_check_interval n v = (Ok tt, v') -> view v' = view v;
  view_run slot v x : exists m k, view (run slot v x).1.2 = view v <| memory := m |> <| print_sink := k |>;
  view_debug slot c v x : exists m k, view (run_vm_with_optional_debugger slot c v x).1.2 = view v <| memory := m |> <| print_sink := k |>;
  view_await v x : exists m k, view (await_waiting_host_op v x).1.2 = view v <| memory := m |> <| print_sink := k |>;
}.

(** ** Executions that share a pool *)

Section isolation.
Context {V X Prog Ctx Ops Mem : Type} `{HL : VmLaws V X Prog Ctx Ops Mem}.
Context (prog : Prog).
Abbreviation Store := (VmRunnerStore V Ctx Ops).
Abbreviation Active := (ActiveEdgeHostContext Ctx Ops).
Abbreviation Profile := (VmExecutionProfile V Ctx Ops).

Record Execution := MkExecution {
  profile : Profile;
  key : option bool;
  active_interrupt : ActiveVmInterrupt;
  debug : VmDebugInvocation;
}.

(** The executions of one program, by id; [world]: everything else. *)
Record System := MkSystem {
  pool : VmPoolBuckets V;
  executions : gmap Z Execution;
  world : X;
}.

(** One step of [execute_vm_with_context], or of the rest of the world: the
    executions interleave between their slices. *)
Inductive step : System -> System -> Prop :=
| step_begin b es x id ctx ops dbg c a b' i s :
    es !! id = None ->
    acquire_vm_runner_store prog ctx ops c.(jit_enabled) c.(drop_contract_events_enabled) (negb dbg.(attach_debugger)) b = (Ok a, b') ->
    configure_vm_interrupt a.(vm_store) c = Ok (i, s) ->
    step (MkSystem b es x) (MkSystem b' (<[id := MkExecution (default_with_store s) a.(pool_key) i dbg]> es) x)
| step_refused b es x ctx ops dbg c r b' :
    acquire_vm_runner_store prog ctx ops c.(jit_enabled) c.(drop_contract_events_enabled) (negb dbg.(attach_debugger)) b = (r, b') ->
    step (MkSystem b es x) (MkSystem b' es x)
| step_slice b es x id e slot slot' st p x' p' x'' :
    es !! id = Some e ->
    run_slice e.(active_interrupt) e.(debug) slot e.(profile) x = (Ok st, slot', p, x') ->
    after_slice e.(active_interrupt) st p x' = (Ok (false, p'), x'') ->
    step (MkSystem b es x) (MkSystem b (<[id := MkExecution p' e.(key) e.(active_interrupt) e.(debug)]> es) x'')
| step_halt b es x id e slot slot' st p x' p' x'' :
    es !! id = Some e ->
    run_slice e.(active_interrupt) e.(debug) slot e.(profile) x = (Ok st, slot', p, x') ->
    after_slice e.(active_interrupt) st p x' = (Ok (true, p'), x'') ->
    step (MkSystem b es x)
      (MkSystem (match e.(key) with Some k => recycle_vm_runner_store k p'.(store) b | None => b end) (delete id es) x'')
| step_gone b es x id x' :           (** failed, or dropped with its request *)
    step (MkSystem b es x) (MkSystem b (delete id es) x')
| step_world b es x x' : step (MkSystem b es x) (MkSystem b es x').

Definition start : X -> System := MkSystem (MkBuckets [] []) ∅.
Definition reachable (s : System) : Prop := exists x, rtc step (start x) s.

(** A vm as the pool keeps it. *)
Definition idle (k : bool) (v : V) : Prop :=
  exists drop, view v = MkView prog (initial prog) None true (k && default_jit) drop false.
Definition pool_ok (b : VmPoolBuckets V) : Prop :=
  forall k, Forall (idle k) (bucket k b) /\ (length (bucket k b) <= VM_POOL_MAX_PER_BUCKET)%nat.

(** A vm an execution runs. *)
Definition bound (s : Store) (k : option bool) : Prop :=
  let w := view s.(vm) in
  w.(program) = prog /\ w.(bridge) = Some s.(data).(async_ops) /\ w.(registered) = true
  /\ match k with Some k => w.(jit) = k && default_jit | None => True end.

(** A vm that has not run yet. *)
Definition as_new (ops : Ops) (jit drop : bool) : View Prog Ops Mem :=
  MkView prog (initial prog) (Some ops) true (jit && default_jit) drop false.

Lemma vm_call_Ok r (v : V) : vm_call r = Ok v -> r = (Ok tt, v).
Proof. destruct r as [[[]|e] v']; [by intros [= ->]|done]. Qed.

Lemma bucket_set (k k' : bool) (l : list V) b : bucket k' (set_bucket k l b) = if bool_decide (k = k') then l else bucket k' b.
Proof. by destruct k, k'. Qed.

Lemma take_ok k b r b' : pool_ok b -> take k b = (r, b') -> pool_ok b' /\ forall v, r = Some v -> idle k v.
Proof.
  intros Hb. unfold take. destruct (bucket k b) as [|v l] eqn:Hk; intros [= <- <-]; [done|].
  destruct (Hb k) as [Hall Hlen]. rewrite Hk in Hall, Hlen. apply Forall_cons in Hall as [Hv Hl].
  split; [|by intros ? [= <-]]. intros k'. rewrite bucket_set. case_bool_decide; [subst k'|apply Hb]. split; [done|cbn in Hlen; lia].
Qed.

Lemma put_ok k v b : pool_ok b -> idle k v -> pool_ok (put k v b).
Proof.
  intros Hb Hv. unfold put. destruct (Nat.ltb_spec (length (bucket k b)) VM_POOL_MAX_PER_BUCKET); [|done].
  intros k'. rewrite bucket_set. case_bool_decide; [subst k'|apply Hb]. split; [constructor; [done|apply Hb]|cbn; lia].
Qed.

Lemma acquired_as_new ctx ops jit drop pooling b a b' :
  pool_ok b -> acquire_vm_runner_store prog ctx ops jit drop pooling b = (Ok a, b') ->
  view a.(vm_store).(vm) = as_new ops jit drop /\ a.(vm_store).(data) = MkActive ctx ops
  /\ a.(pool_key) = (if pooling then Some jit else None) /\ pool_ok b'.
Proof.
  intros Hb. unfold acquire_vm_runner_store. set (key := if pooling then Some jit else None).
  assert (Hfresh : forall b1, pool_ok b1 ->
    (s ← new_vm_runner_store prog ctx ops jit drop; s ← register_host_modules_from_store s; Ok (MkAcquired s key), b1) = (Ok a, b') ->
    view a.(vm_store).(vm) = as_new ops jit drop /\ a.(vm_store).(data) = MkActive ctx ops /\ a.(pool_key) = key /\ pool_ok b').
  { intros b1 Hb1 [= Hf <-]. revert Hf. unfold new_vm_runner_store.
    destruct (vm_call _) as [v|e] eqn:Hv; [|done]. apply vm_call_Ok, view_set_bridge in Hv. cbn.
    unfold register_host_modules_from_store. cbn. destruct (register_host_modules ctx ops v) as [[[]|e] v'] eqn:Hr; [|done].
    apply view_register in Hr. intros [= <-]. cbn. rewrite Hr, Hv. split_and!; [|done..].
    destruct jit; rewrite ?view_disable_jit, view_set_drop, view_new; done. }
  destruct key as [k|] eqn:Hkey; [|by apply Hfresh].
  assert (k = jit) as -> by (destruct pooling; [by injection Hkey|done]).
  destruct (take jit b) as [[v|] b1] eqn:Ht; destruct (take_ok _ _ _ _ Hb Ht) as [Hb1 Hv]; [|by apply Hfresh].
  destruct (Hv v eq_refl) as [d Hview]. destruct (vm_call _) as [v'|e] eqn:Hc; [|done]. intros [= <- <-]. cbn.
  apply vm_call_Ok, view_set_bridge in Hc. rewrite Hc, view_set_drop, Hview. done.
Qed.

Lemma acquire_pool_ok ctx ops jit drop pooling b r b' :
  pool_ok b -> acquire_vm_runner_store prog ctx ops jit drop pooling b = (r, b') -> pool_ok b'.
Proof.
  intros Hb. unfold acquire_vm_runner_store. destruct pooling; [|by intros [= _ <-]].
  destruct (take jit b) as [[v|] b1] eqn:Ht; destruct (take_ok _ _ _ _ Hb Ht) as [Hb1 _]; by intros [= _ <-].
Qed.

Lemma recycled_ok k s b : pool_ok b -> bound s (Some k) -> pool_ok (recycle_vm_runner_store k s b).
Proof.
  intros Hb (Hp & _ & Hr & Hj). unfold recycle_vm_runner_store.
  destruct (reset_for_reuse (vm s)) as [[[]|e] v1] eqn:H1; [|done].
  destruct (poll_reset_for_reuse v1) as [[[[]|e]|] v2] eqn:H2; [|done..].
  destruct (clear_async_bridge v2) as [[[]|e] v3] eqn:H3; [|done].
  apply put_ok; [done|]. exists (drop_events (view (vm s))).
  rewrite view_clear_sink, (view_clear_bridge _ _ H3), (view_reset _ _ _ H1 H2).
  destruct (view (vm s)). cbn in *. by subst.
Qed.

(** *** An execution keeps its vm bound *)

Definition same_binding (v v' : V) : Prop := exists m k, view v' = view v <| memory := m |> <| print_sink := k |>.
Lemma same_view v v' : view v' = view v -> same_binding v v'.
Proof. intros Hv. exists (memory (view v)), (print_sink (view v)). rewrite Hv. by destruct (view v). Qed.
Lemma bound_same s v k : bound s k -> same_binding s.(vm) v -> bound (s <| vm := v |>) k.
Proof. intros Hb (m & n & Hv). unfold bound in *. cbn. rewrite Hv. exact Hb. Qed.

Lemma configured_bound s c i s' k : bound s k -> configure_vm_interrupt s c = Ok (i, s') -> bound s' k /\ data s' = data s.
Proof.
  intros Hb. unfold configure_vm_interrupt. destruct (interrupt c) as [|n m|n m].
  - intros [= <- <-]. split; [|done]. apply bound_same; [done|]. apply same_view. by rewrite view_clear_epoch, view_clear_fuel.
  - destruct (vm_call _) as [v|e] eqn:Hv; [|done]. apply vm_call_Ok, view_fuel_interval in Hv. intros [= <- <-].
    split; [|done]. apply bound_same; [done|]. apply same_view. by rewrite view_set_fuel.
  - destruct (vm_call _) as [v|e] eqn:Hv; [|done]. apply vm_call_Ok, view_epoch_interval in Hv. intros [= <- <-].
    split; [|done]. apply bound_same; [done|]. by apply same_view.
Qed.

Lemma armed_bound s i d s' k : bound s k -> arm_epoch_interrupt_if_enabled s i d = Ok s' -> bound s' k /\ data s' = data s.
Proof.
  intros Hb. unfold arm_epoch_interrupt_if_enabled. destruct i as [|n|n]; [by intros [= <-]..|].
  destruct d; [by intros [= <-]|]. destruct (vm_call _) as [v|e] eqn:Hv; [|done]. apply vm_call_Ok, view_set_epoch in Hv.
  intros [= <-]. split; [|done]. apply bound_same; [done|]. by apply same_view.
Qed.

Lemma slice_bound i d slot p x r slot' p' x' k :
  bound p.(store) k -> run_slice i d slot p x = (r, slot', p', x') -> bound p'.(store) k /\ data p'.(store) = data p.(store) /\ slot' = slot.
Proof.
  intros Hb. unfold run_slice. destruct (arm_epoch_interrupt_if_enabled _ _ _) as [s|e] eqn:Ha; [|by intros [= <- <- <- <-]].
  destruct (armed_bound _ _ _ _ _ Hb Ha) as [Hs Hd]. cbn.
  destruct (attach_debugger d).
  - pose proof (view_debug (Some (data s)) (vm_context (data s)) (vm s) x) as Hv.
    destruct (run_vm_with_optional_debugger _ _ _ x) as [[r1 v] x1]. intros [= <- <- <- <-]. cbn. split; [by apply bound_same|done].
  - pose proof (view_run (Some (data s)) (vm s) x) as Hv.
    destruct (run _ _ x) as [[r1 v] x1]. intros [= <- <- <- <-]. cbn. split; [by apply bound_same|done].
Qed.

Lemma yield_bound s i r s' k : bound s k -> handle_interrupt_yield s i = Ok (r, s') -> bound s' k /\ data s' = data s.
Proof.
  intros Hb. unfold handle_interrupt_yield. destruct i as [|n|n], (last_yield_reason (vm s)) as [[]|]; try by intros [= <- <-].
  case_bool_decide; [|by intros [= <- <-]]. destruct (vm_call _) as [v|e] eqn:Hv; [|done]. apply vm_call_Ok, view_recharge in Hv.
  intros [= <- <-]. split; [|done]. apply bound_same; [done|]. by apply same_view.
Qed.

Lemma after_bound i st p x h p' x' k :
  bound p.(store) k -> after_slice i st p x = (Ok (h, p'), x') -> bound p'.(store) k /\ data p'.(store) = data p.(store).
Proof.
  intros Hb. unfold after_slice. destruct st as [| |op].
  - by intros [= <- <- <-].
  - cbn. destruct (handle_interrupt_yield (store p) i) as [[r s]|e] eqn:Hy; [|done]. destruct (yield_bound _ _ _ _ _ Hb Hy).
    destruct r; by intros [= <- <- <-].
  - pose proof (view_await (vm (store p)) x) as Hv. destruct (await_waiting_host_op (vm (store p)) x) as [[[[]|e] v] x1]; [|done].
    intros [= <- <- <-]. cbn. split; [by apply bound_same|done].
Qed.

Definition system_ok (s : System) : Prop :=
  pool_ok s.(pool) /\ map_Forall (fun _ e => bound e.(profile).(store) e.(key)) s.(executions).

Lemma system_step_ok s s' : step s s' -> system_ok s -> system_ok s'.
Proof.
  intros Hs [Hp He]. destruct Hs as [b es x id ctx ops dbg c a b' i s Hid Ha Hc|b es x ctx ops dbg c r b' Ha
    |b es x id e slot slot' st p x' p' x'' Hid Hr Haf|b es x id e slot slot' st p x' p' x'' Hid Hr Haf|b es x id x'|b es x x'];
    unfold system_ok in *; cbn [pool executions] in *.
  - destruct (acquired_as_new _ _ _ _ _ _ _ _ Hp Ha) as (Hv & Hd & Hk & Hb'). split; [done|]. apply map_Forall_insert_2; [|done]. cbn.
    eapply configured_bound; [|exact Hc]. unfold bound. rewrite Hv, Hd, Hk. cbn. split_and!; [done..|by destruct (negb _)].
  - split; [by eapply acquire_pool_ok|done].
  - split; [done|]. apply map_Forall_insert_2; [|done]. cbn. eapply after_bound; [|exact Haf].
    eapply slice_bound; [|exact Hr]. by apply (He id).
  - assert (Hb : bound (store p') (key e)).
    { eapply after_bound; [|exact Haf]. eapply slice_bound; [|exact Hr]. by apply (He id). }
    split; [destruct (key e) as [k|]; [by apply recycled_ok|done]|]. by apply map_Forall_delete.
  - split; [done|]. by apply map_Forall_delete.
  - done.
Qed.

Lemma reachable_ok s : reachable s -> system_ok s.
Proof.
  intros [x Hs]. remember (start x) as s0. assert (Hok : system_ok s0).
  { subst s0. split; [|by apply map_Forall_empty]. intros []; (split; [constructor|cbn; lia]). }
  clear Heqs0. induction Hs as [|s1 s2 s3 H12 _ IH]; [done|]. apply IH. by eapply system_step_ok.
Qed.

End isolation.
Arguments MkSystem {V X Ctx Ops}. Arguments MkExecution {V Ctx Ops}.

(** ** Slices *)

(** Running burns fuel and never makes any. *)
Class FuelLaws V X Prog Ctx Ops `{VmCrate V X Prog Ctx Ops} : Prop := {
  get_set_fuel n v : get_fuel (set_fuel n v) = Some n;
  get_recharge n v v' : get_fuel v = Some 0 -> recharge n v = (Ok tt, v') -> get_fuel v' = Some n;
  get_run slot v x f : get_fuel v = Some f -> 0 <= f -> exists f', get_fuel (run slot v x).1.2 = Some f' /\ 0 <= f' <= f;
  get_debug slot c v x f : get_fuel v = Some f -> 0 <= f ->
    exists f', get_fuel (run_vm_with_optional_debugger slot c v x).1.2 = Some f' /\ 0 <= f' <= f;
  get_await v x : get_fuel (await_waiting_host_op v x).1.2 = get_fuel v;
}.

Section slices.
Context {V X Prog Ctx Ops : Type} `{HF : FuelLaws V X Prog Ctx Ops}.
Abbreviation Profile := (VmExecutionProfile V Ctx Ops).
Abbreviation fuel p := (get_fuel p.(store).(vm)).

(** What the loop holds at the start of a slice, whatever happens between
    slices. *)
Inductive during (i : ActiveVmInterrupt) (d : VmDebugInvocation) (p0 : Profile) : Profile -> Prop :=
| during_start : during i d p0 p0
| during_next p slot x st slot' p' x' x1 p'' x'' :
    during i d p0 p -> run_slice i d slot p x = (Ok st, slot', p', x') -> after_slice i st p' x1 = (Ok (false, p''), x'') ->
    during i d p0 p''.

Definition within (n : Z) (p : Profile) : Prop := exists f, fuel p = Some f /\ 0 <= f <= n.

Lemma slice_burns n d slot (p : Profile) x r slot' p' x' :
  within n p -> run_slice (ActiveFuel n) d slot p x = (r, slot', p', x') ->
  exists f f', fuel p = Some f /\ fuel p' = Some f' /\ 0 <= f' <= f /\ f <= n.
Proof.
  intros (f & Hf & Hle). unfold run_slice. cbn. destruct (attach_debugger d).
  - destruct (get_debug (Some (data (store p))) (vm_context (data (store p))) (vm (store p)) x f Hf ltac:(lia)) as (f' & Hf' & Hle').
    destruct (run_vm_with_optional_debugger _ _ _ x) as [[r1 v] x1]. intros [= <- <- <- <-]. exists f, f'. split_and!; (done || lia).
  - destruct (get_run (Some (data (store p))) (vm (store p)) x f Hf ltac:(lia)) as (f' & Hf' & Hle').
    destruct (run _ _ x) as [[r1 v] x1]. intros [= <- <- <- <-]. exists f, f'. split_and!; (done || lia).
Qed.

Lemma yield_recharges n (s s' : VmRunnerStore V Ctx Ops) r :
  handle_interrupt_yield s (ActiveFuel n) = Ok (r, s') ->
  if r then get_fuel s'.(vm) = Some n
  else s' = s /\ ~ (last_yield_reason s.(vm) = Some FuelExhausted /\ get_fuel s.(vm) = Some 0).
Proof.
  unfold handle_interrupt_yield. destruct (last_yield_reason (vm s)) as [[]|]; try (intros [= <- <-]; split; [done|by intros [? _]]).
  case_bool_decide as Hz; [|intros [= <- <-]; split; [done|by intros [_ ?]]].
  destruct (vm_call _) as [v|e] eqn:Hv; [|done]. intros [= <- <-]. cbn. eapply get_recharge; [exact Hz|].
  revert Hv. unfold vm_call. destruct (recharge n (vm s)) as [[[]|e] v']; [by intros [= ->]|done].
Qed.

Lemma after_within n st (p : Profile) x h p' x' :
  0 <= n -> within n p -> after_slice (ActiveFuel n) st p x = (Ok (h, p'), x') -> within n p'.
Proof.
  intros Hn Hp. unfold after_slice. destruct st as [| |op]; [by intros [= <- <- <-]|..].
  - cbn -[handle_interrupt_yield]. destruct (handle_interrupt_yield (store p) (ActiveFuel n)) as [[r s]|e] eqn:Hy; [|done].
    apply yield_recharges in Hy. destruct r; intros [= <- <- <-]; [exists n; split; [exact Hy|lia]|].
    destruct Hy as [-> _]. exact Hp.
  - pose proof (get_await (vm (store p)) x) as Hf. destruct (await_waiting_host_op (vm (store p)) x) as [[[[]|e] v] x1]; [|done].
    intros [= <- <- <-]. destruct Hp as (f & Hf' & Hle). exists f. split; [|done].
    cbn in *. by rewrite Hf.
Qed.

(** C32. A program with a budget gives its thread up in time: every slice, from
    the first to the last and whatever the others do, starts with no more fuel
    than the configured slice and ends with no more than it started with; and
    one that used its fuel up starts the next with exactly a full slice. *)
Theorem slices_within_budget s c i s' n k d p :
  c.(interrupt) = Fuel n k -> 0 <= n -> configure_vm_interrupt s c = Ok (i, s') -> during i d (default_with_store s') p ->
  forall slot x r slot' p' x', run_slice i d slot p x = (r, slot', p', x') ->
    exists f f', fuel p = Some f /\ fuel p' = Some f' /\ 0 <= f' <= f /\ f <= n
    /\ forall x1 h p'' x'', r = Ok Yielded -> last_yield_reason p'.(store).(vm) = Some FuelExhausted -> f' = 0 ->
         after_slice i Yielded p' x1 = (Ok (h, p''), x'') -> h = false /\ fuel p'' = Some n.
Proof.
  intros Hc Hn Hconf Hp. assert (i = ActiveFuel n /\ get_fuel (vm s') = Some n) as [-> Hs'].
  { revert Hconf. unfold configure_vm_interrupt. rewrite Hc. destruct (vm_call _) as [v|e]; [|done].
    intros [= <- <-]. split; [done|]. apply get_set_fuel. }
  assert (Hw : within n p).
  { induction Hp as [|p slot x st slot' p' x' x1 p'' x'' _ IH Hr Haf]; [exists n; split; [done|lia]|].
    eapply after_within; [done| |exact Haf]. destruct (slice_burns _ _ _ _ _ _ _ _ _ IH Hr) as (f & f' & _ & Hf' & ? & ?).
    exists f'. split; [done|lia]. }
  intros slot x r slot' p' x' Hr. destruct (slice_burns _ _ _ _ _ _ _ _ _ Hw Hr) as (f & f' & Hf & Hf' & Hle & Hmax).
  exists f, f'. do 2 (split; [done|]). split; [exact Hle|]. split; [exact Hmax|]. intros x1 h p'' x'' -> Hreason -> Haf. revert Haf. unfold after_slice. cbn -[handle_interrupt_yield].
  destruct (handle_interrupt_yield (store p') (ActiveFuel n)) as [[re s1]|e] eqn:Hy; [|done]. apply yield_recharges in Hy.
  destruct re; intros [= <- <- <-]; [split; [done|exact Hy]|]. exfalso. apply (proj2 Hy). split; [exact Hreason|exact Hf'].
Qed.
End slices.

(** ** A concrete vm *)

(** A program is the work it has to do, a unit of fuel each; the host notes the
    contexts the program's slices find. *)
Record toy := MkToy {
  work : Z; left : Z; tank : option Z; ops : option Z; modules : bool; with_jit : bool; drops : bool; sink : bool;
  reason : option VmYieldReason;
}.
#[local] Instance eta_toy : Eta toy := fun v =>
  MkToy v.(work) v.(left) v.(tank) v.(ops) v.(modules) v.(with_jit) v.(drops) v.(sink) v.(reason).

Definition toy_run (slot : option (ActiveEdgeHostContext Z Z)) (v : toy) (x : list (option Z)) : result VmError VmStatus * toy * list (option Z) :=
  let x := x ++ [vm_context <$> slot] in
  match v.(tank) with
  | Some f => if v.(left) <=? f then (Ok Halted, v <| left := 0 |> <| tank := Some (f - Z.max 0 v.(left)) |>, x)
              else (Ok Yielded, v <| left := v.(left) - f |> <| tank := Some 0 |> <| reason := Some FuelExhausted |>, x)
  | None => (Ok Halted, v <| left := 0 |>, x)
  end.

#[local] Instance toy_crate : VmCrate toy (list (option Z)) Z Z Z := {
  new_shared p := MkToy p p None None false true false false None;
  set_drop_contract_events_enabled b v := v <| drops := b |>;
  disable_jit v := v <| with_jit := false |>;
  set_async_bridge o v := (Ok tt, v <| ops := Some o |>);
  clear_async_bridge v := (Ok tt, v <| ops := None |>);
  clear_runtime_print_sink v := v <| sink := false |>;
  register_host_modules _ _ v := (Ok tt, v <| modules := true |>);
  reset_for_reuse v := (Ok tt, v <| left := v.(work) |>);
  poll_reset_for_reuse v := (Some (Ok tt), v);
  clear_fuel v := v <| tank := None |>;
  set_fuel n v := v <| tank := Some n |>;
  get_fuel v := v.(tank);
  recharge n v := (Ok tt, v <| tank := (Z.add n) <$> v.(tank) |>);
  set_fuel_check_interval _ v := (Ok tt, v);
  clear_epoch_deadline v := v;
  set_epoch_deadline _ v := (Ok tt, v);
  set_epoch_check_interval _ v := (Ok tt, v);
  last_yield_reason v := v.(reason);
  run := toy_run;
  run_vm_with_optional_debugger slot _ := toy_run slot;
  await_waiting_host_op v x := (Ok tt, v, x);
}.
#[local] Instance toy_laws : VmLaws toy (list (option Z)) Z Z Z Z.
Proof.
  refine {|
    view v := MkView v.(work) v.(left) v.(ops) v.(modules) v.(with_jit) v.(drops) v.(sink);
    initial p := p; default_jit := true; default_drop := false |}; try done.
  - by intros ops v v' [= <-].
  - by intros v v' [= <-].
  - by intros ctx ops v v' [= <-].
  - by intros v v1 v2 [= <-] [= <-].
  - by intros n v v' [= <-].
  - by intros n v v' [= <-].
  - by intros n v v' [= <-].
  - by intros n v v' [= <-].
  - intros slot v x. cbn. unfold toy_run. destruct (tank v); [case_match|]; by eexists _, _.
  - intros slot c v x. cbn. unfold toy_run. destruct (tank v); [case_match|]; by eexists _, _.
  - intros v x. by exists (left v), (sink v).
Defined.
#[local] Instance toy_fuel : FuelLaws toy (list (option Z)) Z Z Z.
Proof.
  assert (Hrun : forall slot v x f, tank v = Some f -> 0 <= f -> exists f', tank (toy_run slot v x).1.2 = Some f' /\ 0 <= f' <= f).
  { intros slot v x f Hf Hle. unfold toy_run. rewrite Hf. destruct (Z.leb_spec (left v) f); cbn; eexists; (split; [done|lia]). }
  split; [done| |exact Hrun|intros slot c v x f; apply Hrun|done].
  intros n v v' Hf [= <-]. cbn in *. rewrite Hf. cbn. by rewrite Z.add_0_r.
Defined.

Definition fuelled : VmExecutionConfig := MkConfig (Fuel 3 1) Async true false.
Definition plain : VmDebugInvocation := MkDebug false false.

(** A program of five units of work in two slices of three, on two threads; the
    vm goes to the pool as new. *)
Lemma five_units :
  execute_vm_with_context (V:=toy) 5 7 70 plain fuelled id [(None, id); (Some (MkActive 9 90), id)] (MkBuckets [] []) []
  = Some (Ok tt, MkBuckets [MkToy 5 5 (Some 1) None true true false false (Some FuelExhausted)] [], [Some 7; Some 7]).
Proof. by vm_compute. Qed.


Lemma slices_within_budget_witness :
  let s' : VmRunnerStore toy Z Z := MkStore (MkToy 5 5 (Some 3) None false true false false None) (MkActive 7 70) in
  configure_vm_interrupt (MkStore (new_shared 5) (MkActive 7 70)) fuelled = Ok (ActiveFuel 3, s')
  /\ exists p' x', run_slice (ActiveFuel 3) plain None (default_with_store s') [] = (Ok Yielded, None, p', x')
    /\ exists f f', get_fuel (vm s') = Some f /\ get_fuel (vm (store p')) = Some f' /\ 0 <= f' <= f /\ f <= 3.
Proof.
  intros s'. assert (Hc : configure_vm_interrupt (MkStore (new_shared 5) (MkActive 7 70)) fuelled = Ok (ActiveFuel 3, s')) by reflexivity.
  split; [exact Hc|].
  assert (Hr : exists p' x', run_slice (ActiveFuel 3) plain None (default_with_store s') [] = (Ok Yielded, None, p', x'))
    by (eexists _, _; reflexivity).
  destruct Hr as (p' & x' & Hr). exists p', x'. split; [exact Hr|].
  destruct (slices_within_budget _ fuelled _ _ 3 1 plain _ eq_refl ltac:(lia) Hc (during_start _ _ _) _ _ _ _ _ _ Hr)
    as (f & f' & Hf & Hf' & Hle & Hn & _).
  exists f, f'. split; [exact Hf|]. split; [exact Hf'|]. by split.
Defined.
End VmRunner.
