(* ===== verification/Http1Serving.v ===== *)
(** Model of the loop that serves a downstream HTTP/1.1 connection
    ([serve_http1_fast_connection] of
    [src/runtime/http_plane/http1_fast_path.rs]) and of the choices that lead
    to it: a request is read, the program runs on it, what is left of its body
    is drained and the answer is written; the connection goes on while it may
    be kept.  The program and the host behind it are an interface
    ([RequestRunner]). *)

From S2P Require Import Prelude Bytes Effects Http1Text Http1Io HttpHeaders Http1SenderPool Http1ResponseBody Http1RequestBody Http1FastPath Http1Upstream BodyStream UpstreamBody Http1ResponseWriter Http1Relay VmRunner.

Module Http1Serving.
Import Http1Text Http1Io HttpHeaders Http1ResponseWriter.
Import Http1FastPath(Version, HTTP_10, HTTP_11, HttpParser, FastHttp1Request, read_next_fast_http1_request).
Import Http1RequestBody(FastHttp1ReadError, FastHttp1RequestBodyState, Io, BadRequest, PayloadTooLarge).
Import Http1Upstream(Sink, SinkLaws, written).
Import BodyStream(Frame, FrameData).
Import Http1SenderPool(PlainHttp1SenderPool).
Import VmRunner(VmExecutionError, HostRegistration, Vm).

#[global] Arguments Http1FastPath.method {M U}.
#[global] Arguments Http1FastPath.uri {M U}.
#[global] Arguments Http1FastPath.version {M U}.
#[global] Arguments Http1FastPath.keep_alive {M U}.

(** The bytes after which a connection speaks HTTP/2. *)
Definition HTTP2_PREFACE : list Z :=
  bytes_of_string "PRI * HTTP/2.0" ++ CRLF ++ CRLF ++ bytes_of_string "SM" ++ CRLF ++ CRLF.

(** ** The program and its host *)

(** [Http1DownstreamResolution]; [Plan] is what is left to do once a response
    has been chosen. *)
Inductive Http1DownstreamResolution (M Plan : Type) :=
| NativeLocal (r : ResolvedNativeLocalHttp1DownstreamResponse (M:=M))
| Native (r : result (Response (M:=M)) (ResolvedNativeHttp1DownstreamResponse (M:=M)))
| Looked (r : result (Response (M:=M)) (ResolvedSnapshotHttp1DownstreamResponse (M:=M)))
| Graph (r : Response (M:=M)) (post_response_plan : option Plan).
Arguments NativeLocal {M Plan}. Arguments Native {M Plan}. Arguments Looked {M Plan}. Arguments Graph {M Plan}.

(** The host: [X] is all it shares, [P] a loaded program, [C] the context of
    one request.  The program reads the request's body through the state it
    shares with the lease. *)
Class RequestRunner (X P C Plan M U : Type) := {
  loaded_program_snapshot : X -> option P;
  imports : P -> list string;
  (** counts a request, and whatever other tasks do meanwhile *)
  record_data_plane_request : X -> X;
  (** [ProxyVmContext::from_http_request_with_services] *)
  new_vm_context : P -> FastHttp1Request M U -> X -> C * X;
  execute_vm_with_context : P -> C -> X -> option FastHttp1RequestBodyState ->
    result VmExecutionError unit * X * option FastHttp1RequestBodyState;
  finish_downstream_response_stream : C -> X -> X;
  resolve_http1_downstream_response : C -> X -> option FastHttp1RequestBodyState ->
    Http1DownstreamResolution M Plan * X * option FastHttp1RequestBodyState;
  spawn_post_response_plan : Plan -> X -> X;
  plain_http1_sender_pool : X -> PlainHttp1SenderPool Connection;
  set_plain_http1_sender_pool : PlainHttp1SenderPool Connection -> X -> X;
}.

(** How the serving of a connection ends. *)
Inductive ending :=
| PeerClosed
| ReadFailed (message : string)
| Refused (e : FastHttp1ReadError)      (** an error response was due *)
| BodyFailed (message : string)         (** the rest of the request's body could not be read *)
| Declined                              (** the program was gone *)
| WriteFailed (e : io_fault)
| NotKept
| ViaHyper (c : Connection).            (** the connection as hyper gets it, nothing of it lost *)

Section serving.
Context {W : Type} {X P C Plan M U : Type}.
Context `{HS : Sink W} `{HSt : StatusCrate} `{HP : HttpParser U W}.
Context `{HM : HeaderMap M} `{HMM : !HeaderMapMut M} `{HC : HttpCrate}.
Context `{HR : RequestRunner X P C Plan M U}.
Context (vm_error_display : VmError -> string).
Abbreviation Body := (option FastHttp1RequestBodyState).
Abbreviation Request := (FastHttp1Request M U).

(** *** Which loop serves a connection *)

(** [program_may_stream_downstream_http_response] *)
Definition program_may_stream_downstream_http_response (program : option P) : bool :=
  match program with
  | None => false
  | Some program =>
      let imported name := existsb (fun i => bool_decide (i = name)) (imports program) in
      let imports_response_stream :=
        imported "http::response::stream::start" || imported "http::response::stream::write"
        || imported "http::response::stream::finish" in
      let imports_downstream_tcp := imported "tcp::stream::downstream" in
      let imports_tcp_write := imported "tcp::stream::write" in
      let imports_proxy_downstream := imported "proxy::stream::downstream" in
      let imports_proxy_exchange := imported "proxy::stream::exchange" in
      let imports_proxy_non_http_streams :=
        imported "proxy::stream::from_tcp" || imported "proxy::stream::from_tls_plaintext"
        || imported "proxy::stream::from_websocket_binary" in
      let imports_proxy_forward := imported "proxy::forward" in
      let imports_proxy_forward_native := imported "proxy::forward_native" in
      let imports_proxy_pipe := imported "proxy::pipe" in
      let proxy_forward_native_is_simple_http_exchange :=
        imports_proxy_forward_native && imports_proxy_downstream && imports_proxy_exchange
        && negb imports_proxy_forward && negb imports_proxy_pipe && negb imports_proxy_non_http_streams in
      let imports_proxy_streaming_flow :=
        imports_proxy_forward || imports_proxy_pipe || imports_proxy_non_http_streams
        || (imports_proxy_forward_native && negb proxy_forward_native_is_simple_http_exchange) in
      imports_response_stream || (imports_downstream_tcp && imports_tcp_write) || imports_proxy_streaming_flow
  end.

(** [https_listener_needs_transport_handoff] *)
Definition https_listener_needs_transport_handoff (program : option P) : bool :=
  match program with
  | None => false
  | Some program =>
      let imported name := existsb (fun i => bool_decide (i = name)) (imports program) in
      let imports_transport_prelude := imported "tcp::stream::peek" || imported "tls::session::handshake" in
      imports_transport_prelude
      || (imported "http::downstream::attach_transport" && imported "tcp::stream::downstream")
  end.

(** *** Responses the server makes *)

(** [Body::from] of a string *)
Definition body_from (text : list Z) : list (result string (Frame M)) :=
  if bool_decide (text = []) then [] else [Ok (FrameData text)].

Definition fast_http1_error_response (status : Z) (body : string) : Response (M:=M) :=
  let b := bytes_of_string body in
  MkResponse V11 status
    (hm_append "connection" (bytes_of_string "close")
      (hm_append "content-length" (bytes_of_string (Bytes.dec (len b))) hm_new)) (body_from b).

Definition text_response (status : Z) (text : string) : Response (M:=M) :=
  MkResponse V11 status hm_new (body_from (bytes_of_string text)).

Definition data_plane_vm_execution_error_response (e : VmExecutionError) : Response (M:=M) :=
  match e with
  | HostRegistration e => text_response 500 ("host registration error: " +:+ vm_error_display e)
  | Vm e => text_response 500 ("vm execution error: " +:+ vm_error_display e)
  end.

Definition not_found : ResolvedNativeLocalHttp1DownstreamResponse (M:=M) :=
  MkLocal 404 hm_new (bytes_of_string "not found") false.

(** *** Running the program *)

Definition prepare_data_plane_http_request_context (q : Request) (x : X) : result (Response (M:=M)) (P * C) * X :=
  match loaded_program_snapshot x with
  | None => (Err (text_response 404 "not found"), x)
  | Some p => let '(c, x) := new_vm_context p q x in (Ok (p, c), x)
  end.

Definition run_prepared_data_plane_http_request_context (p : P) (c : C) (x : X) (b : Body)
    : result (Response (M:=M)) unit * X * Body :=
  let '(r, x, b) := execute_vm_with_context p c x b in
  let x := finish_downstream_response_stream c x in
  (match r with
   | Err e => Err (data_plane_vm_execution_error_response e)
   | Ok _ => Ok tt
   end, x, b).

(** What there is to answer a request with. *)
Inductive reply :=
| NoProgram
| Decline (r : Response (M:=M))
| Failed (r : Response (M:=M))
| Resolved (r : Http1DownstreamResolution M Plan).

Definition run_request (q : Request) (x : X) (b : Body) : reply * X * Body :=
  match loaded_program_snapshot x with
  | None => (NoProgram, x, b)
  | Some _ =>
      let x := record_data_plane_request x in
      match prepare_data_plane_http_request_context q x with
      | (Err r, x) => (Decline r, x, b)
      | (Ok (p, c), x) =>
          match run_prepared_data_plane_http_request_context p c x b with
          | (Err r, x, b) => (Failed r, x, b)
          | (Ok _, x, b) => let '(r, x, b) := resolve_http1_downstream_response c x b in (Resolved r, x, b)
          end
      end
  end.

(** *** Writing to the connection *)

(** [stream_and_scratch_mut], then the writer: a connection lent to a body has
    no stream. *)
Definition on_stream {A} (conn : option Connection) (m : writer W A) : writer W A :=
  match conn with
  | Some _ => m
  | None => throw (IoError "downstream http/1.1 connection stream is unavailable")
  end.

(** [let _ = connection.write_response(..)] *)
Definition write_error_response (method : string) (conn : option Connection) (r : Response (M:=M)) (w : W) : W :=
  (on_stream conn (write_http1_response method false r) w).2.

(** The matches over [body_lease.finish()], all alike.  [None]: out of fuel. *)
Definition finish_lease (method : string) (conn : option Connection) (b : Body) (w : W)
    : option (result ending (option Connection) * W) :=
  match b with
  | None => Some (Ok conn, w)
  | Some s =>
      r ← Http1RequestBody.finish s;
      Some match r with
           | Ok returned => (Ok (Some returned), w)
           | Err (Io e, returned) => (Err (BodyFailed e), w)
           | Err (BadRequest message as e, returned) =>
               (Err (Refused e), write_error_response method returned (fast_http1_error_response 400 message) w)
           | Err (PayloadTooLarge as e, returned) =>
               (Err (Refused e), write_error_response method returned
                  (fast_http1_error_response 413 "request body exceeds fast http/1.1 limit") w)
           end
  end.

Definition any_version (v : Version) : AnyVersion := match v with HTTP_10 => V10 | HTTP_11 => V11 end.

(** The writers, by what there is to answer with; only [Native] and [Looked]
    can run out of fuel. *)
Definition write_reply (q : Request) (conn : option Connection) (a : reply) (x : X) (w : W)
    : option (result io_fault bool * X * W) :=
  let method := q.(Http1FastPath.method) in
  let keep_alive := q.(Http1FastPath.keep_alive) in
  let version := any_version q.(Http1FastPath.version) in
  let plain x (m : writer W bool) := let '(r, w) := on_stream conn m w in Some (r, x, w) in
  match a with
  | NoProgram => plain x (write_native_local_http1_response method keep_alive version not_found)
  | Resolved (NativeLocal r) => plain x (write_native_local_http1_response method keep_alive version r)
  | Resolved (Native (Ok r)) =>
      match conn with
      | None => plain x (mret false)
      | Some _ =>
          '(r, p, w) ← write_native_http1_response vm_error_display method keep_alive r (plain_http1_sender_pool x) w;
          Some (r, set_plain_http1_sender_pool p x, w)
      end
  | Resolved (Looked (Ok r)) =>
      match conn with
      | None => plain x (mret false)
      | Some _ =>
          '(r, w) ← write_snapshot_http1_response vm_error_display method keep_alive r w;
          Some (r, x, w)
      end
  | Resolved (Graph r plan) =>
      plain (match plan with Some plan => spawn_post_response_plan plan x | None => x end)
        (write_http1_response method keep_alive r)
  | Decline r | Failed r | Resolved (Native (Err r)) | Resolved (Looked (Err r)) =>
      plain x (write_http1_response method keep_alive r)
  end.

(** *** The loop *)

(** One request: the connection to go on with, or how it ends. *)
Definition serve_request (q : Request) (conn : option Connection) (b : Body) (x : X) (w : W)
    : option (result ending (option Connection) * X * W) :=
  let '(a, x, b) := run_request q x b in
  match a with
  | Decline r => Some (Err Declined, x, write_error_response q.(Http1FastPath.method) conn r w)
  | _ =>
      '(r, w) ← finish_lease q.(Http1FastPath.method) conn b w;
      match r with
      | Err e => Some (Err e, x, w)
      | Ok conn =>
          '(r, x, w) ← write_reply q conn a x w;
          Some (match r with
                | Err e => Err (WriteFailed e)
                | Ok true => Ok conn
                | Ok false => Err NotKept
                end, x, w)
      end
  end.

Fixpoint serve_loop (fuel : nat) (conn : option Connection) (x : X) (w : W) : option (ending * X * W) :=
  match fuel, conn with
  | O, _ => None
  | _, None => Some (ReadFailed "downstream http/1.1 connection stream is unavailable", x, w)
  | S fuel, Some c =>
      match read_next_fast_http1_request c w with
      | (Err (Io e), _, w) => Some (ReadFailed e, x, w)
      | (Err (BadRequest message as e), conn, w) =>
          Some (Refused e, x, write_error_response "GET" conn (fast_http1_error_response 400 message) w)
      | (Err (PayloadTooLarge as e), conn, w) =>
          Some (Refused e, x, write_error_response "GET" conn
            (fast_http1_error_response 413 "request body exceeds fast http/1.1 limit") w)
      | (Ok Http1FastPath.EndOfStream, _, w) => Some (PeerClosed, x, w)
      | (Ok Http1FastPath.FallbackToHyper, conn, w) =>
          Some (match conn with Some c => ViaHyper c | None => WriteFailed IoPanic end, x, w)
      | (Ok (Http1FastPath.Request q b), conn, w) =>
          '(r, x, w) ← serve_request q conn b x w;
          match r with
          | Ok conn => serve_loop fuel conn x w
          | Err e => Some (e, x, w)
          end
      end
  end.

Definition serve_http1_fast_connection (c : Connection) (x : X) (w : W) : option (ending * X * W) :=
  serve_loop (conn_size c + 1) (Some c) x w.

Definition serve_http1_connection (c : Connection) (x : X) (w : W) : option (ending * X * W) :=
  if program_may_stream_downstream_http_response (loaded_program_snapshot x) then Some (ViaHyper c, x, w)
  else serve_http1_fast_connection c x w.

(** [preface]: what [peek] shows of at most 24 bytes. *)
Definition serve_http_auto_connection (preface : list Z) (c : Connection) (x : X) (w : W) : option (ending * X * W) :=
  if (len HTTP2_PREFACE <=? len preface) && bool_decide (take (length HTTP2_PREFACE) preface = HTTP2_PREFACE)
  then Some (ViaHyper c, x, w)
  else serve_http1_connection c x w.

(** After the TLS handshake. *)
Definition serve_https_http_connection (alpn : option string) (c : Connection) (x : X) (w : W)
    : option (ending * X * W) :=
  if bool_decide (alpn = Some "h2") then Some (ViaHyper c, x, w) else serve_http1_connection c x w.
End serving.

(** ** A body that was partly read *)

Section body.
Import Http1RequestBody.

(** What a program may do to the body it shares with the lease. *)
Inductive pulled : FastHttp1RequestBodyState -> FastHttp1RequestBodyState -> Prop :=
| pulled_refl s : pulled s s
| pulled_next s r s1 s2 : pull_next s = Some (r, s1) -> pulled s1 s2 -> pulled s s2.

Lemma pull_next_measure s r s' :
  body_ok s -> pull_next s = Some (r, s') -> body_ok s' /\ (measure s' <= measure s)%nat.
Proof.
  intros Hok. unfold pull_next. destruct (terminal_error s); [by intros [= <- <-]|].
  destruct (pull_loop_spec (pull_fuel s) s Hok) as (r' & s1 & -> & Hm & Hok' & _).
  - unfold pull_fuel, measure. destruct (kind s) as [|[]]; cbn; lia.
  - by intros [= <- <-].
Qed.

Lemma pulled_measure s s' : pulled s s' -> body_ok s -> body_ok s' /\ (measure s' <= measure s)%nat.
Proof.
  induction 1 as [|s r s1 s2 Hp _ IH]; intros Hok; [done|].
  destruct (pull_next_measure _ _ _ Hok Hp) as [Hok1 Hm1]. destruct (IH Hok1). split; [done|lia].
Qed.

Lemma collect_measure fuel s x : body_ok s -> collect fuel s = Some x -> (measure x.2 <= measure s)%nat.
Proof.
  revert s x. induction fuel as [|fuel IH]; intros s x Hok; [done|]. cbn [collect].
  destruct (pull_next s) as [[r s1]|] eqn:Hp; [|done]. cbn [mbind option_bind].
  destruct (pull_next_measure _ _ _ Hok Hp) as [Hok1 Hm1]. destruct r as [[chunk|]|e]; [|by intros [= <-]..].
  destruct (collect fuel s1) as [[[d r] s2]|] eqn:Hc; [|done]. intros [= <-].
  specialize (IH _ _ Hok1 Hc). cbn in *. lia.
Qed.

(** Finishing a lease ends, and gives back no more than it took. *)
Lemma finish_size s :
  body_ok s -> exists r, finish s = Some r /\ forall c, r = Ok c -> (conn_size c <= measure s)%nat.
Proof.
  intros Hok. destruct (collect_spec (body_size s + 2) s Hok ltac:(lia)) as (data & r & s' & Hc & _).
  pose proof (collect_measure _ _ _ Hok Hc) as Hm. unfold finish, drain_remaining, read_all. rewrite Hc. cbn [mbind option_bind].
  eexists. split; [done|]. intros c Hr. cbn [snd] in Hm. assert (body_size s' <= measure s)%nat by (unfold measure in *; lia).
  unfold body_size in *. destruct (connection s') as [c1|]; [|done]. destruct r; [|done]. injection Hr as ->. lia.
Qed.

(** A reader that met the end of a body meets it again. *)
Lemma request_step_end s s' :
  pull_step s = Return (Ok None) s' -> kind s' = Fixed 0 /\ terminal_error s' = terminal_error s.
Proof.
  unfold pull_step, pull_data, pull_line, with_connection, remember_error.
  destruct s as [[c|] [n|[]] b e]; cbn; intros Hs; simplify_eq/=; try done;
    repeat (case_match; simplify_eq/=; try done).
Qed.
Lemma request_step_goes_on s s1 : pull_step s = Continue s1 -> terminal_error s1 = terminal_error s.
Proof.
  unfold pull_step, pull_data, pull_line, with_connection, remember_error.
  destruct s as [[c|] [n|[]] b e]; cbn; intros Hs; simplify_eq/=; try done;
    repeat (case_match; simplify_eq/=; try done).
Qed.
Lemma request_loop_end fuel s s' :
  pull_loop fuel s = Some (Ok None, s') -> kind s' = Fixed 0 /\ terminal_error s' = terminal_error s.
Proof.
  revert s. induction fuel as [|fuel IH]; intros s; [done|]. cbn [pull_loop].
  destruct (pull_step s) as [s1|r s1] eqn:Hs.
  - intros [Hk He]%IH. split; [done|]. by rewrite He, (request_step_goes_on _ _ Hs).
  - intros [= -> ->]. by apply request_step_end.
Qed.
Lemma request_pull_end s s' : body_ok s -> pull_next s = Some (Ok None, s') -> collects s' ([], Ok tt, s').
Proof.
  intros Hok Hp. destruct (pull_next_measure _ _ _ Hok Hp) as [Hok' _]. revert Hp. unfold pull_next.
  destruct (terminal_error s) eqn:He; [done|]. intros [Hk He']%request_loop_end. exists 1%nat. cbn.
  rewrite (pull_next_loop 1 s' (Ok None, s')); [done|done|by rewrite He'|].
  destruct s' as [c k b e]. cbn in *. by subst.
Qed.

Lemma collects_pulled s s' data sf :
  pulled s s' -> body_ok s -> collects s (data, Ok tt, sf) -> exists rest, collects s' (rest, Ok tt, sf).
Proof.
  intros Hp. revert data. induction Hp as [|s r s1 s2 Hp _ IH]; intros data Hok Hc; [by eexists|].
  destruct (pull_next_measure _ _ _ Hok Hp) as [Hok1 _]. destruct Hc as [[|f] Hf]; [done|]. cbn in Hf. rewrite Hp in Hf.
  cbn in Hf. destruct r as [[chunk|]|e]; [| |done].
  - destruct (collect f s1) as [[[d r] s3]|] eqn:Hc; [|done]. injection Hf as <- -> ->. apply (IH d); [done|by exists f].
  - injection Hf as <- <-. apply (IH []); [done|]. by apply (request_pull_end s).
Qed.

(** However much of a well-formed body was read, finishing the lease leaves the
    connection at the end of it. *)
Lemma finish_pulled s s' data sf c :
  body_ok s -> read_all s = Some (data, Ok tt, sf) -> finish s = Some (Ok c) -> pulled s s' -> finish s' = Some (Ok c).
Proof.
  intros Hok Hr Hf Hp. destruct (pulled_measure _ _ Hp Hok) as [Hok' _].
  destruct (collects_pulled _ _ data sf Hp Hok) as [rest Hc]; [by eexists|].
  apply collects_read_all in Hc; [|done]. unfold finish, drain_remaining in *. rewrite Hr in Hf. by rewrite Hc.
Qed.
End body.

End Http1Serving.
