(* ===== verification/Http1Pipeline.v ===== *)
(** Properties of the loop that serves a downstream HTTP/1.1 connection
    (Http1Serving.v): requests sent one after the other are answered one by
    one, in order, whatever the network does to their bytes and however much of
    a body the program reads. *)

From S2P Require Import Prelude Bytes Effects Http1Text Http1Io HttpHeaders Http1SenderPool Http1ResponseBody Http1RequestBody Http1FastPath Http1Upstream BodyStream UpstreamBody Http1ResponseWriter Http1Relay VmRunner Http1Serving.

Module Http1Pipeline.
Import Http1Text Http1Io HttpHeaders Http1ResponseWriter Http1Serving.
Import Http1FastPath(Version, HTTP_10, HTTP_11, HttpParser, HttparseRequest, parse_status, Complete, Partial, parse_request,
  parsed_headers, FastHttp1Request, read_next_loop, read_next_fast_http1_request, accept, request_line, BodyEmpty, BodyFixed,
  BodyChunked, classify_downstream_http1_fast_body_lazy, http1_connection_keep_alive_lazy, continue_100,
  MAX_DOWNSTREAM_HTTP1_FAST_BODY_BYTES, MAX_HTTP1_HEAD_BYTES).
Import Http1RequestBody(FastHttp1ReadError, FastHttp1RequestBodyState, Io, BadRequest, PayloadTooLarge, body_ok, measure,
  from_connection, read_all, finish, Fixed, Chunked, NeedSize).
Import Http1Upstream(Sink, SinkLaws, written, write_all, write_ok, write_err, NoBody, Raw).
Import BodyStream(Frame, FrameData).
#[local] Existing Instances UpstreamBody.upstream_source UpstreamBody.upstream_source_laws.
Import Http1SenderPool(PlainHttp1SenderPool).
Import VmRunner(Vm).

(** ** Requests on the wire *)

Record item := MkItem {
  head : list Z;
  parsed : HttparseRequest;
  data : list Z;
  wire : list Z;       (** the body as it is sent *)
}.

Section items.
Context {M U W : Type} `{HM : HeaderMap M} `{HC : HttpCrate} `{HP : HttpParser U W} `{HSL : SinkLaws W}.
(** The reader and the writers write to the same stream. *)
Context (one_stream : forall l w, Http1FastPath.write_all l w = write_all l w).

(** The parser takes exactly [h] for a head, and nothing before its end. *)
Definition is_head (h : list Z) (p : HttparseRequest) : Prop :=
  h ≠ [] /\ (forall b, b `prefix_of` h -> b ≠ h -> parse_request b = Partial)
  /\ forall more, parse_request (h ++ more) = Complete (length h) p.

Definition item_headers (i : item) : LazyHttpHeaders M := from_raw_header_bytes i.(parsed).(parsed_headers).

(** A head and the body it announces. *)
Definition item_ok (i : item) : Prop :=
  is_head i.(head) i.(parsed) /\
  match classify_downstream_http1_fast_body_lazy (item_headers i) with
  | Some BodyEmpty | None => i.(data) = [] /\ i.(wire) = []
  | Some (BodyFixed n) => i.(wire) = i.(data) /\ len i.(data) = n
  | Some BodyChunked => chunked_wire i.(data) i.(wire) /\ len i.(data) <= MAX_DOWNSTREAM_HTTP1_FAST_BODY_BYTES
  end.

Definition item_request (i : item) : option (FastHttp1Request M U) :=
  '(m, v, u) ← request_line i.(parsed);
  Some (Http1FastPath.MkRequest m u v (item_headers i) (http1_connection_keep_alive_lazy v (item_headers i))).

(** Whether the fast path takes the request, and what it sends before it. *)
Definition fast (i : item) : bool :=
  match request_line (U:=U) (W:=W) i.(parsed) with
  | Some (m, _, _) => Http1FastPath.downstream_http1_fast_path_eligible_lazy m (item_headers i)
  | None => false
  end.
Definition interim (i : item) : list Z :=
  if Http1FastPath.downstream_http1_fast_path_expects_continue_lazy (item_headers i) then continue_100 else [].

Definition stream_of (rs : list item) : list Z := concat ((fun i => i.(head) ++ i.(wire)) <$> rs).

(** What the reader makes of a body: the connection, at the end of the request,
    or a lease whose reader gets exactly the data and which leaves the
    connection there. *)
Definition leased (i : item) (rest : list Z) (b : option FastHttp1RequestBodyState) (kept : option Connection) : Prop :=
  match b with
  | None => i.(data) = [] /\ i.(wire) = [] /\ exists c, kept = Some c /\ holds c rest
  | Some s => kept = None /\ body_ok s /\
      exists sf c, read_all s = Some (i.(data), Ok tt, sf) /\ finish s = Some (Ok c) /\ holds c rest
  end.

Lemma prefix_total (b h l more : list Z) : b ++ more = h ++ l -> (length b < length h)%nat -> b `prefix_of` h /\ b ≠ h.
Proof.
  intros Heq Hlen. split; [|intros ->; lia]. exists (drop (length b) h).
  rewrite <-(take_drop (length b) h) at 1. f_equal.
  rewrite <-(take_app_le h l) by lia. by rewrite <-Heq, take_app_length.
Qed.

(** The reader gets to the head, however the network splits it. *)
Lemma read_head h p tail buf inc (w : W) :
  is_head h p -> holds (MkConn buf inc) (h ++ tail) ->
  (exists c, holds c (h ++ tail) /\ MAX_HTTP1_HEAD_BYTES < len (buffered c) /\ read_next_loop (M:=M) buf inc w = Http1FastPath.fallback c w)
  \/ exists more inc', holds (MkConn (h ++ more) inc') (h ++ tail)
     /\ read_next_loop (M:=M) buf inc w = accept (length h) p (MkConn (h ++ more) inc') w.
Proof.
  intros (Hne & Hpre & Hall). assert (Hstep : forall buf inc, holds (MkConn buf inc) (h ++ tail) -> (length h <= length buf)%nat ->
    exists more, buf = h ++ more).
  { intros b i [_ Ht] Hle. exists (drop (length h) b). rewrite <-(take_drop (length h) b) at 1. f_equal.
    unfold total in Ht. cbn in Ht. rewrite <-(take_app_le b (concat (payload <$> i))) by done. by rewrite Ht, take_app_length. }
  revert buf. induction inc as [|r inc IH]; intros buf Hh; cbn [read_next_loop];
    (destruct (Z.ltb_spec MAX_HTTP1_HEAD_BYTES (len buf)) as [?|_]; [left; by eexists|]);
    (destruct (Nat.le_gt_cases (length h) (length buf)) as [Hle|Hlt];
      [destruct (Hstep _ _ Hh Hle) as [more ->]; rewrite Hall; right; by eexists _, _|]);
    (destruct (prefix_total buf h tail _ (proj2 Hh) Hlt) as [Hp1 Hp2]; rewrite (Hpre _ Hp1 Hp2)).
  - exfalso. destruct Hh as [_ Ht]. unfold total in Ht. cbn in Ht. rewrite app_nil_r in Ht. subst buf. rewrite length_app in Hlt. lia.
  - destruct Hh as [Hh Ht]. apply Forall_cons in Hh as [(b & l & ->) Hh]. apply IH. split; [done|].
    rewrite <-Ht. unfold total. cbn. by rewrite <-app_assoc.
Qed.

(** What one read makes of a request at the front of a connection. *)
Definition item_read (i : item) (rest : list Z) (c : Connection) (w : W)
    (r : result FastHttp1ReadError (Http1FastPath.FastHttp1Decision M U) * option Connection * W) : Prop :=
  match r with
  | (Ok Http1FastPath.FallbackToHyper, kept, w') => w' = w /\ exists c', kept = Some c'
      /\ holds c' (i.(head) ++ i.(wire) ++ rest) /\ (fast i = false \/ MAX_HTTP1_HEAD_BYTES < len (buffered c'))
  | (Ok (Http1FastPath.Request q b), kept, w') =>
      item_request i = Some q /\ leased i rest b kept
      /\ written w' = written w ++ interim i
  | (Err (Io e), kept, w') => (exists n, written w' = written w ++ take n continue_100) /\ write_all continue_100 w = (Err e, w')
  | _ => False
  end.

Lemma fallback_read i rest c c' (w : W) :
  holds c' (i.(head) ++ i.(wire) ++ rest) -> fast i = false \/ MAX_HTTP1_HEAD_BYTES < len (buffered c') ->
  item_read i rest c w (Http1FastPath.fallback c' w).
Proof. intros Hh Hw. split; [done|]. by exists c'. Qed.

Lemma body_leased i rest c k :
  holds c (i.(wire) ++ rest) ->
  match k with
  | Fixed n => i.(wire) = i.(data) /\ len i.(data) = n
  | Chunked NeedSize => chunked_wire i.(data) i.(wire) /\ len i.(data) <= MAX_DOWNSTREAM_HTTP1_FAST_BODY_BYTES
  | _ => False
  end -> leased i rest (Some (from_connection c k MAX_DOWNSTREAM_HTTP1_FAST_BODY_BYTES)) None.
Proof.
  intros Hh Hk. split; [done|]. destruct (Http1RequestBody.request_body_in_step c rest) as [Hfix Hchunk].
  destruct k as [n|[]]; try done; split.
  - destruct Hk as [_ <-]. split; [apply len_nonneg|done].
  - destruct Hk as [Hw <-]. rewrite Hw in Hh. by apply Hfix.
  - done.
  - destruct Hk as [Hw Hle]. by eapply Hchunk.
Qed.

Lemma accept_item i rest more inc c (w : W) :
  item_ok i -> holds (MkConn (i.(head) ++ more) inc) (i.(head) ++ i.(wire) ++ rest) ->
  item_read i rest c w (accept (length i.(head)) i.(parsed) (MkConn (i.(head) ++ more) inc) w).
Proof.
  intros [_ Hbody] Hh. unfold accept.
  destruct (request_line (parsed i)) as [[[m v] u]|] eqn:Hq; [|apply fallback_read; [done|left; unfold fast; by rewrite Hq]].
  fold (item_headers i). destruct (Http1FastPath.downstream_http1_fast_path_eligible_lazy m (item_headers i)) eqn:Hel; cbn [negb];
    [|apply fallback_read; [done|left; unfold fast; by rewrite Hq]].
  assert (Hrest : holds (MkConn (i.(head) ++ more) inc <| buffered := drop (length i.(head)) (i.(head) ++ more) |>) (i.(wire) ++ rest)).
  { destruct Hh as [Hinc Ht]. split; [done|]. unfold total in *. cbn in *. rewrite drop_app_length. rewrite <-app_assoc in Ht.
    by simplify_list_eq. }
  assert (Hgo : forall w', written w' = written w ++ interim i ->
    item_read i rest c w (let q := Http1FastPath.MkRequest m u v (item_headers i) (http1_connection_keep_alive_lazy v (item_headers i)) in
      let c' := MkConn (i.(head) ++ more) inc <| buffered := drop (length i.(head)) (i.(head) ++ more) |> in
      match classify_downstream_http1_fast_body_lazy (item_headers i) with
      | None => Http1FastPath.fallback (MkConn (i.(head) ++ more) inc) w'
      | Some BodyEmpty => (Ok (Http1FastPath.Request q None), Some c', w')
      | Some (BodyFixed n) => (Ok (Http1FastPath.Request q (Some (from_connection c' (Fixed n) MAX_DOWNSTREAM_HTTP1_FAST_BODY_BYTES))), None, w')
      | Some BodyChunked => (Ok (Http1FastPath.Request q (Some (from_connection c' (Chunked NeedSize) MAX_DOWNSTREAM_HTTP1_FAST_BODY_BYTES))), None, w')
      end)).
  { intros w' Hw'. unfold Http1FastPath.downstream_http1_fast_path_eligible_lazy in Hel.
    assert (Hi : item_request i = Some (Http1FastPath.MkRequest m u v (item_headers i) (http1_connection_keep_alive_lazy v (item_headers i)))).
    { unfold item_request. by rewrite Hq. }
    destruct (classify_downstream_http1_fast_body_lazy (item_headers i)) as [[|n|]|]; cbn [item_read].
    - split; [done|]. split; [|done]. destruct Hbody as [Hd Hw]. split_and!; [done..|]. rewrite Hw in Hrest. by eexists.
    - split; [done|]. split; [by apply body_leased|done].
    - split; [done|]. split; [by apply body_leased|done].
    - exfalso. repeat case_match; done. }
  destruct (Http1FastPath.downstream_http1_fast_path_expects_continue_lazy (item_headers i)) eqn:Hexp.
  - rewrite one_stream. destruct (write_all continue_100 w) as [[[]|e] w'] eqn:Hw.
    + apply Hgo. unfold interim. rewrite Hexp. by apply write_ok.
    + split; [by eapply write_err|done].
  - apply Hgo. unfold interim. by rewrite Hexp, app_nil_r.
Qed.

Lemma read_item i rest c (w : W) :
  item_ok i -> holds c (i.(head) ++ i.(wire) ++ rest) -> item_read i rest c w (read_next_fast_http1_request c w).
Proof.
  intros Hi Hh. destruct c as [buf inc]. destruct (read_head _ _ _ _ _ w (proj1 Hi) Hh) as [(c & Hc & Hlen & Heq)|(more & inc' & Hc & Heq)];
    unfold read_next_fast_http1_request; cbn [buffered incoming]; rewrite Heq.
  - apply fallback_read; [done|by right].
  - by apply accept_item.
Qed.
End items.

(** ** Answers on the wire *)

Section replies.
Context {W M P C Plan U X : Type} `{HSL : SinkLaws W} `{HSt : StatusCrate} `{HP : HttpParser U W}.
Context `{HML : HeaderMapLaws M} `{HMM : !HeaderMapMut M} `{HMMLL : !HeaderMapMutLaws M} {HC : HttpCrate} `{HCL : !HttpCrateLaws}.
Context `{HR : RequestRunner X P C Plan M U}.
Context (vm_error_display : VmError -> string).
Abbreviation Request := (FastHttp1Request M U).
Abbreviation Reply := (reply (M:=M) (Plan:=Plan)).

(** One response: a status line, a head that says whether the connection is
    kept, and the body the head delimits. *)
Definition on_wire {H} `{ResponseHeaders H} (v : Version) (status : Z) (q : Request) (data out : list Z) (keep : bool) : Prop :=
  exists (h : H) body, out = write_http1_status_line v status ++ header_block (rh_lines h) ++ CRLF ++ body
    /\ head_agrees v q.(Http1FastPath.keep_alive) h keep
    /\ if http1_response_has_no_body status q.(Http1FastPath.method) then body = [] else framed h data body keep.

(** The data the upstream of a passed on response sent. *)
Definition upstream_sent (r : ResolvedNativeHttp1DownstreamResponse (M:=M)) (data : list Z) : Prop :=
  match native_body r with
  | NoBody => data = []
  | Raw b _ => exists key cap reuse is_dirty c k t consumed c',
      b = Http1ResponseBody.MkBody (Http1SenderPool.MkLease key cap reuse is_dirty (Some c)) k t
      /\ total c = consumed ++ total c' /\ Http1ResponseBody.body_wire k data consumed
  end.

Definition whole_body (r : ResolvedSnapshotHttp1DownstreamResponse (M:=M)) : list Z :=
  (BodyStream.whole (UpstreamBody.stream (snapshot_body r)) (UpstreamBody.body_source (snapshot_body r))).1.

Definition response_on_wire (r : Response (M:=M)) (q : Request) : list Z -> bool -> Prop :=
  on_wire (H:=M) (http1_version (Http1ResponseWriter.version r)) (status r) q (BodyStream.frames_data (frames r)).
Definition local_on_wire (r : ResolvedNativeLocalHttp1DownstreamResponse (M:=M)) (q : Request) : list Z -> bool -> Prop :=
  on_wire (H:=M) (http1_version (any_version q.(Http1FastPath.version))) (status_or_ok (local_status r)) q (local_body r).

(** [out] is the answer [a] to [q]. *)
Definition answers (q : Request) (a : Reply) (out : list Z) (keep : bool) : Prop :=
  match a with
  | NoProgram => local_on_wire not_found q out keep
  | Resolved (NativeLocal r) => local_on_wire r q out keep
  | Decline r | Failed r | Resolved (Native (Err r)) | Resolved (Looked (Err r)) | Resolved (Graph r _) => response_on_wire r q out keep
  | Resolved (Native (Ok r)) => exists data,
      (http1_response_has_no_body (native_response_status r) q.(Http1FastPath.method) = false -> upstream_sent r data)
      /\ on_wire (H:=M) (http1_version (native_version r)) (native_response_status r) q data out keep
  | Resolved (Looked (Ok r)) =>
      on_wire (H:=SnapshotHttp1DownstreamHeaders M) (http1_version (snapshot_version r)) (status_or_ok (snapshot_status r)) q
        (whole_body r) out keep
  end.

(** A body the writers can frame. *)
Definition resolution_ok (r : Http1DownstreamResolution M Plan) : Prop :=
  match r with
  | NativeLocal _ => True
  | Native (Err r) | Looked (Err r) | Graph r _ => Forall frame_ok (frames r)
  | Native (Ok r) =>
      match native_body r with
      | NoBody => True
      | Raw b _ => exists key cap reuse is_dirty c k t,
          b = Http1ResponseBody.MkBody (Http1SenderPool.MkLease key cap reuse is_dirty (Some c)) k t
          /\ Http1ResponseBody.open_kind k /\ Http1Relay.some_ok t /\ Z.of_nat (conn_size c) < U64_LIMIT
      end
  | Looked (Ok r) =>
      let b := snapshot_body r in
      BodyStream.ok (UpstreamBody.stream b) (UpstreamBody.body_source b) /\ Http1Relay.upstream_fine (UpstreamBody.body_source b)
      /\ len (whole_body r) <= U64_MAX /\ UpstreamBody.is_known_empty b = false
  end.
Definition reply_ok (a : Reply) : Prop :=
  match a with
  | NoProgram => True
  | Decline r | Failed r => Forall frame_ok (frames r)
  | Resolved r => resolution_ok r
  end.

(** *** Each writer *)

Lemma response_answers q (r : Response (M:=M)) keep (w w' : W) :
  Forall frame_ok (frames r) ->
  write_http1_response q.(Http1FastPath.method) q.(Http1FastPath.keep_alive) r w = (Ok keep, w') ->
  exists out, written w' = written w ++ out /\ response_on_wire r q out keep.
Proof.
  intros Hf Hw. destruct (response_written _ _ _ _ _ _ Hf Hw) as (h & body & Hout & Hk & _ & Hb).
  eexists. split; [exact Hout|]. exists h, body. split; [done|]. split; [done|]. by case_match.
Qed.

Lemma response_closes q (r : Response (M:=M)) keep (w w' : W) :
  Forall frame_ok (frames r) -> write_http1_response q.(Http1FastPath.method) false r w = (Ok keep, w') ->
  exists out, written w' = written w ++ out /\ response_on_wire r q out false.
Proof.
  intros Hf Hw. destruct (response_written _ _ _ _ _ _ Hf Hw) as (h & body & Hout & Hk & _ & Hb).
  destruct keep; [by destruct Hk|]. eexists. split; [exact Hout|]. exists h, body. split; [done|]. split; [done|]. by case_match.
Qed.

Lemma local_answers q (r : ResolvedNativeLocalHttp1DownstreamResponse (M:=M)) keep (w w' : W) :
  write_native_local_http1_response q.(Http1FastPath.method) q.(Http1FastPath.keep_alive) (any_version q.(Http1FastPath.version)) r w
    = (Ok keep, w') ->
  exists out, written w' = written w ++ out /\ local_on_wire r q out keep.
Proof.
  intros Hw. destruct (Http1Relay.local_response_exact _ _ _ _ _ _ _ Hw) as (h & Hout & Hk & Hv).
  eexists. split; [exact Hout|]. exists h. eexists. split; [done|]. split; [done|].
  destruct (http1_response_has_no_body _ _); [done|].
  assert (Hcl : values h "content-length" ≠ []) by by rewrite Hv, bool_decide_true by done.
  unfold framed. by rewrite rh_token_values, Hv, bool_decide_false, bool_decide_true by done.
Qed.

Lemma native_answers q (r : ResolvedNativeHttp1DownstreamResponse (M:=M)) p (w : W) :
  resolution_ok (Native (Ok r)) ->
  exists res p' w', write_native_http1_response vm_error_display q.(Http1FastPath.method) q.(Http1FastPath.keep_alive) r p w = Some (res, p', w')
    /\ match res with
       | Err _ => True
       | Ok keep => exists out, written w' = written w ++ out /\ answers q (Resolved (Native (Ok r))) out keep
       end.
Proof.
  cbn [resolution_ok answers]. destruct (native_body r) as [|b n] eqn:Hb.
  - intros _. unfold write_native_http1_response. cbv zeta. rewrite Hb.
    destruct (framing _ _ _ (native_head r)) as [[h chunked] keep] eqn:Hf.
    destruct (framing_spec _ _ _ _ _ _ _ Hf) as (Hc & Hkeep & Hv & Hcl).
    destruct (write_head _ _ _ w) as [[[]|e] w1] eqn:Hw1; [|by eexists (Err e), p, w1]. apply put_Ok in Hw1.
    destruct (http1_response_has_no_body _ _) eqn:Hno; cbn [negb] in Hcl |- *.
    + exists (Ok keep), p, w1. split; [done|]. eexists. split; [exact Hw1|]. exists []. split; [done|]. exists h, [].
      rewrite app_nil_r, Hno. split_and!; [done|by destruct keep|done].
    + destruct (finish_chunked chunked hm_new w1) as [[[]|e] w2] eqn:Hfin; [|by eexists (Err e), p, w2].
      destruct (finish_chunked_sound _ _ _ _ trailers_ok_new Hfin) as (tail & Hw2 & Htail).
      exists (Ok keep), p, w2. split; [done|]. rewrite Hw1, <-app_assoc in Hw2. eexists. split; [exact Hw2|].
      exists []. split; [by unfold upstream_sent; rewrite Hb|]. exists h, tail. rewrite Hno, <-!app_assoc.
      split_and!; [done|by destruct keep|]. rewrite Hc in Htail, Hcl.
      apply (pieces_framed h [] [] tail keep); [apply piece_nil|done|by apply Hcl].
  - intros (key & cap & reuse & is_dirty & c & k & t & -> & Hk & Ht & Hmax).
    destruct (Http1Relay.native_written vm_error_display key cap reuse is_dirty p q.(Http1FastPath.method)
      q.(Http1FastPath.keep_alive) r c k t n w Hb Hk Ht Hmax) as (res & p' & w' & Hrun & Hr).
    exists res, p', w'. split; [done|]. destruct res as [keep|e]; [|done]. destruct Hr as (h & out & Hw & Hkeep & _ & Hbody).
    eexists. split; [exact Hw|]. destruct (http1_response_has_no_body _ _) eqn:Hno.
    + exists []. split; [done|]. exists h, out. rewrite Hno. split_and!; [done..|apply Hbody].
    + destruct Hbody as (data & (consumed & c' & Htot & Hwire & _) & Hframed). exists data. split.
      * intros _. unfold upstream_sent. rewrite Hb. by exists key, cap, reuse, is_dirty, c, k, t, consumed, c'.
      * exists h, out. rewrite Hno. done.
Qed.

Lemma looked_answers q (r : ResolvedSnapshotHttp1DownstreamResponse (M:=M)) (w : W) :
  resolution_ok (Looked (Ok r)) ->
  exists res w', write_snapshot_http1_response vm_error_display q.(Http1FastPath.method) q.(Http1FastPath.keep_alive) r w = Some (res, w')
    /\ match res with
       | Err _ => True
       | Ok keep => exists out, written w' = written w ++ out /\ answers q (Resolved (Looked (Ok r))) out keep
       end.
Proof.
  intros (Hok & Hfine & Hmax & Hne).
  destruct (Http1Relay.snapshot_relayed vm_error_display q.(Http1FastPath.method) q.(Http1FastPath.keep_alive) r w Hok Hfine Hmax Hne)
    as (res & w' & Hrun & Hr).
  exists res, w'. split; [done|]. destruct res as [keep|e]; [|done]. destruct Hr as (h & out & Hw & Hkeep & _ & Hbody).
  eexists. split; [exact Hw|]. exists h, out. split; [done|]. split; [done|].
  destruct (http1_response_has_no_body _ _); [done|apply Hbody].
Qed.

(** *** Nothing that was written is taken back *)

Definition extends (w0 w : W) : Prop := exists l, written w = written w0 ++ l.
Lemma extends_refl w : extends w w.
Proof. exists []. by rewrite app_nil_r. Qed.
Lemma extends_trans w0 w1 w2 : extends w0 w1 -> extends w1 w2 -> extends w0 w2.
Proof. intros [l1 H1] [l2 H2]. exists (l1 ++ l2). by rewrite H2, H1, app_assoc. Qed.

Lemma keeps_put w0 l : keeps (extends w0) (put l).
Proof.
  intros w Hw. eapply extends_trans; [exact Hw|]. unfold put. destruct (write_all l w) as [[[]|e] w'] eqn:Hp; cbn.
  - exists l. by apply write_ok.
  - apply write_err in Hp as [n Hp]. by eexists.
Qed.
#[local] Hint Resolve keeps_put : keeps.

Lemma keeps_same w0 {A} (e : io_fault) : keeps (extends w0) (A:=A) (fun w => (Err e, w)).
Proof. by intros w. Qed.
#[local] Hint Resolve keeps_same : keeps.

Lemma keeps_send_data w0 chunked data : keeps (extends w0) (send_data chunked data).
Proof. unfold send_data. destruct chunked; [destruct (append_chunk_prefix _ _)|]; eauto with keeps. Qed.
Lemma keeps_finish_chunked w0 chunked (t : M) : keeps (extends w0) (finish_chunked chunked t).
Proof. unfold finish_chunked. destruct chunked; eauto with keeps. Qed.
#[local] Hint Resolve keeps_send_data keeps_finish_chunked : keeps.
Lemma keeps_write_frames w0 chunked fs (t : M) keep : keeps (extends w0) (write_frames chunked fs t keep).
Proof. revert t keep. induction fs as [|[[l|tr|]|e] fs IH]; intros t keep; cbn [write_frames]; eauto with keeps. Qed.
#[local] Hint Resolve keeps_write_frames : keeps.

Lemma keeps_write_response w0 method rka (r : Response (M:=M)) : keeps (extends w0) (write_http1_response method rka r).
Proof.
  unfold write_http1_response, write_head. destruct (framing _ _ _ _) as [[h chunked] keep]. apply (keeps_bind (extends w0)); [auto with keeps|].
  intros _. destruct (negb (negb _)); [auto with keeps|]. apply (keeps_bind (extends w0)); [auto with keeps|]. intros [t k]. eauto with keeps.
Qed.
Lemma keeps_write_local w0 method rka v (r : ResolvedNativeLocalHttp1DownstreamResponse (M:=M)) :
  keeps (extends w0) (write_native_local_http1_response method rka v r).
Proof.
  unfold write_native_local_http1_response, write_head. apply (keeps_bind (extends w0)); [auto with keeps|]. intros _.
  apply (keeps_bind (extends w0)); [|eauto with keeps]. destruct (_ <? _); auto with keeps.
Qed.

Lemma keeps_run w0 {A} (m : writer W A) w r w' : keeps (extends w0) m -> extends w0 w -> m w = (r, w') -> extends w0 w'.
Proof. intros Hm Hw Hr. specialize (Hm w Hw). by rewrite Hr in Hm. Qed.

Lemma relay_body_extends w0 fuel chunked (s : Http1ResponseBody.State M) (w : W) r s' w' :
  extends w0 w -> relay_body vm_error_display fuel chunked s w = Some (r, s', w') -> extends w0 w'.
Proof.
  revert s w. induction fuel as [|fuel IH]; intros s w Hw; [done|]. cbn [relay_body].
  destruct (Http1ResponseBody.pull_next s) as [[[[chunk|]|e] s1]|]; [|by intros [= <- <- <-]..|done].
  destruct (send_data chunked chunk w) as [[[]|e] w1] eqn:Hs; apply (keeps_run w0) in Hs; auto with keeps.
  - by apply IH.
  - by intros [= <- <- <-].
Qed.

Lemma relay_frames_extends w0 fuel chunked (pt : UpstreamBody.StreamingUpstreamResponseBodyState (M:=M)) t keep (w : W) r w' :
  extends w0 w -> relay_frames vm_error_display fuel chunked pt t keep w = Some (r, w') -> extends w0 w'.
Proof.
  revert pt t keep w. induction fuel as [|fuel IH]; intros pt t keep w Hw; [done|]. cbn [relay_frames].
  destruct (UpstreamBody.next_frame pt) as [[[[f|]|e] p1]|]; [|by intros [= <- <-]..|done].
  destruct f as [chunk|tr|]; [|by apply IH..].
  destruct (send_data chunked chunk w) as [[[]|e] w1] eqn:Hs; apply (keeps_run w0) in Hs; auto with keeps.
  - by apply IH.
  - by intros [= <- <-].
Qed.

Lemma native_extends method rka (r : ResolvedNativeHttp1DownstreamResponse (M:=M)) p (w : W) res p' w' :
  write_native_http1_response vm_error_display method rka r p w = Some (res, p', w') -> extends w w'.
Proof.
  unfold write_native_http1_response, write_head. destruct (framing _ _ _ _) as [[h chunked] keep].
  destruct (put _ w) as [[[]|e] w1] eqn:H1; apply (keeps_run w) in H1; auto using extends_refl with keeps; [|by intros [= <- <- <-]].
  destruct (negb (negb _)); [by intros [= <- <- <-]|]. destruct (native_body r) as [|b n].
  - destruct (finish_chunked _ _ w1) as [res1 w2] eqn:H2. apply (keeps_run w) in H2; auto with keeps. by intros [= <- <- <-].
  - destruct (relay_body _ _ _ _ w1) as [[[[[]|e] s] w2]|] eqn:H2; [|apply (relay_body_extends w) in H2; [by intros [= <- <- <-]|done]|done].
    apply (relay_body_extends w) in H2; [|done].
    destruct (finish_chunked _ _ w2) as [res1 w3] eqn:H3. apply (keeps_run w) in H3; auto with keeps. by intros [= <- <- <-].
Qed.

Lemma looked_extends method rka (r : ResolvedSnapshotHttp1DownstreamResponse (M:=M)) (w : W) res w' :
  write_snapshot_http1_response vm_error_display method rka r w = Some (res, w') -> extends w w'.
Proof.
  unfold write_snapshot_http1_response, write_head. destruct (framing _ _ _ _) as [[h chunked] keep].
  destruct (put _ w) as [[[]|e] w1] eqn:H1; apply (keeps_run w) in H1; auto using extends_refl with keeps; [|by intros [= <- <-]].
  destruct (take_body_passthrough r) as [pt|]; [|by intros [= <- <-]]. destruct (negb _); [|by intros [= <- <-]].
  destruct (relay_frames _ _ _ _ _ _ w1) as [[[[t k]|e] w2]|] eqn:H2; [|apply (relay_frames_extends w) in H2; [by intros [= <- <-]|done]|done].
  apply (relay_frames_extends w) in H2; [|done].
  destruct (finish_chunked _ _ w2) as [res1 w3] eqn:H3. apply (keeps_run w) in H3; auto with keeps. by intros [= <- <-].
Qed.

(** *** What the program's host promises *)

Abbreviation Body := (option FastHttp1RequestBodyState).

(** The body is only read, and what there is to answer with can be framed. *)
Definition body_pulled (b b' : Body) : Prop :=
  match b, b' with Some s, Some s' => pulled s s' | None, None => True | _, _ => False end.
Class RequestRunnerLaws : Prop := {
  execute_pulls p c x b : body_pulled b (execute_vm_with_context p c x b).2;
  resolve_pulls c x b : body_pulled b (resolve_http1_downstream_response c x b).2;
  resolve_ok c x b : resolution_ok (resolve_http1_downstream_response c x b).1.1;
  display_short e : len (bytes_of_string (vm_error_display e)) + 64 < U64_LIMIT;
}.
Context `{HRL : RequestRunnerLaws}.

Lemma body_pulled_refl b : body_pulled b b.
Proof. destruct b; [apply pulled_refl|done]. Qed.
Lemma body_pulled_trans b1 b2 b3 : body_pulled b1 b2 -> body_pulled b2 b3 -> body_pulled b1 b3.
Proof.
  destruct b1 as [s1|], b2 as [s2|], b3 as [s3|]; try done. cbn. induction 1 as [|s r s1 s2 Hp _ IH]; [done|].
  intros H3. eapply pulled_next; [exact Hp|by apply IH].
Qed.

Lemma text_ok status text : len (bytes_of_string text) < U64_LIMIT -> Forall frame_ok (frames (M:=M) (text_response status text)).
Proof. intros Hl. cbn. unfold body_from. case_bool_decide; by repeat constructor. Qed.

Lemma error_ok e : Forall frame_ok (frames (M:=M) (data_plane_vm_execution_error_response vm_error_display e)).
Proof.
  destruct e as [e|e]; apply text_ok; pose proof (display_short e) as Hs; rewrite bytes_of_string_app, len_app;
    match goal with |- ?n + _ < _ => assert (n < 64) by by vm_compute end; lia.
Qed.

(** The program only reads the body, and is always answered for. *)
Lemma run_request_spec q x b a x1 b1 :
  run_request vm_error_display q x b = (a, x1, b1) ->
  reply_ok a /\ body_pulled b b1 /\ forall r, a = Decline r -> r = text_response 404 "not found".
Proof.
  unfold run_request, prepare_data_plane_http_request_context, run_prepared_data_plane_http_request_context.
  destruct (loaded_program_snapshot x) as [p0|]; [|by intros [= <- <- <-]; split_and!; [|apply body_pulled_refl|]].
  destruct (loaded_program_snapshot (record_data_plane_request x)) as [p|].
  2: { intros [= <- <- <-]. split_and!; [by apply text_ok|apply body_pulled_refl|by intros r [= <-]]. }
  destruct (new_vm_context p q (record_data_plane_request x)) as [c x2].
  pose proof (execute_pulls p c x2 b) as He. destruct (execute_vm_with_context p c x2 b) as [[[[]|e] x3] b3]; cbn in He.
  - pose proof (resolve_pulls c (finish_downstream_response_stream c x3) b3) as Hr.
    pose proof (resolve_ok c (finish_downstream_response_stream c x3) b3) as Hok.
    destruct (resolve_http1_downstream_response c _ b3) as [[r x4] b4]. intros [= <- <- <-].
    split_and!; [exact Hok|by eapply body_pulled_trans|done].
  - intros [= <- <- <-]. split_and!; [apply error_ok|exact He|done].
Qed.

(** What writing an answer does to the host. *)
Definition settles (a : Reply) (x x' : X) : Prop :=
  match a with
  | Resolved (Native (Ok _)) => exists p, x' = set_plain_http1_sender_pool p x
  | Resolved (Graph _ (Some plan)) => x' = spawn_post_response_plan plan x
  | _ => x' = x
  end.

(** The answer [a] was written, or a part of it. *)
Definition wrote (q : Request) (a : Reply) (x : X) (w : W) (res : result io_fault bool) (x' : X) (w' : W) : Prop :=
  extends w w' /\ settles a x x' /\
  match res with Ok keep => exists out, written w' = written w ++ out /\ answers q a out keep | Err _ => True end.

Lemma plain_wrote q a x x' (w : W) (m : writer W bool) res w' :
  m w = (res, w') -> keeps (extends w) m -> settles a x x' ->
  (forall keep, m w = (Ok keep, w') -> exists out, written w' = written w ++ out /\ answers q a out keep) ->
  exists res1 x1 w1, Some (res, x', w') = Some (res1, x1, w1) /\ wrote q a x w res1 x1 w1.
Proof.
  intros Hm Hk Hs Ha. exists res, x', w'. split; [done|]. split; [by eapply keeps_run; [exact Hk|apply extends_refl|]|].
  split; [done|]. destruct res as [keep|e]; [|done]. by apply Ha.
Qed.

Lemma reply_written q c a x (w : W) :
  reply_ok a -> exists res x' w', write_reply vm_error_display q (Some c) a x w = Some (res, x', w') /\ wrote q a x w res x' w'.
Proof.
  intros Hok.
  unfold write_reply, on_stream.
  destruct a as [|r|r|[r|[r|r]|[r|r]|r plan]]; cbn [reply_ok resolution_ok settles] in *;
    try (destruct (write_http1_response _ _ r w) as [res w'] eqn:Hw; eapply plain_wrote; [exact Hw|apply keeps_write_response| |intros keep Hw'; by apply response_answers]; by try destruct plan);
    try (destruct (write_native_local_http1_response _ _ _ _ w) as [res w'] eqn:Hw; eapply plain_wrote; [exact Hw|apply keeps_write_local|done|intros keep Hw'; by apply local_answers]).
  - destruct (native_answers q r (plain_http1_sender_pool x) w Hok) as (res & p' & w' & Hrun & Hr). rewrite Hrun.
    exists res, (set_plain_http1_sender_pool p' x), w'. split; [done|]. split; [by eapply native_extends|]. split; [by eexists|].
    by destruct res.
  - destruct (looked_answers q r w Hok) as (res & w' & Hrun & Hr). rewrite Hrun.
    exists res, x, w'. split; [done|]. split; [by eapply looked_extends|]. split; [done|]. by destruct res.
Qed.

(** ** One request after the other *)

(** The peer can leave a write unfinished. *)
Definition fails : Prop := exists l (w : W) e w', write_all l w = (Err e, w').

(** [served rs x out e x']: a connection on which the requests [rs] are sent is
    answered with [out] and ends with [e]. *)
Inductive served : list item -> X -> list Z -> ending -> X -> Prop :=
| served_all x : served [] x [] PeerClosed x
| served_hyper i rs x c :
    holds c (stream_of (i :: rs)) -> fast (M:=M) i = false \/ MAX_HTTP1_HEAD_BYTES < len (buffered c) ->
    served (i :: rs) x [] (ViaHyper c) x
| served_unread i rs x n e :
    fails -> served (i :: rs) x (take n continue_100) (ReadFailed e) x
| served_next i rs x q b kept a x1 b1 out x2 outs e x3 :
    item_request i = Some q -> leased i (stream_of rs) b kept -> run_request vm_error_display q x b = (a, x1, b1) ->
    answers q a out true -> settles a x1 x2 -> served rs x2 outs e x3 ->
    served (i :: rs) x (interim (M:=M) i ++ out ++ outs) e x3
| served_last i rs x q b kept a x1 b1 out x2 :
    item_request i = Some q -> leased i (stream_of rs) b kept -> run_request vm_error_display q x b = (a, x1, b1) ->
    answers q a out false -> settles a x1 x2 ->
    served (i :: rs) x (interim (M:=M) i ++ out) NotKept x2
| served_broken i rs x q b kept a x1 b1 out x2 f :
    item_request i = Some q -> leased i (stream_of rs) b kept -> run_request vm_error_display q x b = (a, x1, b1) ->
    settles a x1 x2 -> served (i :: rs) x (interim (M:=M) i ++ out) (WriteFailed f) x2
| served_declined i rs x q b kept r x1 b1 out :
    item_request i = Some q -> leased i (stream_of rs) b kept -> run_request vm_error_display q x b = (Decline r, x1, b1) ->
    match b with Some _ => out = [] | None => answers q (Decline r) out false \/ fails end ->
    served (i :: rs) x (interim (M:=M) i ++ out) Declined x1.

Lemma triple_write l : triple (fun _ => True) (put l) (fun _ (_ : W) => True) (fun _ _ => fails).
Proof. intros w _. unfold put. destruct (write_all l w) as [[[]|e] w'] eqn:Hw; [done|]. by exists l, w, e, w'. Qed.

(** Only the peer keeps a response of one piece from being written. *)
Lemma text_response_fails method rka status text (w : W) e w' :
  len (bytes_of_string text) < U64_LIMIT ->
  write_http1_response (M:=M) method rka (text_response status text) w = (Err e, w') -> fails.
Proof.
  intros Hlen Hw. assert (Ht : triple (fun _ => True) (write_http1_response (M:=M) method rka (text_response status text))
    (fun _ (_ : W) => True) (fun _ _ => fails)); [|specialize (Ht w I); by rewrite Hw in Ht].
  unfold write_http1_response, write_head. destruct (framing _ _ _ _) as [[h chunked] keep].
  eapply (triple_bind _ _ _ (fun _ _ => True)); [apply triple_write|]. intros []. destruct (negb (negb _)); [by apply triple_ret|].
  assert (Hfin : forall t (k : bool), triple (A:=bool) (fun _ => True) (_ ← finish_chunked (M:=M) chunked t; mret (M:=writer W) k) (fun _ _ => True) (fun _ _ => fails)).
  { intros t k. eapply (triple_bind _ _ _ (fun _ _ => True)); [|by intros ?; apply triple_ret]. unfold finish_chunked. destruct chunked; [apply triple_write|by apply triple_ret]. }
  eapply (triple_bind _ _ _ (fun _ _ => True)); [|intros [t k]; apply Hfin]. cbn [frames text_response]. unfold body_from.
  case_bool_decide; cbn [write_frames]; [by apply triple_ret|].
  eapply (triple_bind _ _ _ (fun _ _ => True)); [|by intros ?; apply triple_ret].
  unfold send_data. destruct chunked; [|apply triple_write].
  destruct (chunk_prefix_line (len (bytes_of_string text)) [] ltac:(pose proof (len_nonneg (bytes_of_string text)); lia)) as (line & -> & _).
  apply triple_write.
Qed.

Lemma error_extends method conn (r : Response (M:=M)) (w : W) : extends w (write_error_response method conn r w).
Proof.
  unfold write_error_response, on_stream. destruct conn as [c|]; [apply keeps_write_response|]; apply extends_refl.
Qed.

(** One request of the stream: the connection ends up at the next one. *)
Definition request_served (i : item) (rs : list item) (x : X) (w : W) (q : Request) (b : Body)
    (r : result ending (option Connection)) (x2 : X) (w2 : W) : Prop :=
  exists a x1 b1 out, run_request vm_error_display q x b = (a, x1, b1) /\ written w2 = written w ++ out /\
  match r with
  | Ok conn => answers q a out true /\ settles a x1 x2 /\ exists c, conn = Some c /\ holds c (stream_of rs)
  | Err NotKept => answers q a out false /\ settles a x1 x2
  | Err (WriteFailed _) => settles a x1 x2
  | Err Declined => x2 = x1 /\ exists r, a = Decline r
      /\ match b with Some _ => out = [] | None => answers q (Decline r) out false \/ fails end
  | _ => False
  end.

Lemma declined_served i rs x (w : W) q b kept r x1 b1 :
  leased i (stream_of rs) b kept -> run_request vm_error_display q x b = (Decline r, x1, b1) ->
  request_served i rs x w q b (Err Declined) x1 (write_error_response q.(Http1FastPath.method) kept r w).
Proof.
  intros Hl Hrun. destruct (run_request_spec _ _ _ _ _ _ Hrun) as (Hok & _ & Hr). specialize (Hr r eq_refl).
  destruct (error_extends q.(Http1FastPath.method) kept r w) as [out Hout]. exists (Decline r), x1, b1, out. split; [done|]. split; [done|].
  split; [done|]. exists r. split; [done|]. destruct b as [s|].
  - destruct Hl as [-> _]. cbn in Hout. apply (f_equal length) in Hout. rewrite length_app in Hout. destruct out; [done|cbn in Hout; lia].
  - destruct Hl as (_ & _ & c & -> & _). revert Hout. unfold write_error_response, on_stream.
    destruct (write_http1_response q.(Http1FastPath.method) false r w) as [[keep|e] w'] eqn:Hw; cbn [snd]; intros Hout.
    + left. destruct (response_closes q r keep w w' Hok Hw) as (out' & Hout' & Ha). rewrite Hout' in Hout. by simplify_list_eq.
    + right. subst r. by eapply text_response_fails; [|exact Hw].
Qed.

(** Draining what the program left of a body brings the connection to the next
    request. *)
Lemma lease_finished method i rest b kept b1 (w : W) :
  leased i rest b kept -> body_pulled b b1 ->
  exists c, finish_lease (M:=M) method kept b1 w = Some (Ok (Some c), w) /\ holds c rest.
Proof.
  destruct b as [s|], b1 as [s1|]; try done; cbn [leased body_pulled finish_lease].
  - intros (-> & Hok & sf & c & Hr & Hf & Hh) Hp. rewrite (finish_pulled _ _ _ _ _ Hok Hr Hf Hp). by exists c.
  - intros (_ & _ & c & -> & Hh) _. by exists c.
Qed.

Lemma serve_request_item i rs x (w : W) q b kept :
  leased i (stream_of rs) b kept ->
  exists r x2 w2, serve_request vm_error_display q kept b x w = Some (r, x2, w2) /\ request_served i rs x w q b r x2 w2.
Proof.
  intros Hl. unfold serve_request. destruct (run_request vm_error_display q x b) as [[a x1] b1] eqn:Hrun.
  destruct (run_request_spec _ _ _ _ _ _ Hrun) as (Hok & Hp & _).
  destruct (lease_finished q.(Http1FastPath.method) _ _ _ _ _ w Hl Hp) as (c & Hfin & Hc).
  destruct (reply_written q c a x1 w Hok) as (res & x2 & w2 & Hw & [out0 He] & Hset & Hres).
  assert (Hgo : exists r x2 w2, ('(r, w) ← finish_lease (M:=M) q.(Http1FastPath.method) kept b1 w;
      match r with
      | Err e => Some (Err e, x1, w)
      | Ok conn =>
          '(r, x, w) ← write_reply vm_error_display q conn a x1 w;
          Some (match r with Err e => Err (WriteFailed e) | Ok true => Ok conn | Ok false => Err NotKept end, x, w)
      end) = Some (r, x2, w2) /\ request_served i rs x w q b r x2 w2).
  { rewrite Hfin. cbn [mbind option_bind]. rewrite Hw. cbn [mbind option_bind]. eexists _, x2, w2. split; [done|].
    destruct res as [[]|f]; [destruct Hres as (out & Hout & Ha)..|].
    - exists a, x1, b1, out. split_and!; [done..|by exists c].
    - exists a, x1, b1, out. by split_and!.
    - exists a, x1, b1, out0. by split_and!. }
  destruct a as [|r|r|r]; try exact Hgo. eexists _, x1, _. split; [done|]. by eapply declined_served.
Qed.

Context (one_stream : forall l (w : W), Http1FastPath.write_all l w = write_all l w).
Context (parse_nothing : parse_request [] = Partial).

Lemma stream_length rs : Forall (item_ok (M:=M)) rs -> (length rs <= length (stream_of rs))%nat.
Proof.
  induction 1 as [|i rs [(Hne & _) _] _ IH]; [done|]. unfold stream_of in *. cbn. rewrite !length_app.
  destruct (head i); [done|]. cbn. lia.
Qed.

Lemma loop_served rs fuel c x (w : W) :
  Forall (item_ok (M:=M)) rs -> holds c (stream_of rs) -> (length rs < fuel)%nat ->
  exists e x' w' out, serve_loop vm_error_display fuel (Some c) x w = Some (e, x', w')
    /\ written w' = written w ++ out /\ served rs x out e x'.
Proof.
  intros Hok. revert fuel c x w. induction Hok as [|i rs Hi Hok IH]; intros [|fuel] c x w Hh Hf; try (cbn in Hf; lia).
  { destruct c as [buf inc]. destruct Hh as [Hinc Ht]. unfold total in Ht. cbn in Ht. apply app_nil in Ht as [Hb Hc]. subst buf.
    cbn [buffered incoming] in *. destruct inc as [|r inc]; [|apply Forall_cons in Hinc as [(y & l & ->) _]; done].
    cbn [serve_loop]. unfold read_next_fast_http1_request. cbn [buffered incoming read_next_loop]. cbn [Z.ltb]. rewrite parse_nothing.
    rewrite (proj2 (Z.ltb_ge _ _)) by by vm_compute. rewrite bool_decide_true by done. eexists _, x, w, []. split; [done|].
    split; [by rewrite app_nil_r|constructor]. }
  unfold stream_of in Hh. cbn [fmap list_fmap concat] in Hh. rewrite <-app_assoc in Hh. fold (stream_of rs) in Hh.
  pose proof (read_item one_stream i (stream_of rs) c w Hi Hh) as Hr. cbn [serve_loop].
  destruct (read_next_fast_http1_request c w) as [[[[| |q b]|[e|m|]] kept] w1]; cbn [item_read] in Hr; try done.
  - destruct Hr as (-> & c' & -> & Hh' & Hwhy). eexists _, x, w, []. split; [done|]. split; [by rewrite app_nil_r|].
    constructor; [|done]. unfold stream_of. cbn [fmap list_fmap concat]. by rewrite <-app_assoc.
  - destruct Hr as (Hq & Hl & Hw1). destruct (serve_request_item i rs x w1 q b kept Hl) as (r & x2 & w2 & -> & Hs).
    cbn [mbind option_bind]. destruct Hs as (a & x1 & b1 & out & Hrun & Hw2 & Hs). destruct r as [conn|e].
    + destruct Hs as (Ha & Hset & c' & -> & Hc). destruct (IH fuel c' x2 w2 Hc ltac:(cbn in Hf; lia)) as (e & x3 & w3 & outs & -> & Hw3 & Hserved).
      eexists e, x3, w3, _. split; [done|]. split; [|by eapply served_next]. by rewrite Hw3, Hw2, Hw1, <-!app_assoc.
    + exists e, x2, w2, (interim (M:=M) i ++ out). split; [done|]. split; [by rewrite Hw2, Hw1, <-app_assoc|].
      destruct e; try done.
      * destruct Hs as (-> & r & -> & Hb). by eapply served_declined.
      * by eapply served_broken.
      * destruct Hs as [Ha Hset]. by eapply served_last.
  - destruct Hr as ((n & Hw1) & Hfail). eexists _, x, w1, _. split; [done|]. split; [exact Hw1|]. constructor.
    by exists continue_100, w, e, w1.
Qed.


(** ** Every connection ends *)

Context (parse_progress : forall l n r, parse_request l = Complete n r -> (0 < n <= length l)%nat).

Lemma content_length_nonneg (h : LazyHttpHeaders M) n : content_length h = Some n -> 0 <= n.
Proof.
  unfold content_length. destruct (get_str h _) as [v|]; [|done]. cbn. destruct (parse_u64 v) as [k|e] eqn:Hk; [|done].
  intros [= ->]. apply from_str_radix_bounds in Hk; [lia|done].
Qed.
Lemma classify_nonneg (h : LazyHttpHeaders M) n : classify_downstream_http1_fast_body_lazy h = Some (BodyFixed n) -> 0 <= n.
Proof.
  unfold classify_downstream_http1_fast_body_lazy. destruct (_ && _); [done|]. destruct (contains_name _ _); [by case_match|].
  destruct (content_length h) as [k|] eqn:Hk; [|done]. destruct (k =? 0); [done|]. intros [= ->]. by eapply content_length_nonneg.
Qed.

(** A request that was read leaves less on the connection than there was. *)
Definition smaller (n : nat) (r : result FastHttp1ReadError (Http1FastPath.FastHttp1Decision M U) * option Connection * W) : Prop :=
  match r with
  | (Ok (Http1FastPath.Request q None), kept, _) => exists c, kept = Some c /\ (conn_size c < n)%nat
  | (Ok (Http1FastPath.Request q (Some s)), kept, _) => body_ok s /\ (measure s < n)%nat
  | _ => True
  end.

Lemma accept_smaller consumed p c (w : W) :
  parse_request c.(buffered) = Complete consumed p -> smaller (conn_size c) (accept consumed p c w).
Proof.
  intros Hp. apply parse_progress in Hp. unfold accept, Http1FastPath.fallback.
  destruct (request_line p) as [[[m v] u]|]; [|done]. destruct (negb _); [done|].
  match goal with |- context[let '(_, _) := ?y in _] => destruct y as [[[]|e] w'] end; [|done].
  assert (Hsz : (conn_size (c <| buffered := drop consumed (buffered c) |>) < conn_size c)%nat).
  { unfold conn_size, total. cbn. rewrite !length_app, length_drop. lia. }
  destruct (classify_downstream_http1_fast_body_lazy _) as [[|n|]|] eqn:Hk; cbn [smaller]; [by eexists|..|done].
  - split; [split; [|done]; by eapply classify_nonneg|]. unfold measure, Http1RequestBody.body_size. cbn. lia.
  - split; [done|]. unfold measure, Http1RequestBody.body_size. cbn. lia.
Qed.

Lemma smaller_weaken n n' r : (n <= n')%nat -> smaller n r -> smaller n' r.
Proof. intros Hle. destruct r as [[[[| |q [s|]]|e] kept] w]; cbn; [done..| | |done]; [intros [? ?]; split; [done|lia]|intros (c & ? & ?); exists c; split; [done|lia]]. Qed.

Lemma read_smaller c (w : W) : smaller (conn_size c) (read_next_fast_http1_request c w).
Proof.
  unfold read_next_fast_http1_request. destruct c as [buf inc]. cbn [buffered incoming].
  revert buf. induction inc as [|r inc IH]; intros buf; cbn [read_next_loop]; (destruct (_ <? _); [done|]);
    (destruct (parse_request buf) as [n p| |] eqn:Hp; [by apply (accept_smaller n p (MkConn buf _))| |done]).
  - by case_bool_decide.
  - destruct r as [[|y l]|e]; [by case_bool_decide| |done]. eapply smaller_weaken; [|apply IH]. rewrite conn_size_data. lia.
Qed.

(** A request's serving ends, and a connection that goes on is no larger. *)
Lemma serve_request_ends q b kept x (w : W) n :
  match b with None => exists c, kept = Some c /\ (conn_size c < n)%nat | Some s => body_ok s /\ (measure s < n)%nat end ->
  exists r x2 w2, serve_request vm_error_display q kept b x w = Some (r, x2, w2)
    /\ forall conn, r = Ok conn -> exists c, conn = Some c /\ (conn_size c < n)%nat.
Proof.
  intros Hb. unfold serve_request. destruct (run_request vm_error_display q x b) as [[a x1] b1] eqn:Hrun.
  destruct (run_request_spec _ _ _ _ _ _ Hrun) as (Hok & Hp & _).
  assert (Hfin : exists r w1, finish_lease (M:=M) q.(Http1FastPath.method) kept b1 w = Some (r, w1)
    /\ forall conn, r = Ok conn -> exists c, conn = Some c /\ (conn_size c < n)%nat).
  { destruct b as [s|], b1 as [s1|]; try done; cbn [finish_lease].
    - destruct Hb as [Hs Hm]. destruct (pulled_measure _ _ Hp Hs) as [Hs1 Hm1]. destruct (finish_size s1 Hs1) as (r & -> & Hr). cbn [mbind option_bind].
      destruct r as [c|[[e|m|] ret]]; (eexists _, _; split; [done|]); intros conn [= <-]. exists c. split; [done|]. specialize (Hr c eq_refl). lia.
    - eexists _, _. split; [done|]. intros conn [= <-]. exact Hb. }
  destruct Hfin as (r & w1 & Hfin & Hconn).
  assert (Hgo : exists r x2 w2, ('(r, w) ← finish_lease (M:=M) q.(Http1FastPath.method) kept b1 w;
      match r with
      | Err e => Some (Err e, x1, w)
      | Ok conn =>
          '(r, x, w) ← write_reply vm_error_display q conn a x1 w;
          Some (match r with Err e => Err (WriteFailed e) | Ok true => Ok conn | Ok false => Err NotKept end, x, w)
      end) = Some (r, x2, w2) /\ forall conn, r = Ok conn -> exists c, conn = Some c /\ (conn_size c < n)%nat).
  { rewrite Hfin. cbn [mbind option_bind]. destruct r as [conn|e]; [|by eexists _, _, _].
    destruct (Hconn conn eq_refl) as (c & -> & Hc). destruct (reply_written q c a x1 w1 Hok) as (res & x2 & w2 & Hw & _).
    rewrite Hw. cbn [mbind option_bind]. eexists _, x2, w2. split; [done|]. destruct res as [[]|f]; [|done..]. intros conn [= <-]. by exists c. }
  destruct a; try exact Hgo. by eexists _, x1, _.
Qed.

Lemma loop_ends fuel c x (w : W) : (conn_size c < fuel)%nat -> is_Some (serve_loop vm_error_display fuel (Some c) x w).
Proof.
  revert c x w. induction fuel as [|fuel IH]; intros c x w Hf; [lia|]. cbn [serve_loop].
  pose proof (read_smaller c w) as Hs. destruct (read_next_fast_http1_request c w) as [[[[| |q b]|[e|m|]] kept] w1]; try by eexists.
  destruct (serve_request_ends q b kept x w1 (conn_size c)) as (r & x2 & w2 & -> & Hr); [by destruct b|]. cbn [mbind option_bind].
  destruct r as [conn|e]; [|by eexists]. destruct (Hr conn eq_refl) as (c' & -> & Hc). apply IH. lia.
Qed.

(** Serving a connection ends, whatever the peer sends and the program does:
    a connection that goes on has been taken a head off. *)
Theorem connection_ends c x (w : W) : is_Some (serve_http1_connection vm_error_display c x w).
Proof. unfold serve_http1_connection. destruct (program_may_stream_downstream_http_response _); [by eexists|]. apply loop_ends. lia. Qed.

(** ** Where a request is not answered *)

(** When the program is unloaded between the check and the context, a request
    with a body gets nothing: its connection is still lent to the body, the
    response is written to none, and the connection is closed. *)
Theorem program_gone_unanswered q s x (w : W) p :
  loaded_program_snapshot x = Some p -> loaded_program_snapshot (record_data_plane_request x) = None ->
  serve_request vm_error_display q None (Some s) x w = Some (Err Declined, record_data_plane_request x, w).
Proof.
  intros Hp Hn. unfold serve_request, run_request, prepare_data_plane_http_request_context. by rewrite Hp, Hn.
Qed.
End replies.

(** ** Concrete connections *)

#[local] Existing Instances Http1Upstream.bytes_sink Http1Upstream.bytes_sink_laws.
Abbreviation hmap := (list (string * list Z)).
Abbreviation line := Http1Relay.line.

(** A head is one line: [c] announces chunks, [x] asks to close, another is the
    length of the body. *)
Definition line_header (l : list Z) : list Z * list Z :=
  if bool_decide (l = [99]) then (bytes_of_string "transfer-encoding", bytes_of_string "chunked")
  else if bool_decide (l = [120]) then (bytes_of_string "connection", bytes_of_string "close")
  else (bytes_of_string "content-length", l).
Definition line_request (l : list Z) : HttparseRequest :=
  Http1FastPath.MkParsed (Some "POST") (Some 1) (Some "/") [line_header l].
#[local] Instance line_parser : HttpParser unit (list Z) := {
  parse_request l :=
    match find_crlf l with
    | Some i => Complete (i + 2) (line_request (take i l))
    | None => Partial
    end;
  method_from_bytes m := Some m;
  parse_uri _ := Some tt;
  write_all l w := (Ok tt, w ++ l);
}.

(** A program that reads one piece of a body and answers with it; the host
    keeps the pieces. *)
#[local] Instance echo_host : RequestRunner (list (list Z)) unit unit unit hmap unit := {
  loaded_program_snapshot _ := Some tt;
  imports _ := [];
  record_data_plane_request x := x;
  new_vm_context _ _ x := (tt, x);
  execute_vm_with_context _ _ x b :=
    match b with
    | None => (Ok tt, [] :: x, None)
    | Some s =>
        match Http1RequestBody.pull_next s with
        | Some (Ok chunk, s) => (Ok tt, default [] chunk :: x, Some s)
        | Some (Err _, s) => (Err (Vm (HostError "read failed")), x, Some s)
        | None => (Ok tt, x, b)
        end
    end;
  finish_downstream_response_stream _ x := x;
  resolve_http1_downstream_response _ x b := (NativeLocal (MkLocal 200 [] (hd [] x) true), x, b);
  spawn_post_response_plan _ x := x;
  plain_http1_sender_pool _ := Http1SenderPool.new_pool;
  set_plain_http1_sender_pool _ x := x;
}.
#[local] Instance echo_host_laws : RequestRunnerLaws (HC:=any_crate) Http1Relay.show.
Proof.
  split.
  - intros p c x [s|]; cbn; [|done]. destruct (Http1RequestBody.pull_next s) as [[[chunk|e] s']|] eqn:Hp; cbn;
      [by eapply pulled_next; [exact Hp|apply pulled_refl]..|apply pulled_refl].
  - intros c x [s|]; cbn; [apply pulled_refl|done].
  - done.
  - by intros e; vm_compute.
Defined.

Abbreviation serve := (serve_http1_fast_connection (HC:=any_crate) (HR:=echo_host) Http1Relay.show).

Lemma line_head a p :
  find_crlf [a] = None -> find_crlf [a; 13] = None -> parse_request [a; 13; 10] = Complete 3 p ->
  (forall more, parse_request ([a; 13; 10] ++ more) = Complete 3 p) -> is_head [a; 13; 10] p.
Proof.
  intros H1 H2 H3 Hm. split_and!; [done|intros b [k Hk] Hne|done].
  destruct b as [|b0 [|b1 [|b2 b]]]; cbn in Hk; [done|injection Hk as <- _|injection Hk as <- <- _|injection Hk as <- <- <- Hb].
  - unfold parse_request, line_parser. by rewrite H1.
  - unfold parse_request, line_parser. by rewrite H2.
  - symmetry in Hb. by apply app_nil in Hb as [-> _].
Qed.

Definition abc : item := MkItem (line "3") (line_request [51]) [97; 98; 99] [97; 98; 99].
Definition last : item := MkItem (line "x") (line_request [120]) [] [].

Lemma abc_ok : item_ok (M:=hmap) (HC:=any_crate) abc.
Proof.
  split; [apply line_head; by vm_compute|by vm_compute].
Defined.
Lemma last_ok : item_ok (M:=hmap) (HC:=any_crate) last.
Proof.
  split; [apply line_head; by vm_compute|by vm_compute].
Defined.

Lemma bytes_stream l (w : list Z) : Http1FastPath.write_all (U:=unit) l w = write_all l w.
Proof. done. Qed.


(** A chunk over the limit that the program does not get to read is taken for
    the next request: the client that sent one request gets two answers. *)
Lemma oversized_chunk_answered :
  option_map (fun r => (r.1.1, r.2)) (serve (MkConn (line "c" ++ line "100001" ++ line "x") []) [] [])
  = Some (NotKept,
      (line "HTTP/1.1 500 OK" ++ line "transfer-encoding: chunked" ++ CRLF
         ++ line "19" ++ line "vm execution error: error" ++ line "0" ++ CRLF)
      ++ (line "HTTP/1.1 200 OK" ++ line "content-length: 0" ++ line "connection: close" ++ CRLF)).
Proof. by vm_compute. Qed.
End Http1Pipeline.
